(* ===== verification/_CoqProject ===== *)
-Q . S2P
Prelude.v
State.v
Floats.v
BlockStates.v
BlockStatesProps.v
Network.v
Types.v
Codec.v
Structures.v
Add.v
Pop.v
PrimaryLaws.v
CompositeLaws.v
PrimarySafety.v
RoundTrip.v
ServerPackets.v
ServerWire.v
PacketLaws.v
Nbt.v
NbtLaws.v
NbtSafety.v
DynamicStorage.v
StorageLaws.v
Palette.v
Section.v
SectionLaws.v
SectionProps.v
ChunkColumn.v
ChunkLaws.v
ChunkProps.v
ChunkGeneration.v
GenerationLaws.v
GenerationProps.v
Terrain.v
Level.v
LevelProps.v
Persistence.v
PersistenceProps.v
Container.v
Inventory.v
InventoryLaws.v
InventoryProps.v
ClientPackets.v
AddStructures.v
CreatePackets.v
ClientWire.v
Json.v
LootTables.v
Recipes.v
Message.v
MessageProps.v
Whitelist.v
Checksum.v
Configuration.v
ClientProps.v
ChunkWireProps.v
DumpChunk.v
Logging.v
Game.v
Plugins.v
ThreadPool.v
Worlds.v
WorldsProps.v
Dimension.v
World.v
PlayerView.v
Player.v
Sounds.v
Commands.v
PlayerHandlers.v
Client.v
Server.v
Example.v
PermissionProps.v
ServerProps.v
PlayerViewProps.v
ClientLaws.v
ConnectionProps.v
LoginProps.v
PlayerProps.v
