(* ===== verification/Prelude.v ===== *)
(** * Cubic Server: a verification library

    Cubic Server is a Minecraft server.  This library models its core, in
    src/cubic-server/, and proves what makes it correct.  A definition carries the
    name of the function it translates, with the class in front for methods
    ([ChunkColumn_updateBlock]); a class is a Record (the fields keep their names), an
    enumeration an Inductive type or the integers of its underlying type, and every
    integer is a [Z] that is wrapped to its width ([to_i32], [wrap_u]) at the places
    where the code converts or overflows.

    ** Conventions

    - A function that can fail returns a [result] (this file): a value, a C++
      exception, one of the undefined behaviours the code can reach, or [OutOfFuel].
      A method is of type [M S A] (State.v): it also leaves its object in a state,
      when it throws as well.
    - Recursion that is not structural takes fuel, and a theorem of its group shows
      that the fuel is enough: the NBT parser gets the length of the buffer
      ([nbt_parse_safe]), the generation its five states ([ChunkColumn_generate_overworld]),
      the packet loop of a client any number of turns ([handle_loop]), of which
      [negative_length_never_ends] shows that no number is enough.
    - What the code takes from outside of src/ is a parameter: the printer and parser
      of JSON ([JsonLib]), the block cipher ([Cfb8]), RSA, the session server and the
      hash of strings ([Identity]), the plugins ([Plugins], [DynamicLibraries]),
      the levels of the log ([Spdlog]), the thread pool as the
      component that loads chunks later ([JobPool]), [std::stod], the disk, and the Perlin
      noise ([PerlinNoise]).  Example.v has a concrete
      function for each.
    - In the game one thread runs at a time: locks make the operations atomic and are
      left out, and the places where the code needs a lock and has none are findings.
      The server, the worlds and the thread pool, whose threads matter, are step
      relations.

    ** The parts

    - Values and their encodings.  Types (types.hpp), Floats (the IEEE 754 formats,
      from [SpecFloat], intervals of rounded results, and the vectors of math/), Codec, Add, Pop (protocol/serialization/),
      Structures (Slot), Nbt (nbt.cpp).  PrimaryLaws, CompositeLaws, RoundTrip,
      PrimarySafety, NbtLaws, NbtSafety, Checksum: what a writer emits its reader takes
      back, and a reader stays inside of its buffer on any bytes.
    - The packets a client sends.  ServerPackets (protocol/ServerPackets.cpp): a record
      and a parser for each, and the dispatch tables; ServerWire: the client's writers;
      PacketLaws: every packet is parsed back, no parser leaves the buffer.
    - The packets the server makes.  ClientPackets, AddStructures, CreatePackets
      (protocol/ClientPackets.cpp, add.hpp, PacketUtils.hpp); ClientWire, ClientProps,
      ChunkWireProps: a client that knows the protocol reads back what was
      sent, down to the blocks and the light of a chunk.
    - The stored world.  DynamicStorage, Palette, Section, ChunkColumn,
      ChunkGeneration, Level (world_storage/, generation/features/): packed arrays
      refine lists (StorageLaws), sections and columns are arrays of blocks
      (SectionProps, ChunkProps), generation terminates (GenerationProps), the
      noise makes a ground of bounded height and its cache cannot be seen (Terrain), a write
      changes one block of the world (LevelProps).  Persistence (world_storage/
      Persistence.cpp): the files of a saved world; PersistenceProps: a region reads
      back, block by block, and where it does not.
    - Items.  Container, Inventory (protocol/container/) over a store of slots in which
      two references can be the same slot; InventoryProps: what clicks conserve.
    - Identifiers.  BlockStates (protocol_id_converter/), BlockStatesProps.
    - Text.  Json, Message (chat/) and MessageProps, Whitelist, Checksum.
    - The game.  Game has the state every object reaches through pointers: players,
      dimension, world, server, and the queue of outgoing packets (Network).
      Dimension, World (with Chat), PlayerView (the window of chunks), Player (ticks, moves,
      damage, login sequence), Commands (command_parser/, Permissions.cpp,
      Server::reload), PlayerHandlers (the play packets) and Client (Client.cpp: the
      packet loop, the login, the dispatch) are the classes of those names.
      PlayerViewProps, PlayerProps, ConnectionProps, LoginProps: a walking player sees
      its window, a silent client is disconnected, hunger stays in bounds, packets are
      cut out of the stream, nobody enters the game unverified in online mode.
    - Around the game.  Logging (logging/): the registry of loggers, whose lines never go
      through a null pointer as long as threads get loggers that exist.  Plugins
      (PluginManager.cpp): what a folder of shared objects registers, and that a
      reload registers it once.  DumpChunk: the command that reads a chunk packet again
      ([dump_reads_back]).
    - Threads.  Server (Server.cpp) is a step relation: the thread that accepts and
      stops, the one that writes, and one for each client, over the sockets, the queue
      and the lock of the clients; ServerProps: what a socket is given is in order, and
      what happens to a client that is stopped, and the encrypted stream.
      ThreadPool (thread_pool/) is the priority pool over its queue, semaphore and
      workers, and an instance of [JobPool]; every job is accounted
      for, and when a worker is woken.  Worlds (WorldGroup.cpp, World.cpp, Dimension.cpp,
      default/): the threads of the group and of the dimensions, the spawn chunks and the
      stop, as a step relation around the pool; WorldsProps: ticks are neither lost nor
      made up, what is ready when the world says so, every stop ends, and who still reads
      chunks then: the command line (CommandLine.cpp, [program_step]).  Sounds
      (SoundSystem.cpp, SoundList.hpp): the last part of a tick of the group.
    - Rights.  PermissionProps: what an operation of a player leaves alone, as a class whose
      instances are found by a tactic; a player that is no operator
      keeps the privileges of everybody as they were.
    - The configuration.  Configuration (configuration/, initArgs of main.cpp): nodes,
      values, their sources; the first start, missing options.
    - Loot.  LootTables (loot_tables/): reading tables from JSON and polling them with
      a stream of random numbers; what the weights choose, which tables can
      be polled.  Recipes (recipes/): the creators, the folders; which
      shaped recipes are kept.  Json: values, and that reading them ends.

    ** What the theorems show

    Round trips: [packet_roundtrip], [clientbound_roundtrip], [nbt_roundtrip],
    [GlobalPalette_roundtrip], [Message_roundtrip], [u128_toString_fromShortString],
    [encrypted_stream_decrypts], [first_start].
    Refinement and equivalence: the storages, [chunk_packet_shows_column],
    [handle_turn_delivers], [updateRenderedChunks_window], [channel_delivers],
    [region_reads_back], [noise_cache_transparent].
    Invariants: items, hunger, the window, the jobs of the pool, the ticks of dimensions.  Safety: the parsers on
    any bytes, the online login, the rights of players.  Types: [sound_table_polls].
    Termination and liveness: NBT, generation, the keep-alive, the wake-ups of the pool,
    the stop of the worlds.
    The theorems about errors and bounds state exactly where the code fails: the guards
    that let a position through, counts of eight bits, cut packets.

    ** Not modelled

    Log lines; the graphical interface; the interface handed to plugins; zlib, the
    file system and the library that reads saved tags. *)

From Stdlib Require Export ZArith Lia.
From stdpp Require Export base list strings gmap numbers option.
From Stdlib Require String Ascii.

#[global] Open Scope Z_scope.

(** ** Outcomes of C++ code

    A computation returns a value, throws a C++ exception, runs into one of
    the undefined behaviours the code can reach, or (for a definition written
    with fuel) exhausts its fuel.  Theorems show that the last case never
    happens for the fuel the definitions use. *)

Inductive exn : Type :=
| PacketEOF | VarIntOverflow | OutOfRangeBoolean | MaxLengthString
| TypeMismatch
| EmptyStorageAccess
| std_out_of_range | std_logic_error | std_runtime_error
| nlohmann_exception    (* [nlohmann::json::exception] *)
| ConfigurationError | BadFile
| NoRollConstructor | NoEntryContructor | NoFunctionContructor | NoConditionContructor
| UnknownRecipeType
| yaml_exception.       (* [YAML::Exception] *)

(** The undefined behaviours told apart by the model. *)
Inductive ub : Type :=
| OutOfBoundsRead     (* dereferencing a pointer outside of the buffer *)
| OutOfBoundsErase    (* an iterator range that leaves its container *)
| InvalidRange        (* an iterator range whose end precedes its begin *)
| InvalidShift        (* a shift by the width of the type or more *)
| NullDereference     (* using a null pointer *)
| DivisionByZero      (* integer division or remainder by zero *)
| UninitializedRead   (* reading a variable that was never assigned *)
| SignedOverflow
| FailedAssertion     (* [assert] of a false condition: the program stops *)
| FloatConversion.    (* a floating point value that does not fit the integer type *)

Inductive result (A : Type) : Type :=
| Ok (a : A)
| Throw (e : exn)
| UB (k : ub)
| OutOfFuel.
Arguments Ok {A} a.
Arguments Throw {A} e.
Arguments UB {A} k.
Arguments OutOfFuel {A}.

#[export] Instance exn_eq_dec : EqDecision exn.
Proof. solve_decision. Defined.
#[export] Instance ub_eq_dec : EqDecision ub.
Proof. solve_decision. Defined.
#[export] Instance result_eq_dec `{EqDecision A} : EqDecision (result A).
Proof. solve_decision. Defined.

(** [DEFINE_EXCEPTION] derives from [std::runtime_error]; [std::out_of_range],
    [std::logic_error] and the exceptions of the JSON library do not. *)
Definition is_runtime_error (e : exn) : bool :=
  match e with
  | std_out_of_range | std_logic_error | nlohmann_exception => false
  | _ => true
  end.

#[export] Instance result_ret : MRet result := λ A a, Ok a.
#[export] Instance result_bind : MBind result := λ A B f r,
  match r with
  | Ok a => f a
  | Throw e => Throw e
  | UB k => UB k
  | OutOfFuel => OutOfFuel
  end.
#[export] Instance result_fmap : FMap result := λ A B f r,
  match r with
  | Ok a => Ok (f a)
  | Throw e => Throw e
  | UB k => UB k
  | OutOfFuel => OutOfFuel
  end.

(** [for (auto x : l) ys.push_back(f(x));] *)
Fixpoint map_result {A B} (f : A → result B) (l : list A) : result (list B) :=
  match l with
  | [] => Ok []
  | x :: l => y ← f x; ys ← map_result f l; Ok (y :: ys)
  end.

Definition is_ok {A} (r : result A) : bool :=
  match r with Ok _ => true | _ => false end.

(** The outcome is a value or a C++ exception: the code is defined there. *)
Definition defined {A} (r : result A) : bool :=
  match r with Ok _ | Throw _ => true | _ => false end.

Definition in_fuel {A} (r : result A) : bool :=
  match r with OutOfFuel => false | _ => true end.

Lemma bind_ok {A B} (f : A → result B) (r : result A) (b : B) :
  r ≫= f = Ok b ↔ ∃ a, r = Ok a ∧ f a = Ok b.
Proof. split; [destruct r; by eauto|]. by intros (a & -> & ?). Qed.

Lemma bind_defined {A B} (f : A → result B) (r : result A) :
  defined r = true → (∀ a, r = Ok a → defined (f a) = true) →
  defined (r ≫= f) = true.
Proof. destruct r; cbn; naive_solver. Qed.

Lemma bind_in_fuel {A B} (f : A → result B) (r : result A) :
  in_fuel r = true → (∀ a, r = Ok a → in_fuel (f a) = true) →
  in_fuel (r ≫= f) = true.
Proof. destruct r; cbn; naive_solver. Qed.

(** ** Machine integers *)

(** The conversion of an integer to an unsigned (signed) type of [w] bits. *)
Definition wrap_u (w z : Z) : Z := z `mod` 2 ^ w.
Definition wrap_s (w z : Z) : Z := (z + 2 ^ (w - 1)) `mod` 2 ^ w - 2 ^ (w - 1).

Definition to_u8 (z : Z) : Z := wrap_u 8 z.
Definition to_u16 (z : Z) : Z := wrap_u 16 z.
Definition to_u32 (z : Z) : Z := wrap_u 32 z.
Definition to_u64 (z : Z) : Z := wrap_u 64 z.
Definition to_i8 (z : Z) : Z := wrap_s 8 z.
Definition to_i16 (z : Z) : Z := wrap_s 16 z.
Definition to_i32 (z : Z) : Z := wrap_s 32 z.
Definition to_i64 (z : Z) : Z := wrap_s 64 z.

Definition is_u (w z : Z) : Prop := 0 ≤ z < 2 ^ w.
Definition is_s (w z : Z) : Prop := - 2 ^ (w - 1) ≤ z < 2 ^ (w - 1).

#[export] Instance is_u_dec w z : Decision (is_u w z).
Proof. unfold is_u. apply _. Defined.
#[export] Instance is_s_dec w z : Decision (is_s w z).
Proof. unfold is_s. apply _. Defined.

Abbreviation is_byte := (is_u 8).

Lemma pow2_half w : 0 < w → 2 ^ w = 2 * 2 ^ (w - 1).
Proof. intros. rewrite <- Z.pow_succ_r by lia. f_equal; lia. Qed.

Lemma wrap_u_range w z : 0 ≤ w → is_u w (wrap_u w z).
Proof. intros. apply Z.mod_pos_bound, Z.pow_pos_nonneg; lia. Qed.

Lemma wrap_s_range w z : 0 < w → is_s w (wrap_s w z).
Proof.
  intros. unfold is_s, wrap_s.
  pose proof (Z.mod_pos_bound (z + 2 ^ (w - 1)) (2 ^ w)
                (Z.pow_pos_nonneg 2 w ltac:(lia) ltac:(lia))).
  pose proof (pow2_half w). lia.
Qed.

Lemma wrap_u_id w z : is_u w z → wrap_u w z = z.
Proof. apply Z.mod_small. Qed.

Lemma wrap_s_id w z : 0 < w → is_s w z → wrap_s w z = z.
Proof.
  unfold is_s, wrap_s. intros Hw Hz. pose proof (pow2_half w Hw).
  rewrite Z.mod_small; lia.
Qed.

Lemma wrap_s_wrap_u w z : 0 < w → wrap_s w (wrap_u w z) = wrap_s w z.
Proof.
  intros. unfold wrap_s, wrap_u. f_equal.
  by rewrite Zplus_mod_idemp_l.
Qed.

Lemma wrap_u_wrap_s w z : 0 < w → wrap_u w (wrap_s w z) = wrap_u w z.
Proof.
  intros. unfold wrap_s, wrap_u.
  rewrite Zminus_mod_idemp_l. f_equal. lia.
Qed.

Lemma wrap_s_mod w v z : 0 < w → wrap_u w v = wrap_u w z → wrap_s w v = wrap_s w z.
Proof. intros Hw E. by rewrite <- (wrap_s_wrap_u w v), E, wrap_s_wrap_u. Qed.

(** [wnorm] unfolds the fixed-width conversions to [mod] by constants, for
    [lia]. *)
Ltac wnorm :=
  unfold to_u8, to_u16, to_u32, to_u64, to_i8, to_i16, to_i32, to_i64,
    is_u, is_s, wrap_u, wrap_s in *;
  change (2 ^ 8) with 256 in *; change (2 ^ (8 - 1)) with 128 in *;
  change (2 ^ 16) with 65536 in *; change (2 ^ (16 - 1)) with 32768 in *;
  change (2 ^ 32) with 4294967296 in *; change (2 ^ (32 - 1)) with 2147483648 in *;
  change (2 ^ 64) with 18446744073709551616 in *;
  change (2 ^ (64 - 1)) with 9223372036854775808 in *.

Ltac width_lia := wnorm; lia.

(** [lia] with division and remainder by constants. *)
Ltac div_lia := Z.to_euclidean_division_equations; lia.

Create Rewrite HintDb width.
#[export] Hint Rewrite Z.land_ones using lia : width.

(** ** Bitwise equalities *)

(** [zbits] proves an equality of integers bit by bit: it introduces a bit
    index, pushes [testbit] through the operators, and splits on the
    comparisons the shifts leave. *)
Lemma testbit_wrap_u w z i :
  0 ≤ w → Z.testbit (wrap_u w z) i = if decide (i < w) then Z.testbit z i else false.
Proof.
  intros. unfold wrap_u. case_decide.
  - destruct (decide (0 ≤ i)); [|by rewrite !Z.testbit_neg_r by lia].
    by apply Z.mod_pow2_bits_low.
  - apply Z.mod_pow2_bits_high; lia.
Qed.

Lemma testbit_ones n i : 0 ≤ n → 0 ≤ i →
  Z.testbit (Z.ones n) i = bool_decide (i < n).
Proof.
  intros. case_bool_decide.
  - apply Z.ones_spec_low; lia.
  - apply Z.ones_spec_high; lia.
Qed.

Create Rewrite HintDb zbits.
#[export] Hint Rewrite Z.land_spec Z.lor_spec Z.lxor_spec Z.testbit_0_l : zbits.
#[export] Hint Rewrite Z.shiftl_spec Z.shiftr_spec Z.lnot_spec testbit_wrap_u
  testbit_ones Z.testbit_neg_r using lia : zbits.

Ltac zbits_step :=
  match goal with
  | |- context [decide ?P] => destruct (decide P)
  | |- context [bool_decide ?P] => destruct (bool_decide_reflect P)
  | |- context [Z.testbit _ (?a - ?b)] =>
      rewrite (Z.testbit_neg_r _ (a - b)) by lia
  end.

Ltac zbits :=
  apply Z.bits_inj'; intros ?i ?Hi;
  repeat (autorewrite with zbits; try zbits_step);
  rewrite ?andb_true_r, ?andb_false_r, ?orb_false_r, ?orb_false_l;
  try reflexivity; try (f_equal; lia); try lia.

(** ** Lists of bytes *)

Abbreviation zlen l := (Z.of_nat (length l)).

Lemma zlen_app {A} (l k : list A) : zlen (l ++ k) = zlen l + zlen k.
Proof. rewrite length_app. lia. Qed.
Lemma zlen_cons {A} (x : A) l : zlen (x :: l) = 1 + zlen l.
Proof. cbn [length]. lia. Qed.
Lemma zlen_nil {A} : zlen (@nil A) = 0.
Proof. done. Qed.

Create Rewrite HintDb zlen.
#[export] Hint Rewrite @zlen_app @zlen_cons @zlen_nil : zlen.
Ltac zlia := autorewrite with zlen in *; lia.

(** Big-endian bytes of the low [8 * n] bits of [z], and their value. *)
Fixpoint be_bytes (n : nat) (z : Z) : list Z :=
  match n with
  | O => []
  | S m => to_u8 (Z.shiftr z (8 * Z.of_nat m)) :: be_bytes m z
  end.

Definition be_step (acc b : Z) : Z := acc * 256 + b.
Definition be_value (bs : list Z) : Z := foldl be_step 0 bs.

Lemma be_bytes_length n z : length (be_bytes n z) = n.
Proof. by induction n; cbn; f_equal. Qed.

Lemma be_bytes_is_byte n z : Forall is_byte (be_bytes n z).
Proof.
  induction n; cbn; constructor; [|done].
  apply wrap_u_range; lia.
Qed.

Lemma be_value_acc bs acc :
  foldl be_step acc bs = acc * 256 ^ zlen bs + be_value bs.
Proof.
  revert acc. induction bs as [|b bs IH]; intros acc; cbn -[Z.pow Z.of_nat].
  - unfold be_value; cbn. lia.
  - unfold be_value; cbn -[Z.pow Z.of_nat].
    rewrite (IH (be_step acc b)), (IH (be_step 0 b)). unfold be_step.
    rewrite Nat2Z.inj_succ, Z.pow_succ_r by lia. lia.
Qed.

Lemma be_value_bytes n z :
  be_value (be_bytes n z) = wrap_u (8 * Z.of_nat n) z.
Proof.
  induction n as [|n IH].
  - cbn. unfold wrap_u. by rewrite Z.mod_1_r.
  - cbn [be_bytes]. unfold be_value. cbn [foldl]. rewrite be_value_acc, IH.
    rewrite be_bytes_length. unfold be_step, to_u8, wrap_u.
    rewrite Z.shiftr_div_pow2 by lia.
    replace (8 * Z.of_nat (S n)) with (8 * Z.of_nat n + 8) by lia.
    rewrite Z.pow_add_r by lia.
    rewrite Z.rem_mul_r by (try apply Z.pow_nonzero; lia).
    replace (256 ^ Z.of_nat n) with (2 ^ (8 * Z.of_nat n)); [lia|].
    rewrite Z.pow_mul_r by lia. done.
Qed.

(** ** Strings as bytes *)

Definition byte_of_ascii (c : Stdlib.Strings.Ascii.ascii) : Z := Z.of_N (Stdlib.Strings.Ascii.N_of_ascii c).
Definition ascii_of_byte (b : Z) : Stdlib.Strings.Ascii.ascii := Stdlib.Strings.Ascii.ascii_of_N (Z.to_N (to_u8 b)).

Definition string_bytes (s : string) : list Z :=
  byte_of_ascii <$> Stdlib.Strings.String.list_ascii_of_string s.
Definition string_of_bytes (bs : list Z) : string :=
  Stdlib.Strings.String.string_of_list_ascii (ascii_of_byte <$> bs).

(** [data.size()] and [_name.length()]. *)
Definition string_size (s : string) : Z := Z.of_nat (Stdlib.Strings.String.length s).

Lemma byte_of_ascii_range c : is_byte (byte_of_ascii c).
Proof.
  unfold byte_of_ascii, is_u. pose proof (Stdlib.Strings.Ascii.N_ascii_bounded c).
  change (2 ^ 8) with 256. lia.
Qed.

Lemma ascii_of_byte_of_ascii c : ascii_of_byte (byte_of_ascii c) = c.
Proof.
  unfold ascii_of_byte, to_u8. rewrite wrap_u_id by apply byte_of_ascii_range.
  unfold byte_of_ascii. rewrite N2Z.id. apply Stdlib.Strings.Ascii.ascii_N_embedding.
Qed.

Lemma byte_of_ascii_of_byte b : is_byte b → byte_of_ascii (ascii_of_byte b) = b.
Proof.
  intros Hb. unfold byte_of_ascii, ascii_of_byte, to_u8.
  rewrite wrap_u_id by done. unfold is_u in Hb. change (2 ^ 8) with 256 in Hb.
  rewrite Stdlib.Strings.Ascii.N_ascii_embedding by lia. lia.
Qed.

Lemma string_bytes_is_byte s : Forall is_byte (string_bytes s).
Proof.
  unfold string_bytes. apply Forall_fmap, Forall_forall.
  intros c _. apply byte_of_ascii_range.
Qed.

Lemma string_of_bytes_bytes s : string_of_bytes (string_bytes s) = s.
Proof.
  unfold string_of_bytes, string_bytes.
  rewrite <- list_fmap_compose.
  rewrite <- (Stdlib.Strings.String.string_of_list_ascii_of_string s) at 2. f_equal.
  rewrite <- (list_fmap_id (Stdlib.Strings.String.list_ascii_of_string s)) at 2.
  apply list_fmap_ext. intros i c _. apply ascii_of_byte_of_ascii.
Qed.

Lemma string_bytes_of bs : Forall is_byte bs → string_bytes (string_of_bytes bs) = bs.
Proof.
  intros Hb. unfold string_bytes, string_of_bytes.
  rewrite Stdlib.Strings.String.list_ascii_of_string_of_list_ascii.
  induction Hb as [|b bs Hb _ IH]; [done|]. rewrite !fmap_cons, IH. by rewrite byte_of_ascii_of_byte.
Qed.

Lemma string_bytes_length s : zlen (string_bytes s) = string_size s.
Proof.
  unfold string_bytes, string_size. rewrite length_fmap.
  f_equal. induction s; cbn; congruence.
Qed.

Lemma string_size_nonneg s : 0 ≤ string_size s.
Proof. unfold string_size. lia. Qed.

(** ** Reading memory: a buffer and an index *)

Definition peek (buf : list Z) (at_ : Z) : result Z :=
  if decide (0 ≤ at_) then
    match buf !! Z.to_nat at_ with
    | Some b => Ok b
    | None => UB OutOfBoundsRead
    end
  else UB OutOfBoundsRead.

(** The bytes of [buf] from index [at_], [n] of them. *)
Fixpoint peek_range (buf : list Z) (at_ : Z) (n : nat) : result (list Z) :=
  match n with
  | O => Ok []
  | S m => b ← peek buf at_; bs ← peek_range buf (at_ + 1) m; Ok (b :: bs)
  end.

Lemma peek_app pre b post : peek (pre ++ b :: post) (zlen pre) = Ok b.
Proof.
  unfold peek. rewrite decide_True by lia. rewrite Nat2Z.id.
  by rewrite list_lookup_middle.
Qed.

Lemma peek_inside buf at_ : 0 ≤ at_ < zlen buf → ∃ b, peek buf at_ = Ok b ∧ b ∈ buf.
Proof.
  intros H. unfold peek. rewrite decide_True by lia.
  destruct (lookup_lt_is_Some_2 buf (Z.to_nat at_)) as [b Hb]; [lia|].
  rewrite Hb. exists b. split; [done|]. by eapply list_elem_of_lookup_2.
Qed.

Lemma peek_range_app pre bs post :
  peek_range (pre ++ bs ++ post) (zlen pre) (length bs) = Ok bs.
Proof.
  revert pre. induction bs as [|b bs IH]; intros pre; [done|].
  cbn [length peek_range app]. rewrite peek_app. cbn.
  specialize (IH (pre ++ [b])). rewrite <- app_assoc in IH. cbn in IH.
  replace (zlen pre + 1) with (zlen (pre ++ [b])) by zlia.
  by rewrite IH.
Qed.

Lemma peek_range_inside buf at_ n :
  0 ≤ at_ → at_ + Z.of_nat n ≤ zlen buf →
  ∃ bs, peek_range buf at_ n = Ok bs ∧ length bs = n.
Proof.
  revert at_. induction n as [|n IH]; intros at_ H0 Hn; [by exists []|].
  destruct (peek_inside buf at_) as (b & Hb & _); [lia|].
  destruct (IH (at_ + 1)) as (bs & Hbs & Hl); [lia..|].
  exists (b :: bs). cbn. rewrite Hb. cbn. rewrite Hbs. cbn. by rewrite Hl.
Qed.

(** ** Checked signed arithmetic: overflow is undefined behaviour *)

Definition chk_i32 (z : Z) : result Z :=
  if decide (is_s 32 z) then Ok z else UB SignedOverflow.
Definition chk_i64 (z : Z) : result Z :=
  if decide (is_s 64 z) then Ok z else UB SignedOverflow.

Lemma chk_i64_inv z a : chk_i64 z = Ok a → a = z.
Proof. unfold chk_i64. case_decide; by intros; simplify_eq. Qed.

(** [a / b] and [a % b] truncate towards zero. *)
Definition quot_by (chk : Z → result Z) (a b : Z) : result Z :=
  if decide (b = 0) then UB DivisionByZero else chk (Z.quot a b).
Definition rem_by (chk : Z → result Z) (a b : Z) : result Z :=
  if decide (b = 0) then UB DivisionByZero
  else _ ← chk (Z.quot a b); Ok (Z.rem a b).

Lemma chk_i64_ok z : is_s 64 z → chk_i64 z = Ok z.
Proof. intros H. unfold chk_i64. by rewrite decide_True. Qed.
Lemma chk_i32_ok z : is_s 32 z → chk_i32 z = Ok z.
Proof. intros H. unfold chk_i32. by rewrite decide_True. Qed.

Lemma rem_by_pos a b : is_s 64 a → 0 < b → rem_by chk_i64 a b = Ok (Z.rem a b).
Proof.
  intros Ha Hb. unfold rem_by. rewrite decide_False by lia.
  rewrite chk_i64_ok; [done|].
  unfold is_s in *.
  assert (Z.abs (Z.quot a b) ≤ Z.abs a).
  { rewrite <- Z.quot_abs by lia.
    apply Z.quot_le_upper_bound; nia. }
  destruct (decide (a = - 2 ^ (64 - 1))) as [->|]; [|lia].
  pose proof (Z.quot_opp_l (2 ^ (64 - 1)) b ltac:(lia)) as E. rewrite E in *.
  assert (0 ≤ Z.quot (2 ^ (64 - 1)) b) by (apply Z.quot_pos; lia). lia.
Qed.
