(* ===== verification/State.v ===== *)
(** * Stateful code

    [M S A]: a method of an object whose state is [S].  It returns a value,
    throws, or is undefined, and leaves the object in a state in each case: an
    exception does not undo what the method did before it. *)

From S2P Require Import Prelude.

Definition M (S A : Type) : Type := S → result A * S.

#[export] Instance M_ret S : MRet (M S) := λ A a s, (Ok a, s).
#[export] Instance M_bind S : MBind (M S) := λ A B f p s,
  match p s with
  | (Ok a, s') => f a s'
  | (Throw e, s') => (Throw e, s')
  | (UB k, s') => (UB k, s')
  | (OutOfFuel, s') => (OutOfFuel, s')
  end.

Section Operations.
Context {S : Type}.

Definition raise {A} (e : exn) : M S A := λ s, (Throw e, s).
Definition undefined_ {A} (k : ub) : M S A := λ s, (UB k, s).
Definition gets {A} (f : S → A) : M S A := λ s, (Ok (f s), s).
Definition modify (f : S → S) : M S unit := λ s, (Ok tt, f s).
(** A computation that does not touch the object. *)
Definition lift {A} (r : result A) : M S A := λ s, (r, s).

(** A method of a member. *)
Definition member {T A} (get : S → T) (set : T → S → S) (p : M T A) : M S A := λ s,
  let '(r, t) := p (get s) in (r, set t s).

(** [for (auto x : l) p(x);] *)
Fixpoint for_each {X} (l : list X) (p : X → M S unit) : M S unit :=
  match l with
  | [] => mret tt
  | x :: l => _ ← p x; for_each l p
  end.

(** [for (auto x : l) if (p(x)) break;] *)
Fixpoint for_each_until {X} (l : list X) (p : X → M S bool) : M S unit :=
  match l with
  | [] => mret tt
  | x :: l => stop ← p x; if stop : bool then mret tt else for_each_until l p
  end.
End Operations.

(** A method that replaces the whole object, or leaves it alone when it fails. *)
Definition assign {S} (f : S → result S) : M S unit := λ s,
  match f s with
  | Ok s' => (Ok tt, s')
  | Throw e => (Throw e, s)
  | UB k => (UB k, s)
  | OutOfFuel => (OutOfFuel, s)
  end.

Lemma bind_run_ok {S A B} (p : M S A) (f : A → M S B) s a s' :
  p s = (Ok a, s') → (p ≫= f) s = f a s'.
Proof. intros H. unfold mbind, M_bind. by rewrite H. Qed.

Lemma bind_run_throw {S A B} (p : M S A) (f : A → M S B) s e s' :
  p s = (Throw e, s') → (p ≫= f) s = (Throw e, s').
Proof. intros H. unfold mbind, M_bind. by rewrite H. Qed.

Lemma for_each_app {S X} (l k : list X) (p : X → M S unit) s s' :
  for_each l p s = (Ok tt, s') → for_each (l ++ k) p s = for_each k p s'.
Proof.
  revert s. induction l as [|x l IH]; intros s H; cbn [for_each app] in *.
  - by injection H as ->.
  - destruct (p x s) as [[[]|e|e|] s1] eqn:E; unfold mbind, M_bind in *; rewrite E in *;
      try discriminate. by apply IH.
Qed.

Lemma member_assign_ok {S T} (get : S → T) (set : T → S → S) (f : T → result T) s t :
  f (get s) = Ok t → member get set (assign f) s = (Ok tt, set t s).
Proof. intros H. unfold member, assign. by rewrite H. Qed.

(** A member that is replaced under a condition. *)
Lemma member_assign_if {S T} (get : S → T) (set : T → S → S) P `{Decision P} (f : T → result T) s t :
  set (get s) s = s → (if decide P then f (get s) else Ok (get s)) = Ok t →
  (if decide P then member get set (assign f) else mret tt) s = (Ok tt, set t s).
Proof.
  intros Hs. case_decide; intros Ht; [by apply member_assign_ok|].
  injection Ht as <-. by rewrite Hs.
Qed.

(** ** Total correctness

    [triple P p Q]: from a state that satisfies [P], [p] returns a value, and the
    value and the final state satisfy [Q]. *)

Definition triple {S A} (P : S → Prop) (p : M S A) (Q : A → S → Prop) : Prop :=
  ∀ s, P s → ∃ a s', p s = (Ok a, s') ∧ Q a s'.

Lemma triple_ret {S A} (P : S → Prop) (a : A) Q : (∀ s, P s → Q a s) → triple P (mret a) Q.
Proof. intros H s Hs. exists a, s. auto. Qed.

Lemma triple_bind {S A B} (P : S → Prop) (p : M S A) (f : A → M S B) R Q :
  triple P p R → (∀ a, triple (R a) (f a) Q) → triple P (p ≫= f) Q.
Proof.
  intros Hp Hf s Hs. destruct (Hp s Hs) as (a & s' & E & HR).
  rewrite (bind_run_ok _ _ _ _ _ E). by apply Hf.
Qed.

Lemma triple_conseq {S A} (P P' : S → Prop) (p : M S A) (Q Q' : A → S → Prop) :
  triple P' p Q' → (∀ s, P s → P' s) → (∀ a s, Q' a s → Q a s) → triple P p Q.
Proof. intros Hp HP HQ s Hs. destruct (Hp s (HP s Hs)) as (a & s' & E & H). eauto. Qed.

Lemma triple_seq {S B} (R P : S → Prop) (p : M S unit) (q : M S B) Q :
  triple P p (λ _, R) → triple R q Q → triple P (_ ← p; q) Q.
Proof. intros Hp Hq. eapply triple_bind; [exact Hp|]. by intros []. Qed.

Lemma triple_gets {S A} (P : S → Prop) (f : S → A) :
  triple P (gets f) (λ a s, P s ∧ a = f s).
Proof. intros s Hs. exists (f s), s. auto. Qed.

Lemma triple_modify {S} (P : S → Prop) (f : S → S) (Q : unit → S → Prop) :
  (∀ s, P s → Q tt (f s)) → triple P (modify f) Q.
Proof. intros H s Hs. exists tt, (f s). auto. Qed.

(** A computed value that does not depend on the state. *)
Lemma triple_lift {S A} (P : S → Prop) (r : result A) Q :
  (∀ s, P s → ∃ a, r = Ok a ∧ Q a s) → triple P (lift r) Q.
Proof. intros H s Hs. destruct (H s Hs) as (a & -> & Ha). exists a, s. auto. Qed.

(** The loop rule: the invariant counts the elements that are done. *)
Lemma triple_for_each {S X} (I : list X → S → Prop) (l : list X) (p : X → M S unit) :
  (∀ done x rest, l = done ++ x :: rest → triple (I done) (p x) (λ _, I (done ++ [x]))) →
  triple (I []) (for_each l p) (λ _, I l).
Proof.
  intros Hstep.
  assert (G : ∀ rest done, l = done ++ rest → triple (I done) (for_each rest p) (λ _, I l)).
  { intros rest. induction rest as [|x rest IH]; intros done Hl; cbn [for_each].
    - rewrite app_nil_r in Hl. rewrite <- Hl. by apply triple_ret.
    - eapply triple_bind; [by eapply Hstep|]. intros []. apply IH.
      by rewrite <- app_assoc. }
  by apply (G l []).
Qed.

(** The loop rule for an invariant that every turn preserves. *)
Lemma triple_for_each_inv {S X} (I : S → Prop) (l : list X) (p : X → M S unit) :
  (∀ x, x ∈ l → triple I (p x) (λ _, I)) → triple I (for_each l p) (λ _, I).
Proof.
  intros H. apply (triple_for_each (λ _, I)). intros done x rest ->. apply H. set_solver.
Qed.

Lemma triple_for_each_until {S X} (I : S → Prop) (l : list X) (p : X → M S bool) :
  (∀ x, x ∈ l → triple I (p x) (λ _, I)) → triple I (for_each_until l p) (λ _, I).
Proof.
  induction l as [|x l IH]; intros H; cbn [for_each_until]; [by apply triple_ret|].
  eapply triple_bind; [apply H; set_solver|]. intros [].
  - by apply triple_ret.
  - apply IH. intros y Hy. apply H. set_solver.
Qed.

(** Nested loops are one loop over the pairs. *)
Definition pairs {X Y} (l : list X) (k : list Y) : list (X * Y) := x ← l; pair x <$> k.

Lemma elem_of_pairs {X Y} (l : list X) (k : list Y) x y : (x, y) ∈ pairs l k ↔ x ∈ l ∧ y ∈ k.
Proof. unfold pairs. rewrite list_elem_of_bind. set_solver. Qed.

Lemma for_each_nested {S X Y} (l : list X) (k : list Y) (p : X → Y → M S unit) s :
  for_each l (λ x, for_each k (p x)) s = for_each (pairs l k) (λ xy, p xy.1 xy.2) s.
Proof.
  assert (App : ∀ {Z} (u v : list Z) (q : Z → M S unit) s,
    for_each (u ++ v) q s = (for_each u q ≫= λ _, for_each v q) s).
  { intros Z u v q. induction u as [|z u IH]; intros s0; cbn [for_each app]; [done|].
    unfold mbind, M_bind in *. destruct (q z s0) as [[[]| | |] s1]; [|done..]. apply IH. }
  assert (Map : ∀ {Z} (u : list Y) (g : Y → Z) (q : Z → M S unit) s,
    for_each (g <$> u) q s = for_each u (λ y, q (g y)) s).
  { intros Z u g q. induction u as [|z u IH]; intros s0; cbn [for_each fmap list_fmap]; [done|].
    unfold mbind, M_bind in *. destruct (q (g z) s0) as [[[]| | |] s1]; [|done..]. apply IH. }
  revert s. induction l as [|x l IH]; intros s; [done|]. unfold pairs. cbn [mbind list_bind for_each].
  rewrite App. unfold mbind at 1 2, M_bind. rewrite Map. cbn [fst snd].
  destruct (for_each k (p x) s) as [[[]| | |] s1]; [|done..]. apply IH.
Qed.

(** A loop each turn of which either keeps an invariant or throws. *)
Lemma for_each_outcome {S X} (I : S → Prop) (e : exn) (bad : X → bool) (l : list X)
    (p : X → M S unit) :
  (∀ x s, x ∈ l → I s →
     if bad x then (p x s).1 = Throw e else ∃ s', p x s = (Ok tt, s') ∧ I s') →
  ∀ s, I s →
    if existsb bad l then (for_each l p s).1 = Throw e
    else ∃ s', for_each l p s = (Ok tt, s') ∧ I s'.
Proof.
  induction l as [|x l IH]; intros H s Hs; cbn [existsb for_each]; [by exists s|].
  pose proof (H x s ltac:(set_solver) Hs) as Hx. unfold mbind, M_bind.
  destruct (bad x); cbn [orb].
  - destruct (p x s) as [[]]; cbn in *; congruence.
  - destruct Hx as (s' & -> & Hs'). apply IH; [|done]. intros y t Hy. apply H. set_solver.
Qed.

Lemma triple_ext {S A} (P : S → Prop) (p q : M S A) Q :
  (∀ s, p s = q s) → triple P q Q → triple P p Q.
Proof. intros E H s Hs. rewrite E. by apply H. Qed.

Lemma for_each_ext {S X} (l : list X) (p q : X → M S unit) s :
  (∀ x s, p x s = q x s) → for_each l p s = for_each l q s.
Proof.
  intros E. revert s. induction l as [|x l IH]; intros s; [done|]. cbn [for_each].
  unfold mbind, M_bind. rewrite E. by destruct (q x s) as [[]].
Qed.

(** A member's method, when the rest of the object does not matter to it. *)
Lemma triple_member {S T A} (get : S → T) (set : T → S → S) (p : M T A)
    (P : S → Prop) (P' : T → Prop) (Q' : A → T → Prop) (Q : A → S → Prop) :
  triple P' p Q' → (∀ s, P s → P' (get s)) →
  (∀ s a t, P s → Q' a t → Q a (set t s)) → triple P (member get set p) Q.
Proof.
  intros Hp HP HQ s Hs. destruct (Hp (get s) (HP s Hs)) as (a & t & E & Ht).
  exists a, (set t s). unfold member. rewrite E. auto.
Qed.

(** ** What is kept whatever the outcome

    [keeps I p]: [I] holds after [p] when it held before, also when [p] throws or
    is undefined. *)

Section Keeps.
Context {S : Type} (I : S → Prop).

Definition keeps {A} (p : M S A) : Prop := ∀ s, I s → I (p s).2.

Lemma keeps_ret {A} (a : A) : keeps (mret a).
Proof. by intros s Hs. Qed.
Lemma keeps_lift {A} (r : result A) : keeps (lift r).
Proof. by intros s Hs. Qed.
Lemma keeps_gets {A} (f : S → A) : keeps (gets f).
Proof. by intros s Hs. Qed.
Lemma keeps_undefined {A} k : keeps (undefined_ (A := A) k).
Proof. by intros s Hs. Qed.
Lemma keeps_raise {A} e : keeps (raise (A := A) e).
Proof. by intros s Hs. Qed.
Lemma keeps_modify (f : S → S) : (∀ s, I s → I (f s)) → keeps (modify f).
Proof. intros Hf s Hs. by apply Hf. Qed.

Lemma keeps_bind {A B} (p : M S A) (f : A → M S B) :
  keeps p → (∀ a, keeps (f a)) → keeps (p ≫= f).
Proof.
  intros Hp Hf s Hs. unfold mbind, M_bind. specialize (Hp s Hs).
  destruct (p s) as [[a|e|k|] s']; cbn in *; [|done..]. by apply Hf.
Qed.

(** A computation outside of the object, whose value is known. *)
Lemma keeps_lift_bind {A B} (r : result A) (f : A → M S B) :
  (∀ a, r = Ok a → keeps (f a)) → keeps (lift r ≫= f).
Proof. intros Hf s Hs. unfold mbind, M_bind, lift. destruct r; [by apply Hf|done..]. Qed.

Lemma keeps_for_each {X} (l : list X) (p : X → M S unit) :
  (∀ x, x ∈ l → keeps (p x)) → keeps (for_each l p).
Proof.
  induction l as [|x l IH]; intros H; cbn [for_each]; [apply keeps_ret|].
  apply keeps_bind; [apply H; set_solver|]. intros []. apply IH. set_solver.
Qed.

Lemma keeps_member {T A} (get : S → T) (set : T → S → S) (p : M T A) :
  (∀ s t, I s → I (set t s)) → keeps (member get set p).
Proof. intros H s Hs. unfold member. destruct (p (get s)). by apply H. Qed.
End Keeps.
