(* ===== verification/Floats.v ===== *)
(** * Floating point numbers

    [float] and [double] are the IEEE 754 formats of the language: the values are
    those of the Standard Library's [SpecFloat] (one not-a-number), and the
    operations round to nearest even.  A packet carries the bits of a number;
    [float_of_bits] and [bits_of_float] go between the two. *)

From Stdlib Require Export SpecFloat.
From S2P Require Import Prelude.

(** ** The formats *)

Abbreviation double := spec_float.
Abbreviation float := spec_float.

Section Format.
Context (mw ew : Z).

(** Precision and largest exponent of a format with [mw] bits of mantissa and [ew]
    of exponent. *)
Definition format_prec : Z := mw + 1.
Definition format_emax : Z := 2 ^ (ew - 1).
Definition format_emin : Z := 3 - format_emax - format_prec.

Definition float_of_bits (bits : Z) : spec_float :=
  let sign := Z.testbit bits (mw + ew) in
  let exponent := Z.land (Z.shiftr bits mw) (Z.ones ew) in
  let mantissa := Z.land bits (Z.ones mw) in
  if decide (exponent = 2 ^ ew - 1) then
    if decide (mantissa = 0) then S754_infinity sign else S754_nan
  else if decide (exponent = 0) then
    if decide (mantissa = 0) then S754_zero sign
    else S754_finite sign (Z.to_pos mantissa) format_emin
  else S754_finite sign (Z.to_pos (mantissa + 2 ^ mw)) (exponent - 1 + format_emin).

(** The quiet not-a-number of the host stands for all of them. *)
Definition bits_of_float (f : spec_float) : Z :=
  let pack (sign : bool) (exponent mantissa : Z) :=
    Z.b2z sign * 2 ^ (mw + ew) + exponent * 2 ^ mw + mantissa in
  match f with
  | S754_zero s => pack s 0 0
  | S754_infinity s => pack s (2 ^ ew - 1) 0
  | S754_nan => pack true (2 ^ ew - 1) (2 ^ (mw - 1))
  | S754_finite s m e =>
      if decide (Z.pos m < 2 ^ mw) then pack s 0 (Z.pos m)
      else pack s (e + 1 - format_emin) (Z.pos m - 2 ^ mw)
  end.
End Format.

Definition double_of_bits : Z → double := float_of_bits 52 11.
Definition bits_of_double : double → Z := bits_of_float 52 11.
Definition float32_of_bits : Z → float := float_of_bits 23 8.
Definition bits_of_float32 : float → Z := bits_of_float 23 8.

(** ** Arithmetic *)

Definition dadd : double → double → double := SFadd 53 1024.
Definition dsub : double → double → double := SFsub 53 1024.
Definition dmul : double → double → double := SFmul 53 1024.
Definition ddiv : double → double → double := SFdiv 53 1024.
Definition dsqrt : double → double := SFsqrt 53 1024.
Definition fadd : float → float → float := SFadd 24 128.
Definition fsub : float → float → float := SFsub 24 128.
Definition fmul : float → float → float := SFmul 24 128.

Definition double_of_Z (z : Z) : double := binary_normalize 53 1024 z 0 false.
Definition float_of_Z (z : Z) : float := binary_normalize 24 128 z 0 false.

(** The value of a number in another format. *)
Definition convert (prec emax : Z) (f : spec_float) : spec_float :=
  match f with
  | S754_finite s m e => binary_normalize prec emax (if s then Z.neg m else Z.pos m) e s
  | f => f
  end.
Definition float_to_double : float → double := convert 53 1024.
Definition double_to_float : double → float := convert 24 128.

(** A literal [n/d]: the quotient is rounded once, as a literal is. *)
Definition double_lit (n d : Z) : double := ddiv (double_of_Z n) (double_of_Z d).
Definition float_lit (n d : Z) : float := SFdiv 24 128 (float_of_Z n) (float_of_Z d).

(** ** Conversion to an integer type

    The fraction is discarded; the behaviour is undefined when the result does not
    fit, and for infinities and not-a-number. *)

Definition trunc (f : spec_float) : option Z :=
  match f with
  | S754_zero _ => Some 0
  | S754_finite s m e =>
      let v := if decide (0 ≤ e) then Z.pos m * 2 ^ e else Z.pos m / 2 ^ (- e) in
      Some (if s then - v else v)
  | _ => None
  end.

Definition to_integer (fits : Z → Prop) `{∀ z, Decision (fits z)} (f : spec_float) : result Z :=
  match trunc f with
  | Some z => if decide (fits z) then Ok z else UB FloatConversion
  | None => UB FloatConversion
  end.

Definition to_int32 : spec_float → result Z := to_integer (is_s 32).
Definition to_int16 : spec_float → result Z := to_integer (is_s 16).
Definition to_uint8 : spec_float → result Z := to_integer (is_u 8).

(** ** Laws *)

Section FormatLaws.
Context (mw ew : Z).
Hypothesis Hmw : 1 < mw.
Hypothesis Hew : 1 < ew.

Lemma bits_split bits :
  is_u (mw + ew + 1) bits →
  bits = Z.b2z (Z.testbit bits (mw + ew)) * 2 ^ (mw + ew) +
    Z.land (Z.shiftr bits mw) (Z.ones ew) * 2 ^ mw + Z.land bits (Z.ones mw) ∧
  0 ≤ Z.land (Z.shiftr bits mw) (Z.ones ew) < 2 ^ ew ∧ 0 ≤ Z.land bits (Z.ones mw) < 2 ^ mw.
Proof.
  intros [H0 H1]. rewrite !Z.land_ones, Z.shiftr_div_pow2 by lia.
  assert (0 < 2 ^ mw) by (apply Z.pow_pos_nonneg; lia).
  assert (0 < 2 ^ ew) by (apply Z.pow_pos_nonneg; lia).
  pose proof (Z.mod_pos_bound bits (2 ^ mw) ltac:(lia)).
  pose proof (Z.mod_pos_bound (bits / 2 ^ mw) (2 ^ ew) ltac:(lia)).
  split_and!; try lia.
  assert (Z.b2z (Z.testbit bits (mw + ew)) = bits / 2 ^ mw / 2 ^ ew) as ->.
  { rewrite Z.testbit_spec' , Z.div_div, <- Z.pow_add_r by lia. apply Z.mod_small.
    split; [apply Z.div_pos; [done|apply Z.pow_pos_nonneg; lia]|].
    apply Z.div_lt_upper_bound; [apply Z.pow_pos_nonneg; lia|].
    rewrite Z.pow_add_r, Z.pow_1_r in H1 by lia. lia. }
  rewrite Z.pow_add_r by lia.
  pose proof (Z.div_mod bits (2 ^ mw) ltac:(lia)).
  pose proof (Z.div_mod (bits / 2 ^ mw) (2 ^ ew) ltac:(lia)). nia.
Qed.

(** A number survives the trip through its value, unless it is not a number. *)
Lemma bits_of_float_of_bits bits :
  is_u (mw + ew + 1) bits → float_of_bits mw ew bits ≠ S754_nan →
  bits_of_float mw ew (float_of_bits mw ew bits) = bits.
Proof.
  intros Hb. destruct (bits_split bits Hb) as (E & He & Hm). unfold float_of_bits.
  set (s := Z.testbit bits (mw + ew)) in *. set (e := Z.land (Z.shiftr bits mw) (Z.ones ew)) in *.
  set (m := Z.land bits (Z.ones mw)) in *. clearbody s e m.
  repeat case_decide; intros Hn; try done; cbn [bits_of_float]; try (subst; lia).
  - rewrite Z2Pos.id, decide_True by lia. subst. lia.
  - rewrite Z2Pos.id, decide_False by lia. subst. nia.
Qed.
End FormatLaws.

Lemma double_bits bits :
  is_u 64 bits → double_of_bits bits ≠ S754_nan → bits_of_double (double_of_bits bits) = bits.
Proof. intros H. by apply bits_of_float_of_bits. Qed.

Lemma to_integer_ok (fits : Z → Prop) `{∀ z, Decision (fits z)} f z :
  to_integer fits f = Ok z ↔ trunc f = Some z ∧ fits z.
Proof.
  unfold to_integer. destruct (trunc f) as [v|]; [|naive_solver]. case_decide; naive_solver.
Qed.

(** * Vectors (math/Vector3.hpp, math/Vector2.hpp)

    The class templates, over what they use of their component type.  The
    subtraction, division and remainder operators take their operands in the
    other order: [a - b] is [b.x - a.x]; the compound assignments do not. *)

(** What the templates use of [T]; [s_square] is [std::pow(x, 2)]. *)
Class Scalar (T : Type) := {
  s_add : T → T → T;
  s_sub : T → T → T;
  s_mul : T → T → T;
  s_div : T → T → T;
  s_sqrt : T → T;
  s_square : T → T;
  s_eqb : T → T → bool
}.

#[export] Instance double_scalar : Scalar double := {|
  s_add := dadd; s_sub := dsub; s_mul := dmul; s_div := ddiv; s_sqrt := dsqrt;
  s_square x := dmul x x; s_eqb := SFeqb
|}.

Record Vector3 (T : Type) : Type := mk_Vector3 { v3x : T; v3y : T; v3z : T }.
Arguments mk_Vector3 {T} _ _ _.
Arguments v3x {T} _.
Arguments v3y {T} _.
Arguments v3z {T} _.

Record Vector2 (T : Type) : Type := mk_Vector2 { v2x : T; v2z : T }.
Arguments mk_Vector2 {T} _ _.
Arguments v2x {T} _.
Arguments v2z {T} _.

Section Vectors.
Context {T : Type} `{Scalar T}.

Definition Vector3_zip (f : T → T → T) (a b : Vector3 T) : Vector3 T :=
  mk_Vector3 (f (v3x a) (v3x b)) (f (v3y a) (v3y b)) (f (v3z a) (v3z b)).
Definition Vector3_splat (t : T) : Vector3 T := mk_Vector3 t t t.

(** [a op b]: every operator is [other op this]. *)
Definition Vector3_add (a other : Vector3 T) : Vector3 T := Vector3_zip s_add other a.
Definition Vector3_sub (a other : Vector3 T) : Vector3 T := Vector3_zip s_sub other a.
Definition Vector3_mul (a other : Vector3 T) : Vector3 T := Vector3_zip s_mul other a.
Definition Vector3_div (a other : Vector3 T) : Vector3 T := Vector3_zip s_div other a.
(** [a op= b] *)
Definition Vector3_add_assign (a other : Vector3 T) : Vector3 T := Vector3_zip s_add a other.
Definition Vector3_sub_assign (a other : Vector3 T) : Vector3 T := Vector3_zip s_sub a other.
Definition Vector3_mul_assign (a other : Vector3 T) : Vector3 T := Vector3_zip s_mul a other.
Definition Vector3_div_assign (a other : Vector3 T) : Vector3 T := Vector3_zip s_div a other.

Definition Vector3_distance (a other : Vector3 T) : T :=
  s_sqrt (s_add (s_add (s_square (s_sub (v3x other) (v3x a))) (s_square (s_sub (v3y other) (v3y a))))
            (s_square (s_sub (v3z other) (v3z a)))).
Definition Vector3_magnitude (a : Vector3 T) : T :=
  s_sqrt (s_add (s_add (s_mul (v3x a) (v3x a)) (s_mul (v3y a) (v3y a))) (s_mul (v3z a) (v3z a))).
Definition Vector3_normalized (a : Vector3 T) : Vector3 T :=
  let mag := Vector3_magnitude a in mk_Vector3 (s_div (v3x a) mag) (s_div (v3y a) mag) (s_div (v3z a) mag).
Definition Vector3_normalize (a : Vector3 T) : Vector3 T :=
  let mag := Vector3_magnitude a in mk_Vector3 (s_div (v3x a) mag) (s_div (v3y a) mag) (s_div (v3z a) mag).
Definition Vector3_dotProduct (a other : Vector3 T) : T :=
  s_add (s_add (s_mul (v3x a) (v3x other)) (s_mul (v3y a) (v3y other))) (s_mul (v3z a) (v3z other)).

Definition Vector3_eq (a other : Vector3 T) : bool :=
  s_eqb (v3x a) (v3x other) && s_eqb (v3y a) (v3y other) && s_eqb (v3z a) (v3z other).
Definition Vector3_neq (a other : Vector3 T) : bool :=
  negb (s_eqb (v3x a) (v3x other)) || negb (s_eqb (v3y a) (v3y other)) || negb (s_eqb (v3z a) (v3z other)).

(** [Vector2(const Vector3 &other)] drops the height. *)
Definition Vector2_of_Vector3 (other : Vector3 T) : Vector2 T := mk_Vector2 (v3x other) (v3z other).

Definition Vector2_zip (f : T → T → T) (a b : Vector2 T) : Vector2 T :=
  mk_Vector2 (f (v2x a) (v2x b)) (f (v2z a) (v2z b)).
Definition Vector2_add (a other : Vector2 T) : Vector2 T := Vector2_zip s_add other a.
Definition Vector2_sub (a other : Vector2 T) : Vector2 T := Vector2_zip s_sub other a.
Definition Vector2_mul (a other : Vector2 T) : Vector2 T := Vector2_zip s_mul other a.
Definition Vector2_div (a other : Vector2 T) : Vector2 T := Vector2_zip s_div other a.
Definition Vector2_add_assign (a other : Vector2 T) : Vector2 T := Vector2_zip s_add a other.
Definition Vector2_sub_assign (a other : Vector2 T) : Vector2 T := Vector2_zip s_sub a other.
Definition Vector2_mul_assign (a other : Vector2 T) : Vector2 T := Vector2_zip s_mul a other.
Definition Vector2_div_assign (a other : Vector2 T) : Vector2 T := Vector2_zip s_div a other.
Definition Vector2_distance (a other : Vector2 T) : T :=
  s_sqrt (s_add (s_square (s_sub (v2x other) (v2x a))) (s_square (s_sub (v2z other) (v2z a)))).
Definition Vector2_magnitude (a : Vector2 T) : T :=
  s_sqrt (s_add (s_mul (v2x a) (v2x a)) (s_mul (v2z a) (v2z a))).
Definition Vector2_normalize (a : Vector2 T) : Vector2 T :=
  let mag := Vector2_magnitude a in mk_Vector2 (s_div (v2x a) mag) (s_div (v2z a) mag).
Definition Vector2_eq (a other : Vector2 T) : bool :=
  s_eqb (v2x a) (v2x other) && s_eqb (v2z a) (v2z other).
Definition Vector2_neq (a other : Vector2 T) : bool :=
  negb (s_eqb (v2x a) (v2x other)) || negb (s_eqb (v2z a) (v2z other)).

(** The inequality is the negation of the equality. *)
Lemma Vector3_neq_eq a b : Vector3_neq a b = negb (Vector3_eq a b).
Proof. unfold Vector3_neq, Vector3_eq. by rewrite !negb_andb. Qed.
Lemma Vector2_neq_eq a b : Vector2_neq a b = negb (Vector2_eq a b).
Proof. unfold Vector2_neq, Vector2_eq. by rewrite negb_andb. Qed.
End Vectors.

(** The binary and the compound operators disagree: 5 - 2 is 3, or -3. *)
Example Vector3_sub_reversed :
  let v z := Vector3_splat (double_of_Z z) in
  Vector3_sub (v 5) (v 2) = v (-3) ∧ Vector3_sub_assign (v 5) (v 2) = v 3.
Proof. by vm_compute. Qed.

(** ** Bounds of floating point arithmetic

    Rounding keeps a number between two numbers of few bits: what the operations on
    doubles return lies in the interval that exact arithmetic gives, and so does its
    conversion to an integer. *)

(** *** Digits *)

Lemma digits2_log2 p : Z.pos (digits2_pos p) = Z.log2 (Z.pos p) + 1.
Proof.
  induction p as [p IH|p IH|]; cbn [digits2_pos]; rewrite ?Pos2Z.inj_succ, ?IH; [| |done].
  - rewrite Pos2Z.inj_xI, Z.log2_succ_double by lia. lia.
  - rewrite Pos2Z.inj_xO, Z.log2_double by lia. lia.
Qed.
Lemma digits2_bounds p : 2 ^ (Z.pos (digits2_pos p) - 1) ≤ Z.pos p < 2 ^ Z.pos (digits2_pos p).
Proof.
  rewrite digits2_log2, Z.add_simpl_r. by apply Z.log2_spec.
Qed.

(** *** Shifts with a remainder *)

(** What is left of [m] after it lost [n] bits. *)
Definition shifted (m n : Z) (r : shr_record) : Prop :=
  shr_m r = m / 2 ^ n ∧ (shr_r r || shr_s r = false ↔ m mod 2 ^ n = 0).

Lemma shr_1_half r : 0 ≤ shr_m r →
  shr_m (shr_1 r) = shr_m r / 2 ∧
  (shr_r (shr_1 r) || shr_s (shr_1 r) = false ↔ shr_m r mod 2 = 0 ∧ shr_r r || shr_s r = false).
Proof.
  destruct r as [m r s]. intros Hm. cbn in Hm. unfold shr_1. cbn [shr_m shr_r shr_s].
  destruct m as [|[p|p|]|p]; cbn [shr_m shr_r shr_s]; [| | | |lia].
  - split; [done|]. cbn. split; [by intros ->|by intros [_ ->]].
  - rewrite Pos2Z.inj_xI. split; [div_lia|]. split; [done|]. intros [? _]. div_lia.
  - rewrite Pos2Z.inj_xO. split; [div_lia|]. split; [|by intros [_ ->]].
    cbn. intros ->. split; [div_lia|done].
  - split; [done|]. split; [done|]. by intros [? _].
Qed.

Lemma shifted_step m n r : 0 ≤ m → 0 ≤ n → shifted m n r → shifted m (n + 1) (shr_1 r).
Proof.
  intros Hm Hn [Hr Hz]. assert (Hp : 0 < 2 ^ n) by (apply Z.pow_pos_nonneg; lia).
  assert (Hr0 : 0 ≤ shr_m r) by (rewrite Hr; apply Z.div_pos; lia).
  destruct (shr_1_half r Hr0) as [H1 H2]. unfold shifted. rewrite H1, H2, Hr, Hz, Z.pow_add_r, Z.pow_1_r by lia.
  split; [by rewrite Z.div_div by lia|].
  pose proof (Z.div_mod m (2 ^ n) ltac:(lia)) as Hdm. pose proof (Z.mod_pos_bound m (2 ^ n) Hp).
  rewrite Z.rem_mul_r by lia. pose proof (Z.mod_pos_bound (m / 2 ^ n) 2 ltac:(lia)). nia.
Qed.

Lemma shifted_iter m n p r : 0 ≤ m → 0 ≤ n → shifted m n r → shifted m (n + Z.pos p) (SpecFloat.iter_pos shr_1 p r).
Proof.
  intros Hm. revert n r. induction p as [p IH|p IH|]; intros n r Hn Hs; cbn [SpecFloat.iter_pos].
  - replace (n + Z.pos p~1) with (n + 1 + Z.pos p + Z.pos p) by lia.
    apply IH; [lia|]. apply IH; [lia|]. by apply shifted_step.
  - replace (n + Z.pos p~0) with (n + Z.pos p + Z.pos p) by lia. apply IH; [lia|]. by apply IH.
  - by apply shifted_step.
Qed.

Lemma shr_shifted m e n : 0 ≤ m → 0 ≤ n →
  ∃ r, shr (Build_shr_record m false false) e n = (r, e + n) ∧ shifted m n r.
Proof.
  intros Hm Hn. assert (H0 : shifted m 0 (Build_shr_record m false false)).
  { split; cbn; [by rewrite Z.div_1_r|by rewrite Z.mod_1_r]. }
  destruct n as [|p|p]; [|eexists; split; [done|]|lia].
  - exists (Build_shr_record m false false). rewrite Z.add_0_r. done.
  - by apply (shifted_iter m 0).
Qed.

(** Rounding chooses one of the two neighbours, and an exact number stays. *)
Lemma round_neighbour m n r :
  shifted m n r →
  let q := round_nearest_even (shr_m r) (loc_of_shr_record r) in
  (q = m / 2 ^ n ∨ q = m / 2 ^ n + 1) ∧ (m mod 2 ^ n = 0 → q = m / 2 ^ n).
Proof.
  intros [Hm Hz]. destruct r as [q r s]. cbn in *. subst q.
  destruct r, s; cbn in *; try (split; [auto|intros Hd; apply Hz in Hd; done]).
  destruct (Z.even _); auto.
Qed.

(** *** Rounding between two numbers of few bits *)

Section Scale.
(** The bounds are whole multiples of [2 ^ - k]. *)
Context (k : Z) (Hk : 0 ≤ k ≤ 1000).

(** The number [m * 2 ^ e] lies between [lo * 2 ^ - k] and [hi * 2 ^ - k], and its bits
    reach as far down as those of the bounds. *)
Definition magnitude_in (lo hi m e : Z) : Prop := e ≤ - k ∧ lo * 2 ^ (- k - e) ≤ m ≤ hi * 2 ^ (- k - e).

Local Abbreviation dexp := (fexp 53 1024).

Lemma digits_of d m : 0 ≤ d → 0 < m < 2 ^ d → 0 < Zdigits2 m ≤ d.
Proof.
  intros Hd Hm. destruct m as [|p|p]; [lia| |lia]. cbn. rewrite digits2_log2. split.
  - pose proof (Z.log2_nonneg (Z.pos p)). lia.
  - assert (Z.log2 (Z.pos p) < d) by (apply Z.log2_lt_pow2; lia). lia.
Qed.

Lemma pow2_pos n : 0 ≤ n → 0 < 2 ^ n.
Proof. intros. apply Z.pow_pos_nonneg; lia. Qed.

(** Losing [n] bits and rounding stays between the integers. *)
Lemma magnitude_shift lo hi m e n q :
  magnitude_in lo hi m e → 0 ≤ n → e + n ≤ - k →
  (q = m / 2 ^ n ∨ q = m / 2 ^ n + 1) → (m mod 2 ^ n = 0 → q = m / 2 ^ n) →
  magnitude_in lo hi q (e + n).
Proof.
  intros [He Hm] Hn Hen Hq Hz. split; [done|].
  assert (E : 2 ^ (- k - e) = 2 ^ (- k - (e + n)) * 2 ^ n) by (rewrite <- Z.pow_add_r by lia; f_equal; lia).
  rewrite E in Hm. set (K := 2 ^ (- k - (e + n))) in *. pose proof (pow2_pos n Hn) as Hp.
  pose proof (Z.div_mod m (2 ^ n) ltac:(lia)) as Hdm. pose proof (Z.mod_pos_bound m (2 ^ n) Hp) as Hb.
  destruct (decide (m mod 2 ^ n = 0)) as [E0|E0]; [rewrite (Hz E0); nia|].
  assert (lo * K ≤ m / 2 ^ n) by nia. assert (m / 2 ^ n < hi * K) by nia. lia.
Qed.

Lemma shr_fexp_exact m e : shr_fexp 53 1024 m e loc_Exact =
  shr (Build_shr_record m false false) e (dexp (Zdigits2 m + e) - e).
Proof. done. Qed.

Lemma shr_none r e n : n ≤ 0 → shr r e n = (r, e).
Proof. by destruct n. Qed.

(** The first shift leaves 53 bits at most. *)
Lemma first_shift lo hi m e :
  hi < 2 ^ 53 → 0 < m → magnitude_in lo hi m e →
  ∃ r f, shr_fexp 53 1024 m e loc_Exact = (r, f) ∧
    let q := round_nearest_even (shr_m r) (loc_of_shr_record r) in
    0 ≤ q ∧ magnitude_in lo hi q f ∧ (dexp (Zdigits2 q + f) ≤ f ∨ q = 2 ^ 53 ∧ -1074 ≤ f).
Proof.
  intros Hhi Hm Hmag. pose proof Hmag as [He [_ Hup]].
  assert (Hd : 0 < Zdigits2 m ≤ 53 - k - e).
  { apply digits_of; [lia|]. split; [done|].
    replace (53 - k - e) with (53 + (- k - e)) by lia. rewrite Z.pow_add_r by lia. pose proof (pow2_pos (- k - e)). nia. }
  rewrite shr_fexp_exact. set (f := dexp (Zdigits2 m + e)).
  assert (Hf : f = Z.max (Zdigits2 m + e - 53) (-1074)) by done. 
  destruct (decide (f - e ≤ 0)) as [Hn|Hn].
  - rewrite shr_none by done. eexists _, _. split; [done|]. cbn. split_and!; [lia|done|]. left. fold f. lia.
  - destruct (shr_shifted m e (f - e)) as (r & -> & Hs); [lia|lia|].
    replace (e + (f - e)) with f by lia. exists r, f. split; [done|]. cbn zeta.
    destruct (round_neighbour m (f - e) r Hs) as [Hq Hz].
    set (q := round_nearest_even (shr_m r) (loc_of_shr_record r)) in *.
    pose proof (pow2_pos (f - e) ltac:(lia)) as Hp.
    assert (Hq0 : 0 ≤ m / 2 ^ (f - e)) by (apply Z.div_pos; lia).
    assert (Hmag' : magnitude_in lo hi q (e + (f - e))) by (apply (magnitude_shift lo hi m); [done|lia|lia|done|done]).
    replace (e + (f - e)) with f in Hmag' by lia.
    assert (Hm53 : m / 2 ^ (f - e) < 2 ^ 53).
    { apply Z.div_lt_upper_bound; [done|]. rewrite <- Z.pow_add_r by lia.
      destruct m as [|p|p]; try lia. cbn [Zdigits2] in *. pose proof (digits2_bounds p) as [_ Hb].
      eapply Z.lt_le_trans; [exact Hb|]. apply Z.pow_le_mono_r; lia. }
    split_and!; [lia|done|]. destruct (decide (q = 2 ^ 53)) as [->|Hne]; [right; split; [done|lia]|]. left.
    assert (Hdq : Zdigits2 q ≤ 53).
    { destruct (decide (q = 0)) as [->|]; [done|]. apply (digits_of 53 q); lia. }
    unfold fexp, emin. lia.
Qed.

(** The second shift loses nothing. *)
Lemma second_shift lo hi q f :
  hi < 2 ^ 53 → 0 ≤ q → magnitude_in lo hi q f → dexp (Zdigits2 q + f) ≤ f ∨ q = 2 ^ 53 ∧ -1074 ≤ f →
  ∃ r g, shr_fexp 53 1024 q f loc_Exact = (r, g) ∧ 0 ≤ shr_m r ∧ magnitude_in lo hi (shr_m r) g.
Proof.
  intros Hhi Hq Hmag [Hf|[-> Hf]]; rewrite shr_fexp_exact.
  - rewrite shr_none by lia. eexists _, _. split; [done|]. done.
  - change (Zdigits2 (2 ^ 53)) with 54. replace (dexp (54 + f) - f) with 1 by (unfold fexp, emin; lia).
    destruct (shr_shifted (2 ^ 53) f 1) as (r & -> & Hr & _); [lia|lia|].
    exists r, (f + 1). rewrite Hr. split_and!; [done|done|].
    assert (Hf0 : f < - k).
    { destruct Hmag as [He [_ Hup]]. destruct (decide (f = - k)) as [->|]; [|lia].
      replace (- k - - k) with 0 in Hup by lia. cbn in Hup. lia. }
    apply (magnitude_shift lo hi (2 ^ 53)); [done|lia|lia|by left|done].
Qed.

Lemma binary_round_aux_in lo hi s m e :
  hi < 2 ^ 53 → magnitude_in lo hi (Z.pos m) e →
  (binary_round_aux 53 1024 s (Z.pos m) e loc_Exact = S754_zero s ∧ lo ≤ 0 ≤ hi) ∨
  ∃ m' e', binary_round_aux 53 1024 s (Z.pos m) e loc_Exact = S754_finite s m' e' ∧
    magnitude_in lo hi (Z.pos m') e'.
Proof.
  intros Hhi Hmag. unfold binary_round_aux.
  destruct (first_shift lo hi (Z.pos m) e Hhi ltac:(lia) Hmag) as (r & f & -> & Hq & Hmq & Hs).
  destruct (second_shift lo hi _ f Hhi Hq Hmq Hs) as (r' & g & -> & Hr' & Hmr).
  destruct (shr_m r') as [|m'|m'] eqn:E; [|right|lia].
  - left. split; [done|]. destruct Hmr as [Hg Hb]. pose proof (pow2_pos (- k - g)). nia.
  - exists m', g. destruct Hmr as [Hg Hb]. by rewrite (proj2 (Z.leb_le g (1024 - 53))) by lia.
Qed.

(** *** Values between two integers *)

Definition between (lo hi : Z) (f : double) : Prop :=
  match f with
  | S754_zero _ => lo ≤ 0 ≤ hi
  | S754_finite s m e => magnitude_in lo hi (if s then Z.neg m else Z.pos m) e
  | _ => False
  end.

(** The sign turns the interval. *)
Lemma magnitude_neg lo hi m e : magnitude_in lo hi (- m) e ↔ magnitude_in (- hi) (- lo) m e.
Proof. unfold magnitude_in. lia. Qed.

Lemma binary_round_aux_between lo hi (s : bool) m e :
  - 2 ^ 53 < lo → hi < 2 ^ 53 → magnitude_in lo hi (if s then Z.neg m else Z.pos m) e →
  between lo hi (binary_round_aux 53 1024 s (Z.pos m) e loc_Exact).
Proof.
  intros Hlo Hhi Hm. destruct s.
  - apply (magnitude_neg lo hi (Z.pos m)) in Hm.
    destruct (binary_round_aux_in (- hi) (- lo) true m e) as [[-> ?]|(m' & e' & -> & Hm')]; [lia|done|cbn; lia|].
    cbn. by apply (magnitude_neg lo hi (Z.pos m')).
  - destruct (binary_round_aux_in lo hi false m e) as [[-> ?]|(m' & e' & -> & Hm')]; done.
Qed.

Lemma pos_iter_xO d m : Z.pos (Pos.iter xO m d) = Z.pos m * 2 ^ Z.pos d.
Proof.
  induction d as [|d IH] using Pos.peano_ind; [cbn; lia|].
  rewrite Pos.iter_succ, Pos2Z.inj_xO, IH, Pos2Z.inj_succ, Z.pow_succ_r by lia. lia.
Qed.

Lemma binary_round_between lo hi (s : bool) m e :
  - 2 ^ 53 < lo → hi < 2 ^ 53 → magnitude_in lo hi (if s then Z.neg m else Z.pos m) e →
  between lo hi (binary_round 53 1024 s m e).
Proof.
  intros Hlo Hhi Hm. unfold binary_round, shl_align.
  set (f := dexp (Z.pos (digits2_pos m) + e)).
  destruct (f - e) as [|d|d] eqn:E; try by apply binary_round_aux_between.
  apply binary_round_aux_between; [done|done|]. destruct Hm as [He Hm]. split; [lia|].
  replace (- k - f) with (- k - e + Z.pos d) by lia. rewrite Z.pow_add_r by lia.
  pose proof (pow2_pos (Z.pos d)). pose proof (pos_iter_xO d m) as Hi.
  destruct s; rewrite <- ?Pos2Z.opp_pos, Hi in *; nia.
Qed.

Lemma binary_normalize_between lo hi m e s :
  - 2 ^ 53 < lo → hi < 2 ^ 53 → magnitude_in lo hi m e → between lo hi (binary_normalize 53 1024 m e s).
Proof.
  intros Hlo Hhi Hm. destruct m as [|m|m]; cbn [binary_normalize].
  - destruct Hm as [He Hm]. pose proof (pow2_pos (- k - e)). cbn. nia.
  - by apply (binary_round_between lo hi false).
  - by apply (binary_round_between lo hi true).
Qed.


End Scale.

Lemma double_of_Z_between n : - 2 ^ 53 < n < 2 ^ 53 → between 0 n n (double_of_Z n).
Proof. intros Hn. apply binary_normalize_between; [lia|lia|lia|]. split; cbn; lia. Qed.

Lemma between_mono k lo hi lo' hi' f : between k lo hi f → lo' ≤ lo → hi ≤ hi' → between k lo' hi' f.
Proof.
  destruct f as [s|s| |s m e]; cbn; [lia|done|done|]. intros [He Hm] ? ?. split; [done|].
  pose proof (pow2_pos (- k - e) ltac:(lia)). nia.
Qed.

(** The same number at a finer scale needs bits that reach further down; a coarser scale
    of the same bounds asks for less. *)
Lemma between_coarser k n lo hi f :
  0 ≤ k → 0 ≤ n → between (k + n) (lo * 2 ^ n) (hi * 2 ^ n) f → between k lo hi f.
Proof.
  intros Hk Hn. pose proof (pow2_pos n Hn). destruct f as [s|s| |s m e]; cbn; [nia|done|done|].
  intros [He Hm]. split; [lia|]. replace (- k - e) with (n + (- (k + n) - e)) by lia.
  rewrite Z.pow_add_r by lia. rewrite <- !Z.mul_assoc in Hm. done.
Qed.

(** *** Operations *)

(** The whole number [m] times [2 ^ (e - e')], for an exponent that is not larger. *)
Lemma shl_align_min m e e' : e' ≤ e → Z.pos (shl_align m e e').1 = Z.pos m * 2 ^ (e - e').
Proof.
  intros He. unfold shl_align. destruct (e' - e) as [|d|d] eqn:E; [|lia|].
  - replace (e - e') with 0 by lia. cbn. lia.
  - replace (e - e') with (Z.pos d) by lia. cbn [fst]. apply pos_iter_xO.
Qed.

Lemma signed_shift (s : bool) m m' k : Z.pos m' = Z.pos m * k →
  cond_Zopp s (Z.pos m') = (if s then Z.neg m else Z.pos m) * k.
Proof. intros E. destruct s; cbn [cond_Zopp]; rewrite E; lia. Qed.

Lemma magnitude_align k lo hi (s : bool) m e e' :
  magnitude_in k lo hi (if s then Z.neg m else Z.pos m) e → e' ≤ e →
  magnitude_in k lo hi (cond_Zopp s (Z.pos (shl_align m e e').1)) e'.
Proof.
  intros [He Hm] Hle. split; [lia|]. rewrite (signed_shift s m _ _ (shl_align_min m e e' Hle)).
  replace (- k - e') with (- k - e + (e - e')) by lia. rewrite Z.pow_add_r by lia.
  pose proof (pow2_pos (e - e') ltac:(lia)). nia.
Qed.

Lemma dadd_between k a b c d f g :
  0 ≤ k ≤ 1000 → between k a b f → between k c d g → - 2 ^ 53 < a + c → b + d < 2 ^ 53 →
  between k (a + c) (b + d) (dadd f g).
Proof.
  intros Hk Hf Hg Hlo Hhi. unfold dadd, SFadd.
  destruct f as [s|s| |s m e], g as [s'|s'| |s' m' e']; try done; cbn [between] in Hf, Hg.
  - destruct s, s'; cbn; lia.
  - apply (between_mono k c d); [done|lia|lia].
  - apply (between_mono k a b); [done|lia|lia].
  - set (n := Z.min e e'). apply binary_normalize_between; [done|done|done|].
    destruct (magnitude_align k a b s m e n Hf ltac:(lia)) as [Hn H1].
    destruct (magnitude_align k c d s' m' e' n Hg ltac:(lia)) as [_ H2]. split; [done|]. lia.
Qed.

(** A product of two factors lies where its corners lie. *)
Lemma linear_between a b lo hi x y :
  a ≤ x ≤ b → lo ≤ a * y ≤ hi → lo ≤ b * y ≤ hi → lo ≤ x * y ≤ hi.
Proof. intros. destruct (decide (0 ≤ y)); nia. Qed.

Lemma corners K L a b c d lo hi x y :
  0 < K → 0 < L →
  lo ≤ a * c ≤ hi → lo ≤ a * d ≤ hi → lo ≤ b * c ≤ hi → lo ≤ b * d ≤ hi →
  a * K ≤ x ≤ b * K → c * L ≤ y ≤ d * L → lo * (K * L) ≤ x * y ≤ hi * (K * L).
Proof.
  intros HK HL Hac Had Hbc Hbd Hx Hy.
  assert (Hcorner : ∀ u v, lo ≤ u * v ≤ hi → lo * (K * L) ≤ u * K * (v * L) ≤ hi * (K * L)).
  { intros u v Huv. replace (u * K * (v * L)) with (u * v * (K * L)) by ring.
    split; apply Z.mul_le_mono_nonneg_r; nia. }
  assert (Hedge : ∀ u, lo ≤ u * c ≤ hi → lo ≤ u * d ≤ hi → lo * (K * L) ≤ u * K * y ≤ hi * (K * L)).
  { intros u Hc Hd. rewrite (Z.mul_comm (u * K)).
    apply (linear_between (c * L) (d * L)); [done| |]; rewrite (Z.mul_comm _ (u * K)); by apply Hcorner. }
  apply (linear_between (a * K) (b * K)); [done| |]; by apply Hedge.
Qed.

Lemma signed_mul (s s' : bool) m m' :
  (if xorb s s' then Z.neg (m * m') else Z.pos (m * m')) =
  (if s then Z.neg m else Z.pos m) * (if s' then Z.neg m' else Z.pos m').
Proof. destruct s, s'; cbn [xorb]; lia. Qed.

Lemma dmul_between k k' a b c d lo hi f g :
  0 ≤ k → 0 ≤ k' → k + k' ≤ 1000 → between k a b f → between k' c d g →
  lo ≤ a * c ≤ hi → lo ≤ a * d ≤ hi → lo ≤ b * c ≤ hi → lo ≤ b * d ≤ hi →
  - 2 ^ 53 < lo → hi < 2 ^ 53 →
  between (k + k') lo hi (dmul f g).
Proof.
  intros Hk Hk' Hkk Hf Hg Hac Had Hbc Hbd Hlo Hhi. unfold dmul, SFmul.
  assert (Hzero : a ≤ 0 ≤ b ∨ c ≤ 0 ≤ d → lo ≤ 0 ≤ hi).
  { intros [H|H]; [assert (Hc := linear_between a b lo hi 0 c H Hac Hbc)|assert (Hc := linear_between c d lo hi 0 a H)];
      [lia|]. rewrite !(Z.mul_comm _ a) in Hc. specialize (Hc Hac Had). lia. }
  destruct f as [s|s| |s m e], g as [s'|s'| |s' m' e']; try done; cbn [between] in *; try by (apply Hzero; auto).
  apply binary_round_aux_between; [lia|done|done|]. destruct Hf as [He Hm], Hg as [He' Hm'].
  split; [lia|]. rewrite signed_mul.
  replace (- (k + k') - (e + e')) with (- k - e + (- k' - e')) by lia. rewrite Z.pow_add_r by lia.
  apply (corners _ _ a b c d); auto using pow2_pos with lia.
Qed.

(** A conversion to an integer drops what is behind the point. *)
Lemma trunc_between lo hi f : between 0 lo hi f → ∃ z, trunc f = Some z ∧ lo ≤ z ≤ hi.
Proof.
  destruct f as [s|s| |s m e]; try done; cbn [between trunc]; [by exists 0|]. intros [He Hm].
  replace (- 0 - e) with (- e) in Hm by lia. pose proof (pow2_pos (- e) ltac:(lia)) as Hp.
  assert (Hv : (if decide (0 ≤ e) then Z.pos m * 2 ^ e else Z.pos m / 2 ^ (- e)) = Z.pos m / 2 ^ (- e)).
  { case_decide; [|done]. replace e with 0 by lia. by rewrite Z.mul_1_r, Z.div_1_r. }
  rewrite Hv. eexists. split; [done|].
  pose proof (Z.div_mod (Z.pos m) (2 ^ (- e)) ltac:(lia)). pose proof (Z.mod_pos_bound (Z.pos m) _ Hp).
  set (q := Z.pos m / 2 ^ (- e)) in *. destruct s; nia.
Qed.

(** *** Canonical numbers

    The operations return the one representation of their results that comparisons
    rely on. *)

Abbreviation canonical f := (valid_binary 53 1024 f = true).

Lemma canonical_finite (s : bool) m e :
  canonical (S754_finite s m e) ↔ fexp 53 1024 (Zdigits2 (Z.pos m) + e) = e ∧ e ≤ 971.
Proof.
  cbn [valid_binary]. unfold bounded, canonical_mantissa. rewrite andb_true_iff, Z.leb_le. cbn [Zdigits2].
  by rewrite Z.eqb_eq.
Qed.

Lemma digits_eq d m : 0 < d → 2 ^ (d - 1) ≤ m < 2 ^ d → Zdigits2 m = d.
Proof.
  intros Hd Hm. pose proof (pow2_pos (d - 1) ltac:(lia)). destruct m as [|p|p]; [lia| |lia].
  cbn [Zdigits2]. rewrite digits2_log2. rewrite (Z.log2_unique _ (d - 1)); [lia|lia|].
  by replace (Z.succ (d - 1)) with d by lia.
Qed.

Lemma first_shift_canonical m e :
  0 < m → e ≤ fexp 53 1024 (Zdigits2 m + e) →
  ∃ r f, shr_fexp 53 1024 m e loc_Exact = (r, f) ∧ -1074 ≤ f ∧
    let q := round_nearest_even (shr_m r) (loc_of_shr_record r) in
    0 ≤ q ∧ (fexp 53 1024 (Zdigits2 q + f) = f ∨ q = 2 ^ 53).
Proof.
  intros Hm He. rewrite shr_fexp_exact. set (f := fexp 53 1024 (Zdigits2 m + e)) in *.
  assert (Hf : f = Z.max (Zdigits2 m + e - 53) (-1074)) by done.
  destruct (shr_shifted m e (f - e)) as (r & -> & Hs); [lia|lia|].
  replace (e + (f - e)) with f by lia. exists r, f. split_and!; [done|lia|]. cbn zeta.
  destruct (round_neighbour m (f - e) r Hs) as [Hq _].
  set (q := round_nearest_even (shr_m r) (loc_of_shr_record r)) in *.
  pose proof (pow2_pos (f - e) ltac:(lia)) as Hp.
  destruct m as [|p|p]; [lia| |lia]. cbn [Zdigits2] in *. pose proof (digits2_bounds p) as [Hlo Hup].
  assert (Hq0 : 0 ≤ Z.pos p / 2 ^ (f - e)) by (apply Z.div_pos; lia).
  assert (Hq53 : Z.pos p / 2 ^ (f - e) < 2 ^ 53).
  { apply Z.div_lt_upper_bound; [done|]. rewrite <- Z.pow_add_r by lia.
    eapply Z.lt_le_trans; [exact Hup|]. apply Z.pow_le_mono_r; lia. }
  split; [lia|]. destruct (decide (q = 2 ^ 53)) as [|Hne]; [by right|left].
  destruct (decide (Z.pos (digits2_pos p) + e - 53 ≤ -1074)) as [Hsub|Hnorm].
  - assert (Zdigits2 q ≤ 53).
    { destruct (decide (q = 0)) as [->|]; [done|]. apply (digits_of 53 q); lia. }
    unfold fexp, emin. lia.
  - assert (2 ^ 52 ≤ Z.pos p / 2 ^ (f - e)).
    { apply Z.div_le_lower_bound; [done|]. rewrite <- Z.pow_add_r by lia.
      etrans; [|exact Hlo]. apply Z.pow_le_mono_r; lia. }
    rewrite (digits_eq 53 q) by lia. unfold fexp, emin. lia.
Qed.

Lemma second_shift_canonical q f :
  0 ≤ q → -1074 ≤ f → fexp 53 1024 (Zdigits2 q + f) = f ∨ q = 2 ^ 53 →
  ∃ r g, shr_fexp 53 1024 q f loc_Exact = (r, g) ∧ 0 ≤ shr_m r ∧
    fexp 53 1024 (Zdigits2 (shr_m r) + g) = g.
Proof.
  intros Hq Hf [He| ->]; rewrite shr_fexp_exact.
  - rewrite He, shr_none by lia. eexists _, _. split; [done|]. done.
  - change (Zdigits2 (2 ^ 53)) with 54.
    replace (fexp 53 1024 (54 + f) - f) with 1 by (unfold fexp, emin; lia).
    destruct (shr_shifted (2 ^ 53) f 1) as (r & -> & Hr & _); [lia|lia|].
    exists r, (f + 1). rewrite Hr. change (Zdigits2 (2 ^ 53 / 2 ^ 1)) with 53.
    split_and!; [done|done|]. unfold fexp, emin. lia.
Qed.

Lemma binary_round_aux_canonical s m e :
  e ≤ fexp 53 1024 (Zdigits2 (Z.pos m) + e) → canonical (binary_round_aux 53 1024 s (Z.pos m) e loc_Exact).
Proof.
  intros He. unfold binary_round_aux.
  destruct (first_shift_canonical (Z.pos m) e ltac:(lia) He) as (r & f & -> & Hf & Hq & Hs).
  destruct (second_shift_canonical _ f Hq Hf Hs) as (r' & g & -> & Hr' & Hg).
  destruct (shr_m r') as [|m'|m'] eqn:E; [done| |lia].
  destruct (Z.leb_spec g (1024 - 53)); [|done]. apply canonical_finite. split; [done|lia].
Qed.

Lemma digits_mul m m' :
  Zdigits2 (Z.pos m) + Zdigits2 (Z.pos m') - 1 ≤ Zdigits2 (Z.pos (m * m')).
Proof.
  cbn [Zdigits2]. rewrite !digits2_log2, Pos2Z.inj_mul.
  pose proof (Z.log2_mul_below (Z.pos m) (Z.pos m') ltac:(lia) ltac:(lia)). lia.
Qed.

Lemma dmul_canonical f g : canonical f → canonical g → canonical (dmul f g).
Proof.
  intros Hf Hg. destruct f as [s|s| |s m e], g as [s'|s'| |s' m' e']; try done.
  apply canonical_finite in Hf as [Hf _], Hg as [Hg _]. apply binary_round_aux_canonical.
  pose proof (digits_mul m m'). assert (1 ≤ Zdigits2 (Z.pos m)) by (cbn; lia).
  assert (1 ≤ Zdigits2 (Z.pos m')) by (cbn; lia). unfold fexp, emin in *. lia.
Qed.

(** *** Comparisons *)

(** Of canonical numbers, the larger has no smaller exponent. *)
Lemma not_le_literal (s : bool) m e m0 e0 :
  SFleb (S754_finite s m e) (S754_finite false m0 e0) = false →
  s = false ∧ (e0 < e ∨ e = e0 ∧ Z.pos m0 < Z.pos m).
Proof.
  unfold SFleb, SFcompare. destruct s; [done|].
  destruct (Z.compare_spec e e0) as [->|?|?]; try done; [|auto].
  rewrite Pos.compare_cont_spec. destruct (Pos.compare_spec m m0) as [->|?|?]; try done. auto with lia.
Qed.
Lemma not_ge_literal (s : bool) m e m0 e0 :
  SFleb (S754_finite true m0 e0) (S754_finite s m e) = false →
  s = true ∧ (e0 < e ∨ e = e0 ∧ Z.pos m0 < Z.pos m).
Proof.
  unfold SFleb, SFcompare. destruct s; [|done].
  destruct (Z.compare_spec e0 e) as [->|?|?]; try done; [|auto].
  rewrite Pos.compare_cont_spec. destruct (Pos.compare_spec m0 m) as [->|?|?]; try done. auto with lia.
Qed.

Lemma le_literal m e m0 e0 :
  SFleb (S754_finite false m e) (S754_finite false m0 e0) = true → e < e0 ∨ e = e0 ∧ Z.pos m ≤ Z.pos m0.
Proof.
  unfold SFleb, SFcompare. destruct (Z.compare_spec e e0) as [->|?|?]; try done; [|auto].
  rewrite Pos.compare_cont_spec. destruct (Pos.compare_spec m m0) as [->|?|?]; try done; right; lia.
Qed.
Lemma ge_literal m e m0 e0 :
  SFleb (S754_finite true m0 e0) (S754_finite true m e) = true → e < e0 ∨ e = e0 ∧ Z.pos m ≤ Z.pos m0.
Proof.
  unfold SFleb, SFcompare. destruct (Z.compare_spec e0 e) as [->|?|?]; try done; [|auto].
  rewrite Pos.compare_cont_spec. destruct (Pos.compare_spec m0 m) as [->|?|?]; try done; right; lia.
Qed.

(** Canonical numbers have 53 digits, but for the smallest. *)
Lemma canonical_digits (s : bool) m e :
  canonical (S754_finite s m e) → -1074 ≤ e ∧ Z.pos m < 2 ^ 53 ∧ (-1074 < e → 2 ^ 52 ≤ Z.pos m).
Proof.
  rewrite canonical_finite. unfold fexp, emin. intros [Hf _]. cbn [Zdigits2] in Hf.
  pose proof (digits2_bounds m) as [Hlo Hup]. split_and!; [lia| |].
  - eapply Z.lt_le_trans; [exact Hup|]. apply Z.pow_le_mono_r; lia.
  - intros He. etrans; [|exact Hlo]. apply Z.pow_le_mono_r; lia.
Qed.

(** From a comparison to an interval. *)
Lemma unit_between f :
  canonical f → SFleb (double_of_Z (-1)) f = true → SFleb f (double_of_Z 1) = true → between 0 (-1) 1 f.
Proof.
  change (double_of_Z 1) with (S754_finite false (2 ^ 52) (-52)).
  change (double_of_Z (-1)) with (S754_finite true (2 ^ 52) (-52)).
  destruct f as [s|[]| |s m e]; try done. intros Hf Hlo Hhi.
  pose proof (canonical_digits s m e Hf) as (_ & H53 & _). cbn [between]. unfold magnitude_in.
  assert (Hcase : e < -52 ∨ e = -52 ∧ Z.pos m ≤ 2 ^ 52).
  { destruct s; [by apply ge_literal in Hlo|by apply le_literal in Hhi]. }
  assert (Z.pos m ≤ 2 ^ (- 0 - e)).
  { destruct Hcase as [He|[-> Hm]]; [|done]. transitivity (2 ^ 53); [lia|]. apply Z.pow_le_mono_r; lia. }
  destruct s; lia.
Qed.

(** Between a power of two and one. *)
Lemma unit_above k f m0 e0 :
  0 ≤ k ≤ 52 → 2 ^ 52 ≤ Z.pos m0 → - k - 52 ≤ e0 → canonical f → between 0 (-1) 1 f →
  SFleb f (S754_finite false m0 e0) = false → between k 1 (2 ^ k) f.
Proof.
  intros Hk Hm0 He0 Hf Hu. destruct f as [s|s| |s m e]; try done. intros Hle.
  destruct (not_le_literal _ _ _ _ _ Hle) as [-> Hcase]. destruct Hu as [_ [_ Hu]]. cbn [between].
  pose proof (canonical_digits _ m e Hf) as (_ & _ & H52). assert (Hm : 2 ^ 52 ≤ Z.pos m) by (destruct Hcase; lia).
  assert (He : e ≤ -52).
  { destruct (decide (e ≤ -52)); [done|]. assert (2 ^ (- 0 - e) ≤ 2 ^ 51); [|lia].
    destruct (decide (0 ≤ - 0 - e)); [apply Z.pow_le_mono_r; lia|]. rewrite Z.pow_neg_r by lia. done. }
  split; [lia|]. split.
  - transitivity (2 ^ 52); [|done]. rewrite Z.mul_1_l. apply Z.pow_le_mono_r; lia.
  - rewrite <- Z.pow_add_r by lia. replace (k + (- k - e)) with (- 0 - e) by lia. lia.
Qed.

Lemma unit_below k f m0 e0 :
  0 ≤ k ≤ 52 → 2 ^ 52 ≤ Z.pos m0 → - k - 52 ≤ e0 → canonical f → between 0 (-1) 1 f →
  SFleb (S754_finite true m0 e0) f = false → between k (- 2 ^ k) (-1) f.
Proof.
  intros Hk Hm0 He0 Hf Hu. destruct f as [s|s| |s m e]; try done. intros Hle.
  destruct (not_ge_literal _ _ _ _ _ Hle) as [-> Hcase]. destruct Hu as [_ [Hu _]].
  assert (Hneg : between k 1 (2 ^ k) (S754_finite false m e)).
  { apply (unit_above k _ m0 e0); [done|done|done|done| |].
    - split; [|lia]. destruct (decide (e ≤ -52)); [lia|].
      pose proof (canonical_digits _ m e Hf) as (_ & _ & H52). assert (2 ^ (- 0 - e) ≤ 2 ^ 51); [|lia].
      destruct (decide (0 ≤ - 0 - e)); [apply Z.pow_le_mono_r; lia|]. rewrite Z.pow_neg_r by lia. done.
    - unfold SFleb, SFcompare. destruct Hcase as [He|[-> Hm]].
      + by rewrite (proj2 (Z.compare_gt_iff e e0)) by lia.
      + rewrite Z.compare_refl, Pos.compare_cont_spec. by rewrite (proj2 (Pos.compare_gt_iff m m0)) by lia. }
  destruct Hneg as [He Hb]. split; [done|]. lia.
Qed.

(** From an interval to a comparison. *)
Lemma above_literal k lo hi f m0 e0 :
  0 ≤ k ≤ 1000 → 1 ≤ lo → e0 < - k - 52 → canonical f → between k lo hi f →
  SFleb f (S754_finite false m0 e0) = false.
Proof.
  intros Hk Hlo He0 Hf Hb. destruct f as [s|s| |s m e]; cbn [between] in Hb; [lia|done|done|].
  destruct Hb as [He [Hb _]]. pose proof (pow2_pos (- k - e) ltac:(lia)). destruct s; [nia|].
  assert (He' : - k - 52 ≤ e).
  { destruct (decide (- k - 52 ≤ e)); [done|]. pose proof (canonical_digits _ m e Hf) as (? & ? & _).
    assert (2 ^ 53 ≤ 2 ^ (- k - e)) by (apply Z.pow_le_mono_r; lia). nia. }
  unfold SFleb, SFcompare. by rewrite (proj2 (Z.compare_gt_iff e e0)) by lia.
Qed.

Lemma below_literal k lo hi f m0 e0 :
  0 ≤ k ≤ 1000 → hi ≤ -1 → e0 < - k - 52 → canonical f → between k lo hi f →
  SFleb (S754_finite true m0 e0) f = false.
Proof.
  intros Hk Hhi He0 Hf Hb. destruct f as [s|s| |s m e]; cbn [between] in Hb; [lia|done|done|].
  destruct Hb as [He [_ Hb]]. pose proof (pow2_pos (- k - e) ltac:(lia)). destruct s; [|nia].
  assert (He' : - k - 52 ≤ e).
  { destruct (decide (- k - 52 ≤ e)); [done|]. pose proof (canonical_digits _ m e Hf) as (? & ? & _).
    assert (2 ^ 53 ≤ 2 ^ (- k - e)) by (apply Z.pow_le_mono_r; lia). nia. }
  unfold SFleb, SFcompare. by rewrite (proj2 (Z.compare_lt_iff e0 e)) by lia.
Qed.
