(* ===== verification/BlockStates.v ===== *)
(** * Identifiers of block states and items (protocol_id_converter/)

    blockStates.hpp and blockStates.cpp, itemConverter.hpp and itemConverter.cpp.

    The global palette numbers the states of every block: a state is a choice of
    a value for each property, and its identifier the number the choices write in
    mixed radix, the last property first.  The tables are read from JSON files by
    a third-party library; [BlockEntry] and the lists of items are what it hands
    over, in the order of its iteration. *)

From S2P Require Import Prelude.

(** ** Blocks *)

Record InternalProperty : Type := mk_InternalProperty {
  property_name : string;
  property_values : list string;
  property_baseWeight : Z
}.

Record InternalBlock : Type := mk_InternalBlock {
  internal_name : string;
  internal_properties : list InternalProperty;
  internal_defaultProperties : list (string * string);
  internal_baseProtocolId : Z;
  internal_maxProtocolId : Z
}.

Record Block : Type := mk_Block {
  block_name : string;
  block_properties : list (string * string)
}.

(** A member of the file: its properties, when it has two keys, and the states:
    the identifiers of the first and of the last, and the properties of the state
    marked as default. *)
Record BlockEntry : Type := mk_BlockEntry {
  entry_name : string;
  entry_properties : list (string * list string);
  entry_first_id : Z;
  entry_last_id : Z;
  entry_default : option (list (string * string))
}.

(** The loop over the reversed properties; [maxThingy] and [weight] are [int]s,
    [baseWeight] a [uint8_t], and the product is computed in [size_t]. *)
Fixpoint read_properties (l : list (string * list string)) (maxThingy weight : Z) :
  list InternalProperty :=
  match l with
  | [] => []
  | (name, values) :: l =>
      let p := mk_InternalProperty name values (to_u8 weight) in
      let maxThingy := to_i32 (to_u64 (maxThingy + weight * (zlen values - 1))) in
      p :: read_properties l maxThingy (to_i32 (maxThingy + 1))
  end.

Definition read_block (e : BlockEntry) (defaults : list (string * string)) : InternalBlock :=
  mk_InternalBlock (entry_name e) (read_properties (reverse (entry_properties e)) 0 1) defaults
    (to_u16 (entry_first_id e)) (to_u16 (entry_last_id e)).

(** [initialize]: a block without a default state ends the reading. *)
Fixpoint GlobalPalette_initialize (file : list BlockEntry) : list InternalBlock :=
  match file with
  | [] => []
  | e :: file =>
      match entry_default e with
      | None => []
      | Some defaults => read_block e defaults :: GlobalPalette_initialize file
      end
  end.

Fixpoint find_by {A} (name : A → string) (key : string) (l : list A) : option A :=
  match l with
  | [] => None
  | x :: l => if decide (name x = key) then Some x else find_by name key l
  end.

Fixpoint index_of (v : string) (l : list string) : option Z :=
  match l with
  | [] => None
  | x :: l => if decide (x = v) then Some 0 else Z.succ <$> index_of v l
  end.

(** The defaults of the properties that are not given. *)
Fixpoint fill_defaults (defaults given : list (string * string)) : list (string * string) :=
  match defaults with
  | [] => given
  | (h, hh) :: defaults =>
      let found := existsb (λ c, bool_decide (c.1 = h)) given in
      fill_defaults defaults (if found then given else given ++ [(h, hh)])
  end.

(** Zero is the answer to an unknown property or value. *)
Fixpoint add_weights (ps : list InternalProperty) (given : list (string * string)) (id : Z) : Z :=
  match given with
  | [] => id
  | (name, v) :: given =>
      match find_by property_name name ps with
      | None => 0
      | Some p =>
          match index_of v (property_values p) with
          | None => 0
          | Some i => add_weights ps given (to_i32 (id + property_baseWeight p * i))
          end
      end
  end.

(** The identifier, and the block, which the function completes. *)
Definition fromBlockToProtocolId (blocks : list InternalBlock) (block : Block) : Z * Block :=
  match find_by internal_name (block_name block) blocks with
  | None => (0, block)
  | Some b =>
      let given :=
        if decide (length (block_properties block) ≠ length (internal_properties b))
        then fill_defaults (internal_defaultProperties b) (block_properties block)
        else block_properties block in
      let block := mk_Block (block_name block) given in
      if decide (length given = 0%nat ∧ length (internal_properties b) = 0%nat)
      then (internal_baseProtocolId b, block)
      else (add_weights (internal_properties b) given (internal_baseProtocolId b), block)
  end.

Definition fromBlockNameToProtocolId (blocks : list InternalBlock) (blockName : string) : Z :=
  match find_by internal_name blockName blocks with
  | None => 0
  | Some b => (fromBlockToProtocolId blocks (mk_Block blockName (internal_defaultProperties b))).1
  end.

(** The loop over the properties from the last stored to the first. *)
Fixpoint take_digits (ps : list InternalProperty) (id : Z) : result (list (string * string)) :=
  match ps with
  | [] => Ok []
  | p :: ps =>
      if decide (property_baseWeight p = 0) then UB DivisionByZero
      else
        match property_values p !! Z.to_nat (Z.quot id (property_baseWeight p)) with
        | None => UB OutOfBoundsRead
        | Some v => rest ← take_digits ps (Z.rem id (property_baseWeight p)); Ok ((property_name p, v) :: rest)
        end
  end.

Fixpoint fromProtocolIdToBlock (blocks : list InternalBlock) (id : Z) : result Block :=
  match blocks with
  | [] => Ok (mk_Block "minecraft:air" [])
  | b :: blocks =>
      if decide (id < internal_baseProtocolId b ∨ internal_maxProtocolId b < id)
      then fromProtocolIdToBlock blocks id
      else if decide (internal_properties b = []) then Ok (mk_Block (internal_name b) [])
      else
        given ← take_digits (reverse (internal_properties b)) (id - internal_baseProtocolId b);
        Ok (mk_Block (internal_name b) given)
  end.

(** ** Items *)

Record InternalItem : Type := mk_InternalItem { item_name : string; item_protocolId : Z }.

Definition ItemConverter_initialize (file : list (string * Z)) : list InternalItem :=
  (λ e, mk_InternalItem e.1 (to_u16 e.2)) <$> file.

Definition fromItemToProtocolId (items : list InternalItem) (name : string) : Z :=
  match find_by item_name name items with Some i => item_protocolId i | None => 0 end.

Fixpoint fromProtocolIdToItem (items : list InternalItem) (id : Z) : string :=
  match items with
  | [] => "minecraft:air"
  | i :: items => if decide (item_protocolId i = id) then item_name i else fromProtocolIdToItem items id
  end.
