(* ===== verification/BlockStatesProps.v ===== *)
(** * Properties of the identifiers of block states and items *)

From S2P Require Import Prelude BlockStates.

(** ** Tables *)

Section Find.
Context {A : Type} (name : A → string).

Lemma find_by_some key l x : find_by name key l = Some x → x ∈ l ∧ name x = key.
Proof.
  induction l as [|y l IH]; cbn; [done|]. case_decide; [intros [= ->]; split; [left|done]|].
  intros H1. destruct (IH H1). split; [by right|done].
Qed.

Lemma find_by_in l x : NoDup (name <$> l) → x ∈ l → find_by name (name x) l = Some x.
Proof.
  induction l as [|y l IH]; intros Hn Hx; [by apply not_elem_of_nil in Hx|].
  apply list.NoDup_cons in Hn as [Hy Hn]. cbn. case_decide as E.
  - apply elem_of_cons in Hx as [->|Hx]; [done|]. exfalso. apply Hy. rewrite E.
    by apply list_elem_of_fmap_2.
  - apply elem_of_cons in Hx as [->|Hx]; [done|]. by apply IH.
Qed.
End Find.

Lemma index_of_lookup v l i : NoDup l → l !! i = Some v → index_of v l = Some (Z.of_nat i).
Proof.
  revert i. induction l as [|x l IH]; intros i Hn Hi; [done|]. apply list.NoDup_cons in Hn as [Hx Hn].
  cbn. destruct i as [|i]; cbn in Hi; [simplify_eq; by rewrite decide_True|].
  rewrite decide_False by (intros ->; by apply Hx, list_elem_of_lookup_2 with i).
  rewrite (IH i Hn Hi). cbn. f_equal. lia.
Qed.

(** ** Mixed radix

    The number of states of a list of properties, and the weights that number
    them, the last property of the list having weight one. *)

Fixpoint states (ps : list InternalProperty) : Z :=
  match ps with [] => 1 | p :: ps => zlen (property_values p) * states ps end.

Fixpoint weighted (ps : list InternalProperty) : Prop :=
  match ps with
  | [] => True
  | p :: ps => property_baseWeight p = states ps ∧ property_values p ≠ [] ∧
               NoDup (property_values p) ∧ weighted ps
  end.

Lemma states_pos ps : weighted ps → 0 < states ps.
Proof.
  induction ps as [|p ps IH]; cbn; [lia|]. intros (_ & Hv & _ & Hw). specialize (IH Hw).
  destruct (property_values p); [done|]. rewrite zlen_cons. nia.
Qed.

(** The digits of a number, and their sum with the weights. *)
Lemma digits_ok all ps id base :
  NoDup (property_name <$> all) → ps ⊆ all → weighted ps → 0 ≤ id < states ps →
  0 ≤ base → base + states ps ≤ 2 ^ 31 →
  ∃ given, take_digits ps id = Ok given ∧ length given = length ps ∧
    add_weights all given base = base + id.
Proof.
  intros Hn. revert id base. induction ps as [|p ps IH]; intros id base Hsub Hw Hid Hb Hmax.
  { exists []. cbn in *. split_and!; [done..|lia]. }
  pose proof Hw as (Hbw & Hv & Hnd & Hw'). cbn [states] in *. pose proof (states_pos ps Hw').
  cbn [take_digits]. rewrite decide_False by lia. rewrite Hbw, Z.quot_div_nonneg, Z.rem_mod_nonneg by lia.
  pose proof (Z.mod_pos_bound id (states ps) ltac:(lia)).
  assert (0 ≤ id / states ps < zlen (property_values p)) as Hq.
  { split; [apply Z.div_pos; lia|]. apply Z.div_lt_upper_bound; lia. }
  destruct (lookup_lt_is_Some_2 (property_values p) (Z.to_nat (id / states ps))) as [v Hvi]; [lia|].
  rewrite Hvi. pose proof (Z.div_mod id (states ps) ltac:(lia)).
  destruct (IH (id `mod` states ps) (base + states ps * (id / states ps))) as (given & Hd & Hl & Ha);
    [set_solver|done|lia|nia|nia|].
  rewrite Hd. cbn [mbind result_bind]. exists ((property_name p, v) :: given).
  split_and!; [done|cbn; by rewrite Hl|]. cbn [add_weights].
  rewrite (find_by_in property_name all p Hn) by (apply Hsub; left).
  rewrite (index_of_lookup _ _ _ Hnd Hvi), Hbw, Z2Nat.id by lia.
  unfold to_i32. rewrite wrap_s_id by (unfold is_s; nia). rewrite Ha. lia.
Qed.

(** ** The tables that are read from the file *)

(** Properties in the order of the loop, the first having weight [w]. *)
Fixpoint radix_fits (l : list (string * list string)) (w : Z) : Prop :=
  match l with
  | [] => True
  | (_, values) :: l => w ≤ 255 ∧ values ≠ [] ∧ NoDup values ∧ radix_fits l (w * zlen values)
  end.

Fixpoint combinations (l : list (string * list string)) : Z :=
  match l with [] => 1 | (_, values) :: l => zlen values * combinations l end.

Lemma combinations_pos l w : radix_fits l w → 0 < combinations l.
Proof.
  revert w. induction l as [|[name values] l IH]; intros w; cbn; [lia|].
  intros (_ & Hv & _ & Hf). specialize (IH _ Hf). destruct values; [done|]. rewrite zlen_cons. nia.
Qed.

Lemma read_properties_ok l w acc :
  0 < w → radix_fits l w → w * combinations l < 2 ^ 31 → weighted acc → states acc = w →
  weighted (reverse (read_properties l (w - 1) w) ++ acc) ∧
  states (reverse (read_properties l (w - 1) w) ++ acc) = w * combinations l ∧
  property_name <$> read_properties l (w - 1) w = fst <$> l.
Proof.
  revert w acc. induction l as [|[name values] l IH]; intros w acc Hw Hf Hmax Hacc Hs.
  { cbn in *. split_and!; [done|lia|done]. }
  destruct Hf as (Hw255 & Hv & Hn & Hf). cbn [combinations] in Hmax.
  pose proof (combinations_pos _ _ Hf).
  assert (0 < zlen values) by (destruct values; [done|rewrite zlen_cons; lia]).
  assert (0 < w * zlen values < 2 ^ 31) by nia.
  cbn [read_properties]. unfold to_i32, to_u64, to_u8.
  rewrite (wrap_u_id 8 w) by (unfold is_u; lia).
  rewrite (wrap_u_id 64) by (unfold is_u; nia).
  rewrite (wrap_s_id 32 (w - 1 + w * (zlen values - 1))) by (unfold is_s; nia).
  rewrite (wrap_s_id 32) by (unfold is_s; nia).
  replace (w - 1 + w * (zlen values - 1)) with (w * zlen values - 1) by lia.
  rewrite Z.sub_add, reverse_cons, <- app_assoc. cbn [app].
  destruct (IH (w * zlen values) (mk_InternalProperty name values w :: acc))
    as (E1 & E2 & E3); [lia|done|nia|cbn; by rewrite Hs|cbn; by rewrite Hs, Z.mul_comm|].
  split_and!; [done|rewrite E2; cbn; lia|]. cbn. by rewrite E3.
Qed.

Definition entry_ok (e : BlockEntry) : Prop :=
  0 ≤ entry_first_id e ∧ entry_last_id e < 2 ^ 16 ∧
  entry_last_id e = entry_first_id e + combinations (entry_properties e) - 1 ∧
  is_Some (entry_default e) ∧ NoDup (fst <$> entry_properties e) ∧
  radix_fits (reverse (entry_properties e)) 1.

Lemma combinations_app l k : combinations (l ++ k) = combinations l * combinations k.
Proof. induction l as [|[? ?] l IH]; cbn; [by destruct (combinations k)|]. rewrite IH. lia. Qed.

Lemma combinations_reverse l : combinations (reverse l) = combinations l.
Proof.
  induction l as [|[name values] l IH]; [done|]. rewrite reverse_cons, combinations_app, IH.
  cbn. lia.
Qed.

(** What a block of the palette is for the two conversions. *)
Definition block_ok (b : InternalBlock) : Prop :=
  let ps := internal_properties b in
  weighted (reverse ps) ∧ NoDup (property_name <$> ps) ∧
  0 ≤ internal_baseProtocolId b ∧ internal_maxProtocolId b < 2 ^ 16 ∧
  internal_maxProtocolId b = internal_baseProtocolId b + states (reverse ps) - 1.

Lemma read_block_ok e defaults : entry_ok e → block_ok (read_block e defaults).
Proof.
  intros (H0 & Hmax & Hlast & _ & Hn & Hf).
  pose proof (combinations_pos _ _ Hf) as Hc. rewrite combinations_reverse in Hc.
  destruct (read_properties_ok (reverse (entry_properties e)) 1 []) as (Hw & Hs & Hnames);
    [lia|done|rewrite combinations_reverse; lia|done|done|].
  rewrite app_nil_r in Hw, Hs. rewrite combinations_reverse in Hs.
  change (1 - 1) with 0 in *.
  unfold block_ok, read_block, to_u16.
  cbn [internal_properties internal_baseProtocolId internal_maxProtocolId].
  rewrite !wrap_u_id by (unfold is_u; lia). rewrite Hs, Hnames. split_and!; [done| |lia..].
  rewrite fmap_reverse. by rewrite reverse_Permutation.
Qed.

Lemma initialize_ok file :
  Forall entry_ok file →
  Forall block_ok (GlobalPalette_initialize file) ∧
  (internal_name <$> GlobalPalette_initialize file) = (entry_name <$> file) ∧
  ∀ e, e ∈ file → ∃ b, b ∈ GlobalPalette_initialize file ∧
    internal_baseProtocolId b = entry_first_id e ∧ internal_maxProtocolId b = entry_last_id e.
Proof.
  induction 1 as [|e file He Hfile (IH1 & IH2 & IH3)].
  { split_and!; [constructor|done|]. intros e He. by apply not_elem_of_nil in He. }
  pose proof He as (H0 & Hmax & Hlast & [d Hd] & _ & Hf). cbn. rewrite Hd.
  pose proof (combinations_pos _ _ Hf) as Hc. rewrite combinations_reverse in Hc.
  split_and!; [constructor; [by apply read_block_ok|done]|cbn; by rewrite IH2|].
  intros e' He'. apply elem_of_cons in He' as [->|He'].
  - exists (read_block e d). split; [left|]. cbn. unfold to_u16.
    by rewrite !wrap_u_id by (unfold is_u; lia).
  - destruct (IH3 e' He') as (b & Hb & ?). exists b. split; [by right|done].
Qed.

(** A block decodes to a choice of values that its own table encodes back. *)
Lemma block_digits b id :
  block_ok b → internal_baseProtocolId b ≤ id ≤ internal_maxProtocolId b →
  ∃ given, take_digits (reverse (internal_properties b)) (id - internal_baseProtocolId b) = Ok given ∧
    length given = length (internal_properties b) ∧
    add_weights (internal_properties b) given (internal_baseProtocolId b) = id.
Proof.
  intros (Hw & Hn & H0 & Hmax & Hlast) Hid.
  destruct (digits_ok (internal_properties b) (reverse (internal_properties b))
    (id - internal_baseProtocolId b) (internal_baseProtocolId b)) as (given & H1 & H2 & H3);
    [done| |done|lia..|].
  { intros p Hp. by apply elem_of_reverse. }
  rewrite length_reverse in H2. exists given. split_and!; [done..|lia].
Qed.

Lemma decode_encode blocks all id :
  Forall block_ok blocks → NoDup (internal_name <$> all) → blocks ⊆ all →
  (∃ b, b ∈ blocks ∧ internal_baseProtocolId b ≤ id ≤ internal_maxProtocolId b) →
  ∃ block, fromProtocolIdToBlock blocks id = Ok block ∧ (fromBlockToProtocolId all block).1 = id.
Proof.
  intros Hok Hn Hsub (b0 & Hb0 & Hid). induction Hok as [|b blocks Hb Hok IH]; [by apply not_elem_of_nil in Hb0|].
  cbn [fromProtocolIdToBlock]. case_decide as Hr.
  { apply IH; [set_solver|]. apply elem_of_cons in Hb0 as [->|]; [lia|done]. }
  assert (find_by internal_name (internal_name b) all = Some b) as Hfind.
  { apply find_by_in; [done|]. apply Hsub. left. }
  case_decide as Hp.
  - eexists. split; [done|]. unfold fromBlockToProtocolId. cbn. rewrite Hfind, Hp. cbn.
    rewrite (decide_False (P := 0%nat ≠ 0%nat)), decide_True by tauto. cbn.
    destruct Hb as (_ & _ & _ & _ & Hlast). rewrite Hp in Hlast. cbn in Hlast. lia.
  - destruct (block_digits b id Hb) as (given & Hd & Hl & Ha); [lia|].
    rewrite Hd. cbn [mbind result_bind]. eexists. split; [done|].
    unfold fromBlockToProtocolId. cbn [block_name block_properties]. rewrite Hfind.
    rewrite (decide_False (P := length given ≠ _)) by lia. cbv zeta.
    rewrite decide_False; [exact Ha|]. intros [_ H2]. apply Hp. by apply nil_length_inv.
Qed.

(** ** Properties *)

(** C20: the global palette is a bijection on the states of its blocks as long as
    every weight fits in its eight bits: every identifier in the range of a block
    is decoded to a block, and that block is encoded to the identifier. *)
Theorem GlobalPalette_roundtrip (file : list BlockEntry) (e : BlockEntry) (id : Z) :
  Forall entry_ok file → NoDup (entry_name <$> file) → e ∈ file →
  entry_first_id e ≤ id ≤ entry_last_id e →
  ∃ block, fromProtocolIdToBlock (GlobalPalette_initialize file) id = Ok block ∧
    (fromBlockToProtocolId (GlobalPalette_initialize file) block).1 = id.
Proof.
  intros Hok Hn He Hid. destruct (initialize_ok file Hok) as (H1 & H2 & H3).
  destruct (H3 e He) as (b & Hb & Eb & Em).
  apply decode_encode; [done|by rewrite H2|done|]. exists b. split; [done|]. by rewrite Eb, Em.
Qed.

(** Three blocks: without properties, a log and a lever. *)
Definition file_example : list BlockEntry := [
  mk_BlockEntry "minecraft:air" [] 0 0 (Some []);
  mk_BlockEntry "minecraft:oak_log" [("axis", ["x"; "y"; "z"])] 1 3 (Some [("axis", "y")]);
  mk_BlockEntry "minecraft:lever"
    [("face", ["floor"; "wall"; "ceiling"]); ("facing", ["north"; "south"; "west"; "east"]);
     ("powered", ["true"; "false"])] 4 27 (Some [("face", "wall"); ("facing", "north"); ("powered", "false")])
]%string.

Lemma GlobalPalette_roundtrip_witness :
  ∃ e, Forall entry_ok file_example ∧ NoDup (entry_name <$> file_example) ∧ e ∈ file_example ∧
  entry_first_id e ≤ 17 ≤ entry_last_id e ∧
  ∃ block, fromProtocolIdToBlock (GlobalPalette_initialize file_example) 17 = Ok block ∧
    (fromBlockToProtocolId (GlobalPalette_initialize file_example) block).1 = 17.
Proof.
  assert (Forall entry_ok file_example) as H1.
  { repeat (constructor; [split_and!; [done|done|done|by eexists| |]|]); [..|constructor];
      try (by apply (bool_decide_eq_true_1 _)); cbn; split_and!; try done;
      by apply (bool_decide_eq_true_1 _). }
  assert (NoDup (entry_name <$> file_example)) as H2 by (by apply (bool_decide_eq_true_1 _)).
  assert (H3 : mk_BlockEntry "minecraft:lever"
    [("face", ["floor"; "wall"; "ceiling"]); ("facing", ["north"; "south"; "west"; "east"]);
     ("powered", ["true"; "false"])]%string 4 27
    (Some [("face", "wall"); ("facing", "north"); ("powered", "false")]%string) ∈ file_example)
    by (right; right; left).
  eexists. split; [exact H1|]. split; [exact H2|]. split; [exact H3|].
  assert (H4 : 4 ≤ 17 ≤ 27) by lia. split; [exact H4|].
  exact (GlobalPalette_roundtrip file_example _ 17 H1 H2 H3 H4).
Defined.

Definition redstone_wire : BlockEntry :=
  let side := ["up"; "side"; "none"] in
  let power := ["0"; "1"; "2"; "3"; "4"; "5"; "6"; "7"; "8"; "9"; "10"; "11"; "12"; "13"; "14"; "15"] in
  mk_BlockEntry "minecraft:redstone_wire"
    [("east", side); ("north", side); ("power", power); ("south", side); ("west", side)] 2978 4273
    (Some [("east", "none"); ("north", "none"); ("power", "0"); ("south", "none"); ("west", "none")])%string.

Definition survives (blocks : list InternalBlock) (id : Z) : bool :=
  match fromProtocolIdToBlock blocks id with
  | Ok block => bool_decide ((fromBlockToProtocolId blocks block).1 = id)
  | _ => false
  end.

(** A block with more than 255 states below its first property is numbered
    wrongly, because the weight is kept in eight bits: redstone wire has 1296
    states, its first property gets weight 176 in place of 432, and its default
    state gets the identifier of another. *)
Theorem GlobalPalette_redstone_wire :
  let palette := GlobalPalette_initialize [redstone_wire] in
  combinations (entry_properties redstone_wire) = entry_last_id redstone_wire - entry_first_id redstone_wire + 1 ∧
  fromBlockNameToProtocolId palette "minecraft:redstone_wire" = 3626 ∧
  2978 + 2 * 432 + 2 * 144 + 0 * 9 + 2 * 3 + 2 * 1 = 4138 ∧
  length (filter (survives palette) (seqZ 2978 1296)) = 528%nat.
Proof. by vm_compute. Qed.
