(* ===== verification/Network.v ===== *)
(** * Connections (EASEncryptionHandler.hpp, EASEncryptionHandler.cpp, Client::doWrite, Server::sendData)

    What the rest of the server sees of a client: whether it is running, the
    cipher of its stream, and the queue of buffers that the write thread sends.
    AES in CFB8 mode is a third-party library. *)

From S2P Require Import Prelude State.

(** ** The stream cipher *)

(** [mbedtls_aes_setkey_enc] and [mbedtls_aes_crypt_cfb8], which advances the
    initial vector it is given. *)
Class Cfb8 := {
  aes_key : Type;
  aes_setkey_enc : list Z → aes_key;
  cfb8_encrypt : aes_key → list Z → list Z → list Z * list Z;
  cfb8_decrypt : aes_key → list Z → list Z → list Z * list Z
}.

(** CFB8 is a stream mode: a text may be passed in parts, and decrypting with the
    same key and vector gives the text back. *)
Class Cfb8Laws `{Cfb8} : Prop := {
  cfb8_encrypt_app k iv a b :
    cfb8_encrypt k iv (a ++ b) =
      let '(a', iv') := cfb8_encrypt k iv a in
      let '(b', iv'') := cfb8_encrypt k iv' b in (a' ++ b', iv'');
  cfb8_encrypt_nil k iv : cfb8_encrypt k iv [] = ([], iv);
  cfb8_decrypt_encrypt k iv a :
    cfb8_decrypt k iv (cfb8_encrypt k iv a).1 = (a, (cfb8_encrypt k iv a).2)
}.

(** The bytes of a list of buffers that are for a client. *)
Definition bytes (id : Z) (l : list (Z * list Z)) : list Z := concat (snd <$> filter (λ e, e.1 = id) l).

Lemma bytes_app id l k : bytes id (l ++ k) = bytes id l ++ bytes id k.
Proof. unfold bytes. by rewrite list.filter_app, fmap_app, concat_app. Qed.
Lemma bytes_other id l : (∀ e, e ∈ l → e.1 ≠ id) → bytes id l = [].
Proof.
  induction l as [|e l IH]; intros Hl; [done|]. unfold bytes in *. rewrite filter_cons_False.
  - apply IH. set_solver.
  - apply Hl. set_solver.
Qed.
Lemma bytes_single id d : bytes id [d] = if decide (d.1 = id) then d.2 else [].
Proof. unfold bytes. rewrite filter_cons. case_decide; cbn; by rewrite ?app_nil_r. Qed.

Section Network.
Context `{Cfb8}.

(** [None] is the handler before [initialize]. *)
Record EAS : Type := mk_EAS {
  eas_context : aes_key;
  eas_initialVectorEncrypt : list Z;
  eas_initialVectorDecrypt : list Z
}.

(** [assert(!_isInitialized)] *)
Definition EAS_initialize (key initialVector : list Z) (h : option EAS) : result (option EAS) :=
  match h with
  | Some _ => UB FailedAssertion
  | None => Ok (Some (mk_EAS (aes_setkey_enc key) initialVector initialVector))
  end.

Definition EAS_encrypt (data : list Z) (h : option EAS) : result (list Z * option EAS) :=
  match h with
  | None => UB FailedAssertion
  | Some h =>
      let '(out, iv) := cfb8_encrypt (eas_context h) (eas_initialVectorEncrypt h) data in
      Ok (out, Some (mk_EAS (eas_context h) iv (eas_initialVectorDecrypt h)))
  end.

Definition EAS_decrypt (data : list Z) (h : option EAS) : result (list Z * option EAS) :=
  match h with
  | None => UB FailedAssertion
  | Some h =>
      let '(out, iv) := cfb8_decrypt (eas_context h) (eas_initialVectorDecrypt h) data in
      Ok (out, Some (mk_EAS (eas_context h) (eas_initialVectorEncrypt h) iv))
  end.

(** ** Connections and the queue *)

Record Connection : Type := mk_Connection {
  _isRunning : bool;
  _isEncrypted : bool;
  _encryption : option EAS
}.

Record Network : Type := mk_Network {
  _connections : gmap Z Connection;
  _toSend : list (Z * list Z)
}.

Definition set_connection (id : Z) (c : Connection) (n : Network) : Network :=
  mk_Network (<[id := c]> (_connections n)) (_toSend n).

Definition Server_sendData (clientID : Z) (data : list Z) : M Network unit :=
  modify (λ n, mk_Network (_connections n) (_toSend n ++ [(clientID, data)])).

Definition Client_doWrite (clientID : Z) (data : list Z) : M Network unit :=
  c ← gets (λ n, _connections n !! clientID);
  match c with
  | None => undefined_ NullDereference
  | Some c =>
      if _isEncrypted c then
        r ← lift (EAS_encrypt data (_encryption c));
        _ ← modify (set_connection clientID (mk_Connection (_isRunning c) (_isEncrypted c) r.2));
        Server_sendData clientID r.1
      else Server_sendData clientID data
  end.

Definition Client_stop (clientID : Z) : M Network unit :=
  modify (λ n, match _connections n !! clientID with
    | Some c => set_connection clientID (mk_Connection false (_isEncrypted c) (_encryption c)) n
    | None => n
    end).

(** [GET_CLIENT(); auto pck = create...; client->doWrite(std::move(pck));]: nothing
    happens when the client is gone. *)
Definition send (clientID : Z) (pck : result (list Z)) : M Network unit :=
  c ← gets (λ n, _connections n !! clientID);
  match c with
  | None => mret tt
  | Some _ => data ← lift pck; Client_doWrite clientID data
  end.

(** ** Writing *)

(** A client that can be written to. *)
Definition writable (clientID : Z) (n : Network) : Prop :=
  ∃ c, _connections n !! clientID = Some c ∧ (_isEncrypted c = true → is_Some (_encryption c)).

Lemma doWrite_plain clientID data n c :
  _connections n !! clientID = Some c → _isEncrypted c = false →
  Client_doWrite clientID data n =
    (Ok tt, mk_Network (_connections n) (_toSend n ++ [(clientID, data)])).
Proof.
  intros Hc He. unfold Client_doWrite, gets, mbind, M_bind. by rewrite Hc, He.
Qed.

Lemma doWrite_encrypted clientID data n c h :
  _connections n !! clientID = Some c → _isEncrypted c = true → _encryption c = Some h →
  let '(out, iv) := cfb8_encrypt (eas_context h) (eas_initialVectorEncrypt h) data in
  Client_doWrite clientID data n =
    (Ok tt, mk_Network
      (<[clientID := mk_Connection (_isRunning c) true
          (Some (mk_EAS (eas_context h) iv (eas_initialVectorDecrypt h)))]> (_connections n))
      (_toSend n ++ [(clientID, out)])).
Proof.
  intros Hc He Hh. unfold Client_doWrite, gets, lift, mbind, M_bind. rewrite Hc, He, Hh. cbn.
  by destruct (cfb8_encrypt _ _ _).
Qed.
End Network.

Section Writing.
Context `{Cfb8}.

(** A write to a client that can be written to succeeds, and leaves every client
    as writable as it was. *)
Definition no_less_writable (n n' : Network) : Prop := ∀ id, writable id n → writable id n'.

Lemma doWrite_ok clientID data n :
  writable clientID n →
  ∃ n', Client_doWrite clientID data n = (Ok tt, n') ∧ no_less_writable n n' ∧
    dom (_connections n') = dom (_connections n).
Proof.
  intros (c & Hc & Hw). destruct (_isEncrypted c) eqn:E.
  - destruct (Hw eq_refl) as [h Hh].
    pose proof (doWrite_encrypted clientID data n c h Hc E Hh) as Hd.
    destruct (cfb8_encrypt _ _ _) as [out iv]. eexists. split; [exact Hd|]. split.
    + intros id (c' & Hc' & Hw'). unfold writable. cbn [_connections].
      destruct (decide (id = clientID)) as [->|].
      * rewrite lookup_insert_eq. eexists. split; [done|]. cbn. by eexists.
      * rewrite lookup_insert_ne by done. by exists c'.
    + cbn. rewrite dom_insert_L. apply elem_of_dom_2 in Hc. set_solver.
  - rewrite (doWrite_plain _ _ _ c) by done. eexists. split; [done|]. split; [|done].
    intros id Hid. exact Hid.
Qed.

Lemma send_ok clientID bs n :
  writable clientID n →
  ∃ n', send clientID (Ok bs) n = (Ok tt, n') ∧ no_less_writable n n' ∧
    dom (_connections n') = dom (_connections n).
Proof.
  intros Hw. destruct (doWrite_ok clientID bs n Hw) as (n' & E & ?). exists n'. split; [|done].
  destruct Hw as (c & Hc & _). unfold send, gets, lift, mbind, M_bind. by rewrite Hc.
Qed.
End Writing.
