(* ===== verification/Types.v ===== *)
(** * Basic value types (types.hpp, types.cpp)

    [u128], the UUID as two 64-bit halves with its textual forms, and the
    block coordinates [Position] (three [int64_t]) and [Position2D] (two
    [int32_t]) with their arithmetic, where signed overflow and division by
    zero are undefined behaviour, and their component-wise comparisons. *)

From S2P Require Import Prelude.

(** ** u128 *)

Record u128 : Type := mk_u128 { most : Z; least : Z }.

#[export] Instance u128_eq_dec : EqDecision u128.
Proof. solve_decision. Defined.

Definition u128_wf (u : u128) : Prop := is_u 64 (most u) ∧ is_u 64 (least u).

(** One lower-case hexadecimal digit, as [std::hex] prints it. *)
Definition hex_digit (d : Z) : Z := if decide (d < 10) then 48 + d else 87 + d.

(** [std::setfill('0') << std::setw(16) << std::hex << v], as characters. *)
Fixpoint hex_fixed (n : nat) (v : Z) : list Z :=
  match n with
  | O => []
  | S m => hex_digit (Z.land (Z.shiftr v (4 * Z.of_nat m)) 15) :: hex_fixed m v
  end.

(** [uuidstr.insert(pos, "-")] at a position inside of the string. *)
Definition insert_dash (pos : nat) (s : list Z) : list Z :=
  take pos s ++ 45 :: drop pos s.

Definition u128_toString (u : u128) : list Z :=
  let uuidstr := hex_fixed 16 (most u) ++ hex_fixed 16 (least u) in
  insert_dash 23 (insert_dash 18 (insert_dash 13 (insert_dash 8 uuidstr))).

Definition u128_swapEndianness (u : u128) : u128 :=
  let swap v :=
    Z.lor (Z.shiftr (Z.land v 0xffffffff00000000) 32)
          (to_u64 (Z.shiftl (Z.land v 0x00000000ffffffff) 32)) in
  mk_u128 (swap (most u)) (swap (least u)).

(** [std::stoull(s, 0, 16)]: white space, a sign, an optional [0x], then as
    many digits as there are; the value is reduced when the sign is a minus. *)
Definition hex_value (c : Z) : option Z :=
  if decide (48 ≤ c ≤ 57) then Some (c - 48)
  else if decide (97 ≤ c ≤ 102) then Some (c - 87)
  else if decide (65 ≤ c ≤ 70) then Some (c - 55)
  else None.

Definition is_space (c : Z) : bool := bool_decide (c = 32 ∨ 9 ≤ c ≤ 13).

Fixpoint skip_spaces (s : list Z) : list Z :=
  match s with
  | c :: s' => if is_space c then skip_spaces s' else s
  | [] => []
  end.

Fixpoint read_hex (acc : Z) (s : list Z) : Z :=
  match s with
  | c :: s' => match hex_value c with Some d => read_hex (acc * 16 + d) s' | None => acc end
  | [] => acc
  end.

Definition skip_0x (s : list Z) : list Z :=
  match s with
  | 48 :: x :: c :: s' =>
      if bool_decide (x = 120 ∨ x = 88) then
        match hex_value c with Some _ => c :: s' | None => s end
      else s
  | _ => s
  end.

Definition stoull16 (s : list Z) : result Z :=
  let s := skip_spaces s in
  let '(neg, s) := match s with
                   | 43 :: s' => (false, s')
                   | 45 :: s' => (true, s')
                   | _ => (false, s)
                   end in
  match skip_0x s with
  | (c :: _) as digits =>
      match hex_value c with
      | None => Throw std_logic_error
      | Some _ =>
          let v := read_hex 0 digits in
          if decide (v < 2 ^ 64) then Ok (if (neg : bool) then to_u64 (- v) else v)
          else Throw std_out_of_range
      end
  | [] => Throw std_logic_error
  end.

Definition u128_fromShortString (str : list Z) : result u128 :=
  if decide (zlen str < 16) then UB InvalidRange
  else
    first ← stoull16 (take 16 str);
    second ← stoull16 (drop 16 str);
    Ok (mk_u128 first second).

(** ** Position *)

Record Position : Type := mk_Position { px : Z; py : Z; pz : Z }.

#[export] Instance Position_eq_dec : EqDecision Position.
Proof. solve_decision. Defined.

Definition Position_wf (p : Position) : Prop :=
  is_s 64 (px p) ∧ is_s 64 (py p) ∧ is_s 64 (pz p).

(** Lifts a checked scalar operation to the three components, in order. *)
Definition Position_map2 (f : Z → Z → result Z) (a b : Position) : result Position :=
  x ← f (px a) (px b); y ← f (py a) (py b); z ← f (pz a) (pz b);
  Ok (mk_Position x y z).

Definition Position_splat (i : Z) : Position := mk_Position i i i.

Definition Position_mul (p o : Position) := Position_map2 (λ a b, chk_i64 (a * b)) p o.
Definition Position_mul_scalar p i := Position_mul p (Position_splat i).
Definition Position_div (p o : Position) := Position_map2 (quot_by chk_i64) p o.
Definition Position_div_scalar p i := Position_div p (Position_splat i).
Definition Position_rem (p o : Position) := Position_map2 (rem_by chk_i64) p o.
Definition Position_rem_scalar p i := Position_rem p (Position_splat i).
Definition Position_add (p o : Position) := Position_map2 (λ a b, chk_i64 (a + b)) p o.
Definition Position_add_scalar p i := Position_add p (Position_splat i).
Definition Position_sub (p o : Position) := Position_map2 (λ a b, chk_i64 (a - b)) p o.
Definition Position_sub_scalar p i := Position_sub p (Position_splat i).

(** The comparisons with a scalar hold when they hold of every component. *)
Definition Position_gt (p : Position) (i : Z) : bool :=
  bool_decide (i < px p) && bool_decide (i < py p) && bool_decide (i < pz p).
Definition Position_lt (p : Position) (i : Z) : bool :=
  bool_decide (px p < i) && bool_decide (py p < i) && bool_decide (pz p < i).
Definition Position_ge (p : Position) (i : Z) : bool :=
  bool_decide (i ≤ px p) && bool_decide (i ≤ py p) && bool_decide (i ≤ pz p).
Definition Position_le (p : Position) (i : Z) : bool :=
  bool_decide (px p ≤ i) && bool_decide (py p ≤ i) && bool_decide (pz p ≤ i).

(** [operator<=>], defaulted: lexicographic in the order of the members. *)
Definition lex (c d : comparison) : comparison := match c with Eq => d | _ => c end.
Definition Position_compare (a b : Position) : comparison :=
  lex (px a ?= px b) (lex (py a ?= py b) (pz a ?= pz b)).

(** ** Position2D *)

Record Position2D : Type := mk_Position2D { p2x : Z; p2z : Z }.

#[export] Instance Position2D_eq_dec : EqDecision Position2D.
Proof. solve_decision. Defined.
#[export] Instance Position2D_countable : Countable Position2D.
Proof.
  refine (inj_countable' (λ p, (p2x p, p2z p)) (λ p, mk_Position2D p.1 p.2) _).
  by intros [].
Defined.

Definition Position2D_wf (p : Position2D) : Prop := is_s 32 (p2x p) ∧ is_s 32 (p2z p).

Definition Position2D_map2 (f : Z → Z → result Z) (a b : Position2D) : result Position2D :=
  x ← f (p2x a) (p2x b); z ← f (p2z a) (p2z b); Ok (mk_Position2D x z).
Definition Position2D_splat (i : Z) : Position2D := mk_Position2D i i.

Definition Position2D_mul (p o : Position2D) := Position2D_map2 (λ a b, chk_i32 (a * b)) p o.
Definition Position2D_mul_scalar p i := Position2D_mul p (Position2D_splat i).
Definition Position2D_div (p o : Position2D) := Position2D_map2 (quot_by chk_i32) p o.
Definition Position2D_div_scalar p i := Position2D_div p (Position2D_splat i).
Definition Position2D_rem (p o : Position2D) := Position2D_map2 (rem_by chk_i32) p o.
Definition Position2D_rem_scalar p i := Position2D_rem p (Position2D_splat i).
Definition Position2D_add (p o : Position2D) := Position2D_map2 (λ a b, chk_i32 (a + b)) p o.
Definition Position2D_add_scalar p i := Position2D_add p (Position2D_splat i).
Definition Position2D_sub (p o : Position2D) := Position2D_map2 (λ a b, chk_i32 (a - b)) p o.
Definition Position2D_sub_scalar p i := Position2D_sub p (Position2D_splat i).

Definition Position2D_gt (p : Position2D) (i : Z) : bool :=
  bool_decide (i < p2x p) && bool_decide (i < p2z p).
Definition Position2D_lt (p : Position2D) (i : Z) : bool :=
  bool_decide (p2x p < i) && bool_decide (p2z p < i).
Definition Position2D_ge (p : Position2D) (i : Z) : bool :=
  bool_decide (i ≤ p2x p) && bool_decide (i ≤ p2z p).
Definition Position2D_le (p : Position2D) (i : Z) : bool :=
  bool_decide (p2x p ≤ i) && bool_decide (p2z p ≤ i).

Definition Position2D_compare (a b : Position2D) : comparison :=
  lex (p2x a ?= p2x b) (p2z a ?= p2z b).

(** [std::hash<Position2D>], over the hash of [int32_t] the library provides. *)
Definition Position2D_hash (hash_i32 : Z → Z) (p : Position2D) : Z :=
  let h1 := to_u64 (hash_i32 (p2x p)) in
  let h2 := to_u64 (hash_i32 (p2z p)) in
  Z.lxor h1 (to_u64 (Z.shiftl h2 1)).
