(* ===== verification/Codec.v ===== *)
(** * Readers and writers

    The shape of every (de)serialisation function of the server.  A [pop]
    function takes a cursor [at] and the address [eof] of the {e last} byte,
    reads the buffer through the cursor and advances it; an [add] function
    appends to an output vector.  The interface classes state what a component
    promises to the code that composes it: [Emits w bs], the writer appends
    exactly [bs]; [Reads p bs a], the reader consumes exactly [bs] and returns
    [a]; [Safe p], the reader stays inside of the buffer. *)

From S2P Require Import Prelude.

(** ** Writers *)

Abbreviation writer := (list Z → result (list Z)).

Definition push_back (b : Z) : writer := λ out, Ok (out ++ [to_u8 b]).

(** [serialize(out, d1, add1, d2, add2, ...)] *)
Fixpoint serialize (ws : list writer) : writer := λ out,
  match ws with
  | [] => Ok out
  | w :: ws' => out' ← w out; serialize ws' out'
  end.

(** A writer that is called under a condition. *)
Definition when (b : bool) (w : writer) : writer := if b then w else serialize [].

#[global] Typeclasses Opaque push_back serialize.

Class Emits (w : writer) (bs : list Z) : Prop := emits : ∀ out, w out = Ok (out ++ bs).
#[export] Hint Mode Emits ! - : typeclass_instances.

#[export] Instance emits_push_back b : Emits (push_back b) [to_u8 b].
Proof. done. Qed.
#[export] Instance emits_serialize_nil : Emits (serialize []) [].
Proof. intros out. cbn. by rewrite app_nil_r. Qed.
#[export] Instance emits_serialize_cons w ws bs bs' :
  Emits w bs → Emits (serialize ws) bs' → Emits (serialize (w :: ws)) (bs ++ bs').
Proof. intros Hw Hws out. cbn. rewrite Hw. cbn. by rewrite Hws, app_assoc. Qed.

#[export] Instance emits_bind (w w' : writer) bs bs' :
  Emits w bs → Emits w' bs' → Emits (λ out, out' ← w out; w' out') (bs ++ bs').
Proof. intros Hw Hw' out. rewrite Hw. cbn. by rewrite Hw', app_assoc. Qed.
#[export] Instance emits_done : Emits (λ out, Ok out) [].
Proof. intros out. by rewrite app_nil_r. Qed.
Lemma emits_when (b : bool) (w : writer) bs :
  (b = true → Emits w bs) →
  Emits (λ out, if b then w out else Ok out) (if b then bs else []).
Proof. destruct b; intros H; [by apply H|apply emits_done]. Qed.

Lemma emits_nil (w : writer) bs : Emits w bs → w [] = Ok bs.
Proof. intros H. by rewrite H. Qed.

Lemma emits_functional w bs bs' : Emits w bs → Emits w bs' → bs = bs'.
Proof.
  intros H H'. apply emits_nil in H. apply emits_nil in H'. congruence.
Qed.

Lemma emits_eq w bs bs' : Emits w bs → bs = bs' → Emits w bs'.
Proof. by intros ? <-. Qed.

(** A writer that only ever appends: whatever it did before it failed, the
    prefix of the vector is kept. *)
Definition appends (w : writer) : Prop := ∀ out out', w out = Ok out' → out `prefix_of` out'.

Lemma emits_appends w bs : Emits w bs → appends w.
Proof. intros H out out' E. rewrite H in E. simplify_eq. by eexists. Qed.

(** ** Readers *)

Definition reader (A : Type) : Type := list Z → Z → Z → result (A * Z).

#[export] Instance reader_ret : MRet reader := λ A a buf eof at_, Ok (a, at_).
#[export] Instance reader_bind : MBind reader := λ A B f p buf eof at_,
  r ← p buf eof at_; f r.1 buf eof r.2.

Definition throw {A} (e : exn) : reader A := λ _ _ _, Throw e.
Definition undefined {A} (k : ub) : reader A := λ _ _ _, UB k.
Definition out_of_fuel {A} : reader A := λ _ _ _, OutOfFuel.

(** [eof - at] *)
Definition distance_to_eof : reader Z := λ _ eof at_, Ok (eof - at_, at_).
(** [*at++] *)
Definition next : reader Z := λ buf _ at_, b ← peek buf at_; Ok (b, at_ + 1).
(** [n] bytes at the cursor, which advances past them. *)
Definition next_n (n : nat) : reader (list Z) :=
  λ buf _ at_, bs ← peek_range buf at_ n; Ok (bs, at_ + Z.of_nat n).
(** A value that needs nothing more of the buffer. *)
Definition computed {A} (r : result A) : reader A := λ _ _ at_, a ← r; Ok (a, at_).

(** ** What a reader promises on well-formed input *)

Class Reads {A} (p : reader A) (bs : list Z) (a : A) : Prop :=
  reads : ∀ pre post eof, zlen (pre ++ bs) - 1 ≤ eof →
    p (pre ++ bs ++ post) eof (zlen pre) = Ok (a, zlen (pre ++ bs)).

Section Reads.
Context {A B : Type}.

Lemma reads_ret (a : A) : Reads (mret a) [] a.
Proof. intros pre post eof _. cbn. by rewrite app_nil_r. Qed.

Lemma reads_bind (p : reader A) (f : A → reader B) bs bs' a b :
  Reads p bs a → Reads (f a) bs' b → Reads (p ≫= f) (bs ++ bs') b.
Proof.
  intros Hp Hf pre post eof Heof. unfold mbind, reader_bind.
  rewrite <- app_assoc. rewrite Hp by zlia. cbn.
  specialize (Hf (pre ++ bs) post eof).
  rewrite <- !app_assoc in Hf.
  rewrite Hf; [done|zlia].
Qed.

Lemma reads_distance (f : Z → reader A) bs a :
  (∀ d, zlen bs - 1 ≤ d → Reads (f d) bs a) → Reads (distance_to_eof ≫= f) bs a.
Proof.
  intros H pre post eof Heof. unfold mbind, reader_bind. cbn.
  apply H; zlia.
Qed.

Lemma reads_eq (p : reader A) bs bs' a a' :
  Reads p bs a → bs = bs' → a = a' → Reads p bs' a'.
Proof. by intros ? <- <-. Qed.
End Reads.

Lemma reads_next b : Reads next [b] b.
Proof.
  intros pre post eof _. unfold next. cbn [app]. rewrite peek_app. cbn.
  f_equal. f_equal. zlia.
Qed.

Lemma reads_next_n n bs : length bs = n → Reads (next_n n) bs bs.
Proof.
  intros <- pre post eof _. unfold next_n. rewrite peek_range_app. cbn.
  f_equal. f_equal. zlia.
Qed.

(** Reading a whole buffer, as every packet parser does. *)
Definition run_reader {A} (p : reader A) (buf : list Z) : result A :=
  fst <$> p buf (zlen buf - 1) 0.

Lemma run_reader_reads {A} (p : reader A) bs post a :
  Reads p bs a → run_reader p (bs ++ post) = Ok a.
Proof.
  intros H. unfold run_reader.
  pose proof (H [] post (zlen (bs ++ post) - 1)) as E. cbn [app] in E.
  change (zlen []) with 0 in E. rewrite E; [done|zlia].
Qed.

Lemma run_reader_bind {A B} (p : reader A) (f : A → reader B) bs post a :
  Reads p bs a →
  run_reader (p ≫= f) (bs ++ post) =
    fst <$> f a (bs ++ post) (zlen (bs ++ post) - 1) (zlen bs).
Proof.
  intros H. unfold run_reader, mbind, reader_bind.
  pose proof (H [] post (zlen (bs ++ post) - 1)) as E. cbn [app] in E.
  change (zlen []) with 0 in E. rewrite E; [done|zlia].
Qed.

(** ** What a reader promises on every input

    [Safe p]: with the cursor inside of the buffer (or just past it) and [eof]
    no further than the last byte, the reader terminates without reading out of
    bounds and leaves the cursor in the same range, no earlier than it was, or
    throws an exception that derives from [std::runtime_error].  The one
    undefined behaviour left is an inverted range. *)

Definition in_bounds {A} (buf : list Z) (at_ : Z) (r : result (A * Z)) : Prop :=
  match r with
  | Ok (_, at') => at_ ≤ at' ≤ zlen buf
  | Throw e => is_runtime_error e = true
  | UB k => k = InvalidRange
  | OutOfFuel => False
  end.

Class Safe {A} (p : reader A) : Prop :=
  safe : ∀ buf eof at_, 0 ≤ at_ ≤ zlen buf → eof ≤ zlen buf - 1 →
    in_bounds buf at_ (p buf eof at_).

Section Safe.
Context {A B : Type}.

#[export] Instance safe_ret (a : A) : Safe (mret a).
Proof. intros buf eof at_ H _. cbn. lia. Qed.

#[export] Instance safe_throw e : TCEq (is_runtime_error e) true → Safe (@throw A e).
Proof. intros He buf eof at_ _ _. cbn. by apply TCEq_eq. Qed.

#[export] Instance safe_bind (p : reader A) (f : A → reader B) :
  Safe p → (∀ a, Safe (f a)) → Safe (p ≫= f).
Proof.
  intros Hp Hf buf eof at_ Hat Heof. unfold mbind, reader_bind.
  specialize (Hp buf eof at_ Hat Heof).
  destruct (p buf eof at_) as [[a at']| | |]; cbn in *; [|done..].
  specialize (Hf a buf eof at' ltac:(lia) Heof).
  destruct (f a buf eof at') as [[b at'']| | |]; cbn in *; [lia|done..].
Qed.

(** The guards of the source test [eof - at] before they read. *)
Lemma safe_distance (f : Z → reader A) :
  (∀ buf eof at_, 0 ≤ at_ ≤ zlen buf → eof ≤ zlen buf - 1 →
     in_bounds buf at_ (f (eof - at_) buf eof at_)) →
  Safe (distance_to_eof ≫= f).
Proof. intros H buf eof at_ Hat Heof. by apply H. Qed.

#[export] Instance safe_if (b : bool) (p q : reader A) :
  Safe p → Safe q → Safe (if b then p else q).
Proof. by destruct b. Qed.

#[export] Instance safe_decide P `{Decision P} (p q : reader A) :
  Safe p → Safe q → Safe (if decide P then p else q).
Proof. by case_decide. Qed.
End Safe.

Lemma in_bounds_next {A} (f : Z → reader A) buf eof at_ :
  0 ≤ at_ < zlen buf →
  (∀ b, in_bounds buf (at_ + 1) (f b buf eof (at_ + 1))) →
  in_bounds buf at_ ((next ≫= f) buf eof at_).
Proof.
  intros H Hf. unfold mbind, reader_bind, next.
  destruct (peek_inside buf at_) as (b & Hb & _); [lia|]. rewrite Hb. cbn.
  specialize (Hf b). destruct (f b buf eof (at_ + 1)) as [[]| | |]; cbn in *; lia || done.
Qed.

Lemma in_bounds_next_n {A} (f : list Z → reader A) n buf eof at_ :
  0 ≤ at_ → at_ + Z.of_nat n ≤ zlen buf →
  (∀ bs, length bs = n → in_bounds buf (at_ + Z.of_nat n) (f bs buf eof (at_ + Z.of_nat n))) →
  in_bounds buf at_ ((next_n n ≫= f) buf eof at_).
Proof.
  intros H0 Hn Hf. unfold mbind, reader_bind, next_n.
  destruct (peek_range_inside buf at_ n) as (bs & Hbs & Hl); [lia..|].
  rewrite Hbs. cbn. specialize (Hf bs Hl).
  destruct (f bs buf eof (at_ + Z.of_nat n)) as [[]| | |]; cbn in *; lia || done.
Qed.

Lemma in_bounds_ret {A} (a : A) buf eof at_ :
  at_ ≤ zlen buf → in_bounds buf at_ ((mret a : reader A) buf eof at_).
Proof. cbn. lia. Qed.

(** ** Weakest preconditions

    [wp E U p buf eof at Q]: from the cursor [at], [p] terminates in a value and
    a cursor that satisfy [Q], in an exception of [E], or in an undefined
    behaviour of [U]. *)

Section wp.
Context (E : exn → Prop) (U : ub → Prop) (buf : list Z) (eof : Z).

Definition wp_result {A} (r : result A) (Q : A → Prop) : Prop :=
  match r with
  | Ok a => Q a
  | Throw e => E e
  | UB k => U k
  | OutOfFuel => False
  end.

Definition wp {A} (p : reader A) (at_ : Z) (Q : A → Z → Prop) : Prop :=
  wp_result (p buf eof at_) (λ r, Q r.1 r.2).

Lemma wp_mono {A} (p : reader A) at_ (Q Q' : A → Z → Prop) :
  wp p at_ Q → (∀ a at', Q a at' → Q' a at') → wp p at_ Q'.
Proof. unfold wp. destruct (p buf eof at_) as [[]| | |]; cbn; auto. Qed.

Lemma wp_ret {A} (a : A) at_ (Q : A → Z → Prop) : Q a at_ → wp (mret a) at_ Q.
Proof. done. Qed.

Lemma wp_bind {A B} (p : reader A) (f : A → reader B) at_ Q :
  wp p at_ (λ a at', wp (f a) at' Q) → wp (p ≫= f) at_ Q.
Proof.
  unfold wp, mbind, reader_bind. by destruct (p buf eof at_) as [[]| | |].
Qed.

Lemma wp_distance at_ (Q : Z → Z → Prop) : Q (eof - at_) at_ → wp distance_to_eof at_ Q.
Proof. done. Qed.

Lemma wp_next at_ (Q : Z → Z → Prop) :
  0 ≤ at_ < zlen buf → (∀ b, Q b (at_ + 1)) → wp next at_ Q.
Proof.
  intros H HQ. unfold wp, next. destruct (peek_inside buf at_ H) as (b & -> & _). cbn. done.
Qed.
End wp.
