(* ===== verification/Structures.v ===== *)
(** * Item slots (protocol/Structures.hpp)

    [Slot] is one stack of items.  Its two [swap] methods work on a pair of
    references, which may be the same object (clicking on the cursor itself),
    so they are modelled over a store of slots and two locations.  The store
    is an interface: [SlotStore], with the laws the theorems need. *)

From S2P Require Import Prelude.

Record Slot : Type := mk_Slot { present : bool; itemID : Z; itemCount : Z }.

#[export] Instance Slot_eq_dec : EqDecision Slot.
Proof. solve_decision. Defined.

Definition Slot_default : Slot := mk_Slot false 0 0.

Definition Slot_wf (s : Slot) : Prop := is_s 32 (itemID s) ∧ is_s 8 (itemCount s).

(** [operator==] ignores the count. *)
Definition Slot_eqb (lhs rhs : Slot) : bool :=
  bool_decide (present lhs = present rhs) && bool_decide (itemID lhs = itemID rhs).

Definition Slot_reset (s : Slot) : Slot := mk_Slot false 0 0.

Definition with_count (s : Slot) (n : Z) : Slot := mk_Slot (present s) (itemID s) (to_i8 n).

(** ** Stores of slots *)

Class SlotStore (L S : Type) := {
  slot_get : L → S → Slot;
  slot_put : L → Slot → S → S;
}.

Class SlotStoreLaws (L S : Type) `{SlotStore L S} (valid : L → S → Prop) : Prop := {
  get_put_eq : ∀ l s st, valid l st → slot_get l (slot_put l s st) = s;
  get_put_ne : ∀ l k s st, l ≠ k → slot_get k (slot_put l s st) = slot_get k st;
  valid_put : ∀ l k s st, valid k (slot_put l s st) ↔ valid k st;
}.

Section Swap.
Context {L S : Type} `{SlotStore L S}.

(** [loc.itemCount = n] *)
Definition put_count (l : L) (n : Z) (st : S) : S :=
  slot_put l (with_count (slot_get l st) n) st.

(** [std::swap] of the two objects. *)
Definition std_swap (this other : L) (st : S) : S :=
  let tmp := slot_get this st in
  let st1 := slot_put this (slot_get other st) st in
  slot_put other tmp st1.

Definition Slot_swap (this other : L) (st : S) : S :=
  let a := slot_get this st in
  let b := slot_get other st in
  if bool_decide (itemID a = itemID b) && bool_decide (itemID a ≠ 0) then
    let rest := itemCount a + itemCount b - 64 in
    if bool_decide (0 < rest) then
      put_count other rest (put_count this 64 st)
    else
      let st1 := put_count this (itemCount a + itemCount b) st in
      slot_put other (Slot_reset (slot_get other st1)) st1
  else std_swap this other st.

Definition Slot_swap_n (this other : L) (x : Z) (st : S) : S :=
  let a := slot_get this st in
  let b := slot_get other st in
  if present a && present b && bool_decide (itemID a ≠ itemID b) then
    Slot_swap this other st
  else if bool_decide (itemCount a ≤ x) then Slot_swap this other st
  else
    let st1 := slot_put other (mk_Slot true (itemID b) (itemCount b)) st in
    let st2 := slot_put other
                 (mk_Slot (present (slot_get other st1)) (itemID (slot_get this st1))
                          (itemCount (slot_get other st1))) st1 in
    let st3 := put_count this (itemCount (slot_get this st2) - x) st2 in
    let st4 := put_count other (itemCount (slot_get other st3) + x) st3 in
    if bool_decide (64 < itemCount (slot_get other st4)) then
      let st5 := put_count this
                   (itemCount (slot_get this st4) + (itemCount (slot_get other st4) - 64)) st4 in
      put_count other 64 st5
    else st4.
End Swap.

(** ** Conservation of items

    The number of items of kind [id] in a slot, and what the swaps do to the
    two slots they work on. *)

Definition items_in (id : Z) (s : Slot) : Z := if decide (itemID s = id) then itemCount s else 0.

(** A stack as the game has it: empty and zeroed, or one item kind with a
    count from 1 to 64. *)
Definition Slot_sound (s : Slot) : Prop :=
  s = Slot_default ∨ (present s = true ∧ itemID s ≠ 0 ∧ 1 ≤ itemCount s ≤ 64).

Lemma to_i8_small n : -128 ≤ n ≤ 127 → to_i8 n = n.
Proof. intros. apply wrap_s_id; [lia|]. unfold is_s. lia. Qed.

Lemma with_count_id s n : itemID (with_count s n) = itemID s.
Proof. done. Qed.

Lemma Slot_sound_count s : Slot_sound s → 0 ≤ itemCount s ≤ 64.
Proof. unfold Slot_sound, Slot_default. intros [->|(_ & _ & ?)]; cbn; lia. Qed.

Lemma Slot_sound_absent s : Slot_sound s → present s = false → s = Slot_default.
Proof. intros [->|(? & _)]; [done|congruence]. Qed.

Section SwapProps.
Context {L S : Type} `{SlotStoreLaws L S valid}.

Ltac store :=
  unfold put_count, std_swap, Slot_reset in *;
  repeat first [ rewrite get_put_eq by (rewrite ?valid_put; done)
               | rewrite get_put_ne by congruence ].

Lemma put_put_get this other a b st :
  this ≠ other → valid this st → valid other st →
  slot_get this (slot_put other b (slot_put this a st)) = a ∧
  slot_get other (slot_put other b (slot_put this a st)) = b.
Proof. intros. split; by store. Qed.

(** The result of [Slot_swap] on two different slots. *)
Lemma Slot_swap_get this other st :
  this ≠ other → valid this st → valid other st →
  let a := slot_get this st in
  let b := slot_get other st in
  let st' := Slot_swap this other st in
  (slot_get this st', slot_get other st') =
    if bool_decide (itemID a = itemID b) && bool_decide (itemID a ≠ 0) then
      if bool_decide (0 < itemCount a + itemCount b - 64)
      then (with_count a 64, with_count b (itemCount a + itemCount b - 64))
      else (with_count a (itemCount a + itemCount b), Slot_default)
    else (b, a).
Proof.
  intros Hne Ht Ho. cbn zeta. unfold Slot_swap.
  assert (other ≠ this) by done.
  case_match; [case_match|]; store; done.
Qed.

Lemma Slot_swap_frame this other l st :
  l ≠ this → l ≠ other → slot_get l (Slot_swap this other st) = slot_get l st.
Proof.
  intros. unfold Slot_swap, put_count, std_swap.
  case_match; [case_match|]; by rewrite !get_put_ne.
Qed.

Lemma Slot_swap_valid this other l st :
  valid l (Slot_swap this other st) ↔ valid l st.
Proof.
  unfold Slot_swap, put_count, std_swap.
  case_match; [case_match|]; by rewrite !valid_put.
Qed.

Lemma Slot_swap_sound_conserves this other st :
  this ≠ other → valid this st → valid other st →
  Slot_sound (slot_get this st) → Slot_sound (slot_get other st) →
  let st' := Slot_swap this other st in
  Slot_sound (slot_get this st') ∧ Slot_sound (slot_get other st') ∧
  ∀ id, items_in id (slot_get this st') + items_in id (slot_get other st') =
        items_in id (slot_get this st) + items_in id (slot_get other st).
Proof.
  intros Hne Ht Ho Sa Sb. cbn zeta.
  pose proof (Slot_swap_get this other st Hne Ht Ho) as E. cbn zeta in E.
  set (a := slot_get this st) in *. set (b := slot_get other st) in *.
  pose proof (Slot_sound_count _ Sa). pose proof (Slot_sound_count _ Sb).
  destruct (bool_decide_reflect (itemID a = itemID b)) as [Eid|];
    [destruct (bool_decide_reflect (itemID a ≠ 0)) as [Hnz|]|]; cbn in E.
  - destruct Sa as [Sa|(Pa & _ & Ca)]; [by rewrite Sa in Hnz|].
    destruct Sb as [Sb|(Pb & _ & Cb)]; [by rewrite Eid, Sb in Hnz|].
    destruct (bool_decide_reflect (0 < itemCount a + itemCount b - 64));
      injection E as -> ->; unfold Slot_sound, items_in, with_count; cbn;
      rewrite ?to_i8_small by lia; rewrite <- Eid; split_and!.
    + right. auto with lia.
    + right. rewrite Eid in Hnz. auto with lia.
    + intros id. case_decide; lia.
    + right. auto with lia.
    + by left.
    + intros id. case_decide; [subst id; rewrite decide_False by congruence|];
        [lia|by case_decide].
  - injection E as -> ->. split_and!; [done..|]. intros. lia.
  - injection E as -> ->. split_and!; [done..|]. intros. lia.
Qed.

(** The result of the last branch of [Slot_swap_n]: [x] items move from one slot to
    the other, and what does not fit in 64 comes back. *)
Lemma Slot_swap_n_get this other x st :
  this ≠ other → valid this st → valid other st →
  let a := slot_get this st in
  let b := slot_get other st in
  let st' := Slot_swap_n this other x st in
  present a && present b && bool_decide (itemID a ≠ itemID b) = false → x < itemCount a →
  0 ≤ x → itemCount a ≤ 64 → 0 ≤ itemCount b ≤ 64 →
  (slot_get this st', slot_get other st') =
    if bool_decide (64 < itemCount b + x)
    then (mk_Slot (present a) (itemID a) (itemCount a - x + (itemCount b + x - 64)),
          mk_Slot true (itemID a) 64)
    else (mk_Slot (present a) (itemID a) (itemCount a - x),
          mk_Slot true (itemID a) (itemCount b + x)).
Proof.
  intros Hne Ht Ho. cbn zeta. intros Hd Hx Hx0 Ha Hb. assert (other ≠ this) by done.
  unfold Slot_swap_n. rewrite Hd, bool_decide_false by lia. cbn zeta. store.
  cbn [with_count itemCount itemID present]. rewrite !(to_i8_small (itemCount _ + _)) by lia.
  rewrite (to_i8_small (itemCount _ - _)) by lia.
  destruct (bool_decide_reflect (64 < itemCount (slot_get other st) + x)); store.
  all: unfold with_count; cbn [itemCount itemID present]; by rewrite !to_i8_small by lia.
Qed.

Lemma Slot_swap_n_frame this other x l st :
  l ≠ this → l ≠ other → slot_get l (Slot_swap_n this other x st) = slot_get l st.
Proof.
  intros. unfold Slot_swap_n, put_count.
  repeat case_match; rewrite ?Slot_swap_frame by done; by rewrite ?get_put_ne by done.
Qed.

Lemma Slot_swap_n_valid this other x l st :
  valid l (Slot_swap_n this other x st) ↔ valid l st.
Proof.
  unfold Slot_swap_n, put_count. repeat case_match; rewrite ?Slot_swap_valid; by rewrite ?valid_put.
Qed.

(** Moving nothing to an empty slot is the one case that does not leave stacks. *)
Lemma Slot_swap_n_sound_conserves this other x st :
  this ≠ other → valid this st → valid other st →
  Slot_sound (slot_get this st) → Slot_sound (slot_get other st) → 0 ≤ x →
  (x = 0 → present (slot_get this st) = false ∨ present (slot_get other st) = true) →
  let st' := Slot_swap_n this other x st in
  Slot_sound (slot_get this st') ∧ Slot_sound (slot_get other st') ∧
  ∀ id, items_in id (slot_get this st') + items_in id (slot_get other st') =
        items_in id (slot_get this st) + items_in id (slot_get other st).
Proof.
  intros Hne Ht Ho Sa Sb Hx0 Hx. cbn zeta.
  pose proof (Slot_swap_sound_conserves this other st Hne Ht Ho Sa Sb) as Hs.
  pose proof (Slot_swap_n_get this other x st Hne Ht Ho) as E. cbn zeta in Hs, E.
  pose proof (Slot_sound_count _ Sa). pose proof (Slot_sound_count _ Sb).
  destruct (present (slot_get this st) && present (slot_get other st) &&
    bool_decide (itemID (slot_get this st) ≠ itemID (slot_get other st))) eqn:Hd;
    [unfold Slot_swap_n; by rewrite Hd|].
  destruct (decide (itemCount (slot_get this st) ≤ x)).
  { unfold Slot_swap_n. rewrite Hd, bool_decide_true by lia. done. }
  specialize (E eq_refl ltac:(lia) Hx0 ltac:(lia) ltac:(lia)).
  set (a := slot_get this st) in *. set (b := slot_get other st) in *.
  destruct Sa as [Sa|(Pa & Ia & Ca)]; [rewrite Sa in *; cbn in *; lia|].
  assert (∀ id, items_in id b = if decide (itemID a = id) then itemCount b else 0) as Hb.
  { intros id. unfold items_in. destruct Sb as [->|(Pb & Ib & Cb)]; [by repeat case_decide|].
    rewrite Pa, Pb in Hd. cbn in Hd. apply bool_decide_eq_false in Hd.
    destruct (decide (itemID a = itemID b)) as [->|]; [done|tauto]. }
  assert (1 ≤ itemCount b + x) as Hpos.
  { destruct (decide (x = 0)) as [->|]; [|lia].
    destruct (Hx eq_refl) as [|Pb]; [congruence|].
    destruct Sb as [Sb|(_ & _ & Cb)]; [by rewrite Sb in Pb|lia]. }
  destruct (bool_decide_reflect (64 < itemCount b + x)); injection E as -> ->;
    (split; [right; cbn [present itemID itemCount]; split; [done|]; split; [done|lia]|]);
    (split; [right; cbn [present itemID itemCount]; split; [done|]; split; [done|lia]|]);
    intros id; rewrite Hb; unfold items_in; cbn [itemID itemCount];
    destruct (decide (itemID a = id)); lia.
Qed.
End SwapProps.
