(* ===== verification/Add.v ===== *)
(** * The primary type writers (protocol/serialization/addPrimaryType.hpp)

    Each function takes its argument at the C++ parameter type: an implicit
    conversion at the call site is the [to_*] at the head of the definition.
    Floating-point numbers are carried by their IEEE-754 bit pattern, which is
    all the code looks at (the host is little-endian). *)

From S2P Require Import Prelude Types Codec Structures.

Definition CONTINUE_BIT : Z := 0x80.
Definition SEGMENT_BITS : Z := 0x7f.

Definition addByte (data : Z) : writer := push_back (to_u8 data).

Definition addBoolean (data : bool) : writer := if data then addByte 1 else addByte 0.

Definition addShort (data : Z) : writer := λ out,
  let data := to_i16 data in
  out ← push_back (Z.shiftr data 8) out; push_back (Z.land data 0xFF) out.

Definition addUShort (data : Z) : writer := λ out,
  let data := to_u16 data in
  out ← push_back (Z.shiftr data 8) out; push_back (Z.land data 0xFF) out.

(** [for (int i = 0; i < n; i++) out.push_back((data >> (8*(n-1) - i*8)) & 0xFF)] *)
Definition push_be (n : Z) (data : Z) : writer :=
  serialize ((λ i, push_back (Z.land (Z.shiftr data (8 * (n - 1) - i * 8)) 0xFF))
             <$> seqZ 0 n).

Definition addInt (data : Z) : writer := push_be 4 (to_i32 data).
Definition addLong (data : Z) : writer := push_be 8 (to_i64 data).
Definition addUnsignedLong (data : Z) : writer := push_be 8 (to_u64 data).

(** The loop of [addVarInt] and [addVarLong]; [wrap] is the conversion to the
    unsigned type of the shift. *)
Fixpoint addVar_loop (fuel : nat) (wrap : Z → Z) (value : Z) : writer := λ out,
  match fuel with
  | O => OutOfFuel
  | S fuel =>
      if decide (Z.land value (Z.lnot SEGMENT_BITS) = 0) then push_back value out
      else
        out ← push_back (Z.lor (Z.land value SEGMENT_BITS) CONTINUE_BIT) out;
        addVar_loop fuel wrap (Z.shiftr (wrap value) 7) out
  end.

Definition addVarInt (data : Z) : writer := addVar_loop 5 to_u32 (to_i32 data).
Definition addVarLong (data : Z) : writer := addVar_loop 10 to_u64 (to_i64 data).

(** [d.u[i]]: byte [i] of the little-endian object representation. *)
Definition byte_at (bits i : Z) : Z := to_u8 (Z.shiftr bits (8 * i)).

Definition addFloat (data : Z) : writer :=
  serialize ((λ i, push_back (byte_at data i)) <$> [3; 2; 1; 0]).
Definition addDouble (data : Z) : writer :=
  serialize ((λ i, push_back (byte_at data i)) <$> [7; 6; 5; 4; 3; 2; 1; 0]).

Definition MAX_STRING_SIZE : Z := 32767.
Definition MAX_CHAT_SIZE : Z := 262144.

Definition _addString (data : string) (maxSize : Z) : writer := λ out,
  if decide (maxSize < string_size data) then Throw MaxLengthString
  else
    out ← addVarInt (string_size data) out;
    serialize (push_back <$> string_bytes data) out.

Definition addString (data : string) : writer := _addString data MAX_STRING_SIZE.
Definition addChat (data : string) : writer := _addString data MAX_CHAT_SIZE.
Definition addIdentifier (data : string) : writer := addString data.

Definition addSlot (data : Slot) : writer := λ out,
  out ← addBoolean (present data) out;
  if present data then
    out ← addVarInt (itemID data) out;
    out ← addByte (itemCount data) out;
    addByte 0 out
  else Ok out.

Definition addUUID (data : u128) : writer := λ out,
  out ← addLong (most data) out; addLong (least data) out.

(** [addArray]: the length as a VarInt, then every element. *)
Definition addArray {T} (add : T → writer) (data : list T) : writer := λ out,
  out ← addVarInt (zlen data) out; serialize (add <$> data) out.

Definition addPosition (data : Position) : writer :=
  addLong (Z.lor (Z.lor (to_i64 (Z.shiftl (Z.land (px data) 0x3FFFFFF) 38))
                        (to_i64 (Z.shiftl (Z.land (pz data) 0x3FFFFFF) 12)))
                 (Z.land (py data) 0xFFF)).

#[global] Typeclasses Opaque addByte addBoolean addShort addUShort push_be addInt addLong
  addUnsignedLong addVar_loop addVarInt addVarLong addFloat addDouble _addString addString
  addChat addIdentifier addSlot addUUID addArray addPosition.
