(* ===== verification/Pop.v ===== *)
(** * The primary type readers (protocol/serialization/popPrimaryType.hpp)

    [eof] is the address of the last byte, so [eof - at] is the number of
    bytes left after the one under the cursor. *)

From S2P Require Import Prelude Types Codec Structures Add.

Definition popByte : reader Z :=
  d ← distance_to_eof;
  if decide (d < 0) then throw PacketEOF else next.

Definition popBoolean : reader bool :=
  value ← popByte;
  if decide (value ≠ 0 ∧ value ≠ 1) then throw OutOfRangeBoolean
  else mret (bool_decide (value = 1)).

Definition popShort : reader Z :=
  d ← distance_to_eof;
  if decide (d < 1) then throw PacketEOF
  else
    hi ← next; lo ← next;
    mret (to_u16 (Z.lor lo (Z.shiftl hi 8))).

(** [for (int i = 0; i < n; i++) value = (value << 8) + *at++;] *)
Fixpoint pop_be_loop (n : nat) (wrap : Z → Z) (value : Z) : reader Z :=
  match n with
  | O => mret value
  | S m => b ← next; pop_be_loop m wrap (wrap (Z.shiftl value 8) + b)
  end.

Definition popInt : reader Z :=
  d ← distance_to_eof;
  if decide (d < 3) then throw PacketEOF else pop_be_loop 4 to_i32 0.

Definition popLong : reader Z :=
  d ← distance_to_eof;
  if decide (d < 7) then throw PacketEOF else pop_be_loop 8 to_i64 0.

(** The loop of [popVarInt] and [popVarLong]; [width] is the bound on
    [position], [wrap] the conversion of the shifted segment. *)
Fixpoint popVar_loop (fuel : nat) (width : Z) (wrap : Z → Z) (value position : Z) : reader Z :=
  match fuel with
  | O => out_of_fuel
  | S fuel =>
      d ← distance_to_eof;
      if decide (d < 0) then throw PacketEOF
      else
        currentByte ← next;
        let value := Z.lor value (wrap (Z.shiftl (Z.land currentByte SEGMENT_BITS) position)) in
        if decide (Z.land currentByte CONTINUE_BIT = 0) then mret value
        else
          let position := position + 7 in
          if decide (width ≤ position) then throw VarIntOverflow
          else popVar_loop fuel width wrap value position
  end.

Definition popVarInt : reader Z := popVar_loop 5 32 to_i32 0 0.
Definition popVarLong : reader Z := popVar_loop 10 64 to_i64 0 0.

(** The value of [n] bytes of memory on a little-endian host, and
    [ntoh32]/[ntoh64], which rebuild the value from its bytes in the reverse
    order. *)
Fixpoint le_value (bs : list Z) : Z :=
  match bs with [] => 0 | b :: bs' => Z.lor b (Z.shiftl (le_value bs') 8) end.

Definition ntoh32 (input : Z) : Z :=
  le_value ((λ s, to_u8 (Z.shiftr input s)) <$> [24; 16; 8; 0]).
Definition ntoh64 (input : Z) : Z :=
  le_value ((λ s, to_u8 (Z.shiftr input s)) <$> [56; 48; 40; 32; 24; 16; 8; 0]).

Definition popFloat : reader Z :=
  d ← distance_to_eof;
  if decide (d < 3) then throw PacketEOF
  else data ← next_n 4; mret (ntoh32 (le_value data)).

Definition popDouble : reader Z :=
  d ← distance_to_eof;
  if decide (d < 7) then throw PacketEOF
  else data ← next_n 8; mret (ntoh64 (le_value data)).

(** [std::string value(at, at + size)] needs a valid range: a negative [size]
    passes the guard and is undefined. *)
Definition popString : reader string :=
  size ← popVarInt;
  d ← distance_to_eof;
  if decide (d + 1 < size) then throw PacketEOF
  else if decide (size < 0) then undefined InvalidRange
  else bs ← next_n (Z.to_nat size); mret (string_of_bytes bs).

Definition popChat : reader string := popString.

Definition popSlot : reader Slot :=
  p ← popBoolean;
  if (p : bool) then
    id ← popVarInt;
    count ← popByte;
    _ ← popByte;
    mret (mk_Slot p id (to_i8 count))
  else mret (mk_Slot p (itemID Slot_default) (itemCount Slot_default)).

Definition popUUID : reader u128 :=
  d ← distance_to_eof;
  if decide (d < 15) then throw PacketEOF
  else
    m ← popLong; l ← popLong;
    mret (mk_u128 (to_u64 m) (to_u64 l)).

(** [for (int i = 0; i < length; i++) array.push_back(pop(at, eof));] *)
Fixpoint popArray_loop {T} (pop : reader T) (n : nat) : reader (list T) :=
  match n with
  | O => mret []
  | S m => x ← pop; xs ← popArray_loop pop m; mret (x :: xs)
  end.

Definition popArray {T} (pop : reader T) : reader (list T) :=
  length ← popVarInt; popArray_loop pop (Z.to_nat length).

Definition popPosition : reader Position :=
  h ← popLong;
  mret (mk_Position
          (Z.shiftr h 38)
          (Z.shiftr (to_i64 (Z.shiftl h 52)) 52)
          (Z.shiftr (to_i64 (Z.shiftl h 26)) 38)).

(** [popBitSet<size>]: one byte for every eight bits, and bit [bit + i] from
    [byte & (1 >> i)]. *)
Definition bitset_bits (byte n : Z) : list bool :=
  (λ i, bool_decide (Z.land byte (Z.shiftr 1 i) ≠ 0)) <$> seqZ 0 n.

Fixpoint popBitSet_loop (fuel : nat) (bit size : Z) : reader (list bool) :=
  if decide (size ≤ bit) then mret []
  else
    match fuel with
    | O => out_of_fuel
    | S fuel =>
        byte ← popByte;
        let bits := bitset_bits byte (Z.min 8 (size - bit)) in
        rest ← popBitSet_loop fuel (bit + 8) size;
        mret (bits ++ rest)
    end.

Definition popBitSet (size : nat) : reader (list bool) :=
  popBitSet_loop (S (size / 8)) 0 (Z.of_nat size).

#[global] Typeclasses Opaque popByte popBoolean popShort pop_be_loop popInt popLong popVar_loop
  popVarInt popVarLong popFloat popDouble popString popChat popSlot popUUID popArray_loop
  popArray popPosition popBitSet_loop popBitSet.
