(* ===== verification/PrimaryLaws.v ===== *)
(** * The laws of the primary codec

    For every primary type: what its writer emits, that its reader takes that
    back, and that its reader stays inside of the buffer on any input. *)

From S2P Require Import Prelude Types Codec Structures Add Pop.

(** ** Writers of fixed width *)

Lemma to_u8_land x : to_u8 (Z.land x 255) = to_u8 x.
Proof. unfold to_u8. change 255 with (Z.ones 8). zbits. Qed.

Lemma to_u8_to_u8 x : to_u8 (to_u8 x) = to_u8 x.
Proof. unfold to_u8. zbits. Qed.

Lemma to_u8_id b : is_byte b → to_u8 b = b.
Proof. apply wrap_u_id. Qed.

#[export] Instance emits_addByte b : Emits (addByte b) [to_u8 b].
Proof. unfold addByte. apply (emits_eq _ _ _ (emits_push_back _)). by rewrite to_u8_to_u8. Qed.

#[export] Instance emits_addBoolean (b : bool) : Emits (addBoolean b) [if b then 1 else 0].
Proof. by destruct b. Qed.

Lemma shiftr_wrap_byte w z k :
  0 ≤ k → k + 8 ≤ w → to_u8 (Z.shiftr (wrap_u w z) k) = to_u8 (Z.shiftr z k).
Proof.
  intros. unfold to_u8. apply Z.bits_inj'. intros i Hi.
  rewrite !testbit_wrap_u by lia. case_decide; [|done].
  rewrite !Z.shiftr_spec, testbit_wrap_u by lia. by rewrite decide_True by lia.
Qed.

Lemma be_bytes_wrap n w z : 8 * Z.of_nat n ≤ w → be_bytes n (wrap_u w z) = be_bytes n z.
Proof.
  induction n as [|n IH]; intros; [done|]. cbn [be_bytes].
  by rewrite shiftr_wrap_byte, IH by lia.
Qed.

Lemma be_bytes_wrap_s n w z :
  0 < w → 8 * Z.of_nat n ≤ w → be_bytes n (wrap_s w z) = be_bytes n z.
Proof.
  intros. by rewrite <- (be_bytes_wrap n w), wrap_u_wrap_s, be_bytes_wrap by lia.
Qed.

Lemma be_bytes_2 z : be_bytes 2 z = [to_u8 (Z.shiftr z 8); to_u8 z].
Proof. done. Qed.
Lemma be_bytes_4 z :
  be_bytes 4 z = [to_u8 (Z.shiftr z 24); to_u8 (Z.shiftr z 16); to_u8 (Z.shiftr z 8); to_u8 z].
Proof. done. Qed.
Lemma be_bytes_8 z :
  be_bytes 8 z =
    [to_u8 (Z.shiftr z 56); to_u8 (Z.shiftr z 48); to_u8 (Z.shiftr z 40); to_u8 (Z.shiftr z 32)]
    ++ be_bytes 4 z.
Proof. done. Qed.

(** Steps through a sequence of [push_back]s. *)
Ltac emit_bytes :=
  intros ?out; unfold push_back; cbn [mbind result_bind serialize fmap list_fmap];
  rewrite <- ?app_assoc; cbn [app];
  rewrite ?to_u8_land, ?to_u8_to_u8, ?be_bytes_8, ?be_bytes_4, ?be_bytes_2.

Lemma emits_push_be_4 z : Emits (push_be 4 z) (be_bytes 4 z).
Proof.
  unfold push_be. change (seqZ 0 4) with [0; 1; 2; 3]. by emit_bytes.
Qed.
Lemma emits_push_be_8 z : Emits (push_be 8 z) (be_bytes 8 z).
Proof.
  unfold push_be. change (seqZ 0 8) with [0; 1; 2; 3; 4; 5; 6; 7]. by emit_bytes.
Qed.

#[export] Instance emits_addShort z : Emits (addShort z) (be_bytes 2 z).
Proof.
  rewrite <- (be_bytes_wrap_s 2 16) by lia. unfold addShort. emit_bytes. done.
Qed.
#[export] Instance emits_addUShort z : Emits (addUShort z) (be_bytes 2 z).
Proof.
  rewrite <- (be_bytes_wrap 2 16) by lia. unfold addUShort. emit_bytes. done.
Qed.
#[export] Instance emits_addInt z : Emits (addInt z) (be_bytes 4 z).
Proof. rewrite <- (be_bytes_wrap_s 4 32) by lia. apply emits_push_be_4. Qed.
#[export] Instance emits_addLong z : Emits (addLong z) (be_bytes 8 z).
Proof. rewrite <- (be_bytes_wrap_s 8 64) by lia. apply emits_push_be_8. Qed.
#[export] Instance emits_addUnsignedLong z : Emits (addUnsignedLong z) (be_bytes 8 z).
Proof. rewrite <- (be_bytes_wrap 8 64) by lia. apply emits_push_be_8. Qed.
#[export] Instance emits_addFloat z : Emits (addFloat z) (be_bytes 4 z).
Proof. unfold addFloat, byte_at. emit_bytes. reflexivity. Qed.
#[export] Instance emits_addDouble z : Emits (addDouble z) (be_bytes 8 z).
Proof. unfold addDouble, byte_at. emit_bytes. reflexivity. Qed.
#[export] Instance emits_addUUID u :
  Emits (addUUID u) (be_bytes 8 (most u) ++ be_bytes 8 (least u)).
Proof. unfold addUUID. eapply emits_bind; apply _. Qed.

(** ** Readers of fixed width *)

Section ReadFixed.
Context {A : Type}.

Lemma reads_guard (k : Z) (e : exn) (p : reader A) bs a :
  k ≤ zlen bs - 1 → Reads p bs a →
  Reads (d ← distance_to_eof; if decide (d < k) then throw e else p) bs a.
Proof.
  intros Hk Hp. apply reads_distance. intros d Hd. by rewrite decide_False by lia.
Qed.
End ReadFixed.

#[export] Instance reads_popByte b : Reads popByte [b] b.
Proof. apply reads_guard; [cbn; lia|apply reads_next]. Qed.

Lemma reads_popBoolean_bit (b : bool) : Reads popBoolean [if b then 1 else 0] b.
Proof.
  unfold popBoolean. apply (reads_eq _ ([if b then 1 else 0] ++ []) _ b b); [|done..].
  eapply reads_bind; [apply reads_popByte|].
  rewrite decide_False by (destruct b; lia).
  by destruct b; apply reads_ret.
Qed.
#[export] Existing Instance reads_popBoolean_bit.


Lemma wrap_s_step w v b :
  9 ≤ w → is_byte b → wrap_s w (Z.shiftl v 8) + b = wrap_s w (be_step v b).
Proof.
  intros Hw Hb. unfold is_u in Hb. unfold wrap_s, be_step.
  rewrite Z.shiftl_mul_pow2 by lia. change (2 ^ 8) with 256 in *.
  assert (E : ∀ k, 8 ≤ k → 2 ^ k = 256 * 2 ^ (k - 8)).
  { intros k ?. change 256 with (2 ^ 8). rewrite <- Z.pow_add_r by lia. f_equal. lia. }
  rewrite (E w), (E (w - 1)) by lia.
  pose proof (Z.pow_pos_nonneg 2 (w - 8) ltac:(lia) ltac:(lia)).
  set (m := 2 ^ (w - 8)) in *. set (h := 2 ^ (w - 1 - 8)) in *.
  replace (v * 256 + 256 * h) with (256 * (v + h)) by lia.
  replace (v * 256 + b + 256 * h) with (256 * (v + h) + b) by lia.
  rewrite Z.mul_mod_distr_l by lia.
  rewrite <- (Z.mod_unique (256 * (v + h) + b) (256 * m) ((v + h) / m)
                (256 * ((v + h) `mod` m) + b)); [lia| |].
  - pose proof (Z.mod_pos_bound (v + h) m). lia.
  - pose proof (Z.div_mod (v + h) m). lia.
Qed.

Lemma wrap_s_be_step w v b : 0 < w → wrap_s w (be_step (wrap_s w v) b) = wrap_s w (be_step v b).
Proof.
  intros. apply wrap_s_mod; [lia|]. unfold be_step, wrap_u.
  assert (E : (wrap_s w v * 256) `mod` 2 ^ w = (v * 256) `mod` 2 ^ w).
  { rewrite <- Zmult_mod_idemp_l. change (wrap_s w v `mod` 2 ^ w) with (wrap_u w (wrap_s w v)).
    rewrite wrap_u_wrap_s by lia. apply Zmult_mod_idemp_l. }
  by rewrite <- Zplus_mod_idemp_l, E, Zplus_mod_idemp_l.
Qed.

Lemma wrap_s_be_fold w v bs :
  0 < w → wrap_s w (foldl be_step (wrap_s w v) bs) = wrap_s w (foldl be_step v bs).
Proof.
  intros Hw. revert v. induction bs as [|b bs IH]; intros v; cbn [foldl].
  - by rewrite wrap_s_id by (done || by apply wrap_s_range).
  - by rewrite <- IH, wrap_s_be_step, IH by done.
Qed.

Lemma reads_pop_be_loop w bs v :
  9 ≤ w → Forall is_byte bs → is_s w v →
  Reads (pop_be_loop (length bs) (wrap_s w) v) bs (wrap_s w (foldl be_step v bs)).
Proof.
  intros Hw Hbs. revert v. induction Hbs as [|b bs Hb Hbs IH]; intros v Hv; cbn [length foldl].
  - rewrite wrap_s_id by (done || lia). apply reads_ret.
  - apply (reads_bind next _ [b] bs b); [apply reads_next|].
    rewrite wrap_s_step by done.
    rewrite <- wrap_s_be_fold by lia. apply IH, wrap_s_range. lia.
Qed.

Lemma reads_be_bytes w n z :
  9 ≤ w → w = 8 * Z.of_nat n → Reads (pop_be_loop n (wrap_s w) 0) (be_bytes n z) (wrap_s w z).
Proof.
  intros Hw ->. rewrite <- (wrap_s_wrap_u _ z), <- be_value_bytes by lia.
  rewrite <- (be_bytes_length n z) at 1.
  apply reads_pop_be_loop; [lia|apply be_bytes_is_byte|].
  unfold is_s. pose proof (Z.pow_pos_nonneg 2 (8 * Z.of_nat n - 1) ltac:(lia) ltac:(lia)). lia.
Qed.

#[export] Instance reads_popInt z : Reads popInt (be_bytes 4 z) (to_i32 z).
Proof. apply reads_guard; [done|]. by apply reads_be_bytes. Qed.
#[export] Instance reads_popLong z : Reads popLong (be_bytes 8 z) (to_i64 z).
Proof. apply reads_guard; [done|]. by apply reads_be_bytes. Qed.

#[export] Instance reads_popShort z : Reads popShort (be_bytes 2 z) (to_u16 z).
Proof.
  rewrite be_bytes_2. apply reads_guard; [done|].
  eapply (reads_bind next _ [_] [_]); [apply reads_next|].
  eapply (reads_bind next _ [_] []); [apply reads_next|].
  eapply reads_eq; [apply reads_ret|done|].
  unfold to_u16, to_u8. zbits.
Qed.

(** ** Floating point: the byte swap of the reader undoes the writer's *)

Lemma to_u8_lor_low b r : is_byte b → to_u8 (Z.lor b (Z.shiftl r 8)) = b.
Proof.
  intros Hb. rewrite <- (to_u8_id b Hb) at 2. unfold to_u8. zbits.
Qed.

Lemma to_u8_lor_high b r k :
  is_byte b → 0 ≤ k → to_u8 (Z.shiftr (Z.lor b (Z.shiftl r 8)) (8 + k)) = to_u8 (Z.shiftr r k).
Proof.
  intros Hb Hk. rewrite <- (to_u8_id b Hb). unfold to_u8. zbits.
Qed.

Definition nth_byte (bs : list Z) (k : nat) : Z := default 0 (bs !! k).

Lemma le_value_byte bs k :
  Forall is_byte bs → to_u8 (Z.shiftr (le_value bs) (8 * Z.of_nat k)) = nth_byte bs k.
Proof.
  intros Hbs. revert k. induction Hbs as [|b bs Hb Hbs IH]; intros k; cbn [le_value].
  - by rewrite Z.shiftr_0_l.
  - destruct k as [|k].
    + change (8 * Z.of_nat 0) with 0. rewrite Z.shiftr_0_r. by apply to_u8_lor_low.
    + replace (8 * Z.of_nat (S k)) with (8 + 8 * Z.of_nat k) by lia.
      rewrite to_u8_lor_high by (done || lia). apply IH.
Qed.

Lemma lor_shift_byte a r : is_byte a → Z.lor a (Z.shiftl r 8) = a + r * 256.
Proof.
  intros Ha. rewrite <- Z.add_nocarry_lor.
  - by rewrite Z.shiftl_mul_pow2 by lia.
  - rewrite <- (to_u8_id a Ha). unfold to_u8. zbits.
Qed.

Lemma le_value_snoc bs b :
  Forall is_byte bs → is_byte b → le_value (bs ++ [b]) = b * 256 ^ zlen bs + le_value bs.
Proof.
  intros Hbs Hb. induction Hbs as [|a bs Ha Hbs IH]; cbn [le_value app].
  - rewrite Z.shiftl_0_l, Z.lor_0_r. cbn. lia.
  - rewrite IH, !lor_shift_byte by done.
    cbn [length]. rewrite Nat2Z.inj_succ, Z.pow_succ_r by lia. lia.
Qed.

Lemma le_value_reverse bs : Forall is_byte bs → le_value (reverse bs) = be_value bs.
Proof.
  induction 1 as [|b bs Hb Hbs IH]; [done|].
  rewrite reverse_cons, le_value_snoc by (done || by apply Forall_reverse).
  unfold be_value. cbn [foldl]. rewrite be_value_acc, <- IH, length_reverse.
  unfold be_step. lia.
Qed.

(** [ntoh32] and [ntoh64] read the bytes of a little-endian value backwards. *)
Lemma ntoh32_le bs : Forall is_byte bs → length bs = 4%nat → ntoh32 (le_value bs) = be_value bs.
Proof.
  intros Hbs Hl. rewrite <- le_value_reverse by done.
  unfold ntoh32. cbn [fmap list_fmap].
  pose proof (le_value_byte bs) as E.
  change 24 with (8 * Z.of_nat 3). change 16 with (8 * Z.of_nat 2).
  change (Z.shiftr (le_value bs) 8) with (Z.shiftr (le_value bs) (8 * Z.of_nat 1)).
  change (Z.shiftr (le_value bs) 0) with (Z.shiftr (le_value bs) (8 * Z.of_nat 0)).
  rewrite !E by done.
  destruct bs as [|a [|b [|c [|d [|]]]]]; done.
Qed.

Lemma ntoh64_le bs : Forall is_byte bs → length bs = 8%nat → ntoh64 (le_value bs) = be_value bs.
Proof.
  intros Hbs Hl. rewrite <- le_value_reverse by done.
  unfold ntoh64. cbn [fmap list_fmap].
  pose proof (le_value_byte bs) as E.
  change 56 with (8 * Z.of_nat 7). change 48 with (8 * Z.of_nat 6).
  change 40 with (8 * Z.of_nat 5). change 32 with (8 * Z.of_nat 4).
  change 24 with (8 * Z.of_nat 3). change 16 with (8 * Z.of_nat 2).
  change (Z.shiftr (le_value bs) 8) with (Z.shiftr (le_value bs) (8 * Z.of_nat 1)).
  change (Z.shiftr (le_value bs) 0) with (Z.shiftr (le_value bs) (8 * Z.of_nat 0)).
  rewrite !E by done.
  destruct bs as [|a [|b [|c [|d [|e [|f [|g [|h [|]]]]]]]]]; done.
Qed.

#[export] Instance reads_popFloat z : Reads popFloat (be_bytes 4 z) (to_u32 z).
Proof.
  apply reads_guard; [done|].
  rewrite <- (app_nil_r (be_bytes 4 z)).
  eapply reads_bind; [by apply reads_next_n, be_bytes_length|].
  rewrite ntoh32_le by (apply be_bytes_is_byte || apply be_bytes_length).
  rewrite be_value_bytes. apply reads_ret.
Qed.

#[export] Instance reads_popDouble z : Reads popDouble (be_bytes 8 z) (to_u64 z).
Proof.
  apply reads_guard; [done|].
  rewrite <- (app_nil_r (be_bytes 8 z)).
  eapply reads_bind; [by apply reads_next_n, be_bytes_length|].
  rewrite ntoh64_le by (apply be_bytes_is_byte || apply be_bytes_length).
  rewrite be_value_bytes. apply reads_ret.
Qed.

#[export] Instance reads_popUUID u :
  Reads popUUID (be_bytes 8 (most u) ++ be_bytes 8 (least u))
        (mk_u128 (to_u64 (most u)) (to_u64 (least u))).
Proof.
  apply reads_guard; [done|].
  eapply reads_bind; [apply reads_popLong|].
  rewrite <- (app_nil_r (be_bytes 8 (least u))).
  eapply reads_bind; [apply reads_popLong|].
  unfold to_i64, to_u64. rewrite !wrap_u_wrap_s by lia.
  apply reads_ret.
Qed.
