(* ===== verification/CompositeLaws.v ===== *)
(** * The laws of the variable-length and composite types

    VarInt and VarLong, strings, slots, arrays, positions and bit sets. *)

From S2P Require Import Prelude Types Codec Structures Add Pop PrimaryLaws.

(** ** Variable-length integers

    [var_bytes fuel u]: the groups of seven bits of [u], least significant
    first, each but the last with the continuation bit. *)

Fixpoint var_bytes (fuel : nat) (u : Z) : list Z :=
  match fuel with
  | O => []
  | S fuel => if decide (u < 128) then [u] else (128 + u `mod` 128) :: var_bytes fuel (u / 128)
  end.

Definition varint_bytes (v : Z) : list Z := var_bytes 5 (to_u32 v).
Definition varlong_bytes (v : Z) : list Z := var_bytes 10 (to_u64 v).

Lemma land_segment v : Z.land v SEGMENT_BITS = v `mod` 128.
Proof. apply (Z.land_ones v 7). lia. Qed.

Lemma land_not_segment v : Z.land v (Z.lnot SEGMENT_BITS) = 0 ↔ 0 ≤ v < 128.
Proof.
  replace (Z.land v (Z.lnot SEGMENT_BITS)) with (Z.ldiff v (Z.ones 7)).
  - rewrite Z.ldiff_ones_r, Z.shiftr_div_pow2, Z.shiftl_mul_pow2 by lia.
    change (2 ^ 7) with 128. div_lia.
  - by rewrite <- Z.ldiff_land.
Qed.

Lemma lor_continue x : 0 ≤ x < 128 → Z.lor x CONTINUE_BIT = 128 + x.
Proof.
  intros Hx. rewrite <- (Z.mod_small x (2 ^ 7)) at 1 by (cbn; lia).
  rewrite Z.lor_comm, <- Z.add_nocarry_lor; [rewrite Z.mod_small by (cbn; lia); done|].
  change CONTINUE_BIT with (Z.shiftl 1 7). change (x `mod` 2 ^ 7) with (wrap_u 7 x). zbits.
Qed.

Lemma land_segment_wrap w v : 7 ≤ w → Z.land v SEGMENT_BITS = wrap_u w v `mod` 128.
Proof.
  intros. rewrite land_segment. unfold wrap_u.
  replace (2 ^ w) with (128 * 2 ^ (w - 7)).
  - rewrite Z.rem_mul_r by (try apply Z.pow_nonzero; lia).
    rewrite (Z.mul_comm 128), Z.mod_add, Z.mod_mod by lia. done.
  - change 128 with (2 ^ 7). rewrite <- Z.pow_add_r by lia. f_equal; lia.
Qed.

(** A value whose representation is below 128 is that representation. *)
Definition rep (w v : Z) : Prop := is_u w v ∨ is_s w v.

Lemma rep_small w v : 8 ≤ w → rep w v → (Z.land v (Z.lnot SEGMENT_BITS) = 0 ↔ wrap_u w v < 128).
Proof.
  intros Hw Hr. rewrite land_not_segment. unfold rep, is_u, is_s in Hr.
  pose proof (pow2_half w ltac:(lia)) as E.
  assert (128 ≤ 2 ^ (w - 1)) by (change 128 with (2 ^ 7); apply Z.pow_le_mono_r; lia).
  destruct (decide (0 ≤ v)).
  - rewrite wrap_u_id by (unfold is_u; lia). lia.
  - unfold wrap_u. replace (v `mod` 2 ^ w) with (v + 2 ^ w); [lia|].
    rewrite <- (Z.mod_small (v + 2 ^ w) (2 ^ w)) by lia.
    replace (v + 2 ^ w) with (v + 1 * 2 ^ w) by lia. rewrite Z.mod_add; lia.
Qed.

Lemma emits_addVar_loop w fuel v :
  8 ≤ w → fuel ≠ O → rep w v → wrap_u w v < 128 ^ Z.of_nat fuel →
  Emits (addVar_loop fuel (wrap_u w) v) (var_bytes fuel (wrap_u w v)).
Proof.
  intros Hw. revert v. induction fuel as [|fuel IH]; intros v Hf Hr Hv; [done|].
  - clear Hf. cbn [addVar_loop var_bytes]. pose proof (rep_small w v ltac:(lia) Hr) as Hs.
    pose proof (wrap_u_range w v ltac:(lia)) as Hu. unfold is_u in Hu.
    pose proof (Z.mod_pos_bound (wrap_u w v) 128 ltac:(lia)).
    case_decide as Hd.
    + rewrite decide_True by tauto. eapply emits_eq; [apply emits_push_back|].
      f_equal. apply Hs in Hd. assert (0 ≤ v < 128) by (by apply land_not_segment, Hs).
      assert (wrap_u w v = v) as ->.
      { apply wrap_u_id. unfold is_u. assert (2 ^ 8 ≤ 2 ^ w) by (apply Z.pow_le_mono_r; lia).
        change (2 ^ 8) with 256 in *. lia. }
      apply to_u8_id. unfold is_u. change (2 ^ 8) with 256. lia.
    + rewrite decide_False by tauto.
      rewrite (land_segment_wrap w v) by lia. rewrite lor_continue by lia.
      apply (emits_bind _ _ [_] _).
      * eapply emits_eq; [apply emits_push_back|]. f_equal. apply to_u8_id. unfold is_u.
        change (2 ^ 8) with 256. lia.
      * rewrite Z.shiftr_div_pow2 by lia. change (2 ^ 7) with 128.
        assert (Hq : is_u w (wrap_u w v / 128)).
        { unfold is_u. split; [apply Z.div_pos; lia|].
          apply Z.div_lt_upper_bound; lia. }
        specialize (IH (wrap_u w v / 128)).
        rewrite (wrap_u_id w (wrap_u w v / 128)) in IH by done.
        apply IH; [|by left|].
        { intros ->. change (128 ^ Z.of_nat 1) with 128 in Hv. tauto. }
        rewrite Nat2Z.inj_succ, Z.pow_succ_r in Hv by lia.
        apply Z.div_lt_upper_bound; lia.
Qed.

#[export] Instance emits_addVarInt v : Emits (addVarInt v) (varint_bytes v).
Proof.
  unfold addVarInt, varint_bytes, to_u32, to_i32.
  rewrite <- (wrap_u_wrap_s 32 v) by lia. apply emits_addVar_loop; [lia|done| |].
  - right. by apply wrap_s_range.
  - pose proof (wrap_u_range 32 (wrap_s 32 v) ltac:(lia)) as H. unfold is_u in H.
    change (128 ^ Z.of_nat 5) with (2 ^ 35). cbn in *. lia.
Qed.

#[export] Instance emits_addVarLong v : Emits (addVarLong v) (varlong_bytes v).
Proof.
  unfold addVarLong, varlong_bytes, to_u64, to_i64.
  rewrite <- (wrap_u_wrap_s 64 v) by lia. apply emits_addVar_loop; [lia|done| |].
  - right. by apply wrap_s_range.
  - pose proof (wrap_u_range 64 (wrap_s 64 v) ltac:(lia)) as H. unfold is_u in H.
    change (128 ^ Z.of_nat 10) with (2 ^ 70). cbn in *. lia.
Qed.

(** The number of bytes of a VarInt, between one and five. *)
Lemma var_bytes_length fuel u : (length (var_bytes fuel u) ≤ fuel)%nat.
Proof.
  revert u. induction fuel; intros u; cbn; [done|]. case_decide; cbn; [lia|].
  specialize (IHfuel (u / 128)). lia.
Qed.

Lemma varint_bytes_nonempty v : varint_bytes v ≠ [].
Proof. unfold varint_bytes. cbn. by case_decide. Qed.

(** *** Reading them back *)

Lemma testbit_wrap_s w z i :
  0 < w → 0 ≤ i → Z.testbit (wrap_s w z) i = Z.testbit z (Z.min i (w - 1)).
Proof.
  intros Hw Hi.
  destruct (decide (i < w)) as [Hlt|].
  - rewrite Z.min_l by lia.
    rewrite <- (decide_True (P := i < w) (Z.testbit (wrap_s w z) i) false) by done.
    rewrite <- testbit_wrap_u, wrap_u_wrap_s, testbit_wrap_u by lia.
    by rewrite decide_True by done.
  - rewrite Z.min_r by lia.
    assert (Z.testbit z (w - 1) = Z.testbit (wrap_s w z) (w - 1)) as ->.
    { rewrite <- (decide_True (P := w - 1 < w) (Z.testbit (wrap_s w z) (w - 1)) false) by lia.
      rewrite <- testbit_wrap_u, wrap_u_wrap_s, testbit_wrap_u by lia.
      by rewrite decide_True by lia. }
    pose proof (wrap_s_range w z ltac:(lia)) as Hr. unfold is_s in Hr.
    set (v := wrap_s w z) in *.
    rewrite !Z.testbit_eqb by lia.
    assert (2 ^ (w - 1) ≤ 2 ^ i) by (apply Z.pow_le_mono_r; lia).
    destruct (decide (0 ≤ v)).
    + rewrite !Z.div_small by lia. done.
    + assert (D : ∀ p, - p ≤ v → 0 < p → v / p = -1).
      { intros p ? ?. symmetry. apply (Z.div_unique v p (-1) (v + p)); lia. }
      rewrite !D by (try apply Z.pow_pos_nonneg; lia). done.
Qed.

Lemma var_step_bits w value u position :
  0 < w → 0 ≤ position →
  Z.lor (Z.lor value (wrap_s w (Z.shiftl (u `mod` 128) position)))
        (wrap_s w (Z.shiftl (u / 128) (position + 7))) =
  Z.lor value (wrap_s w (Z.shiftl u position)).
Proof.
  intros Hw Hp. rewrite <- Z.lor_assoc. f_equal.
  apply Z.bits_inj'. intros i Hi.
  rewrite Z.lor_spec, !testbit_wrap_s, !Z.shiftl_spec by lia.
  set (j := Z.min i (w - 1)).
  change 128 with (2 ^ 7). rewrite <- Z.shiftr_div_pow2 by lia.
  destruct (decide (position + 7 ≤ j)).
  - rewrite Z.mod_pow2_bits_high, Z.shiftr_spec by lia. cbn. f_equal. lia.
  - rewrite (Z.testbit_neg_r (Z.shiftr u 7)) by lia. rewrite orb_false_r.
    destruct (decide (0 ≤ j - position)).
    + apply Z.mod_pow2_bits_low. lia.
    + by rewrite !Z.testbit_neg_r by lia.
Qed.

Lemma land_continue b : is_byte b → Z.land b CONTINUE_BIT = 0 ↔ b < 128.
Proof.
  intros Hb. unfold is_u in Hb. change (2 ^ 8) with 256 in Hb.
  assert (E : Z.land b CONTINUE_BIT = Z.shiftl (Z.land (Z.shiftr b 7) 1) 7).
  { change CONTINUE_BIT with (Z.shiftl 1 7). rewrite Z.shiftl_land.
    replace (Z.shiftl (Z.shiftr b 7) 7) with (Z.ldiff b (Z.ones 7))
      by (rewrite Z.ldiff_ones_r by lia; done).
    rewrite Z.ldiff_land, <- Z.land_assoc. f_equal. }
  rewrite E. change 1 with (Z.ones 1). rewrite Z.land_ones by lia.
  rewrite Z.shiftr_div_pow2, Z.shiftl_mul_pow2 by lia.
  change (2 ^ 7) with 128. change (2 ^ 1) with 2. div_lia.
Qed.

Lemma reads_popVar_loop w fuel value u position :
  0 < w → fuel ≠ O → 0 ≤ position < w → 0 ≤ u < 2 ^ (w - position) →
  u < 128 ^ Z.of_nat fuel →
  Reads (popVar_loop fuel w (wrap_s w) value position) (var_bytes fuel u)
        (Z.lor value (wrap_s w (Z.shiftl u position))).
Proof.
  intros Hw. revert value u position.
  induction fuel as [|fuel IH]; intros value u position Hn Hp Hu Hf; [done|]. clear Hn.
  cbn [popVar_loop var_bytes].
  pose proof (Z.mod_pos_bound u 128 ltac:(lia)).
  destruct (decide (u < 128)) as [Hs|Hs].
  - apply reads_guard; [zlia|]. rewrite <- (app_nil_r [u]).
    eapply reads_bind; [apply reads_next|]. cbn zeta.
    rewrite decide_True by (apply land_continue; [unfold is_u; cbn|]; lia).
    rewrite land_segment, Z.mod_small by lia. apply reads_ret.
  - apply reads_guard; [zlia|].
    apply (reads_bind _ _ [_]  (var_bytes fuel (u / 128)) (128 + u `mod` 128)); [apply reads_next|].
    cbn zeta.
    rewrite decide_False.
    2:{ rewrite land_continue by (unfold is_u; cbn; lia). lia. }
    assert (7 < w - position).
    { apply (Z.pow_lt_mono_r_iff 2); [lia..|]. change (2 ^ 7) with 128. lia. }
    rewrite decide_False by lia.
    rewrite <- (var_step_bits w value u position) by lia.
    replace (Z.land (128 + u `mod` 128) SEGMENT_BITS) with (u `mod` 128).
    2:{ rewrite land_segment. replace (128 + u `mod` 128) with (u `mod` 128 + 1 * 128) by lia.
        by rewrite Z.mod_add, Z.mod_mod by lia. }
    apply IH; [|lia| |].
    + intros ->. change (128 ^ Z.of_nat 1) with 128 in Hf. lia.
    + split; [apply Z.div_pos; lia|]. apply Z.div_lt_upper_bound; [lia|].
      change 128 with (2 ^ 7). rewrite <- Z.pow_add_r by lia.
      replace (7 + (w - (position + 7))) with (w - position) by lia. lia.
    + rewrite Nat2Z.inj_succ, Z.pow_succ_r in Hf by lia.
      apply Z.div_lt_upper_bound; lia.
Qed.

#[export] Instance reads_popVarInt v : Reads popVarInt (varint_bytes v) (to_i32 v).
Proof.
  unfold to_i32. rewrite <- (wrap_s_wrap_u 32 v) by lia.
  pose proof (wrap_u_range 32 v ltac:(lia)) as H. unfold is_u in H.
  rewrite <- (Z.shiftl_0_r (wrap_u 32 v)), <- (Z.lor_0_l (wrap_s _ _)).
  apply (reads_popVar_loop 32 5 0 (to_u32 v) 0); [lia|done|lia|exact H|].
  apply (Z.lt_le_trans _ (2 ^ 32)); [apply H|done].
Qed.

#[export] Instance reads_popVarLong v : Reads popVarLong (varlong_bytes v) (to_i64 v).
Proof.
  unfold to_i64. rewrite <- (wrap_s_wrap_u 64 v) by lia.
  pose proof (wrap_u_range 64 v ltac:(lia)) as H. unfold is_u in H.
  rewrite <- (Z.shiftl_0_r (wrap_u 64 v)), <- (Z.lor_0_l (wrap_s _ _)).
  apply (reads_popVar_loop 64 10 0 (to_u64 v) 0); [lia|done|lia|exact H|].
  apply (Z.lt_le_trans _ (2 ^ 64)); [apply H|done].
Qed.

(** ** Strings, slots, arrays *)

Lemma emits_string_chars s : Emits (serialize (push_back <$> string_bytes s)) (string_bytes s).
Proof.
  pose proof (string_bytes_is_byte s) as Hs.
  induction Hs as [|b bs Hb Hbs IH]; [apply _|].
  eapply emits_eq; [apply emits_serialize_cons; [apply emits_push_back|apply IH]|].
  by rewrite to_u8_id.
Qed.

Lemma emits_bytes l : Forall is_byte l → Emits (serialize (addByte <$> l)) l.
Proof.
  induction 1 as [|b l Hb _ IH]; [apply _|]. cbn [fmap list_fmap].
  change (b :: l) with ([b] ++ l). apply emits_serialize_cons; [|exact IH].
  intros out. rewrite (emits_addByte b out). by rewrite to_u8_id.
Qed.

Definition string_wire (s : string) : list Z := varint_bytes (string_size s) ++ string_bytes s.

Lemma emits__addString s maxSize :
  string_size s ≤ maxSize → Emits (_addString s maxSize) (string_wire s).
Proof.
  intros Hs out. unfold _addString. rewrite decide_False by lia.
  apply (emits_bind _ (serialize _)); [apply _|apply emits_string_chars].
Qed.

Lemma emits_addString s : string_size s ≤ MAX_STRING_SIZE → Emits (addString s) (string_wire s).
Proof. apply emits__addString. Qed.
Lemma emits_addChat s : string_size s ≤ MAX_CHAT_SIZE → Emits (addChat s) (string_wire s).
Proof. apply emits__addString. Qed.
Lemma emits_addIdentifier s :
  string_size s ≤ MAX_STRING_SIZE → Emits (addIdentifier s) (string_wire s).
Proof. apply emits__addString. Qed.

Lemma reads_popString s : string_size s < 2 ^ 31 → Reads popString (string_wire s) s.
Proof.
  intros Hs. unfold popString, string_wire.
  eapply reads_bind; [apply _|].
  pose proof (string_size_nonneg s).
  unfold to_i32. rewrite wrap_s_id by (unfold is_s; lia).
  apply reads_distance. intros d Hd. rewrite string_bytes_length in Hd.
  rewrite decide_False, decide_False by lia.
  rewrite <- (app_nil_r (string_bytes s)). eapply reads_bind.
  - apply reads_next_n. rewrite <- string_bytes_length. lia.
  - rewrite string_of_bytes_bytes. apply reads_ret.
Qed.

Definition slot_wire (s : Slot) : list Z :=
  if present s then [1] ++ varint_bytes (itemID s) ++ [to_u8 (itemCount s)] ++ [0] else [0].

#[export] Instance emits_addSlot s : Emits (addSlot s) (slot_wire s).
Proof.
  unfold addSlot, slot_wire. destruct (present s).
  - eapply (emits_bind (addBoolean true) _ [1]); [apply (emits_addBoolean true)|].
    eapply (emits_bind (addVarInt _)); [apply _|].
    eapply (emits_bind (addByte _) (addByte _)); [apply _|apply (emits_addByte 0)].
  - intros out. by rewrite (emits_addBoolean false).
Qed.

(** What a slot becomes on the wire and back: an absent slot loses its item. *)
Definition slot_sent (s : Slot) : Slot :=
  if present s then mk_Slot true (to_i32 (itemID s)) (to_i8 (itemCount s)) else Slot_default.

#[export] Instance reads_popSlot s : Reads popSlot (slot_wire s) (slot_sent s).
Proof.
  unfold popSlot, slot_wire, slot_sent. destruct (present s) eqn:E.
  - eapply (reads_bind _ _ [1] _ true); [apply (reads_popBoolean_bit true)|].
    eapply reads_bind; [apply _|]. eapply reads_bind; [apply _|].
    rewrite <- (app_nil_r [0]). eapply reads_bind; [apply _|].
    unfold to_i8, to_u8. rewrite wrap_s_wrap_u by lia. apply reads_ret.
  - rewrite <- (app_nil_r [0]).
    eapply (reads_bind _ _ [0] _ false); [apply (reads_popBoolean_bit false)|apply reads_ret].
Qed.

Lemma slot_sent_id s : Slot_wf s → (present s = false → s = Slot_default) → slot_sent s = s.
Proof.
  intros [Hi Hc] Ha. unfold slot_sent. destruct (present s) eqn:E; [|by rewrite Ha].
  unfold to_i32, to_i8. rewrite !wrap_s_id by (done || lia). destruct s; cbn in *; congruence.
Qed.

Section Arrays.
Context {T U : Type} (add : T → writer) (pop : reader U).

Lemma emits_elements (enc : T → list Z) l :
  (∀ x, x ∈ l → Emits (add x) (enc x)) → Emits (serialize (add <$> l)) (l ≫= enc).
Proof.
  induction l as [|x l IH]; intros H; [apply _|].
  cbn. apply emits_serialize_cons; [apply H, list_elem_of_here|].
  apply IH. intros y Hy. apply H. by apply list_elem_of_further.
Qed.

Lemma emits_addArray (enc : T → list Z) l :
  (∀ x, x ∈ l → Emits (add x) (enc x)) →
  Emits (addArray add l) (varint_bytes (zlen l) ++ (l ≫= enc)).
Proof.
  intros H. unfold addArray. eapply emits_bind; [apply _|by apply emits_elements].
Qed.

Lemma reads_popArray_loop (enc : T → list Z) (dec : T → U) l :
  (∀ x, x ∈ l → Reads pop (enc x) (dec x)) →
  Reads (popArray_loop pop (length l)) (l ≫= enc) (dec <$> l).
Proof.
  induction l as [|x l IH]; intros H; [apply reads_ret|].
  cbn. eapply reads_bind; [apply H, list_elem_of_here|].
  rewrite <- (app_nil_r (l ≫= enc)). eapply reads_bind; [|apply reads_ret].
  apply IH. intros y Hy. apply H. by apply list_elem_of_further.
Qed.

Lemma reads_popArray (enc : T → list Z) (dec : T → U) l :
  zlen l < 2 ^ 31 → (∀ x, x ∈ l → Reads pop (enc x) (dec x)) →
  Reads (popArray pop) (varint_bytes (zlen l) ++ (l ≫= enc)) (dec <$> l).
Proof.
  intros Hl H. unfold popArray. eapply reads_bind; [apply _|].
  unfold to_i32. rewrite wrap_s_id, Nat2Z.id by (unfold is_s; lia).
  by apply reads_popArray_loop.
Qed.
End Arrays.

(** ** Positions *)

Definition Position_in_wire_range (p : Position) : Prop :=
  is_s 26 (px p) ∧ is_s 26 (pz p) ∧ is_s 12 (py p).

Definition position_word (p : Position) : Z :=
  Z.lor (Z.lor (to_i64 (Z.shiftl (Z.land (px p) 0x3FFFFFF) 38))
               (to_i64 (Z.shiftl (Z.land (pz p) 0x3FFFFFF) 12)))
        (Z.land (py p) 0xFFF).

#[export] Instance emits_addPosition p : Emits (addPosition p) (be_bytes 8 (position_word p)).
Proof. apply emits_addLong. Qed.

Lemma testbit_signed n z i :
  0 < n → is_s n z → 0 ≤ i → Z.testbit z i = Z.testbit z (Z.min i (n - 1)).
Proof. intros Hn Hz Hi. rewrite <- (wrap_s_id n z) by done. rewrite !testbit_wrap_s by lia. f_equal. lia. Qed.

(** A field of [n] bits at offset [k] of a 64-bit word. *)
Lemma field_bits v n k i :
  0 ≤ n → 0 ≤ k → k + n ≤ 64 → 0 ≤ i →
  Z.testbit (to_i64 (Z.shiftl (Z.land v (Z.ones n)) k)) i =
    bool_decide (k ≤ Z.min i 63 < k + n) && Z.testbit v (Z.min i 63 - k).
Proof.
  intros. unfold to_i64. rewrite testbit_wrap_s, Z.shiftl_spec, Z.land_spec by lia.
  change (64 - 1) with 63. set (j := Z.min i 63).
  destruct (decide (0 ≤ j - k)).
  - rewrite testbit_ones by lia. rewrite andb_comm. f_equal.
    apply bool_decide_ext. lia.
  - rewrite !Z.testbit_neg_r by lia. by rewrite !andb_false_r.
Qed.

Lemma position_word_bits p i :
  0 ≤ i →
  Z.testbit (position_word p) i =
    let j := Z.min i 63 in
    if decide (38 ≤ j) then Z.testbit (px p) (j - 38)
    else if decide (12 ≤ j) then Z.testbit (pz p) (j - 12)
    else Z.testbit (py p) j.
Proof.
  intros Hi. unfold position_word.
  change 0x3FFFFFF with (Z.ones 26). change 0xFFF with (Z.ones 12).
  rewrite !Z.lor_spec, !field_bits, Z.land_spec, testbit_ones by lia. cbn zeta.
  destruct (decide (38 ≤ Z.min i 63)); [|destruct (decide (12 ≤ Z.min i 63))];
    repeat case_bool_decide; try lia; cbn; rewrite ?andb_false_r, ?andb_true_r, ?orb_false_r; try done.
  f_equal; lia.
Qed.

#[export] Instance reads_popPosition p :
  Position_in_wire_range p → Reads popPosition (be_bytes 8 (position_word p)) p.
Proof.
  intros (Hx & Hz & Hy). unfold popPosition.
  rewrite <- (app_nil_r (be_bytes 8 _)). eapply reads_bind; [apply _|].
  eapply reads_eq; [apply reads_ret|done|].
  destruct p as [x y z]; cbn [px py pz] in *. f_equal; apply Z.bits_inj'; intros i Hi.
  - rewrite (testbit_signed 26 x i) by (done || lia).
    rewrite Z.shiftr_spec by lia. unfold to_i64.
    rewrite testbit_wrap_s, position_word_bits by lia. cbn -[Z.testbit Z.min].
    rewrite decide_True by lia. f_equal. lia.
  - rewrite (testbit_signed 12 y i) by (done || lia).
    rewrite Z.shiftr_spec by lia. unfold to_i64.
    rewrite testbit_wrap_s, Z.shiftl_spec, testbit_wrap_s, position_word_bits by lia.
    cbn -[Z.testbit Z.min].
    rewrite decide_False, decide_False by lia. f_equal. lia.
  - rewrite (testbit_signed 26 z i) by (done || lia).
    rewrite Z.shiftr_spec by lia. unfold to_i64.
    rewrite testbit_wrap_s, Z.shiftl_spec, testbit_wrap_s, position_word_bits by lia.
    cbn -[Z.testbit Z.min].
    rewrite decide_False, decide_True by lia. f_equal. lia.
Qed.

(** ** Bit sets

    [popBitSet] reads one byte for eight bits; [1 >> i] is zero for every
    positive [i], so only the first bit of each byte can be set. *)

Lemma bitset_bits_spec byte n :
  bitset_bits byte n = (λ i, bool_decide (i = 0) && Z.testbit byte 0) <$> seqZ 0 n.
Proof.
  unfold bitset_bits. apply list_fmap_ext. intros k i Hk.
  apply lookup_seqZ in Hk as [-> Hk].
  destruct (decide (0 + Z.of_nat k = 0)) as [E|E].
  - rewrite E. rewrite Z.shiftr_0_r. change 1 with (Z.ones 1).
    rewrite Z.land_ones, Z.bit0_odd by lia. change (2 ^ 1) with 2.
    rewrite Zmod_odd. by destruct (Z.odd byte).
  - rewrite (bool_decide_false (0 + Z.of_nat k = 0)) by done.
    rewrite Z.shiftr_div_pow2, Z.div_small, Z.land_0_r by
      (try (split; [lia|]; apply Z.pow_gt_1); lia).
    done.
Qed.
