(* ===== verification/PrimarySafety.v ===== *)
(** * The primary readers on arbitrary input

    Every reader of popPrimaryType.hpp, given a cursor inside of the buffer
    and the address of its last byte, stays inside of the buffer, terminates,
    and never moves the cursor backwards. *)

From S2P Require Import Prelude Types Codec Structures Add Pop.

Lemma in_bounds_throw {A} buf at_ e (buf' : list Z) eof :
  is_runtime_error e = true → in_bounds buf at_ (@throw A e buf' eof at_).
Proof. done. Qed.

Lemma in_bounds_weaken {A} buf at1 at2 (r : result (A * Z)) :
  at1 ≤ at2 → in_bounds buf at2 r → in_bounds buf at1 r.
Proof. destruct r as [[]| | |]; cbn; try done. lia. Qed.

(** A guard on the number of bytes left, and what the reads after it see. *)
Ltac guarded :=
  apply safe_distance; intros buf eof at_ Hat Heof;
  match goal with |- context [decide (eof - at_ < ?k)] =>
    destruct (decide (eof - at_ < k)); [by apply in_bounds_throw|]
  end.

#[export] Instance safe_popByte : Safe popByte.
Proof.
  guarded. unfold next. destruct (peek_inside buf at_) as (b & -> & _); [lia|].
  cbn. lia.
Qed.

#[export] Instance safe_popBoolean : Safe popBoolean.
Proof. unfold popBoolean. apply safe_bind; [apply _|]. intros v. apply _. Qed.

#[export] Instance safe_popShort : Safe popShort.
Proof.
  guarded. apply in_bounds_next; [lia|]. intros hi.
  apply in_bounds_next; [lia|]. intros lo. apply in_bounds_ret. lia.
Qed.

Lemma in_bounds_pop_be_loop n wrap v buf eof at_ :
  0 ≤ at_ → at_ + Z.of_nat n ≤ zlen buf →
  in_bounds buf at_ (pop_be_loop n wrap v buf eof at_).
Proof.
  revert v at_. induction n as [|n IH]; intros v at_ H0 H; cbn [pop_be_loop].
  - apply in_bounds_ret. lia.
  - apply in_bounds_next; [lia|]. intros b. apply IH; lia.
Qed.

#[export] Instance safe_popInt : Safe popInt.
Proof. guarded. apply in_bounds_pop_be_loop; lia. Qed.
#[export] Instance safe_popLong : Safe popLong.
Proof. guarded. apply in_bounds_pop_be_loop; lia. Qed.

Lemma safe_popVar_loop fuel width wrap v position :
  fuel ≠ O → width ≤ position + 7 * Z.of_nat fuel →
  Safe (popVar_loop fuel width wrap v position).
Proof.
  revert v position. induction fuel as [|fuel IH]; intros v position Hn Hf; [done|].
  cbn [popVar_loop]. guarded.
  apply in_bounds_next; [lia|]. intros b. cbn zeta.
  case_decide; [apply in_bounds_ret; lia|].
  case_decide; [done|].
  apply IH; [|lia..]. intros ->. lia.
Qed.

#[export] Instance safe_popVarInt : Safe popVarInt.
Proof. by apply safe_popVar_loop. Qed.
#[export] Instance safe_popVarLong : Safe popVarLong.
Proof. by apply safe_popVar_loop. Qed.

#[export] Instance safe_popFloat : Safe popFloat.
Proof.
  guarded. apply in_bounds_next_n; [lia..|]. intros bs Hbs. apply in_bounds_ret. lia.
Qed.
#[export] Instance safe_popDouble : Safe popDouble.
Proof.
  guarded. apply in_bounds_next_n; [lia..|]. intros bs Hbs. apply in_bounds_ret. lia.
Qed.

#[export] Instance safe_popString : Safe popString.
Proof.
  unfold popString. apply safe_bind; [apply _|]. intros size.
  apply safe_distance; intros buf eof at_ Hat Heof.
  destruct (decide (eof - at_ + 1 < size)); [done|].
  destruct (decide (size < 0)); [done|].
  apply in_bounds_next_n; [lia..|]. intros bs Hbs. apply in_bounds_ret. lia.
Qed.
#[export] Instance safe_popChat : Safe popChat.
Proof. apply safe_popString. Qed.

#[export] Instance safe_popSlot : Safe popSlot.
Proof.
  unfold popSlot. apply safe_bind; [apply _|]. intros p. apply safe_if; [|apply _].
  do 3 (apply safe_bind; [apply _|]; intros). apply _.
Qed.

#[export] Instance safe_popUUID : Safe popUUID.
Proof.
  apply safe_distance; intros buf eof at_ Hat Heof.
  destruct (decide (eof - at_ < 15)); [done|].
  assert (Safe (m ← popLong; l ← popLong; mret (mk_u128 (to_u64 m) (to_u64 l)))) as S.
  { do 2 (apply safe_bind; [apply _|]; intros). apply _. }
  by apply S.
Qed.

Lemma safe_popArray_loop {T} (pop : reader T) n : Safe pop → Safe (popArray_loop pop n).
Proof.
  intros Hp. induction n as [|n IH]; cbn [popArray_loop]; [apply _|].
  do 2 (apply safe_bind; [apply _|]; intros). apply _.
Qed.

#[export] Instance safe_popArray {T} (pop : reader T) : Safe pop → Safe (popArray pop).
Proof.
  intros. unfold popArray. apply safe_bind; [apply _|]. intros. by apply safe_popArray_loop.
Qed.

#[export] Instance safe_popPosition : Safe popPosition.
Proof. unfold popPosition. apply safe_bind; [apply _|]. intros. apply _. Qed.

Lemma safe_popBitSet_loop fuel bit size :
  0 ≤ size - bit ≤ 8 * Z.of_nat fuel → Safe (popBitSet_loop fuel bit size).
Proof.
  revert bit. induction fuel as [|fuel IH]; intros bit H; cbn [popBitSet_loop].
  - rewrite decide_True by lia. apply _.
  - destruct (decide (size ≤ bit)); [apply _|].
    apply safe_bind; [apply _|]. intros byte. cbn zeta.
    apply safe_bind; [|intros; apply _].
    destruct (decide (size ≤ bit + 8)).
    + destruct fuel; cbn [popBitSet_loop]; rewrite decide_True by lia; apply _.
    + apply IH. lia.
Qed.

#[export] Instance safe_popBitSet size : Safe (popBitSet size).
Proof.
  unfold popBitSet. apply safe_popBitSet_loop.
  pose proof (Nat.div_mod_eq size 8). pose proof (Nat.mod_upper_bound size 8 ltac:(done)). lia.
Qed.

(** What a whole-buffer parse can end in. *)
Definition parse_outcome_ok {A} (r : result A) : Prop :=
  match r with
  | Ok _ => True
  | Throw e => is_runtime_error e = true
  | UB k => k = InvalidRange
  | OutOfFuel => False
  end.

Lemma run_reader_safe {A} (p : reader A) buf : Safe p → parse_outcome_ok (run_reader p buf).
Proof.
  intros Hp. specialize (Hp buf (zlen buf - 1) 0 ltac:(lia) ltac:(lia)).
  unfold run_reader. by destruct (p buf (zlen buf - 1) 0) as [[]| | |].
Qed.
