(* ===== verification/RoundTrip.v ===== *)
(** * Round trips

    [RT w p a]: some bytes are both what the writer [w] appends and what the
    reader [p] turns into [a].  The relation composes field by field along
    [serialize] and the binds of a parser, so that the round trip of a packet
    is found by proof search in the hint database [rt]. *)

From S2P Require Import Prelude Types Codec Structures Add Pop PrimaryLaws CompositeLaws.

Definition RT {A} (w : writer) (p : reader A) (a : A) : Prop :=
  ∃ bs, Emits w bs ∧ Reads p bs a.

(** ** Composition *)

Lemma rt_ret {A} (a b : A) : a = b → RT (serialize []) (mret a) b.
Proof. intros ->. exists []. split; [apply _|apply reads_ret]. Qed.

Lemma rt_cons {A B} w ws (p : reader A) (f : A → reader B) a b :
  RT w p a → RT (serialize ws) (f a) b → RT (serialize (w :: ws)) (p ≫= f) b.
Proof.
  intros (bs & Hw & Hp) (bs' & Hws & Hf). exists (bs ++ bs').
  split; [by apply emits_serialize_cons|by eapply reads_bind].
Qed.

Lemma rt_skip {A B} w (a : A) (f : A → reader B) b : RT w (f a) b → RT w (mret a ≫= f) b.
Proof.
  intros (bs & Hw & Hp). exists bs. split; [done|]. rewrite <- (app_nil_l bs). by eapply reads_bind; [apply reads_ret|].
Qed.

Lemma rt_bind_ret {A B} w (p : reader A) (f : A → B) a b :
  RT w p a → f a = b → RT w (x ← p; mret (f x)) b.
Proof.
  intros (bs & Hw & Hp) <-. exists bs. split; [done|].
  rewrite <- (app_nil_r bs). by eapply reads_bind, reads_ret.
Qed.

Lemma rt_when {A} (b : bool) w (p : reader A) a d :
  (if b then RT w p a else a = d) → RT (when b w) (if b then p else mret d) a.
Proof. destruct b; cbn; [done|]. intros ->. by apply rt_ret. Qed.

Lemma rt_when_decide {A} P `{Decision P} w (p : reader A) a d :
  (if bool_decide P then RT w p a else a = d) →
  RT (when (bool_decide P) w) (if decide P then p else mret d) a.
Proof. case_bool_decide; [by rewrite decide_True|]. rewrite decide_False by done.
  intros ->. by apply rt_ret. Qed.

Lemma rt_run {A} w (p : reader A) a post :
  RT w p a → ∃ bs, w [] = Ok bs ∧ run_reader p (bs ++ post) = Ok a.
Proof.
  intros (bs & Hw & Hp). exists bs.
  split; [by apply emits_nil|by apply run_reader_reads].
Qed.

(** ** Primary types *)

Lemma rt_VarInt v : is_s 32 v → RT (addVarInt v) popVarInt v.
Proof.
  intros. exists (varint_bytes v). split; [apply _|].
  eapply reads_eq; [apply _|done|]. by apply wrap_s_id.
Qed.
Lemma rt_VarLong v : is_s 64 v → RT (addVarLong v) popVarLong v.
Proof.
  intros. exists (varlong_bytes v). split; [apply _|].
  eapply reads_eq; [apply _|done|]. by apply wrap_s_id.
Qed.
Lemma rt_Int v : is_s 32 v → RT (addInt v) popInt v.
Proof.
  intros. exists (be_bytes 4 v). split; [apply _|].
  eapply reads_eq; [apply _|done|]. by apply wrap_s_id.
Qed.
Lemma rt_Long v : is_s 64 v → RT (addLong v) popLong v.
Proof.
  intros. exists (be_bytes 8 v). split; [apply _|].
  eapply reads_eq; [apply _|done|]. by apply wrap_s_id.
Qed.
(** [popShort] returns the unsigned value; a field of type [int16_t] converts
    it back. *)
Lemma rt_Short v : RT (addShort v) popShort (to_u16 v).
Proof. exists (be_bytes 2 v). split; apply _. Qed.
Lemma rt_UShort v : is_u 16 v → RT (addUShort v) popShort v.
Proof.
  intros. exists (be_bytes 2 v). split; [apply _|].
  eapply reads_eq; [apply _|done|]. by apply wrap_u_id.
Qed.
Lemma rt_Byte v : is_u 8 v → RT (addByte v) popByte v.
Proof.
  intros. exists [to_u8 v]. split; [apply _|].
  eapply reads_eq; [apply _|done|]. by apply wrap_u_id.
Qed.
Lemma rt_SByte v : RT (addByte v) popByte (to_u8 v).
Proof. exists [to_u8 v]. split; apply _. Qed.
Lemma rt_Boolean b : RT (addBoolean b) popBoolean b.
Proof. eexists. split; [apply emits_addBoolean|apply reads_popBoolean_bit]. Qed.
Lemma rt_Float v : is_u 32 v → RT (addFloat v) popFloat v.
Proof.
  intros. eexists. split; [apply _|].
  eapply reads_eq; [apply _|done|]. by apply wrap_u_id.
Qed.
Lemma rt_Double v : is_u 64 v → RT (addDouble v) popDouble v.
Proof.
  intros. eexists. split; [apply _|].
  eapply reads_eq; [apply _|done|]. by apply wrap_u_id.
Qed.
Lemma rt_UUID u : u128_wf u → RT (addUUID u) popUUID u.
Proof.
  intros [? ?]. eexists. split; [apply _|].
  eapply reads_eq; [apply _|done|]. destruct u as [m l]; cbn in *.
  f_equal; by apply wrap_u_id.
Qed.
Lemma rt_Position p : Position_in_wire_range p → RT (addPosition p) popPosition p.
Proof. intros. eexists. split; [apply _|by apply reads_popPosition]. Qed.

(** ** Strings, slots, arrays *)

Definition string_fits (s : string) : Prop := string_size s ≤ MAX_STRING_SIZE.

Lemma rt_String s : string_fits s → RT (addString s) popString s.
Proof.
  intros H. unfold string_fits, MAX_STRING_SIZE in H. exists (string_wire s).
  split; [by apply emits_addString|apply reads_popString; lia].
Qed.

Definition chat_fits (s : string) : Prop := string_size s ≤ MAX_CHAT_SIZE.

Lemma rt_Chat s : chat_fits s → RT (addChat s) popChat s.
Proof.
  intros H. unfold chat_fits, MAX_CHAT_SIZE in H. exists (string_wire s).
  split; [by apply emits_addChat|apply reads_popString; lia].
Qed.
Lemma rt_Identifier s : string_fits s → RT (addIdentifier s) popString s.
Proof. apply rt_String. Qed.

(** A slot a client can name: absent slots carry no item. *)
Definition slot_canonical (s : Slot) : Prop :=
  Slot_wf s ∧ (present s = false → s = Slot_default).

Lemma rt_Slot s : slot_canonical s → RT (addSlot s) popSlot s.
Proof.
  intros [Hw Ha]. exists (slot_wire s). split; [apply _|].
  eapply reads_eq; [apply _|done|by apply slot_sent_id].
Qed.

Definition array_of {T} (P : T → Prop) (l : list T) : Prop := zlen l < 2 ^ 31 ∧ Forall P l.

Lemma rt_Array {T} (add : T → writer) (pop : reader T) (P : T → Prop) l :
  (∀ x, P x → RT (add x) pop x) → array_of P l → RT (addArray add l) (popArray pop) l.
Proof.
  intros HP [Hl HF].
  assert (RT (serialize (add <$> l)) (popArray_loop pop (length l)) l) as (bs & He & Hr).
  { clear Hl. induction HF as [|x l Hx HF IH]; [by apply rt_ret|].
    cbn. eapply rt_cons; [by apply HP|]. destruct IH as (bs & He & Hr).
    exists bs. split; [done|]. rewrite <- (app_nil_r bs).
    eapply reads_bind; [done|apply reads_ret]. }
  exists (varint_bytes (zlen l) ++ bs). split.
  - unfold addArray. eapply emits_bind; [apply _|done].
  - unfold popArray. eapply reads_bind; [apply _|].
    unfold to_i32. rewrite wrap_s_id, Nat2Z.id by (unfold is_s; lia). done.
Qed.

(** ** Bit sets

    The bytes of a bit set, bit [8 k + i] being bit [i] of byte [k]. *)

Definition byte_of_bits (bits : list bool) : Z :=
  foldr (λ b acc, Z.b2z b + 2 * acc) 0 bits.

Fixpoint bitset_bytes (fuel : nat) (bits : list bool) : list Z :=
  match fuel, bits with
  | _, [] | O, _ => []
  | S fuel, _ => byte_of_bits (take 8 bits) :: bitset_bytes fuel (drop 8 bits)
  end.

Definition put_bitset (bits : list bool) : writer :=
  serialize (push_back <$> bitset_bytes (length bits) bits).

(** What [popBitSet] makes of them. *)
Definition bits_kept (bits : list bool) : list bool :=
  imap (λ i b, bool_decide ((i `mod` 8)%nat = O) && b) bits.

Lemma bits_kept_chunk bits : bits_kept bits = bits_kept (take 8 bits) ++ bits_kept (drop 8 bits).
Proof.
  unfold bits_kept. destruct (decide (8 ≤ length bits)%nat).
  - rewrite <- (take_drop 8 bits) at 1. rewrite imap_app. f_equal.
    apply imap_ext. intros i b _. rewrite length_take_le by lia. cbn beta.
    replace ((8 + i) `mod` 8)%nat with (i `mod` 8)%nat; [done|].
    replace (8 + i)%nat with (i + 1 * 8)%nat by lia. by rewrite Nat.Div0.mod_add.
  - rewrite take_ge, drop_ge by lia. cbn. by rewrite app_nil_r.
Qed.

Lemma byte_of_bits_range n bits : (length bits ≤ n)%nat → is_u (Z.of_nat n) (byte_of_bits bits).
Proof.
  revert n. induction bits as [|b bits IH]; intros n Hn.
  - change (byte_of_bits []) with 0. unfold is_u. pose proof (Z.pow_pos_nonneg 2 (Z.of_nat n)). lia.
  - destruct n as [|n]; cbn in Hn; [lia|]. specialize (IH n ltac:(lia)). unfold is_u in *.
    change (byte_of_bits (b :: bits)) with (Z.b2z b + 2 * byte_of_bits bits).
    rewrite Nat2Z.inj_succ, Z.pow_succ_r by lia. destruct b; unfold Z.b2z; lia.
Qed.

Lemma byte_of_bits_odd b bits : Z.testbit (byte_of_bits (b :: bits)) 0 = b.
Proof.
  rewrite Z.bit0_odd. cbn [byte_of_bits foldr].
  rewrite Z.odd_add_mul_2. by destruct b.
Qed.

Lemma bitset_bits_chunk bits :
  (0 < length bits ≤ 8)%nat → bitset_bits (byte_of_bits bits) (zlen bits) = bits_kept bits.
Proof.
  intros H. rewrite bitset_bits_spec. destruct bits as [|b bits]; [cbn in H; lia|].
  rewrite byte_of_bits_odd.
  apply list_eq. intros i. unfold bits_kept. rewrite list_lookup_fmap, list_lookup_imap.
  destruct ((b :: bits) !! i) as [c|] eqn:E.
  - pose proof (lookup_lt_Some _ _ _ E) as Hi.
    rewrite lookup_seqZ_lt by lia. cbn [fmap option_fmap option_map]. f_equal.
    rewrite Nat.mod_small by lia. destruct i as [|i]; [|by rewrite !bool_decide_false by lia].
    cbn in E. by simplify_eq.
  - apply lookup_ge_None_1 in E. rewrite lookup_seqZ_ge by lia. done.
Qed.

Lemma reads_popBitSet_step fuel bit size b bs rest :
  bit < size → Reads (popBitSet_loop fuel (bit + 8) size) bs rest →
  Reads (popBitSet_loop (S fuel) bit size) (b :: bs)
    (bitset_bits b (Z.min 8 (size - bit)) ++ rest).
Proof.
  intros Hb Hr. cbn [popBitSet_loop]. rewrite decide_False by lia.
  apply (reads_bind _ _ [b] bs b); [apply _|]. cbn zeta.
  rewrite <- (app_nil_r bs). eapply reads_bind; [done|apply reads_ret].
Qed.

Lemma reads_popBitSet_done fuel bit size : size ≤ bit → Reads (popBitSet_loop fuel bit size) [] [].
Proof. intros. destruct fuel; cbn [popBitSet_loop]; rewrite decide_True by lia; apply reads_ret. Qed.

Lemma reads_popBitSet_loop fuel bit size bits :
  Z.of_nat (length bits) = size - bit → (length bits ≤ 8 * fuel)%nat →
  Reads (popBitSet_loop fuel bit size) (bitset_bytes fuel bits) (bits_kept bits).
Proof.
  revert bit bits. induction fuel as [|fuel IH]; intros bit bits Hs Hf.
  - destruct bits; cbn in Hf; [|lia]. apply reads_popBitSet_done. cbn in Hs. lia.
  - destruct bits as [|b bits]; cbn [bitset_bytes].
    { apply reads_popBitSet_done. cbn in Hs. lia. }
    set (l := b :: bits) in *. assert (0 < length l)%nat by (cbn; lia).
    rewrite bits_kept_chunk, <- bitset_bits_chunk by (rewrite length_take; lia).
    replace (zlen (take 8 l)) with (Z.min 8 (size - bit)) by (rewrite length_take; lia).
    apply reads_popBitSet_step; [lia|].
    destruct (decide (8 ≤ length l)%nat).
    + apply IH; rewrite length_drop; lia.
    + rewrite drop_ge by lia.
      replace (bitset_bytes fuel []) with (@nil Z) by (by destruct fuel).
      apply reads_popBitSet_done. lia.
Qed.

Lemma bitset_bytes_fuel fuel fuel' bits :
  (length bits ≤ 8 * fuel)%nat → (length bits ≤ 8 * fuel')%nat →
  bitset_bytes fuel bits = bitset_bytes fuel' bits.
Proof.
  revert fuel' bits. induction fuel as [|fuel IH]; intros [|fuel'] [|b bits] H H'; try (cbn in *; lia || done).
  cbn [bitset_bytes]. f_equal. apply IH; rewrite length_drop; lia.
Qed.

Lemma emits_put_bitset bits : Emits (put_bitset bits) (bitset_bytes (length bits) bits).
Proof.
  unfold put_bitset. generalize (length bits) as fuel. intros fuel. revert bits.
  induction fuel as [|fuel IH]; intros [|b bits]; cbn [bitset_bytes fmap list_fmap]; try apply _.
  apply (emits_serialize_cons _ _ [_]); [|apply IH].
  eapply emits_eq; [apply emits_push_back|]. f_equal.
  apply wrap_u_id, (byte_of_bits_range 8). rewrite length_take. lia.
Qed.

Lemma rt_BitSet_kept n bits :
  length bits = n → RT (put_bitset bits) (popBitSet n) (bits_kept bits).
Proof.
  intros <-. exists (bitset_bytes (length bits) bits). split; [apply emits_put_bitset|].
  unfold popBitSet. pose proof (Nat.div_mod_eq (length bits) 8).
  pose proof (Nat.mod_upper_bound (length bits) 8 ltac:(done)).
  rewrite (bitset_bytes_fuel _ (S (length bits / 8))) by lia.
  apply reads_popBitSet_loop; lia.
Qed.

Lemma reads_popBitSet_20 b0 b1 b2 :
  Reads (popBitSet 20) [b0; b1; b2] (bitset_bits b0 8 ++ bitset_bits b1 8 ++ bitset_bits b2 4).
Proof.
  rewrite <- (app_nil_r (bitset_bits b2 4)). unfold popBitSet. do 3 (apply reads_popBitSet_step; [done|]).
  by apply reads_popBitSet_done.
Qed.

(** ** Search *)

Create HintDb rt discriminated.
#[export] Hint Opaque addByte addBoolean addShort addUShort push_be addInt addLong addVarInt
  addVarLong addFloat addDouble addString addChat addIdentifier addSlot addUUID addArray addPosition
  popByte popBoolean popShort popInt popLong popVarInt popVarLong popFloat popDouble popString
  popChat popSlot popUUID popPosition popArray popBitSet : rt.
#[export] Hint Resolve rt_VarInt rt_VarLong rt_Int rt_Long rt_UShort rt_Short rt_Byte rt_SByte
  rt_Boolean rt_Float rt_Double rt_UUID rt_Position rt_String rt_Chat rt_Identifier
  rt_Slot rt_BitSet_kept : rt.
#[export] Hint Extern 3 (RT (addArray _ _) (popArray _) _) =>
  eapply rt_Array; [|eassumption] : rt.

Lemma to_i16_u16 v : is_s 16 v → to_i16 (to_u16 v) = v.
Proof. intros. unfold to_i16, to_u16. rewrite wrap_s_wrap_u by lia. by apply wrap_s_id. Qed.
Lemma to_i8_u8 v : is_s 8 v → to_i8 (to_u8 v) = v.
Proof. intros. unfold to_i8, to_u8. rewrite wrap_s_wrap_u by lia. by apply wrap_s_id. Qed.

(** Along the fields of a structure; then the record is put together again. *)
Ltac rt_fields :=
  repeat (eapply rt_cons; [solve [eauto 6 with rt]|cbn beta]); apply rt_ret.
Ltac rt_record p :=
  destruct p; first [reflexivity|idtac]; cbn in *; try done; simplify_eq; f_equal;
  auto using to_i16_u16, to_i8_u8, to_u8_id.

Lemma rt_byte_array l : array_of is_byte l → RT (addArray addByte l) (popArray popByte) l.
Proof. apply rt_Array, rt_Byte. Qed.
#[export] Hint Resolve rt_byte_array : rt.

#[export] Hint Extern 4 (RT (when (bool_decide ?P) _) _ _) =>
  apply rt_when_decide; destruct (bool_decide P); destruct_and? : rt.
#[export] Hint Extern 5 (RT (when ?b _) _ _) => apply rt_when; destruct b : rt.
#[export] Hint Extern 6 (RT (serialize _) _ _) => rt_fields; reflexivity : rt.
