(* ===== verification/ServerPackets.v ===== *)
(** * The packets a client sends (protocol/ServerPackets.hpp, ServerPackets.cpp)

    One record per packet structure, with the fields of the structure (an
    enumeration is the integer of its underlying type, [float] and [double]
    are the bits that hold them), one function per parser, and the four tables
    that dispatch on the packet identifier.  [parse] reads the fields in turn;
    a field a parser does not read keeps the zero of [std::make_unique]. *)

From S2P Require Import Prelude Types Codec Structures Add Pop.

(** ** Packet identifiers *)

Definition ServerPacketsID_Handshake : Z := 0x00.
Definition ServerPacketsID_StatusRequest : Z := 0x00.
Definition ServerPacketsID_PingRequest : Z := 0x01.
Definition ServerPacketsID_LoginStart : Z := 0x00.
Definition ServerPacketsID_EncryptionResponse : Z := 0x01.
Definition ServerPacketsID_ConfirmTeleportation : Z := 0x00.
Definition ServerPacketsID_QueryBlockEntityTag : Z := 0x01.
Definition ServerPacketsID_ChangeDifficulty : Z := 0x02.
Definition ServerPacketsID_MessageAcknowledgement : Z := 0x03.
Definition ServerPacketsID_ChatCommand : Z := 0x04.
Definition ServerPacketsID_ChatMessage : Z := 0x05.
Definition ServerPacketsID_ClientCommand : Z := 0x06.
Definition ServerPacketsID_ClientInformation : Z := 0x07.
Definition ServerPacketsID_CommandSuggestionRequest : Z := 0x08.
Definition ServerPacketsID_ClickContainerButton : Z := 0x09.
Definition ServerPacketsID_ClickContainer : Z := 0x0a.
Definition ServerPacketsID_CloseContainerRequest : Z := 0x0b.
Definition ServerPacketsID_PluginMessage : Z := 0x0c.
Definition ServerPacketsID_EditBook : Z := 0x0d.
Definition ServerPacketsID_QueryEntityTag : Z := 0x0e.
Definition ServerPacketsID_Interact : Z := 0x0f.
Definition ServerPacketsID_JigsawGenerate : Z := 0x10.
Definition ServerPacketsID_KeepAliveResponse : Z := 0x11.
Definition ServerPacketsID_LockDifficulty : Z := 0x12.
Definition ServerPacketsID_SetPlayerPosition : Z := 0x13.
Definition ServerPacketsID_SetPlayerPositionAndRotation : Z := 0x14.
Definition ServerPacketsID_SetPlayerRotation : Z := 0x15.
Definition ServerPacketsID_SetPlayerOnGround : Z := 0x16.
Definition ServerPacketsID_MoveVehicle : Z := 0x17.
Definition ServerPacketsID_PaddleBoat : Z := 0x18.
Definition ServerPacketsID_PickItem : Z := 0x19.
Definition ServerPacketsID_PlaceRecipe : Z := 0x1a.
Definition ServerPacketsID_PlayerAbilities : Z := 0x1b.
Definition ServerPacketsID_PlayerAction : Z := 0x1c.
Definition ServerPacketsID_PlayerCommand : Z := 0x1d.
Definition ServerPacketsID_PlayerInput : Z := 0x1e.
Definition ServerPacketsID_Pong : Z := 0x1f.
Definition ServerPacketsID_PlayerSession : Z := 0x20.
Definition ServerPacketsID_ChangeRecipeBookSettings : Z := 0x21.
Definition ServerPacketsID_SetSeenRecipe : Z := 0x22.
Definition ServerPacketsID_RenameItem : Z := 0x23.
Definition ServerPacketsID_ResourcePack : Z := 0x24.
Definition ServerPacketsID_SeenAdvancements : Z := 0x25.
Definition ServerPacketsID_SelectTrade : Z := 0x26.
Definition ServerPacketsID_SetBeaconEffect : Z := 0x27.
Definition ServerPacketsID_SetHeldItem : Z := 0x28.
Definition ServerPacketsID_ProgramCommandBlock : Z := 0x29.
Definition ServerPacketsID_ProgramCommandBlockMinecart : Z := 0x2a.
Definition ServerPacketsID_SetCreativeModeSlot : Z := 0x2b.
Definition ServerPacketsID_ProgramJigsawBlock : Z := 0x2c.
Definition ServerPacketsID_ProgramStructureBlock : Z := 0x2d.
Definition ServerPacketsID_UpdateSign : Z := 0x2e.
Definition ServerPacketsID_SwingArm : Z := 0x2f.
Definition ServerPacketsID_TeleportToEntity : Z := 0x30.
Definition ServerPacketsID_UseItemOn : Z := 0x31.
Definition ServerPacketsID_UseItem : Z := 0x32.

(** ** Packets *)

Definition u128_default : u128 := mk_u128 0 0.

Record Handshake : Type := mk_Handshake {
  Handshake_protVersion : Z;
  Handshake_addr : string;
  Handshake_port : Z;
  Handshake_nextState : Z
}.

Definition parseHandshake (buffer : list Z) : result Handshake := run_reader (
  protVersion ← popVarInt; addr ← popString; port ← popShort; nextState ← popVarInt;
  mret (mk_Handshake protVersion addr port nextState)) buffer.

Record StatusRequest : Type := mk_StatusRequest { }.

(** [return {};]: a null pointer, whatever the buffer holds. *)
Definition parseStatusRequest (buffer : list Z) : result (option StatusRequest) := Ok None.

Record PingRequest : Type := mk_PingRequest {
  PingRequest_payload : Z
}.

Definition parsePingRequest (buffer : list Z) : result PingRequest := run_reader (
  payload ← popLong;
  mret (mk_PingRequest payload)) buffer.

Record LoginStart : Type := mk_LoginStart {
  LoginStart_name : string;
  LoginStart_hasPlayerUuid : bool;
  LoginStart_playerUuid : u128
}.

Definition parseLoginStart (buffer : list Z) : result LoginStart := run_reader (
  name ← popString; hasPlayerUuid ← popBoolean;
  playerUuid ← (if hasPlayerUuid : bool then popUUID else mret u128_default);
  mret (mk_LoginStart name hasPlayerUuid playerUuid)) buffer.

Record EncryptionResponse : Type := mk_EncryptionResponse {
  EncryptionResponse_sharedSecret : list Z;
  EncryptionResponse_verifyToken : list Z
}.

Definition parseEncryptionResponse (buffer : list Z) : result EncryptionResponse := run_reader (
  sharedSecret ← popArray popByte; verifyToken ← popArray popByte;
  mret (mk_EncryptionResponse sharedSecret verifyToken)) buffer.

Record ConfirmTeleportation : Type := mk_ConfirmTeleportation {
  ConfirmTeleportation_teleportId : Z
}.

Definition parseConfirmTeleportation (buffer : list Z) : result ConfirmTeleportation := run_reader (
  teleportId ← popVarInt;
  mret (mk_ConfirmTeleportation teleportId)) buffer.

Record QueryBlockEntityTag : Type := mk_QueryBlockEntityTag {
  QueryBlockEntityTag_transactionId : Z;
  QueryBlockEntityTag_location : Position
}.

Definition parseQueryBlockEntityTag (buffer : list Z) : result QueryBlockEntityTag := run_reader (
  transactionId ← popVarInt; location ← popPosition;
  mret (mk_QueryBlockEntityTag transactionId location)) buffer.

Record ChangeDifficulty : Type := mk_ChangeDifficulty {
  ChangeDifficulty_newDifficulty : Z
}.

Definition parseChangeDifficulty (buffer : list Z) : result ChangeDifficulty := run_reader (
  newDifficulty ← popByte;
  mret (mk_ChangeDifficulty newDifficulty)) buffer.

Record MessageAcknowledgement : Type := mk_MessageAcknowledgement {
  MessageAcknowledgement_messageCount : Z
}.

Definition parseMessageAcknowledgement (buffer : list Z) : result MessageAcknowledgement := run_reader (
  messageCount ← popVarInt;
  mret (mk_MessageAcknowledgement messageCount)) buffer.

Record ChatCommand_ArgumentSignature : Type := mk_ChatCommand_ArgumentSignature {
  ChatCommand_ArgumentSignature_argument : string;
  ChatCommand_ArgumentSignature_signature : list Z
}.

Definition popArgumentSignature : reader ChatCommand_ArgumentSignature :=
  argument ← popString; signature ← popArray popByte;
  mret (mk_ChatCommand_ArgumentSignature argument signature).

Record ChatCommand : Type := mk_ChatCommand {
  ChatCommand_command : string;
  ChatCommand_timestamp : Z;
  ChatCommand_salt : Z;
  ChatCommand_argumentSignatures : list ChatCommand_ArgumentSignature;
  ChatCommand_messageCount : Z;
  ChatCommand_acknowledged : list bool
}.

Definition parseChatCommand (buffer : list Z) : result ChatCommand := run_reader (
  command ← popString; timestamp ← popLong; salt ← popLong;
  argumentSignatures ← popArray popArgumentSignature; messageCount ← popVarInt;
  acknowledged ← popBitSet 20;
  mret (mk_ChatCommand command timestamp salt argumentSignatures messageCount acknowledged)) buffer.

Record ChatMessage : Type := mk_ChatMessage {
  ChatMessage_message : string;
  ChatMessage_timestamp : Z;
  ChatMessage_salt : Z;
  ChatMessage_isSigned : bool;
  ChatMessage_signature : list Z;
  ChatMessage_messageCount : Z;
  ChatMessage_acknowledged : list bool
}.

Definition parseChatMessage (buffer : list Z) : result ChatMessage := run_reader (
  message ← popString; timestamp ← popLong; salt ← popLong; isSigned ← popBoolean;
  signature ← (if isSigned : bool then popArray popByte else mret []);
  acknowledged ← popBitSet 20;
  mret (mk_ChatMessage message timestamp salt isSigned signature 0 acknowledged)) buffer.

Record ClientCommand : Type := mk_ClientCommand {
  ClientCommand_actionId : Z
}.

Definition parseClientCommand (buffer : list Z) : result ClientCommand := run_reader (
  actionId ← popVarInt;
  mret (mk_ClientCommand actionId)) buffer.

Record ClientInformation : Type := mk_ClientInformation {
  ClientInformation_locale : string;
  ClientInformation_viewDistance : Z;
  ClientInformation_chatMode : Z;
  ClientInformation_chatColors : bool;
  ClientInformation_displayedSkinParts : Z;
  ClientInformation_mainHand : Z;
  ClientInformation_enableTextFiltering : bool;
  ClientInformation_allowServerListings : bool
}.

Definition parseClientInformation (buffer : list Z) : result ClientInformation := run_reader (
  locale ← popString; viewDistance ← popByte; chatMode ← popVarInt; chatColors ← popBoolean;
  displayedSkinParts ← popByte; mainHand ← popVarInt; enableTextFiltering ← popBoolean;
  allowServerListings ← popBoolean;
  mret (mk_ClientInformation locale viewDistance chatMode chatColors displayedSkinParts
         mainHand enableTextFiltering allowServerListings)) buffer.

Record CommandSuggestionRequest : Type := mk_CommandSuggestionRequest {
  CommandSuggestionRequest_transactionId : Z;
  CommandSuggestionRequest_text : string
}.

Definition parseCommandSuggestionRequest (buffer : list Z) : result CommandSuggestionRequest := run_reader (
  transactionId ← popVarInt; text ← popString;
  mret (mk_CommandSuggestionRequest transactionId text)) buffer.

Record ClickContainerButton : Type := mk_ClickContainerButton {
  ClickContainerButton_windowId : Z;
  ClickContainerButton_buttonId : Z
}.

Definition parseClickContainerButton (buffer : list Z) : result ClickContainerButton := run_reader (
  windowId ← popByte; buttonId ← popByte;
  mret (mk_ClickContainerButton windowId buttonId)) buffer.

Record ClickContainer_SlotWithIndex : Type := mk_ClickContainer_SlotWithIndex {
  ClickContainer_SlotWithIndex_slotNumber : Z;
  ClickContainer_SlotWithIndex_slotData : Slot
}.

Definition popSlotWithIndex : reader ClickContainer_SlotWithIndex :=
  slotNumber ← popShort; slotData ← popSlot;
  mret (mk_ClickContainer_SlotWithIndex (to_i16 slotNumber) slotData).

Record ClickContainer : Type := mk_ClickContainer {
  ClickContainer_windowId : Z;
  ClickContainer_stateId : Z;
  ClickContainer_slot : Z;
  ClickContainer_button : Z;
  ClickContainer_mode : Z;
  ClickContainer_arrayOfSlots : list ClickContainer_SlotWithIndex;
  ClickContainer_carriedItem : Slot
}.

Definition parseClickContainer (buffer : list Z) : result ClickContainer := run_reader (
  windowId ← popByte; stateId ← popVarInt; slot ← popShort; button ← popByte;
  mode ← popVarInt; arrayOfSlots ← popArray popSlotWithIndex; carriedItem ← popSlot;
  mret (mk_ClickContainer windowId stateId (to_i16 slot) (to_i8 button) mode arrayOfSlots
         carriedItem)) buffer.

Record CloseContainerRequest : Type := mk_CloseContainerRequest {
  CloseContainerRequest_windowId : Z
}.

Definition parseCloseContainerRequest (buffer : list Z) : result CloseContainerRequest := run_reader (
  windowId ← popByte;
  mret (mk_CloseContainerRequest windowId)) buffer.

Record PluginMessage : Type := mk_PluginMessage {
  PluginMessage_channel : string;
  PluginMessage_data : list Z
}.

Definition parsePluginMessage (buffer : list Z) : result PluginMessage := run_reader (
  channel ← popString;
  mret (mk_PluginMessage channel [])) buffer.

Record EditBook : Type := mk_EditBook {
  EditBook_slot : Z;
  EditBook_entries : list string;
  EditBook_hasTitle : bool;
  EditBook_title : string
}.

Definition parseEditBook (buffer : list Z) : result EditBook := run_reader (
  slot ← popVarInt; entries ← popArray popString; hasTitle ← popBoolean;
  title ← (if hasTitle : bool then popString else mret String.EmptyString);
  mret (mk_EditBook slot entries hasTitle title)) buffer.

Record QueryEntityTag : Type := mk_QueryEntityTag {
  QueryEntityTag_transactionId : Z;
  QueryEntityTag_entityId : Z
}.

Definition parseQueryEntityTag (buffer : list Z) : result QueryEntityTag := run_reader (
  transactionId ← popVarInt; entityId ← popVarInt;
  mret (mk_QueryEntityTag transactionId entityId)) buffer.

Record Interact : Type := mk_Interact {
  Interact_entityId : Z;
  Interact_type : Z;
  Interact_targetX : Z;
  Interact_targetY : Z;
  Interact_targetZ : Z;
  Interact_hand : Z;
  Interact_sneaking : bool
}.

(** [enum class Type] of [Interact] *)
Definition Interact_Type_Interact : Z := 0.
Definition Interact_Type_Attack : Z := 1.
Definition Interact_Type_InteractAt : Z := 2.


Definition parseInteract (buffer : list Z) : result Interact := run_reader (
  entityId ← popVarInt; type ← popVarInt;
  target ← (if decide (type = Interact_Type_InteractAt) then
              targetX ← popFloat; targetY ← popFloat; targetZ ← popFloat;
              mret (targetX, targetY, targetZ)
            else mret (0, 0, 0));
  hand ← (if decide (type ≠ Interact_Type_Attack) then popVarInt else mret 0);
  sneaking ← popBoolean;
  mret (mk_Interact entityId type target.1.1 target.1.2 target.2 hand sneaking)) buffer.

Record JigsawGenerate : Type := mk_JigsawGenerate {
  JigsawGenerate_location : Position;
  JigsawGenerate_levels : Z;
  JigsawGenerate_keepJigsaws : bool
}.

Definition parseJigsawGenerate (buffer : list Z) : result JigsawGenerate := run_reader (
  location ← popPosition; levels ← popVarInt; keepJigsaws ← popBoolean;
  mret (mk_JigsawGenerate location levels keepJigsaws)) buffer.

Record KeepAliveResponse : Type := mk_KeepAliveResponse {
  KeepAliveResponse_keepAliveId : Z
}.

Definition parseKeepAliveResponse (buffer : list Z) : result KeepAliveResponse := run_reader (
  keepAliveId ← popLong;
  mret (mk_KeepAliveResponse keepAliveId)) buffer.

Record LockDifficulty : Type := mk_LockDifficulty {
  LockDifficulty_locked : bool
}.

Definition parseLockDifficulty (buffer : list Z) : result LockDifficulty := run_reader (
  locked ← popBoolean;
  mret (mk_LockDifficulty locked)) buffer.

Record SetPlayerPosition : Type := mk_SetPlayerPosition {
  SetPlayerPosition_x : Z;
  SetPlayerPosition_feetY : Z;
  SetPlayerPosition_z : Z;
  SetPlayerPosition_onGround : bool
}.

Definition parseSetPlayerPosition (buffer : list Z) : result SetPlayerPosition := run_reader (
  x ← popDouble; feetY ← popDouble; z ← popDouble; onGround ← popBoolean;
  mret (mk_SetPlayerPosition x feetY z onGround)) buffer.

Record SetPlayerPositionAndRotation : Type := mk_SetPlayerPositionAndRotation {
  SetPlayerPositionAndRotation_x : Z;
  SetPlayerPositionAndRotation_feetY : Z;
  SetPlayerPositionAndRotation_z : Z;
  SetPlayerPositionAndRotation_yaw : Z;
  SetPlayerPositionAndRotation_pitch : Z;
  SetPlayerPositionAndRotation_onGround : bool
}.

Definition parseSetPlayerPositionAndRotation (buffer : list Z) : result SetPlayerPositionAndRotation := run_reader (
  x ← popDouble; feetY ← popDouble; z ← popDouble; yaw ← popFloat; pitch ← popFloat;
  onGround ← popBoolean;
  mret (mk_SetPlayerPositionAndRotation x feetY z yaw pitch onGround)) buffer.

Record SetPlayerRotation : Type := mk_SetPlayerRotation {
  SetPlayerRotation_yaw : Z;
  SetPlayerRotation_pitch : Z;
  SetPlayerRotation_onGround : bool
}.

Definition parseSetPlayerRotation (buffer : list Z) : result SetPlayerRotation := run_reader (
  yaw ← popFloat; pitch ← popFloat; onGround ← popBoolean;
  mret (mk_SetPlayerRotation yaw pitch onGround)) buffer.

Record SetPlayerOnGround : Type := mk_SetPlayerOnGround {
  SetPlayerOnGround_onGround : bool
}.

Definition parseSetPlayerOnGround (buffer : list Z) : result SetPlayerOnGround := run_reader (
  onGround ← popBoolean;
  mret (mk_SetPlayerOnGround onGround)) buffer.

Record MoveVehicle : Type := mk_MoveVehicle {
  MoveVehicle_x : Z;
  MoveVehicle_y : Z;
  MoveVehicle_z : Z;
  MoveVehicle_yaw : Z;
  MoveVehicle_pitch : Z
}.

Definition parseMoveVehicle (buffer : list Z) : result MoveVehicle := run_reader (
  x ← popDouble; y ← popDouble; z ← popDouble; yaw ← popFloat; pitch ← popFloat;
  mret (mk_MoveVehicle x y z yaw pitch)) buffer.

Record PaddleBoat : Type := mk_PaddleBoat {
  PaddleBoat_leftPaddleTurning : bool;
  PaddleBoat_rightPaddleTurning : bool
}.

Definition parsePaddleBoat (buffer : list Z) : result PaddleBoat := run_reader (
  leftPaddleTurning ← popBoolean; rightPaddleTurning ← popBoolean;
  mret (mk_PaddleBoat leftPaddleTurning rightPaddleTurning)) buffer.

Record PickItem : Type := mk_PickItem {
  PickItem_slotToUse : Z
}.

Definition parsePickItem (buffer : list Z) : result PickItem := run_reader (
  slotToUse ← popVarInt;
  mret (mk_PickItem slotToUse)) buffer.

Record PlaceRecipe : Type := mk_PlaceRecipe {
  PlaceRecipe_windowId : Z;
  PlaceRecipe_recipe : string;
  PlaceRecipe_makeAll : bool
}.

Definition parsePlaceRecipe (buffer : list Z) : result PlaceRecipe := run_reader (
  windowId ← popByte; recipe ← popString; makeAll ← popBoolean;
  mret (mk_PlaceRecipe windowId recipe makeAll)) buffer.

Record PlayerAbilities : Type := mk_PlayerAbilities {
  PlayerAbilities_flags : Z
}.

Definition parsePlayerAbilities (buffer : list Z) : result PlayerAbilities := run_reader (
  flags ← popByte;
  mret (mk_PlayerAbilities flags)) buffer.

Record PlayerAction : Type := mk_PlayerAction {
  PlayerAction_status : Z;
  PlayerAction_location : Position;
  PlayerAction_face : Z;
  PlayerAction_sequence : Z
}.

Definition parsePlayerAction (buffer : list Z) : result PlayerAction := run_reader (
  status ← popVarInt; location ← popPosition; face ← popByte; sequence ← popVarInt;
  mret (mk_PlayerAction status location face sequence)) buffer.

Record PlayerCommand : Type := mk_PlayerCommand {
  PlayerCommand_entityId : Z;
  PlayerCommand_actionId : Z;
  PlayerCommand_jumpBoost : Z
}.

Definition parsePlayerCommand (buffer : list Z) : result PlayerCommand := run_reader (
  entityId ← popVarInt; actionId ← popVarInt; jumpBoost ← popVarInt;
  mret (mk_PlayerCommand entityId actionId jumpBoost)) buffer.

Record PlayerInput : Type := mk_PlayerInput {
  PlayerInput_sideways : Z;
  PlayerInput_forward : Z;
  PlayerInput_flags : Z
}.

Definition parsePlayerInput (buffer : list Z) : result PlayerInput := run_reader (
  sideways ← popFloat; forward ← popFloat; flags ← popByte;
  mret (mk_PlayerInput sideways forward flags)) buffer.

Record Pong : Type := mk_Pong {
  Pong_id : Z
}.

Definition parsePong (buffer : list Z) : result Pong := run_reader (
  id ← popInt;
  mret (mk_Pong id)) buffer.

Record PlayerSession : Type := mk_PlayerSession {
  PlayerSession_uuid : u128;
  PlayerSession_expiresAt : Z;
  PlayerSession_publicKey : list Z;
  PlayerSession_signature : list Z
}.

Definition parsePlayerSession (buffer : list Z) : result PlayerSession := run_reader (
  uuid ← popUUID; expiresAt ← popLong; publicKey ← popArray popByte;
  signature ← popArray popByte;
  mret (mk_PlayerSession uuid expiresAt publicKey signature)) buffer.

Record ChangeRecipeBookSettings : Type := mk_ChangeRecipeBookSettings {
  ChangeRecipeBookSettings_bookId : Z;
  ChangeRecipeBookSettings_bookOpen : bool;
  ChangeRecipeBookSettings_filterActive : bool
}.

Definition parseChangeRecipeBookSettings (buffer : list Z) : result ChangeRecipeBookSettings := run_reader (
  bookId ← popVarInt; bookOpen ← popBoolean; filterActive ← popBoolean;
  mret (mk_ChangeRecipeBookSettings bookId bookOpen filterActive)) buffer.

Record SetSeenRecipe : Type := mk_SetSeenRecipe {
  SetSeenRecipe_recipeId : string
}.

Definition parseSetSeenRecipe (buffer : list Z) : result SetSeenRecipe := run_reader (
  recipeId ← popString;
  mret (mk_SetSeenRecipe recipeId)) buffer.

Record RenameItem : Type := mk_RenameItem {
  RenameItem_itemName : string
}.

Definition parseRenameItem (buffer : list Z) : result RenameItem := run_reader (
  itemName ← popString;
  mret (mk_RenameItem itemName)) buffer.

Record ResourcePack : Type := mk_ResourcePack {
  ResourcePack_result : Z
}.

Definition parseResourcePack (buffer : list Z) : result ResourcePack := run_reader (
  result ← popVarInt;
  mret (mk_ResourcePack result)) buffer.

Record SeenAdvancements : Type := mk_SeenAdvancements {
  SeenAdvancements_action : Z;
  SeenAdvancements_tabId : string
}.

Definition SeenAdvancements_Action_OpenedTab : Z := 0.


Definition parseSeenAdvancements (buffer : list Z) : result SeenAdvancements := run_reader (
  action ← popVarInt;
  tabId ← (if decide (action = SeenAdvancements_Action_OpenedTab) then popString else mret String.EmptyString);
  mret (mk_SeenAdvancements action tabId)) buffer.

Record SelectTrade : Type := mk_SelectTrade {
  SelectTrade_selectedSlot : Z
}.

Definition parseSelectTrade (buffer : list Z) : result SelectTrade := run_reader (
  selectedSlot ← popVarInt;
  mret (mk_SelectTrade selectedSlot)) buffer.

Record SetBeaconEffect : Type := mk_SetBeaconEffect {
  SetBeaconEffect_primaryEffectPresent : bool;
  SetBeaconEffect_primaryEffect : Z;
  SetBeaconEffect_secondaryEffectPresent : bool;
  SetBeaconEffect_secondaryEffect : Z
}.

Definition parseSetBeaconEffect (buffer : list Z) : result SetBeaconEffect := run_reader (
  primaryEffectPresent ← popBoolean; primaryEffect ← popVarInt;
  secondaryEffectPresent ← popBoolean; secondaryEffect ← popVarInt;
  mret (mk_SetBeaconEffect primaryEffectPresent primaryEffect secondaryEffectPresent
         secondaryEffect)) buffer.

Record SetHeldItem : Type := mk_SetHeldItem {
  SetHeldItem_slot : Z
}.

Definition parseSetHeldItem (buffer : list Z) : result SetHeldItem := run_reader (
  slot ← popShort;
  mret (mk_SetHeldItem slot)) buffer.

Record ProgramCommandBlock : Type := mk_ProgramCommandBlock {
  ProgramCommandBlock_location : Position;
  ProgramCommandBlock_command : string;
  ProgramCommandBlock_mode : Z;
  ProgramCommandBlock_flags : Z
}.

Definition parseProgramCommandBlock (buffer : list Z) : result ProgramCommandBlock := run_reader (
  location ← popPosition; command ← popString; mode ← popVarInt; flags ← popByte;
  mret (mk_ProgramCommandBlock location command mode flags)) buffer.

Record ProgramCommandBlockMinecart : Type := mk_ProgramCommandBlockMinecart {
  ProgramCommandBlockMinecart_entityId : Z;
  ProgramCommandBlockMinecart_command : string;
  ProgramCommandBlockMinecart_trackOutput : bool
}.

Definition parseProgramCommandBlockMinecart (buffer : list Z) : result ProgramCommandBlockMinecart := run_reader (
  entityId ← popVarInt; command ← popString; trackOutput ← popBoolean;
  mret (mk_ProgramCommandBlockMinecart entityId command trackOutput)) buffer.

Record SetCreativeModeSlot : Type := mk_SetCreativeModeSlot {
  SetCreativeModeSlot_slot : Z;
  SetCreativeModeSlot_clickedItem : Slot
}.

Definition parseSetCreativeModeSlot (buffer : list Z) : result SetCreativeModeSlot := run_reader (
  slot ← popShort; clickedItem ← popSlot;
  mret (mk_SetCreativeModeSlot (to_i16 slot) clickedItem)) buffer.

Record ProgramJigsawBlock : Type := mk_ProgramJigsawBlock {
  ProgramJigsawBlock_location : Position;
  ProgramJigsawBlock_name : string;
  ProgramJigsawBlock_target : string;
  ProgramJigsawBlock_pool : string;
  ProgramJigsawBlock_finalState : string;
  ProgramJigsawBlock_jointType : string
}.

Definition parseProgramJigsawBlock (buffer : list Z) : result ProgramJigsawBlock := run_reader (
  location ← popPosition; name ← popString; target ← popString; pool ← popString;
  finalState ← popString; jointType ← popString;
  mret (mk_ProgramJigsawBlock location name target pool finalState jointType)) buffer.

Record ProgramStructureBlock : Type := mk_ProgramStructureBlock {
  ProgramStructureBlock_location : Position;
  ProgramStructureBlock_action : Z;
  ProgramStructureBlock_mode : Z;
  ProgramStructureBlock_name : string;
  ProgramStructureBlock_offsetX : Z;
  ProgramStructureBlock_offsetY : Z;
  ProgramStructureBlock_offsetZ : Z;
  ProgramStructureBlock_sizeX : Z;
  ProgramStructureBlock_sizeY : Z;
  ProgramStructureBlock_sizeZ : Z;
  ProgramStructureBlock_mirror : Z;
  ProgramStructureBlock_rotation : Z;
  ProgramStructureBlock_metadata : string;
  ProgramStructureBlock_integrity : Z;
  ProgramStructureBlock_seed : Z;
  ProgramStructureBlock_flags : Z
}.

Definition parseProgramStructureBlock (buffer : list Z) : result ProgramStructureBlock := run_reader (
  location ← popPosition; action ← popVarInt; mode ← popVarInt; offsetX ← popByte;
  offsetY ← popByte; offsetZ ← popByte; sizeX ← popByte; sizeY ← popByte; sizeZ ← popByte;
  mirror ← popVarInt; rotation ← popVarInt; metadata ← popString; integrity ← popFloat;
  seed ← popVarLong; flags ← popByte;
  mret (mk_ProgramStructureBlock location action mode String.EmptyString offsetX offsetY
         offsetZ sizeX sizeY sizeZ mirror rotation metadata integrity seed flags)) buffer.

Record UpdateSign : Type := mk_UpdateSign {
  UpdateSign_location : Position;
  UpdateSign_line1 : string;
  UpdateSign_line2 : string;
  UpdateSign_line3 : string;
  UpdateSign_line4 : string
}.

Definition parseUpdateSign (buffer : list Z) : result UpdateSign := run_reader (
  location ← popPosition; line1 ← popString; line2 ← popString; line3 ← popString;
  line4 ← popString;
  mret (mk_UpdateSign location line1 line2 line3 line4)) buffer.

Record SwingArm : Type := mk_SwingArm {
  SwingArm_hand : Z
}.

Definition parseSwingArm (buffer : list Z) : result SwingArm := run_reader (
  hand ← popVarInt;
  mret (mk_SwingArm hand)) buffer.

Record TeleportToEntity : Type := mk_TeleportToEntity {
  TeleportToEntity_targetPlayer : u128
}.

Definition parseTeleportToEntity (buffer : list Z) : result TeleportToEntity := run_reader (
  targetPlayer ← popUUID;
  mret (mk_TeleportToEntity targetPlayer)) buffer.

Record UseItemOn : Type := mk_UseItemOn {
  UseItemOn_hand : Z;
  UseItemOn_location : Position;
  UseItemOn_face : Z;
  UseItemOn_cursorPositionX : Z;
  UseItemOn_cursorPositionY : Z;
  UseItemOn_cursorPositionZ : Z;
  UseItemOn_insideBlock : bool;
  UseItemOn_sequence : Z
}.

Definition parseUseItemOn (buffer : list Z) : result UseItemOn := run_reader (
  hand ← popVarInt; location ← popPosition; face ← popVarInt; cursorPositionX ← popFloat;
  cursorPositionY ← popFloat; cursorPositionZ ← popFloat; insideBlock ← popBoolean;
  sequence ← popVarInt;
  mret (mk_UseItemOn hand location face cursorPositionX cursorPositionY cursorPositionZ
         insideBlock sequence)) buffer.

Record UseItem : Type := mk_UseItem {
  UseItem_hand : Z;
  UseItem_sequence : Z
}.

Definition parseUseItem (buffer : list Z) : result UseItem := run_reader (
  hand ← popVarInt; sequence ← popVarInt;
  mret (mk_UseItem hand sequence)) buffer.

(** ** Dispatch

    A parsed packet behind a [std::unique_ptr<BaseServerPacket>]. *)

Inductive BaseServerPacket : Type :=
| Handshake_packet (packet : Handshake)
| StatusRequest_packet (packet : StatusRequest)
| PingRequest_packet (packet : PingRequest)
| LoginStart_packet (packet : LoginStart)
| EncryptionResponse_packet (packet : EncryptionResponse)
| ConfirmTeleportation_packet (packet : ConfirmTeleportation)
| QueryBlockEntityTag_packet (packet : QueryBlockEntityTag)
| ChangeDifficulty_packet (packet : ChangeDifficulty)
| MessageAcknowledgement_packet (packet : MessageAcknowledgement)
| ChatCommand_packet (packet : ChatCommand)
| ChatMessage_packet (packet : ChatMessage)
| ClientCommand_packet (packet : ClientCommand)
| ClientInformation_packet (packet : ClientInformation)
| CommandSuggestionRequest_packet (packet : CommandSuggestionRequest)
| ClickContainerButton_packet (packet : ClickContainerButton)
| ClickContainer_packet (packet : ClickContainer)
| CloseContainerRequest_packet (packet : CloseContainerRequest)
| PluginMessage_packet (packet : PluginMessage)
| EditBook_packet (packet : EditBook)
| QueryEntityTag_packet (packet : QueryEntityTag)
| Interact_packet (packet : Interact)
| JigsawGenerate_packet (packet : JigsawGenerate)
| KeepAliveResponse_packet (packet : KeepAliveResponse)
| LockDifficulty_packet (packet : LockDifficulty)
| SetPlayerPosition_packet (packet : SetPlayerPosition)
| SetPlayerPositionAndRotation_packet (packet : SetPlayerPositionAndRotation)
| SetPlayerRotation_packet (packet : SetPlayerRotation)
| SetPlayerOnGround_packet (packet : SetPlayerOnGround)
| MoveVehicle_packet (packet : MoveVehicle)
| PaddleBoat_packet (packet : PaddleBoat)
| PickItem_packet (packet : PickItem)
| PlaceRecipe_packet (packet : PlaceRecipe)
| PlayerAbilities_packet (packet : PlayerAbilities)
| PlayerAction_packet (packet : PlayerAction)
| PlayerCommand_packet (packet : PlayerCommand)
| PlayerInput_packet (packet : PlayerInput)
| Pong_packet (packet : Pong)
| PlayerSession_packet (packet : PlayerSession)
| ChangeRecipeBookSettings_packet (packet : ChangeRecipeBookSettings)
| SetSeenRecipe_packet (packet : SetSeenRecipe)
| RenameItem_packet (packet : RenameItem)
| ResourcePack_packet (packet : ResourcePack)
| SeenAdvancements_packet (packet : SeenAdvancements)
| SelectTrade_packet (packet : SelectTrade)
| SetBeaconEffect_packet (packet : SetBeaconEffect)
| SetHeldItem_packet (packet : SetHeldItem)
| ProgramCommandBlock_packet (packet : ProgramCommandBlock)
| ProgramCommandBlockMinecart_packet (packet : ProgramCommandBlockMinecart)
| SetCreativeModeSlot_packet (packet : SetCreativeModeSlot)
| ProgramJigsawBlock_packet (packet : ProgramJigsawBlock)
| ProgramStructureBlock_packet (packet : ProgramStructureBlock)
| UpdateSign_packet (packet : UpdateSign)
| SwingArm_packet (packet : SwingArm)
| TeleportToEntity_packet (packet : TeleportToEntity)
| UseItemOn_packet (packet : UseItemOn)
| UseItem_packet (packet : UseItem).

(** What a table holds: the parser, its result behind a pointer ([None] is the
    null pointer). *)
Definition packet_parser : Type := list Z → result (option BaseServerPacket).

Definition parser_of {X} (parse : list Z → result X) (c : X → BaseServerPacket) : packet_parser :=
  λ buffer, Some ∘ c <$> parse buffer.

(** A parser that may return a null pointer itself. *)
Definition nullable_parser_of {X} (parse : list Z → result (option X)) (c : X → BaseServerPacket) :
  packet_parser := λ buffer, option_map c <$> parse buffer.

Definition packetIDToParseInitial : gmap Z packet_parser := list_to_map [
  (ServerPacketsID_Handshake, parser_of parseHandshake Handshake_packet)].

Definition packetIDToParseStatus : gmap Z packet_parser := list_to_map [
  (ServerPacketsID_StatusRequest, nullable_parser_of parseStatusRequest StatusRequest_packet);
  (ServerPacketsID_PingRequest, parser_of parsePingRequest PingRequest_packet)].

Definition packetIDToParseLogin : gmap Z packet_parser := list_to_map [
  (ServerPacketsID_LoginStart, parser_of parseLoginStart LoginStart_packet);
  (ServerPacketsID_EncryptionResponse, parser_of parseEncryptionResponse EncryptionResponse_packet)].

Definition packetIDToParsePlay : gmap Z packet_parser := list_to_map [
  (ServerPacketsID_ConfirmTeleportation, parser_of parseConfirmTeleportation ConfirmTeleportation_packet);
  (ServerPacketsID_QueryBlockEntityTag, parser_of parseQueryBlockEntityTag QueryBlockEntityTag_packet);
  (ServerPacketsID_ChangeDifficulty, parser_of parseChangeDifficulty ChangeDifficulty_packet);
  (ServerPacketsID_MessageAcknowledgement, parser_of parseMessageAcknowledgement MessageAcknowledgement_packet);
  (ServerPacketsID_ChatCommand, parser_of parseChatCommand ChatCommand_packet);
  (ServerPacketsID_ChatMessage, parser_of parseChatMessage ChatMessage_packet);
  (ServerPacketsID_ClientCommand, parser_of parseClientCommand ClientCommand_packet);
  (ServerPacketsID_ClientInformation, parser_of parseClientInformation ClientInformation_packet);
  (ServerPacketsID_CommandSuggestionRequest, parser_of parseCommandSuggestionRequest CommandSuggestionRequest_packet);
  (ServerPacketsID_ClickContainerButton, parser_of parseClickContainerButton ClickContainerButton_packet);
  (ServerPacketsID_ClickContainer, parser_of parseClickContainer ClickContainer_packet);
  (ServerPacketsID_CloseContainerRequest, parser_of parseCloseContainerRequest CloseContainerRequest_packet);
  (ServerPacketsID_PluginMessage, parser_of parsePluginMessage PluginMessage_packet);
  (ServerPacketsID_EditBook, parser_of parseEditBook EditBook_packet);
  (ServerPacketsID_QueryEntityTag, parser_of parseQueryEntityTag QueryEntityTag_packet);
  (ServerPacketsID_Interact, parser_of parseInteract Interact_packet);
  (ServerPacketsID_JigsawGenerate, parser_of parseJigsawGenerate JigsawGenerate_packet);
  (ServerPacketsID_KeepAliveResponse, parser_of parseKeepAliveResponse KeepAliveResponse_packet);
  (ServerPacketsID_LockDifficulty, parser_of parseLockDifficulty LockDifficulty_packet);
  (ServerPacketsID_SetPlayerPosition, parser_of parseSetPlayerPosition SetPlayerPosition_packet);
  (ServerPacketsID_SetPlayerPositionAndRotation, parser_of parseSetPlayerPositionAndRotation SetPlayerPositionAndRotation_packet);
  (ServerPacketsID_SetPlayerRotation, parser_of parseSetPlayerRotation SetPlayerRotation_packet);
  (ServerPacketsID_SetPlayerOnGround, parser_of parseSetPlayerOnGround SetPlayerOnGround_packet);
  (ServerPacketsID_MoveVehicle, parser_of parseMoveVehicle MoveVehicle_packet);
  (ServerPacketsID_PaddleBoat, parser_of parsePaddleBoat PaddleBoat_packet);
  (ServerPacketsID_PickItem, parser_of parsePickItem PickItem_packet);
  (ServerPacketsID_PlaceRecipe, parser_of parsePlaceRecipe PlaceRecipe_packet);
  (ServerPacketsID_PlayerAbilities, parser_of parsePlayerAbilities PlayerAbilities_packet);
  (ServerPacketsID_PlayerAction, parser_of parsePlayerAction PlayerAction_packet);
  (ServerPacketsID_PlayerCommand, parser_of parsePlayerCommand PlayerCommand_packet);
  (ServerPacketsID_PlayerInput, parser_of parsePlayerInput PlayerInput_packet);
  (ServerPacketsID_Pong, parser_of parsePong Pong_packet);
  (ServerPacketsID_PlayerSession, parser_of parsePlayerSession PlayerSession_packet);
  (ServerPacketsID_ChangeRecipeBookSettings, parser_of parseChangeRecipeBookSettings ChangeRecipeBookSettings_packet);
  (ServerPacketsID_SetSeenRecipe, parser_of parseSetSeenRecipe SetSeenRecipe_packet);
  (ServerPacketsID_RenameItem, parser_of parseRenameItem RenameItem_packet);
  (ServerPacketsID_ResourcePack, parser_of parseResourcePack ResourcePack_packet);
  (ServerPacketsID_SeenAdvancements, parser_of parseSeenAdvancements SeenAdvancements_packet);
  (ServerPacketsID_SelectTrade, parser_of parseSelectTrade SelectTrade_packet);
  (ServerPacketsID_SetBeaconEffect, parser_of parseSetBeaconEffect SetBeaconEffect_packet);
  (ServerPacketsID_SetHeldItem, parser_of parseSetHeldItem SetHeldItem_packet);
  (ServerPacketsID_ProgramCommandBlock, parser_of parseProgramCommandBlock ProgramCommandBlock_packet);
  (ServerPacketsID_ProgramCommandBlockMinecart, parser_of parseProgramCommandBlockMinecart ProgramCommandBlockMinecart_packet);
  (ServerPacketsID_SetCreativeModeSlot, parser_of parseSetCreativeModeSlot SetCreativeModeSlot_packet);
  (ServerPacketsID_ProgramJigsawBlock, parser_of parseProgramJigsawBlock ProgramJigsawBlock_packet);
  (ServerPacketsID_ProgramStructureBlock, parser_of parseProgramStructureBlock ProgramStructureBlock_packet);
  (ServerPacketsID_UpdateSign, parser_of parseUpdateSign UpdateSign_packet);
  (ServerPacketsID_SwingArm, parser_of parseSwingArm SwingArm_packet);
  (ServerPacketsID_TeleportToEntity, parser_of parseTeleportToEntity TeleportToEntity_packet);
  (ServerPacketsID_UseItemOn, parser_of parseUseItemOn UseItemOn_packet);
  (ServerPacketsID_UseItem, parser_of parseUseItem UseItem_packet)].
