(* ===== verification/ServerWire.v ===== *)
(** * The client's side of the packets

    What a client sends that writes the fields of a packet's structure in the order
    of ServerPackets.hpp, each with the server's encoding of its type, and optional ones
    when their flag says so: one writer for each structure, the packets each
    writer can carry, and what the server makes of them ([delivered]): three parsers leave
    out a field or a part of it. *)

From S2P Require Import Prelude Types Codec Structures Add Pop PrimaryLaws CompositeLaws PrimarySafety RoundTrip ServerPackets.

Definition client_ArgumentSignature (s : ChatCommand_ArgumentSignature) : writer := serialize [
  addString (ChatCommand_ArgumentSignature_argument s);
  addArray addByte (ChatCommand_ArgumentSignature_signature s)].
Definition wf_ArgumentSignature (s : ChatCommand_ArgumentSignature) : Prop :=
  string_fits (ChatCommand_ArgumentSignature_argument s) ∧
  array_of is_byte (ChatCommand_ArgumentSignature_signature s).

Definition client_SlotWithIndex (s : ClickContainer_SlotWithIndex) : writer := serialize [
  addShort (ClickContainer_SlotWithIndex_slotNumber s);
  addSlot (ClickContainer_SlotWithIndex_slotData s)].
Definition wf_SlotWithIndex (s : ClickContainer_SlotWithIndex) : Prop :=
  is_s 16 (ClickContainer_SlotWithIndex_slotNumber s) ∧
  slot_canonical (ClickContainer_SlotWithIndex_slotData s).

Definition client_Handshake (p : Handshake) : writer := serialize [
  addVarInt (Handshake_protVersion p);
  addString (Handshake_addr p);
  addUShort (Handshake_port p);
  addVarInt (Handshake_nextState p)].
Definition wf_Handshake (p : Handshake) : Prop :=
  is_s 32 (Handshake_protVersion p) ∧
  string_fits (Handshake_addr p) ∧
  is_u 16 (Handshake_port p) ∧
  is_s 32 (Handshake_nextState p).

Definition client_StatusRequest (p : StatusRequest) : writer := serialize [].
Definition wf_StatusRequest (p : StatusRequest) : Prop := True.

Definition client_PingRequest (p : PingRequest) : writer := serialize [
  addLong (PingRequest_payload p)].
Definition wf_PingRequest (p : PingRequest) : Prop :=
  is_s 64 (PingRequest_payload p).

Definition client_LoginStart (p : LoginStart) : writer := serialize [
  addString (LoginStart_name p);
  addBoolean (LoginStart_hasPlayerUuid p);
  when (LoginStart_hasPlayerUuid p) (addUUID (LoginStart_playerUuid p))].
Definition wf_LoginStart (p : LoginStart) : Prop :=
  string_fits (LoginStart_name p) ∧
  (if LoginStart_hasPlayerUuid p then u128_wf (LoginStart_playerUuid p)
   else LoginStart_playerUuid p = u128_default).

Definition client_EncryptionResponse (p : EncryptionResponse) : writer := serialize [
  addArray addByte (EncryptionResponse_sharedSecret p);
  addArray addByte (EncryptionResponse_verifyToken p)].
Definition wf_EncryptionResponse (p : EncryptionResponse) : Prop :=
  array_of is_byte (EncryptionResponse_sharedSecret p) ∧
  array_of is_byte (EncryptionResponse_verifyToken p).

Definition client_ConfirmTeleportation (p : ConfirmTeleportation) : writer := serialize [
  addVarInt (ConfirmTeleportation_teleportId p)].
Definition wf_ConfirmTeleportation (p : ConfirmTeleportation) : Prop :=
  is_s 32 (ConfirmTeleportation_teleportId p).

Definition client_QueryBlockEntityTag (p : QueryBlockEntityTag) : writer := serialize [
  addVarInt (QueryBlockEntityTag_transactionId p);
  addPosition (QueryBlockEntityTag_location p)].
Definition wf_QueryBlockEntityTag (p : QueryBlockEntityTag) : Prop :=
  is_s 32 (QueryBlockEntityTag_transactionId p) ∧
  Position_in_wire_range (QueryBlockEntityTag_location p).

Definition client_ChangeDifficulty (p : ChangeDifficulty) : writer := serialize [
  addByte (ChangeDifficulty_newDifficulty p)].
Definition wf_ChangeDifficulty (p : ChangeDifficulty) : Prop :=
  is_u 8 (ChangeDifficulty_newDifficulty p).

Definition client_MessageAcknowledgement (p : MessageAcknowledgement) : writer := serialize [
  addVarInt (MessageAcknowledgement_messageCount p)].
Definition wf_MessageAcknowledgement (p : MessageAcknowledgement) : Prop :=
  is_s 32 (MessageAcknowledgement_messageCount p).

Definition client_ChatCommand (p : ChatCommand) : writer := serialize [
  addString (ChatCommand_command p);
  addLong (ChatCommand_timestamp p);
  addLong (ChatCommand_salt p);
  addArray client_ArgumentSignature (ChatCommand_argumentSignatures p);
  addVarInt (ChatCommand_messageCount p);
  put_bitset (ChatCommand_acknowledged p)].
Definition wf_ChatCommand (p : ChatCommand) : Prop :=
  string_fits (ChatCommand_command p) ∧
  is_s 64 (ChatCommand_timestamp p) ∧
  is_s 64 (ChatCommand_salt p) ∧
  array_of wf_ArgumentSignature (ChatCommand_argumentSignatures p) ∧
  is_s 32 (ChatCommand_messageCount p) ∧
  length (ChatCommand_acknowledged p) = 20%nat.

Definition client_ChatMessage (p : ChatMessage) : writer := serialize [
  addString (ChatMessage_message p);
  addLong (ChatMessage_timestamp p);
  addLong (ChatMessage_salt p);
  addBoolean (ChatMessage_isSigned p);
  when (ChatMessage_isSigned p) (addArray addByte (ChatMessage_signature p));
  addVarInt (ChatMessage_messageCount p);
  put_bitset (ChatMessage_acknowledged p)].
Definition wf_ChatMessage (p : ChatMessage) : Prop :=
  string_fits (ChatMessage_message p) ∧
  is_s 64 (ChatMessage_timestamp p) ∧
  is_s 64 (ChatMessage_salt p) ∧
  (if ChatMessage_isSigned p then array_of is_byte (ChatMessage_signature p)
   else ChatMessage_signature p = []) ∧
  is_s 32 (ChatMessage_messageCount p) ∧
  length (ChatMessage_acknowledged p) = 20%nat.

(** The parser leaves out the number of messages: the three bytes it takes for the
    acknowledgements begin where the number stands. *)
Definition acknowledged_read (p : ChatMessage) : list bool :=
  match varint_bytes (ChatMessage_messageCount p) ++ bitset_bytes 20 (ChatMessage_acknowledged p) with
  | b0 :: b1 :: b2 :: _ => bitset_bits b0 8 ++ bitset_bits b1 8 ++ bitset_bits b2 4
  | _ => []
  end.

Definition client_ClientCommand (p : ClientCommand) : writer := serialize [
  addVarInt (ClientCommand_actionId p)].
Definition wf_ClientCommand (p : ClientCommand) : Prop :=
  is_s 32 (ClientCommand_actionId p).

Definition client_ClientInformation (p : ClientInformation) : writer := serialize [
  addString (ClientInformation_locale p);
  addByte (ClientInformation_viewDistance p);
  addVarInt (ClientInformation_chatMode p);
  addBoolean (ClientInformation_chatColors p);
  addByte (ClientInformation_displayedSkinParts p);
  addVarInt (ClientInformation_mainHand p);
  addBoolean (ClientInformation_enableTextFiltering p);
  addBoolean (ClientInformation_allowServerListings p)].
Definition wf_ClientInformation (p : ClientInformation) : Prop :=
  string_fits (ClientInformation_locale p) ∧
  is_u 8 (ClientInformation_viewDistance p) ∧
  is_s 32 (ClientInformation_chatMode p) ∧
  is_u 8 (ClientInformation_displayedSkinParts p) ∧
  is_s 32 (ClientInformation_mainHand p).

Definition client_CommandSuggestionRequest (p : CommandSuggestionRequest) : writer := serialize [
  addVarInt (CommandSuggestionRequest_transactionId p);
  addString (CommandSuggestionRequest_text p)].
Definition wf_CommandSuggestionRequest (p : CommandSuggestionRequest) : Prop :=
  is_s 32 (CommandSuggestionRequest_transactionId p) ∧
  string_fits (CommandSuggestionRequest_text p).

Definition client_ClickContainerButton (p : ClickContainerButton) : writer := serialize [
  addByte (ClickContainerButton_windowId p);
  addByte (ClickContainerButton_buttonId p)].
Definition wf_ClickContainerButton (p : ClickContainerButton) : Prop :=
  is_u 8 (ClickContainerButton_windowId p) ∧
  is_u 8 (ClickContainerButton_buttonId p).

Definition client_ClickContainer (p : ClickContainer) : writer := serialize [
  addByte (ClickContainer_windowId p);
  addVarInt (ClickContainer_stateId p);
  addShort (ClickContainer_slot p);
  addByte (ClickContainer_button p);
  addVarInt (ClickContainer_mode p);
  addArray client_SlotWithIndex (ClickContainer_arrayOfSlots p);
  addSlot (ClickContainer_carriedItem p)].
Definition wf_ClickContainer (p : ClickContainer) : Prop :=
  is_u 8 (ClickContainer_windowId p) ∧
  is_s 32 (ClickContainer_stateId p) ∧
  is_s 16 (ClickContainer_slot p) ∧
  is_s 8 (ClickContainer_button p) ∧
  is_s 32 (ClickContainer_mode p) ∧
  array_of wf_SlotWithIndex (ClickContainer_arrayOfSlots p) ∧
  slot_canonical (ClickContainer_carriedItem p).

Definition client_CloseContainerRequest (p : CloseContainerRequest) : writer := serialize [
  addByte (CloseContainerRequest_windowId p)].
Definition wf_CloseContainerRequest (p : CloseContainerRequest) : Prop :=
  is_u 8 (CloseContainerRequest_windowId p).

Definition client_PluginMessage (p : PluginMessage) : writer := serialize [
  addString (PluginMessage_channel p);
  serialize (addByte <$> PluginMessage_data p)].
Definition wf_PluginMessage (p : PluginMessage) : Prop :=
  string_fits (PluginMessage_channel p) ∧
  Forall is_byte (PluginMessage_data p).

Definition client_EditBook (p : EditBook) : writer := serialize [
  addVarInt (EditBook_slot p);
  addArray addString (EditBook_entries p);
  addBoolean (EditBook_hasTitle p);
  when (EditBook_hasTitle p) (addString (EditBook_title p))].
Definition wf_EditBook (p : EditBook) : Prop :=
  is_s 32 (EditBook_slot p) ∧
  array_of string_fits (EditBook_entries p) ∧
  (if EditBook_hasTitle p then string_fits (EditBook_title p)
   else EditBook_title p = String.EmptyString).

Definition client_QueryEntityTag (p : QueryEntityTag) : writer := serialize [
  addVarInt (QueryEntityTag_transactionId p);
  addVarInt (QueryEntityTag_entityId p)].
Definition wf_QueryEntityTag (p : QueryEntityTag) : Prop :=
  is_s 32 (QueryEntityTag_transactionId p) ∧
  is_s 32 (QueryEntityTag_entityId p).

Definition client_Interact (p : Interact) : writer := serialize [
  addVarInt (Interact_entityId p);
  addVarInt (Interact_type p);
  when (bool_decide (Interact_type p = Interact_Type_InteractAt)) (serialize [
    addFloat (Interact_targetX p); addFloat (Interact_targetY p); addFloat (Interact_targetZ p)]);
  when (bool_decide (Interact_type p ≠ Interact_Type_Attack)) (addVarInt (Interact_hand p));
  addBoolean (Interact_sneaking p)].
Definition wf_Interact (p : Interact) : Prop :=
  is_s 32 (Interact_entityId p) ∧
  is_s 32 (Interact_type p) ∧
  (if bool_decide (Interact_type p = Interact_Type_InteractAt)
   then is_u 32 (Interact_targetX p) ∧ is_u 32 (Interact_targetY p) ∧ is_u 32 (Interact_targetZ p)
   else (Interact_targetX p, Interact_targetY p, Interact_targetZ p) = (0, 0, 0)) ∧
  (if bool_decide (Interact_type p ≠ Interact_Type_Attack) then is_s 32 (Interact_hand p)
   else Interact_hand p = 0).

Definition client_JigsawGenerate (p : JigsawGenerate) : writer := serialize [
  addPosition (JigsawGenerate_location p);
  addVarInt (JigsawGenerate_levels p);
  addBoolean (JigsawGenerate_keepJigsaws p)].
Definition wf_JigsawGenerate (p : JigsawGenerate) : Prop :=
  Position_in_wire_range (JigsawGenerate_location p) ∧
  is_s 32 (JigsawGenerate_levels p).

Definition client_KeepAliveResponse (p : KeepAliveResponse) : writer := serialize [
  addLong (KeepAliveResponse_keepAliveId p)].
Definition wf_KeepAliveResponse (p : KeepAliveResponse) : Prop :=
  is_s 64 (KeepAliveResponse_keepAliveId p).

Definition client_LockDifficulty (p : LockDifficulty) : writer := serialize [
  addBoolean (LockDifficulty_locked p)].
Definition wf_LockDifficulty (p : LockDifficulty) : Prop :=
  True.

Definition client_SetPlayerPosition (p : SetPlayerPosition) : writer := serialize [
  addDouble (SetPlayerPosition_x p);
  addDouble (SetPlayerPosition_feetY p);
  addDouble (SetPlayerPosition_z p);
  addBoolean (SetPlayerPosition_onGround p)].
Definition wf_SetPlayerPosition (p : SetPlayerPosition) : Prop :=
  is_u 64 (SetPlayerPosition_x p) ∧
  is_u 64 (SetPlayerPosition_feetY p) ∧
  is_u 64 (SetPlayerPosition_z p).

Definition client_SetPlayerPositionAndRotation (p : SetPlayerPositionAndRotation) : writer := serialize [
  addDouble (SetPlayerPositionAndRotation_x p);
  addDouble (SetPlayerPositionAndRotation_feetY p);
  addDouble (SetPlayerPositionAndRotation_z p);
  addFloat (SetPlayerPositionAndRotation_yaw p);
  addFloat (SetPlayerPositionAndRotation_pitch p);
  addBoolean (SetPlayerPositionAndRotation_onGround p)].
Definition wf_SetPlayerPositionAndRotation (p : SetPlayerPositionAndRotation) : Prop :=
  is_u 64 (SetPlayerPositionAndRotation_x p) ∧
  is_u 64 (SetPlayerPositionAndRotation_feetY p) ∧
  is_u 64 (SetPlayerPositionAndRotation_z p) ∧
  is_u 32 (SetPlayerPositionAndRotation_yaw p) ∧
  is_u 32 (SetPlayerPositionAndRotation_pitch p).

Definition client_SetPlayerRotation (p : SetPlayerRotation) : writer := serialize [
  addFloat (SetPlayerRotation_yaw p);
  addFloat (SetPlayerRotation_pitch p);
  addBoolean (SetPlayerRotation_onGround p)].
Definition wf_SetPlayerRotation (p : SetPlayerRotation) : Prop :=
  is_u 32 (SetPlayerRotation_yaw p) ∧
  is_u 32 (SetPlayerRotation_pitch p).

Definition client_SetPlayerOnGround (p : SetPlayerOnGround) : writer := serialize [
  addBoolean (SetPlayerOnGround_onGround p)].
Definition wf_SetPlayerOnGround (p : SetPlayerOnGround) : Prop :=
  True.

Definition client_MoveVehicle (p : MoveVehicle) : writer := serialize [
  addDouble (MoveVehicle_x p);
  addDouble (MoveVehicle_y p);
  addDouble (MoveVehicle_z p);
  addFloat (MoveVehicle_yaw p);
  addFloat (MoveVehicle_pitch p)].
Definition wf_MoveVehicle (p : MoveVehicle) : Prop :=
  is_u 64 (MoveVehicle_x p) ∧
  is_u 64 (MoveVehicle_y p) ∧
  is_u 64 (MoveVehicle_z p) ∧
  is_u 32 (MoveVehicle_yaw p) ∧
  is_u 32 (MoveVehicle_pitch p).

Definition client_PaddleBoat (p : PaddleBoat) : writer := serialize [
  addBoolean (PaddleBoat_leftPaddleTurning p);
  addBoolean (PaddleBoat_rightPaddleTurning p)].
Definition wf_PaddleBoat (p : PaddleBoat) : Prop :=
  True.

Definition client_PickItem (p : PickItem) : writer := serialize [
  addVarInt (PickItem_slotToUse p)].
Definition wf_PickItem (p : PickItem) : Prop :=
  is_s 32 (PickItem_slotToUse p).

Definition client_PlaceRecipe (p : PlaceRecipe) : writer := serialize [
  addByte (PlaceRecipe_windowId p);
  addString (PlaceRecipe_recipe p);
  addBoolean (PlaceRecipe_makeAll p)].
Definition wf_PlaceRecipe (p : PlaceRecipe) : Prop :=
  is_u 8 (PlaceRecipe_windowId p) ∧
  string_fits (PlaceRecipe_recipe p).

Definition client_PlayerAbilities (p : PlayerAbilities) : writer := serialize [
  addByte (PlayerAbilities_flags p)].
Definition wf_PlayerAbilities (p : PlayerAbilities) : Prop :=
  is_u 8 (PlayerAbilities_flags p).

Definition client_PlayerAction (p : PlayerAction) : writer := serialize [
  addVarInt (PlayerAction_status p);
  addPosition (PlayerAction_location p);
  addByte (PlayerAction_face p);
  addVarInt (PlayerAction_sequence p)].
Definition wf_PlayerAction (p : PlayerAction) : Prop :=
  is_s 32 (PlayerAction_status p) ∧
  Position_in_wire_range (PlayerAction_location p) ∧
  is_u 8 (PlayerAction_face p) ∧
  is_s 32 (PlayerAction_sequence p).

Definition client_PlayerCommand (p : PlayerCommand) : writer := serialize [
  addVarInt (PlayerCommand_entityId p);
  addVarInt (PlayerCommand_actionId p);
  addVarInt (PlayerCommand_jumpBoost p)].
Definition wf_PlayerCommand (p : PlayerCommand) : Prop :=
  is_s 32 (PlayerCommand_entityId p) ∧
  is_s 32 (PlayerCommand_actionId p) ∧
  is_s 32 (PlayerCommand_jumpBoost p).

Definition client_PlayerInput (p : PlayerInput) : writer := serialize [
  addFloat (PlayerInput_sideways p);
  addFloat (PlayerInput_forward p);
  addByte (PlayerInput_flags p)].
Definition wf_PlayerInput (p : PlayerInput) : Prop :=
  is_u 32 (PlayerInput_sideways p) ∧
  is_u 32 (PlayerInput_forward p) ∧
  is_u 8 (PlayerInput_flags p).

Definition client_Pong (p : Pong) : writer := serialize [
  addInt (Pong_id p)].
Definition wf_Pong (p : Pong) : Prop :=
  is_s 32 (Pong_id p).

Definition client_PlayerSession (p : PlayerSession) : writer := serialize [
  addUUID (PlayerSession_uuid p);
  addLong (PlayerSession_expiresAt p);
  addArray addByte (PlayerSession_publicKey p);
  addArray addByte (PlayerSession_signature p)].
Definition wf_PlayerSession (p : PlayerSession) : Prop :=
  u128_wf (PlayerSession_uuid p) ∧
  is_s 64 (PlayerSession_expiresAt p) ∧
  array_of is_byte (PlayerSession_publicKey p) ∧
  array_of is_byte (PlayerSession_signature p).

Definition client_ChangeRecipeBookSettings (p : ChangeRecipeBookSettings) : writer := serialize [
  addVarInt (ChangeRecipeBookSettings_bookId p);
  addBoolean (ChangeRecipeBookSettings_bookOpen p);
  addBoolean (ChangeRecipeBookSettings_filterActive p)].
Definition wf_ChangeRecipeBookSettings (p : ChangeRecipeBookSettings) : Prop :=
  is_s 32 (ChangeRecipeBookSettings_bookId p).

Definition client_SetSeenRecipe (p : SetSeenRecipe) : writer := serialize [
  addString (SetSeenRecipe_recipeId p)].
Definition wf_SetSeenRecipe (p : SetSeenRecipe) : Prop :=
  string_fits (SetSeenRecipe_recipeId p).

Definition client_RenameItem (p : RenameItem) : writer := serialize [
  addString (RenameItem_itemName p)].
Definition wf_RenameItem (p : RenameItem) : Prop :=
  string_fits (RenameItem_itemName p).

Definition client_ResourcePack (p : ResourcePack) : writer := serialize [
  addVarInt (ResourcePack_result p)].
Definition wf_ResourcePack (p : ResourcePack) : Prop :=
  is_s 32 (ResourcePack_result p).

Definition client_SeenAdvancements (p : SeenAdvancements) : writer := serialize [
  addVarInt (SeenAdvancements_action p);
  when (bool_decide (SeenAdvancements_action p = SeenAdvancements_Action_OpenedTab)) (addString (SeenAdvancements_tabId p))].
Definition wf_SeenAdvancements (p : SeenAdvancements) : Prop :=
  is_s 32 (SeenAdvancements_action p) ∧
  (if bool_decide (SeenAdvancements_action p = SeenAdvancements_Action_OpenedTab) then string_fits (SeenAdvancements_tabId p)
   else SeenAdvancements_tabId p = String.EmptyString).

Definition client_SelectTrade (p : SelectTrade) : writer := serialize [
  addVarInt (SelectTrade_selectedSlot p)].
Definition wf_SelectTrade (p : SelectTrade) : Prop :=
  is_s 32 (SelectTrade_selectedSlot p).

Definition client_SetBeaconEffect (p : SetBeaconEffect) : writer := serialize [
  addBoolean (SetBeaconEffect_primaryEffectPresent p);
  when (SetBeaconEffect_primaryEffectPresent p) (addVarInt (SetBeaconEffect_primaryEffect p));
  addBoolean (SetBeaconEffect_secondaryEffectPresent p);
  when (SetBeaconEffect_secondaryEffectPresent p) (addVarInt (SetBeaconEffect_secondaryEffect p))].
(** The parser reads both effects, whether they are there or not. *)
Definition wf_SetBeaconEffect (p : SetBeaconEffect) : Prop :=
  SetBeaconEffect_primaryEffectPresent p = true ∧
  SetBeaconEffect_secondaryEffectPresent p = true ∧
  is_s 32 (SetBeaconEffect_primaryEffect p) ∧
  is_s 32 (SetBeaconEffect_secondaryEffect p).

Definition client_SetHeldItem (p : SetHeldItem) : writer := serialize [
  addUShort (SetHeldItem_slot p)].
Definition wf_SetHeldItem (p : SetHeldItem) : Prop :=
  is_u 16 (SetHeldItem_slot p).

Definition client_ProgramCommandBlock (p : ProgramCommandBlock) : writer := serialize [
  addPosition (ProgramCommandBlock_location p);
  addString (ProgramCommandBlock_command p);
  addVarInt (ProgramCommandBlock_mode p);
  addByte (ProgramCommandBlock_flags p)].
Definition wf_ProgramCommandBlock (p : ProgramCommandBlock) : Prop :=
  Position_in_wire_range (ProgramCommandBlock_location p) ∧
  string_fits (ProgramCommandBlock_command p) ∧
  is_s 32 (ProgramCommandBlock_mode p) ∧
  is_u 8 (ProgramCommandBlock_flags p).

Definition client_ProgramCommandBlockMinecart (p : ProgramCommandBlockMinecart) : writer := serialize [
  addVarInt (ProgramCommandBlockMinecart_entityId p);
  addString (ProgramCommandBlockMinecart_command p);
  addBoolean (ProgramCommandBlockMinecart_trackOutput p)].
Definition wf_ProgramCommandBlockMinecart (p : ProgramCommandBlockMinecart) : Prop :=
  is_s 32 (ProgramCommandBlockMinecart_entityId p) ∧
  string_fits (ProgramCommandBlockMinecart_command p).

Definition client_SetCreativeModeSlot (p : SetCreativeModeSlot) : writer := serialize [
  addShort (SetCreativeModeSlot_slot p);
  addSlot (SetCreativeModeSlot_clickedItem p)].
Definition wf_SetCreativeModeSlot (p : SetCreativeModeSlot) : Prop :=
  is_s 16 (SetCreativeModeSlot_slot p) ∧
  slot_canonical (SetCreativeModeSlot_clickedItem p).

Definition client_ProgramJigsawBlock (p : ProgramJigsawBlock) : writer := serialize [
  addPosition (ProgramJigsawBlock_location p);
  addString (ProgramJigsawBlock_name p);
  addString (ProgramJigsawBlock_target p);
  addString (ProgramJigsawBlock_pool p);
  addString (ProgramJigsawBlock_finalState p);
  addString (ProgramJigsawBlock_jointType p)].
Definition wf_ProgramJigsawBlock (p : ProgramJigsawBlock) : Prop :=
  Position_in_wire_range (ProgramJigsawBlock_location p) ∧
  string_fits (ProgramJigsawBlock_name p) ∧
  string_fits (ProgramJigsawBlock_target p) ∧
  string_fits (ProgramJigsawBlock_pool p) ∧
  string_fits (ProgramJigsawBlock_finalState p) ∧
  string_fits (ProgramJigsawBlock_jointType p).

Definition client_ProgramStructureBlock (p : ProgramStructureBlock) : writer := serialize [
  addPosition (ProgramStructureBlock_location p);
  addVarInt (ProgramStructureBlock_action p);
  addVarInt (ProgramStructureBlock_mode p);
  addString (ProgramStructureBlock_name p);
  addByte (ProgramStructureBlock_offsetX p);
  addByte (ProgramStructureBlock_offsetY p);
  addByte (ProgramStructureBlock_offsetZ p);
  addByte (ProgramStructureBlock_sizeX p);
  addByte (ProgramStructureBlock_sizeY p);
  addByte (ProgramStructureBlock_sizeZ p);
  addVarInt (ProgramStructureBlock_mirror p);
  addVarInt (ProgramStructureBlock_rotation p);
  addString (ProgramStructureBlock_metadata p);
  addFloat (ProgramStructureBlock_integrity p);
  addVarLong (ProgramStructureBlock_seed p);
  addByte (ProgramStructureBlock_flags p)].
Definition client_UpdateSign (p : UpdateSign) : writer := serialize [
  addPosition (UpdateSign_location p);
  addString (UpdateSign_line1 p);
  addString (UpdateSign_line2 p);
  addString (UpdateSign_line3 p);
  addString (UpdateSign_line4 p)].
Definition wf_UpdateSign (p : UpdateSign) : Prop :=
  Position_in_wire_range (UpdateSign_location p) ∧
  string_fits (UpdateSign_line1 p) ∧
  string_fits (UpdateSign_line2 p) ∧
  string_fits (UpdateSign_line3 p) ∧
  string_fits (UpdateSign_line4 p).

Definition client_SwingArm (p : SwingArm) : writer := serialize [
  addVarInt (SwingArm_hand p)].
Definition wf_SwingArm (p : SwingArm) : Prop :=
  is_s 32 (SwingArm_hand p).

Definition client_TeleportToEntity (p : TeleportToEntity) : writer := serialize [
  addUUID (TeleportToEntity_targetPlayer p)].
Definition wf_TeleportToEntity (p : TeleportToEntity) : Prop :=
  u128_wf (TeleportToEntity_targetPlayer p).

Definition client_UseItemOn (p : UseItemOn) : writer := serialize [
  addVarInt (UseItemOn_hand p);
  addPosition (UseItemOn_location p);
  addVarInt (UseItemOn_face p);
  addFloat (UseItemOn_cursorPositionX p);
  addFloat (UseItemOn_cursorPositionY p);
  addFloat (UseItemOn_cursorPositionZ p);
  addBoolean (UseItemOn_insideBlock p);
  addVarInt (UseItemOn_sequence p)].
Definition wf_UseItemOn (p : UseItemOn) : Prop :=
  is_s 32 (UseItemOn_hand p) ∧
  Position_in_wire_range (UseItemOn_location p) ∧
  is_s 32 (UseItemOn_face p) ∧
  is_u 32 (UseItemOn_cursorPositionX p) ∧
  is_u 32 (UseItemOn_cursorPositionY p) ∧
  is_u 32 (UseItemOn_cursorPositionZ p) ∧
  is_s 32 (UseItemOn_sequence p).

Definition client_UseItem (p : UseItem) : writer := serialize [
  addVarInt (UseItem_hand p);
  addVarInt (UseItem_sequence p)].
Definition wf_UseItem (p : UseItem) : Prop :=
  is_s 32 (UseItem_hand p) ∧
  is_s 32 (UseItem_sequence p).

(** ** Every packet *)

Definition client_packet (p : BaseServerPacket) : writer :=
  match p with
  | Handshake_packet p => client_Handshake p
  | StatusRequest_packet p => client_StatusRequest p
  | PingRequest_packet p => client_PingRequest p
  | LoginStart_packet p => client_LoginStart p
  | EncryptionResponse_packet p => client_EncryptionResponse p
  | ConfirmTeleportation_packet p => client_ConfirmTeleportation p
  | QueryBlockEntityTag_packet p => client_QueryBlockEntityTag p
  | ChangeDifficulty_packet p => client_ChangeDifficulty p
  | MessageAcknowledgement_packet p => client_MessageAcknowledgement p
  | ChatCommand_packet p => client_ChatCommand p
  | ChatMessage_packet p => client_ChatMessage p
  | ClientCommand_packet p => client_ClientCommand p
  | ClientInformation_packet p => client_ClientInformation p
  | CommandSuggestionRequest_packet p => client_CommandSuggestionRequest p
  | ClickContainerButton_packet p => client_ClickContainerButton p
  | ClickContainer_packet p => client_ClickContainer p
  | CloseContainerRequest_packet p => client_CloseContainerRequest p
  | PluginMessage_packet p => client_PluginMessage p
  | EditBook_packet p => client_EditBook p
  | QueryEntityTag_packet p => client_QueryEntityTag p
  | Interact_packet p => client_Interact p
  | JigsawGenerate_packet p => client_JigsawGenerate p
  | KeepAliveResponse_packet p => client_KeepAliveResponse p
  | LockDifficulty_packet p => client_LockDifficulty p
  | SetPlayerPosition_packet p => client_SetPlayerPosition p
  | SetPlayerPositionAndRotation_packet p => client_SetPlayerPositionAndRotation p
  | SetPlayerRotation_packet p => client_SetPlayerRotation p
  | SetPlayerOnGround_packet p => client_SetPlayerOnGround p
  | MoveVehicle_packet p => client_MoveVehicle p
  | PaddleBoat_packet p => client_PaddleBoat p
  | PickItem_packet p => client_PickItem p
  | PlaceRecipe_packet p => client_PlaceRecipe p
  | PlayerAbilities_packet p => client_PlayerAbilities p
  | PlayerAction_packet p => client_PlayerAction p
  | PlayerCommand_packet p => client_PlayerCommand p
  | PlayerInput_packet p => client_PlayerInput p
  | Pong_packet p => client_Pong p
  | PlayerSession_packet p => client_PlayerSession p
  | ChangeRecipeBookSettings_packet p => client_ChangeRecipeBookSettings p
  | SetSeenRecipe_packet p => client_SetSeenRecipe p
  | RenameItem_packet p => client_RenameItem p
  | ResourcePack_packet p => client_ResourcePack p
  | SeenAdvancements_packet p => client_SeenAdvancements p
  | SelectTrade_packet p => client_SelectTrade p
  | SetBeaconEffect_packet p => client_SetBeaconEffect p
  | SetHeldItem_packet p => client_SetHeldItem p
  | ProgramCommandBlock_packet p => client_ProgramCommandBlock p
  | ProgramCommandBlockMinecart_packet p => client_ProgramCommandBlockMinecart p
  | SetCreativeModeSlot_packet p => client_SetCreativeModeSlot p
  | ProgramJigsawBlock_packet p => client_ProgramJigsawBlock p
  | ProgramStructureBlock_packet p => client_ProgramStructureBlock p
  | UpdateSign_packet p => client_UpdateSign p
  | SwingArm_packet p => client_SwingArm p
  | TeleportToEntity_packet p => client_TeleportToEntity p
  | UseItemOn_packet p => client_UseItemOn p
  | UseItem_packet p => client_UseItem p
  end.

(** The parser of structure blocks leaves out their name, so that whatever follows it is
    read at the wrong place: nothing is said about them. *)
Definition wf_packet (p : BaseServerPacket) : Prop :=
  match p with
  | Handshake_packet p => wf_Handshake p
  | StatusRequest_packet p => wf_StatusRequest p
  | PingRequest_packet p => wf_PingRequest p
  | LoginStart_packet p => wf_LoginStart p
  | EncryptionResponse_packet p => wf_EncryptionResponse p
  | ConfirmTeleportation_packet p => wf_ConfirmTeleportation p
  | QueryBlockEntityTag_packet p => wf_QueryBlockEntityTag p
  | ChangeDifficulty_packet p => wf_ChangeDifficulty p
  | MessageAcknowledgement_packet p => wf_MessageAcknowledgement p
  | ChatCommand_packet p => wf_ChatCommand p
  | ChatMessage_packet p => wf_ChatMessage p
  | ClientCommand_packet p => wf_ClientCommand p
  | ClientInformation_packet p => wf_ClientInformation p
  | CommandSuggestionRequest_packet p => wf_CommandSuggestionRequest p
  | ClickContainerButton_packet p => wf_ClickContainerButton p
  | ClickContainer_packet p => wf_ClickContainer p
  | CloseContainerRequest_packet p => wf_CloseContainerRequest p
  | PluginMessage_packet p => wf_PluginMessage p
  | EditBook_packet p => wf_EditBook p
  | QueryEntityTag_packet p => wf_QueryEntityTag p
  | Interact_packet p => wf_Interact p
  | JigsawGenerate_packet p => wf_JigsawGenerate p
  | KeepAliveResponse_packet p => wf_KeepAliveResponse p
  | LockDifficulty_packet p => wf_LockDifficulty p
  | SetPlayerPosition_packet p => wf_SetPlayerPosition p
  | SetPlayerPositionAndRotation_packet p => wf_SetPlayerPositionAndRotation p
  | SetPlayerRotation_packet p => wf_SetPlayerRotation p
  | SetPlayerOnGround_packet p => wf_SetPlayerOnGround p
  | MoveVehicle_packet p => wf_MoveVehicle p
  | PaddleBoat_packet p => wf_PaddleBoat p
  | PickItem_packet p => wf_PickItem p
  | PlaceRecipe_packet p => wf_PlaceRecipe p
  | PlayerAbilities_packet p => wf_PlayerAbilities p
  | PlayerAction_packet p => wf_PlayerAction p
  | PlayerCommand_packet p => wf_PlayerCommand p
  | PlayerInput_packet p => wf_PlayerInput p
  | Pong_packet p => wf_Pong p
  | PlayerSession_packet p => wf_PlayerSession p
  | ChangeRecipeBookSettings_packet p => wf_ChangeRecipeBookSettings p
  | SetSeenRecipe_packet p => wf_SetSeenRecipe p
  | RenameItem_packet p => wf_RenameItem p
  | ResourcePack_packet p => wf_ResourcePack p
  | SeenAdvancements_packet p => wf_SeenAdvancements p
  | SelectTrade_packet p => wf_SelectTrade p
  | SetBeaconEffect_packet p => wf_SetBeaconEffect p
  | SetHeldItem_packet p => wf_SetHeldItem p
  | ProgramCommandBlock_packet p => wf_ProgramCommandBlock p
  | ProgramCommandBlockMinecart_packet p => wf_ProgramCommandBlockMinecart p
  | SetCreativeModeSlot_packet p => wf_SetCreativeModeSlot p
  | ProgramJigsawBlock_packet p => wf_ProgramJigsawBlock p
  | ProgramStructureBlock_packet _ => False
  | UpdateSign_packet p => wf_UpdateSign p
  | SwingArm_packet p => wf_SwingArm p
  | TeleportToEntity_packet p => wf_TeleportToEntity p
  | UseItemOn_packet p => wf_UseItemOn p
  | UseItem_packet p => wf_UseItem p
  end.

(** The table a packet belongs to, and its identifier there. *)
Definition table_of (p : BaseServerPacket) : gmap Z packet_parser :=
  match p with
  | Handshake_packet _ => packetIDToParseInitial
  | StatusRequest_packet _ => packetIDToParseStatus
  | PingRequest_packet _ => packetIDToParseStatus
  | LoginStart_packet _ => packetIDToParseLogin
  | EncryptionResponse_packet _ => packetIDToParseLogin
  | _ => packetIDToParsePlay
  end.

Definition packet_id (p : BaseServerPacket) : Z :=
  match p with
  | Handshake_packet _ => ServerPacketsID_Handshake
  | StatusRequest_packet _ => ServerPacketsID_StatusRequest
  | PingRequest_packet _ => ServerPacketsID_PingRequest
  | LoginStart_packet _ => ServerPacketsID_LoginStart
  | EncryptionResponse_packet _ => ServerPacketsID_EncryptionResponse
  | ConfirmTeleportation_packet _ => ServerPacketsID_ConfirmTeleportation
  | QueryBlockEntityTag_packet _ => ServerPacketsID_QueryBlockEntityTag
  | ChangeDifficulty_packet _ => ServerPacketsID_ChangeDifficulty
  | MessageAcknowledgement_packet _ => ServerPacketsID_MessageAcknowledgement
  | ChatCommand_packet _ => ServerPacketsID_ChatCommand
  | ChatMessage_packet _ => ServerPacketsID_ChatMessage
  | ClientCommand_packet _ => ServerPacketsID_ClientCommand
  | ClientInformation_packet _ => ServerPacketsID_ClientInformation
  | CommandSuggestionRequest_packet _ => ServerPacketsID_CommandSuggestionRequest
  | ClickContainerButton_packet _ => ServerPacketsID_ClickContainerButton
  | ClickContainer_packet _ => ServerPacketsID_ClickContainer
  | CloseContainerRequest_packet _ => ServerPacketsID_CloseContainerRequest
  | PluginMessage_packet _ => ServerPacketsID_PluginMessage
  | EditBook_packet _ => ServerPacketsID_EditBook
  | QueryEntityTag_packet _ => ServerPacketsID_QueryEntityTag
  | Interact_packet _ => ServerPacketsID_Interact
  | JigsawGenerate_packet _ => ServerPacketsID_JigsawGenerate
  | KeepAliveResponse_packet _ => ServerPacketsID_KeepAliveResponse
  | LockDifficulty_packet _ => ServerPacketsID_LockDifficulty
  | SetPlayerPosition_packet _ => ServerPacketsID_SetPlayerPosition
  | SetPlayerPositionAndRotation_packet _ => ServerPacketsID_SetPlayerPositionAndRotation
  | SetPlayerRotation_packet _ => ServerPacketsID_SetPlayerRotation
  | SetPlayerOnGround_packet _ => ServerPacketsID_SetPlayerOnGround
  | MoveVehicle_packet _ => ServerPacketsID_MoveVehicle
  | PaddleBoat_packet _ => ServerPacketsID_PaddleBoat
  | PickItem_packet _ => ServerPacketsID_PickItem
  | PlaceRecipe_packet _ => ServerPacketsID_PlaceRecipe
  | PlayerAbilities_packet _ => ServerPacketsID_PlayerAbilities
  | PlayerAction_packet _ => ServerPacketsID_PlayerAction
  | PlayerCommand_packet _ => ServerPacketsID_PlayerCommand
  | PlayerInput_packet _ => ServerPacketsID_PlayerInput
  | Pong_packet _ => ServerPacketsID_Pong
  | PlayerSession_packet _ => ServerPacketsID_PlayerSession
  | ChangeRecipeBookSettings_packet _ => ServerPacketsID_ChangeRecipeBookSettings
  | SetSeenRecipe_packet _ => ServerPacketsID_SetSeenRecipe
  | RenameItem_packet _ => ServerPacketsID_RenameItem
  | ResourcePack_packet _ => ServerPacketsID_ResourcePack
  | SeenAdvancements_packet _ => ServerPacketsID_SeenAdvancements
  | SelectTrade_packet _ => ServerPacketsID_SelectTrade
  | SetBeaconEffect_packet _ => ServerPacketsID_SetBeaconEffect
  | SetHeldItem_packet _ => ServerPacketsID_SetHeldItem
  | ProgramCommandBlock_packet _ => ServerPacketsID_ProgramCommandBlock
  | ProgramCommandBlockMinecart_packet _ => ServerPacketsID_ProgramCommandBlockMinecart
  | SetCreativeModeSlot_packet _ => ServerPacketsID_SetCreativeModeSlot
  | ProgramJigsawBlock_packet _ => ServerPacketsID_ProgramJigsawBlock
  | ProgramStructureBlock_packet _ => ServerPacketsID_ProgramStructureBlock
  | UpdateSign_packet _ => ServerPacketsID_UpdateSign
  | SwingArm_packet _ => ServerPacketsID_SwingArm
  | TeleportToEntity_packet _ => ServerPacketsID_TeleportToEntity
  | UseItemOn_packet _ => ServerPacketsID_UseItemOn
  | UseItem_packet _ => ServerPacketsID_UseItem
  end.

(** What the parser of a packet hands over: the packet, but for a status request, of which
    it makes nothing, the data of a plugin message, all but the first bit of each byte
    of the acknowledgements, and those of a chat message, read too early. *)
Definition delivered (p : BaseServerPacket) : option BaseServerPacket :=
  match p with
  | StatusRequest_packet _ => None
  | PluginMessage_packet p => Some (PluginMessage_packet (mk_PluginMessage (PluginMessage_channel p) []))
  | ChatCommand_packet p =>
      Some (ChatCommand_packet (mk_ChatCommand (ChatCommand_command p) (ChatCommand_timestamp p) (ChatCommand_salt p)
        (ChatCommand_argumentSignatures p) (ChatCommand_messageCount p) (bits_kept (ChatCommand_acknowledged p))))
  | ChatMessage_packet p =>
      Some (ChatMessage_packet (mk_ChatMessage (ChatMessage_message p) (ChatMessage_timestamp p) (ChatMessage_salt p)
        (ChatMessage_isSigned p) (ChatMessage_signature p) 0 (acknowledged_read p)))
  | _ => Some p
  end.

(** The parser that should get the packet. *)
Definition parser_for (p : BaseServerPacket) : packet_parser :=
  match p with
  | Handshake_packet _ => parser_of parseHandshake Handshake_packet
  | StatusRequest_packet _ => nullable_parser_of parseStatusRequest StatusRequest_packet
  | PingRequest_packet _ => parser_of parsePingRequest PingRequest_packet
  | LoginStart_packet _ => parser_of parseLoginStart LoginStart_packet
  | EncryptionResponse_packet _ => parser_of parseEncryptionResponse EncryptionResponse_packet
  | ConfirmTeleportation_packet _ => parser_of parseConfirmTeleportation ConfirmTeleportation_packet
  | QueryBlockEntityTag_packet _ => parser_of parseQueryBlockEntityTag QueryBlockEntityTag_packet
  | ChangeDifficulty_packet _ => parser_of parseChangeDifficulty ChangeDifficulty_packet
  | MessageAcknowledgement_packet _ => parser_of parseMessageAcknowledgement MessageAcknowledgement_packet
  | ChatCommand_packet _ => parser_of parseChatCommand ChatCommand_packet
  | ChatMessage_packet _ => parser_of parseChatMessage ChatMessage_packet
  | ClientCommand_packet _ => parser_of parseClientCommand ClientCommand_packet
  | ClientInformation_packet _ => parser_of parseClientInformation ClientInformation_packet
  | CommandSuggestionRequest_packet _ => parser_of parseCommandSuggestionRequest CommandSuggestionRequest_packet
  | ClickContainerButton_packet _ => parser_of parseClickContainerButton ClickContainerButton_packet
  | ClickContainer_packet _ => parser_of parseClickContainer ClickContainer_packet
  | CloseContainerRequest_packet _ => parser_of parseCloseContainerRequest CloseContainerRequest_packet
  | PluginMessage_packet _ => parser_of parsePluginMessage PluginMessage_packet
  | EditBook_packet _ => parser_of parseEditBook EditBook_packet
  | QueryEntityTag_packet _ => parser_of parseQueryEntityTag QueryEntityTag_packet
  | Interact_packet _ => parser_of parseInteract Interact_packet
  | JigsawGenerate_packet _ => parser_of parseJigsawGenerate JigsawGenerate_packet
  | KeepAliveResponse_packet _ => parser_of parseKeepAliveResponse KeepAliveResponse_packet
  | LockDifficulty_packet _ => parser_of parseLockDifficulty LockDifficulty_packet
  | SetPlayerPosition_packet _ => parser_of parseSetPlayerPosition SetPlayerPosition_packet
  | SetPlayerPositionAndRotation_packet _ => parser_of parseSetPlayerPositionAndRotation SetPlayerPositionAndRotation_packet
  | SetPlayerRotation_packet _ => parser_of parseSetPlayerRotation SetPlayerRotation_packet
  | SetPlayerOnGround_packet _ => parser_of parseSetPlayerOnGround SetPlayerOnGround_packet
  | MoveVehicle_packet _ => parser_of parseMoveVehicle MoveVehicle_packet
  | PaddleBoat_packet _ => parser_of parsePaddleBoat PaddleBoat_packet
  | PickItem_packet _ => parser_of parsePickItem PickItem_packet
  | PlaceRecipe_packet _ => parser_of parsePlaceRecipe PlaceRecipe_packet
  | PlayerAbilities_packet _ => parser_of parsePlayerAbilities PlayerAbilities_packet
  | PlayerAction_packet _ => parser_of parsePlayerAction PlayerAction_packet
  | PlayerCommand_packet _ => parser_of parsePlayerCommand PlayerCommand_packet
  | PlayerInput_packet _ => parser_of parsePlayerInput PlayerInput_packet
  | Pong_packet _ => parser_of parsePong Pong_packet
  | PlayerSession_packet _ => parser_of parsePlayerSession PlayerSession_packet
  | ChangeRecipeBookSettings_packet _ => parser_of parseChangeRecipeBookSettings ChangeRecipeBookSettings_packet
  | SetSeenRecipe_packet _ => parser_of parseSetSeenRecipe SetSeenRecipe_packet
  | RenameItem_packet _ => parser_of parseRenameItem RenameItem_packet
  | ResourcePack_packet _ => parser_of parseResourcePack ResourcePack_packet
  | SeenAdvancements_packet _ => parser_of parseSeenAdvancements SeenAdvancements_packet
  | SelectTrade_packet _ => parser_of parseSelectTrade SelectTrade_packet
  | SetBeaconEffect_packet _ => parser_of parseSetBeaconEffect SetBeaconEffect_packet
  | SetHeldItem_packet _ => parser_of parseSetHeldItem SetHeldItem_packet
  | ProgramCommandBlock_packet _ => parser_of parseProgramCommandBlock ProgramCommandBlock_packet
  | ProgramCommandBlockMinecart_packet _ => parser_of parseProgramCommandBlockMinecart ProgramCommandBlockMinecart_packet
  | SetCreativeModeSlot_packet _ => parser_of parseSetCreativeModeSlot SetCreativeModeSlot_packet
  | ProgramJigsawBlock_packet _ => parser_of parseProgramJigsawBlock ProgramJigsawBlock_packet
  | ProgramStructureBlock_packet _ => parser_of parseProgramStructureBlock ProgramStructureBlock_packet
  | UpdateSign_packet _ => parser_of parseUpdateSign UpdateSign_packet
  | SwingArm_packet _ => parser_of parseSwingArm SwingArm_packet
  | TeleportToEntity_packet _ => parser_of parseTeleportToEntity TeleportToEntity_packet
  | UseItemOn_packet _ => parser_of parseUseItemOn UseItemOn_packet
  | UseItem_packet _ => parser_of parseUseItem UseItem_packet
  end.
