(* ===== verification/PacketLaws.v ===== *)
(** * The packet parsers, together

    Every packet structure's round trip, the coverage of the dispatch tables,
    and the parsers' behaviour on input that no client should send. *)

From S2P Require Import Prelude Types Codec Structures Add Pop PrimaryLaws CompositeLaws PrimarySafety RoundTrip ServerPackets ServerWire.

(** ** Round trips *)

Lemma rt_parser {A} (w : writer) (p : reader A) (c : A → BaseServerPacket) a post :
  RT w p a →
  ∃ bs, w [] = Ok bs ∧ parser_of (run_reader p) c (bs ++ post) = Ok (Some (c a)).
Proof.
  intros H. destruct (rt_run _ _ _ post H) as (bs & Hw & Hr).
  exists bs. split; [done|]. unfold parser_of. by rewrite Hr.
Qed.

Lemma rt_ArgumentSignature s :
  wf_ArgumentSignature s → RT (client_ArgumentSignature s) popArgumentSignature s.
Proof. intros (? & ?). rt_fields. by destruct s. Qed.
#[export] Hint Resolve rt_ArgumentSignature : rt.

Lemma rt_SlotWithIndex s : wf_SlotWithIndex s → RT (client_SlotWithIndex s) popSlotWithIndex s.
Proof. intros (? & ?). rt_fields. rt_record s. Qed.
#[export] Hint Resolve rt_SlotWithIndex : rt.

(** The byte array of a plugin message, which its parser leaves to what follows. *)
Lemma plugin_message_rt p post :
  wf_PluginMessage p →
  ∃ bs, client_PluginMessage p [] = Ok bs ∧
    parser_of parsePluginMessage PluginMessage_packet (bs ++ post) =
      Ok (Some (PluginMessage_packet (mk_PluginMessage (PluginMessage_channel p) []))).
Proof.
  intros [Hc Hd]. destruct (rt_String _ Hc) as (bs & Hw & Hr). exists (bs ++ PluginMessage_data p). split.
  - apply emits_nil. eapply emits_eq.
    + apply emits_serialize_cons; [exact Hw|]. apply emits_serialize_cons; [by apply emits_bytes|apply _].
    + by rewrite app_nil_r.
  - unfold parser_of, parsePluginMessage. rewrite <- app_assoc.
    erewrite (run_reader_reads _ bs); [done|]. rewrite <- (app_nil_r bs). eapply reads_bind; [exact Hr|apply reads_ret].
Qed.

(** The tail of a chat message, of which the parser takes three bytes. *)
Lemma acknowledged_tail p :
  length (ChatMessage_acknowledged p) = 20%nat →
  ∃ bs more, varint_bytes (ChatMessage_messageCount p) ++ bitset_bytes 20 (ChatMessage_acknowledged p) = bs ++ more ∧
    Reads (popBitSet 20) bs (acknowledged_read p).
Proof.
  intros Hl. unfold acknowledged_read. pose proof (varint_bytes_nonempty (ChatMessage_messageCount p)) as Hne.
  destruct (varint_bytes _) as [|b v]; [done|]. clear Hne.
  assert (∃ c0 c1 c2, bitset_bytes 20 (ChatMessage_acknowledged p) = [c0; c1; c2]) as (c0 & c1 & c2 & ->).
  { destruct (ChatMessage_acknowledged p) as [|x l]; [done|].
    do 19 (destruct l as [|? l]; [done|]). destruct l; [|done]. cbn. eauto. }
  destruct v as [|b1 [|b2 v]].
  - exists [b; c0; c1], [c2]. split; [done|apply reads_popBitSet_20].
  - exists [b; b1; c0], [c1; c2]. split; [done|apply reads_popBitSet_20].
  - exists [b; b1; b2], (v ++ [c0; c1; c2]). split; [done|]. apply reads_popBitSet_20.
Qed.

Lemma chat_message_rt p post :
  wf_ChatMessage p →
  ∃ bs, client_ChatMessage p [] = Ok bs ∧
    parser_of parseChatMessage ChatMessage_packet (bs ++ post) = Ok (delivered (ChatMessage_packet p)).
Proof.
  intros (Hm & Ht & Hs & Hg & Hc & Hl). destruct (acknowledged_tail p Hl) as (bits & more & E & Hb).
  destruct (rt_String _ Hm) as (b1 & W1 & R1). destruct (rt_Long _ Ht) as (b2 & W2 & R2).
  destruct (rt_Long _ Hs) as (b3 & W3 & R3). destruct (rt_Boolean (ChatMessage_isSigned p)) as (b4 & W4 & R4).
  assert (RT (when (ChatMessage_isSigned p) (addArray addByte (ChatMessage_signature p)))
    (if ChatMessage_isSigned p then popArray popByte else mret []) (ChatMessage_signature p)) as (b5 & W5 & R5).
  { apply rt_when. destruct (ChatMessage_isSigned p); [by apply rt_byte_array|done]. }
  exists (b1 ++ b2 ++ b3 ++ b4 ++ b5 ++ bits ++ more). split.
  - apply emits_nil. eapply emits_eq.
    + unfold client_ChatMessage.
      repeat (apply emits_serialize_cons; [first [eassumption|apply emits_addVarInt|apply emits_put_bitset]|]). apply _.
    + by rewrite Hl, app_nil_r, E.
  - replace ((b1 ++ b2 ++ b3 ++ b4 ++ b5 ++ bits ++ more) ++ post)
      with ((b1 ++ b2 ++ b3 ++ b4 ++ b5 ++ bits ++ []) ++ more ++ post) by (by rewrite !app_nil_r, <- !app_assoc).
    unfold parser_of, parseChatMessage. erewrite run_reader_reads; [done|].
    repeat (eapply reads_bind; [eassumption|cbn beta]). apply reads_ret.
Qed.

Lemma chat_command_rt p post :
  wf_ChatCommand p →
  ∃ bs, client_ChatCommand p [] = Ok bs ∧
    parser_of parseChatCommand ChatCommand_packet (bs ++ post) = Ok (delivered (ChatCommand_packet p)).
Proof. intros (? & ? & ? & ? & ? & ?). eapply rt_parser. rt_fields. done. Qed.

(** The parser of effects reads them both, and they are both there. *)
Lemma beacon_effect_rt p post :
  wf_SetBeaconEffect p →
  ∃ bs, client_SetBeaconEffect p [] = Ok bs ∧
    parser_of parseSetBeaconEffect SetBeaconEffect_packet (bs ++ post) = Ok (Some (SetBeaconEffect_packet p)).
Proof.
  destruct p as [f1 e1 f2 e2]. intros (H1 & H2 & He1 & He2). cbn in *. subst f1 f2.
  apply (rt_parser (serialize [addBoolean true; addVarInt e1; addBoolean true; addVarInt e2])). rt_fields. done.
Qed.

Lemma packet_rt p post :
  wf_packet p →
  ∃ bs, client_packet p [] = Ok bs ∧ parser_for p (bs ++ post) = Ok (delivered p).
Proof.
  intros Hwf. destruct p as [];
    lazymatch goal with
    | |- context [PluginMessage_packet _] => by apply plugin_message_rt
    | |- context [ChatMessage_packet _] => by apply chat_message_rt
    | |- context [ChatCommand_packet _] => by apply chat_command_rt
    | |- context [SetBeaconEffect_packet _] => by apply beacon_effect_rt
    | |- context [ProgramStructureBlock_packet _] => done
    | |- _ => cbn in Hwf; red in Hwf; destruct_and?; first [by eexists|eapply rt_parser; rt_fields; rt_record packet]
    end.
Qed.

(** ** Dispatch *)

Lemma table_lookup {V} (l : list (Z * V)) k v i :
  bool_decide (NoDup l.*1) = true → l !! i = Some (k, v) →
  (list_to_map l : gmap Z V) !! k = Some v.
Proof.
  intros Hl Hi. apply elem_of_list_to_map_1; [by eapply bool_decide_eq_true_1|].
  by eapply list_elem_of_lookup_2.
Qed.

Lemma table_of_packet p : table_of p !! packet_id p = Some (parser_for p).
Proof.
  destruct p as []; cbn [table_of parser_for];
    match goal with |- ?t !! ?i = _ =>
      unfold t; apply (table_lookup _ _ _ (Z.to_nat i)); [vm_compute|]; reflexivity
    end.
Qed.

(** ** Arbitrary input *)

Definition parser_ok (parse : packet_parser) : Prop := ∀ buffer, parse_outcome_ok (parse buffer).

Lemma parser_of_ok {A} (p : reader A) (c : A → BaseServerPacket) :
  Safe p → parser_ok (parser_of (run_reader p) c).
Proof.
  intros Hp buffer. unfold parser_of.
  pose proof (run_reader_safe p buffer Hp). by destruct (run_reader p buffer).
Qed.

#[export] Instance safe_popArgumentSignature : Safe popArgumentSignature.
Proof. apply _. Qed.
#[export] Instance safe_popSlotWithIndex : Safe popSlotWithIndex.
Proof. apply _. Qed.

Lemma table_forall {V} (P : V → Prop) (l : list (Z * V)) :
  Forall (λ kv, P kv.2) l → map_Forall (λ _, P) (list_to_map l : gmap Z V).
Proof.
  intros H k v Hk. apply elem_of_list_to_map_2 in Hk.
  apply list_elem_of_lookup in Hk as [i Hi]. exact (Forall_lookup_1 _ _ _ _ H Hi).
Qed.

Definition server_tables : list (gmap Z packet_parser) :=
  [packetIDToParseInitial; packetIDToParseStatus; packetIDToParseLogin; packetIDToParsePlay].

Lemma tables_ok : Forall (map_Forall (λ _, parser_ok)) server_tables.
Proof.
  repeat (apply Forall_cons_2; [apply table_forall|]); [..|apply Forall_nil_2];
    repeat (apply Forall_cons_2; [cbn [snd]|]); try apply Forall_nil_2;
    first [by intros buffer|eapply parser_of_ok; apply _].
Qed.

(** ** Properties *)

(** C1: every packet of every connection state but one survives the trip: the bytes a
    client writes that puts the fields of the packet's structure one after another, each in
    the server's encoding of its type and the optional ones under their flags, are
    handed by the state's table, under the packet's identifier, to a parser
    that rebuilds the packet, whatever follows it in the buffer.  What is not rebuilt is
    exactly what [delivered] says: a status request gives the null pointer, the data
    of a plugin message are dropped, of the acknowledgement bits of a command the first of
    every byte is kept, and a chat message loses its message count, from the bytes of which
    its acknowledgements are taken.  Structure blocks, whose parser skips a string in
    the middle, and beacon effects that are not both there are left out ([wf_packet]). *)
Theorem packet_roundtrip (p : BaseServerPacket) (post : list Z) :
  wf_packet p →
  ∃ bs parse,
    client_packet p [] = Ok bs ∧
    table_of p !! packet_id p = Some parse ∧
    parse (bs ++ post) = Ok (delivered p).
Proof.
  intros Hwf. destruct (packet_rt p post Hwf) as (bs & Hc & Hp).
  exists bs, (parser_for p). split_and!; [done|apply table_of_packet|done].
Qed.

Definition click_example : BaseServerPacket :=
  ClickContainer_packet (mk_ClickContainer 0 (-1) (-999) 2 5
    [mk_ClickContainer_SlotWithIndex (-1) Slot_default;
     mk_ClickContainer_SlotWithIndex 36 (mk_Slot true 764 (-3))]
    (mk_Slot true 1 64)).

Lemma packet_roundtrip_witness :
  wf_packet click_example ∧
  ∃ bs parse,
    client_packet click_example [] = Ok bs ∧
    table_of click_example !! packet_id click_example = Some parse ∧
    parse (bs ++ [255]) = Ok (delivered click_example).
Proof.
  assert (wf_packet click_example) as H.
  { cbv -[Z.le Z.lt Slot_default is_s is_u]. unfold is_s, is_u.
    split_and!; try lia; try done. repeat constructor; cbn; lia || done. }
  split; [exact H|apply (packet_roundtrip click_example [255] H)].
Defined.

(** C2: no packet can make a parser misbehave: whatever bytes arrive, each parser
    of each table terminates without reading outside of the buffer, and ends in
    a packet, in an exception that the connection's [catch] of
    [std::runtime_error] receives, or in the inverted iterator range of a
    string with a negative length. *)
Theorem parsers_memory_safe (table : gmap Z packet_parser) (id : Z) (parse : packet_parser)
    (buffer : list Z) :
  table ∈ server_tables → table !! id = Some parse → parse_outcome_ok (parse buffer).
Proof.
  intros Ht Hp. apply list_elem_of_lookup in Ht as [i Hi].
  by apply (Forall_lookup_1 _ _ _ _ tables_ok Hi id parse Hp).
Qed.

Lemma parsers_memory_safe_witness :
  packetIDToParsePlay ∈ server_tables ∧
  packetIDToParsePlay !! 4 = Some (parser_of parseChatCommand ChatCommand_packet) ∧
  parse_outcome_ok (parser_of parseChatCommand ChatCommand_packet [200; 200]).
Proof.
  assert (packetIDToParsePlay ∈ server_tables) as Ht.
  { apply (list_elem_of_lookup_2 _ 3%nat). reflexivity. }
  assert (packetIDToParsePlay !! 4 = Some (parser_of parseChatCommand ChatCommand_packet)) as Hl.
  { reflexivity. }
  split_and!; [exact Ht|exact Hl|exact (parsers_memory_safe _ 4 _ [200; 200] Ht Hl)].
Defined.

(** The identifiers the play state dispatches are exactly 0x00 to 0x32. *)
Theorem play_table_domain (id : Z) :
  is_Some (packetIDToParsePlay !! id) ↔ 0 ≤ id ≤ 0x32.
Proof.
  assert (dom packetIDToParsePlay = list_to_set (seqZ 0 51)) as E.
  { unfold packetIDToParsePlay. rewrite dom_list_to_map_L. by vm_compute. }
  rewrite <- elem_of_dom, E, elem_of_list_to_set, elem_of_seqZ. lia.
Qed.

(** A bit set loses every bit but the first of each byte: [popBitSet] tests
    [byte & (1 >> i)], which is zero for every positive [i]. *)
Theorem popBitSet_keeps_first_bits (bits : list bool) (post : list Z) :
  ∃ bs, put_bitset bits [] = Ok bs ∧
    run_reader (popBitSet (length bits)) (bs ++ post) =
      Ok (imap (λ i b, bool_decide ((i `mod` 8)%nat = O) && b) bits).
Proof. by apply rt_run, rt_BitSet_kept. Qed.

(** A string whose announced length is negative passes the end-of-packet
    guard and builds a string from an inverted range. *)
Theorem popString_negative_length (size : Z) (post : list Z) :
  is_s 32 size → size < 0 →
  run_reader popString (varint_bytes size ++ post) = UB InvalidRange.
Proof.
  intros Hs Hn. unfold popString. rewrite (run_reader_bind _ _ _ _ (to_i32 size)) by apply _.
  unfold to_i32. rewrite wrap_s_id by done.
  unfold mbind, reader_bind, distance_to_eof. cbn -[varint_bytes Z.add Z.sub].
  rewrite decide_False by zlia. by rewrite decide_True by done.
Qed.

Lemma popString_negative_length_witness :
  is_s 32 (-1) ∧ -1 < 0 ∧
  run_reader popString (varint_bytes (-1) ++ [65]) = UB InvalidRange.
Proof.
  assert (is_s 32 (-1)) as H1 by (unfold is_s; lia). assert (-1 < 0) as H2 by lia.
  split_and!; [exact H1|exact H2|exact (popString_negative_length (-1) [65] H1 H2)].
Defined.

(** The number of acknowledged messages never reaches the server from a chat
    message: the parser skips it, and takes the acknowledgement bits from the
    byte where the count stands. *)
Theorem parseChatMessage_skips_count (message : string) (timestamp salt count b1 b2 : Z)
    (post : list Z) :
  string_fits message → is_s 64 timestamp → is_s 64 salt → 0 ≤ count < 128 →
  ∃ header parsed,
    serialize [addString message; addLong timestamp; addLong salt; addBoolean false] [] =
      Ok header ∧
    addVarInt count header = Ok (header ++ [count]) ∧
    parseChatMessage (header ++ [count; b1; b2] ++ post) = Ok parsed ∧
    ChatMessage_messageCount parsed = 0 ∧
    head (ChatMessage_acknowledged parsed) = Some (Z.odd count).
Proof.
  intros Hm Ht Hs Hc.
  set (header := string_wire message ++ be_bytes 8 timestamp ++ be_bytes 8 salt ++ [0]).
  exists header. eexists. split_and!.
  - apply emits_nil. unfold header. unfold string_fits in Hm.
    apply emits_serialize_cons; [by apply emits_addString|].
    do 2 (apply emits_serialize_cons; [apply _|]).
    eapply emits_eq; [apply emits_serialize_cons; [apply (emits_addBoolean false)|apply _]|done].
  - rewrite (emits_addVarInt count header). unfold varint_bytes, to_u32.
    rewrite wrap_u_id by (unfold is_u; lia). cbn. by rewrite (decide_True (P := count < 128)) by lia.
  - replace (header ++ [count; b1; b2] ++ post)
      with ((string_wire message ++ be_bytes 8 timestamp ++ be_bytes 8 salt ++ [0] ++
             [] ++ [count; b1; b2] ++ []) ++ post)
      by (unfold header; by rewrite <- !app_assoc).
    apply run_reader_reads.
    eapply reads_bind; [apply reads_popString; unfold string_fits, MAX_STRING_SIZE in Hm; lia|].
    do 2 (eapply reads_bind; [apply _|]).
    eapply reads_bind; [apply (reads_popBoolean_bit false)|].
    eapply reads_bind; [apply reads_ret|].
    eapply reads_bind; [apply reads_popBitSet_20|apply reads_ret].
  - done.
  - cbn [ChatMessage_acknowledged]. rewrite bitset_bits_spec. rewrite Z.bit0_odd. done.
Qed.

Lemma parseChatMessage_skips_count_witness :
  string_fits (String.String (Ascii.ascii_of_nat 104) String.EmptyString) ∧
  is_s 64 1 ∧ is_s 64 2 ∧ 0 ≤ 3 < 128 ∧
  ∃ header parsed,
    serialize [addString (String.String (Ascii.ascii_of_nat 104) String.EmptyString);
               addLong 1; addLong 2; addBoolean false] [] = Ok header ∧
    addVarInt 3 header = Ok (header ++ [3]) ∧
    parseChatMessage (header ++ [3; 0; 0] ++ [0]) = Ok parsed ∧
    ChatMessage_messageCount parsed = 0 ∧
    head (ChatMessage_acknowledged parsed) = Some (Z.odd 3).
Proof.
  assert (string_fits (String.String (Ascii.ascii_of_nat 104) String.EmptyString)) as H1 by done.
  assert (is_s 64 1) as H2 by done. assert (is_s 64 2) as H3 by done.
  assert (0 ≤ 3 < 128) as H4 by lia.
  split_and!; [exact H1|exact H2|exact H3|apply H4..|].
  exact (parseChatMessage_skips_count _ 1 2 3 0 0 [0] H1 H2 H3 H4).
Defined.
