(* ===== verification/Nbt.v ===== *)
(** * Named binary tags (nbt.hpp, nbt.cpp)

    The tag classes as one inductive type, their serialisers, and the
    recursive-descent parser.  A parser returns a null pointer ([None]) on
    malformed input; [end] is the address of the last byte.  The recursion of
    the parser is on fuel, computed from the number of bytes left. *)

From S2P Require Import Prelude Types Codec Structures Add Pop.

(** ** Tags *)

Inductive nbt_TagType : Type :=
| TagType_End | TagType_Byte | TagType_Short | TagType_Int | TagType_Long | TagType_Float
| TagType_Double | TagType_ByteArray | TagType_String | TagType_List | TagType_Compound
| TagType_IntArray | TagType_LongArray.

#[export] Instance nbt_TagType_eq_dec : EqDecision nbt_TagType.
Proof. solve_decision. Defined.

(** [(uint8_t) type] *)
Definition tag_code (t : nbt_TagType) : Z :=
  match t with
  | TagType_End => 0 | TagType_Byte => 1 | TagType_Short => 2 | TagType_Int => 3
  | TagType_Long => 4 | TagType_Float => 5 | TagType_Double => 6 | TagType_ByteArray => 7
  | TagType_String => 8 | TagType_List => 9 | TagType_Compound => 10
  | TagType_IntArray => 11 | TagType_LongArray => 12
  end.

(** [float] and [double] values are their bits. *)
Inductive nbt_Base : Type :=
| nbt_Byte (name : string) (value : Z)
| nbt_Short (name : string) (value : Z)
| nbt_Int (name : string) (value : Z)
| nbt_Long (name : string) (value : Z)
| nbt_Float (name : string) (value : Z)
| nbt_Double (name : string) (value : Z)
| nbt_ByteArray (name : string) (value : list Z)
| nbt_String (name : string) (value : string)
| nbt_List (name : string) (value : list nbt_Base)
| nbt_Compound (name : string) (value : list nbt_Base)
| nbt_IntArray (name : string) (value : list Z)
| nbt_LongArray (name : string) (value : list Z).

Definition nbt_getName (t : nbt_Base) : string :=
  match t with
  | nbt_Byte n _ | nbt_Short n _ | nbt_Int n _ | nbt_Long n _ | nbt_Float n _ | nbt_Double n _
  | nbt_ByteArray n _ | nbt_String n _ | nbt_List n _ | nbt_Compound n _ | nbt_IntArray n _
  | nbt_LongArray n _ => n
  end.

Definition nbt_getType (t : nbt_Base) : nbt_TagType :=
  match t with
  | nbt_Byte _ _ => TagType_Byte
  | nbt_Short _ _ => TagType_Short
  | nbt_Int _ _ => TagType_Int
  | nbt_Long _ _ => TagType_Long
  | nbt_Float _ _ => TagType_Float
  | nbt_Double _ _ => TagType_Double
  | nbt_ByteArray _ _ => TagType_ByteArray
  | nbt_String _ _ => TagType_String
  | nbt_List _ _ => TagType_List
  | nbt_Compound _ _ => TagType_Compound
  | nbt_IntArray _ _ => TagType_IntArray
  | nbt_LongArray _ _ => TagType_LongArray
  end.

(** *** Members of a compound, elements of a list *)

(** [Compound::hasValue] *)
Fixpoint nbt_hasValue (value : list nbt_Base) (str : string) : bool :=
  match value with
  | [] => false
  | i :: value => if decide (nbt_getName i = str) then true else nbt_hasValue value str
  end.

(** [Compound::getValue] *)
Fixpoint nbt_getValue (value : list nbt_Base) (str : string) : option nbt_Base :=
  match value with
  | [] => None
  | i :: value => if decide (nbt_getName i = str) then Some i else nbt_getValue value str
  end.

(** [Compound::getValueAs<T>], with [type] for [T::type]. *)
Fixpoint nbt_getValueAs (value : list nbt_Base) (type : nbt_TagType) (str : string) :
  result (option nbt_Base) :=
  match value with
  | [] => Ok None
  | i :: value =>
      if decide (nbt_getName i ≠ str) then nbt_getValueAs value type str
      else if decide (nbt_getType i = type) then Ok (Some i)
      else Throw TypeMismatch
  end.

(** [List::getValueAs<T>] *)
Definition nbt_List_getValueAs (value : list nbt_Base) (type : nbt_TagType) (index : Z) :
  result nbt_Base :=
  if decide (zlen value ≤ index) then Throw std_out_of_range
  else
    match value !! Z.to_nat index with
    | None => UB OutOfBoundsRead
    | Some v => if decide (nbt_getType v ≠ type) then Throw TypeMismatch else Ok v
    end.

(** ** Serialisation *)

Definition push_string (s : string) : writer := serialize (push_back <$> string_bytes s).

(** [push_back(size >> 8); push_back(size & 0xFF);] *)
Definition push_size16 (size : Z) : writer :=
  serialize [push_back (Z.shiftr size 8); push_back (Z.land size 0xFF)].

Definition nbt_preSerialize (type : nbt_TagType) (name : string) (includeName : bool) : writer :=
  if negb includeName then serialize []
  else serialize [push_back (tag_code type); push_size16 (string_size name); push_string name].

(** The loop of [List::serialize]: [current] is the type of the elements so far. *)
Fixpoint nbt_serialize_elements (ser : nbt_Base → writer) (current : nbt_TagType)
    (value : list nbt_Base) : writer := λ out,
  match value with
  | [] => Ok out
  | i :: value =>
      let current := if decide (current = TagType_End) then nbt_getType i else current in
      if decide (current ≠ nbt_getType i) then Throw TypeMismatch
      else out ← ser i out; nbt_serialize_elements ser current value out
  end.

Fixpoint nbt_serialize (includeName : bool) (t : nbt_Base) : writer :=
  match t with
  | nbt_Byte name value =>
      serialize [nbt_preSerialize TagType_Byte name includeName; push_back value]
  | nbt_Short name value =>
      serialize [nbt_preSerialize TagType_Short name includeName;
                 push_back (Z.shiftr value 8); push_back (Z.land value 0xFF)]
  | nbt_Int name value =>
      serialize [nbt_preSerialize TagType_Int name includeName; push_be 4 value]
  | nbt_Long name value =>
      serialize [nbt_preSerialize TagType_Long name includeName; push_be 8 value]
  | nbt_Float name value =>
      serialize [nbt_preSerialize TagType_Float name includeName; addFloat value]
  | nbt_Double name value =>
      serialize [nbt_preSerialize TagType_Double name includeName; addDouble value]
  | nbt_ByteArray name value =>
      serialize [nbt_preSerialize TagType_ByteArray name includeName;
                 push_be 4 (zlen value); serialize (push_back <$> value)]
  | nbt_String name value =>
      serialize [nbt_preSerialize TagType_String name includeName;
                 push_size16 (string_size value); push_string value]
  | nbt_List name value =>
      serialize [nbt_preSerialize TagType_List name includeName;
                 λ out, match value with
                        | [] => UB OutOfBoundsRead
                        | v :: _ => push_back (tag_code (nbt_getType v)) out
                        end;
                 push_be 4 (zlen value);
                 nbt_serialize_elements (nbt_serialize false) TagType_End value]
  | nbt_Compound name value =>
      serialize [nbt_preSerialize TagType_Compound name includeName;
                 serialize (nbt_serialize true <$> value); push_back 0]
  | nbt_IntArray name value =>
      serialize [nbt_preSerialize TagType_IntArray name includeName;
                 push_be 4 (zlen value); serialize (push_be 4 <$> value)]
  | nbt_LongArray name value =>
      serialize [nbt_preSerialize TagType_LongArray name includeName;
                 push_be 4 (zlen value); serialize (push_be 8 <$> value)]
  end.

(** ** Parsing *)

(** [return nullptr;], and [if (!tmp) return nullptr;] after a call. *)
Definition null {A} : reader (option A) := mret None.
Definition or_null {A B} (p : reader (option A)) (f : A → reader (option B)) :
  reader (option B) := o ← p; match o with Some x => f x | None => null end.

Notation "x ←? p ; q" := (or_null p (λ x, q))
  (at level 20, p at level 100, q at level 200, only parsing) : stdpp_scope.

(** [*at], without moving. *)
Definition current : reader Z := λ buf _ at_, b ← peek buf at_; Ok (b, at_).

(** [n] bytes into a string. *)
Fixpoint pop_chars (n : nat) : reader string :=
  match n with
  | O => mret String.EmptyString
  | S n => b ← next; s ← pop_chars n; mret (String.String (ascii_of_byte b) s)
  end.

Definition nbt_parseName : reader (option string) :=
  d ← distance_to_eof;
  if decide (d < 1) then null
  else
    hi ← next; lo ← next;
    let nameSize := to_u16 (Z.lor (Z.shiftl hi 8) lo) in
    if decide (nameSize = 0) then mret (Some String.EmptyString)
    else
      d ← distance_to_eof;
      if decide (d < nameSize - 1) then null
      else value ← pop_chars (Z.to_nat nameSize); mret (Some value).

(** The head of every parser: the type, unless in a list, and [GET_NAME()]. *)
Definition nbt_head (type : nbt_TagType) (includeName inList : bool) : reader (option string) :=
  d ← distance_to_eof;
  if decide (d < 0) then null
  else
    _ ←? (if inList then mret (Some tt)
          else b ← current;
               if decide (b ≠ tag_code type) then null else _ ← next; mret (Some tt));
    if includeName then nbt_parseName else mret (Some String.EmptyString).

(** [for (int i = 0; i < n; i++) value = (value << 8) | *at++;] *)
Fixpoint pop_or_loop (n : nat) (wrap : Z → Z) (value : Z) : reader Z :=
  match n with
  | O => mret value
  | S n => b ← next; pop_or_loop n wrap (wrap (Z.lor (Z.shiftl value 8) b))
  end.

(** [for (int i = n - 1; i >= 0; i--) value |= ((T) *at++) << (i * 8);] *)
Fixpoint pop_bits_loop (n : nat) (wrap : Z → Z) (value : Z) : reader Z :=
  match n with
  | O => mret value
  | S n => b ← next; pop_bits_loop n wrap (Z.lor value (wrap (Z.shiftl b (8 * Z.of_nat n))))
  end.

(** A parser whose value follows the head and needs [need + 1] bytes. *)
Definition nbt_scalar (type : nbt_TagType) (need : Z) (pop : reader Z)
    (make : string → Z → nbt_Base) (includeName inList : bool) : reader (option nbt_Base) :=
  name ←? nbt_head type includeName inList;
  d ← distance_to_eof;
  if decide (d < need) then null
  else value ← pop; mret (Some (make name value)).

Definition nbt_parseByte : bool → bool → reader (option nbt_Base) :=
  nbt_scalar TagType_Byte 0 (b ← next; mret (to_i8 b)) nbt_Byte.
Definition nbt_parseShort : bool → bool → reader (option nbt_Base) :=
  nbt_scalar TagType_Short 1 (pop_or_loop 2 to_i16 0) nbt_Short.
Definition nbt_parseInt : bool → bool → reader (option nbt_Base) :=
  nbt_scalar TagType_Int 3 (pop_or_loop 4 to_i32 0) nbt_Int.
Definition nbt_parseLong : bool → bool → reader (option nbt_Base) :=
  nbt_scalar TagType_Long 7 (pop_or_loop 8 to_i64 0) nbt_Long.
Definition nbt_parseFloat : bool → bool → reader (option nbt_Base) :=
  nbt_scalar TagType_Float 3 (pop_bits_loop 4 to_u32 0) nbt_Float.
Definition nbt_parseDouble : bool → bool → reader (option nbt_Base) :=
  nbt_scalar TagType_Double 7 (pop_bits_loop 8 to_u64 0) nbt_Double.

(** The [int32_t] size of an array or list. *)
Definition nbt_size : reader (option Z) :=
  d ← distance_to_eof;
  if decide (d < 3) then null else size ← pop_or_loop 4 to_i32 0; mret (Some size).

(** [if (end - at < size * width - 1) return nullptr;] in [int]. *)
Definition nbt_room (size width : Z) : reader (option unit) := λ buf eof at_,
  bytes ← chk_i32 (size * width);
  need ← chk_i32 (bytes - 1);
  if decide (eof - at_ < need) then null buf eof at_ else Ok (Some tt, at_).

Definition nbt_parseByteArray (includeName inList : bool) : reader (option nbt_Base) :=
  name ←? nbt_head TagType_ByteArray includeName inList;
  size ←? nbt_size;
  _ ←? nbt_room size 1;
  if decide (size < 0) then throw std_logic_error (* data.reserve(size) *)
  else
    data ← popArray_loop (b ← next; mret (to_i8 b)) (Z.to_nat size);
    mret (Some (nbt_ByteArray name data)).

Definition nbt_parseString (includeName inList : bool) : reader (option nbt_Base) :=
  name ←? nbt_head TagType_String includeName inList;
  d ← distance_to_eof;
  if decide (d < 1) then null
  else
    hi ← next; lo ← next;
    let size := to_u16 (Z.lor (Z.shiftl hi 8) lo) in
    d ← distance_to_eof;
    if decide (d < size - 1) then null
    else data ← pop_chars (Z.to_nat size); mret (Some (nbt_String name data)).

Definition nbt_parseIntArray (includeName inList : bool) : reader (option nbt_Base) :=
  name ←? nbt_head TagType_IntArray includeName inList;
  size ←? nbt_size;
  _ ←? nbt_room size 4;
  data ← popArray_loop (pop_or_loop 4 to_i32 0) (Z.to_nat size);
  mret (Some (nbt_IntArray name data)).

Definition nbt_parseLongArray (includeName inList : bool) : reader (option nbt_Base) :=
  name ←? nbt_head TagType_LongArray includeName inList;
  size ←? nbt_size;
  _ ←? nbt_room size 8;
  data ← popArray_loop (pop_or_loop 8 to_i64 0) (Z.to_nat size);
  mret (Some (nbt_LongArray name data)).

(** The switch on the tag type of [parse] and of [parseList], given the
    recursive calls. *)
Definition nbt_switch (parseList parseCompound : bool → bool → reader (option nbt_Base))
    (type : Z) (includeName inList : bool) : reader (option nbt_Base) :=
  if decide (type = tag_code TagType_Byte) then nbt_parseByte includeName inList
  else if decide (type = tag_code TagType_Short) then nbt_parseShort includeName inList
  else if decide (type = tag_code TagType_Int) then nbt_parseInt includeName inList
  else if decide (type = tag_code TagType_Long) then nbt_parseLong includeName inList
  else if decide (type = tag_code TagType_Float) then nbt_parseFloat includeName inList
  else if decide (type = tag_code TagType_Double) then nbt_parseDouble includeName inList
  else if decide (type = tag_code TagType_ByteArray) then nbt_parseByteArray includeName inList
  else if decide (type = tag_code TagType_String) then nbt_parseString includeName inList
  else if decide (type = tag_code TagType_List) then parseList includeName inList
  else if decide (type = tag_code TagType_Compound) then parseCompound includeName inList
  else if decide (type = tag_code TagType_IntArray) then nbt_parseIntArray includeName inList
  else if decide (type = tag_code TagType_LongArray) then nbt_parseLongArray includeName inList
  else null.

(** Every call and every turn of a loop takes one unit of fuel. *)
Fixpoint nbt_parse_fuel (fuel : nat) : reader (option nbt_Base) :=
  match fuel with
  | O => out_of_fuel
  | S fuel =>
      d ← distance_to_eof;
      if decide (d < 0) then null
      else
        type ← current;
        nbt_switch (nbt_parseList fuel) (nbt_parseCompound fuel) type true false
  end
with nbt_parseList (fuel : nat) (includeName inList : bool) : reader (option nbt_Base) :=
  match fuel with
  | O => out_of_fuel
  | S fuel =>
      name ←? nbt_head TagType_List includeName inList;
      d ← distance_to_eof;
      if decide (d < 0) then null
      else
        type ← next;
        size ←? nbt_size;
        data ←? nbt_parseList_loop fuel type size;
        mret (Some (nbt_List name data))
  end
with nbt_parseList_loop (fuel : nat) (type left : Z) : reader (option (list nbt_Base)) :=
  if decide (left ≤ 0) then mret (Some [])
  else
    match fuel with
    | O => out_of_fuel
    | S fuel =>
        val ←? nbt_switch (nbt_parseList fuel) (nbt_parseCompound fuel) type false true;
        data ←? nbt_parseList_loop fuel type (left - 1);
        mret (Some (val :: data))
    end
with nbt_parseCompound (fuel : nat) (includeName inList : bool) : reader (option nbt_Base) :=
  match fuel with
  | O => out_of_fuel
  | S fuel =>
      name ←? nbt_head TagType_Compound includeName inList;
      data ←? nbt_parseCompound_loop fuel;
      mret (Some (nbt_Compound name data))
  end
with nbt_parseCompound_loop (fuel : nat) : reader (option (list nbt_Base)) :=
  match fuel with
  | O => out_of_fuel
  | S fuel =>
      d ← distance_to_eof;
      if decide (d < 0) then null
      else
        b ← current;
        if decide (b = tag_code TagType_End) then _ ← next; mret (Some [])
        else
          val ←? nbt_parse_fuel fuel;
          data ←? nbt_parseCompound_loop fuel;
          mret (Some (val :: data))
  end.

(** Three units of fuel for each byte left are enough (see NbtLaws.v). *)
Definition nbt_fuel (bytes_left : Z) : nat := 3 * Z.to_nat bytes_left + 3.

Definition nbt_parse : reader (option nbt_Base) :=
  d ← distance_to_eof; nbt_parse_fuel (nbt_fuel (d + 1)).
