(* ===== verification/NbtLaws.v ===== *)
(** * The laws of named binary tags

    The bytes of a tag, the round trip through the serialiser and the parser,
    and the behaviour of the parser on arbitrary bytes. *)

From S2P Require Import Prelude Types Codec Structures Add Pop PrimaryLaws CompositeLaws Nbt.

(** ** Induction on tags *)

Section nbt_induction.
Context (P : nbt_Base → Prop).
Context (Hbyte : ∀ n v, P (nbt_Byte n v)) (Hshort : ∀ n v, P (nbt_Short n v))
  (Hint : ∀ n v, P (nbt_Int n v)) (Hlong : ∀ n v, P (nbt_Long n v))
  (Hfloat : ∀ n v, P (nbt_Float n v)) (Hdouble : ∀ n v, P (nbt_Double n v))
  (Hbytes : ∀ n v, P (nbt_ByteArray n v)) (Hstring : ∀ n v, P (nbt_String n v))
  (Hlist : ∀ n v, Forall P v → P (nbt_List n v))
  (Hcompound : ∀ n v, Forall P v → P (nbt_Compound n v))
  (Hints : ∀ n v, P (nbt_IntArray n v)) (Hlongs : ∀ n v, P (nbt_LongArray n v)).

Fixpoint nbt_ind' (t : nbt_Base) : P t :=
  let elements := fix elements (l : list nbt_Base) : Forall P l :=
    match l with
    | [] => Forall_nil_2 P
    | x :: l => Forall_cons_2 P x l (nbt_ind' x) (elements l)
    end in
  match t with
  | nbt_Byte n v => Hbyte n v
  | nbt_Short n v => Hshort n v
  | nbt_Int n v => Hint n v
  | nbt_Long n v => Hlong n v
  | nbt_Float n v => Hfloat n v
  | nbt_Double n v => Hdouble n v
  | nbt_ByteArray n v => Hbytes n v
  | nbt_String n v => Hstring n v
  | nbt_List n v => Hlist n v (elements v)
  | nbt_Compound n v => Hcompound n v (elements v)
  | nbt_IntArray n v => Hints n v
  | nbt_LongArray n v => Hlongs n v
  end.
End nbt_induction.

(** ** The bytes of a tag *)

Definition size16_wire (s : string) : list Z := be_bytes 2 (string_size s) ++ string_bytes s.

Definition head_wire (includeName : bool) (t : nbt_Base) : list Z :=
  if includeName then tag_code (nbt_getType t) :: size16_wire (nbt_getName t) else [].

Fixpoint nbt_wire (includeName : bool) (t : nbt_Base) : list Z :=
  head_wire includeName t ++
  match t with
  | nbt_Byte _ v => [to_u8 v]
  | nbt_Short _ v => be_bytes 2 v
  | nbt_Int _ v => be_bytes 4 v
  | nbt_Long _ v => be_bytes 8 v
  | nbt_Float _ v => be_bytes 4 v
  | nbt_Double _ v => be_bytes 8 v
  | nbt_ByteArray _ v => be_bytes 4 (zlen v) ++ (v ≫= λ x, [to_u8 x])
  | nbt_String _ v => size16_wire v
  | nbt_List _ v =>
      match v with [] => [] | x :: _ => [tag_code (nbt_getType x)] end ++
      be_bytes 4 (zlen v) ++ (v ≫= nbt_wire false)
  | nbt_Compound _ v => (v ≫= nbt_wire true) ++ [0]
  | nbt_IntArray _ v => be_bytes 4 (zlen v) ++ (v ≫= be_bytes 4)
  | nbt_LongArray _ v => be_bytes 4 (zlen v) ++ (v ≫= be_bytes 8)
  end.

(** The tags the format can express: names and strings whose length fits 16
    bits, values of their type, arrays whose byte size fits an [int], non-empty
    lists of one type. *)
Definition short_string (s : string) : Prop := string_size s < 2 ^ 16.

Fixpoint nbt_wf (t : nbt_Base) : Prop :=
  short_string (nbt_getName t) ∧
  match t with
  | nbt_Byte _ v => is_s 8 v
  | nbt_Short _ v => is_s 16 v
  | nbt_Int _ v => is_s 32 v
  | nbt_Long _ v => is_s 64 v
  | nbt_Float _ v => is_u 32 v
  | nbt_Double _ v => is_u 64 v
  | nbt_ByteArray _ v => zlen v < 2 ^ 31 ∧ Forall (is_s 8) v
  | nbt_String _ v => short_string v
  | nbt_List _ v =>
      zlen v < 2 ^ 31 ∧
      match v with
      | [] => False
      | x :: _ => Forall (λ y, nbt_getType y = nbt_getType x) v
      end ∧ foldr (λ y P, nbt_wf y ∧ P) True v
  | nbt_Compound _ v => foldr (λ y P, nbt_wf y ∧ P) True v
  | nbt_IntArray _ v => zlen v * 4 < 2 ^ 31 ∧ Forall (is_s 32) v
  | nbt_LongArray _ v => zlen v * 8 < 2 ^ 31 ∧ Forall (is_s 64) v
  end.

(** What the parser gives back: the elements of a list have lost their names. *)
Fixpoint nbt_sent (includeName : bool) (t : nbt_Base) : nbt_Base :=
  let kept (n : string) := if includeName then n else String.EmptyString in
  match t with
  | nbt_Byte n v => nbt_Byte (kept n) v
  | nbt_Short n v => nbt_Short (kept n) v
  | nbt_Int n v => nbt_Int (kept n) v
  | nbt_Long n v => nbt_Long (kept n) v
  | nbt_Float n v => nbt_Float (kept n) v
  | nbt_Double n v => nbt_Double (kept n) v
  | nbt_ByteArray n v => nbt_ByteArray (kept n) v
  | nbt_String n v => nbt_String (kept n) v
  | nbt_List n v => nbt_List (kept n) (nbt_sent false <$> v)
  | nbt_Compound n v => nbt_Compound (kept n) (nbt_sent true <$> v)
  | nbt_IntArray n v => nbt_IntArray (kept n) v
  | nbt_LongArray n v => nbt_LongArray (kept n) v
  end.

Lemma wf_elements v : foldr (λ y P, nbt_wf y ∧ P) True v ↔ Forall nbt_wf v.
Proof.
  induction v as [|x v IH]; cbn; [split; [constructor|done]|].
  rewrite list.Forall_cons, IH. done.
Qed.

Lemma nbt_wire_nonempty inc t : nbt_wf t → 1 ≤ zlen (nbt_wire inc t).
Proof.
  intros H. destruct t; cbn -[Z.of_nat]; unfold size16_wire; autorewrite with zlen;
    rewrite ?be_bytes_length; try lia.
Qed.

(** ** What the serialiser writes *)

#[export] Instance emits_push_string s : Emits (push_string s) (string_bytes s).
Proof. apply emits_string_chars. Qed.

#[export] Instance emits_push_size16 n : Emits (push_size16 n) (be_bytes 2 n).
Proof.
  eapply emits_eq; [apply _|]. rewrite be_bytes_2. cbn. by rewrite to_u8_land.
Qed.

#[export] Instance emits_preSerialize t inc :
  Emits (nbt_preSerialize (nbt_getType t) (nbt_getName t) inc) (head_wire inc t).
Proof.
  unfold nbt_preSerialize, head_wire. destruct inc; cbn [negb]; [|apply _].
  eapply emits_eq; [apply _|]. unfold size16_wire. rewrite app_nil_r. cbn.
  f_equal. by destruct t.
Qed.

Lemma emits_last w bs : Emits w bs → Emits (serialize [w]) bs.
Proof.
  intros. rewrite <- (app_nil_r bs). apply emits_serialize_cons; [done|apply _].
Qed.

Lemma emits_push_tag t : Emits (push_back (tag_code t)) [tag_code t].
Proof. by destruct t. Qed.

Lemma emits_each {T} (add : T → writer) (enc : T → list Z) v :
  (∀ x, Emits (add x) (enc x)) → Emits (serialize (add <$> v)) (v ≫= enc).
Proof. intros H. by apply emits_elements. Qed.

Lemma emits_push_back_each v : Emits (serialize (push_back <$> v)) (v ≫= λ x, [to_u8 x]).
Proof. apply emits_each, _. Qed.

Lemma emits_list_elements (current : nbt_TagType) v :
  (current = TagType_End ∨ Forall (λ y, nbt_getType y = current) v) →
  (∀ x, head v = Some x → Forall (λ y, nbt_getType y = nbt_getType x) v) →
  Forall (λ y, Emits (nbt_serialize false y) (nbt_wire false y)) v →
  Emits (nbt_serialize_elements (nbt_serialize false) current v) (v ≫= nbt_wire false).
Proof.
  revert current. induction v as [|x v IH]; intros current Hc Hh Hv; [apply _|].
  specialize (Hh x eq_refl). cbn [nbt_serialize_elements mbind list_bind].
  apply list.Forall_cons in Hv as [Hx Hv]. pose proof Hh as [_ Ht]%list.Forall_cons.
  set (c := if decide (current = TagType_End) then nbt_getType x else current).
  assert (c = nbt_getType x) as ->.
  { unfold c. case_decide; [done|]. destruct Hc as [|[? _]%list.Forall_cons]; congruence. }
  cbn zeta. intros out. rewrite decide_False by tauto. rewrite Hx. cbn [mbind result_bind].
  rewrite IH; [by rewrite app_assoc|by right| |done].
  intros y Hy. destruct v as [|z v]; [done|]. cbn in Hy. simplify_eq.
  pose proof Ht as [E _]%list.Forall_cons. by rewrite E.
Qed.

Lemma nbt_emits inc t : nbt_wf t → Emits (nbt_serialize inc t) (nbt_wire inc t).
Proof.
  revert inc. induction t as [n v|n v|n v|n v|n v|n v|n v|n v|n v IH|n v IH|n v|n v] using nbt_ind';
    intros inc [Hn Hv];
    match goal with |- Emits (nbt_serialize _ ?t) _ => pose proof (emits_preSerialize t inc) as Hh end;
    cbn [nbt_serialize nbt_wire]; apply emits_serialize_cons; try exact Hh; clear Hh Hn.
  - apply emits_last, _.
  - eapply emits_eq; [apply _|]. by rewrite be_bytes_2.
  - eapply emits_last. apply emits_push_be_4.
  - eapply emits_last. apply emits_push_be_8.
  - eapply emits_last. apply _.
  - eapply emits_last. apply _.
  - apply emits_serialize_cons; [apply emits_push_be_4|]. apply emits_last, emits_push_back_each.
  - apply emits_serialize_cons; [apply _|]. apply emits_last, _.
  - destruct Hv as (_ & Ht & Hw%wf_elements). destruct v as [|x v]; [done|].
    apply (emits_serialize_cons _ _ [_]); [apply emits_push_tag|].
    apply emits_serialize_cons; [apply emits_push_be_4|].
    apply emits_last, emits_list_elements; [by left|by intros ? [= <-]|].
    rewrite !list.Forall_forall in *. intros y Hy. by apply IH, Hw.
  - apply wf_elements in Hv. apply emits_serialize_cons; [|apply emits_last, (emits_push_back 0)].
    apply emits_elements. intros x Hx.
    rewrite !list.Forall_forall in *. by apply IH, Hv.
  - apply emits_serialize_cons; [apply emits_push_be_4|]. 
    apply emits_last, emits_each, emits_push_be_4.
  - apply emits_serialize_cons; [apply emits_push_be_4|]. 
    apply emits_last, emits_each, emits_push_be_8.
Qed.

(** ** What the parser reads *)

Lemma reads_or_null {A B} (p : reader (option A)) (f : A → reader (option B)) bs bs' a b :
  Reads p bs (Some a) → Reads (f a) bs' b → Reads (or_null p f) (bs ++ bs') b.
Proof. intros Hp Hf. unfold or_null. by eapply reads_bind. Qed.

Lemma reads_current {B} (f : Z → reader B) b bs c :
  Reads (f b) (b :: bs) c → Reads (current ≫= f) (b :: bs) c.
Proof.
  intros Hf pre post eof Heof. unfold mbind, reader_bind, current.
  cbn [app]. rewrite peek_app. cbn. by apply (Hf pre post eof).
Qed.

(** The guard of the parsers, with the bytes it asks for. *)
Lemma reads_need {A} (k : Z) (p q : reader A) bs a :
  k ≤ zlen bs - 1 → Reads q bs a →
  Reads (d ← distance_to_eof; if decide (d < k) then p else q) bs a.
Proof. intros Hk Hq. apply reads_distance. intros d Hd. by rewrite decide_False by lia. Qed.

Lemma reads_pop_chars s : Reads (pop_chars (length (string_bytes s))) (string_bytes s) s.
Proof.
  induction s as [|c s IH]; [apply reads_ret|].
  change (string_bytes (String.String c s)) with (byte_of_ascii c :: string_bytes s).
  cbn [length pop_chars]. eapply (reads_bind _ _ [_]); [apply reads_next|].
  rewrite <- (app_nil_r (string_bytes s)). rewrite app_nil_r at 1.
  eapply reads_bind; [exact IH|]. rewrite ascii_of_byte_of_ascii. apply reads_ret.
Qed.

Lemma to_u16_bytes n :
  0 ≤ n < 2 ^ 16 → to_u16 (Z.lor (Z.shiftl (to_u8 (Z.shiftr n 8)) 8) (to_u8 n)) = n.
Proof.
  intros Hn. rewrite <- (wrap_u_id 16 n) at 3 by done.
  unfold to_u16, to_u8. zbits.
Qed.

Lemma reads_parseName s : short_string s → Reads nbt_parseName (size16_wire s) (Some s).
Proof.
  intros Hs. pose proof (string_size_nonneg s). unfold short_string in Hs.
  unfold nbt_parseName, size16_wire. rewrite be_bytes_2. cbn [app].
  apply reads_need; [zlia|].
  do 2 (eapply (reads_bind _ _ [_]); [apply reads_next|]).
  rewrite to_u16_bytes by lia. cbn zeta. case_decide as Hz.
  - destruct s as [|c s]; [|unfold string_size in Hz; cbn in Hz; lia]. apply reads_ret.
  - apply reads_need; [rewrite string_bytes_length; lia|].
    rewrite <- (app_nil_r (string_bytes s)). eapply reads_bind; [|apply reads_ret].
    rewrite <- string_bytes_length, Nat2Z.id. apply reads_pop_chars.
Qed.

Lemma wf_name t : nbt_wf t → short_string (nbt_getName t).
Proof. destruct t; by intros []. Qed.

Lemma reads_full_head t :
  nbt_wf t →
  Reads (nbt_head (nbt_getType t) true false) (head_wire true t) (Some (nbt_getName t)).
Proof.
  intros Hw. unfold nbt_head. cbn [head_wire]. apply reads_need; [zlia|].
  apply (reads_or_null _ _ [_] (size16_wire (nbt_getName t)) tt);
    [|by apply reads_parseName, wf_name].
  apply reads_current. rewrite decide_False by tauto.
  rewrite <- (app_nil_r [_]). eapply reads_bind; [apply reads_next|apply reads_ret].
Qed.

(** The head in a compound ([true], [false]) and in a list ([false], [true]);
    in a list it reads nothing, but looks for a byte. *)
Lemma reads_head {B} (t : nbt_Base) (inc : bool) (rest : list Z) (f : string → reader (option B)) b :
  nbt_wf t → rest ≠ [] →
  Reads (f (if inc then nbt_getName t else String.EmptyString)) rest b →
  Reads (or_null (nbt_head (nbt_getType t) inc (negb inc)) f) (head_wire inc t ++ rest) b.
Proof.
  intros Hw Hr Hf. destruct inc.
  - eapply reads_or_null; [by apply reads_full_head|exact Hf].
  - intros pre post eof Heof. cbn [app head_wire] in *.
    assert (1 ≤ zlen rest) by (destruct rest; [done|zlia]).
    unfold or_null at 1, nbt_head, mbind, reader_bind, distance_to_eof. cbn [mbind result_bind fst snd].
    rewrite decide_False by zlia. by apply (Hf pre post eof).
Qed.

Lemma reads_pop_or_loop w bs v :
  0 < w → Forall is_byte bs → is_s w v →
  Reads (pop_or_loop (length bs) (wrap_s w) v) bs (wrap_s w (foldl be_step v bs)).
Proof.
  intros Hw Hbs. revert v. induction Hbs as [|b bs Hb Hbs IH]; intros v Hv; cbn [length foldl].
  - rewrite wrap_s_id by (done || lia). apply reads_ret.
  - apply (reads_bind next _ [b] bs b); [apply reads_next|].
    replace (Z.lor (Z.shiftl v 8) b) with (be_step v b)
      by (rewrite Z.lor_comm, lor_shift_byte by done; unfold be_step; lia).
    rewrite <- wrap_s_be_fold by lia. apply IH, wrap_s_range. lia.
Qed.

Lemma reads_or_bytes w n z :
  0 < w → w = 8 * Z.of_nat n → Reads (pop_or_loop n (wrap_s w) 0) (be_bytes n z) (wrap_s w z).
Proof.
  intros Hw ->. rewrite <- (wrap_s_wrap_u _ z), <- be_value_bytes by lia.
  rewrite <- (be_bytes_length n z) at 1.
  apply reads_pop_or_loop; [lia|apply be_bytes_is_byte|].
  unfold is_s. pose proof (Z.pow_pos_nonneg 2 (8 * Z.of_nat n - 1) ltac:(lia) ltac:(lia)). lia.
Qed.

Lemma lor_shift_low k a r : 0 ≤ k → is_u k r → Z.lor (Z.shiftl a k) r = a * 2 ^ k + r.
Proof.
  intros Hk Hr. rewrite <- Z.add_nocarry_lor.
  - by rewrite Z.shiftl_mul_pow2 by lia.
  - rewrite <- (wrap_u_id k r Hr). zbits.
Qed.

Lemma be_value_range bs : Forall is_byte bs → is_u (8 * zlen bs) (be_value bs).
Proof.
  induction 1 as [|b bs Hb Hbs IH]; [done|].
  unfold be_value. cbn [foldl]. rewrite be_value_acc. unfold be_step, is_u in *.
  replace (8 * zlen (b :: bs)) with (8 + 8 * zlen bs) by zlia.
  rewrite Z.pow_add_r by lia. change 256 with (2 ^ 8). rewrite <- Z.pow_mul_r by lia.
  change (2 ^ 8) with 256 in *. nia.
Qed.

Lemma reads_pop_bits_loop w bs v :
  8 * zlen bs ≤ w → Forall is_byte bs →
  Reads (pop_bits_loop (length bs) (wrap_u w) v) bs (Z.lor v (be_value bs)).
Proof.
  intros Hw Hbs. revert v. induction Hbs as [|b bs Hb Hbs IH]; intros v; cbn [length].
  - unfold be_value. cbn. rewrite Z.lor_0_r. apply reads_ret.
  - apply (reads_bind next _ [b] bs b); [apply reads_next|].
    pose proof (be_value_range bs Hbs) as Hr. rewrite zlen_cons in Hw.
    replace (Z.lor v (be_value (b :: bs))) with
      (Z.lor (Z.lor v (wrap_u w (Z.shiftl b (8 * zlen bs)))) (be_value bs)); [apply IH; lia|].
    rewrite <- Z.lor_assoc. f_equal. unfold be_value at 2. cbn [foldl]. rewrite be_value_acc.
    rewrite wrap_u_id; [rewrite lor_shift_low by (done || lia)|].
    + unfold be_step. change 256 with (2 ^ 8). rewrite <- Z.pow_mul_r by lia. lia.
    + unfold is_u in *. rewrite Z.shiftl_mul_pow2 by lia.
      assert (2 ^ (8 + 8 * zlen bs) ≤ 2 ^ w) by (apply Z.pow_le_mono_r; lia).
      rewrite Z.pow_add_r in * by lia. nia.
Qed.

Lemma reads_bits_bytes n z :
  Reads (pop_bits_loop n (wrap_u (8 * Z.of_nat n)) 0) (be_bytes n z) (wrap_u (8 * Z.of_nat n) z).
Proof.
  rewrite <- be_value_bytes. rewrite <- (Z.lor_0_l (be_value _)).
  rewrite <- (be_bytes_length n z) at 1.
  apply reads_pop_bits_loop; [by rewrite be_bytes_length|apply be_bytes_is_byte].
Qed.

(** *** Scalars, strings and arrays *)

Lemma reads_scalar t inc need pop make bytes v :
  nbt_wf t → 0 ≤ need ≤ zlen bytes - 1 → Reads pop bytes v →
  Reads (nbt_scalar (nbt_getType t) need pop make inc (negb inc)) (head_wire inc t ++ bytes)
    (Some (make (if inc then nbt_getName t else String.EmptyString) v)).
Proof.
  intros Hw Hn Hp. unfold nbt_scalar. apply reads_head; [done|intros ->; cbn in Hn; lia|].
  apply reads_need; [lia|]. rewrite <- (app_nil_r bytes).
  eapply reads_bind; [exact Hp|apply reads_ret].
Qed.

Lemma reads_size n : 0 ≤ n < 2 ^ 31 → Reads nbt_size (be_bytes 4 n) (Some n).
Proof.
  intros Hn. unfold nbt_size. apply reads_need; [by rewrite be_bytes_length|].
  rewrite <- (app_nil_r (be_bytes 4 n)). eapply reads_bind; [by apply (reads_or_bytes 32 4)|].
  rewrite wrap_s_id by (unfold is_s; lia). apply reads_ret.
Qed.

Lemma reads_room {B} n width (f : unit → reader (option B)) bs b :
  0 ≤ n * width < 2 ^ 31 → n * width ≤ zlen bs → Reads (f tt) bs b →
  Reads (or_null (nbt_room n width) f) bs b.
Proof.
  intros Hn Hl Hf pre post eof Heof.
  unfold or_null at 1, nbt_room, mbind, reader_bind.
  do 2 (rewrite chk_i32_ok by (unfold is_s; lia); cbn [mbind result_bind]).
  rewrite decide_False by zlia. cbn. by apply (Hf pre post eof).
Qed.

(** An array of [length v] elements of [width] bytes. *)
Lemma reads_array t inc width pop (enc : Z → list Z) (make : string → list Z → nbt_Base) v :
  nbt_wf t → 0 < width → zlen v * width < 2 ^ 31 →
  (∀ x, x ∈ v → Reads pop (enc x) x) → (∀ x, zlen (enc x) = width) →
  Reads (name ←? nbt_head (nbt_getType t) inc (negb inc);
         size ←? nbt_size;
         _ ←? nbt_room size width;
         data ← popArray_loop pop (Z.to_nat size);
         mret (Some (make name data)))
    (head_wire inc t ++ be_bytes 4 (zlen v) ++ (v ≫= enc))
    (Some (make (if inc then nbt_getName t else String.EmptyString) v)).
Proof.
  intros Hw Hp Hl Hx He. apply reads_head; [done|done|].
  eapply reads_or_null; [apply reads_size; nia|].
  assert (zlen (v ≫= enc) = zlen v * width) as Hz.
  { clear Hl Hx. induction v as [|x v IH]; [done|]. cbn [mbind list_bind].
    rewrite zlen_app, He, zlen_cons. rewrite IH. lia. }
  apply reads_room; [lia|lia|]. rewrite Nat2Z.id.
  rewrite <- (app_nil_r (v ≫= enc)). eapply reads_bind; [|apply reads_ret].
  rewrite <- (list_fmap_id v) at 3. by apply reads_popArray_loop.
Qed.

Lemma reads_parseByteArray t inc n v :
  t = nbt_ByteArray n v → nbt_wf t →
  Reads (nbt_parseByteArray inc (negb inc)) (nbt_wire inc t) (Some (nbt_sent inc t)).
Proof.
  intros -> Hw. pose proof Hw as (_ & Hl & Hv). cbn [nbt_wire nbt_sent].
  unfold nbt_parseByteArray. apply (reads_head (nbt_ByteArray n v)); [done|done|].
  eapply reads_or_null; [apply reads_size; lia|].
  assert (∀ x, x ∈ v → Reads (b ← next; mret (to_i8 b)) [to_u8 x] x) as Hx.
  { intros x Hx. rewrite list.Forall_forall in Hv. rewrite <- (app_nil_r [_]).
    eapply reads_bind; [apply reads_next|].
    eapply reads_eq; [apply reads_ret|done|]. 
    unfold to_i8, to_u8. rewrite wrap_s_wrap_u by lia. by apply wrap_s_id, Hv. }
  assert (zlen (v ≫= λ x, [to_u8 x]) = zlen v) as Hz.
  { clear. induction v as [|x v IH]; [done|]. cbn [mbind list_bind]. zlia. }
  apply reads_room; [lia|lia|]. rewrite decide_False by lia. rewrite Nat2Z.id.
  rewrite <- (app_nil_r (v ≫= _)). eapply reads_bind; [|apply reads_ret].
  rewrite <- (list_fmap_id v) at 3. by apply reads_popArray_loop.
Qed.

Lemma reads_parseString t inc n v :
  t = nbt_String n v → nbt_wf t →
  Reads (nbt_parseString inc (negb inc)) (nbt_wire inc t) (Some (nbt_sent inc t)).
Proof.
  intros -> Hw. pose proof Hw as (_ & Hv). unfold short_string in Hv.
  pose proof (string_size_nonneg v). cbn [nbt_wire nbt_sent].
  unfold nbt_parseString. apply (reads_head (nbt_String n v)); [done|done|].
  unfold size16_wire. rewrite be_bytes_2. cbn [app].
  apply reads_need; [zlia|].
  do 2 (eapply (reads_bind _ _ [_]); [apply reads_next|]).
  rewrite to_u16_bytes by lia. cbn zeta. apply reads_need; [rewrite string_bytes_length; lia|].
  rewrite <- (app_nil_r (string_bytes v)). eapply reads_bind; [|apply reads_ret].
  rewrite <- string_bytes_length, Nat2Z.id. apply reads_pop_chars.
Qed.

(** *** The recursive parsers

    [switch_reads t inc]: the switch, called for the type of [t] in a compound
    or in a list, reads [t]; [parse_reads t]: so does [parse]. *)

Definition switch_reads (t : nbt_Base) (inc : bool) : Prop := ∀ fuel,
  3 * zlen (nbt_wire inc t) - 1 ≤ Z.of_nat fuel →
  Reads (nbt_switch (nbt_parseList fuel) (nbt_parseCompound fuel) (tag_code (nbt_getType t))
           inc (negb inc))
    (nbt_wire inc t) (Some (nbt_sent inc t)).

Lemma tag_code_inj a b : tag_code a = tag_code b → a = b.
Proof. by destruct a, b. Qed.

(** Decides the chain of [nbt_switch] for a known type. *)
Ltac switch_case :=
  unfold nbt_switch; cbn [nbt_getType tag_code];
  repeat (rewrite decide_False by lia); rewrite decide_True by done.

Lemma parse_reads t fuel :
  switch_reads t true → 3 * zlen (nbt_wire true t) ≤ Z.of_nat fuel → nbt_wf t →
  Reads (nbt_parse_fuel fuel) (nbt_wire true t) (Some (nbt_sent true t)).
Proof.
  intros Hs Hf Hw. pose proof (nbt_wire_nonempty true t Hw) as Hl.
  destruct fuel as [|fuel]; [lia|]. cbn [nbt_parse_fuel]. apply reads_need; [lia|].
  specialize (Hs fuel ltac:(lia)).
  assert (∃ rest, nbt_wire true t = tag_code (nbt_getType t) :: rest) as [rest E]
    by (destruct t; by eexists).
  rewrite E in *. by apply reads_current.
Qed.

Lemma parseList_loop_reads c v fuel :
  Forall (λ t, nbt_wf t ∧ switch_reads t false ∧ nbt_getType t = c) v →
  3 * zlen (v ≫= nbt_wire false) ≤ Z.of_nat fuel →
  Reads (nbt_parseList_loop fuel (tag_code c) (zlen v)) (v ≫= nbt_wire false)
    (Some (nbt_sent false <$> v)).
Proof.
  intros Hv. revert fuel. induction Hv as [|t v (Hw & Hs & Hc) Hv IH]; intros fuel Hf.
  - destruct fuel; apply reads_ret.
  - pose proof (nbt_wire_nonempty false t Hw).
    cbn [mbind list_bind fmap list_fmap] in *. rewrite zlen_app in Hf.
    destruct fuel as [|fuel]; [lia|]. cbn [nbt_parseList_loop].
    rewrite decide_False by zlia. eapply reads_or_null.
    + rewrite <- Hc. apply Hs. lia.
    + replace (zlen (t :: v) - 1) with (zlen v) by zlia.
      rewrite <- (app_nil_r (v ≫= _)). eapply reads_or_null; [apply IH; lia|apply reads_ret].
Qed.

Lemma parseCompound_loop_reads v fuel :
  Forall (λ t, nbt_wf t ∧ switch_reads t true) v →
  3 * zlen (v ≫= nbt_wire true) + 1 ≤ Z.of_nat fuel →
  Reads (nbt_parseCompound_loop fuel) ((v ≫= nbt_wire true) ++ [0])
    (Some (nbt_sent true <$> v)).
Proof.
  intros Hv. revert fuel. induction Hv as [|t v (Hw & Hs) Hv IH]; intros fuel Hf;
    (destruct fuel as [|fuel]; [lia|]); cbn [nbt_parseCompound_loop].
  - apply reads_need; [done|]. apply reads_current. rewrite decide_True by done.
    rewrite <- (app_nil_r [0]). eapply reads_bind; [apply reads_next|apply reads_ret].
  - pose proof (nbt_wire_nonempty true t Hw).
    cbn [mbind list_bind fmap list_fmap] in *. rewrite zlen_app in Hf. rewrite <- app_assoc.
    apply reads_need; [zlia|].
    assert (∃ rest, nbt_wire true t = tag_code (nbt_getType t) :: rest) as [rest E]
      by (destruct t; by eexists).
    assert (Reads (val ←? nbt_parse_fuel fuel; data ←? nbt_parseCompound_loop fuel;
                   mret (Some (val :: data))) (nbt_wire true t ++ (v ≫= nbt_wire true) ++ [0])
              (Some (nbt_sent true t :: (nbt_sent true <$> v)))) as H'.
    { eapply reads_or_null; [apply parse_reads; [done|lia|done]|].
      rewrite <- (app_nil_r (_ ++ [0])). eapply reads_or_null; [apply IH; lia|apply reads_ret]. }
    rewrite E in *. cbn [app] in *. apply reads_current.
    rewrite decide_False by (by destruct t). exact H'.
Qed.

Lemma parseList_reads n v inc fuel :
  nbt_wf (nbt_List n v) → Forall (λ t, switch_reads t false) v →
  3 * zlen (nbt_wire inc (nbt_List n v)) - 1 ≤ Z.of_nat fuel →
  Reads (nbt_parseList fuel inc (negb inc)) (nbt_wire inc (nbt_List n v))
    (Some (nbt_sent inc (nbt_List n v))).
Proof.
  intros Hw Hs Hf. pose proof Hw as (_ & Hl & Ht & Hv%wf_elements).
  cbn [nbt_wire nbt_sent] in *. rewrite !zlen_app in Hf.
  destruct v as [|x v]; [done|]. rewrite be_bytes_length in Hf.
  destruct fuel as [|fuel]; [zlia|]. cbn [nbt_parseList].
  apply (reads_head (nbt_List n (x :: v))); [done|done|].
  apply reads_need; [zlia|]. apply (reads_bind _ _ [_]  _ (tag_code (nbt_getType x)));
    [apply reads_next|].
  eapply reads_or_null; [apply reads_size; lia|].
  rewrite <- (app_nil_r ((x :: v) ≫= _)). eapply reads_or_null; [|apply reads_ret].
  apply parseList_loop_reads; [|zlia].
  rewrite !list.Forall_forall in *. intros y Hy. split_and!; auto.
Qed.

Lemma parseCompound_reads n v inc fuel :
  nbt_wf (nbt_Compound n v) → Forall (λ t, switch_reads t true) v →
  3 * zlen (nbt_wire inc (nbt_Compound n v)) - 1 ≤ Z.of_nat fuel →
  Reads (nbt_parseCompound fuel inc (negb inc)) (nbt_wire inc (nbt_Compound n v))
    (Some (nbt_sent inc (nbt_Compound n v))).
Proof.
  intros Hw Hs Hf. pose proof Hw as (_ & Hv%wf_elements).
  cbn [nbt_wire nbt_sent] in *. rewrite !zlen_app in Hf.
  destruct fuel as [|fuel]; [zlia|]. cbn [nbt_parseCompound].
  apply (reads_head (nbt_Compound n v)); [done|by destruct (v ≫= _)|].
  rewrite <- (app_nil_r (_ ++ [0])). eapply reads_or_null; [|apply reads_ret].
  apply parseCompound_loop_reads; [|zlia].
  rewrite !list.Forall_forall in *. intros y Hy. split_and!; auto.
Qed.

Lemma nbt_switch_reads t inc : nbt_wf t → switch_reads t inc.
Proof.
  revert inc. induction t as [n v|n v|n v|n v|n v|n v|n v|n v|n v IH|n v IH|n v|n v] using nbt_ind';
    intros inc Hw fuel Hf; switch_case; pose proof Hw as [Hn Hv].
  - apply (reads_scalar (nbt_Byte n v)); [done|done|].
    rewrite <- (app_nil_r [_]). eapply reads_bind; [apply reads_next|].
    eapply reads_eq; [apply reads_ret|done|].
    unfold to_i8, to_u8. rewrite wrap_s_wrap_u by lia. by apply wrap_s_id.
  - apply (reads_scalar (nbt_Short n v)); [done|by rewrite be_bytes_length|].
    rewrite <- (wrap_s_id 16 v) at 2 by done. by apply reads_or_bytes.
  - apply (reads_scalar (nbt_Int n v)); [done|by rewrite be_bytes_length|].
    rewrite <- (wrap_s_id 32 v) at 2 by done. by apply reads_or_bytes.
  - apply (reads_scalar (nbt_Long n v)); [done|by rewrite be_bytes_length|].
    rewrite <- (wrap_s_id 64 v) at 2 by done. by apply reads_or_bytes.
  - apply (reads_scalar (nbt_Float n v)); [done|by rewrite be_bytes_length|].
    rewrite <- (wrap_u_id 32 v) at 2 by done. apply (reads_bits_bytes 4).
  - apply (reads_scalar (nbt_Double n v)); [done|by rewrite be_bytes_length|].
    rewrite <- (wrap_u_id 64 v) at 2 by done. apply (reads_bits_bytes 8).
  - by eapply reads_parseByteArray.
  - by eapply reads_parseString.
  - apply parseList_reads; [done| |done]. destruct Hv as (_ & _ & Hv%wf_elements).
    rewrite !list.Forall_forall in *. by auto.
  - apply parseCompound_reads; [done| |done]. apply wf_elements in Hv.
    rewrite !list.Forall_forall in *. by auto.
  - destruct Hv as [Hl Hv]. apply (reads_array (nbt_IntArray n v)); [done|done|done| |].
    + intros x Hx. rewrite list.Forall_forall in Hv.
      rewrite <- (wrap_s_id 32 x) at 2 by (done || by apply Hv). by apply reads_or_bytes.
    + intros x. by rewrite be_bytes_length.
  - destruct Hv as [Hl Hv]. apply (reads_array (nbt_LongArray n v)); [done|done|done| |].
    + intros x Hx. rewrite list.Forall_forall in Hv.
      rewrite <- (wrap_s_id 64 x) at 2 by (done || by apply Hv). by apply reads_or_bytes.
    + intros x. by rewrite be_bytes_length.
Qed.

Lemma reads_nbt_parse t : nbt_wf t → Reads nbt_parse (nbt_wire true t) (Some (nbt_sent true t)).
Proof.
  intros Hw. apply reads_distance. intros d Hd.
  apply parse_reads; [by apply nbt_switch_reads| |done].
  unfold nbt_fuel. lia.
Qed.
