(* ===== verification/NbtSafety.v ===== *)
(** * The tag parser on arbitrary bytes

    From any cursor inside of the buffer, the parser terminates within its
    fuel, reads nothing outside of the buffer, and leaves the cursor in it.
    What can go wrong is the size of an array: a negative byte array reserves
    too much ([std::length_error]), and the size in bytes of an [int] or [long]
    array can overflow. *)

From S2P Require Import Prelude Types Codec Structures Add Pop PrimaryLaws Nbt NbtLaws.

Section safety.
Context (buf : list Z) (eof : Z).
Hypothesis Heof : eof = zlen buf - 1.

Abbreviation nbt_wp := (wp (λ e, e = std_logic_error) (λ k, k = SignedOverflow) buf eof).

(** The cursor moves forward inside of the buffer, past a byte at least when
    there is a value. *)
Definition moved {A} (m at_ : Z) (o : option A) (at' : Z) : Prop :=
  at_ ≤ at' ≤ zlen buf ∧ (is_Some o → at_ + m ≤ at').

Lemma wp_null {A} m at_ at0 : at0 ≤ at_ ≤ zlen buf → nbt_wp (@null A) at_ (moved m at0).
Proof. intros H. apply wp_ret. split; [lia|by intros []]. Qed.

Lemma wp_or_null {A B} (p : reader (option A)) (f : A → reader (option B)) m at0 at_ :
  at0 ≤ at_ → nbt_wp p at_ (λ o at',
    match o with
    | Some x => nbt_wp (f x) at' (moved m at0)
    | None => at_ ≤ at' ≤ zlen buf
    end) →
  nbt_wp (or_null p f) at_ (moved m at0).
Proof.
  intros H0 H. apply wp_bind. eapply wp_mono; [exact H|].
  intros [x|] at' Hx; [done|]. apply wp_null. lia.
Qed.

(** The guards test the distance to the last byte. *)
Lemma wp_guard {A} (k : Z) (p q : reader A) at_ Q :
  (eof - at_ < k → nbt_wp p at_ Q) → (k ≤ eof - at_ → nbt_wp q at_ Q) →
  nbt_wp (d ← distance_to_eof; if decide (d < k) then p else q) at_ Q.
Proof.
  intros Hp Hq. apply wp_bind, wp_distance. destruct (decide (eof - at_ < k)); auto with lia.
Qed.

Lemma wp_next_bind {A} (f : Z → reader A) at_ Q :
  0 ≤ at_ < zlen buf → (∀ b, nbt_wp (f b) (at_ + 1) Q) → nbt_wp (next ≫= f) at_ Q.
Proof. intros. by apply wp_bind, wp_next. Qed.

Lemma wp_current {A} (f : Z → reader A) at_ Q :
  0 ≤ at_ < zlen buf → (∀ b, nbt_wp (f b) at_ Q) → nbt_wp (current ≫= f) at_ Q.
Proof.
  intros H Hf. apply wp_bind. unfold wp at 1, current.
  destruct (peek_inside buf at_ H) as (b & -> & _). apply Hf.
Qed.

Lemma wp_pop_chars n at_ Q :
  0 ≤ at_ → at_ + Z.of_nat n ≤ zlen buf → (∀ s, Q s (at_ + Z.of_nat n)) →
  nbt_wp (pop_chars n) at_ Q.
Proof.
  revert at_ Q. induction n as [|n IH]; intros at_ Q H0 Hn HQ; cbn [pop_chars].
  - apply wp_ret. specialize (HQ String.EmptyString).
    by replace (at_ + Z.of_nat 0) with at_ in HQ by lia.
  - apply wp_next_bind; [lia|]. intros b. apply wp_bind, IH; [lia..|].
    intros s. apply wp_ret.
    replace (at_ + 1 + Z.of_nat n) with (at_ + Z.of_nat (S n)) by lia. apply HQ.
Qed.

Lemma wp_pop_or_loop n wrap v at_ Q :
  0 ≤ at_ → at_ + Z.of_nat n ≤ zlen buf → (∀ v, Q v (at_ + Z.of_nat n)) →
  nbt_wp (pop_or_loop n wrap v) at_ Q.
Proof.
  revert v at_ Q. induction n as [|n IH]; intros v at_ Q H0 Hn HQ; cbn [pop_or_loop].
  - apply wp_ret. specialize (HQ v). by replace (at_ + Z.of_nat 0) with at_ in HQ by lia.
  - apply wp_next_bind; [lia|]. intros b. apply IH; [lia..|].
    intros v'. replace (at_ + 1 + Z.of_nat n) with (at_ + Z.of_nat (S n)) by lia. apply HQ.
Qed.

Lemma wp_pop_bits_loop n wrap v at_ Q :
  0 ≤ at_ → at_ + Z.of_nat n ≤ zlen buf → (∀ v, Q v (at_ + Z.of_nat n)) →
  nbt_wp (pop_bits_loop n wrap v) at_ Q.
Proof.
  revert v at_ Q. induction n as [|n IH]; intros v at_ Q H0 Hn HQ; cbn [pop_bits_loop].
  - apply wp_ret. specialize (HQ v). by replace (at_ + Z.of_nat 0) with at_ in HQ by lia.
  - apply wp_next_bind; [lia|]. intros b. apply IH; [lia..|].
    intros v'. replace (at_ + 1 + Z.of_nat n) with (at_ + Z.of_nat (S n)) by lia. apply HQ.
Qed.

Lemma wp_popArray_loop {T} (pop : reader T) width n at_ Q :
  (∀ at_ Q, 0 ≤ at_ → at_ + width ≤ zlen buf → (∀ x, Q x (at_ + width)) → nbt_wp pop at_ Q) →
  0 ≤ width → 0 ≤ at_ → at_ + Z.of_nat n * width ≤ zlen buf →
  (∀ l, Q l (at_ + Z.of_nat n * width)) →
  nbt_wp (popArray_loop pop n) at_ Q.
Proof.
  intros Hpop Hw. revert at_ Q. induction n as [|n IH]; intros at_ Q H0 Hn HQ; cbn [popArray_loop].
  - apply wp_ret. specialize (HQ []). by replace (at_ + Z.of_nat 0 * width) with at_ in HQ by lia.
  - apply wp_bind, Hpop; [lia|nia|]. intros x. apply wp_bind, IH; [lia|lia|].
    intros l. apply wp_ret.
    replace (at_ + width + Z.of_nat n * width) with (at_ + Z.of_nat (S n) * width) by lia.
    apply HQ.
Qed.

Lemma wp_parseName at_ :
  0 ≤ at_ ≤ zlen buf → nbt_wp nbt_parseName at_ (moved 2 at_).
Proof.
  intros H0. apply wp_guard; intros Hd; [apply wp_null; lia|].
  do 2 (apply wp_next_bind; [lia|]; intros ?). cbn zeta.
  case_decide; [apply wp_ret; split; intros; lia|].
  apply wp_guard; intros Hd'; [apply wp_null; lia|].
  match goal with |- context [to_u16 ?n] => pose proof (wrap_u_range 16 n ltac:(lia)) as Hu end.
  unfold is_u in Hu. change (wrap_u 16) with to_u16 in Hu.
  apply wp_bind, wp_pop_chars; [lia..|]. intros s. apply wp_ret. split; intros; lia.
Qed.

(** Outside of a list the head reads a byte at least. *)
Lemma wp_head type inc inList at_ :
  0 ≤ at_ ≤ zlen buf →
  nbt_wp (nbt_head type inc inList) at_ (moved (if inList then 0 else 1) at_).
Proof.
  intros H0. apply wp_guard; intros Hd; [apply wp_null; lia|].
  set (m := if inList then 0 else 1).
  assert (∀ at', at_ + m ≤ at' ≤ zlen buf →
    nbt_wp (if inc then nbt_parseName else mret (Some String.EmptyString)) at' (moved m at_))
    as Hname.
  { intros at' Hat. assert (0 ≤ m) by (by destruct inList).
    destruct inc; [|apply wp_ret; split; intros; lia].
    eapply wp_mono; [apply wp_parseName; lia|]. intros o at'' [? Ho].
    split; intros; lia. }
  apply wp_or_null; [lia|]. subst m. destruct inList.
  - apply wp_ret, Hname. lia.
  - apply wp_current; [lia|]. intros b. case_decide; [apply wp_ret; lia|].
    apply wp_next_bind; [lia|]. intros _. apply wp_ret, Hname. lia.
Qed.

(** Parsers that are the head and a body. *)
Lemma wp_head_bind {B} type (inc inList : bool) m (f : string → reader (option B)) at_ :
  0 ≤ at_ ≤ zlen buf →
  (∀ name at', at_ + (if inList then 0 else 1) ≤ at' ≤ zlen buf →
     nbt_wp (f name) at' (moved m at_)) →
  nbt_wp (or_null (nbt_head type inc inList) f) at_ (moved m at_).
Proof.
  intros H0 Hf. apply wp_or_null; [lia|].
  eapply wp_mono; [by apply wp_head|]. intros [name|] at' [Ha Ho]; [|done].
  apply Hf. specialize (Ho ltac:(done)). lia.
Qed.

Lemma wp_scalar type need pop make (inc inList : bool) at_ :
  0 ≤ at_ ≤ zlen buf → 0 ≤ need →
  (∀ at_ Q, 0 ≤ at_ → at_ + (need + 1) ≤ zlen buf → (∀ v, Q v (at_ + (need + 1))) →
     nbt_wp pop at_ Q) →
  nbt_wp (nbt_scalar type need pop make inc inList) at_ (moved 1 at_).
Proof.
  intros H0 Hn Hp. apply wp_head_bind; [done|]. intros name at' Hat.
  assert (at_ ≤ at') by (destruct inList; lia).
  apply wp_guard; intros Hd; [apply wp_null; lia|].
  apply wp_bind, Hp; [lia..|]. intros v. apply wp_ret. split; intros; lia.
Qed.

Lemma wp_or_n n wrap at_ (Q : Z → Z → Prop) :
  0 ≤ at_ → at_ + Z.of_nat n ≤ zlen buf → (∀ v, Q v (at_ + Z.of_nat n)) →
  nbt_wp (pop_or_loop n wrap 0) at_ Q.
Proof. apply wp_pop_or_loop. Qed.

Lemma wp_size {B} m (f : Z → reader (option B)) at0 at_ :
  0 ≤ at0 ≤ at_ → at_ ≤ zlen buf →
  (∀ n, is_s 32 n → at_ + 4 ≤ zlen buf → nbt_wp (f n) (at_ + 4) (moved m at0)) →
  nbt_wp (or_null nbt_size f) at_ (moved m at0).
Proof.
  intros H0 Hl Hf. apply wp_or_null; [lia|].
  apply wp_guard; intros Hd; [apply wp_ret; lia|].
  apply wp_bind. cbn [pop_or_loop].
  do 4 (apply wp_next_bind; [lia|]; intros ?). apply wp_ret, wp_ret.
  replace (at_ + 1 + 1 + 1 + 1) with (at_ + 4) by lia.
  apply Hf; [by apply wrap_s_range|lia].
Qed.

Lemma wp_room {B} m n width (f : unit → reader (option B)) at0 at_ :
  0 ≤ at0 ≤ at_ → at_ ≤ zlen buf →
  (n * width ≤ eof - at_ + 1 → nbt_wp (f tt) at_ (moved m at0)) →
  nbt_wp (or_null (nbt_room n width) f) at_ (moved m at0).
Proof.
  intros H0 Hl Hf. apply wp_or_null; [lia|]. unfold wp at 1, nbt_room, chk_i32.
  case_decide; [|done]. cbn [mbind result_bind].
  case_decide; [|done]. cbn [mbind result_bind].
  case_decide; cbn; [lia|apply Hf; lia].
Qed.

Lemma wp_parseByteArray inc inList at_ :
  0 ≤ at_ ≤ zlen buf → nbt_wp (nbt_parseByteArray inc inList) at_ (moved 1 at_).
Proof.
  intros H0. apply wp_head_bind; [done|]. intros name at' Hat.
  assert (at_ ≤ at') by (destruct inList; lia).
  apply wp_size; [lia..|]. intros n Hn Hr. apply wp_room; [lia..|]. intros Hroom.
  case_decide; [done|]. apply wp_bind, (wp_popArray_loop _ 1); [|lia..|].
  - intros a Q ? ? HQ. apply wp_next_bind; [lia|]. intros b. apply wp_ret, HQ.
  - intros l. apply wp_ret. split; intros; lia.
Qed.

Lemma wp_parseString inc inList at_ :
  0 ≤ at_ ≤ zlen buf → nbt_wp (nbt_parseString inc inList) at_ (moved 1 at_).
Proof.
  intros H0. apply wp_head_bind; [done|]. intros name at' Hat.
  assert (at_ ≤ at') by (destruct inList; lia).
  apply wp_guard; intros Hd; [apply wp_null; lia|].
  do 2 (apply wp_next_bind; [lia|]; intros ?). cbn zeta.
  apply wp_guard; intros Hd'; [apply wp_null; lia|].
  match goal with |- context [to_u16 ?n] => pose proof (wrap_u_range 16 n ltac:(lia)) as Hu end.
  unfold is_u in Hu. change (wrap_u 16) with to_u16 in Hu.
  apply wp_bind, wp_pop_chars; [lia..|]. intros s. apply wp_ret. split; intros; lia.
Qed.

(** An array of 32- or 64-bit integers. *)
Lemma wp_numbers type (n : nat) wrap (make : string → list Z → nbt_Base) inc inList at_ :
  0 ≤ at_ ≤ zlen buf →
  nbt_wp (name ←? nbt_head type inc inList;
          size ←? nbt_size;
          _ ←? nbt_room size (Z.of_nat n);
          data ← popArray_loop (pop_or_loop n wrap 0) (Z.to_nat size);
          mret (Some (make name data))) at_ (moved 1 at_).
Proof.
  intros H0. apply wp_head_bind; [done|]. intros name at' Hat.
  assert (at_ ≤ at') by (destruct inList; lia).
  apply wp_size; [lia..|]. intros m Hm Hr. apply wp_room; [lia..|]. intros Hroom.
  apply wp_bind, (wp_popArray_loop _ (Z.of_nat n)); [|lia|lia| |].
  - intros a Q ? ? HQ. by apply wp_or_n.
  - destruct (decide (0 ≤ m)); nia.
  - intros l. apply wp_ret. split; intros; destruct (decide (0 ≤ m)); nia.
Qed.

(** ** The recursion

    The fuel that a call needs when [zlen buf - at_] bytes are left: a call
    that has read the type byte needs less than one that has not. *)

Definition call_ok (fuel : nat) (inList : bool)
    (p : bool → bool → reader (option nbt_Base)) : Prop := ∀ inc at_,
  0 ≤ at_ ≤ zlen buf →
  3 * (zlen buf - at_) + (if inList then 4 else 1) ≤ Z.of_nat fuel →
  nbt_wp (p inc inList) at_ (moved 1 at_).

Lemma wp_switch fuel parseList parseCompound type inc inList at_ :
  call_ok fuel inList parseList → call_ok fuel inList parseCompound →
  0 ≤ at_ ≤ zlen buf →
  3 * (zlen buf - at_) + (if inList then 4 else 1) ≤ Z.of_nat fuel →
  nbt_wp (nbt_switch parseList parseCompound type inc inList) at_ (moved 1 at_).
Proof.
  intros Hl Hc H0 Hf. unfold nbt_switch.
  repeat case_decide;
    try (apply wp_scalar; [done|done|]; intros a Q ? ? HQ;
         by (apply wp_or_n || apply wp_pop_bits_loop)).
  - apply wp_scalar; [done|done|]. intros a Q ? ? HQ.
    apply wp_next_bind; [lia|]. intros b. apply wp_ret, HQ.
  - by apply wp_parseByteArray.
  - by apply wp_parseString.
  - by apply Hl.
  - by apply Hc.
  - by apply (wp_numbers _ 4).
  - by apply (wp_numbers _ 8).
  - apply wp_null. lia.
Qed.

Lemma wp_recursion fuel :
  (∀ at_, 0 ≤ at_ ≤ zlen buf → 3 * (zlen buf - at_) + 2 ≤ Z.of_nat fuel →
     nbt_wp (nbt_parse_fuel fuel) at_ (moved 1 at_)) ∧
  (∀ inList, call_ok fuel inList (nbt_parseList fuel)) ∧
  (∀ inList, call_ok fuel inList (nbt_parseCompound fuel)) ∧
  (∀ type left at_, 0 ≤ at_ ≤ zlen buf → 3 * (zlen buf - at_) + 5 ≤ Z.of_nat fuel →
     nbt_wp (nbt_parseList_loop fuel type left) at_ (moved 0 at_)) ∧
  (∀ at_, 0 ≤ at_ ≤ zlen buf → 3 * (zlen buf - at_) + 3 ≤ Z.of_nat fuel →
     nbt_wp (nbt_parseCompound_loop fuel) at_ (moved 1 at_)).
Proof.
  induction fuel as [|fuel (IHp & IHl & IHc & IHll & IHcl)].
  { unfold call_ok. split_and!; intros; try lia; destruct inList; lia. }
  split_and!.
  - intros at_ H0 Hf. apply wp_guard; intros Hd; [apply wp_null; lia|].
    apply wp_current; [lia|]. intros type. eapply wp_switch; [apply IHl|apply IHc|done|].
    cbn. lia.
  - intros inList inc at_ H0 Hf. cbn [nbt_parseList]. apply wp_head_bind; [done|].
    intros name at' Hat. apply wp_guard; intros Hd; [apply wp_null; destruct inList; lia|].
    apply wp_next_bind; [destruct inList; lia|]. intros type.
    apply wp_size; [destruct inList; lia|lia|]. intros n _ Hr.
    apply wp_or_null; [destruct inList; lia|].
    eapply wp_mono; [apply IHll; destruct inList; lia|].
    intros [data|] at'' [Ha Ho]; [|done]. apply wp_ret. split; intros; destruct inList; lia.
  - intros inList inc at_ H0 Hf. cbn [nbt_parseCompound]. apply wp_head_bind; [done|].
    intros name at' Hat. apply wp_or_null; [destruct inList; lia|].
    eapply wp_mono; [apply IHcl; destruct inList; lia|].
    intros [data|] at'' [Ha Ho]; [|done]. specialize (Ho ltac:(done)).
    apply wp_ret. split; intros; destruct inList; lia.
  - intros type left at_ H0 Hf. cbn [nbt_parseList_loop].
    case_decide; [apply wp_ret; split; intros; lia|].
    apply wp_or_null; [lia|]. eapply wp_mono; [eapply wp_switch; [apply IHl|apply IHc|done|cbn; lia]|].
    intros [val|] at' [Ha Ho]; [|done]. specialize (Ho ltac:(done)).
    apply wp_or_null; [lia|]. eapply wp_mono; [apply IHll; lia|].
    intros [data|] at'' [Ha' _]; [|done]. apply wp_ret. split; intros; lia.
  - intros at_ H0 Hf. cbn [nbt_parseCompound_loop].
    apply wp_guard; intros Hd; [apply wp_null; lia|]. apply wp_current; [lia|]. intros b.
    case_decide; [apply wp_next_bind; [lia|]; intros _; apply wp_ret; split; intros; lia|].
    apply wp_or_null; [lia|]. eapply wp_mono; [apply IHp; lia|].
    intros [val|] at' [Ha Ho]; [|done]. specialize (Ho ltac:(done)).
    apply wp_or_null; [lia|]. eapply wp_mono; [apply IHcl; lia|].
    intros [data|] at'' [Ha' _]; [|done]. apply wp_ret. split; intros; lia.
Qed.

Lemma wp_nbt_parse at_ :
  0 ≤ at_ ≤ zlen buf → nbt_wp nbt_parse at_ (moved 1 at_).
Proof.
  intros H0. apply wp_bind, wp_distance. apply wp_recursion; [done|].
  unfold nbt_fuel. lia.
Qed.
End safety.

(** ** Properties *)

(** C3: a tag survives the trip: the bytes [serialize] writes for a well-formed
    tag are parsed back to it, whatever follows, except that the elements of a
    list lose their names; the cursor ends just after them. *)
Theorem nbt_roundtrip (t : nbt_Base) (pre post : list Z) :
  nbt_wf t →
  ∃ bs, nbt_serialize true t [] = Ok bs ∧
    let buf := pre ++ bs ++ post in
    nbt_parse buf (zlen buf - 1) (zlen pre) = Ok (Some (nbt_sent true t), zlen (pre ++ bs)).
Proof.
  intros Hw. exists (nbt_wire true t). split; [by apply emits_nil, nbt_emits|].
  apply (reads_nbt_parse t Hw). rewrite !zlen_app. lia.
Qed.

Definition nbt_example : nbt_Base :=
  nbt_Compound String.EmptyString
    [nbt_List (string_of_bytes [112; 111; 115])
       [nbt_Double String.EmptyString 4607182418800017408; nbt_Double String.EmptyString 0];
     nbt_LongArray (string_of_bytes [97]) [-1; 9223372036854775807];
     nbt_String (string_of_bytes [105; 100]) (string_of_bytes [111; 97; 107]);
     nbt_Byte (string_of_bytes [98]) (-128)].

Lemma nbt_roundtrip_witness :
  nbt_wf nbt_example ∧
  ∃ bs, nbt_serialize true nbt_example [] = Ok bs ∧
    let buf := [7] ++ bs ++ [9; 9] in
    nbt_parse buf (zlen buf - 1) (zlen [7]) =
      Ok (Some (nbt_sent true nbt_example), zlen ([7] ++ bs)).
Proof.
  assert (nbt_wf nbt_example) as H.
  { cbn -[Z.le Z.lt Z.pow Z.mul]. unfold short_string, is_s, is_u.
    split_and!; try done; repeat constructor; done. }
  split; [exact H|exact (nbt_roundtrip nbt_example [7] [9; 9] H)].
Defined.

(** C4: on any bytes, from any cursor of the buffer, the parser returns within
    its fuel and reads nothing outside of the buffer; it leaves the cursor in
    the buffer, moves it forward when it has found a tag, and can only fail on
    the size of an array: [std::length_error] for a negative byte array, a
    signed overflow for the size in bytes. *)
Theorem nbt_parse_safe (buf : list Z) (at_ : Z) :
  0 ≤ at_ ≤ zlen buf →
  match nbt_parse buf (zlen buf - 1) at_ with
  | Ok (Some _, at') => at_ < at' ≤ zlen buf
  | Ok (None, at') => at_ ≤ at' ≤ zlen buf
  | Throw e => e = std_logic_error
  | UB k => k = SignedOverflow
  | OutOfFuel => False
  end.
Proof.
  intros H0. pose proof (wp_nbt_parse buf (zlen buf - 1) eq_refl at_ H0) as H.
  unfold wp in H. destruct (nbt_parse buf (zlen buf - 1) at_) as [[[t|] at']| | |]; cbn in H; try done.
  - destruct H as [? H]. specialize (H ltac:(done)). lia.
  - by destruct H.
Qed.

Lemma nbt_parse_safe_witness :
  0 ≤ 0 ≤ zlen [11; 0; 0; 64; 0; 0; 0] ∧
  match nbt_parse [11; 0; 0; 64; 0; 0; 0] (zlen [11; 0; 0; 64; 0; 0; 0] - 1) 0 with
  | Ok (Some _, at') => 0 < at' ≤ zlen [11; 0; 0; 64; 0; 0; 0]
  | Ok (None, at') => 0 ≤ at' ≤ zlen [11; 0; 0; 64; 0; 0; 0]
  | Throw e => e = std_logic_error
  | UB k => k = SignedOverflow
  | OutOfFuel => False
  end.
Proof.
  assert (0 ≤ 0 ≤ zlen [11; 0; 0; 64; 0; 0; 0]) as H by done.
  split; [exact H|exact (nbt_parse_safe [11; 0; 0; 64; 0; 0; 0] 0 H)].
Defined.

Lemma bind_run {A B} (p : reader A) (f : A → reader B) buf eof at_ a at' :
  p buf eof at_ = Ok (a, at') → (p ≫= f) buf eof at_ = f a buf eof at'.
Proof. intros H. unfold mbind, reader_bind. by rewrite H. Qed.

Lemma or_null_run {A B} (p : reader (option A)) (f : A → reader (option B)) buf eof at_ a at' :
  p buf eof at_ = Ok (Some a, at') → or_null p f buf eof at_ = f a buf eof at'.
Proof. intros H. unfold or_null. by rewrite (bind_run _ _ _ _ _ _ _ H). Qed.

(** The guard of an [int] array computes [size * 4 - 1] in [int]: a size of
    2^29 or more overflows it before the guard can reject the array. *)
Theorem nbt_IntArray_size_overflow (size : Z) (post : list Z) :
  2 ^ 29 ≤ size < 2 ^ 31 →
  run_reader nbt_parse ([11; 0; 0] ++ be_bytes 4 size ++ post) = UB SignedOverflow.
Proof.
  intros Hs. set (buf := [11; 0; 0] ++ be_bytes 4 size ++ post).
  pose proof (be_bytes_length 4 size) as H4.
  assert (zlen buf = 7 + zlen post) as Hl by (unfold buf; rewrite !zlen_app, H4; cbn; lia).
  assert (Reads (nbt_head TagType_IntArray true false) [11; 0; 0] (Some String.EmptyString)) as Hh.
  { apply (reads_full_head (nbt_IntArray String.EmptyString [])). by repeat constructor. }
  specialize (Hh [] (be_bytes 4 size ++ post) (zlen buf - 1) ltac:(cbn; lia)).
  pose proof (reads_size size ltac:(lia) [11; 0; 0] post (zlen buf - 1)
                ltac:(rewrite zlen_app, H4; cbn; lia)) as Hn.
  unfold run_reader, nbt_parse, nbt_fuel. erewrite bind_run by reflexivity.
  rewrite Nat.add_comm. cbn [Nat.add nbt_parse_fuel].
  erewrite bind_run by reflexivity. rewrite decide_False by lia.
  erewrite (bind_run current) by reflexivity. switch_case.
  unfold nbt_parseIntArray. erewrite or_null_run by exact Hh.
  erewrite or_null_run by exact Hn. unfold or_null, mbind, reader_bind, nbt_room, chk_i32.
  rewrite decide_False by (unfold is_s; lia). done.
Qed.

Lemma nbt_IntArray_size_overflow_witness :
  2 ^ 29 ≤ 2 ^ 29 < 2 ^ 31 ∧
  run_reader nbt_parse ([11; 0; 0] ++ be_bytes 4 (2 ^ 29) ++ [0]) = UB SignedOverflow.
Proof.
  assert (2 ^ 29 ≤ 2 ^ 29 < 2 ^ 31) as H by lia.
  split; [exact H|exact (nbt_IntArray_size_overflow (2 ^ 29) [0] H)].
Defined.

Lemma serialize_elements_mismatch c v out :
  c ≠ TagType_End → Forall nbt_wf v → ¬ Forall (λ y, nbt_getType y = c) v →
  nbt_serialize_elements (nbt_serialize false) c v out = Throw TypeMismatch.
Proof.
  intros Hc Hv. revert out. induction Hv as [|x v Hx Hv IH]; intros out Hn; [by destruct Hn; constructor|].
  cbn [nbt_serialize_elements]. rewrite (decide_False (P := c = TagType_End)) by done. cbn zeta.
  destruct (decide (c = nbt_getType x)) as [Hd|Hd]; [|by rewrite decide_True].
  rewrite decide_False by tauto.
  rewrite (nbt_emits false x Hx). cbn [mbind result_bind]. apply IH.
  intros Ht. apply Hn. by constructor.
Qed.

(** Serialising a list of more than one type throws [TypeMismatch]; an empty
    list is undefined behaviour, since the type of its first element is read. *)
Theorem nbt_List_serialize_errors (inc : bool) (name : string) (v : list nbt_Base)
    (out : list Z) :
  Forall nbt_wf v →
  (v = [] → nbt_serialize inc (nbt_List name v) out = UB OutOfBoundsRead) ∧
  (∀ x y, x ∈ v → y ∈ v → nbt_getType x ≠ nbt_getType y →
     nbt_serialize inc (nbt_List name v) out = Throw TypeMismatch).
Proof.
  intros Hv. cbn [nbt_serialize serialize].
  pose proof (emits_preSerialize (nbt_List name v) inc out) as Hp. cbn [nbt_getType nbt_getName] in Hp.
  rewrite Hp. cbn [mbind result_bind].
  split; [by intros ->|]. intros x y Hx Hy Hxy. destruct v as [|z v]; [by inversion Hx|].
  unfold push_back at 1. cbn [mbind result_bind]. rewrite emits_push_be_4. cbn [mbind result_bind].
  cbn [nbt_serialize_elements]. rewrite (decide_True (P := TagType_End = TagType_End)) by done.
  cbn zeta. rewrite decide_False by (by intros []).
  inversion Hv as [|? ? Hz Hv']; subst. rewrite (nbt_emits false z Hz). cbn [mbind result_bind].
  rewrite serialize_elements_mismatch; [done| |done|].
  { by destruct z. }
  intros Ht. apply Hxy.
  assert (∀ w, w ∈ z :: v → nbt_getType w = nbt_getType z) as Hall.
  { intros w Hw. apply list.elem_of_cons in Hw as [->|Hw]; [done|]. rewrite list.Forall_forall in Ht. by apply Ht. }
  by rewrite (Hall x Hx), (Hall y Hy).
Qed.

Lemma nbt_List_serialize_errors_witness :
  Forall nbt_wf [nbt_Byte String.EmptyString 1; nbt_Int String.EmptyString 1] ∧
  ([nbt_Byte String.EmptyString 1; nbt_Int String.EmptyString 1] = [] →
     nbt_serialize true (nbt_List String.EmptyString
       [nbt_Byte String.EmptyString 1; nbt_Int String.EmptyString 1]) [] = UB OutOfBoundsRead) ∧
  (∀ x y, x ∈ [nbt_Byte String.EmptyString 1; nbt_Int String.EmptyString 1] →
     y ∈ [nbt_Byte String.EmptyString 1; nbt_Int String.EmptyString 1] →
     nbt_getType x ≠ nbt_getType y →
     nbt_serialize true (nbt_List String.EmptyString
       [nbt_Byte String.EmptyString 1; nbt_Int String.EmptyString 1]) [] = Throw TypeMismatch).
Proof.
  assert (Forall nbt_wf [nbt_Byte String.EmptyString 1; nbt_Int String.EmptyString 1]) as H.
  { repeat constructor; done. }
  split; [exact H|exact (nbt_List_serialize_errors true _ _ [] H)].
Defined.
