(* ===== verification/DynamicStorage.v ===== *)
(** * Packed arrays (world_storage/DynamicStorage.hpp)

    [DynamicStorage<StoreType, ArraySize>] keeps [ArraySize] values of
    [_valueSize] bits in words of [StoreTypeSize] bits; a value never spans two
    words.  The section of definitions is over the two template parameters. *)

From S2P Require Import Prelude.

Record DynamicStorage : Type := mk_DynamicStorage { _store : list Z; _valueSize : Z }.

#[export] Instance DynamicStorage_eq_dec : EqDecision DynamicStorage.
Proof. solve_decision. Defined.

(** [((1 << _valueSize) - 1)], in [int]. *)
Definition value_mask (valueSize : Z) : result Z :=
  if decide (32 ≤ valueSize) then UB InvalidShift
  else chk_i32 (to_i32 (Z.shiftl 1 valueSize) - 1).

(** [vector::at] *)
Definition vector_at (store : list Z) (i : Z) : result Z :=
  if decide (0 ≤ i < zlen store) then
    match store !! Z.to_nat i with Some x => Ok x | None => UB OutOfBoundsRead end
  else Throw std_out_of_range.

Section Template.
Context (StoreTypeSize ArraySize : Z).

Definition DynamicStorage_make (valueSize : Z) : result DynamicStorage :=
  if decide (StoreTypeSize < valueSize) then Throw std_logic_error
  else if decide (valueSize = 0) then Ok (mk_DynamicStorage [] 0)
  else
    let perEntry := Z.quot StoreTypeSize valueSize in
    let size := Z.quot ArraySize perEntry +
                (if decide (Z.rem ArraySize perEntry ≠ 0) then 1 else 0) in
    Ok (mk_DynamicStorage (replicate (Z.to_nat size) 0) valueSize).

Definition canContainData (d : DynamicStorage) : bool := bool_decide (_valueSize d ≠ 0).

Definition DynamicStorage_set (d : DynamicStorage) (idx value : Z) : result DynamicStorage :=
  if decide (_valueSize d = 0) then Ok d
  else if decide (ArraySize ≤ idx) then Throw std_out_of_range
  else
    max ← value_mask (_valueSize d);
    if decide (to_u64 max < value) then Throw std_out_of_range
    else
      let perEntry := Z.quot StoreTypeSize (_valueSize d) in
      let entryNumber := Z.quot idx perEntry in
      let startOffset := to_i8 (Z.rem idx perEntry * _valueSize d) in
      let mask := wrap_u StoreTypeSize max in
      let value := Z.land value mask in
      old ← vector_at (_store d) entryNumber;
      let cleared := wrap_u StoreTypeSize (Z.land old (Z.lnot (Z.shiftl mask startOffset))) in
      let word := wrap_u StoreTypeSize (Z.lor cleared (Z.shiftl value startOffset)) in
      Ok (mk_DynamicStorage (<[Z.to_nat entryNumber := word]> (_store d)) (_valueSize d)).

Definition DynamicStorage_get (d : DynamicStorage) (idx : Z) : result Z :=
  if decide (_valueSize d = 0) then Throw EmptyStorageAccess
  else if decide (ArraySize ≤ idx) then Throw std_out_of_range
  else
    let valuePerEntry := Z.quot StoreTypeSize (_valueSize d) in
    let entryNumber := Z.quot idx valuePerEntry in
    let startOffset := to_i8 (Z.rem idx valuePerEntry * _valueSize d) in
    max ← value_mask (_valueSize d);
    let mask := wrap_u StoreTypeSize max in
    word ← vector_at (_store d) entryNumber;
    Ok (wrap_u StoreTypeSize (Z.land (Z.shiftr word startOffset) mask)).

(** [for (uint64_t i = 0; i < ArraySize; ++i) newStore.set(i, get(i));] *)
Fixpoint copy_loop (from : DynamicStorage) (l : list Z) (newStore : DynamicStorage) :
  result DynamicStorage :=
  match l with
  | [] => Ok newStore
  | i :: l =>
      v ← DynamicStorage_get from i;
      newStore ← DynamicStorage_set newStore i v;
      copy_loop from l newStore
  end.

Definition DynamicStorage_setValueSize (d : DynamicStorage) (valueSize : Z) :
  result DynamicStorage :=
  if decide (valueSize = _valueSize d) then Ok d
  else if decide (StoreTypeSize < valueSize) then Throw std_runtime_error
  else if decide (valueSize = 0) then Ok (mk_DynamicStorage [] 0)
  else
    newStore ← DynamicStorage_make valueSize;
    if decide (_valueSize d = 0) then Ok newStore
    else copy_loop d (seqZ 0 ArraySize) newStore.
End Template.
