(* ===== verification/StorageLaws.v ===== *)
(** * The laws of packed arrays

    A storage with a value size of up to 30 bits refines the list of its
    values: [DynamicStorage_get] looks an entry up, [DynamicStorage_set]
    replaces one and no other, [DynamicStorage_setValueSize] repacks all of
    them. *)

From S2P Require Import Prelude DynamicStorage.

Section Laws.
Context (W N : Z).
Hypothesis HW : 8 ≤ W ≤ 64.
Hypothesis HN : 0 ≤ N.

(** ** The invariant and the abstraction *)

Definition per_entry (v : Z) : Z := W / v.
Definition store_size (v : Z) : Z :=
  N / per_entry v + (if decide (N `mod` per_entry v ≠ 0) then 1 else 0).

Definition storage_wf (d : DynamicStorage) : Prop :=
  0 ≤ _valueSize d ≤ Z.min W 30 ∧
  Forall (is_u W) (_store d) ∧
  zlen (_store d) = (if decide (_valueSize d = 0) then 0 else store_size (_valueSize d)).

Definition word_of (d : DynamicStorage) (i : Z) : Z :=
  _store d !!! Z.to_nat (i / per_entry (_valueSize d)).
Definition offset_of (d : DynamicStorage) (i : Z) : Z :=
  i `mod` per_entry (_valueSize d) * _valueSize d.

Definition entry (d : DynamicStorage) (i : Z) : Z :=
  Z.land (Z.shiftr (word_of d i) (offset_of d i)) (Z.ones (_valueSize d)).

Definition values (d : DynamicStorage) : list Z := entry d <$> seqZ 0 N.

Lemma per_entry_pos v : 0 < v ≤ W → 0 < per_entry v.
Proof. intros. unfold per_entry. apply Z.div_str_pos. lia. Qed.

Lemma per_entry_bits v : 0 < v ≤ W → per_entry v * v ≤ W.
Proof. intros. unfold per_entry. rewrite Z.mul_comm. apply Z.mul_div_le. lia. Qed.

Lemma value_mask_ones v : 0 ≤ v ≤ 30 → value_mask v = Ok (Z.ones v).
Proof.
  intros Hv. unfold value_mask. rewrite decide_False by lia.
  rewrite Z.shiftl_1_l.
  assert (0 < 2 ^ v ≤ 2 ^ 30) by (split; [lia|apply Z.pow_le_mono_r; lia]).
  unfold to_i32. rewrite wrap_s_id by (unfold is_s; lia).
  rewrite chk_i32_ok by (unfold is_s; lia). by rewrite Z.ones_equiv, Z.sub_1_r.
Qed.

Lemma wrap_ones v : 0 ≤ v ≤ W → wrap_u W (Z.ones v) = Z.ones v.
Proof.
  intros. apply wrap_u_id. unfold is_u. rewrite Z.ones_equiv.
  assert (0 < 2 ^ v ≤ 2 ^ W) by (split; [lia|apply Z.pow_le_mono_r; lia]). lia.
Qed.

Lemma store_index d i :
  storage_wf d → _valueSize d ≠ 0 → 0 ≤ i < N →
  0 ≤ i / per_entry (_valueSize d) < zlen (_store d).
Proof.
  intros (Hv & _ & Hl) Hz Hi. rewrite decide_False in Hl by done.
  pose proof (per_entry_pos (_valueSize d) ltac:(lia)) as Hp.
  rewrite Hl. unfold store_size. split; [apply Z.div_pos; lia|].
  apply Z.div_lt_upper_bound; [lia|].
  pose proof (Z.div_mod N (per_entry (_valueSize d)) ltac:(lia)).
  pose proof (Z.mod_pos_bound N (per_entry (_valueSize d)) Hp).
  case_decide; nia.
Qed.

Lemma offset_range d i :
  storage_wf d → _valueSize d ≠ 0 →
  0 ≤ offset_of d i ∧ offset_of d i + _valueSize d ≤ W.
Proof.
  intros (Hv & _) Hz. unfold offset_of.
  pose proof (per_entry_pos (_valueSize d) ltac:(lia)) as Hp.
  pose proof (per_entry_bits (_valueSize d) ltac:(lia)).
  pose proof (Z.mod_pos_bound i _ Hp). nia.
Qed.

Lemma vector_at_ok store i :
  0 ≤ i < zlen store → vector_at store i = Ok (store !!! Z.to_nat i).
Proof.
  intros Hi. unfold vector_at. rewrite decide_True by done.
  destruct (store !! Z.to_nat i) eqn:E; [by rewrite (list_lookup_total_correct _ _ _ E)|].
  apply lookup_ge_None_1 in E. lia.
Qed.

Lemma word_range d i :
  storage_wf d → _valueSize d ≠ 0 → 0 ≤ i < N → is_u W (word_of d i).
Proof.
  intros Hw Hz Hi. pose proof (store_index d i Hw Hz Hi). destruct Hw as (_ & Hs & _).
  eapply (Forall_lookup_1 _ _ (Z.to_nat (i / per_entry (_valueSize d)))); [exact Hs|].
  apply list_lookup_lookup_total_lt. lia.
Qed.

(** The bits of an entry. *)
Lemma entry_bits d i b :
  storage_wf d → _valueSize d ≠ 0 → 0 ≤ b →
  Z.testbit (entry d i) b =
    bool_decide (b < _valueSize d) && Z.testbit (word_of d i) (b + offset_of d i).
Proof.
  intros Hw Hz Hb. pose proof Hw as (Hv & _). unfold entry.
  rewrite Z.land_spec, Z.shiftr_spec, testbit_ones, andb_comm by lia.
  done.
Qed.

Lemma entry_range d i : storage_wf d → is_u (_valueSize d) (entry d i).
Proof. intros (Hv & _). unfold entry. rewrite Z.land_ones by lia. apply wrap_u_range. lia. Qed.

(** ** [get] *)

Lemma quot_rem_div a b : 0 ≤ a → 0 < b → Z.quot a b = a / b ∧ Z.rem a b = a `mod` b.
Proof. intros. by rewrite Z.quot_div_nonneg, Z.rem_mod_nonneg by lia. Qed.

Lemma to_i8_offset d i :
  storage_wf d → _valueSize d ≠ 0 → to_i8 (offset_of d i) = offset_of d i.
Proof.
  intros Hw Hz. pose proof (offset_range d i Hw Hz). destruct Hw as (Hv & _).
  apply wrap_s_id; [lia|]. unfold is_s. lia.
Qed.

Lemma get_entry d i :
  storage_wf d → _valueSize d ≠ 0 → 0 ≤ i < N →
  DynamicStorage_get W N d i = Ok (entry d i).
Proof.
  intros Hw Hz Hi. pose proof Hw as (Hv & _).
  pose proof (per_entry_pos (_valueSize d) ltac:(lia)) as Hp.
  pose proof (store_index d i Hw Hz Hi) as Hs.
  unfold DynamicStorage_get. rewrite decide_False, decide_False by lia. cbn zeta.
  replace (Z.quot W (_valueSize d)) with (per_entry (_valueSize d))
    by (symmetry; apply quot_rem_div; lia).
  destruct (quot_rem_div i (per_entry (_valueSize d)) ltac:(lia) Hp) as [-> ->].
  rewrite value_mask_ones by lia. cbn [mbind result_bind].
  rewrite vector_at_ok by done. cbn [mbind result_bind].
  rewrite wrap_ones by lia.
  change (i `mod` per_entry (_valueSize d) * _valueSize d) with (offset_of d i).
  rewrite to_i8_offset by done. f_equal. fold (word_of d i). fold (entry d i).
  apply wrap_u_id. pose proof (entry_range d i Hw) as He. unfold is_u in *.
  assert (2 ^ _valueSize d ≤ 2 ^ W) by (apply Z.pow_le_mono_r; lia). lia.
Qed.

(** ** [set] *)

Definition word_set (w off v x : Z) : Z :=
  wrap_u W (Z.lor (wrap_u W (Z.land w (Z.lnot (Z.shiftl (Z.ones v) off)))) (Z.shiftl x off)).

Lemma word_set_bits w off v x b :
  0 ≤ v → 0 ≤ off → off + v ≤ W → is_u v x → 0 ≤ b < W →
  Z.testbit (word_set w off v x) b =
    if decide (off ≤ b < off + v) then Z.testbit x (b - off) else Z.testbit w b.
Proof.
  intros Hv Ho Hov Hx Hb. unfold word_set.
  rewrite testbit_wrap_u, decide_True by lia.
  rewrite Z.lor_spec, testbit_wrap_u, decide_True by lia.
  rewrite Z.land_spec, Z.lnot_spec, !Z.shiftl_spec by lia.
  destruct (decide (off ≤ b)).
  - rewrite testbit_ones by lia. destruct (decide (b < off + v)).
    + rewrite decide_True, bool_decide_true by lia. cbn. by rewrite andb_false_r.
    + rewrite decide_False, bool_decide_false by lia. cbn. rewrite andb_true_r.
      rewrite <- (wrap_u_id v x Hx), testbit_wrap_u, decide_False by lia. by rewrite orb_false_r.
  - rewrite decide_False, (Z.testbit_neg_r (Z.ones v)), (Z.testbit_neg_r x) by lia. cbn. by rewrite andb_true_r, orb_false_r.
Qed.

Lemma set_result d i x :
  storage_wf d → _valueSize d ≠ 0 → 0 ≤ i < N → is_u (_valueSize d) x →
  DynamicStorage_set W N d i x =
    Ok (mk_DynamicStorage
          (<[Z.to_nat (i / per_entry (_valueSize d)) :=
             word_set (word_of d i) (offset_of d i) (_valueSize d) x]> (_store d))
          (_valueSize d)).
Proof.
  intros Hw Hz Hi Hx. pose proof Hw as (Hv & _).
  pose proof (per_entry_pos (_valueSize d) ltac:(lia)) as Hp.
  pose proof (store_index d i Hw Hz Hi) as Hs.
  unfold DynamicStorage_set. rewrite decide_False, decide_False by lia.
  rewrite value_mask_ones by lia. cbn [mbind result_bind].
  assert (0 < 2 ^ _valueSize d ≤ 2 ^ 30) by (split; [lia|apply Z.pow_le_mono_r; lia]).
  unfold is_u in Hx. rewrite decide_False.
  2:{ unfold to_u64. rewrite wrap_u_id; rewrite Z.ones_equiv; unfold is_u; lia. }
  replace (Z.quot W (_valueSize d)) with (per_entry (_valueSize d))
    by (symmetry; apply quot_rem_div; lia).
  destruct (quot_rem_div i (per_entry (_valueSize d)) ltac:(lia) Hp) as [-> ->].
  rewrite wrap_ones by lia. cbn zeta. rewrite vector_at_ok by done. cbn [mbind result_bind].
  change (i `mod` per_entry (_valueSize d) * _valueSize d) with (offset_of d i).
  rewrite to_i8_offset by done. fold (word_of d i).
  replace (Z.land x (Z.ones (_valueSize d))) with x; [done|].
  rewrite Z.land_ones by lia. symmetry. by apply Z.mod_small.
Qed.

Lemma set_wf d i x :
  storage_wf d → _valueSize d ≠ 0 →
  storage_wf (mk_DynamicStorage (<[i := wrap_u W x]> (_store d)) (_valueSize d)).
Proof.
  intros (Hv & Hs & Hl) Hz. split_and!; cbn; [lia..| |by rewrite length_insert].
  apply Forall_insert; [done|]. apply wrap_u_range. lia.
Qed.

(** An entry of the updated storage is the new value at [i], and unchanged
    everywhere else: other words are the same, and other entries of the same
    word occupy other bits. *)
Lemma set_entry d i x j d' :
  storage_wf d → _valueSize d ≠ 0 → 0 ≤ i < N → is_u (_valueSize d) x → 0 ≤ j < N →
  DynamicStorage_set W N d i x = Ok d' →
  entry d' j = if decide (j = i) then x else entry d j.
Proof.
  intros Hw Hz Hi Hx Hj. rewrite set_result by done. intros [= <-].
  set (v := _valueSize d) in *. pose proof Hw as (Hv & _). fold v in Hv.
  pose proof (per_entry_pos v ltac:(lia)) as Hp.
  pose proof (store_index d i Hw Hz Hi) as Hsi. pose proof (store_index d j Hw Hz Hj) as Hsj.
  fold v in Hsi, Hsj.
  pose proof (offset_range d i Hw Hz) as Hoi. pose proof (offset_range d j Hw Hz) as Hoj.
  fold v in Hoi, Hoj.
  set (d' := mk_DynamicStorage _ v).
  assert (storage_wf d') as Hw' by (by apply set_wf).
  assert (offset_of d' j = offset_of d j) as Ho by done.
  assert (word_of d' j = if decide (i / per_entry v = j / per_entry v)
                         then word_set (word_of d i) (offset_of d i) v x else word_of d j) as Hword.
  { unfold word_of at 1. cbn. fold v. case_decide as E.
    - rewrite <- E. rewrite list_lookup_total_insert_eq by lia. done.
    - rewrite list_lookup_total_insert_ne by lia. done. }
  apply Z.bits_inj'. intros b Hb. rewrite entry_bits by done. cbn [_valueSize d'].
  rewrite Ho, Hword. destruct (decide (b < v)).
  2:{ rewrite bool_decide_false by lia. cbn. symmetry. destruct (decide (j = i)).
      - clear Hword. rewrite <- (wrap_u_id v x Hx), testbit_wrap_u, decide_False by lia. done.
      - rewrite entry_bits, bool_decide_false by (done || lia). done. }
  rewrite bool_decide_true by lia. cbn. case_decide as E.
  - rewrite word_set_bits by (done || lia).
    pose proof (Z.div_mod i (per_entry v) ltac:(lia)) as Di.
    pose proof (Z.div_mod j (per_entry v) ltac:(lia)) as Dj.
    destruct (decide (j = i)) as [->|Hne].
    + rewrite decide_True by lia. f_equal. lia.
    + assert (i `mod` per_entry v ≠ j `mod` per_entry v) by (intros ?; apply Hne; congruence).
      rewrite decide_False.
      2:{ unfold offset_of. fold v. nia. }
      rewrite entry_bits, bool_decide_true by (done || lia). cbn.
      f_equal. unfold word_of. fold v. by rewrite E.
  - rewrite decide_False by (intros ->; done).
    rewrite entry_bits, bool_decide_true by (done || lia). done.
Qed.

Lemma set_ok d i x :
  storage_wf d → _valueSize d ≠ 0 → 0 ≤ i < N → is_u (_valueSize d) x →
  ∃ d', DynamicStorage_set W N d i x = Ok d' ∧ storage_wf d' ∧
    _valueSize d' = _valueSize d ∧
    ∀ j, 0 ≤ j < N → entry d' j = if decide (j = i) then x else entry d j.
Proof.
  intros Hw Hz Hi Hx. pose proof (set_result d i x Hw Hz Hi Hx) as E.
  eexists. split_and!; [exact E|by apply set_wf|done|].
  intros j Hj. by eapply set_entry.
Qed.

Lemma set_too_big d i x :
  storage_wf d → _valueSize d ≠ 0 → 0 ≤ i < N → 2 ^ _valueSize d ≤ x →
  DynamicStorage_set W N d i x = Throw std_out_of_range.
Proof.
  intros (Hv & _) Hz Hi Hx. unfold DynamicStorage_set.
  rewrite decide_False, decide_False by lia. rewrite value_mask_ones by lia. cbn [mbind result_bind].
  assert (0 < 2 ^ _valueSize d ≤ 2 ^ 30) by (split; [lia|apply Z.pow_le_mono_r; lia]).
  rewrite decide_True; [done|]. unfold to_u64. rewrite wrap_u_id; rewrite Z.ones_equiv; unfold is_u; lia.
Qed.

(** ** The list of values *)

Lemma values_length d : length (values d) = Z.to_nat N.
Proof. unfold values. by rewrite length_fmap, length_seqZ. Qed.

Lemma values_lookup d i : 0 ≤ i < N → values d !! Z.to_nat i = Some (entry d i).
Proof.
  intros Hi. unfold values. rewrite list_lookup_fmap, lookup_seqZ_lt by lia. cbn.
  do 2 f_equal. lia.
Qed.

Lemma values_lookup_inv d k x : values d !! k = Some x → Z.of_nat k < N ∧ x = entry d (Z.of_nat k).
Proof.
  unfold values. rewrite list_lookup_fmap. intros H. apply fmap_Some in H as (i & Hi & ->).
  apply lookup_seqZ in Hi as [-> ?]. by rewrite Z.add_0_l.
Qed.

Lemma values_ext d d' : (∀ j, 0 ≤ j < N → entry d' j = entry d j) → values d' = values d.
Proof.
  intros H. apply list_fmap_ext. intros k j Hj. apply lookup_seqZ in Hj as [-> ?]. apply H. lia.
Qed.

Lemma set_values d i x d' :
  storage_wf d → _valueSize d ≠ 0 → 0 ≤ i < N → is_u (_valueSize d) x →
  DynamicStorage_set W N d i x = Ok d' → values d' = <[Z.to_nat i := x]> (values d).
Proof.
  intros Hw Hz Hi Hx E. apply list_eq. intros k.
  destruct (decide (Z.of_nat k < N)) as [Hk|Hk].
  - rewrite <- (Nat2Z.id k) at 1. rewrite values_lookup, (set_entry d i x) by (done || lia).
    case_decide as Hki.
    + rewrite <- Hki, Nat2Z.id, list_lookup_insert_eq; [done|]. rewrite values_length. lia.
    + rewrite list_lookup_insert_ne by lia.
      rewrite <- (Nat2Z.id k) at 2. by rewrite values_lookup by lia.
  - rewrite !lookup_ge_None_2; [done|rewrite length_insert|]; rewrite values_length; lia.
Qed.

(** ** [setValueSize] *)

Lemma make_ok v :
  0 < v ≤ Z.min W 30 →
  ∃ d, DynamicStorage_make W N v = Ok d ∧ storage_wf d ∧ _valueSize d = v ∧
    ∀ j, 0 ≤ j < N → entry d j = 0.
Proof.
  intros Hv. unfold DynamicStorage_make. rewrite decide_False, decide_False by lia. cbn zeta.
  pose proof (per_entry_pos v ltac:(lia)) as Hp.
  replace (Z.quot W v) with (per_entry v) by (symmetry; apply quot_rem_div; lia).
  destruct (quot_rem_div N (per_entry v) HN Hp) as [-> ->]. fold (store_size v).
  assert (0 ≤ store_size v).
  { unfold store_size. pose proof (Z.div_pos N (per_entry v) HN Hp). case_decide; lia. }
  assert (storage_wf (mk_DynamicStorage (replicate (Z.to_nat (store_size v)) 0) v)) as Hw.
  { split_and!; cbn; [lia..| |].
    - apply Forall_replicate. unfold is_u. pose proof (Z.pow_pos_nonneg 2 W). lia.
    - rewrite length_replicate, decide_False by lia. lia. }
  eexists. split_and!; [done|exact Hw|done|].
  intros j Hj. unfold entry. replace (word_of _ j) with 0; [by rewrite Z.shiftr_0_l, Z.land_0_l|].
  pose proof (store_index _ j Hw ltac:(cbn; lia) Hj) as Hs. unfold word_of.
  symmetry. apply list_lookup_total_correct. cbn in *. apply lookup_replicate. 
  rewrite length_replicate in Hs. split; [done|lia].
Qed.

(** The copy of a prefix of the indices. *)
Lemma copy_loop_ok from l new :
  storage_wf from → _valueSize from ≠ 0 → storage_wf new → _valueSize new ≠ 0 →
  Forall (λ i, 0 ≤ i < N ∧ is_u (_valueSize new) (entry from i)) l →
  ∃ d, copy_loop W N from l new = Ok d ∧ storage_wf d ∧ _valueSize d = _valueSize new ∧
    ∀ j, 0 ≤ j < N → entry d j = if decide (j ∈ l) then entry from j else entry new j.
Proof.
  intros Hf Hfz. revert new. induction l as [|i l IH]; intros new Hn Hnz Hl.
  - exists new. split_and!; [done..|]. intros j _. rewrite decide_False; [done|].
    apply not_elem_of_nil.
  - apply list.Forall_cons in Hl as [[Hi Hx] Hl]. cbn [copy_loop].
    rewrite get_entry by done. cbn [mbind result_bind].
    destruct (set_ok new i (entry from i) Hn Hnz Hi Hx) as (new' & -> & Hn' & Hv' & He).
    cbn [mbind result_bind]. rewrite <- Hv' in Hl.
    destruct (IH new' Hn' ltac:(congruence) Hl) as (d & -> & Hd & Hv & Hde).
    exists d. split_and!; [done|done|congruence|]. intros j Hj. rewrite Hde by done.
    destruct (decide (j ∈ l)) as [Hin|Hin].
    + by rewrite decide_True by (by apply list_elem_of_further).
    + rewrite He by done. destruct (decide (j = i)) as [->|Hji].
      * by rewrite decide_True by apply list_elem_of_here.
      * rewrite decide_False; [done|]. rewrite elem_of_cons. tauto.
Qed.

Lemma copy_loop_too_big from l new i :
  storage_wf from → _valueSize from ≠ 0 → storage_wf new → _valueSize new ≠ 0 →
  Forall (λ i, 0 ≤ i < N) l → i ∈ l → 2 ^ _valueSize new ≤ entry from i →
  copy_loop W N from l new = Throw std_out_of_range.
Proof.
  intros Hf Hfz Hn Hnz Hl Hin Hbig. revert new Hn Hnz Hbig.
  induction l as [|k l IH]; intros new Hn Hnz Hbig; [by inversion Hin|].
  apply list.Forall_cons in Hl as [Hk Hl]. cbn [copy_loop].
  rewrite get_entry by done. cbn [mbind result_bind].
  destruct (decide (2 ^ _valueSize new ≤ entry from k)).
  - by rewrite set_too_big by done.
  - pose proof (entry_range from k Hf) as He. unfold is_u in He.
    destruct (set_ok new k (entry from k) Hn Hnz Hk) as (new' & -> & Hn' & Hv' & _);
      [unfold is_u; lia|]. cbn [mbind result_bind].
    apply IH; [done| |done|congruence|congruence].
    apply elem_of_cons in Hin as [->|?]; [lia|done].
Qed.

Lemma setValueSize_ok d n :
  storage_wf d → _valueSize d ≠ 0 → 0 < n ≤ Z.min W 30 →
  (∀ i, 0 ≤ i < N → is_u n (entry d i)) →
  ∃ d', DynamicStorage_setValueSize W N d n = Ok d' ∧ storage_wf d' ∧ _valueSize d' = n ∧
    ∀ j, 0 ≤ j < N → entry d' j = entry d j.
Proof.
  intros Hw Hz Hn He. unfold DynamicStorage_setValueSize.
  case_decide as Hd; [exists d; split_and!; congruence || done|].
  rewrite decide_False, decide_False by lia.
  destruct (make_ok n Hn) as (new & -> & Hnew & Hv & _). cbn [mbind result_bind].
  rewrite decide_False by done.
  destruct (copy_loop_ok d (seqZ 0 N) new) as (d' & -> & Hw' & Hv' & He'); try done; [lia| |].
  { apply list.Forall_forall. intros i Hi. apply elem_of_seqZ in Hi.
    rewrite Hv. split; [lia|]. apply He. lia. }
  exists d'. split_and!; [done|done|congruence|]. intros j Hj. rewrite He' by done.
  by rewrite decide_True by (apply elem_of_seqZ; lia).
Qed.

Lemma setValueSize_from_empty d n :
  _valueSize d = 0 → 0 < n ≤ Z.min W 30 →
  ∃ d', DynamicStorage_setValueSize W N d n = Ok d' ∧ storage_wf d' ∧ _valueSize d' = n ∧
    ∀ j, 0 ≤ j < N → entry d' j = 0.
Proof.
  intros Hz Hn. unfold DynamicStorage_setValueSize. rewrite !decide_False by lia.
  destruct (make_ok n Hn) as (new & -> & Hnew & Hv & He). cbn [mbind result_bind].
  rewrite decide_True by done. by exists new.
Qed.
End Laws.

(** ** Properties *)

(** Reading a packed array reads the list of its values: an index has the
    value the list has there, and an index past the end throws
    [std::out_of_range]. *)
Theorem DynamicStorage_get_refines (W N : Z) (d : DynamicStorage) (idx : Z) :
  8 ≤ W ≤ 64 → 0 ≤ N → storage_wf W N d → _valueSize d ≠ 0 → 0 ≤ idx →
  DynamicStorage_get W N d idx =
    match values W N d !! Z.to_nat idx with
    | Some v => Ok v
    | None => Throw std_out_of_range
    end.
Proof.
  intros HW HN Hw Hz Hi. destruct (decide (idx < N)).
  - by rewrite get_entry, values_lookup by (done || lia).
  - rewrite lookup_ge_None_2 by (rewrite values_length; lia).
    unfold DynamicStorage_get. by rewrite decide_False, decide_True by lia.
Qed.

(** Ten values of three bits in bytes: two to a byte. *)
Definition storage_example : DynamicStorage :=
  mk_DynamicStorage [1; 2; 3; 4; 5] 3.

Lemma storage_example_wf : storage_wf 8 10 storage_example.
Proof.
  split_and!; [done|done| |done]. repeat constructor; done.
Defined.

Lemma DynamicStorage_get_refines_witness :
  8 ≤ 8 ≤ 64 ∧ 0 ≤ 10 ∧ storage_wf 8 10 storage_example ∧ _valueSize storage_example ≠ 0 ∧
  0 ≤ 8 ∧
  DynamicStorage_get 8 10 storage_example 8 =
    match values 8 10 storage_example !! Z.to_nat 8 with
    | Some v => Ok v
    | None => Throw std_out_of_range
    end.
Proof.
  assert (8 ≤ 8 ≤ 64) as H1 by lia. assert (0 ≤ 10) as H2 by lia.
  assert (_valueSize storage_example ≠ 0) as H3 by done. assert (0 ≤ 8) as H4 by lia.
  exact (conj H1 (conj H2 (conj storage_example_wf (conj H3 (conj H4
    (DynamicStorage_get_refines 8 10 storage_example 8 H1 H2 storage_example_wf H3 H4)))))).
Defined.

(** Writing a packed array replaces exactly the value at the index: the list
    of values is updated there and nowhere else, the invariant is kept, and a
    value that does not fit the value size throws [std::out_of_range]. *)
Theorem DynamicStorage_set_refines (W N : Z) (d : DynamicStorage) (idx value : Z) :
  8 ≤ W ≤ 64 → 0 ≤ N → storage_wf W N d → _valueSize d ≠ 0 → 0 ≤ idx < N → 0 ≤ value →
  match DynamicStorage_set W N d idx value with
  | Ok d' =>
      value < 2 ^ _valueSize d ∧ storage_wf W N d' ∧ _valueSize d' = _valueSize d ∧
      values W N d' = <[Z.to_nat idx := value]> (values W N d)
  | Throw e => e = std_out_of_range ∧ 2 ^ _valueSize d ≤ value
  | _ => False
  end.
Proof.
  intros HW HN Hw Hz Hi Hv. destruct (decide (value < 2 ^ _valueSize d)) as [Hx|Hx].
  - destruct (set_ok W N HW d idx value Hw Hz Hi ltac:(done)) as (d' & E & Hw' & Hv' & _).
    rewrite E. split_and!; [done..|]. by apply set_values.
  - rewrite set_too_big by (done || lia). split; [done|lia].
Qed.

Lemma DynamicStorage_set_refines_witness :
  8 ≤ 8 ≤ 64 ∧ 0 ≤ 10 ∧ storage_wf 8 10 storage_example ∧ _valueSize storage_example ≠ 0 ∧
  0 ≤ 9 < 10 ∧ 0 ≤ 7 ∧
  match DynamicStorage_set 8 10 storage_example 9 7 with
  | Ok d' =>
      7 < 2 ^ _valueSize storage_example ∧ storage_wf 8 10 d' ∧
      _valueSize d' = _valueSize storage_example ∧
      values 8 10 d' = <[Z.to_nat 9 := 7]> (values 8 10 storage_example)
  | Throw e => e = std_out_of_range ∧ 2 ^ _valueSize storage_example ≤ 7
  | _ => False
  end.
Proof.
  assert (8 ≤ 8 ≤ 64) as H1 by lia. assert (0 ≤ 10) as H2 by lia.
  assert (_valueSize storage_example ≠ 0) as H3 by done. assert (0 ≤ 9 < 10) as H4 by lia.
  assert (0 ≤ 7) as H5 by lia.
  exact (conj H1 (conj H2 (conj storage_example_wf (conj H3 (conj H4 (conj H5
    (DynamicStorage_set_refines 8 10 storage_example 9 7 H1 H2 storage_example_wf H3 H4 H5))))))).
Defined.

(** C6: changing the value size repacks a storage without changing any value;
    when a value does not fit the new size, [std::out_of_range] is thrown (and
    the storage is left as it was, since it is only replaced at the end). *)
Theorem DynamicStorage_setValueSize_refines (W N : Z) (d : DynamicStorage) (n : Z) :
  8 ≤ W ≤ 64 → 0 ≤ N → storage_wf W N d → _valueSize d ≠ 0 → 0 < n ≤ Z.min W 30 →
  match DynamicStorage_setValueSize W N d n with
  | Ok d' => storage_wf W N d' ∧ _valueSize d' = n ∧ values W N d' = values W N d
  | Throw e => e = std_out_of_range ∧ ∃ v, v ∈ values W N d ∧ 2 ^ n ≤ v
  | _ => False
  end.
Proof.
  intros HW HN Hw Hz Hn.
  destruct (decide (Forall (λ v, v < 2 ^ n) (values W N d))) as [Hall|Hex].
  - destruct (setValueSize_ok W N HW HN d n) as (d' & -> & Hw' & Hv & He); [done..| |].
    + intros i Hi. pose proof (entry_range W N d i Hw) as [? _].
      split; [done|]. by eapply (Forall_lookup_1 _ _ _ _ Hall), values_lookup.
    + split_and!; [done..|]. by apply values_ext.
  - apply not_Forall_Exists in Hex; [|apply _].
    apply list.Exists_exists in Hex as (v & Hv & Hbig).
    pose proof Hv as (k & Hk)%list_elem_of_lookup. apply values_lookup_inv in Hk as [Hk ->].
    apply Z.nlt_ge in Hbig. unfold DynamicStorage_setValueSize.
    pose proof (entry_range W N d (Z.of_nat k) Hw) as He.
    unfold is_u in He. rewrite decide_False by (intros E; rewrite E in Hbig; lia).
    rewrite decide_False, decide_False by lia.
    destruct (make_ok W N HW HN n Hn) as (new & -> & Hnew & Hnv & _). cbn [mbind result_bind].
    rewrite decide_False by done.
    rewrite (copy_loop_too_big W N HW d (seqZ 0 N) new (Z.of_nat k));
      [|done|done|done|lia| |apply elem_of_seqZ; lia|by rewrite Hnv].
    + split; [done|]. eexists. split; [exact Hv|lia].
    + apply list.Forall_forall. intros i Hi. apply elem_of_seqZ in Hi. lia.
Qed.

Lemma DynamicStorage_setValueSize_refines_witness :
  8 ≤ 8 ≤ 64 ∧ 0 ≤ 10 ∧ storage_wf 8 10 storage_example ∧ _valueSize storage_example ≠ 0 ∧
  0 < 4 ≤ Z.min 8 30 ∧
  match DynamicStorage_setValueSize 8 10 storage_example 4 with
  | Ok d' => storage_wf 8 10 d' ∧ _valueSize d' = 4 ∧
             values 8 10 d' = values 8 10 storage_example
  | Throw e => e = std_out_of_range ∧ ∃ v, v ∈ values 8 10 storage_example ∧ 2 ^ 4 ≤ v
  | _ => False
  end.
Proof.
  assert (8 ≤ 8 ≤ 64) as H1 by lia. assert (0 ≤ 10) as H2 by lia.
  assert (_valueSize storage_example ≠ 0) as H3 by done. assert (0 < 4 ≤ Z.min 8 30) as H4 by lia.
  split; [exact H1|]. split; [exact H2|]. split; [exact storage_example_wf|].
  split; [exact H3|]. split; [exact H4|].
  exact (DynamicStorage_setValueSize_refines 8 10 storage_example 4 H1 H2 storage_example_wf H3 H4).
Defined.
