(* ===== verification/Palette.v ===== *)
(** * Palettes (world_storage/Palette.hpp, Palette.cpp)

    The list of the global identifiers in use; the position of an identifier is
    its local identifier.  [BlockPalette] and [BiomePalette] differ in the
    number of bits they ask for.  The mutex of the class is not modelled: the
    operations are atomic. *)

From S2P Require Import Prelude State.

(** [n <= 1 ? 0 : 1 + bitsNeeded((n + 1) / 2)]; thirty-two calls halve any
    [int32_t] down to one. *)
Fixpoint bitsNeeded_fuel (fuel : nat) (n : Z) : result Z :=
  match fuel with
  | O => OutOfFuel
  | S fuel =>
      if decide (n ≤ 1) then Ok 0
      else
        m ← chk_i32 (n + 1);
        rest ← bitsNeeded_fuel fuel (Z.quot m 2);
        Ok (to_u8 (1 + rest))
  end.
Definition bitsNeeded (n : Z) : result Z := bitsNeeded_fuel 32 n.

(** [_nameToId] *)
Abbreviation Palette := (list Z).

(** [std::find] and [std::distance]: the index of the first occurrence. *)
Fixpoint find_index (globalId : Z) (nameToId : Palette) : option nat :=
  match nameToId with
  | [] => None
  | x :: rest => if decide (x = globalId) then Some O else S <$> find_index globalId rest
  end.

(** [-1] as [uint64_t] when there is no such identifier. *)
Definition Palette_getId (p : Palette) (globalId : Z) : Z :=
  match find_index globalId p with
  | None => to_u64 (-1)
  | Some i => Z.of_nat i
  end.

Definition Palette_getGlobalId (p : Palette) (localId : Z) : Z :=
  if decide (zlen p ≤ localId) then -1
  else match p !! Z.to_nat localId with Some g => g | None => -1 end.

Definition Palette_add (globalId : Z) (p : Palette) : Palette :=
  match find_index globalId p with
  | None => p ++ [globalId]
  | Some _ => p
  end.

(** [it == _nameToId.end() - 1]: only the last identifier is ever erased. *)
Definition Palette_removeAll (globalId : Z) (p : Palette) : Palette :=
  match find_index globalId p with
  | Some i => if decide (S i = length p) then take i p else p
  | None => p
  end.

(** The loop of [remove]: each turn erases the last element. *)
Fixpoint Palette_remove_loop (fuel : nat) (globalId : Z) (p : Palette) : Palette :=
  match fuel with
  | O => p
  | S fuel =>
      match find_index globalId p with
      | Some i => if decide (S i = length p) then Palette_remove_loop fuel globalId (take i p) else p
      | None => p
      end
  end.
Definition Palette_remove (globalId : Z) (p : Palette) : Palette :=
  Palette_remove_loop (S (length p)) globalId p.

Definition Palette_size (p : Palette) : Z := zlen p.

(** [operator[]] *)
Definition Palette_index (p : Palette) (index : Z) : result Z :=
  match p !! Z.to_nat index with Some g => Ok g | None => Throw std_out_of_range end.

Definition Palette_clear (p : Palette) : Palette := [].

Definition BlockPalette_make : Palette := [0].
Definition BiomePalette_make : Palette := [0].

Definition BlockPalette_getBits (p : Palette) : result Z :=
  if decide (zlen p ≤ 1) then Ok 0
  else
    bytePerBlock ← bitsNeeded (to_i32 (zlen p));
    if decide (bytePerBlock ≤ 4) then Ok 4
    else if decide (bytePerBlock ≤ 8) then Ok bytePerBlock
    else Ok 15.

Definition BiomePalette_getBits (p : Palette) : result Z :=
  if decide (zlen p ≤ 1) then Ok 0
  else
    bytePerBlock ← bitsNeeded (to_i32 (zlen p));
    if decide (bytePerBlock ≤ 3) then Ok bytePerBlock else Ok 3.
