(* ===== verification/Section.v ===== *)
(** * Chunk sections (world_storage/Section.hpp, Section.cpp)

    Sixteen by sixteen by sixteen blocks and four by four by four biomes, each
    a palette and a packed array of local identifiers, and the two light
    arrays of four bits with the number of lit blocks. *)

From S2P Require Import Prelude Types State DynamicStorage Palette.

Definition CHUNK_HEIGHT_MIN : Z := -64.
Definition CHUNK_HEIGHT_MAX : Z := 320.
Definition CHUNK_HEIGHT : Z := CHUNK_HEIGHT_MAX - CHUNK_HEIGHT_MIN.

Definition SECTION_WIDTH : Z := 16.
Definition SECTION_2D_SIZE : Z := SECTION_WIDTH * SECTION_WIDTH.
Definition SECTION_3D_SIZE : Z := SECTION_2D_SIZE * SECTION_WIDTH.
Definition NB_OF_PLAYABLE_SECTIONS : Z :=
  Z.quot CHUNK_HEIGHT SECTION_WIDTH + (if decide (Z.rem CHUNK_HEIGHT SECTION_WIDTH ≠ 0) then 1 else 0).
Definition NB_OF_SECTIONS : Z := NB_OF_PLAYABLE_SECTIONS + 2.

Definition BIOME_SECTION_WIDTH : Z := 4.
Definition BIOME_HEIGHT_MIN : Z := Z.quot CHUNK_HEIGHT_MIN 4.
Definition BIOME_HEIGHT_MAX : Z := Z.quot CHUNK_HEIGHT_MAX 4.
Definition BIOME_HEIGHT : Z := BIOME_HEIGHT_MAX - BIOME_HEIGHT_MIN.
Definition BIOME_SECTION_2D_SIZE : Z := BIOME_SECTION_WIDTH * BIOME_SECTION_WIDTH.
Definition BIOME_SECTION_3D_SIZE : Z := BIOME_SECTION_2D_SIZE * BIOME_SECTION_WIDTH.

(** [pos.x + (pos.z * width) + (pos.y * width2)], in [int64_t], as [uint64_t]. *)
Definition section_index (width width2 : Z) (pos : Position) : result Z :=
  zw ← chk_i64 (pz pos * width);
  xz ← chk_i64 (px pos + zw);
  yw ← chk_i64 (py pos * width2);
  i ← chk_i64 (xz + yw);
  Ok (to_u64 i).

Definition calculateSectionBlockIdx : Position → result Z :=
  section_index SECTION_WIDTH SECTION_2D_SIZE.
Definition calculateSectionBiomeIdx : Position → result Z :=
  section_index BIOME_SECTION_WIDTH BIOME_SECTION_2D_SIZE.

Abbreviation BlockStorage_get := (DynamicStorage_get 64 SECTION_3D_SIZE).
Abbreviation BlockStorage_set := (DynamicStorage_set 64 SECTION_3D_SIZE).
Abbreviation BiomeStorage_get := (DynamicStorage_get 64 BIOME_SECTION_3D_SIZE).
Abbreviation BiomeStorage_set := (DynamicStorage_set 64 BIOME_SECTION_3D_SIZE).
Abbreviation LightStorage_get := (DynamicStorage_get 8 SECTION_3D_SIZE).
Abbreviation LightStorage_set := (DynamicStorage_set 8 SECTION_3D_SIZE).

Record Section_ : Type := mk_Section {
  _blocks : DynamicStorage;
  _biomes : DynamicStorage;
  _blockPalette : Palette;
  _biomePalette : Palette;
  _skyLight : DynamicStorage;
  _blockLight : DynamicStorage;
  _skyLightCount : Z;
  _blockLightCount : Z
}.

Definition set_blocks d s := mk_Section d (_biomes s) (_blockPalette s) (_biomePalette s)
  (_skyLight s) (_blockLight s) (_skyLightCount s) (_blockLightCount s).
Definition set_biomes d s := mk_Section (_blocks s) d (_blockPalette s) (_biomePalette s)
  (_skyLight s) (_blockLight s) (_skyLightCount s) (_blockLightCount s).
Definition set_blockPalette p s := mk_Section (_blocks s) (_biomes s) p (_biomePalette s)
  (_skyLight s) (_blockLight s) (_skyLightCount s) (_blockLightCount s).
Definition set_biomePalette p s := mk_Section (_blocks s) (_biomes s) (_blockPalette s) p
  (_skyLight s) (_blockLight s) (_skyLightCount s) (_blockLightCount s).
Definition set_skyLight d n s := mk_Section (_blocks s) (_biomes s) (_blockPalette s)
  (_biomePalette s) d (_blockLight s) n (_blockLightCount s).
Definition set_blockLight d n s := mk_Section (_blocks s) (_biomes s) (_blockPalette s)
  (_biomePalette s) (_skyLight s) d (_skyLightCount s) n.

(** The constructor: [_skyLight(4)] and [_blockLight(4)] allocate their words. *)
Definition Section_make : result Section_ :=
  blocks ← DynamicStorage_make 64 SECTION_3D_SIZE 0;
  biomes ← DynamicStorage_make 64 BIOME_SECTION_3D_SIZE 0;
  skyLight ← DynamicStorage_make 8 SECTION_3D_SIZE 4;
  blockLight ← DynamicStorage_make 8 SECTION_3D_SIZE 4;
  Ok (mk_Section blocks biomes BlockPalette_make BiomePalette_make skyLight blockLight 0 0).

(** ** Blocks and biomes *)

Definition Section_setBlock (pos : Position) (block : Z) : M Section_ unit :=
  if Position_ge pos SECTION_WIDTH || Position_lt pos 0 then raise std_out_of_range
  else
    idx ← lift (calculateSectionBlockIdx pos);
    p ← gets _blockPalette;
    oldBits ← lift (BlockPalette_getBits p);
    _ ← modify (λ s, set_blockPalette (Palette_add block (_blockPalette s)) s);
    p ← gets _blockPalette;
    newBits ← lift (BlockPalette_getBits p);
    _ ← (if decide (oldBits ≠ newBits ∧ newBits ≠ 0) then
           member _blocks set_blocks
             (assign (λ d, DynamicStorage_setValueSize 64 SECTION_3D_SIZE d newBits))
         else mret tt);
    p ← gets _blockPalette;
    member _blocks set_blocks (assign (λ d, BlockStorage_set d idx (Palette_getId p block))).

Definition Section_updateBlock (pos : Position) (block : Z) : M Section_ unit :=
  if Position_ge pos SECTION_WIDTH || Position_lt pos 0 then raise std_out_of_range
  else Section_setBlock pos block.

Definition Section_setBiome (pos : Position) (biome : Z) : M Section_ unit :=
  if Position_ge pos BIOME_SECTION_WIDTH || Position_lt pos 0 then raise std_out_of_range
  else
    p ← gets _biomePalette;
    oldBits ← lift (BiomePalette_getBits p);
    _ ← modify (λ s, set_biomePalette (Palette_add biome (_biomePalette s)) s);
    p ← gets _biomePalette;
    newBits ← lift (BiomePalette_getBits p);
    _ ← (if decide (oldBits ≠ newBits ∧ newBits ≠ 0) then
           member _biomes set_biomes
             (assign (λ d, DynamicStorage_setValueSize 64 BIOME_SECTION_3D_SIZE d newBits))
         else mret tt);
    idx ← lift (calculateSectionBiomeIdx pos);
    p ← gets _biomePalette;
    member _biomes set_biomes (assign (λ d, BiomeStorage_set d idx (Palette_getId p biome))).

Definition Section_updateBiome (pos : Position) (biome : Z) : M Section_ unit :=
  if Position_ge pos BIOME_SECTION_WIDTH || Position_lt pos 0 then raise std_out_of_range
  else Section_setBiome pos biome.

Definition Section_getBlock_idx (s : Section_) (idx : Z) : result Z :=
  if negb (canContainData (_blocks s)) then Ok 0
  else id ← BlockStorage_get (_blocks s) idx; Ok (Palette_getGlobalId (_blockPalette s) id).

Definition Section_getBlock (s : Section_) (pos : Position) : result Z :=
  if Position_ge pos SECTION_WIDTH then Throw std_out_of_range
  else if negb (canContainData (_blocks s)) then Ok 0
  else
    idx ← calculateSectionBlockIdx pos;
    id ← BlockStorage_get (_blocks s) idx;
    Ok (Palette_getGlobalId (_blockPalette s) id).

Definition Section_getBiome_idx (s : Section_) (idx : Z) : result Z :=
  if negb (canContainData (_biomes s)) then Ok 0
  else id ← BiomeStorage_get (_biomes s) idx; Ok (Palette_getGlobalId (_biomePalette s) id).

Definition Section_getBiome (s : Section_) (pos : Position) : result Z :=
  if Position_ge pos BIOME_SECTION_WIDTH then Throw std_out_of_range
  else if negb (canContainData (_biomes s)) then Ok 0
  else
    idx ← calculateSectionBiomeIdx pos;
    id ← BiomeStorage_get (_biomes s) idx;
    Ok (Palette_getGlobalId (_biomePalette s) id).

(** ** Light *)

Definition Section_getSkyLight (s : Section_) (pos : Position) : result Z :=
  if Position_ge pos SECTION_WIDTH then Throw std_out_of_range
  else idx ← calculateSectionBlockIdx pos; LightStorage_get (_skyLight s) idx.
Definition Section_getSkyLight_idx (s : Section_) (idx : Z) : result Z :=
  LightStorage_get (_skyLight s) idx.
Definition Section_getBlockLight (s : Section_) (pos : Position) : result Z :=
  if Position_ge pos SECTION_WIDTH then Throw std_out_of_range
  else idx ← calculateSectionBlockIdx pos; LightStorage_get (_blockLight s) idx.
Definition Section_getBlockLight_idx (s : Section_) (idx : Z) : result Z :=
  LightStorage_get (_blockLight s) idx.

(** The counter of lit blocks (a [uint64_t]) when a level goes from [l] to [light]. *)
Definition light_count (count l light : Z) : Z :=
  let count := if decide (l ≠ 0 ∧ light = 0) then to_u64 (count - 1) else count in
  if decide (l = 0 ∧ light ≠ 0) then to_u64 (count + 1) else count.

Definition Section_setSkyLight (pos : Position) (light : Z) : M Section_ unit :=
  idx ← lift (calculateSectionBlockIdx pos);
  d ← gets _skyLight;
  l ← lift (LightStorage_get d idx);
  _ ← modify (λ s, set_skyLight (_skyLight s) (light_count (_skyLightCount s) l light) s);
  member _skyLight (λ d s, set_skyLight d (_skyLightCount s) s)
    (assign (λ d, LightStorage_set d idx light)).
Definition Section_updateSkyLight : Position → Z → M Section_ unit := Section_setSkyLight.

Definition Section_setBlockLight (pos : Position) (light : Z) : M Section_ unit :=
  s ← gets id;
  l ← lift (Section_getBlockLight s pos);
  _ ← modify (λ s, set_blockLight (_blockLight s) (light_count (_blockLightCount s) l light) s);
  idx ← lift (calculateSectionBlockIdx pos);
  member _blockLight (λ d s, set_blockLight d (_blockLightCount s) s)
    (assign (λ d, LightStorage_set d idx light)).
Definition Section_updateBlockLight : Position → Z → M Section_ unit := Section_setBlockLight.

(** The two half bytes of every byte. *)
Definition count_lights (bytes : list Z) : Z :=
  foldl (λ n i, to_u64 (n + (if decide (1 ≤ Z.land i 0xF0) then 1 else 0)
                          + (if decide (1 ≤ Z.land i 0x0F) then 1 else 0))) 0 bytes.

Definition Section_recalculateSkyLightCount (s : Section_) : Section_ :=
  set_skyLight (_skyLight s) (count_lights (_store (_skyLight s))) s.
Definition Section_recalculateBlockLightCount (s : Section_) : Section_ :=
  set_blockLight (_blockLight s) (count_lights (_store (_blockLight s))) s.

(** [for (auto &x : _skyLight.data()) x = 0xFF;] *)
Definition Section_recalculateSkyLight (s : Section_) : Section_ :=
  let d := _skyLight s in
  let d' := mk_DynamicStorage ((λ _, 0xFF) <$> _store d) (_valueSize d) in
  Section_recalculateSkyLightCount (set_skyLight d' (_skyLightCount s) s).

Definition Section_recalculateBlockLight (s : Section_) : Section_ := s.

Definition Section_hasSkyLight (s : Section_) : bool := bool_decide (0 < _skyLightCount s).
Definition Section_hasBlockLight (s : Section_) : bool := bool_decide (0 < _blockLightCount s).
Definition Section_hasBlocks (s : Section_) : result bool :=
  bits ← BlockPalette_getBits (_blockPalette s); Ok (bool_decide (bits ≠ 0)).
Definition Section_hasBiomes (s : Section_) : result bool :=
  bits ← BiomePalette_getBits (_biomePalette s); Ok (bool_decide (bits ≠ 0)).
