(* ===== verification/SectionLaws.v ===== *)
(** * The laws of palettes and sections

    A palette and a packed array of local identifiers behave as an array of
    global identifiers; blocks and biomes are two instances of the same
    argument, which is over the number of cells and the bits function of the
    palette. *)

From S2P Require Import Prelude Types State DynamicStorage StorageLaws Palette Section.

(** ** Palettes *)

Lemma find_index_some g p i : find_index g p = Some i → p !! i = Some g.
Proof.
  revert i. induction p as [|x p IH]; intros i; cbn; [done|].
  case_decide as Hx; [intros [= <-]; by subst|].
  intros H. apply fmap_Some in H as (k & Hk & ->). by apply IH.
Qed.

Lemma find_index_none g p : find_index g p = None ↔ g ∉ p.
Proof.
  induction p as [|x p IH]; cbn; [split; [intros _; apply not_elem_of_nil|done]|].
  rewrite elem_of_cons. case_decide as Hx; [subst; split; [done|tauto]|].
  rewrite fmap_None, IH. assert (g ≠ x) by congruence. tauto.
Qed.

Lemma find_index_app g p : g ∉ p → find_index g (p ++ [g]) = Some (length p).
Proof.
  induction p as [|x p IH]; cbn; intros Hg; [by rewrite decide_True|].
  rewrite elem_of_cons in Hg. rewrite decide_False by naive_solver.
  rewrite IH by tauto. done.
Qed.

Lemma Palette_add_prefix g p : p `prefix_of` Palette_add g p.
Proof. unfold Palette_add. destruct (find_index g p); [done|by apply prefix_app_r]. Qed.

Lemma Palette_add_in g p : g ∈ Palette_add g p.
Proof.
  unfold Palette_add. destruct (find_index g p) as [i|] eqn:E.
  - eapply list_elem_of_lookup_2, find_index_some, E.
  - rewrite elem_of_app. right. apply list_elem_of_here.
Qed.

Lemma Palette_getId_in g p : g ∈ p → p !! Z.to_nat (Palette_getId p g) = Some g ∧
  0 ≤ Palette_getId p g < zlen p.
Proof.
  intros Hg. unfold Palette_getId. destruct (find_index g p) as [i|] eqn:E.
  - pose proof (find_index_some _ _ _ E) as Hi. pose proof (lookup_lt_Some _ _ _ Hi).
    rewrite Nat2Z.id. split; [done|lia].
  - by apply find_index_none in E.
Qed.

Lemma Palette_getGlobalId_lookup p i g :
  0 ≤ i → p !! Z.to_nat i = Some g → Palette_getGlobalId p i = g.
Proof.
  intros Hi Hg. pose proof (lookup_lt_Some _ _ _ Hg). unfold Palette_getGlobalId.
  rewrite decide_False by lia. by rewrite Hg.
Qed.

Lemma Palette_getGlobalId_prefix p p' i :
  0 ≤ i < zlen p → p `prefix_of` p' → Palette_getGlobalId p' i = Palette_getGlobalId p i.
Proof.
  intros Hi Hp. destruct (lookup_lt_is_Some_2 p (Z.to_nat i)) as [g Hg]; [lia|].
  rewrite (Palette_getGlobalId_lookup p i g) by (done || lia).
  apply Palette_getGlobalId_lookup; [lia|]. by eapply prefix_lookup_Some.
Qed.

Lemma log2_up_half n : 1 < n → Z.log2_up n = Z.succ (Z.log2_up ((n + 1) / 2)).
Proof.
  intros Hn. set (m := (n + 1) / 2). assert (Hm : 2 * m - 1 ≤ n ≤ 2 * m) by (unfold m; div_lia).
  destruct (decide (m = 1)) as [E|].
  - rewrite E. assert (n = 2) as -> by lia. done.
  - pose proof (Z.log2_up_spec m ltac:(lia)) as [Hlo Hhi].
    assert (0 < Z.log2_up m) by (apply Z.log2_up_pos; lia).
    apply Z.log2_up_unique; [lia|]. rewrite Z.pred_succ, Z.pow_succ_r by lia.
    rewrite <- (Z.succ_pred (Z.log2_up m)) at 1. rewrite Z.pow_succ_r by lia. lia.
Qed.

Lemma bitsNeeded_log2_up n : n < 2 ^ 31 - 1 → bitsNeeded n = Ok (Z.log2_up n).
Proof.
  intros Hn. unfold bitsNeeded.
  assert (Hb : Z.log2_up n < Z.of_nat 32).
  { destruct (decide (n ≤ 1)); [rewrite Z.log2_up_eqn0; lia|].
    assert (Z.log2_up n ≤ 31); [|lia]. apply Z.log2_up_le_pow2; lia. }
  assert (Hf : Z.of_nat 32 ≤ 32) by done.
  revert n Hn Hb Hf. generalize 32%nat as fuel.
  induction fuel as [|fuel IH]; intros n Hn Hb Hf; [pose proof (Z.log2_up_nonneg n); lia|].
  cbn [bitsNeeded_fuel]. case_decide as H1; [by rewrite Z.log2_up_eqn0 by lia|].
  rewrite chk_i32_ok by (unfold is_s; lia). cbn [mbind result_bind].
  rewrite Z.quot_div_nonneg by lia. rewrite (log2_up_half n) in * by lia.
  rewrite IH; [|div_lia|lia|lia]. cbn [mbind result_bind]. f_equal.
  pose proof (Z.log2_up_nonneg ((n + 1) / 2)).
  unfold to_u8. rewrite wrap_u_id by (unfold is_u; lia). lia.
Qed.

(** ** Paletted storage

    What a palette class has to promise about its number of bits: it is zero
    exactly when there is at most one identifier, and local identifiers fit,
    up to a capacity. *)

Class BitsLaw (getBits : Palette → result Z) (capacity : Z) : Prop := {
  bits_ok : ∀ p, zlen p ≤ capacity →
    ∃ b, getBits p = Ok b ∧ 0 ≤ b ≤ 30 ∧ (b = 0 ↔ zlen p ≤ 1) ∧ (b ≠ 0 → zlen p ≤ 2 ^ b)
}.

Lemma le_pow_log2_up n b : 1 < n → Z.log2_up n ≤ b → n ≤ 2 ^ b.
Proof.
  intros Hn Hb. pose proof (Z.log2_up_spec n Hn).
  assert (2 ^ Z.log2_up n ≤ 2 ^ b) by (apply Z.pow_le_mono_r; lia). lia.
Qed.

#[export] Instance block_bits_law : BitsLaw BlockPalette_getBits (2 ^ 15).
Proof.
  constructor. intros p Hp. unfold BlockPalette_getBits.
  case_decide as H1; [exists 0; split_and!; (done || lia)|].
  unfold to_i32. rewrite wrap_s_id by (unfold is_s; lia).
  rewrite bitsNeeded_log2_up by lia. cbn [mbind result_bind].
  assert (0 < Z.log2_up (zlen p)) by (apply Z.log2_up_pos; lia).
  case_decide; [|case_decide].
  - exists 4. split_and!; [done|lia..|]. intros _. apply le_pow_log2_up; lia.
  - exists (Z.log2_up (zlen p)). split_and!; [done|lia..|]. intros _. apply le_pow_log2_up; lia.
  - exists 15. split_and!; (done || lia).
Qed.

#[export] Instance biome_bits_law : BitsLaw BiomePalette_getBits 8.
Proof.
  constructor. intros p Hp. unfold BiomePalette_getBits.
  case_decide as H1; [exists 0; split_and!; (done || lia)|].
  unfold to_i32. rewrite wrap_s_id by (unfold is_s; lia).
  rewrite bitsNeeded_log2_up by lia. cbn [mbind result_bind].
  assert (0 < Z.log2_up (zlen p)) by (apply Z.log2_up_pos; lia).
  assert (Z.log2_up (zlen p) ≤ 3) by (apply Z.log2_up_le_pow2; lia).
  rewrite decide_True by done.
  exists (Z.log2_up (zlen p)). split_and!; [done|lia..|]. intros _. apply le_pow_log2_up; lia.
Qed.

Section Paletted.
Context (N : Z) (getBits : Palette → result Z) (capacity : Z).
Context `{BitsLaw getBits capacity}.
Hypothesis HN : 0 ≤ N.

Let W64 : 8 ≤ 64 ≤ 64.
Proof. lia. Qed.

(** The invariant of a palette and its storage. *)
Definition paletted_wf (p : Palette) (d : DynamicStorage) : Prop :=
  storage_wf 64 N d ∧ getBits p = Ok (_valueSize d) ∧ zlen p ≤ capacity ∧ head p = Some 0 ∧
  (_valueSize d ≠ 0 → ∀ i, 0 ≤ i < N → entry 64 d i < zlen p).

(** The global identifier in a cell. *)
Definition cell (p : Palette) (d : DynamicStorage) (i : Z) : Z :=
  if decide (_valueSize d = 0) then 0 else Palette_getGlobalId p (entry 64 d i).

Lemma palette_head p i : head p = Some 0 → zlen p ≤ 1 → p !! i = Some 0 ∨ p !! i = None.
Proof. intros Hh Hl. destruct p as [|x [|y p]]; cbn in *; simplify_eq; [destruct i; auto|lia]. Qed.

Lemma add_head g p : head p = Some 0 → head (Palette_add g p) = Some 0.
Proof.
  intros Hh. destruct p as [|x p]; [done|]. destruct (Palette_add_prefix g (x :: p)) as [k ->]. done.
Qed.

Lemma add_length g p : zlen p ≤ zlen (Palette_add g p).
Proof. pose proof (prefix_length _ _ (Palette_add_prefix g p)). lia. Qed.

Lemma add_length_le g p : zlen (Palette_add g p) ≤ zlen p + 1.
Proof.
  unfold Palette_add. destruct (find_index g p); [lia|]. rewrite zlen_app. cbn. lia.
Qed.

(** Growing the palette and repacking keeps every cell. *)
Lemma grow_ok p d g :
  paletted_wf p d → zlen (Palette_add g p) ≤ capacity →
  ∃ b d1, getBits (Palette_add g p) = Ok b ∧
    (if decide (_valueSize d ≠ b ∧ b ≠ 0) then DynamicStorage_setValueSize 64 N d b else Ok d) = Ok d1 ∧
    paletted_wf (Palette_add g p) d1 ∧
    ∀ j, 0 ≤ j < N → cell (Palette_add g p) d1 j = cell p d j.
Proof.
  intros (Hw & Hb & Hc & Hh & He) Hcap.
  destruct (bits_ok p Hc) as (b0 & Hb0 & Hr0 & Hz0 & Hl0). rewrite Hb in Hb0. injection Hb0 as <-.
  destruct (bits_ok _ Hcap) as (b & Hb' & Hr & Hz & Hl).
  pose proof (add_length g p) as Hlen. pose proof (add_head g p Hh) as Hh'.
  exists b. destruct (decide (_valueSize d = 0)) as [Hd|Hd].
  - destruct (decide (b = 0)) as [->|Hbn].
    + exists d. rewrite decide_False by tauto. split_and!; [done..| |].
      * split_and!; [done|congruence|done..].
      * intros j Hj. unfold cell. by rewrite !decide_True.
    + destruct (setValueSize_from_empty 64 N W64 HN d b Hd ltac:(lia)) as (d1 & E & Hw1 & Hv1 & He1).
      exists d1. rewrite decide_True by (split; congruence). split_and!; [done..| |].
      * split_and!; [done|congruence|done..|]. intros _ i Hi. rewrite He1 by done.
        destruct (Palette_add g p); cbn in *; [done|lia].
      * intros j Hj. unfold cell. rewrite decide_False, decide_True by congruence.
        rewrite He1 by done. apply Palette_getGlobalId_lookup; [done|]. 
        change (Z.to_nat 0) with 0%nat. destruct (Palette_add g p); [done|exact Hh'].
  - assert (b ≠ 0) as Hbn by (intros ->; apply Hd, Hz0; lia).
    destruct (setValueSize_ok 64 N W64 HN d b Hw Hd ltac:(lia)) as (d1 & E & Hw1 & Hv1 & He1).
    { intros i Hi. pose proof (entry_range 64 N d i Hw) as [? _].
      specialize (He Hd i Hi). specialize (Hl Hbn). split; lia. }
    exists d1. split_and!; [done| | |].
    + case_decide as Hcase; [done|]. assert (b = _valueSize d) as Eb by lia.
      rewrite Eb in E. unfold DynamicStorage_setValueSize in E. by rewrite decide_True in E.
    + split_and!; [done|congruence|done..|]. intros _ i Hi. rewrite He1 by done.
      specialize (He Hd i Hi). lia.
    + intros j Hj. unfold cell. rewrite !decide_False by congruence. rewrite He1 by done.
      apply Palette_getGlobalId_prefix; [|apply Palette_add_prefix].
      pose proof (entry_range 64 N d j Hw) as [? _]. specialize (He Hd j Hj). lia.
Qed.

(** Storing the local identifier of [g] puts [g] in the cell. *)
Lemma store_ok p d g i :
  paletted_wf p d → g ∈ p → 0 ≤ i < N →
  ∃ d', DynamicStorage_set 64 N d i (Palette_getId p g) = Ok d' ∧ paletted_wf p d' ∧
    ∀ j, 0 ≤ j < N → cell p d' j = if decide (j = i) then g else cell p d j.
Proof.
  intros Hwf Hg Hi. pose proof Hwf as (Hw & Hb & Hc & Hh & He).
  destruct (bits_ok p Hc) as (b & Hb' & Hr & Hz & Hl). rewrite Hb in Hb'. injection Hb' as <-.
  destruct (Palette_getId_in g p Hg) as [Hlook Hid].
  destruct (decide (_valueSize d = 0)) as [Hd|Hd].
  - exists d. unfold DynamicStorage_set. rewrite decide_True by done. split_and!; [done..|].
    intros j Hj. unfold cell. rewrite !decide_True by done. case_decide; [|done].
    apply Hz in Hd. destruct (palette_head p (Z.to_nat (Palette_getId p g)) Hh Hd) as [E|E];
      rewrite Hlook in E; [by injection E|done].
  - specialize (Hl Hd).
    destruct (set_ok 64 N W64 d i (Palette_getId p g) Hw Hd Hi) as (d' & E & Hw' & Hv' & He');
      [split; lia|].
    exists d'. split_and!; [done| |].
    + split_and!; [done|congruence|done..|]. intros _ j Hj. rewrite He' by done.
      case_decide; [lia|]. by apply He.
    + intros j Hj. unfold cell. rewrite !decide_False by congruence. rewrite He' by done.
      case_decide; [|by rewrite decide_False]. apply Palette_getGlobalId_lookup; [lia|done].
Qed.
End Paletted.

(** ** Positions inside of a section *)

Definition in_section (w : Z) (pos : Position) : Prop :=
  0 ≤ px pos < w ∧ 0 ≤ py pos < w ∧ 0 ≤ pz pos < w.

Definition cell_index (w : Z) (pos : Position) : Z := px pos + pz pos * w + py pos * (w * w).

Lemma cell_index_range w pos : in_section w pos → 0 ≤ cell_index w pos < w * w * w.
Proof. unfold in_section, cell_index. intros. nia. Qed.

Lemma cell_index_inj w p q :
  in_section w p → in_section w q → cell_index w p = cell_index w q → p = q.
Proof.
  unfold in_section, cell_index. destruct p as [x y z], q as [x' y' z']; cbn.
  intros Hp Hq E. assert (y = y') as -> by nia. assert (z = z') as -> by nia. f_equal. nia.
Qed.

Lemma section_index_value w pos :
  0 ≤ w ≤ 16 → is_s 32 (px pos) → is_s 32 (py pos) → is_s 32 (pz pos) →
  section_index w (w * w) pos = Ok (to_u64 (cell_index w pos)).
Proof.
  unfold is_s. intros Hw Hx Hy Hz. assert (0 ≤ w * w ≤ 256) by nia.
  assert (- 2 ^ 36 ≤ pz pos * w ≤ 2 ^ 36) by nia.
  assert (- 2 ^ 40 ≤ py pos * (w * w) ≤ 2 ^ 40) by nia.
  unfold section_index, chk_i64, cell_index.
  do 4 (rewrite decide_True by (unfold is_s; lia); cbn [mbind result_bind]). done.
Qed.

Lemma section_index_ok w pos :
  in_section w pos → w ≤ 16 → section_index w (w * w) pos = Ok (cell_index w pos).
Proof.
  intros Hp Hw. pose proof (cell_index_range w pos Hp) as Hr. unfold in_section in Hp.
  rewrite section_index_value by (unfold is_s; lia).
  unfold to_u64. rewrite wrap_u_id; [done|]. assert (w * w * w ≤ 4096) by nia. unfold is_u. lia.
Qed.

Lemma block_idx_ok pos :
  in_section 16 pos → calculateSectionBlockIdx pos = Ok (cell_index 16 pos).
Proof. intros. by apply (section_index_ok 16). Qed.
Lemma biome_idx_ok pos :
  in_section 4 pos → calculateSectionBiomeIdx pos = Ok (cell_index 4 pos).
Proof. intros. by apply (section_index_ok 4). Qed.

Lemma guard_inside w pos : in_section w pos → Position_ge pos w = false ∧ Position_lt pos 0 = false.
Proof.
  unfold in_section, Position_ge, Position_lt. intros (? & ? & ?).
  rewrite (bool_decide_false (w ≤ px pos)), (bool_decide_false (px pos < 0)) by lia. done.
Qed.

(** ** Sections *)

Definition light_wf (d : DynamicStorage) (count : Z) : Prop :=
  storage_wf 8 4096 d ∧ _valueSize d = 4 ∧
  count = zlen (filter (λ v, v ≠ 0) (values 8 4096 d)).

Definition section_wf (s : Section_) : Prop :=
  paletted_wf 4096 BlockPalette_getBits (2 ^ 15) (_blockPalette s) (_blocks s) ∧
  paletted_wf 64 BiomePalette_getBits 8 (_biomePalette s) (_biomes s) ∧
  light_wf (_skyLight s) (_skyLightCount s) ∧ light_wf (_blockLight s) (_blockLightCount s).

Definition block_at (s : Section_) (pos : Position) : Z :=
  cell (_blockPalette s) (_blocks s) (cell_index 16 pos).
Definition biome_at (s : Section_) (pos : Position) : Z :=
  cell (_biomePalette s) (_biomes s) (cell_index 4 pos).

Lemma get_cell N getBits capacity p d i :
  paletted_wf N getBits capacity p d → 0 ≤ i < N →
  (if negb (canContainData d) then Ok 0
   else id ← DynamicStorage_get 64 N d i; Ok (Palette_getGlobalId p id)) = Ok (cell p d i).
Proof.
  intros (Hw & _) Hi. unfold canContainData, cell. case_bool_decide as Hd; cbn [negb].
  - rewrite get_entry by (done || lia). cbn. by rewrite decide_False.
  - by rewrite decide_True by lia.
Qed.

Lemma getBlock_at s pos :
  section_wf s → in_section 16 pos → Section_getBlock s pos = Ok (block_at s pos).
Proof.
  intros (Hb & _) Hp. unfold Section_getBlock, SECTION_WIDTH.
  destruct (guard_inside 16 pos Hp) as [-> _]. rewrite block_idx_ok by done.
  by apply (get_cell 4096 BlockPalette_getBits (2 ^ 15)), (cell_index_range 16).
Qed.

Lemma getBiome_at s pos :
  section_wf s → in_section 4 pos → Section_getBiome s pos = Ok (biome_at s pos).
Proof.
  intros (_ & Hb & _) Hp. unfold Section_getBiome, BIOME_SECTION_WIDTH.
  destruct (guard_inside 4 pos Hp) as [-> _]. rewrite biome_idx_ok by done.
  by apply (get_cell 64 BiomePalette_getBits 8), (cell_index_range 4).
Qed.

Lemma setBlock_ok s pos b :
  section_wf s → in_section 16 pos → zlen (Palette_add b (_blockPalette s)) ≤ 2 ^ 15 →
  ∃ s', Section_setBlock pos b s = (Ok tt, s') ∧ section_wf s' ∧
    (∀ q, in_section 16 q → block_at s' q = if decide (q = pos) then b else block_at s q) ∧
    (∀ q, biome_at s' q = biome_at s q) ∧
    _blockPalette s' = Palette_add b (_blockPalette s) ∧
    _skyLight s' = _skyLight s ∧ _blockLight s' = _blockLight s ∧
    _biomePalette s' = _biomePalette s.
Proof.
  intros (Hb & Hrest) Hp Hcap. pose proof (cell_index_range 16 pos Hp) as Hi.
  pose proof Hb as (_ & Hbits & _).
  destruct (grow_ok 4096 BlockPalette_getBits (2 ^ 15) ltac:(done) _ _ b Hb Hcap)
    as (bits & d1 & Hbits1 & Hgrow & Hwf1 & Hcell1).
  destruct (store_ok 4096 BlockPalette_getBits (2 ^ 15) _ _ b (cell_index 16 pos) Hwf1
              (Palette_add_in _ _) Hi) as (d2 & Hset & Hwf2 & Hcell2).
  exists (set_blocks d2 (set_blocks d1 (set_blockPalette (Palette_add b (_blockPalette s)) s))).
  split_and!; try done.
  - unfold Section_setBlock, SECTION_WIDTH. destruct (guard_inside 16 pos Hp) as [-> ->]. cbn [orb].
    rewrite block_idx_ok by done. unfold mbind, M_bind, lift, gets, modify.
    rewrite Hbits. cbn [_blockPalette set_blockPalette]. rewrite Hbits1.
    erewrite member_assign_if; [|by destruct s|exact Hgrow].
    by apply member_assign_ok.
  - intros q Hq. unfold block_at. cbn [set_blocks set_blockPalette _blockPalette _blocks].
    rewrite Hcell2, Hcell1 by (by apply (cell_index_range 16)).
    destruct (decide (q = pos)) as [->|Hne]; [by rewrite decide_True|].
    rewrite decide_False; [done|]. intros E. by apply Hne, (cell_index_inj 16).
Qed.

Lemma setBiome_ok s pos b :
  section_wf s → in_section 4 pos → zlen (Palette_add b (_biomePalette s)) ≤ 8 →
  ∃ s', Section_setBiome pos b s = (Ok tt, s') ∧ section_wf s' ∧
    (∀ q, in_section 4 q → biome_at s' q = if decide (q = pos) then b else biome_at s q) ∧
    (∀ q, block_at s' q = block_at s q) ∧
    _biomePalette s' = Palette_add b (_biomePalette s) ∧
    _skyLight s' = _skyLight s ∧ _blockLight s' = _blockLight s ∧
    _blockPalette s' = _blockPalette s.
Proof.
  intros (Hblocks & Hb & Hrest) Hp Hcap. pose proof (cell_index_range 4 pos Hp) as Hi.
  pose proof Hb as (_ & Hbits & _).
  destruct (grow_ok 64 BiomePalette_getBits 8 ltac:(done) _ _ b Hb Hcap)
    as (bits & d1 & Hbits1 & Hgrow & Hwf1 & Hcell1).
  destruct (store_ok 64 BiomePalette_getBits 8 _ _ b (cell_index 4 pos) Hwf1
              (Palette_add_in _ _) Hi) as (d2 & Hset & Hwf2 & Hcell2).
  exists (set_biomes d2 (set_biomes d1 (set_biomePalette (Palette_add b (_biomePalette s)) s))).
  split_and!; try done.
  - unfold Section_setBiome, BIOME_SECTION_WIDTH. destruct (guard_inside 4 pos Hp) as [-> ->]. cbn [orb].
    rewrite biome_idx_ok by done. unfold mbind, M_bind, lift, gets, modify.
    rewrite Hbits. cbn [_biomePalette set_biomePalette]. rewrite Hbits1.
    erewrite member_assign_if; [|by destruct s|exact Hgrow].
    by apply member_assign_ok.
  - intros q Hq. unfold biome_at. cbn [set_biomes set_biomePalette _biomePalette _biomes].
    rewrite Hcell2, Hcell1 by (by apply (cell_index_range 4)).
    destruct (decide (q = pos)) as [->|Hne]; [by rewrite decide_True|].
    rewrite decide_False; [done|]. intros E. by apply Hne, (cell_index_inj 4).
Qed.

(** ** Light *)

Lemma lit_insert (l : list Z) i x v :
  l !! i = Some x →
  zlen (filter (λ v, v ≠ 0) (<[i := v]> l)) =
    zlen (filter (λ v, v ≠ 0) l) - (if decide (x = 0) then 0 else 1) + (if decide (v = 0) then 0 else 1).
Proof.
  intros Hi. pose proof (lookup_lt_Some _ _ _ Hi).
  rewrite insert_take_drop by done. rewrite <- (take_drop_middle l i x Hi) at 3.
  rewrite !list.filter_app, !filter_cons, !length_app.
  destruct (decide (v ≠ 0)), (decide (x ≠ 0)), (decide (v = 0)), (decide (x = 0)); try tauto;
    rewrite ?length_cons; lia.
Qed.

Lemma light_count_spec n x v :
  0 ≤ n < 2 ^ 63 → (x ≠ 0 → 1 ≤ n) →
  light_count n x v = n - (if decide (x = 0) then 0 else 1) + (if decide (v = 0) then 0 else 1).
Proof.
  intros Hn Hx. unfold light_count, to_u64.
  destruct (decide (x = 0)), (decide (v = 0)); repeat case_decide; try lia; try tauto;
    try specialize (Hx ltac:(done)); rewrite wrap_u_id; unfold is_u; lia.
Qed.

(** Setting a light level, as both [setSkyLight] and [setBlockLight] do it. *)
Lemma set_light_ok d n i v :
  light_wf d n → 0 ≤ i < 4096 → 0 ≤ v < 16 →
  ∃ d', DynamicStorage_set 8 4096 d i v = Ok d' ∧
    light_wf d' (light_count n (entry 8 d i) v) ∧
    ∀ j, 0 ≤ j < 4096 → entry 8 d' j = if decide (j = i) then v else entry 8 d j.
Proof.
  intros (Hw & Hv4 & ->) Hi Hv.
  destruct (set_ok 8 4096 ltac:(lia) d i v Hw ltac:(lia) Hi) as (d' & E & Hw' & Hv' & He);
    [by rewrite Hv4|].
  exists d'. split_and!; [done| |done]. split_and!; [done|congruence|].
  pose proof (values_lookup 8 4096 d i Hi) as Hl.
  rewrite (set_values 8 4096 ltac:(lia) d i v d') by (done || rewrite Hv4; done).
  rewrite (lit_insert _ _ _ _ Hl).
  assert (zlen (filter (λ v, v ≠ 0) (values 8 4096 d)) ≤ 4096).
  { pose proof (length_filter (λ v, v ≠ 0) (values 8 4096 d)) as Hf.
    rewrite values_length in Hf. lia. }
  apply light_count_spec; [lia|]. intros Hx.
  assert (entry 8 d i ∈ filter (λ v, v ≠ 0) (values 8 4096 d)) as Hin.
  { apply list_elem_of_filter. split; [done|]. by eapply list_elem_of_lookup_2. }
  destruct (filter (λ v, v ≠ 0) (values 8 4096 d)); [by inversion Hin|]. cbn. lia.
Qed.

Lemma get_light_ok d n i : light_wf d n → 0 ≤ i < 4096 → LightStorage_get d i = Ok (entry 8 d i).
Proof. intros (Hw & Hv & _) Hi. apply get_entry; (done || lia). Qed.

Definition sky_at (s : Section_) (pos : Position) : Z := entry 8 (_skyLight s) (cell_index 16 pos).
Definition block_light_at (s : Section_) (pos : Position) : Z :=
  entry 8 (_blockLight s) (cell_index 16 pos).

Lemma getSkyLight_at s pos :
  section_wf s → in_section 16 pos → Section_getSkyLight s pos = Ok (sky_at s pos).
Proof.
  intros (_ & _ & Hl & _) Hp. unfold Section_getSkyLight, SECTION_WIDTH.
  destruct (guard_inside 16 pos Hp) as [-> _]. rewrite block_idx_ok by done.
  by apply (get_light_ok _ _ _ Hl), (cell_index_range 16).
Qed.

Lemma getBlockLight_at s pos :
  section_wf s → in_section 16 pos → Section_getBlockLight s pos = Ok (block_light_at s pos).
Proof.
  intros (_ & _ & _ & Hl) Hp. unfold Section_getBlockLight, SECTION_WIDTH.
  destruct (guard_inside 16 pos Hp) as [-> _]. rewrite block_idx_ok by done.
  by apply (get_light_ok _ _ _ Hl), (cell_index_range 16).
Qed.

Lemma entry_at d d' pos v :
  in_section 16 pos →
  (∀ j, 0 ≤ j < 4096 → entry 8 d' j = if decide (j = cell_index 16 pos) then v else entry 8 d j) →
  ∀ q, in_section 16 q →
    entry 8 d' (cell_index 16 q) = if decide (q = pos) then v else entry 8 d (cell_index 16 q).
Proof.
  intros Hp He q Hq. rewrite He by (by apply (cell_index_range 16)).
  destruct (decide (q = pos)) as [->|Hne]; [by rewrite decide_True|].
  rewrite decide_False; [done|]. intros E. by apply Hne, (cell_index_inj 16).
Qed.

Lemma setSkyLight_ok s pos v :
  section_wf s → in_section 16 pos → 0 ≤ v < 16 →
  ∃ s', Section_setSkyLight pos v s = (Ok tt, s') ∧ section_wf s' ∧
    (∀ q, in_section 16 q → sky_at s' q = if decide (q = pos) then v else sky_at s q) ∧
    (∀ q, block_at s' q = block_at s q) ∧ _blockLight s' = _blockLight s.
Proof.
  intros (Hb & Hm & Hsky & Hl) Hp Hv. pose proof (cell_index_range 16 pos Hp) as Hi.
  destruct (set_light_ok _ _ (cell_index 16 pos) v Hsky Hi Hv) as (d' & E & Hw & He).
  exists (set_skyLight d' (light_count (_skyLightCount s) (sky_at s pos) v) s).
  split_and!; try done.
  - unfold Section_setSkyLight. rewrite block_idx_ok by done. unfold mbind, M_bind, lift, gets, modify.
    rewrite (get_light_ok _ _ _ Hsky Hi). by erewrite member_assign_ok by exact E.
  - by apply entry_at.
Qed.

Lemma setBlockLight_ok s pos v :
  section_wf s → in_section 16 pos → 0 ≤ v < 16 →
  ∃ s', Section_setBlockLight pos v s = (Ok tt, s') ∧ section_wf s' ∧
    (∀ q, in_section 16 q → block_light_at s' q = if decide (q = pos) then v else block_light_at s q) ∧
    (∀ q, block_at s' q = block_at s q) ∧ _skyLight s' = _skyLight s.
Proof.
  intros Hs Hp Hv. pose proof Hs as (Hb & Hm & Hsky & Hl).
  pose proof (cell_index_range 16 pos Hp) as Hi.
  destruct (set_light_ok _ _ (cell_index 16 pos) v Hl Hi Hv) as (d' & E & Hw & He).
  exists (set_blockLight d' (light_count (_blockLightCount s) (block_light_at s pos) v) s).
  split_and!; try done.
  - unfold Section_setBlockLight, mbind, M_bind, lift, gets, modify. cbn [id].
    rewrite getBlockLight_at by done. rewrite block_idx_ok by done.
    by erewrite member_assign_ok by exact E.
  - by apply entry_at.
Qed.

(** ** The constructor *)

Lemma make_wf : ∃ s, Section_make = Ok s ∧ section_wf s ∧
  _blockPalette s = [0] ∧ _biomePalette s = [0] ∧
  (∀ pos, block_at s pos = 0 ∧ biome_at s pos = 0 ∧
          (in_section 16 pos → sky_at s pos = 0 ∧ block_light_at s pos = 0)).
Proof.
  destruct (make_ok 8 4096 ltac:(lia) ltac:(lia) 4 ltac:(lia)) as (light & E & Hw & Hv & He).
  unfold Section_make. change (DynamicStorage_make 64 SECTION_3D_SIZE 0) with (Ok (mk_DynamicStorage [] 0)).
  change (DynamicStorage_make 64 BIOME_SECTION_3D_SIZE 0) with (Ok (mk_DynamicStorage [] 0)).
  cbn [mbind result_bind]. change SECTION_3D_SIZE with 4096. rewrite E. cbn [mbind result_bind].
  assert (light_wf light 0) as Hlight.
  { split_and!; [done|done|]. 
    replace (values 8 4096 light) with (replicate 4096 0).
    - by vm_compute.
    - apply list_eq. intros k. destruct (decide (Z.of_nat k < 4096)).
      + rewrite <- (Nat2Z.id k) at 2. rewrite values_lookup, He by lia.
        apply lookup_replicate. split; [done|lia].
      + rewrite !lookup_ge_None_2; [done|rewrite values_length; lia|rewrite length_replicate; lia]. }
  assert (∀ N getBits capacity, getBits [0] = Ok 0 → 1 ≤ capacity →
    paletted_wf N getBits capacity [0] (mk_DynamicStorage [] 0)) as Hempty.
  { intros. split_and!; cbn; done. }
  eexists. split_and!; [done| |done|done|].
  - split_and!; [by apply Hempty|by apply Hempty|exact Hlight|exact Hlight].
  - intros pos. split_and!; [done|done|]. intros Hp.
    split; apply He, (cell_index_range 16 pos Hp).
Qed.

(** ** Recalculating the sky light *)

Lemma full_light_wf :
  light_wf (mk_DynamicStorage (replicate 2048 255) 4) 4096 ∧
  ∀ i, 0 ≤ i < 4096 → entry 8 (mk_DynamicStorage (replicate 2048 255) 4) i = 15.
Proof.
  assert (values 8 4096 (mk_DynamicStorage (replicate 2048 255) 4) = replicate 4096 15) as E by by vm_compute.
  assert (storage_wf 8 4096 (mk_DynamicStorage (replicate 2048 255) 4)) as Hw.
  { split; [cbn; lia|]. split; [|done]. apply Forall_replicate. cbn. unfold is_u. lia. }
  split.
  - split; [done|]. split; [done|]. rewrite E. by vm_compute.
  - intros i Hi. pose proof (values_lookup 8 4096 (mk_DynamicStorage (replicate 2048 255) 4) i Hi) as Hv.
    rewrite E in Hv. apply lookup_replicate in Hv as [-> _]. done.
Qed.

Lemma recalculateSkyLight_ok s :
  section_wf s →
  let s' := Section_recalculateSkyLight s in
  section_wf s' ∧ (∀ q, in_section 16 q → sky_at s' q = 15) ∧
  (∀ q, block_at s' q = block_at s q) ∧ (∀ q, biome_at s' q = biome_at s q) ∧
  _blockPalette s' = _blockPalette s ∧ _biomePalette s' = _biomePalette s.
Proof.
  destruct s as [blocks biomes bp mp [store v] bl n k]. intros (Hb & Hm & Hl & Hbl). cbn zeta.
  destruct Hl as ((_ & _ & Hlen) & Hv & _). cbn in Hv, Hlen. subst v.
  change (if decide (4 = 0) then 0 else _) with 2048 in Hlen.
  assert (Section_recalculateSkyLight (mk_Section blocks biomes bp mp (mk_DynamicStorage store 4) bl n k) =
          mk_Section blocks biomes bp mp (mk_DynamicStorage (replicate 2048 255) 4) bl 4096 k) as ->.
  { unfold Section_recalculateSkyLight, Section_recalculateSkyLightCount, set_skyLight.
    cbn [_skyLight _store _valueSize _blocks _biomes _blockPalette _biomePalette _blockLight
         _skyLightCount _blockLightCount].
    rewrite (const_fmap _ _ 255) by done. replace (length store) with 2048%nat by lia.
    by replace (count_lights (replicate 2048 255)) with 4096 by (by vm_compute). }
  destruct full_light_wf as [Hw He].
  split; [exact (conj Hb (conj Hm (conj Hw Hbl)))|]. split; [|done].
  intros q Hq. apply He, (cell_index_range 16 q Hq).
Qed.
