(* ===== verification/SectionProps.v ===== *)
(** * What sections promise

    The properties of Section.v, and the positions its guards let through. *)

From S2P Require Import Prelude Types State DynamicStorage StorageLaws Palette Section SectionLaws.

(** A new section. *)
Definition section_example : Section_ :=
  match Section_make with
  | Ok s => s
  | _ => mk_Section (mk_DynamicStorage [] 0) (mk_DynamicStorage [] 0) [] []
           (mk_DynamicStorage [] 0) (mk_DynamicStorage [] 0) 0 0
  end.

Lemma section_example_wf : section_wf section_example.
Proof. unfold section_example. destruct make_wf as (s & -> & Hw & _). exact Hw. Qed.

(** C5: a section is an array of blocks: writing a block makes it the block read
    at the position, leaves the block read at every other position of the
    section as it was, whatever the growth of the palette and the repacking it
    causes, and touches neither the biomes nor the light. *)
Theorem Section_setBlock_getBlock (s : Section_) (pos : Position) (b : Z) :
  section_wf s → in_section 16 pos → zlen (Palette_add b (_blockPalette s)) ≤ 2 ^ 15 →
  ∃ s', Section_updateBlock pos b s = (Ok tt, s') ∧ section_wf s' ∧
    (∀ q, in_section 16 q →
       Section_getBlock s' q = if decide (q = pos) then Ok b else Section_getBlock s q) ∧
    (∀ q, in_section 4 q → Section_getBiome s' q = Section_getBiome s q) ∧
    _skyLight s' = _skyLight s ∧ _blockLight s' = _blockLight s.
Proof.
  intros Hs Hp Hc. destruct (setBlock_ok s pos b Hs Hp Hc) as (s' & E & Hs' & Hq & Hm & _ & Hl1 & Hl2 & _).
  exists s'. split_and!; [|done| | |done|done].
  - unfold Section_updateBlock, SECTION_WIDTH. by destruct (guard_inside 16 pos Hp) as [-> ->].
  - intros q Hqs. rewrite !getBlock_at, Hq by done. by case_decide.
  - intros q Hqs. by rewrite !getBiome_at, Hm.
Qed.

Lemma Section_setBlock_getBlock_witness :
  section_wf section_example ∧ in_section 16 (mk_Position 3 15 0) ∧
  zlen (Palette_add 79 (_blockPalette section_example)) ≤ 2 ^ 15 ∧
  ∃ s', Section_updateBlock (mk_Position 3 15 0) 79 section_example = (Ok tt, s') ∧ section_wf s' ∧
    (∀ q, in_section 16 q → Section_getBlock s' q =
       if decide (q = mk_Position 3 15 0) then Ok 79 else Section_getBlock section_example q) ∧
    (∀ q, in_section 4 q → Section_getBiome s' q = Section_getBiome section_example q) ∧
    _skyLight s' = _skyLight section_example ∧ _blockLight s' = _blockLight section_example.
Proof.
  assert (in_section 16 (mk_Position 3 15 0)) as H1 by (unfold in_section; cbn; lia).
  assert (zlen (Palette_add 79 (_blockPalette section_example)) ≤ 2 ^ 15) as H2 by (vm_compute; done).
  split; [exact section_example_wf|]. split; [exact H1|]. split; [exact H2|].
  exact (Section_setBlock_getBlock _ _ 79 section_example_wf H1 H2).
Defined.

(** A section is an array of biomes in the same way, as long as its palette
    holds no more than eight of them. *)
Theorem Section_setBiome_getBiome (s : Section_) (pos : Position) (b : Z) :
  section_wf s → in_section 4 pos → zlen (Palette_add b (_biomePalette s)) ≤ 8 →
  ∃ s', Section_updateBiome pos b s = (Ok tt, s') ∧ section_wf s' ∧
    (∀ q, in_section 4 q →
       Section_getBiome s' q = if decide (q = pos) then Ok b else Section_getBiome s q) ∧
    (∀ q, in_section 16 q → Section_getBlock s' q = Section_getBlock s q).
Proof.
  intros Hs Hp Hc. destruct (setBiome_ok s pos b Hs Hp Hc) as (s' & E & Hs' & Hq & Hm & _).
  exists s'. split_and!; [|done| |].
  - unfold Section_updateBiome, BIOME_SECTION_WIDTH. by destruct (guard_inside 4 pos Hp) as [-> ->].
  - intros q Hqs. rewrite !getBiome_at, Hq by done. by case_decide.
  - intros q Hqs. by rewrite !getBlock_at, Hm.
Qed.

Lemma Section_setBiome_getBiome_witness :
  section_wf section_example ∧ in_section 4 (mk_Position 3 0 2) ∧
  zlen (Palette_add 7 (_biomePalette section_example)) ≤ 8 ∧
  ∃ s', Section_updateBiome (mk_Position 3 0 2) 7 section_example = (Ok tt, s') ∧ section_wf s' ∧
    (∀ q, in_section 4 q → Section_getBiome s' q =
       if decide (q = mk_Position 3 0 2) then Ok 7 else Section_getBiome section_example q) ∧
    (∀ q, in_section 16 q → Section_getBlock s' q = Section_getBlock section_example q).
Proof.
  assert (in_section 4 (mk_Position 3 0 2)) as H1 by (unfold in_section; cbn; lia).
  assert (zlen (Palette_add 7 (_biomePalette section_example)) ≤ 8) as H2 by (vm_compute; done).
  split; [exact section_example_wf|]. split; [exact H1|]. split; [exact H2|].
  exact (Section_setBiome_getBiome _ _ 7 section_example_wf H1 H2).
Defined.

(** The light arrays behave as arrays of levels, and the counters keep
    counting the lit blocks ([section_wf] says that each counter is the number
    of non-zero levels of its array). *)
Theorem Section_setLight_getLight (s : Section_) (pos : Position) (v : Z) :
  section_wf s → in_section 16 pos → 0 ≤ v < 16 →
  (∃ s', Section_updateSkyLight pos v s = (Ok tt, s') ∧ section_wf s' ∧
    (∀ q, in_section 16 q → Section_getSkyLight s' q =
       if decide (q = pos) then Ok v else Section_getSkyLight s q)) ∧
  (∃ s', Section_updateBlockLight pos v s = (Ok tt, s') ∧ section_wf s' ∧
    (∀ q, in_section 16 q → Section_getBlockLight s' q =
       if decide (q = pos) then Ok v else Section_getBlockLight s q)).
Proof.
  intros Hs Hp Hv. split.
  - destruct (setSkyLight_ok s pos v Hs Hp Hv) as (s' & E & Hs' & Hq & _).
    exists s'. split_and!; [done|done|]. intros q Hqs.
    rewrite !getSkyLight_at, Hq by done. by case_decide.
  - destruct (setBlockLight_ok s pos v Hs Hp Hv) as (s' & E & Hs' & Hq & _).
    exists s'. split_and!; [done|done|]. intros q Hqs.
    rewrite !getBlockLight_at, Hq by done. by case_decide.
Qed.

Lemma Section_setLight_getLight_witness :
  section_wf section_example ∧ in_section 16 (mk_Position 1 2 3) ∧ 0 ≤ 15 < 16 ∧
  (∃ s', Section_updateSkyLight (mk_Position 1 2 3) 15 section_example = (Ok tt, s') ∧
    section_wf s' ∧
    (∀ q, in_section 16 q → Section_getSkyLight s' q =
       if decide (q = mk_Position 1 2 3) then Ok 15 else Section_getSkyLight section_example q)) ∧
  (∃ s', Section_updateBlockLight (mk_Position 1 2 3) 15 section_example = (Ok tt, s') ∧
    section_wf s' ∧
    (∀ q, in_section 16 q → Section_getBlockLight s' q =
       if decide (q = mk_Position 1 2 3) then Ok 15 else Section_getBlockLight section_example q)).
Proof.
  assert (in_section 16 (mk_Position 1 2 3)) as H1 by (unfold in_section; cbn; lia).
  assert (0 ≤ 15 < 16) as H2 by lia.
  split; [exact section_example_wf|]. split; [exact H1|]. split; [exact H2|].
  exact (Section_setLight_getLight _ _ 15 section_example_wf H1 H2).
Defined.

(** The guards of [setBlock] reject a position only when all of its
    coordinates are out of range on the same side: a block written one step
    outside of the section, at x = -1, lands on the other side of it, at x = 15
    of the previous row. *)
Theorem Section_setBlock_guard_hole (s : Section_) (y z b : Z) :
  0 ≤ y < 16 → 1 ≤ z < 16 →
  Section_updateBlock (mk_Position (-1) y z) b s =
    Section_updateBlock (mk_Position 15 y (z - 1)) b s.
Proof.
  intros Hy Hz.
  assert (G : ∀ x, x < 16 → 0 ≤ z - 1 → Position_ge (mk_Position x y (z - 1)) 16 = false).
  { intros x Hx _. unfold Position_ge. cbn. by rewrite bool_decide_false by lia. }
  unfold Section_updateBlock, Section_setBlock, SECTION_WIDTH.
  destruct (guard_inside 16 (mk_Position 15 y (z - 1))) as [-> ->]; [unfold in_section; cbn; lia|].
  replace (Position_ge (mk_Position (-1) y z) 16) with false
    by (unfold Position_ge; cbn; by rewrite bool_decide_false by lia).
  replace (Position_lt (mk_Position (-1) y z) 0) with false
    by (unfold Position_lt; cbn; by rewrite (bool_decide_false (y < 0)) by lia).
  cbn [orb].
  assert (calculateSectionBlockIdx (mk_Position (-1) y z) =
          calculateSectionBlockIdx (mk_Position 15 y (z - 1))) as ->; [|done].
  unfold calculateSectionBlockIdx. change SECTION_2D_SIZE with (16 * 16). change SECTION_WIDTH with 16.
  rewrite !section_index_value by (unfold is_s; cbn; lia). do 2 f_equal.
  unfold cell_index. cbn [px py pz]. lia.
Qed.

Lemma Section_setBlock_guard_hole_witness :
  0 ≤ 0 < 16 ∧ 1 ≤ 1 < 16 ∧
  Section_updateBlock (mk_Position (-1) 0 1) 9 section_example =
    Section_updateBlock (mk_Position 15 0 (1 - 1)) 9 section_example.
Proof.
  assert (0 ≤ 0 < 16) as H1 by lia. assert (1 ≤ 1 < 16) as H2 by lia.
  split; [exact H1|]. split; [exact H2|].
  exact (Section_setBlock_guard_hole section_example 0 1 9 H1 H2).
Defined.

(** The ninth biome of a section cannot be stored: the biome palette asks
    for three bits at most, so its local identifier, eight, is rejected with
    [std::out_of_range], after the palette has grown. *)
Theorem Section_ninth_biome (s : Section_) (pos : Position) (b : Z) :
  section_wf s → in_section 4 pos → zlen (_biomePalette s) = 8 → b ∉ _biomePalette s →
  Section_updateBiome pos b s =
    (Throw std_out_of_range, set_biomePalette (_biomePalette s ++ [b]) s).
Proof.
  intros (_ & (Hw & Hbits & _ & _ & _) & _) Hp H8 Hb.
  unfold Section_updateBiome, Section_setBiome, BIOME_SECTION_WIDTH.
  destruct (guard_inside 4 pos Hp) as [-> ->]. cbn [orb].
  unfold mbind, M_bind, lift, gets, modify. rewrite Hbits.
  assert (find_index b (_biomePalette s) = None) as Hnone by by apply find_index_none.
  assert (Palette_add b (_biomePalette s) = _biomePalette s ++ [b]) as Hadd
    by (unfold Palette_add; by rewrite Hnone).
  rewrite Hadd. cbn [_biomePalette set_biomePalette _biomes].
  assert (BiomePalette_getBits (_biomePalette s) = Ok 3) as H3.
  { unfold BiomePalette_getBits. rewrite H8. by vm_compute. }
  assert (_valueSize (_biomes s) = 3) as Hv by congruence.
  assert (BiomePalette_getBits (_biomePalette s ++ [b]) = Ok 3) as ->.
  { unfold BiomePalette_getBits. rewrite zlen_app, H8. by vm_compute. }
  rewrite Hv. rewrite decide_False by tauto. cbn [mret M_ret].
  rewrite biome_idx_ok by done.
  cbn [_biomePalette set_biomePalette].
  assert (Palette_getId (_biomePalette s ++ [b]) b = 8) as ->.
  { unfold Palette_getId. rewrite find_index_app by done. done. }
  unfold member, assign. cbn [_biomes set_biomePalette].
  rewrite (set_too_big 64 64); [by destruct s|done|lia|by apply (cell_index_range 4)|by rewrite Hv].
Qed.

(** A section whose palette holds the biomes 0 to 7. *)
Definition full_biomes : Section_ :=
  foldl (λ s b, (Section_setBiome (mk_Position 0 0 0) b s).2) section_example [1; 2; 3; 4; 5; 6; 7].

Lemma full_biomes_wf :
  section_wf full_biomes ∧ _biomePalette full_biomes = [0; 1; 2; 3; 4; 5; 6; 7].
Proof.
  assert (in_section 4 (mk_Position 0 0 0)) as Hp by (unfold in_section; cbn; lia).
  assert (Step : ∀ l s p, section_wf s → _biomePalette s = p → zlen p + zlen l ≤ 8 →
    section_wf (foldl (λ s b, (Section_setBiome (mk_Position 0 0 0) b s).2) s l) ∧
    _biomePalette (foldl (λ s b, (Section_setBiome (mk_Position 0 0 0) b s).2) s l) =
      foldl (λ p b, Palette_add b p) p l).
  { induction l as [|b l IH]; intros s p Hs Hpal Hl; [by subst|]. cbn [foldl].
    pose proof (add_length_le b p).
    rewrite zlen_cons in Hl. subst p.
    destruct (setBiome_ok s (mk_Position 0 0 0) b Hs Hp ltac:(lia)) as (s' & E & Hs' & _ & _ & Hb & _).
    rewrite E. cbn [snd]. apply IH; [done|done|lia]. }
  destruct (Step [1; 2; 3; 4; 5; 6; 7] section_example [0]) as [Hwf E];
    [exact section_example_wf|by vm_compute|by vm_compute|].
  split; [exact Hwf|]. unfold full_biomes. rewrite E. by vm_compute.
Qed.

Lemma Section_ninth_biome_witness :
  section_wf full_biomes ∧ in_section 4 (mk_Position 1 1 1) ∧
  zlen (_biomePalette full_biomes) = 8 ∧ (8 ∉ _biomePalette full_biomes) ∧
  Section_updateBiome (mk_Position 1 1 1) 8 full_biomes =
    (Throw std_out_of_range, set_biomePalette (_biomePalette full_biomes ++ [8]) full_biomes).
Proof.
  destruct full_biomes_wf as [Hw E].
  assert (in_section 4 (mk_Position 1 1 1)) as H1 by (unfold in_section; cbn; lia).
  assert (zlen (_biomePalette full_biomes) = 8) as H2 by (rewrite E; done).
  assert (8 ∉ _biomePalette full_biomes) as H3
    by (rewrite E, !elem_of_cons, elem_of_nil; lia).
  split; [exact Hw|]. split; [exact H1|]. split; [exact H2|]. split; [exact H3|].
  exact (Section_ninth_biome full_biomes _ 8 Hw H1 H2 H3).
Defined.
