(* ===== verification/ChunkColumn.v ===== *)
(** * Chunk columns (world_storage/ChunkColumn.hpp, ChunkColumn.cpp)

    A column is twenty-six sections, the first and the last of which lie outside
    of the playable height, a height map of named binary tags, and the state of
    its generation.  The methods run in [M ChunkColumn]; the mutex of the column
    only serialises the generation steps and is not part of the state.  The
    generation itself is in [ChunkGeneration]. *)

From S2P Require Import Prelude Types State Nbt DynamicStorage Palette Section.

(** ** Constants and indices *)

(** [bitsNeeded(CHUNK_HEIGHT + 1)] *)
Definition HEIGHTMAP_BITS : Z :=
  match bitsNeeded (CHUNK_HEIGHT + 1) with Ok b => b | _ => 0 end.
Definition HEIGHTMAP_ARRAY_SIZE : Z :=
  Z.quot (SECTION_2D_SIZE * HEIGHTMAP_BITS) 64 +
  (if decide (Z.rem (SECTION_2D_SIZE * HEIGHTMAP_BITS) 64 ≠ 0) then 1 else 0).
Definition HEIGHTMAP_ENTRY : list string := ["MOTION_BLOCKING"; "WORLD_SURFACE"]%string.

(** [uint8_t((pos.y - min + width) / width)] *)
Definition column_index (min width : Z) (pos : Position) : result Z :=
  y ← chk_i64 (py pos - min);
  y ← chk_i64 (y + width);
  q ← quot_by chk_i64 y width;
  Ok (to_u8 q).

Definition getSectionIndex : Position → result Z := column_index CHUNK_HEIGHT_MIN SECTION_WIDTH.
Definition getBiomeSectionIndex : Position → result Z :=
  column_index BIOME_HEIGHT_MIN BIOME_SECTION_WIDTH.

(** [pos.x + (pos.z * width) + (y * width2)] behind the range guard. *)
Definition column_cell (min height width width2 : Z) (pos : Position) : result Z :=
  y ← chk_i64 (py pos - min);
  if decide (px pos < 0 ∨ width ≤ px pos ∨ y < 0 ∨ height ≤ y ∨ pz pos < 0 ∨ width ≤ pz pos)
  then Throw std_runtime_error
  else section_index width width2 (mk_Position (px pos) y (pz pos)).

Definition calculateBlockIdx : Position → result Z :=
  column_cell CHUNK_HEIGHT_MIN CHUNK_HEIGHT SECTION_WIDTH SECTION_2D_SIZE.
Definition calculateBiomeIdx : Position → result Z :=
  column_cell BIOME_HEIGHT_MIN BIOME_HEIGHT BIOME_SECTION_WIDTH BIOME_SECTION_2D_SIZE.

(** ** The column *)

Inductive WorldType : Type :=
| WorldType_DEFAULT | WorldType_SUPERFLAT | WorldType_LARGEBIOME | WorldType_AMPLIFIED
| WorldType_SINGLEBIOME | WorldType_DEBUG | WorldType_SUPERFLAT_CUBIC_SERVER.

Inductive DimensionType : Type :=
| DimensionType_OVERWORLD | DimensionType_NETHER | DimensionType_END.

Inductive GenerationState : Type :=
| INITIALIZED | RAW_GENERATION | LAKES | LOCAL_MODIFICATIONS | UNDERGROUND_STRUCTURES
| SURFACE_STRUCTURES | STRONGHOLDS | UNDERGROUND_ORES | UNDERGROUND_DECORATION
| FLUID_SPRINGS | VEGETAL_DECORATION | TOP_LAYER_MODIFICATION | READY.

#[export] Instance GenerationState_eq_dec : EqDecision GenerationState.
Proof. solve_decision. Defined.

Definition GenerationState_code (s : GenerationState) : Z :=
  match s with
  | INITIALIZED => 0 | RAW_GENERATION => 1 | LAKES => 2 | LOCAL_MODIFICATIONS => 3
  | UNDERGROUND_STRUCTURES => 4 | SURFACE_STRUCTURES => 5 | STRONGHOLDS => 6
  | UNDERGROUND_ORES => 7 | UNDERGROUND_DECORATION => 8 | FLUID_SPRINGS => 9
  | VEGETAL_DECORATION => 10 | TOP_LAYER_MODIFICATION => 11 | READY => 12
  end.

(** [_heightMap] is the members of a compound with an empty name; [_tickData] is
    not initialised by the constructor. *)
Record ChunkColumn : Type := mk_ChunkColumn {
  _sections : list Section_;
  _tickData : option Z;
  _chunkPos : Position2D;
  _heightMap : list nbt_Base;
  _currentState : GenerationState
}.

Definition set_sections l c :=
  mk_ChunkColumn l (_tickData c) (_chunkPos c) (_heightMap c) (_currentState c).
Definition set_tickData t c :=
  mk_ChunkColumn (_sections c) t (_chunkPos c) (_heightMap c) (_currentState c).
Definition set_heightMap h c :=
  mk_ChunkColumn (_sections c) (_tickData c) (_chunkPos c) h (_currentState c).
Definition set_currentState s c :=
  mk_ChunkColumn (_sections c) (_tickData c) (_chunkPos c) (_heightMap c) s.

(** The constructor: the sections, and a list of zeroes for each height map. *)
Definition ChunkColumn_make (chunkPos : Position2D) : result ChunkColumn :=
  section ← Section_make;
  Ok (mk_ChunkColumn (replicate (Z.to_nat NB_OF_SECTIONS) section) None chunkPos
        ((λ name, nbt_List name
            (replicate (Z.to_nat HEIGHTMAP_ARRAY_SIZE) (nbt_Long String.EmptyString 0)))
         <$> HEIGHTMAP_ENTRY)
        INITIALIZED).

(** [_sections.at(index)], and a method of that section. *)
Definition sections_at (c : ChunkColumn) (index : Z) : result Section_ :=
  match _sections c !! Z.to_nat index with
  | Some s => Ok s
  | None => Throw std_out_of_range
  end.

Definition section_member {A} (index : Z) (p : M Section_ A) : M ChunkColumn A := λ c,
  match _sections c !! Z.to_nat index with
  | Some s => let '(r, s') := p s in (r, set_sections (<[Z.to_nat index := s']> (_sections c)) c)
  | None => (Throw std_out_of_range, c)
  end.

(** [Position {pos.x, pos.y - min, pos.z} % width] *)
Definition position_in_section (min width : Z) (pos : Position) : result Position :=
  y ← chk_i64 (py pos - min);
  Position_rem_scalar (mk_Position (px pos) y (pz pos)) width.

Abbreviation block_in_section := (position_in_section CHUNK_HEIGHT_MIN SECTION_WIDTH).

Definition ChunkColumn_updateBlock (pos : Position) (id : Z) : M ChunkColumn unit :=
  index ← lift (getSectionIndex pos);
  section_member index (p ← lift (block_in_section pos); Section_updateBlock p id).

Definition ChunkColumn_getBlock (c : ChunkColumn) (pos : Position) : result Z :=
  index ← getSectionIndex pos;
  s ← sections_at c index;
  p ← block_in_section pos;
  Section_getBlock s p.

Definition ChunkColumn_getSkyLight (c : ChunkColumn) (pos : Position) : result Z :=
  index ← getSectionIndex pos;
  s ← sections_at c index;
  p ← block_in_section pos;
  Section_getSkyLight s p.

Definition ChunkColumn_updateSkyLight (pos : Position) (light : Z) : M ChunkColumn unit :=
  index ← lift (getSectionIndex pos);
  section_member index (p ← lift (block_in_section pos); Section_updateSkyLight p light).

Definition ChunkColumn_updateBlockLight (pos : Position) (light : Z) : M ChunkColumn unit :=
  index ← lift (getSectionIndex pos);
  section_member index (p ← lift (block_in_section pos); Section_updateBlockLight p light).

Definition ChunkColumn_getBlockLight (c : ChunkColumn) (pos : Position) : result Z :=
  index ← getSectionIndex pos;
  s ← sections_at c index;
  p ← block_in_section pos;
  Section_getBlockLight s p.

Definition ChunkColumn_updateBiome (pos : Position) (biome : Z) : M ChunkColumn unit :=
  index ← lift (getBiomeSectionIndex pos);
  section_member index
    (p ← lift (position_in_section BIOME_HEIGHT_MIN BIOME_SECTION_WIDTH pos);
     Section_updateBiome p biome).

(** The position is not shifted by [BIOME_HEIGHT_MIN] here. *)
Definition ChunkColumn_getBiome (c : ChunkColumn) (pos : Position) : result Z :=
  index ← getBiomeSectionIndex pos;
  s ← sections_at c index;
  p ← Position_rem_scalar pos BIOME_SECTION_WIDTH;
  b ← Section_getBiome s p;
  Ok (to_u8 b).

Definition ChunkColumn_getTick (c : ChunkColumn) : result Z :=
  match _tickData c with Some t => Ok t | None => UB UninitializedRead end.
Definition ChunkColumn_setTick (tick : Z) (c : ChunkColumn) : ChunkColumn :=
  set_tickData (Some tick) c.
Definition ChunkColumn_isReady (c : ChunkColumn) : bool := bool_decide (_currentState c = READY).

(** ** Height map *)

(** [->getValueAs<nbt::Long>(index)->setValue(value)] on the elements of a list. *)
Definition list_setLong (elements : list nbt_Base) (index value : Z) : result (list nbt_Base) :=
  e ← nbt_List_getValueAs elements TagType_Long index;
  match e with
  | nbt_Long name _ => Ok (<[Z.to_nat index := nbt_Long name value]> elements)
  | _ => UB NullDereference
  end.

(** [_heightMap.getValueAs<nbt::List>(str)->...]: the list changes in place. *)
Fixpoint heightMap_setLong (members : list nbt_Base) (str : string) (index value : Z) :
  result (list nbt_Base) :=
  match members with
  | [] => UB NullDereference
  | i :: members =>
      if decide (nbt_getName i ≠ str) then
        members' ← heightMap_setLong members str index value; Ok (i :: members')
      else
        match i with
        | nbt_List name elements =>
            elements' ← list_setLong elements index value; Ok (nbt_List name elements' :: members)
        | _ => Throw TypeMismatch
        end
  end.

(** The loop over [y], which stops at the first block that is not air. *)
Fixpoint surface_loop (s : Section_) (x z : Z) (ys : list Z) (h : list nbt_Base) :
  result (list nbt_Base) :=
  match ys with
  | [] => Ok h
  | y :: ys =>
      b ← Section_getBlock s (mk_Position x y z);
      if decide (b ≠ 0) then
        i ← chk_i32 (x + z * SECTION_WIDTH);
        heightMap_setLong h "WORLD_SURFACE" i (y + 1)
      else surface_loop s x z ys h
  end.

Definition ChunkColumn_updateHeightMap : M ChunkColumn unit :=
  sections ← gets _sections;
  for_each sections (λ section,
    for_each (seqZ 0 SECTION_WIDTH) (λ x,
      for_each (seqZ 0 SECTION_WIDTH) (λ z,
        member _heightMap set_heightMap
          (assign (surface_loop section x z (reverse (seqZ 0 SECTION_WIDTH))))))).

Definition ChunkColumn_recalculateSkyLight (c : ChunkColumn) : ChunkColumn :=
  set_sections (Section_recalculateSkyLight <$> _sections c) c.
Definition ChunkColumn_recalculateBlockLight (c : ChunkColumn) : ChunkColumn :=
  set_sections (Section_recalculateBlockLight <$> _sections c) c.
