(* ===== verification/ChunkLaws.v ===== *)
(** * Laws of chunk columns

    A column read as a function from positions to blocks: which section and
    which cell a position selects, what a write changes, and the palettes that
    the blocks of a fixed list can fill. *)

From S2P Require Import Prelude Types State Nbt DynamicStorage Palette Section StorageLaws SectionLaws ChunkColumn.

(** ** Positions *)

(** The positions of a column that fall in its sections, from the first playable
    one to the one above the world. *)
Definition in_column (pos : Position) : Prop :=
  0 ≤ px pos < 16 ∧ -64 ≤ py pos < 336 ∧ 0 ≤ pz pos < 16.

#[export] Instance in_column_dec pos : Decision (in_column pos).
Proof. unfold in_column. apply _. Defined.

Definition section_of (pos : Position) : nat := Z.to_nat ((py pos + 80) / 16).
Definition local_of (pos : Position) : Position :=
  mk_Position (px pos) ((py pos + 64) mod 16) (pz pos).

Lemma section_of_range pos : in_column pos → (1 ≤ section_of pos < 26)%nat.
Proof. unfold in_column, section_of. intros. div_lia. Qed.

Lemma local_in_section pos : in_column pos → in_section 16 (local_of pos).
Proof. unfold in_column, in_section, local_of. cbn. intros. div_lia. Qed.

Lemma local_inj p q :
  in_column p → in_column q → section_of p = section_of q → local_of p = local_of q → p = q.
Proof.
  destruct p as [x y z], q as [x' y' z']. unfold in_column, section_of, local_of. cbn.
  intros Hp Hq E1 E2. injection E2 as -> E2 ->. f_equal. div_lia.
Qed.

Lemma getSectionIndex_ok pos :
  in_column pos → getSectionIndex pos = Ok (Z.of_nat (section_of pos)).
Proof.
  unfold in_column. intros (Hx & Hy & Hz).
  unfold getSectionIndex, column_index, CHUNK_HEIGHT_MIN, SECTION_WIDTH, section_of.
  do 2 (rewrite chk_i64_ok by (unfold is_s; lia); cbn [mbind result_bind]).
  unfold quot_by. rewrite decide_False by lia.
  replace (py pos - -64 + 16) with (py pos + 80) by lia. rewrite Z.quot_div_nonneg by lia.
  rewrite chk_i64_ok by (unfold is_s; div_lia). cbn [mbind result_bind].
  f_equal. unfold to_u8. rewrite wrap_u_id by (unfold is_u; div_lia). div_lia.
Qed.

Lemma block_in_section_ok pos : in_column pos → block_in_section pos = Ok (local_of pos).
Proof.
  unfold in_column. intros (Hx & Hy & Hz). unfold position_in_section, CHUNK_HEIGHT_MIN, SECTION_WIDTH.
  rewrite chk_i64_ok by (unfold is_s; lia). cbn [mbind result_bind].
  unfold Position_rem_scalar, Position_rem, Position_map2, Position_splat. cbn [px py pz].
  rewrite !rem_by_pos by (unfold is_s; lia). cbn [mbind result_bind].
  unfold local_of. rewrite !Z.rem_mod_nonneg by lia. rewrite (Z.mod_small (px pos)), (Z.mod_small (pz pos)) by lia.
  by replace (py pos - -64) with (py pos + 64) by lia.
Qed.

(** The same for biomes, whose cells are four blocks wide. *)
Definition in_biome_column (pos : Position) : Prop :=
  0 ≤ px pos < 4 ∧ -16 ≤ py pos < 84 ∧ 0 ≤ pz pos < 4.

Definition biome_section_of (pos : Position) : nat := Z.to_nat ((py pos + 20) / 4).
Definition biome_local_of (pos : Position) : Position :=
  mk_Position (px pos) ((py pos + 16) mod 4) (pz pos).

Lemma biome_section_of_range pos : in_biome_column pos → (1 ≤ biome_section_of pos < 26)%nat.
Proof. unfold in_biome_column, biome_section_of. intros. div_lia. Qed.

Lemma biome_local_in_section pos : in_biome_column pos → in_section 4 (biome_local_of pos).
Proof. unfold in_biome_column, in_section, biome_local_of. cbn. intros. div_lia. Qed.

Lemma biome_local_inj p q :
  in_biome_column p → in_biome_column q → biome_section_of p = biome_section_of q →
  biome_local_of p = biome_local_of q → p = q.
Proof.
  destruct p as [x y z], q as [x' y' z']. unfold in_biome_column, biome_section_of, biome_local_of. cbn.
  intros Hp Hq E1 E2. injection E2 as -> E2 ->. f_equal. div_lia.
Qed.

Lemma getBiomeSectionIndex_ok pos :
  in_biome_column pos → getBiomeSectionIndex pos = Ok (Z.of_nat (biome_section_of pos)).
Proof.
  unfold in_biome_column. intros (Hx & Hy & Hz).
  unfold getBiomeSectionIndex, column_index, BIOME_SECTION_WIDTH, biome_section_of.
  change BIOME_HEIGHT_MIN with (-16).
  do 2 (rewrite chk_i64_ok by (unfold is_s; lia); cbn [mbind result_bind]).
  unfold quot_by. rewrite decide_False by lia.
  replace (py pos - -16 + 4) with (py pos + 20) by lia. rewrite Z.quot_div_nonneg by lia.
  rewrite chk_i64_ok by (unfold is_s; div_lia). cbn [mbind result_bind].
  f_equal. unfold to_u8. rewrite wrap_u_id by (unfold is_u; div_lia). div_lia.
Qed.

Lemma biome_in_section_ok pos :
  in_biome_column pos →
  position_in_section BIOME_HEIGHT_MIN BIOME_SECTION_WIDTH pos = Ok (biome_local_of pos).
Proof.
  unfold in_biome_column. intros (Hx & Hy & Hz). unfold position_in_section, BIOME_SECTION_WIDTH.
  change BIOME_HEIGHT_MIN with (-16).
  rewrite chk_i64_ok by (unfold is_s; lia). cbn [mbind result_bind].
  unfold Position_rem_scalar, Position_rem, Position_map2, Position_splat. cbn [px py pz].
  rewrite !rem_by_pos by (unfold is_s; lia). cbn [mbind result_bind].
  unfold biome_local_of. rewrite !Z.rem_mod_nonneg by lia.
  rewrite (Z.mod_small (px pos)), (Z.mod_small (pz pos)) by lia.
  by replace (py pos - -16) with (py pos + 16) by lia.
Qed.

(** ** Columns as functions *)

Definition column_wf (c : ChunkColumn) : Prop :=
  length (_sections c) = 26%nat ∧ Forall section_wf (_sections c).

Definition column_block (c : ChunkColumn) (pos : Position) : Z :=
  match _sections c !! section_of pos with Some s => block_at s (local_of pos) | None => 0 end.
Definition column_biome (c : ChunkColumn) (pos : Position) : Z :=
  match _sections c !! biome_section_of pos with
  | Some s => biome_at s (biome_local_of pos) | None => 0
  end.

Lemma column_section c i :
  column_wf c → (i < 26)%nat → ∃ s, _sections c !! i = Some s ∧ section_wf s.
Proof.
  intros [Hl Hf] Hi. rewrite <- Hl in Hi. apply lookup_lt_is_Some_2 in Hi as [s Hs].
  exists s. split; [done|]. by apply (Forall_lookup_1 _ _ _ _ Hf Hs).
Qed.

Lemma column_getBlock c pos :
  column_wf c → in_column pos → ChunkColumn_getBlock c pos = Ok (column_block c pos).
Proof.
  intros Hc Hp. destruct (column_section c (section_of pos) Hc) as (s & Hs & Hw);
    [by apply section_of_range|].
  unfold ChunkColumn_getBlock, column_block, sections_at. rewrite getSectionIndex_ok by done.
  cbn [mbind result_bind]. rewrite Nat2Z.id, Hs. cbn [mbind result_bind].
  rewrite block_in_section_ok by done. cbn [mbind result_bind].
  by apply getBlock_at, local_in_section.
Qed.

Lemma section_member_ok {A} c i s (p : M Section_ A) a s' :
  _sections c !! i = Some s → p s = (Ok a, s') →
  section_member (Z.of_nat i) p c = (Ok a, set_sections (<[i := s']> (_sections c)) c).
Proof. intros Hs Hp. unfold section_member. by rewrite Nat2Z.id, Hs, Hp. Qed.

Lemma column_wf_insert c i s' :
  column_wf c → section_wf s' → column_wf (set_sections (<[i := s']> (_sections c)) c).
Proof.
  intros [Hl Hf] Hs. split; cbn; [by rewrite length_insert|]. by apply Forall_insert.
Qed.

Lemma column_updateBlock c pos b s :
  column_wf c → in_column pos → _sections c !! section_of pos = Some s →
  zlen (Palette_add b (_blockPalette s)) ≤ 2 ^ 15 →
  ∃ s', let c' := set_sections (<[section_of pos := s']> (_sections c)) c in
    ChunkColumn_updateBlock pos b c = (Ok tt, c') ∧ column_wf c' ∧
    (∀ q, in_column q → column_block c' q = if decide (q = pos) then b else column_block c q) ∧
    (∀ q, column_biome c' q = column_biome c q) ∧
    _blockPalette s' = Palette_add b (_blockPalette s) ∧ _biomePalette s' = _biomePalette s.
Proof.
  intros Hc Hp Hs Hcap. pose proof (section_of_range pos Hp) as Hr.
  pose proof Hc as [Hlen _].
  destruct (column_section c (section_of pos) Hc) as (s0 & Hs0 & Hw); [lia|].
  assert (s0 = s) as -> by congruence. clear Hs0.
  destruct (setBlock_ok s (local_of pos) b Hw (local_in_section pos Hp) Hcap)
    as (s' & E & Hw' & Hblocks & Hbiomes & Hpal & _ & _ & Hbpal).
  exists s'. cbn zeta. split_and!; [|by apply column_wf_insert| | |done|done].
  - unfold ChunkColumn_updateBlock. rewrite getSectionIndex_ok by done.
    rewrite block_in_section_ok by done. apply section_member_ok with (s := s); [done|].
    change (Section_updateBlock (local_of pos) b s = (Ok tt, s')).
    unfold Section_updateBlock, SECTION_WIDTH.
    by destruct (guard_inside 16 _ (local_in_section pos Hp)) as [-> ->].
  - intros q Hq. unfold column_block. cbn [set_sections _sections].
    destruct (decide (section_of q = section_of pos)) as [Eq|Ne].
    + rewrite Eq, list_lookup_insert_eq by lia. rewrite Hs, Hblocks by by apply local_in_section.
      destruct (decide (q = pos)) as [->|Hne]; [by rewrite decide_True|].
      rewrite decide_False; [done|]. intros El. by apply Hne, local_inj.
    + rewrite list_lookup_insert_ne by done. rewrite decide_False; [done|]. by intros ->.
  - intros q. unfold column_biome. cbn [set_sections _sections].
    destruct (decide (biome_section_of q = section_of pos)) as [Eq|Ne].
    + by rewrite Eq, list_lookup_insert_eq, Hs, Hbiomes by lia.
    + by rewrite list_lookup_insert_ne.
Qed.

Lemma column_updateBiome c pos b s :
  column_wf c → in_biome_column pos → _sections c !! biome_section_of pos = Some s →
  zlen (Palette_add b (_biomePalette s)) ≤ 8 →
  ∃ s', let c' := set_sections (<[biome_section_of pos := s']> (_sections c)) c in
    ChunkColumn_updateBiome pos b c = (Ok tt, c') ∧ column_wf c' ∧
    (∀ q, in_biome_column q →
       column_biome c' q = if decide (q = pos) then b else column_biome c q) ∧
    (∀ q, column_block c' q = column_block c q) ∧
    _biomePalette s' = Palette_add b (_biomePalette s) ∧ _blockPalette s' = _blockPalette s.
Proof.
  intros Hc Hp Hs Hcap. pose proof (biome_section_of_range pos Hp) as Hr.
  pose proof Hc as [Hlen _].
  destruct (column_section c (biome_section_of pos) Hc) as (s0 & Hs0 & Hw); [lia|].
  assert (s0 = s) as -> by congruence. clear Hs0.
  destruct (setBiome_ok s (biome_local_of pos) b Hw (biome_local_in_section pos Hp) Hcap)
    as (s' & E & Hw' & Hbiomes & Hblocks & Hpal & _ & _ & Hbpal).
  exists s'. cbn zeta. split_and!; [|by apply column_wf_insert| | |done|done].
  - unfold ChunkColumn_updateBiome. rewrite getBiomeSectionIndex_ok by done.
    rewrite biome_in_section_ok by done. apply section_member_ok with (s := s); [done|].
    change (Section_updateBiome (biome_local_of pos) b s = (Ok tt, s')).
    unfold Section_updateBiome, BIOME_SECTION_WIDTH.
    by destruct (guard_inside 4 _ (biome_local_in_section pos Hp)) as [-> ->].
  - intros q Hq. unfold column_biome. cbn [set_sections _sections].
    destruct (decide (biome_section_of q = biome_section_of pos)) as [Eq|Ne].
    + rewrite Eq, list_lookup_insert_eq by lia. rewrite Hs, Hbiomes by by apply biome_local_in_section.
      destruct (decide (q = pos)) as [->|Hne]; [by rewrite decide_True|].
      rewrite decide_False; [done|]. intros El. by apply Hne, biome_local_inj.
    + rewrite list_lookup_insert_ne by done. rewrite decide_False; [done|]. by intros ->.
  - intros q. unfold column_block. cbn [set_sections _sections].
    destruct (decide (section_of q = biome_section_of pos)) as [Eq|Ne].
    + by rewrite Eq, list_lookup_insert_eq, Hs, Hblocks by lia.
    + by rewrite list_lookup_insert_ne.
Qed.

(** ** Palettes drawn from a fixed list

    A section never forgets a palette entry, so what bounds a palette is the
    list of the identifiers that are ever written. *)

Definition drawn (K : list Z) (p : Palette) : Prop := NoDup p ∧ p ⊆ K.

Lemma drawn_add K p b : drawn K p → b ∈ K → drawn K (Palette_add b p).
Proof.
  intros [Hn Hs] Hb. unfold Palette_add. destruct (find_index b p) eqn:E; [by split|].
  apply find_index_none in E. split.
  - apply list.NoDup_app. split_and!; [done| |apply NoDup_singleton]. set_solver.
  - set_solver.
Qed.

Lemma drawn_length K p : drawn K p → zlen p ≤ zlen K.
Proof. intros [Hn Hs]. apply inj_le, submseteq_length, NoDup_submseteq; done. Qed.

Section Drawn.
Context (KB KM : list Z) (HKB : zlen KB ≤ 2 ^ 15) (HKM : zlen KM ≤ 8).

Definition section_drawn (s : Section_) : Prop :=
  drawn KB (_blockPalette s) ∧ drawn KM (_biomePalette s).

Definition column_inv (c : ChunkColumn) : Prop :=
  column_wf c ∧ Forall section_drawn (_sections c).

(** A write keeps the invariant and changes the sections only. *)
Lemma updateBlock_inv c pos b :
  column_inv c → in_column pos → b ∈ KB →
  ∃ l, let c' := set_sections l c in
    ChunkColumn_updateBlock pos b c = (Ok tt, c') ∧ column_inv c' ∧
    (∀ q, in_column q → column_block c' q = if decide (q = pos) then b else column_block c q) ∧
    (∀ q, column_biome c' q = column_biome c q).
Proof.
  intros [Hc Hd] Hp Hb. pose proof (section_of_range pos Hp) as Hr.
  destruct (column_section c (section_of pos) Hc) as (s & Hs & Hw); [lia|].
  pose proof (Forall_lookup_1 _ _ _ _ Hd Hs) as [Hdb Hdm].
  assert (drawn KB (Palette_add b (_blockPalette s))) as Hdb' by by apply drawn_add.
  destruct (column_updateBlock c pos b s Hc Hp Hs) as (s' & E & Hc' & Hq & Hm & Hpal & Hbpal).
  { etransitivity; [by apply drawn_length|done]. }
  eexists. cbn zeta. split_and!; [exact E| |exact Hq|exact Hm].
  split; [done|]. cbn. apply Forall_insert; [done|]. split; congruence.
Qed.

Lemma updateBiome_inv c pos b :
  column_inv c → in_biome_column pos → b ∈ KM →
  ∃ l, let c' := set_sections l c in
    ChunkColumn_updateBiome pos b c = (Ok tt, c') ∧ column_inv c' ∧
    (∀ q, in_biome_column q →
       column_biome c' q = if decide (q = pos) then b else column_biome c q) ∧
    (∀ q, column_block c' q = column_block c q).
Proof.
  intros [Hc Hd] Hp Hb. pose proof (biome_section_of_range pos Hp) as Hr.
  destruct (column_section c (biome_section_of pos) Hc) as (s & Hs & Hw); [lia|].
  pose proof (Forall_lookup_1 _ _ _ _ Hd Hs) as [Hdb Hdm].
  assert (drawn KM (Palette_add b (_biomePalette s))) as Hdm' by by apply drawn_add.
  destruct (column_updateBiome c pos b s Hc Hp Hs) as (s' & E & Hc' & Hq & Hm & Hpal & Hbpal).
  { etransitivity; [by apply drawn_length|done]. }
  eexists. cbn zeta. split_and!; [exact E| |exact Hq|exact Hm].
  split; [done|]. cbn. apply Forall_insert; [done|]. split; congruence.
Qed.

(** A new column is air. *)
Lemma column_make chunkPos :
  0 ∈ KB → 0 ∈ KM →
  ∃ c, ChunkColumn_make chunkPos = Ok c ∧ column_inv c ∧ _chunkPos c = chunkPos ∧
    _currentState c = INITIALIZED ∧
    (∀ q, column_block c q = 0) ∧ (∀ q, column_biome c q = 0).
Proof.
  clear HKB HKM. intros HB HM. destruct make_wf as (s & E & Hw & Hp & Hbp & Hcells).
  unfold ChunkColumn_make. rewrite E. cbn [mbind result_bind].
  eexists. split; [done|]. split_and!; [|done|done| |].
  - split; [split; [done|by apply Forall_replicate]|]. cbn [_sections]. apply Forall_replicate.
    split; rewrite ?Hp, ?Hbp; (split; [apply NoDup_singleton|set_solver]).
  - intros q. unfold column_block. cbn [_sections].
    destruct (replicate _ s !! section_of q) as [s0|] eqn:El; [|done].
    apply lookup_replicate in El as [-> _]. apply Hcells.
  - intros q. unfold column_biome. cbn [_sections].
    destruct (replicate _ s !! biome_section_of q) as [s0|] eqn:El; [|done].
    apply lookup_replicate in El as [-> _]. apply Hcells.
Qed.
End Drawn.
