(* ===== verification/ChunkProps.v ===== *)
(** * Properties of chunk columns *)

From S2P Require Import Prelude Types State Nbt DynamicStorage Palette Section StorageLaws SectionLaws ChunkColumn ChunkLaws.

(** A new column. *)
Definition column_example : ChunkColumn :=
  match ChunkColumn_make (mk_Position2D 0 0) with
  | Ok c => c
  | _ => mk_ChunkColumn [] None (mk_Position2D 0 0) [] INITIALIZED
  end.

Lemma column_example_make : ChunkColumn_make (mk_Position2D 0 0) = Ok column_example.
Proof.
  unfold column_example.
  by destruct (column_make [0] [0] (mk_Position2D 0 0)) as (c & -> & _); [set_solver..|].
Qed.

Lemma column_example_inv : column_inv [0] [0] column_example.
Proof.
  destruct (column_make [0] [0] (mk_Position2D 0 0)) as (c & E & Hc & _); [set_solver..|].
  rewrite column_example_make in E. by injection E as ->.
Qed.

(** C7: a column is an array of blocks over its height: writing a block makes it
    the block read at the position, and leaves the block read at every other
    position of the column, in this section and in the others, as it was. *)
Theorem ChunkColumn_updateBlock_getBlock (c : ChunkColumn) (pos : Position) (s : Section_) (b : Z) :
  column_wf c → in_column pos → _sections c !! section_of pos = Some s →
  zlen (Palette_add b (_blockPalette s)) ≤ 2 ^ 15 →
  ∃ c', ChunkColumn_updateBlock pos b c = (Ok tt, c') ∧ column_wf c' ∧
    ∀ q, in_column q →
      ChunkColumn_getBlock c' q = if decide (q = pos) then Ok b else ChunkColumn_getBlock c q.
Proof.
  intros Hc Hp Hs Hcap.
  destruct (column_updateBlock c pos b s Hc Hp Hs Hcap) as (s' & E & Hc' & Hq & _).
  eexists. split_and!; [exact E|done|]. intros q Hin.
  rewrite !column_getBlock, Hq by done. by case_decide.
Qed.

Lemma example_section i : (i < 26)%nat → ∃ s, _sections column_example !! i = Some s ∧
  zlen (_blockPalette s) ≤ 1 ∧ zlen (_biomePalette s) ≤ 1.
Proof.
  intros Hi. destruct column_example_inv as [Hw Hd].
  destruct (column_section _ i Hw Hi) as (s & Hs & _). exists s. split; [done|].
  destruct (Forall_lookup_1 _ _ _ _ Hd Hs) as [H1 H2].
  split; [apply (drawn_length [0] _ H1)|apply (drawn_length [0] _ H2)].
Qed.

Lemma ChunkColumn_updateBlock_getBlock_witness :
  ∃ s, column_wf column_example ∧ in_column (mk_Position 3 (-60) 5) ∧
  _sections column_example !! section_of (mk_Position 3 (-60) 5) = Some s ∧
  zlen (Palette_add 9 (_blockPalette s)) ≤ 2 ^ 15 ∧
  ∃ c', ChunkColumn_updateBlock (mk_Position 3 (-60) 5) 9 column_example = (Ok tt, c') ∧ column_wf c' ∧
    ∀ q, in_column q →
      ChunkColumn_getBlock c' q =
        if decide (q = mk_Position 3 (-60) 5) then Ok 9 else ChunkColumn_getBlock column_example q.
Proof.
  pose proof (proj1 column_example_inv) as H1.
  assert (in_column (mk_Position 3 (-60) 5)) as H2 by (unfold in_column; cbn; lia).
  destruct (example_section (section_of (mk_Position 3 (-60) 5))) as (s & H3 & Hp & _);
    [by apply section_of_range|].
  assert (zlen (Palette_add 9 (_blockPalette s)) ≤ 2 ^ 15) as H4
    by (pose proof (add_length_le 9 (_blockPalette s)); lia).
  exists s. split; [exact H1|]. split; [exact H2|]. split; [exact H3|]. split; [exact H4|].
  exact (ChunkColumn_updateBlock_getBlock column_example _ s 9 H1 H2 H3 H4).
Defined.

(** The section index is eight bits wide, so heights 4096 blocks apart are
    confused: a write far above the world lands inside of it. *)
Theorem ChunkColumn_updateBlock_alias (pos : Position) (b k : Z) (c : ChunkColumn) :
  in_column pos → 0 ≤ k < 2 ^ 40 →
  ChunkColumn_updateBlock (mk_Position (px pos) (py pos + 4096 * k) (pz pos)) b c =
    ChunkColumn_updateBlock pos b c.
Proof.
  intros Hp Hk. pose proof Hp as (Hx & Hy & Hz).
  unfold ChunkColumn_updateBlock.
  assert (getSectionIndex (mk_Position (px pos) (py pos + 4096 * k) (pz pos)) = getSectionIndex pos) as ->.
  { rewrite (getSectionIndex_ok pos Hp).
    unfold getSectionIndex, column_index, CHUNK_HEIGHT_MIN, SECTION_WIDTH, section_of. cbn [py].
    do 2 (rewrite chk_i64_ok by (unfold is_s; lia); cbn [mbind result_bind]).
    unfold quot_by. rewrite decide_False by lia. rewrite Z.quot_div_nonneg by lia.
    replace (py pos + 4096 * k - -64 + 16) with (py pos + 80 + 256 * k * 16) by lia.
    rewrite Z.div_add by lia.
    rewrite chk_i64_ok by (unfold is_s; div_lia). cbn [mbind result_bind]. f_equal.
    unfold to_u8, wrap_u. change (2 ^ 8) with 256. rewrite (Z.mul_comm 256 k), Z_mod_plus_full.
    rewrite Z.mod_small by div_lia. div_lia. }
  assert (block_in_section (mk_Position (px pos) (py pos + 4096 * k) (pz pos)) = block_in_section pos) as ->;
    [|done].
  rewrite (block_in_section_ok pos Hp). unfold position_in_section, CHUNK_HEIGHT_MIN, SECTION_WIDTH.
  rewrite chk_i64_ok by (cbn [py]; unfold is_s; lia). cbn [mbind result_bind px py pz].
  unfold Position_rem_scalar, Position_rem, Position_map2, Position_splat. cbn [px py pz].
  rewrite !rem_by_pos by (unfold is_s; lia). cbn [mbind result_bind].
  unfold local_of. rewrite !Z.rem_mod_nonneg by lia.
  rewrite (Z.mod_small (px pos)), (Z.mod_small (pz pos)) by lia.
  replace (py pos + 4096 * k - -64) with (py pos + 64 + 256 * k * 16) by lia.
  by rewrite Z_mod_plus_full.
Qed.

Lemma ChunkColumn_updateBlock_alias_witness :
  in_column (mk_Position 1 70 2) ∧ 0 ≤ 1 < 2 ^ 40 ∧
  ChunkColumn_updateBlock (mk_Position 1 (70 + 4096 * 1) 2) 5 column_example =
    ChunkColumn_updateBlock (mk_Position 1 70 2) 5 column_example.
Proof.
  assert (in_column (mk_Position 1 70 2)) as H1 by (unfold in_column; cbn; lia).
  assert (0 ≤ 1 < 2 ^ 40) as H2 by lia.
  split; [exact H1|]. split; [exact H2|].
  exact (ChunkColumn_updateBlock_alias _ 5 1 column_example H1 H2).
Defined.

(** Reading a biome does not shift the height by the bottom of the world: at
    or above zero, and at the negative multiples of four, the biome that was
    written is read, but at any other negative height the read throws
    [std::out_of_range] as soon as the section holds two biomes. *)
Theorem ChunkColumn_getBiome_height (c : ChunkColumn) (pos : Position) (s : Section_) :
  column_wf c → in_biome_column pos → _sections c !! biome_section_of pos = Some s →
  ChunkColumn_getBiome c pos =
    if decide (0 ≤ py pos ∨ py pos mod 4 = 0) then Ok (to_u8 (column_biome c pos))
    else if decide (zlen (_biomePalette s) ≤ 1) then Ok 0
    else Throw std_out_of_range.
Proof.
  intros Hc Hp Hs. pose proof Hp as (Hx & Hy & Hz).
  destruct (column_section c (biome_section_of pos) Hc) as (s0 & Hs0 & Hw);
    [by apply biome_section_of_range|].
  assert (s0 = s) as -> by congruence. clear Hs0.
  unfold ChunkColumn_getBiome, sections_at, column_biome. rewrite getBiomeSectionIndex_ok by done.
  cbn [mbind result_bind]. rewrite Nat2Z.id, Hs. cbn [mbind result_bind].
  unfold Position_rem_scalar, Position_rem, Position_map2, Position_splat, BIOME_SECTION_WIDTH.
  cbn [px py pz]. rewrite !rem_by_pos by (unfold is_s; lia). cbn [mbind result_bind].
  rewrite (Z.rem_small (px pos)), (Z.rem_small (pz pos)) by lia.
  case_decide as Hd.
  - assert (Z.rem (py pos) 4 = (py pos + 16) mod 4) as -> by div_lia.
    change (mk_Position (px pos) ((py pos + 16) mod 4) (pz pos)) with (biome_local_of pos).
    by rewrite getBiome_at by (done || by apply biome_local_in_section).
  - assert (-4 < Z.rem (py pos) 4 < 0) as Hr by div_lia.
    unfold Section_getBiome, BIOME_SECTION_WIDTH.
    replace (Position_ge _ 4) with false
      by (unfold Position_ge; cbn; by rewrite bool_decide_false by lia).
    destruct Hw as (_ & (Hst & Hbits & Hcap & Hh & He) & _).
    destruct (bits_ok (_biomePalette s) Hcap) as (b & Hb & _ & Hz0 & _). rewrite Hbits in Hb.
    injection Hb as <-. unfold canContainData. rewrite bool_decide_not.
    case_decide as Hl; [by rewrite bool_decide_true by tauto|].
    rewrite bool_decide_false by tauto. cbn [negb].
    unfold calculateSectionBiomeIdx, BIOME_SECTION_WIDTH. change BIOME_SECTION_2D_SIZE with (4 * 4).
    rewrite section_index_value by (cbn; unfold is_s; lia). cbn [mbind result_bind].
    unfold DynamicStorage_get. rewrite decide_False by tauto.
    rewrite decide_True; [done|]. unfold cell_index. cbn [px py pz].
    unfold to_u64, wrap_u.
    rewrite <- (Z_mod_plus_full _ 1), Z.mod_small by lia. change BIOME_SECTION_3D_SIZE with 64. lia.
Qed.

Lemma ChunkColumn_getBiome_height_witness :
  ∃ c s, column_wf c ∧ in_biome_column (mk_Position 1 (-3) 1) ∧
  _sections c !! biome_section_of (mk_Position 1 (-3) 1) = Some s ∧
  zlen (_biomePalette s) = 2 ∧
  ChunkColumn_getBiome c (mk_Position 1 (-3) 1) =
    (if decide (0 ≤ -3 ∨ (-3) mod 4 = 0) then Ok (to_u8 (column_biome c (mk_Position 1 (-3) 1)))
     else if decide (zlen (_biomePalette s) ≤ 1) then Ok 0
     else Throw std_out_of_range).
Proof.
  assert (in_biome_column (mk_Position 1 (-3) 1)) as H2 by (unfold in_biome_column; cbn; lia).
  destruct (example_section (biome_section_of (mk_Position 1 (-3) 1))) as (s & Hs & _ & Hl);
    [by apply biome_section_of_range|].
  assert (_biomePalette s = [0]) as Hp.
  { destruct (proj1 column_example_inv) as [_ Hf].
    destruct (Forall_lookup_1 _ _ _ _ Hf Hs) as (_ & (_ & _ & _ & Hh & _) & _).
    destruct (_biomePalette s) as [|x [|y p]]; cbn in *; [done|by simplify_eq|lia]. }
  destruct (column_updateBiome column_example (mk_Position 1 (-3) 1) 1 s (proj1 column_example_inv) H2 Hs)
    as (s' & _ & H1 & _ & _ & Hp' & _); [by rewrite Hp|].
  eexists _, s'. split; [exact H1|]. split; [exact H2|].
  assert (H3 : _sections (set_sections (<[biome_section_of (mk_Position 1 (-3) 1) := s']>
            (_sections column_example)) column_example) !! biome_section_of (mk_Position 1 (-3) 1) = Some s').
  { cbn [_sections set_sections]. apply list_lookup_insert_eq. by eapply lookup_lt_Some. }
  split; [exact H3|]. split; [by rewrite Hp', Hp|].
  exact (ChunkColumn_getBiome_height _ _ s' H1 H2 H3).
Defined.

(** ** The height map *)

(** Is there a block in the column [x], [z] of a section? *)
Definition built (s : Section_) (x z : Z) : bool :=
  existsb (λ y, bool_decide (block_at s (mk_Position x y z) ≠ 0)) (reverse (seqZ 0 16)).

(** The height maps that the constructor makes. *)
Definition heightMap_wf (h : list nbt_Base) : Prop :=
  ∃ a b, h = [nbt_List "MOTION_BLOCKING" a; nbt_List "WORLD_SURFACE" b] ∧ zlen b = 36 ∧
    Forall (λ e, nbt_getType e = TagType_Long) b.

Lemma heightMap_setLong_ok h i v :
  heightMap_wf h → 0 ≤ i →
  if decide (36 ≤ i) then heightMap_setLong h "WORLD_SURFACE" i v = Throw std_out_of_range
  else ∃ h', heightMap_setLong h "WORLD_SURFACE" i v = Ok h' ∧ heightMap_wf h'.
Proof.
  intros (a & b & -> & Hl & Hb) Hi.
  assert (heightMap_setLong [nbt_List "MOTION_BLOCKING" a; nbt_List "WORLD_SURFACE" b] "WORLD_SURFACE" i v =
          (b' ← list_setLong b i v; Ok [nbt_List "MOTION_BLOCKING" a; nbt_List "WORLD_SURFACE" b'])) as ->.
  { cbn [heightMap_setLong nbt_getName]. rewrite decide_True by discriminate.
    rewrite decide_False by (intros H; by apply H). by destruct (list_setLong b i v). }
  unfold list_setLong, nbt_List_getValueAs. rewrite Hl.
  case_decide as Hd; [done|].
  destruct (lookup_lt_is_Some_2 b (Z.to_nat i)) as [e He]; [lia|]. rewrite He.
  pose proof (Forall_lookup_1 _ _ _ _ Hb He) as Ht. rewrite decide_False by (intros H; by apply H).
  cbn [mbind result_bind]. destruct e; try discriminate Ht. cbn [mbind result_bind].
  eexists. split; [done|]. exists a, (<[Z.to_nat i := nbt_Long name v]> b).
  split_and!; [done|by rewrite length_insert|]. by apply Forall_insert.
Qed.

Lemma surface_loop_ok s x z ys h :
  section_wf s → 0 ≤ x < 16 → 0 ≤ z < 16 → (∀ y, y ∈ ys → 0 ≤ y < 16) → heightMap_wf h →
  if existsb (λ y, bool_decide (block_at s (mk_Position x y z) ≠ 0)) ys && bool_decide (36 ≤ x + z * 16)
  then surface_loop s x z ys h = Throw std_out_of_range
  else ∃ h', surface_loop s x z ys h = Ok h' ∧ heightMap_wf h'.
Proof.
  intros Hs Hx Hz Hys Hh. induction ys as [|y ys IH]; cbn [existsb surface_loop]; [by exists h|].
  assert (in_section 16 (mk_Position x y z)) as Hp
    by (pose proof (Hys y ltac:(set_solver)); unfold in_section; cbn; lia).
  rewrite getBlock_at by done. cbn [mbind result_bind].
  destruct (decide (block_at s (mk_Position x y z) ≠ 0)) as [Hb|Hb].
  - rewrite bool_decide_true by done. cbn [orb andb].
    rewrite chk_i32_ok by (unfold is_s, SECTION_WIDTH; lia). cbn [mbind result_bind].
    pose proof (heightMap_setLong_ok h (x + z * SECTION_WIDTH) (y + 1) Hh) as H.
    change SECTION_WIDTH with 16 in *. specialize (H ltac:(lia)).
    case_bool_decide as Hd; case_decide; (done || lia).
  - rewrite bool_decide_false by done. cbn [orb]. apply IH. set_solver.
Qed.

(** The height map has room for the first thirty-six columns of a section
    only: [updateHeightMap] throws [std::out_of_range] exactly when some section
    holds a block in a column with [x + 16 z >= 36]. *)
Theorem ChunkColumn_updateHeightMap_outcome (c : ChunkColumn) :
  column_wf c → heightMap_wf (_heightMap c) →
  (ChunkColumn_updateHeightMap c).1 =
    if existsb (λ s, existsb (λ x, existsb (λ z, built s x z && bool_decide (36 ≤ x + z * 16))
                 (seqZ 0 16)) (seqZ 0 16)) (_sections c)
    then Throw std_out_of_range else Ok tt.
Proof.
  intros [_ Hw] Hh. unfold ChunkColumn_updateHeightMap.
  change ((gets _sections ≫= ?f) c) with (f (_sections c) c).
  assert (G : ∀ e (b : bool) (r : result unit * ChunkColumn) (I : ChunkColumn → Prop),
    (if b then r.1 = Throw e else ∃ s', r = (Ok tt, s') ∧ I s') → r.1 = if b then Throw e else Ok tt).
  { intros e [] r I H; [done|]. destruct H as (s' & -> & _). done. }
  apply (G _ _ _ (λ c', heightMap_wf (_heightMap c'))).
  change SECTION_WIDTH with 16.
  apply for_each_outcome; [|done]. intros s c1 Hs Hc1.
  rewrite list.Forall_forall in Hw. specialize (Hw s Hs).
  apply for_each_outcome; [|done]. intros x c2 Hx Hc2. apply elem_of_seqZ in Hx.
  apply for_each_outcome; [|done]. intros z c3 Hz Hc3. apply elem_of_seqZ in Hz.
  pose proof (surface_loop_ok s x z (reverse (seqZ 0 16)) (_heightMap c3) Hw ltac:(lia) ltac:(lia)) as H.
  specialize (H ltac:(intros y; rewrite elem_of_reverse, elem_of_seqZ; lia) Hc3).
  unfold built, member, assign.
  destruct (_ && _); [by rewrite H|]. destruct H as (h' & -> & Hh'). by eexists.
Qed.

Lemma column_example_heightMap : heightMap_wf (_heightMap column_example).
Proof.
  pose proof column_example_make as E. unfold ChunkColumn_make in E.
  destruct make_wf as (s & Es & _). rewrite Es in E. cbn [mbind result_bind] in E.
  assert (∀ a b : ChunkColumn, Ok a = Ok b → _heightMap a = _heightMap b) as Inj by congruence.
  apply Inj in E. rewrite <- E.
  exists (replicate 36 (nbt_Long String.EmptyString 0)), (replicate 36 (nbt_Long String.EmptyString 0)).
  split_and!; [by vm_compute|done|by apply Forall_replicate].
Qed.

Lemma ChunkColumn_updateHeightMap_outcome_witness :
  ∃ c, column_wf c ∧ heightMap_wf (_heightMap c) ∧
  ChunkColumn_getBlock c (mk_Position 5 (-60) 5) = Ok 1 ∧
  (ChunkColumn_updateHeightMap c).1 =
    (if existsb (λ s, existsb (λ x, existsb (λ z, built s x z && bool_decide (36 ≤ x + z * 16))
                 (seqZ 0 16)) (seqZ 0 16)) (_sections c)
     then Throw std_out_of_range else Ok tt).
Proof.
  assert (in_column (mk_Position 5 (-60) 5)) as Hp by (unfold in_column; cbn; lia).
  destruct (example_section (section_of (mk_Position 5 (-60) 5))) as (s & Hs & Hl & _);
    [by apply section_of_range|].
  destruct (column_updateBlock column_example _ 1 s (proj1 column_example_inv) Hp Hs)
    as (s' & _ & H1 & Hq & _); [pose proof (add_length_le 1 (_blockPalette s)); lia|].
  eexists. split; [exact H1|]. split; [exact column_example_heightMap|].
  split; [rewrite column_getBlock, Hq by done; by rewrite decide_True|].
  exact (ChunkColumn_updateHeightMap_outcome _ H1 column_example_heightMap).
Defined.
