(* ===== verification/ChunkGeneration.v ===== *)
(** * Chunk generation (world_storage/ChunkColumn.cpp, generation/features/tree/)

    The steps that take a column from [INITIALIZED] to [READY], the flat and
    debug worlds, and the oak trees.  The identifiers of the blocks come from
    headers that the build generates: they are the fields of [BlockIds].  The
    generator is the virtual interface of generation/generator.hpp; its noise is
    made of [double]s, so that the two comparisons of the trees with the noise
    are operations of the interface. *)

From S2P Require Import Prelude Types State Nbt DynamicStorage Palette Section ChunkColumn.

(** [Blocks::X::toProtocol(...)], with the properties the generation uses. *)
Class BlockIds : Type := mk_BlockIds {
  Blocks_Air : Z;
  Blocks_Stone : Z;
  Blocks_Bedrock : Z;
  Blocks_Dirt : Z;
  Blocks_GrassBlock : Z;
  Blocks_Water : Z;
  Blocks_Sand : Z;
  Blocks_OakLog : Z;
  Blocks_OakLeaves : Z
}.

Record Generator : Type := mk_Generator {
  generator_getBlock : Z → Z → Z → Z;
  generator_getBiome : Z → Z → Z → Z;
  (** [getTreeSize(pos, {sizeMin, sizeMax})] *)
  generator_getTreeSize : Position → Z → Z → Z;
  (** [getNoise(x, y, z).noise3D.density > 0] *)
  generator_isDense : Z → Z → Z → bool;
  (** [getNoise(x, y, z).noise2D.trees > 0.4] *)
  generator_hasTrees : Z → Z → Z → bool
}.

Section Generation.
Context `{BlockIds} (generator : Generator).

(** [x + this->_chunkPos.x * SECTION_WIDTH], in [int]. *)
Definition world_coordinate (x chunk : Z) : result Z :=
  c ← chk_i32 (chunk * SECTION_WIDTH); chk_i32 (x + c).

(** ** Oak trees *)

Record OakTree : Type := mk_OakTree { _chunk : ChunkColumn; _positions : list Position }.

Definition set_chunk c t := mk_OakTree c (_positions t).
Definition set_positions l t := mk_OakTree (_chunk t) l.

(** The loop over [y]: the first block that is not air decides. *)
Fixpoint tree_column (c : ChunkColumn) (x z : Z) (ys : list Z) : result (option Position) :=
  match ys with
  | [] => Ok None
  | y :: ys =>
      block ← ChunkColumn_getBlock c (mk_Position x y z);
      if decide (block = Blocks_Air) then tree_column c x z ys
      else if decide (block = Blocks_GrassBlock ∨ block = Blocks_Dirt) then
        wx ← world_coordinate x (p2x (_chunkPos c));
        wz ← world_coordinate z (p2z (_chunkPos c));
        if generator_isDense generator wx y wz && generator_hasTrees generator wx y wz &&
           bool_decide (generator_getBiome generator wx y wz ≠ 0)
        then Ok (Some (mk_Position x (y + 1) z))
        else Ok None
      else Ok None
  end.

(** [for (int y = CHUNK_HEIGHT_MAX - 5; CHUNK_HEIGHT_MIN <= y; y--)] *)
Definition heights_down (from : Z) : list Z :=
  reverse (seqZ CHUNK_HEIGHT_MIN (from - CHUNK_HEIGHT_MIN + 1)).

Definition getPosForTreeGeneration : M OakTree unit :=
  for_each (seqZ 0 SECTION_WIDTH) (λ z,
    for_each (seqZ 0 SECTION_WIDTH) (λ x,
      c ← gets _chunk;
      p ← lift (tree_column c x z (heights_down (CHUNK_HEIGHT_MAX - 5)));
      modify (λ t, set_positions (_positions t ++ from_option (λ p, [p]) [] p) t))).

(** A loop that returns [true] as soon as its body does. *)
Fixpoint any_of {X} (l : list X) (p : X → result bool) : result bool :=
  match l with
  | [] => Ok false
  | x :: l => b ← p x; if b : bool then Ok true else any_of l p
  end.

(** The predicate of [filterTreeGrowSpace]: is there no room for a tree? *)
Definition tree_obstructed (c : ChunkColumn) (pos : Position) : result bool :=
  any_of (seqZ 0 (generator_getTreeSize generator pos 4 6 + 1)) (λ y,
    py' ← chk_i64 (py pos + y);
    block ← ChunkColumn_getBlock c (mk_Position (px pos) py' (pz pos));
    if decide (block ≠ Blocks_Air) then Ok true
    else
      any_of (seqZ (-2) 5) (λ x, any_of (seqZ (-2) 5) (λ z,
        if decide (x = 0 ∧ z = 0) then Ok false
        else
          px' ← chk_i64 (px pos + x);
          pz' ← chk_i64 (pz pos + z);
          if decide (px' < 0 ∨ SECTION_WIDTH ≤ px' ∨ pz' < 0 ∨ SECTION_WIDTH ≤ pz') then Ok true
          else
            block ← ChunkColumn_getBlock c (mk_Position px' py' pz');
            Ok (bool_decide (block = Blocks_OakLog))))).

(** [std::erase_if] *)
Fixpoint erase_if (p : Position → result bool) (l : list Position) : result (list Position) :=
  match l with
  | [] => Ok []
  | x :: l =>
      b ← p x;
      l' ← erase_if p l;
      Ok (if b : bool then l' else x :: l')
  end.

Definition filterTreeGrowSpace : M OakTree unit :=
  c ← gets _chunk;
  member _positions set_positions (assign (erase_if (tree_obstructed c))).

(** [getTree]: the blocks of a tree, relative to its foot. *)
Definition leaf_layer (r : Z) (y : Z) (skip : Z → Z → bool) : list (Position * Z) :=
  x ← seqZ (- r) (2 * r + 1);
  z ← seqZ (- r) (2 * r + 1);
  if skip x z then [] else [(mk_Position x y z, Blocks_OakLeaves)].

Definition getTree (pos : Position) : list (Position * Z) :=
  let treeSize := generator_getTreeSize generator pos 4 7 in
  y ← seqZ 0 (treeSize + 2);
  (if decide (y ≤ treeSize) then [(mk_Position 0 y 0, Blocks_OakLog)] else []) ++
  (if decide (treeSize - 2 ≤ y ∧ y ≤ treeSize - 1) then
     leaf_layer 2 y (λ x z, bool_decide (x = 0 ∧ z = 0))
   else []) ++
  (if decide (treeSize ≤ y) then
     leaf_layer 1 y (λ x z, bool_decide ((x = 0 ∧ z = 0 ∧ y = treeSize) ∨
                                         (x * x = z * z ∧ x ≠ 0 ∧ z ≠ 0)))
   else []).

(** The body of the loop of [generateTree]. *)
Definition place_block (foot : Position) (b : Position * Z) : M OakTree unit :=
  x ← lift (chk_i64 (px foot + px b.1));
  z ← lift (chk_i64 (pz foot + pz b.1));
  if decide (x < 0 ∨ SECTION_WIDTH ≤ x ∨ z < 0 ∨ SECTION_WIDTH ≤ z) then mret tt
  else
    y ← lift (chk_i64 (py foot + py b.1));
    c ← gets _chunk;
    block ← lift (ChunkColumn_getBlock c (mk_Position x y z));
    if decide (block = Blocks_OakLog) then mret tt
    else member _chunk set_chunk (ChunkColumn_updateBlock (mk_Position x y z) b.2).

Definition generateTree : M OakTree unit :=
  positions ← gets _positions;
  match positions with
  | [] => undefined_ OutOfBoundsRead
  | foot :: _ =>
      c ← gets _chunk;
      wx ← lift (w ← chk_i32 (p2x (_chunkPos c) * SECTION_WIDTH); chk_i64 (px foot + w));
      wz ← lift (w ← chk_i32 (p2z (_chunkPos c) * SECTION_WIDTH); chk_i64 (pz foot + w));
      _ ← for_each (getTree (mk_Position wx (py foot) wz)) (place_block foot);
      modify (λ t, set_positions (tail (_positions t)) t)
  end.

(** [while (!oakTree.filterTreeGrowSpace().empty()) oakTree.generateTree(...);]: a
    tree leaves the queue in every turn. *)
Fixpoint generateTrees (fuel : nat) : M OakTree unit :=
  match fuel with
  | O => lift OutOfFuel
  | S fuel =>
      _ ← filterTreeGrowSpace;
      positions ← gets _positions;
      match positions with
      | [] => mret tt
      | _ :: _ => _ ← generateTree; generateTrees fuel
      end
  end.

(** ** The steps of the overworld *)

Definition box (xs ys zs : list Z) (f : Z → Z → Z → M ChunkColumn unit) : M ChunkColumn unit :=
  for_each ys (λ y, for_each zs (λ z, for_each xs (λ x, f x y z))).

Definition enter (s : GenerationState) : M ChunkColumn unit := modify (set_currentState s).

Definition _generateRawGeneration : M ChunkColumn unit :=
  _ ← box (seqZ 0 SECTION_WIDTH) (seqZ CHUNK_HEIGHT_MIN CHUNK_HEIGHT) (seqZ 0 SECTION_WIDTH)
        (λ x y z,
          c ← gets _chunkPos;
          wx ← lift (world_coordinate x (p2x c));
          wz ← lift (world_coordinate z (p2z c));
          ChunkColumn_updateBlock (mk_Position x y z) (generator_getBlock generator wx y wz));
  _ ← for_each (seqZ 0 SECTION_WIDTH) (λ x, for_each (seqZ 0 SECTION_WIDTH) (λ z,
        ChunkColumn_updateBlock (mk_Position x (0 + CHUNK_HEIGHT_MIN) z) Blocks_Bedrock));
  _ ← box (seqZ 0 BIOME_SECTION_WIDTH) (seqZ 0 BIOME_HEIGHT_MAX) (seqZ 0 BIOME_SECTION_WIDTH)
        (λ x y z, ChunkColumn_updateBiome (mk_Position x (y + BIOME_HEIGHT_MIN) z)
                    (generator_getBiome generator x y z));
  enter RAW_GENERATION.

(** [for (int y = waterLevel; 0 < y; y--)], with the identifier of stone written
    out as [1]. *)
Definition _generateLakes : M ChunkColumn unit :=
  _ ← for_each (seqZ 0 SECTION_WIDTH) (λ z, for_each (seqZ 0 SECTION_WIDTH) (λ x,
        for_each_until (reverse (seqZ 1 86)) (λ y,
          c ← gets id;
          block ← lift (ChunkColumn_getBlock c (mk_Position x y z));
          if decide (block = 1) then mret true
          else _ ← ChunkColumn_updateBlock (mk_Position x y z) Blocks_Water; mret false)));
  enter LAKES.

(** The loop over [y], with [lastBlock] as the last block seen above. *)
Fixpoint grass_column (x z : Z) (lastBlock : Z) (ys : list Z) : M ChunkColumn unit :=
  match ys with
  | [] => mret tt
  | y :: ys =>
      c ← gets id;
      block ← lift (ChunkColumn_getBlock c (mk_Position x y z));
      if decide (block = Blocks_Air) then grass_column x z lastBlock ys
      else if decide (block = Blocks_Water) then grass_column x z Blocks_Water ys
      else if decide (block = Blocks_Stone ∧ lastBlock = Blocks_Water) then
        ChunkColumn_updateBlock (mk_Position x y z) Blocks_Sand
      else if decide (block = Blocks_Stone ∧ lastBlock = Blocks_Air) then
        _ ← ChunkColumn_updateBlock (mk_Position x y z) Blocks_GrassBlock;
        _ ← (if decide (CHUNK_HEIGHT_MIN ≤ y - 1)
             then ChunkColumn_updateBlock (mk_Position x (y - 1) z) Blocks_Dirt else mret tt);
        (if decide (CHUNK_HEIGHT_MIN ≤ y - 2)
         then ChunkColumn_updateBlock (mk_Position x (y - 2) z) Blocks_Dirt else mret tt)
      else grass_column x z lastBlock ys
  end.

Definition _generateLocalModifications : M ChunkColumn unit :=
  _ ← for_each (seqZ 0 SECTION_WIDTH) (λ z, for_each (seqZ 0 SECTION_WIDTH) (λ x,
        grass_column x z 0 (heights_down (CHUNK_HEIGHT_MAX - 2))));
  enter LOCAL_MODIFICATIONS.

Definition _generateUndergroundStructures : M ChunkColumn unit := enter UNDERGROUND_STRUCTURES.
Definition _generateSurfaceStructures : M ChunkColumn unit := enter SURFACE_STRUCTURES.
Definition _generateStrongholds : M ChunkColumn unit := enter STRONGHOLDS.
Definition _generateUndergroundOres : M ChunkColumn unit := enter UNDERGROUND_ORES.
Definition _generateUndergroundDecoration : M ChunkColumn unit := enter UNDERGROUND_DECORATION.
Definition _generateFluidSprings : M ChunkColumn unit := enter FLUID_SPRINGS.

Definition _generateVegetalDecoration : M ChunkColumn unit :=
  _ ← (λ c,
        let '(r, t) := (_ ← getPosForTreeGeneration;
                        positions ← gets _positions;
                        generateTrees (S (length positions))) (mk_OakTree c []) in
        (r, _chunk t));
  enter VEGETAL_DECORATION.

Definition _generateTopLayerModification : M ChunkColumn unit := enter TOP_LAYER_MODIFICATION.

(** The body of [while (_currentState < goalState)]. *)
Definition overworld_step : M ChunkColumn unit :=
  s ← gets _currentState;
  match s with
  | INITIALIZED => _generateRawGeneration
  | RAW_GENERATION => _generateLakes
  | LAKES => _generateLocalModifications
  | LOCAL_MODIFICATIONS => _generateUndergroundStructures
  | UNDERGROUND_STRUCTURES => _generateSurfaceStructures
  | SURFACE_STRUCTURES => _generateStrongholds
  | STRONGHOLDS => _generateUndergroundOres
  | UNDERGROUND_ORES => _generateUndergroundDecoration
  | UNDERGROUND_DECORATION => _generateFluidSprings
  | FLUID_SPRINGS => _generateVegetalDecoration
  | VEGETAL_DECORATION => _generateTopLayerModification
  | TOP_LAYER_MODIFICATION => enter READY
  | READY => mret tt
  end.

Fixpoint overworld_loop (fuel : nat) (goalState : GenerationState) : M ChunkColumn unit :=
  match fuel with
  | O => lift OutOfFuel
  | S fuel =>
      s ← gets _currentState;
      if decide (GenerationState_code s < GenerationState_code goalState) then
        _ ← overworld_step; overworld_loop fuel goalState
      else mret tt
  end.

(** There are thirteen states. *)
Definition _generateOverworld (goalState : GenerationState) : M ChunkColumn unit :=
  overworld_loop 13 goalState.

Definition _generateNether (goalState : GenerationState) : M ChunkColumn unit := mret tt.
Definition _generateEnd (goalState : GenerationState) : M ChunkColumn unit := mret tt.

(** ** Flat and debug worlds *)

Definition flat_box (f : Z → Z → Z → M ChunkColumn unit) : M ChunkColumn unit :=
  box (seqZ 0 SECTION_WIDTH) (seqZ 0 11) (seqZ 0 SECTION_WIDTH) f.

Definition flat_layer (x y z : Z) (otherwise : M ChunkColumn unit) : M ChunkColumn unit :=
  let put := ChunkColumn_updateBlock (mk_Position x (y + CHUNK_HEIGHT_MIN) z) in
  if decide (y = 0) then put Blocks_Bedrock
  else if decide (y = 1 ∨ y = 2) then put Blocks_Dirt
  else if decide (y = 3) then put Blocks_GrassBlock
  else otherwise.

Definition _generateFlat (goalState : GenerationState) : M ChunkColumn unit :=
  _ ← flat_box (λ x y z, flat_layer x y z (mret tt));
  enter READY.

(** The two [switch]es over [x + (z * 16)]. *)
Definition crown_low : list Z :=
  ((λ x, x + 6 * 16) <$> [6; 7; 8; 9; 10]) ++ ((λ x, x + 7 * 16) <$> [6; 7; 8; 9; 10]) ++
  ((λ x, x + 8 * 16) <$> [6; 7; 9; 10]) ++ ((λ x, x + 9 * 16) <$> [6; 7; 8; 9; 10]) ++
  ((λ x, x + 10 * 16) <$> [6; 7; 8; 9; 10]).
Definition crown_high : list Z := [8 + 7 * 16; 7 + 8 * 16; 9 + 8 * 16; 8 + 9 * 16; 8 + 8 * 16].

Definition _generateFlatCubicServer (goalState : GenerationState) : M ChunkColumn unit :=
  _ ← flat_box (λ x y z,
        let put := ChunkColumn_updateBlock (mk_Position x (y + CHUNK_HEIGHT_MIN) z) in
        flat_layer x y z
          (if decide ((y = 4 ∨ y = 5 ∨ y = 6) ∧ z = 8 ∧ x = 8) then put Blocks_OakLog
           else if decide (y = 7 ∨ y = 8) then
             (if decide (x + z * 16 ∈ crown_low) then put Blocks_OakLeaves
              else if decide (x + z * 16 = 8 + 8 * 16) then put Blocks_OakLog
              else mret tt)
           else if decide (y = 9 ∨ y = 10) then
             (if decide (x + z * 16 ∈ crown_high) then put Blocks_OakLeaves else mret tt)
           else mret tt));
  enter READY.

(** [static size_t block]: the counter is shared by all columns. *)
Definition _generateDebug (goalState : GenerationState) : M (Z * ChunkColumn) unit :=
  _ ← for_each (seqZ 0 NB_OF_PLAYABLE_SECTIONS) (λ i,
        block ← gets fst;
        _ ← modify (λ s, (to_u64 (block + 1), s.2));
        _ ← member snd (λ c s, (s.1, c))
              (ChunkColumn_updateBlock (mk_Position 7 (7 + Z.shiftl i 4 - 64) 7) (to_i32 block));
        modify (λ s, (if decide (23231 < s.1) then 0 else s.1, s.2)));
  modify (λ s, (s.1, set_currentState READY s.2)).

(** [generate]: a world type that is not implemented is logged and nothing else. *)
Definition ChunkColumn_generate (worldType : WorldType) (dimensionType : DimensionType)
    (goalState : GenerationState) : M (Z * ChunkColumn) unit :=
  let column := member snd (λ c s, (s.1, c)) in
  _ ← match worldType with
      | WorldType_DEFAULT =>
          column (match dimensionType with
                  | DimensionType_OVERWORLD => _generateOverworld goalState
                  | DimensionType_NETHER => _generateNether goalState
                  | DimensionType_END => _generateEnd goalState
                  end)
      | WorldType_SUPERFLAT => column (_generateFlat goalState)
      | WorldType_LARGEBIOME | WorldType_AMPLIFIED | WorldType_SINGLEBIOME => mret tt
      | WorldType_DEBUG => _generateDebug goalState
      | WorldType_SUPERFLAT_CUBIC_SERVER => column (_generateFlatCubicServer goalState)
      end;
  modify (λ s, (s.1, ChunkColumn_recalculateSkyLight s.2)).
End Generation.
