(* ===== verification/GenerationLaws.v ===== *)
(** * Laws of the generation

    The steps as total-correctness triples over the columns whose palettes are
    drawn from a fixed list of blocks, and the layout that nested loops of
    writes leave. *)

From S2P Require Import Prelude Types State Nbt DynamicStorage Palette Section StorageLaws SectionLaws ChunkColumn ChunkLaws ChunkGeneration.

Section Laws.
Context `{BlockIds} (KB KM : list Z) (HKB : zlen KB ≤ 2 ^ 15) (HKM : zlen KM ≤ 8).

(** The columns at a position, in a state of the generation. *)
Definition column_at (p : Position2D) (st : GenerationState) (c : ChunkColumn) : Prop :=
  column_inv KB KM c ∧ _chunkPos c = p ∧ _currentState c = st.

Lemma put_ok p st pos b :
  in_column pos → b ∈ KB →
  triple (column_at p st) (ChunkColumn_updateBlock pos b) (λ _, column_at p st).
Proof.
  intros Hp Hb c (Hc & Ep & Es).
  destruct (updateBlock_inv KB KM HKB c pos b Hc Hp Hb) as (l & E & Hc' & _).
  exists tt, (set_sections l c). by split_and!.
Qed.

Lemma enter_ok p st st' : triple (column_at p st) (enter st') (λ _, column_at p st').
Proof. apply triple_modify. intros c ([[? ?] ?] & ? & ?). by split_and!. Qed.

Lemma box_ok p st xs ys zs f :
  (∀ x y z, x ∈ xs → y ∈ ys → z ∈ zs → triple (column_at p st) (f x y z) (λ _, column_at p st)) →
  triple (column_at p st) (box xs ys zs f) (λ _, column_at p st).
Proof.
  intros Hf. apply triple_for_each_inv. intros y Hy. apply triple_for_each_inv. intros z Hz.
  apply triple_for_each_inv. intros x Hx. by apply Hf.
Qed.

Lemma world_coordinate_ok x k :
  - 2 ^ 26 ≤ k < 2 ^ 26 → 0 ≤ x < 16 → world_coordinate x k = Ok (x + k * 16).
Proof.
  intros Hk Hx. unfold world_coordinate, SECTION_WIDTH.
  rewrite chk_i32_ok by (unfold is_s; lia). cbn [mbind result_bind].
  by rewrite chk_i32_ok by (unfold is_s; lia).
Qed.

(** ** Layouts *)

(** A column whose blocks are [g]. *)
Definition laid (p : Position2D) (st : GenerationState) (g : Position → Z) (c : ChunkColumn) : Prop :=
  column_at p st c ∧ ∀ q, in_column q → column_block c q = g q.

Lemma put_laid p st g pos b :
  in_column pos → b ∈ KB →
  triple (laid p st g) (ChunkColumn_updateBlock pos b)
    (λ _, laid p st (λ q, if decide (q = pos) then b else g q)).
Proof.
  intros Hp Hb c ((Hc & Ep & Es) & Hg).
  destruct (updateBlock_inv KB KM HKB c pos b Hc Hp Hb) as (l & E & Hc' & Hq & _).
  exists tt, (set_sections l c). split; [done|]. split; [by split_and!|].
  intros q Hin. rewrite Hq by done.
  case_decide; [done|by apply Hg].
Qed.

Lemma put_biome_laid p st g pos b :
  in_biome_column pos → b ∈ KM →
  triple (laid p st g) (ChunkColumn_updateBiome pos b) (λ _, laid p st g).
Proof.
  intros Hp Hb c ((Hc & Ep & Es) & Hg).
  destruct (updateBiome_inv KB KM HKM c pos b Hc Hp Hb) as (l & E & Hc' & _ & Hq).
  exists tt, (set_sections l c). split; [done|]. split; [by split_and!|].
  intros q Hin. rewrite Hq. by apply Hg.
Qed.

Lemma enter_laid p st st' g : triple (laid p st g) (enter st') (λ _, laid p st' g).
Proof. apply triple_modify. intros c (([[? ?] ?] & ? & ?) & Hg). split; [by split_and!|exact Hg]. Qed.

Lemma laid_ext p st g g' c : (∀ q, in_column q → g q = g' q) → laid p st g c → laid p st g' c.
Proof. intros E [Hc Hg]. split; [done|]. intros q Hq. rewrite <- E by done. by apply Hg. Qed.

(** The positions of a box, in the order of the loops. *)
Definition cells (xs ys zs : list Z) : list (Z * (Z * Z)) := pairs ys (pairs zs xs).
Definition cell_position (at_ : Z → Z → Z → Position) (t : Z * (Z * Z)) : Position :=
  at_ t.2.2 t.1 t.2.1.

Lemma box_flat xs ys zs f c :
  box xs ys zs f c = for_each (cells xs ys zs) (λ t, f t.2.2 t.1 t.2.1) c.
Proof.
  unfold box, cells. etransitivity.
  - apply for_each_ext. intros y s. apply (for_each_nested zs xs (λ z x, f x y z)).
  - apply (for_each_nested ys (pairs zs xs) (λ y zx, f zx.2 y zx.1)).
Qed.

(** Loops each turn of which writes [target] where it is, or leaves what is
    already [target] there. *)
Lemma box_laid p st xs ys zs f h initial target :
  (∀ x y z g, x ∈ xs → y ∈ ys → z ∈ zs →
     let pos := h x y z in
     g pos = initial pos ∨ g pos = target pos →
     triple (laid p st g) (f x y z) (λ _, laid p st (λ q, if decide (q = pos) then target pos else g q))) →
  triple (laid p st initial) (box xs ys zs f)
    (λ _, laid p st (λ q, if decide (q ∈ cell_position h <$> cells xs ys zs) then target q
                          else initial q)).
Proof.
  clear HKB HKM. intros Hf. eapply triple_ext; [intros s; apply box_flat|].
  eapply triple_conseq.
  - apply (triple_for_each (λ done, laid p st (λ q,
      if decide (q ∈ cell_position h <$> done) then target q else initial q))).
    intros dn [y [z x]] rest Hl. cbn [fst snd].
    assert ((y, (z, x)) ∈ cells xs ys zs) as Hin by (rewrite Hl; set_solver).
    unfold cells in Hin. rewrite !elem_of_pairs in Hin. destruct Hin as (Hy & Hz & Hx).
    eapply triple_conseq; [apply Hf; [done..|]| |].
    2: { intros s Hs. exact Hs. }
    + cbv beta. case_decide; auto.
    + intros [] s. apply laid_ext. intros q _. cbv beta.
      assert (q ∈ cell_position h <$> (dn ++ [(y, (z, x))]) ↔
              q ∈ cell_position h <$> dn ∨ q = h x y z) as Eq
        by (rewrite fmap_app; cbn; set_solver).
      destruct (decide (q = h x y z)) as [Hq|]; [rewrite <- Hq|];
        destruct (decide (q ∈ cell_position h <$> dn));
        destruct (decide (q ∈ cell_position h <$> (dn ++ [(y, (z, x))]))); tauto || done.
  - intros s. apply laid_ext. intros q _. rewrite decide_False; [done|]. cbn. set_solver.
  - done.
Qed.

Lemma elem_of_cells xs ys zs h q :
  q ∈ cell_position h <$> cells xs ys zs ↔ ∃ x y z, x ∈ xs ∧ y ∈ ys ∧ z ∈ zs ∧ q = h x y z.
Proof.
  rewrite list_elem_of_fmap. unfold cells. split.
  - intros ([y [z x]] & -> & Hin). rewrite !elem_of_pairs in Hin. cbn. naive_solver.
  - intros (x & y & z & Hx & Hy & Hz & ->). exists (y, (z, x)). by rewrite !elem_of_pairs.
Qed.

(** One plane of writes, with the loops the other way round. *)
Lemma plane_laid p st l y g b :
  (∀ x z, x ∈ l → z ∈ l → in_column (mk_Position x y z)) → b ∈ KB →
  triple (laid p st g)
    (for_each l (λ x, for_each l (λ z, ChunkColumn_updateBlock (mk_Position x y z) b)))
    (λ _, laid p st (λ q, if decide (py q = y ∧ px q ∈ l ∧ pz q ∈ l) then b else g q)).
Proof.
  intros Hin Hb.
  eapply (triple_ext _ _ (box l [y] l (λ z y x, ChunkColumn_updateBlock (mk_Position x y z) b))).
  { intros s. unfold box. cbn [for_each]. unfold mbind, M_bind.
    by destruct (for_each l _ s) as [[[]| | |] s']. }
  eapply triple_conseq; [apply (box_laid p st _ _ _ _ (λ z y x, mk_Position x y z) g (λ _, b))| |].
  - intros z y' x g' Hz Hy Hx pos _. apply put_laid; [|done]. apply list_elem_of_singleton in Hy as ->.
    by apply Hin.
  - done.
  - intros [] s. apply laid_ext. intros q _. cbv beta.
    assert (q ∈ cell_position (λ z y x, mk_Position x y z) <$> cells l [y] l ↔
            py q = y ∧ px q ∈ l ∧ pz q ∈ l) as Eq.
    { rewrite elem_of_cells. split.
      - intros (z & y' & x & Hz & Hy & Hx & ->). apply list_elem_of_singleton in Hy as ->. done.
      - intros (<- & Hx & Hz). exists (pz q), (py q), (px q). destruct q. set_solver. }
    destruct (decide (_ ∈ _)), (decide (_ ∧ _)); tauto || done.
Qed.

(** ** The steps of the overworld *)

Context (generator : Generator).

Class GeneratorLaws : Prop := {
  generated_block : ∀ x y z, generator_getBlock generator x y z ∈ KB;
  generated_biome : ∀ x y z, generator_getBiome generator x y z ∈ KM;
  tree_room : ∀ p, generator_getTreeSize generator p 4 6 ≤ 6;
  tree_height : ∀ p, generator_getTreeSize generator p 4 7 ≤ 7
}.

Context `{GeneratorLaws}.

Definition block_ids : list Z :=
  [Blocks_Air; Blocks_Stone; Blocks_Bedrock; Blocks_Dirt; Blocks_GrassBlock; Blocks_Water;
   Blocks_Sand; Blocks_OakLog; Blocks_OakLeaves].
Context (HIDS : block_ids ⊆ KB).

Definition near (p : Position2D) : Prop :=
  - 2 ^ 26 ≤ p2x p < 2 ^ 26 ∧ - 2 ^ 26 ≤ p2z p < 2 ^ 26.

(** What the raw generation makes of a column. *)
Definition terrain (p : Position2D) (g : Position → Z) (q : Position) : Z :=
  if decide (py q = -64) then Blocks_Bedrock
  else if decide (py q < 320) then
    generator_getBlock generator (px q + p2x p * 16) (py q) (pz q + p2z p * 16)
  else g q.

Lemma raw_ok p st g :
  near p →
  triple (laid p st g) (_generateRawGeneration generator) (λ _, laid p RAW_GENERATION (terrain p g)).
Proof.
  intros [Hpx Hpz]. unfold _generateRawGeneration. change SECTION_WIDTH with 16.
  eapply triple_bind; [apply (box_laid p st _ _ _ _ mk_Position g
    (λ q, generator_getBlock generator (px q + p2x p * 16) (py q) (pz q + p2z p * 16)))|].
  - intros x y z g' Hx Hy Hz. apply elem_of_seqZ in Hx, Hy, Hz. cbn zeta. intros _ c Hc.
    unfold mbind, M_bind, gets, lift. pose proof Hc as ((_ & -> & _) & _).
    rewrite !world_coordinate_ok by lia. apply (put_laid p st g'); [|apply generated_block|done].
    change CHUNK_HEIGHT_MIN with (-64) in *. change CHUNK_HEIGHT with 384 in *.
    unfold in_column. cbn. lia.
  - intros []. eapply triple_bind.
    { apply (plane_laid p st (seqZ 0 16)); [|apply HIDS; set_solver].
      intros x z Hx Hz. apply elem_of_seqZ in Hx, Hz.
      unfold in_column, CHUNK_HEIGHT_MIN. cbn. lia. }
    intros []. eapply triple_bind.
    { apply triple_for_each_inv. intros y Hy. apply triple_for_each_inv. intros z Hz.
      apply triple_for_each_inv. intros x Hx. apply elem_of_seqZ in Hx, Hy, Hz.
      apply put_biome_laid; [|apply generated_biome].
      unfold in_biome_column, BIOME_SECTION_WIDTH in *. change BIOME_HEIGHT_MAX with 80 in *.
      change BIOME_HEIGHT_MIN with (-16). cbn. lia. }
    intros []. eapply triple_conseq; [apply enter_laid|done|].
    intros [] s. apply laid_ext. intros q Hq. cbv beta. unfold terrain, in_column in *.
    assert (Hrange : ∀ a, a ∈ seqZ 0 16 ↔ 0 ≤ a < 16) by (intros; rewrite elem_of_seqZ; lia).
    change (0 + CHUNK_HEIGHT_MIN) with (-64).
    destruct (decide (py q = -64));
      [by rewrite decide_True by (rewrite !Hrange; lia)|rewrite decide_False by tauto].
    assert (q ∈ cell_position mk_Position <$>
              cells (seqZ 0 16) (seqZ CHUNK_HEIGHT_MIN CHUNK_HEIGHT) (seqZ 0 16) ↔ py q < 320) as Eq.
    { rewrite elem_of_cells. change CHUNK_HEIGHT_MIN with (-64). change CHUNK_HEIGHT with 384. split.
      - intros (x & y & z & _ & Hy & _ & ->). apply elem_of_seqZ in Hy. cbn. lia.
      - intros Hlt. exists (px q), (py q), (pz q). rewrite !Hrange, elem_of_seqZ.
        destruct q. cbn in *. split_and!; (lia || done). }
    destruct (decide (_ ∈ _)), (decide (py q < 320)); tauto || done.
Qed.

(** Reading a block, in a step that only needs the invariant. *)
Lemma read_ok {A} p st pos (k : Z → M ChunkColumn A) Q :
  in_column pos → (∀ b, triple (column_at p st) (k b) Q) →
  triple (column_at p st) (c ← gets id; block ← lift (ChunkColumn_getBlock c pos); k block) Q.
Proof.
  intros Hp Hk c Hc. unfold mbind, M_bind, gets, lift, id. pose proof Hc as ((Hwf & _) & _).
  rewrite column_getBlock by done. by apply Hk.
Qed.

Lemma lakes_ok p st : triple (column_at p st) _generateLakes (λ _, column_at p LAKES).
Proof.
  unfold _generateLakes. apply (triple_seq (column_at p st)); [|apply enter_ok].
  apply triple_for_each_inv. intros z Hz. apply triple_for_each_inv. intros x Hx.
  apply triple_for_each_until. intros y Hy.
  rewrite elem_of_reverse in Hy. apply elem_of_seqZ in Hx, Hy, Hz. unfold SECTION_WIDTH in *.
  assert (in_column (mk_Position x y z)) as Hp by (unfold in_column; cbn; lia).
  apply read_ok; [done|]. intros b. case_decide; [by apply triple_ret|].
  eapply triple_bind; [apply put_ok; [done|apply HIDS; set_solver]|]. intros []. by apply triple_ret.
Qed.

Lemma heights_down_range from y : y ∈ heights_down from ↔ -64 ≤ y ≤ from.
Proof.
  unfold heights_down. rewrite elem_of_reverse, elem_of_seqZ. change CHUNK_HEIGHT_MIN with (-64). lia.
Qed.

Lemma grass_ok p st x z ys last :
  0 ≤ x < 16 → 0 ≤ z < 16 → (∀ y, y ∈ ys → -64 ≤ y < 336) →
  triple (column_at p st) (grass_column x z last ys) (λ _, column_at p st).
Proof.
  intros Hx Hz. revert last. induction ys as [|y ys IH]; intros last Hys; cbn [grass_column].
  - by apply triple_ret.
  - pose proof (Hys y ltac:(set_solver)) as Hy.
    assert (in_column (mk_Position x y z)) as Hp by (unfold in_column; cbn; lia).
    assert (Put : ∀ k b, 0 ≤ k ≤ 2 → CHUNK_HEIGHT_MIN ≤ y - k → b ∈ block_ids →
      triple (column_at p st) (ChunkColumn_updateBlock (mk_Position x (y - k) z) b) (λ _, column_at p st)).
    { intros k b Hk Hlow Hb. change CHUNK_HEIGHT_MIN with (-64) in Hlow.
      apply put_ok; [unfold in_column; cbn; lia|by apply HIDS]. }
    apply read_ok; [done|]. intros b.
    case_decide; [apply IH; set_solver|]. case_decide; [apply IH; set_solver|].
    case_decide; [apply put_ok; [done|apply HIDS; set_solver]|].
    case_decide; [|apply IH; set_solver].
    eapply triple_bind; [apply put_ok; [done|apply HIDS; set_solver]|]. intros [].
    eapply triple_bind; [case_decide; [apply Put; [lia|done|set_solver]|by apply triple_ret]|].
    intros []. case_decide; [apply Put; [lia|done|set_solver]|by apply triple_ret].
Qed.

Lemma local_modifications_ok p st :
  triple (column_at p st) _generateLocalModifications (λ _, column_at p LOCAL_MODIFICATIONS).
Proof.
  unfold _generateLocalModifications. apply (triple_seq (column_at p st)); [|apply enter_ok].
  apply triple_for_each_inv. intros z Hz. apply triple_for_each_inv. intros x Hx.
  apply elem_of_seqZ in Hx, Hz. unfold SECTION_WIDTH in *.
  apply grass_ok; [lia|lia|]. intros y Hy. apply heights_down_range in Hy.
  change CHUNK_HEIGHT_MAX with 320 in Hy. lia.
Qed.

(** ** Trees *)

(** Where a tree can stand. *)
Definition foot_ok (pos : Position) : Prop :=
  0 ≤ px pos < 16 ∧ -63 ≤ py pos ≤ 316 ∧ 0 ≤ pz pos < 16.

Definition trees_at (p : Position2D) (st : GenerationState) (t : OakTree) : Prop :=
  column_at p st (_chunk t) ∧ Forall foot_ok (_positions t).

Lemma tree_column_ok c x z ys :
  column_wf c → near (_chunkPos c) → 0 ≤ x < 16 → 0 ≤ z < 16 → (∀ y, y ∈ ys → -64 ≤ y ≤ 315) →
  ∃ o, tree_column generator c x z ys = Ok o ∧ Forall foot_ok (from_option (λ p, [p]) [] o).
Proof.
  intros Hc [Hnx Hnz] Hx Hz. induction ys as [|y ys IH]; intros Hys; cbn [tree_column].
  - exists None. split; [done|constructor].
  - pose proof (Hys y ltac:(set_solver)) as Hy.
    rewrite column_getBlock by (done || unfold in_column; cbn; lia). cbn [mbind result_bind].
    case_decide; [apply IH; set_solver|]. case_decide; [|exists None; by split].
    rewrite !world_coordinate_ok by done. cbn [mbind result_bind].
    destruct (_ && _); [|exists None; by split].
    eexists. split; [done|]. cbn. constructor; [|constructor]. unfold foot_ok. cbn. lia.
Qed.

Lemma positions_ok p st :
  near p → triple (trees_at p st) (getPosForTreeGeneration generator) (λ _, trees_at p st).
Proof.
  intros Hn. unfold getPosForTreeGeneration.
  apply triple_for_each_inv. intros z Hz. apply triple_for_each_inv. intros x Hx t (Hc & Ht).
  apply elem_of_seqZ in Hx, Hz. unfold SECTION_WIDTH in *. pose proof Hc as ((Hwf & _) & Ep & _).
  destruct (tree_column_ok (_chunk t) x z (heights_down (CHUNK_HEIGHT_MAX - 5)) Hwf)
    as (o & E & Ho); [by rewrite Ep|lia|lia| |].
  { intros y Hy. apply heights_down_range in Hy. change CHUNK_HEIGHT_MAX with 320 in Hy. lia. }
  unfold mbind, M_bind, gets, lift. rewrite E.
  eexists tt, _. split; [done|]. split; [done|]. cbn. by apply list.Forall_app.
Qed.

Lemma any_of_ok {X} (l : list X) (p : X → result bool) :
  (∀ x, x ∈ l → ∃ b, p x = Ok b) → ∃ b, any_of l p = Ok b.
Proof.
  induction l as [|x l IH]; intros H'; cbn [any_of]; [by eexists|].
  destruct (H' x ltac:(set_solver)) as [[] ->]; cbn; [by eexists|]. apply IH. set_solver.
Qed.

Lemma obstructed_ok c pos :
  column_wf c → foot_ok pos → ∃ b, tree_obstructed generator c pos = Ok b.
Proof.
  intros Hc (Hx & Hy & Hz). pose proof (tree_room pos) as Hr. unfold tree_obstructed.
  apply any_of_ok. intros y Hin. apply elem_of_seqZ in Hin.
  rewrite chk_i64_ok by (unfold is_s; lia). cbn [mbind result_bind].
  rewrite column_getBlock by (done || unfold in_column; cbn; lia). cbn [mbind result_bind].
  case_decide; [by eexists|].
  apply any_of_ok. intros x Hinx. apply any_of_ok. intros z Hinz. apply elem_of_seqZ in Hinx, Hinz.
  case_decide; [by eexists|].
  do 2 (rewrite chk_i64_ok by (unfold is_s; lia); cbn [mbind result_bind]).
  case_decide as Hout; [by eexists|]. unfold SECTION_WIDTH in Hout.
  rewrite column_getBlock by (done || unfold in_column; cbn; lia). by eexists.
Qed.

Lemma erase_if_ok p l :
  (∀ x, x ∈ l → ∃ b, p x = Ok b) →
  ∃ l', erase_if p l = Ok l' ∧ (length l' ≤ length l)%nat ∧ l' ⊆ l.
Proof.
  induction l as [|x l IH]; intros H'; cbn [erase_if]; [exists []; by split_and!|].
  destruct (H' x ltac:(set_solver)) as [b ->]. destruct IH as (l' & -> & Hl & Hs); [set_solver|].
  cbn [mbind result_bind]. destruct b; eexists; (split; [done|]); cbn; (split; [lia|set_solver]).
Qed.

(** The queue of positions is [l]. *)
Definition queue_at (p : Position2D) (st : GenerationState) (l : list Position) (t : OakTree) : Prop :=
  trees_at p st t ∧ _positions t = l.

Lemma filter_ok p st l :
  triple (queue_at p st l) (filterTreeGrowSpace generator)
    (λ _ t, queue_at p st (_positions t) t ∧ (length (_positions t) ≤ length l)%nat).
Proof.
  intros t ((Hc & Ht) & El). pose proof Hc as ((Hwf & _) & _).
  destruct (erase_if_ok (tree_obstructed generator (_chunk t)) (_positions t))
    as (l' & E & Hl & Hs).
  { intros pos Hin. apply obstructed_ok; [done|]. rewrite list.Forall_forall in Ht. by apply Ht. }
  unfold filterTreeGrowSpace, mbind, M_bind, gets, member, assign. rewrite E.
  eexists tt, _. split; [done|]. cbn. rewrite El in Hl. split; [|done]. split; [|done]. split; [done|].
  cbn. rewrite list.Forall_forall in Ht |- *. auto.
Qed.

(** The blocks of a tree lie around its foot. *)
Definition tree_block_ok (b : Position * Z) : Prop :=
  -2 ≤ px b.1 ≤ 2 ∧ 0 ≤ py b.1 ≤ 8 ∧ -2 ≤ pz b.1 ≤ 2 ∧ b.2 ∈ block_ids.

Lemma leaf_layer_ok r y skip b :
  r ≤ 2 → 0 ≤ y ≤ 8 → b ∈ leaf_layer r y skip → tree_block_ok b.
Proof.
  intros Hr Hy Hb. unfold leaf_layer in Hb. apply list_elem_of_bind in Hb as (x & Hb & Hx).
  apply list_elem_of_bind in Hb as (z & Hb & Hz). apply elem_of_seqZ in Hx, Hz.
  destruct (skip x z); [by apply not_elem_of_nil in Hb|]. apply list_elem_of_singleton in Hb as ->.
  unfold tree_block_ok. cbn [fst snd px py pz]. split_and!; (lia || set_solver).
Qed.

Lemma getTree_ok pos b : b ∈ getTree generator pos → tree_block_ok b.
Proof.
  pose proof (tree_height pos) as Hh. unfold getTree. intros Hb.
  apply list_elem_of_bind in Hb as (y & Hb & Hy). apply elem_of_seqZ in Hy.
  rewrite !elem_of_app in Hb. destruct Hb as [Hb|[Hb|Hb]]; case_decide;
    try (by apply not_elem_of_nil in Hb); [|eapply leaf_layer_ok, Hb; lia..].
  apply list_elem_of_singleton in Hb as ->. unfold tree_block_ok. cbn [fst snd px py pz].
  split_and!; (lia || set_solver).
Qed.

Lemma place_block_ok p st l foot b :
  foot_ok foot → tree_block_ok b →
  triple (queue_at p st l) (place_block foot b) (λ _, queue_at p st l).
Proof.
  intros (Hx & Hy & Hz) (Hbx & Hby & Hbz & Hb) t Ht. unfold place_block, mbind, M_bind, gets, lift.
  rewrite (chk_i64_ok (px foot + _)) by (unfold is_s; lia).
  rewrite (chk_i64_ok (pz foot + _)) by (unfold is_s; lia).
  case_decide as Hout; [by exists tt, t|]. unfold SECTION_WIDTH in Hout.
  rewrite chk_i64_ok by (unfold is_s; lia).
  assert (in_column (mk_Position (px foot + px b.1) (py foot + py b.1) (pz foot + pz b.1))) as Hp
    by (unfold in_column; cbn; lia).
  destruct Ht as ((Hc & Hf) & El). pose proof Hc as ((Hwf & _) & _).
  rewrite column_getBlock by done. case_decide; [by exists tt, t|].
  destruct (put_ok p st _ b.2 Hp (HIDS _ Hb) (_chunk t) Hc) as ([] & c' & E & Hc').
  unfold member. rewrite E. exists tt, (set_chunk c' t). done.
Qed.

Lemma generateTree_ok p st foot l :
  near p →
  triple (queue_at p st (foot :: l)) (generateTree generator) (λ _, queue_at p st l).
Proof.
  intros [Hnx Hnz] t Ht. unfold generateTree. pose proof Ht as ((Hc & Hf) & El).
  pose proof Hc as (_ & Echunk & _).
  rewrite El in Hf. apply list.Forall_cons in Hf as [Hfoot _].
  unfold mbind, M_bind, gets, lift. rewrite El, Echunk.
  rewrite !(chk_i32_ok (_ * SECTION_WIDTH)) by (unfold is_s, SECTION_WIDTH; lia).
  cbn [mbind result_bind]. unfold SECTION_WIDTH. destruct Hfoot as (Hx & Hy & Hz).
  rewrite !chk_i64_ok by (unfold is_s; lia).
  destruct (triple_for_each_inv (queue_at p st (foot :: l))
    (getTree generator (mk_Position (px foot + p2x p * 16) (py foot) (pz foot + p2z p * 16)))
    (place_block foot)) with t as ([] & t' & E & (Hc' & Hf') & El'); [|done|].
  { intros b Hb. apply place_block_ok; [done|]. by eapply getTree_ok. }
  rewrite E. eexists tt, _. split; [done|]. rewrite El' in Hf'.
  apply list.Forall_cons in Hf' as [_ Hf']. split; cbn; [|by rewrite El'].
  split; cbn; [done|by rewrite El'].
Qed.

(** Every turn of the loop takes a tree off the queue: fuel for one turn more than
    there are positions is enough. *)
Lemma generateTrees_ok p st n l :
  near p → (length l < n)%nat →
  triple (queue_at p st l) (generateTrees generator n) (λ _, trees_at p st).
Proof.
  intros Hnear. revert l. induction n as [|n IH]; intros l Hl; [lia|]. cbn [generateTrees].
  eapply triple_bind; [apply filter_ok|]. intros [] t [Ht Hlen]. cbv beta in *.
  unfold mbind, M_bind, gets. destruct (_positions t) as [|foot l'] eqn:E.
  - exists tt, t. split; [done|]. apply Ht.
  - destruct (generateTree_ok p st foot l' Hnear t Ht) as ([] & t' & -> & Ht').
    apply (IH l'); [cbn in Hlen; lia|done].
Qed.

Lemma vegetal_decoration_ok p st :
  near p → triple (column_at p st) (_generateVegetalDecoration generator)
             (λ _, column_at p VEGETAL_DECORATION).
Proof.
  intros Hn. unfold _generateVegetalDecoration.
  apply (triple_seq (column_at p st)); [|apply enter_ok]. intros c Hc.
  assert (triple (trees_at p st) (_ ← getPosForTreeGeneration generator; positions ← gets _positions;
            generateTrees generator (S (length positions))) (λ _, trees_at p st)) as T.
  { apply (triple_seq (trees_at p st)); [by apply positions_ok|]. intros t Ht.
    unfold mbind, M_bind, gets. apply (generateTrees_ok p st _ (_positions t)); [done|lia|by split]. }
  destruct (T (mk_OakTree c [])) as ([] & t & E & Ht & _); [by split; [|constructor]|].
  rewrite E. by exists tt, (_chunk t).
Qed.

(** ** The state machine *)

Definition next_state (st : GenerationState) : GenerationState :=
  match st with
  | INITIALIZED => RAW_GENERATION | RAW_GENERATION => LAKES | LAKES => LOCAL_MODIFICATIONS
  | LOCAL_MODIFICATIONS => UNDERGROUND_STRUCTURES | UNDERGROUND_STRUCTURES => SURFACE_STRUCTURES
  | SURFACE_STRUCTURES => STRONGHOLDS | STRONGHOLDS => UNDERGROUND_ORES
  | UNDERGROUND_ORES => UNDERGROUND_DECORATION | UNDERGROUND_DECORATION => FLUID_SPRINGS
  | FLUID_SPRINGS => VEGETAL_DECORATION | VEGETAL_DECORATION => TOP_LAYER_MODIFICATION
  | TOP_LAYER_MODIFICATION | READY => READY
  end.

Lemma overworld_step_ok p st :
  near p → triple (column_at p st) (overworld_step generator) (λ _, column_at p (next_state st)).
Proof.
  intros Hn c Hc. unfold overworld_step, mbind, M_bind, gets.
  pose proof Hc as (_ & _ & ->). destruct st; cbn [next_state];
    try (by apply (enter_ok p _ _ c Hc)).
  - destruct (raw_ok p INITIALIZED (column_block c) Hn c) as ([] & c' & E & Hc' & _); [by split|].
    by exists tt, c'.
  - by apply (lakes_ok p RAW_GENERATION).
  - by apply (local_modifications_ok p LAKES).
  - by apply (vegetal_decoration_ok p FLUID_SPRINGS).
  - by exists tt, c.
Qed.

Lemma overworld_loop_turn fuel goal c c' :
  GenerationState_code (_currentState c) < GenerationState_code goal →
  overworld_step generator c = (Ok tt, c') →
  overworld_loop generator (S fuel) goal c = overworld_loop generator fuel goal c'.
Proof.
  intros Hlt E. cbn [overworld_loop]. unfold mbind, M_bind, gets. rewrite decide_True by done.
  by rewrite E.
Qed.

Lemma overworld_loop_done fuel goal c :
  GenerationState_code goal ≤ GenerationState_code (_currentState c) →
  overworld_loop generator (S fuel) goal c = (Ok tt, c).
Proof.
  intros Hle. cbn [overworld_loop]. unfold mbind, M_bind, gets. by rewrite decide_False by lia.
Qed.

Lemma overworld_loop_ok p fuel st goal :
  near p → Z.max 0 (GenerationState_code goal - GenerationState_code st) < Z.of_nat fuel →
  triple (column_at p st) (overworld_loop generator fuel goal)
    (λ _, column_at p (if decide (GenerationState_code st < GenerationState_code goal) then goal else st)).
Proof.
  intros Hn. revert st. induction fuel as [|fuel IH]; intros st Hf c Hc; [lia|].
  pose proof Hc as (_ & _ & Es).
  case_decide as Hlt; [|exists tt, c; split; [apply overworld_loop_done; rewrite Es; lia|done]].
  destruct (overworld_step_ok p st Hn c Hc) as ([] & c' & E & Hc').
  rewrite (overworld_loop_turn fuel goal c c') by (by rewrite ?Es).
  assert (GenerationState_code (next_state st) = GenerationState_code st + 1) as Hnext
    by (destruct st, goal; cbn in *; lia || done).
  destruct (IH (next_state st) ltac:(lia) c' Hc') as (a & c'' & E' & Hc'').
  exists a, c''. split; [done|]. case_decide as Hd; [done|].
  replace goal with (next_state st); [done|]. rewrite Hnext in Hd.
  assert (GenerationState_code goal = GenerationState_code (next_state st)) as Hg by lia.
  by destruct st, goal.
Qed.

(** The first step alone. *)
Lemma overworld_raw_ok p g :
  near p →
  triple (laid p INITIALIZED g) (_generateOverworld generator RAW_GENERATION)
    (λ _, laid p RAW_GENERATION (terrain p g)).
Proof.
  intros Hn c Hc. destruct (raw_ok p INITIALIZED g Hn c Hc) as ([] & c' & E & Hc').
  pose proof Hc as ((_ & _ & Es) & _). pose proof Hc' as ((_ & _ & Es') & _).
  exists tt, c'. split; [|done]. unfold _generateOverworld.
  rewrite (overworld_loop_turn 12 _ c c'); [|by rewrite Es|].
  - apply overworld_loop_done. by rewrite Es'.
  - unfold overworld_step, mbind, M_bind, gets. by rewrite Es.
Qed.
End Laws.
