(* ===== verification/GenerationProps.v ===== *)
(** * Properties of the generation *)

From S2P Require Import Prelude Types State Nbt DynamicStorage Palette Section StorageLaws SectionLaws ChunkColumn ChunkLaws ChunkGeneration GenerationLaws.

(** The last step of [generate] lights every section. *)
Lemma recalculate_column KB KM c :
  column_inv KB KM c →
  let c' := ChunkColumn_recalculateSkyLight c in
  column_inv KB KM c' ∧ (∀ q, column_block c' q = column_block c q) ∧
  (∀ q, in_column q → ChunkColumn_getSkyLight c' q = Ok 15).
Proof.
  intros [[Hl Hw] Hd]. cbn zeta. rewrite list.Forall_forall in Hw, Hd.
  assert (column_wf (ChunkColumn_recalculateSkyLight c)) as Hwf.
  { split; cbn; [by rewrite length_fmap|]. apply Forall_fmap, list.Forall_forall.
    intros s Hs. by apply recalculateSkyLight_ok, Hw. }
  split_and!; [split; [exact Hwf|]| |].
  - cbn. apply Forall_fmap, list.Forall_forall. intros s Hs.
    destruct (recalculateSkyLight_ok s (Hw s Hs)) as (_ & _ & _ & _ & E1 & E2).
    destruct (Hd s Hs). split; cbn; congruence.
  - intros q. unfold column_block. cbn. rewrite list_lookup_fmap.
    destruct (_sections c !! section_of q) as [s|] eqn:Es; [|done]. cbn.
    apply recalculateSkyLight_ok, Hw. by eapply list_elem_of_lookup_2.
  - intros q Hq. pose proof (section_of_range q Hq) as Hr.
    destruct (lookup_lt_is_Some_2 (_sections c) (section_of q)) as [s Hs]; [lia|].
    pose proof (Hw s ltac:(by eapply list_elem_of_lookup_2)) as Hws.
    destruct (recalculateSkyLight_ok s Hws) as (Hws' & Hsky & _).
    unfold ChunkColumn_getSkyLight, sections_at. rewrite getSectionIndex_ok by done.
    cbn [mbind result_bind]. rewrite Nat2Z.id. cbn [ChunkColumn_recalculateSkyLight set_sections _sections].
    rewrite list_lookup_fmap, Hs. cbn [fmap option_fmap option_map mbind result_bind].
    rewrite block_in_section_ok by done. cbn [mbind result_bind].
    rewrite getSkyLight_at by (done || by apply local_in_section).
    by rewrite Hsky by by apply local_in_section.
Qed.

(** C9: generating a column of the overworld always finishes, without an
    exception and within the fuel, whatever the noise: from a new column, for any
    goal, [generate] leaves a well-formed column in exactly the goal state, with
    full sky light everywhere.  The trees in particular use up their queue. *)
Theorem ChunkColumn_generate_overworld `{BlockIds} (generator : Generator) (KB KM : list Z)
    (p : Position2D) (goal : GenerationState) (debug : Z) :
  zlen KB ≤ 2 ^ 15 → zlen KM ≤ 8 → GeneratorLaws KB KM generator → 0 :: block_ids ⊆ KB → 0 ∈ KM →
  near p →
  ∃ c c', ChunkColumn_make p = Ok c ∧
    ChunkColumn_generate generator WorldType_DEFAULT DimensionType_OVERWORLD goal (debug, c) =
      (Ok tt, (debug, c')) ∧
    column_wf c' ∧ _currentState c' = goal ∧ _chunkPos c' = p ∧
    ∀ q, in_column q → ChunkColumn_getSkyLight c' q = Ok 15.
Proof.
  intros HKB HKM Hlaws HB HM Hn.
  destruct (column_make KB KM p) as (c & Ec & Hc & Ep & Es & _); [set_solver..|].
  destruct (overworld_loop_ok KB KM HKB HKM generator ltac:(set_solver) p 13 INITIALIZED goal)
    with c as ([] & c1 & E & Hc1 & Ep1 & Es1); [done|destruct goal; cbn; lia|done|].
  exists c, (ChunkColumn_recalculateSkyLight c1). destruct (recalculate_column KB KM c1 Hc1) as ([Hw _] & _ & Hsky).
  split_and!; [done| |exact Hw| |exact Ep1|exact Hsky].
  - unfold ChunkColumn_generate, _generateOverworld, member, mbind, M_bind. cbn [snd fst]. by rewrite E.
  - cbn. rewrite Es1. by destruct goal.
Qed.

(** Some identifiers of the blocks, and a generator of a flat landscape with trees
    everywhere. *)
Definition example_ids : BlockIds := mk_BlockIds 0 1 79 10 9 80 112 131 238.
Definition example_generator : Generator :=
  mk_Generator (λ _ y _, if decide (y < 100) then 1 else 0) (λ x _ _, x mod 2)
    (λ _ _ _, 5) (λ _ _ _, true) (λ x _ z, bool_decide ((x + z) mod 5 = 0)).

Lemma example_generator_laws :
  @GeneratorLaws (0 :: @block_ids example_ids) [0; 1] example_generator.
Proof.
  constructor; intros; cbn; try lia.
  - case_decide; set_solver.
  - assert (x mod 2 = 0 ∨ x mod 2 = 1) as [-> | ->] by div_lia; set_solver.
Qed.

Lemma ChunkColumn_generate_overworld_witness :
  zlen (0 :: @block_ids example_ids) ≤ 2 ^ 15 ∧ zlen [0; 1] ≤ 8 ∧
  @GeneratorLaws (0 :: @block_ids example_ids) [0; 1] example_generator ∧
  0 :: @block_ids example_ids ⊆ 0 :: @block_ids example_ids ∧ 0 ∈ [0; 1] ∧
  near (mk_Position2D (-3) 7) ∧
  ∃ c c', ChunkColumn_make (mk_Position2D (-3) 7) = Ok c ∧
    @ChunkColumn_generate example_ids example_generator WorldType_DEFAULT DimensionType_OVERWORLD READY
      (0, c) = (Ok tt, (0, c')) ∧
    column_wf c' ∧ _currentState c' = READY ∧ _chunkPos c' = mk_Position2D (-3) 7 ∧
    ∀ q, in_column q → ChunkColumn_getSkyLight c' q = Ok 15.
Proof.
  assert (zlen (0 :: @block_ids example_ids) ≤ 2 ^ 15) as H1 by (by vm_compute).
  assert (zlen [0; 1] ≤ 8) as H2 by (by vm_compute).
  assert (0 :: @block_ids example_ids ⊆ 0 :: @block_ids example_ids) as H3 by done.
  assert (0 ∈ [0; 1]) as H4 by set_solver.
  assert (near (mk_Position2D (-3) 7)) as H5 by (unfold near; cbn; lia).
  split; [exact H1|]. split; [exact H2|]. split; [exact example_generator_laws|].
  split; [exact H3|]. split; [exact H4|]. split; [exact H5|].
  exact (@ChunkColumn_generate_overworld example_ids example_generator _ _ _ READY 0
           H1 H2 example_generator_laws H3 H4 H5).
Defined.

(** The raw terrain is the generator's: after the first step the block at a
    position of the world is what the generator gives for its world coordinates,
    with bedrock at the bottom and air above the height limit. *)
Theorem ChunkColumn_generate_terrain `{BlockIds} (generator : Generator) (KB KM : list Z)
    (p : Position2D) (debug : Z) :
  zlen KB ≤ 2 ^ 15 → zlen KM ≤ 8 → GeneratorLaws KB KM generator → 0 :: block_ids ⊆ KB → 0 ∈ KM →
  near p →
  ∃ c c', ChunkColumn_make p = Ok c ∧
    ChunkColumn_generate generator WorldType_DEFAULT DimensionType_OVERWORLD RAW_GENERATION (debug, c) =
      (Ok tt, (debug, c')) ∧
    ∀ q, in_column q → ChunkColumn_getBlock c' q = Ok (
      if decide (py q = -64) then Blocks_Bedrock
      else if decide (py q < 320) then
        generator_getBlock generator (px q + p2x p * 16) (py q) (pz q + p2z p * 16)
      else 0).
Proof.
  intros HKB HKM Hlaws HB HM Hn.
  destruct (column_make KB KM p) as (c & Ec & Hc & Ep & Es & Hair & _); [set_solver..|].
  destruct (overworld_raw_ok KB KM HKB HKM generator ltac:(set_solver) p (λ _, 0) Hn c)
    as ([] & c1 & E & (Hc1 & _ & Es1) & Hg); [by split|].
  exists c, (ChunkColumn_recalculateSkyLight c1).
  destruct (recalculate_column KB KM c1 Hc1) as ([Hw _] & Hb & _).
  split_and!; [done| |].
  - unfold ChunkColumn_generate, member, mbind, M_bind. cbn [snd fst]. by rewrite E.
  - intros q Hq. rewrite column_getBlock, Hb, Hg by done. done.
Qed.

Lemma ChunkColumn_generate_terrain_witness :
  zlen (0 :: @block_ids example_ids) ≤ 2 ^ 15 ∧ zlen [0; 1] ≤ 8 ∧
  @GeneratorLaws (0 :: @block_ids example_ids) [0; 1] example_generator ∧
  0 :: @block_ids example_ids ⊆ 0 :: @block_ids example_ids ∧ 0 ∈ [0; 1] ∧
  near (mk_Position2D 2 2) ∧
  ∃ c c', ChunkColumn_make (mk_Position2D 2 2) = Ok c ∧
    @ChunkColumn_generate example_ids example_generator WorldType_DEFAULT DimensionType_OVERWORLD
      RAW_GENERATION (0, c) = (Ok tt, (0, c')) ∧
    ∀ q, in_column q → ChunkColumn_getBlock c' q = Ok (
      if decide (py q = -64) then @Blocks_Bedrock example_ids
      else if decide (py q < 320) then
        generator_getBlock example_generator (px q + p2x (mk_Position2D 2 2) * 16) (py q)
          (pz q + p2z (mk_Position2D 2 2) * 16)
      else 0).
Proof.
  assert (zlen (0 :: @block_ids example_ids) ≤ 2 ^ 15) as H1 by (by vm_compute).
  assert (zlen [0; 1] ≤ 8) as H2 by (by vm_compute).
  assert (0 :: @block_ids example_ids ⊆ 0 :: @block_ids example_ids) as H3 by done.
  assert (0 ∈ [0; 1]) as H4 by set_solver.
  assert (near (mk_Position2D 2 2)) as H5 by (unfold near; cbn; lia).
  split; [exact H1|]. split; [exact H2|]. split; [exact example_generator_laws|].
  split; [exact H3|]. split; [exact H4|]. split; [exact H5|].
  exact (@ChunkColumn_generate_terrain example_ids example_generator _ _ _ 0
           H1 H2 example_generator_laws H3 H4 H5).
Defined.

(** The flat world is four layers: bedrock, two of dirt, and grass, under air
    up to the top of the column, at every position and for every goal. *)
Theorem ChunkColumn_generate_flat `{BlockIds} (generator : Generator) (p : Position2D)
    (dimension : DimensionType) (goal : GenerationState) (debug : Z) :
  ∃ c c', ChunkColumn_make p = Ok c ∧
    ChunkColumn_generate generator WorldType_SUPERFLAT dimension goal (debug, c) =
      (Ok tt, (debug, c')) ∧
    _currentState c' = READY ∧
    ∀ q, in_column q → ChunkColumn_getBlock c' q = Ok (
      if decide (py q = -64) then Blocks_Bedrock
      else if decide (-63 ≤ py q ≤ -62) then Blocks_Dirt
      else if decide (py q = -61) then Blocks_GrassBlock
      else 0).
Proof.
  set (KB := 0 :: block_ids).
  assert (zlen KB ≤ 2 ^ 15) as HKB by done. assert (zlen [0] ≤ 8) as HKM by done.
  destruct (column_make KB [0] p) as (c & Ec & Hc & Ep & Es & Hair & _); [set_solver..|].
  set (layer q := if decide (py q = -64) then Blocks_Bedrock
      else if decide (-63 ≤ py q ≤ -62) then Blocks_Dirt
      else if decide (py q = -61) then Blocks_GrassBlock else 0).
  assert (T : triple (laid KB [0] p INITIALIZED (λ _, 0)) (_generateFlat goal) (λ _, laid KB [0] p READY layer)).
  { eapply triple_bind; [apply (box_laid KB [0] p INITIALIZED _ _ _ _
      (λ x y z, mk_Position x (y + CHUNK_HEIGHT_MIN) z) (λ _, 0) layer)|].
    - intros x y z g Hx Hy Hz pos Hg. apply elem_of_seqZ in Hx, Hy, Hz.
      unfold SECTION_WIDTH in *. change CHUNK_HEIGHT_MIN with (-64) in *.
      assert (in_column pos) as Hin by (unfold pos, in_column; cbn; lia).
      unfold flat_layer. cbv zeta. change (y + CHUNK_HEIGHT_MIN) with (y + -64).
      repeat (case_decide;
        [replace (layer pos) with (layer (mk_Position x (y + -64) z)) by done;
         unfold layer at 1; cbn [py];
         (eapply triple_conseq; [apply (put_laid KB [0] HKB p INITIALIZED g pos); [done|set_solver]|done|]);
         intros [] s; apply laid_ext; intros q _; case_decide; [|done]; unfold layer, pos; cbn [py];
         repeat case_decide; (done || lia)|]).
      apply triple_ret. intros s. apply laid_ext. intros q _. case_decide as Hq; [|done]. subst q.
      assert (layer pos = 0) as -> by (unfold layer, pos; cbn [py]; repeat case_decide; (done || lia)).
      destruct Hg as [-> | ->]; [done|].
      unfold layer, pos; cbn [py]; repeat case_decide; (done || lia).
    - intros []. eapply triple_conseq; [apply enter_laid|done|]. intros [] s. apply laid_ext.
      intros q (Hx & Hy & Hz). cbv beta. case_decide as Hcell; [done|].
      unfold layer. repeat case_decide; try done; exfalso; apply Hcell, elem_of_cells;
        exists (px q), (py q + 64), (pz q); rewrite !elem_of_seqZ; unfold SECTION_WIDTH;
        change CHUNK_HEIGHT_MIN with (-64); destruct q; cbn in *; (split_and!; try lia); f_equal; lia. }
  destruct (T c) as ([] & c1 & E & (Hc1 & _ & Es1) & Hg); [by split|].
  exists c, (ChunkColumn_recalculateSkyLight c1).
  destruct (recalculate_column KB [0] c1 Hc1) as ([Hw _] & Hb & _).
  split_and!; [done| |done|].
  - unfold ChunkColumn_generate, member, mbind, M_bind. cbn [snd fst]. by rewrite E.
  - intros q Hq. rewrite column_getBlock, Hb, Hg by done. done.
Qed.
