(* ===== verification/Terrain.v ===== *)
(** * The terrain of the overworld (generation/generator.cpp, generation/overworld.cpp)

    The generator behind the interface of [ChunkGeneration]: the noise with its cache, the
    choice of a block, of a biome and of the size of a tree, in the arithmetic of
    [double]s.  The Perlin noise comes from a library, and is a parameter with the range
    that it documents. *)

From S2P Require Import Prelude State Types Floats Nbt DynamicStorage Palette Section ChunkColumn ChunkGeneration GenerationLaws GenerationProps.

(** [siv::PerlinNoise], made with a seed: [octave2D_11], [octave3D_11]. *)
Class PerlinNoise : Type := mk_PerlinNoise {
  octave2D_11 : Z → double → double → Z → double;
  octave3D_11 : Z → double → double → double → Z → double
}.

(** A [double] between -1 and 1. *)
Definition in_unit (f : double) : Prop :=
  canonical f ∧ SFleb (double_of_Z (-1)) f = true ∧ SFleb f (double_of_Z 1) = true.

(** "The noise value in the range [-1, 1]" *)
Class NoiseRange `{PerlinNoise} : Prop := {
  octave2D_range : ∀ seed x y octaves, in_unit (octave2D_11 seed x y octaves);
  octave3D_range : ∀ seed x y z octaves, in_unit (octave3D_11 seed x y z octaves)
}.

(** ** Noise

    The members that nothing sets or reads are left out: erosion, peaksAndValley and
    humidity. *)

Record GenerationNoise2D : Type := mk_GenerationNoise2D {
  continentalness : double; weirdness : double; trees : double
}.
Record GenerationNoise3D : Type := mk_GenerationNoise3D { temperature : double; density : double }.
Record GenerationNoise : Type := mk_GenerationNoise {
  noise2D : GenerationNoise2D; noise3D : GenerationNoise3D
}.

(** [_noiseCache]: by x, then z, then y. *)
Abbreviation NoiseCache := (gmap Z (gmap Z (GenerationNoise2D * gmap Z GenerationNoise3D))).

(** [_noiseCache[x][z]], which makes what is missing. *)
Definition noiseCache_at (x z : Z) (c : NoiseCache) : GenerationNoise2D * gmap Z GenerationNoise3D :=
  let zero := S754_zero false in
  default (mk_GenerationNoise2D zero zero zero, ∅) (c !! x ≫= (!!) z).
Definition noiseCache_set (x z : Z) v (c : NoiseCache) : NoiseCache :=
  <[x := <[z := v]> (default ∅ (c !! x))]> c.

Definition isCached2D (x z : Z) (c : NoiseCache) : bool :=
  bool_decide (is_Some (c !! x ≫= (!!) z)).
Definition isCached (x y z : Z) (c : NoiseCache) : bool :=
  isCached2D x z c && bool_decide (is_Some ((noiseCache_at x z c).2 !! y)).

(** [_noiseCache[x][z].second[y]] *)
Definition noise3D_at (x y z : Z) (c : NoiseCache) : GenerationNoise3D :=
  let zero := S754_zero false in
  default (mk_GenerationNoise3D zero zero) ((noiseCache_at x z c).2 !! y).

Section Overworld.
Context `{PerlinNoise} (seed : Z).

Definition half : double := double_lit 5 10.

Definition getNoise (x y z : Z) (frequency : double) (octaves : Z) : M NoiseCache GenerationNoise :=
  cached ← gets (isCached x y z);
  if cached : bool then
    gets (λ c, mk_GenerationNoise (noiseCache_at x z c).1 (noise3D_at x y z c))
  else
    let x' := dmul (double_of_Z x) frequency in
    let y' := dmul (double_of_Z y) frequency in
    let z' := dmul (double_of_Z z) frequency in
    let noise3 := mk_GenerationNoise3D (octave3D_11 seed x' z' y' octaves) (octave3D_11 seed x' z' y' octaves) in
    is2DCached ← gets (isCached2D x z);
    _ ← modify (λ c, let v := noiseCache_at x z c in noiseCache_set x z (v.1, <[y := noise3]> v.2) c);
    if is2DCached : bool then
      gets (λ c, mk_GenerationNoise (noiseCache_at x z c).1 noise3)
    else
      let noise2 := mk_GenerationNoise2D (octave2D_11 seed x' z' octaves) (octave2D_11 seed x' z' octaves)
        (octave2D_11 seed (dmul (double_of_Z x) half) (dmul (double_of_Z z) half) 1) in
      _ ← modify (λ c, noiseCache_set x z (noise2, (noiseCache_at x z c).2) c);
      gets (λ c, mk_GenerationNoise noise2 (noise3D_at x y z c)).

(** The default arguments. *)
Definition default_frequency : double := double_lit 2 100.
Definition default_octaves : Z := 3.
Definition Overworld_getNoise (x y z : Z) : M NoiseCache GenerationNoise :=
  getNoise x y z default_frequency default_octaves.

(** ** Blocks, biomes and trees *)

Definition heightOffset : Z := 100.

(** [int surfaceLevel = heightOffset + noise.noise2D.continentalness * 20] *)
Definition surfaceLevel (continentalness : double) : result Z :=
  to_int32 (dadd (double_of_Z heightOffset) (dmul continentalness (double_of_Z 20))).

Definition scale_density (y : Z) (density : double) : double :=
  let more := double_lit 15 10 in
  let density := if decide (70 ≤ y) then dmul density more else density in
  let density := if decide (80 ≤ y) then dmul density more else density in
  let density := if decide (90 ≤ y) then dmul density more else density in
  if decide (100 ≤ y) then dmul density (double_of_Z 100) else density.

(** [lo <= density && density <= hi] *)
Definition is_between (lo hi density : double) : bool := SFleb lo density && SFleb density hi.
Definition is_cave (density : double) : bool := is_between (SFopp (double_lit 15 100)) (double_lit 5 100) density.
Definition is_repaired (density : double) : bool := is_between (SFopp (double_lit 4 10)) (double_lit 4 10) density.

Context `{BlockIds}.

Definition block_of_noise (y surface : Z) (density : double) : Z :=
  let blockId := if decide (y < surface) then Blocks_Stone else Blocks_Air in
  let blockId := if bool_decide (blockId = Blocks_Stone) && is_cave (scale_density y density)
    then Blocks_Air else blockId in
  if bool_decide (blockId = Blocks_Air) && is_repaired density && bool_decide (y < surface) &&
     bool_decide (heightOffset - 10 < y)
  then Blocks_Stone else blockId.

Definition Overworld_getBlock (x y z : Z) : M NoiseCache Z :=
  noise ← Overworld_getNoise x y z;
  surface ← lift (surfaceLevel (continentalness (noise2D noise)));
  mret (block_of_noise y surface (density (noise3D noise))).

Definition Overworld_getBiome (x y z : Z) : M NoiseCache Z :=
  noise ← Overworld_getNoise x y z;
  mret (if SFltb (double_of_Z 0) (weirdness (noise2D noise)) then 0 else 1).

Definition Overworld_getTreeSize (pos : Position) (sizeMin sizeMax : Z) : M NoiseCache Z :=
  noise ← Overworld_getNoise (px pos) (py pos) (pz pos);
  lift (to_int32 (dadd (dmul (temperature (noise3D noise)) (double_of_Z (sizeMax - sizeMin))) (double_of_Z sizeMin))).

(** [getNoise(...).noise3D.density > 0], [getNoise(...).noise2D.trees > 0.4] *)
Definition Overworld_isDense (x y z : Z) : M NoiseCache bool :=
  noise ← Overworld_getNoise x y z; mret (SFltb (double_of_Z 0) (density (noise3D noise))).
Definition Overworld_hasTrees (x y z : Z) : M NoiseCache bool :=
  noise ← Overworld_getNoise x y z; mret (SFltb (double_lit 4 10) (trees (noise2D noise))).

(** What a new generator answers to its first question. *)
Definition first_answer {A} (d : A) (p : M NoiseCache A) : A :=
  match (p ∅).1 with Ok a => a | _ => d end.
Definition overworld_generator : Generator := {|
  generator_getBlock x y z := first_answer 0 (Overworld_getBlock x y z);
  generator_getBiome x y z := first_answer 0 (Overworld_getBiome x y z);
  generator_getTreeSize pos sizeMin sizeMax := first_answer 0 (Overworld_getTreeSize pos sizeMin sizeMax);
  generator_isDense x y z := first_answer false (Overworld_isDense x y z);
  generator_hasTrees x y z := first_answer false (Overworld_hasTrees x y z)
|}.
End Overworld.

(** ** The cache *)

Section Cache.
Context `{PerlinNoise} (seed : Z) (frequency : double) (octaves : Z).

(** The noise at a position, computed anew. *)
Definition noise3_of (x y z : Z) : GenerationNoise3D :=
  let n := octave3D_11 seed (dmul (double_of_Z x) frequency) (dmul (double_of_Z z) frequency)
    (dmul (double_of_Z y) frequency) octaves in
  mk_GenerationNoise3D n n.
Definition noise2_of (x z : Z) : GenerationNoise2D :=
  let n := octave2D_11 seed (dmul (double_of_Z x) frequency) (dmul (double_of_Z z) frequency) octaves in
  mk_GenerationNoise2D n n (octave2D_11 seed (dmul (double_of_Z x) half) (dmul (double_of_Z z) half) 1).
Definition noise_of (x y z : Z) : GenerationNoise := mk_GenerationNoise (noise2_of x z) (noise3_of x y z).

Definition cell_ok (x z : Z) (v : GenerationNoise2D * gmap Z GenerationNoise3D) : Prop :=
  v.1 = noise2_of x z ∧ map_Forall (λ y n, n = noise3_of x y z) v.2.
(** The cache holds what would be computed. *)
Definition cache_ok (c : NoiseCache) : Prop := map_Forall (λ x row, map_Forall (cell_ok x) row) c.

Lemma cache_ok_empty : cache_ok ∅.
Proof. apply map_Forall_empty. Qed.

Lemma cache_ok_set x z v c : cache_ok c → cell_ok x z v → cache_ok (noiseCache_set x z v c).
Proof.
  intros Hc Hv. apply map_Forall_insert_2; [|done]. apply map_Forall_insert_2; [done|].
  destruct (c !! x) as [row|] eqn:E; [by apply (Hc x)|apply map_Forall_empty].
Qed.

Lemma cache_cell x z c v : cache_ok c → c !! x ≫= (!!) z = Some v → cell_ok x z v.
Proof. intros Hc Hv. apply bind_Some in Hv as (row & Hx & Hz). by apply (Hc x row Hx). Qed.

Lemma noiseCache_at_set x z v c : noiseCache_at x z (noiseCache_set x z v c) = v.
Proof. unfold noiseCache_at, noiseCache_set. rewrite lookup_insert_eq. cbn. by rewrite lookup_insert_eq. Qed.
Lemma noiseCache_set_set x z v v' c :
  noiseCache_set x z v' (noiseCache_set x z v c) = noiseCache_set x z v' c.
Proof.
  unfold noiseCache_set. rewrite lookup_insert_eq. cbn. by rewrite !insert_insert_eq.
Qed.

Lemma noiseCache_at_cell x z c v : c !! x ≫= (!!) z = Some v → noiseCache_at x z c = v.
Proof. unfold noiseCache_at. by intros ->. Qed.
Lemma isCached2D_true x z c v : c !! x ≫= (!!) z = Some v → isCached2D x z c = true.
Proof. unfold isCached2D. by intros ->. Qed.
Lemma isCached2D_false x z c : c !! x ≫= (!!) z = None → isCached2D x z c = false.
Proof. unfold isCached2D. by intros ->. Qed.

(** What the cache answers and what it stores is what would be computed. *)
Lemma getNoise_ok x y z :
  triple cache_ok (getNoise seed x y z frequency octaves) (λ n c, n = noise_of x y z ∧ cache_ok c).
Proof.
  intros c Hc. unfold getNoise, gets, modify, mbind, M_bind, isCached, noise3D_at.
  destruct (c !! x ≫= (!!) z) as [[n2 m]|] eqn:E.
  - destruct (cache_cell x z c _ Hc E) as [En Hm]. cbn [fst snd] in En, Hm. subst n2.
    rewrite (isCached2D_true x z c _ E), (noiseCache_at_cell x z c _ E). cbn [fst snd andb].
    case_bool_decide as Hy; [destruct Hy as [n3 Hy]|].
    + eexists _, _. split; [done|]. split; [|done].
      rewrite (noiseCache_at_cell x z c _ E). cbn [fst snd]. by rewrite Hy, (Hm y n3 Hy).
    + rewrite (isCached2D_true x z c _ E). eexists _, _. split; [done|].
      rewrite (noiseCache_at_cell x z c _ E), noiseCache_at_set. split; [done|]. apply cache_ok_set; [done|].
      split; [done|]. by apply map_Forall_insert_2.
  - rewrite (isCached2D_false x z c E). cbn [andb]. rewrite (isCached2D_false x z c E). eexists _, _. split; [done|].
    rewrite !noiseCache_at_set, noiseCache_set_set. cbn [fst snd].
    assert (Hn : noiseCache_at x z c = (mk_GenerationNoise2D (S754_zero false) (S754_zero false) (S754_zero false), ∅)).
    { unfold noiseCache_at. by rewrite E. }
    rewrite Hn. cbn [snd]. rewrite lookup_insert_eq. split; [done|]. apply cache_ok_set; [done|].
    split; [done|]. apply map_Forall_insert_2; [done|apply map_Forall_empty].
Qed.
End Cache.

(** ** The arithmetic *)

Lemma in_unit_between f : in_unit f → between 0 (-1) 1 f.
Proof. intros (Hf & Hlo & Hhi). by apply unit_between. Qed.

(** [f * n + m] for a noise and two whole numbers. *)
Lemma affine_between f n m :
  in_unit f → 0 ≤ n ≤ 2 ^ 32 → - 2 ^ 32 ≤ m ≤ 2 ^ 32 →
  between 0 (m - n) (m + n) (dadd (dmul f (double_of_Z n)) (double_of_Z m)).
Proof.
  intros Hf Hn Hm. apply in_unit_between in Hf.
  assert (Hmul : between (0 + 0) (- n) n (dmul f (double_of_Z n))).
  { apply (dmul_between 0 0 (-1) 1 n n); try done; try lia. apply double_of_Z_between; lia. }
  apply (between_mono 0 (- n + m) (n + m)); [|lia|lia].
  apply dadd_between; [lia|done|apply double_of_Z_between; lia|lia|lia].
Qed.

Lemma to_int32_between f lo hi :
  between 0 lo hi f → - 2 ^ 31 ≤ lo → hi < 2 ^ 31 → ∃ z, to_int32 f = Ok z ∧ lo ≤ z ≤ hi.
Proof.
  intros Hf Hlo Hhi. destruct (trunc_between lo hi f Hf) as (z & Hz & Hb). exists z. split; [|done].
  apply to_integer_ok. split; [done|]. unfold is_s. lia.
Qed.

Lemma surfaceLevel_ok f : in_unit f → ∃ h, surfaceLevel f = Ok h ∧ 80 ≤ h ≤ 120.
Proof.
  intros Hf. apply (to_int32_between _ 80 120); [|lia|lia]. apply in_unit_between in Hf.
  assert (Hmul : between (0 + 0) (-20) 20 (dmul f (double_of_Z 20))).
  { apply (dmul_between 0 0 (-1) 1 20 20); try done; lia. }
  apply (dadd_between 0 100 100 (-20) 20); [lia|apply (double_of_Z_between 100); lia|done|lia|lia].
Qed.

(** Multiplying a number that is away from zero with a number from one to [N] keeps it
    away from it. *)
Lemma dmul_above k hi N f g :
  0 ≤ k ≤ 1000 → 1 ≤ hi → 1 ≤ N → hi * N < 2 ^ 53 → between k 1 hi f → between 0 1 N g →
  between k 1 (hi * N) (dmul f g).
Proof.
  intros Hk Hhi HN Hb Hf Hg. replace k with (k + 0) by lia.
  apply (dmul_between k 0 1 hi 1 N); try done; nia.
Qed.
Lemma dmul_below k lo N f g :
  0 ≤ k ≤ 1000 → lo ≤ -1 → 1 ≤ N → - 2 ^ 53 < lo * N → between k lo (-1) f → between 0 1 N g →
  between k (lo * N) (-1) (dmul f g).
Proof.
  intros Hk Hlo HN Hb Hf Hg. replace k with (k + 0) by lia.
  apply (dmul_between k 0 lo (-1) 1 N); try done; nia.
Qed.

Lemma more_between : between 0 1 2 (double_lit 15 10).
Proof. by vm_compute. Qed.
Lemma hundred_between : between 0 1 100 (double_of_Z 100).
Proof. by vm_compute. Qed.

Lemma scale_canonical y f : canonical f → canonical (scale_density y f).
Proof. intros Hf. unfold scale_density. repeat case_decide; auto using dmul_canonical. Qed.

(** What holds of a number up to a bound, and of its products up to larger ones. *)
Lemma scale_induction (P : Z → double → Prop) y f :
  (∀ b b' f, P b f → b ≤ b' → P b' f) →
  (∀ b f, 1 ≤ b ≤ 16 → P b f → P (b * 2) (dmul f (double_lit 15 10))) →
  (∀ f, P 32 f → P 3200 (dmul f (double_of_Z 100))) →
  P 4 f → P 3200 (scale_density y f).
Proof.
  intros Hmono Hmore Hhundred Hf. unfold scale_density.
  assert (Hstep : ∀ b f (c : Prop) `{Decision c}, 1 ≤ b ≤ 16 → P b f →
    P (b * 2) (if decide c then dmul f (double_lit 15 10) else f)).
  { intros b f' c ? Hb Hp. case_decide; [by apply Hmore|]. apply (Hmono b); [done|lia]. }
  case_decide; [apply Hhundred|apply (Hmono 32); [|lia]]; 
    (refine (Hstep 16 _ (90 ≤ y) _ _ _); [done|]); (refine (Hstep 8 _ (80 ≤ y) _ _ _); [done|]);
    by refine (Hstep 4 _ (70 ≤ y) _ _ _).
Qed.

(** The density grows away from zero with the height. *)
Lemma scale_above y f : between 2 1 4 f → between 2 1 3200 (scale_density y f).
Proof.
  apply (scale_induction (between 2 1)).
  - intros b b' g Hg Hb. by apply (between_mono 2 1 b).
  - intros b g Hb Hg. apply (dmul_above 2 b 2); auto using more_between with lia.
  - intros g Hg. apply (dmul_above 2 32 100); auto using hundred_between with lia.
Qed.
Lemma scale_below y f : between 2 (-4) (-1) f → between 2 (-3200) (-1) (scale_density y f).
Proof.
  apply (scale_induction (λ b, between 2 (- b) (-1))).
  - intros b b' g Hg Hb. apply (between_mono 2 (- b) (-1)); [done|lia|lia].
  - intros b g Hb Hg. replace (- (b * 2)) with (- b * 2) by lia.
    apply (dmul_below 2 (- b) 2); auto using more_between with lia.
  - intros g Hg. apply (dmul_below 2 (-32) 100); auto using hundred_between with lia.
Qed.

Lemma literal_15 : double_lit 15 100 = S754_finite false 5404319552844595 (-55).
Proof. by vm_compute. Qed.
Lemma literal_5 : double_lit 5 100 = S754_finite false 7205759403792794 (-57).
Proof. by vm_compute. Qed.
Lemma literal_4 : double_lit 4 10 = S754_finite false 7205759403792794 (-54).
Proof. by vm_compute. Qed.

(** Where the ground is near, a cave is repaired. *)
Lemma cave_repaired y f : in_unit f → is_cave (scale_density y f) = true → is_repaired f = true.
Proof.
  intros Hf Hc. destruct (is_repaired f) eqn:Hr; [done|]. exfalso.
  pose proof (in_unit_between f Hf) as Hu. destruct Hf as [Hcan _].
  pose proof (scale_canonical y f Hcan) as Hs.
  unfold is_repaired, is_cave, is_between in *. apply andb_true_iff in Hc as [Hlo Hhi].
  rewrite ?literal_15, ?literal_5, ?literal_4 in *. cbn [SFopp negb] in *.
  apply andb_false_iff in Hr as [Hr|Hr].
  - apply unit_below with (k := 2), scale_below with (y := y) in Hr; [|done..].
    by rewrite (below_literal 2 (-3200) (-1)) in Hlo.
  - apply unit_above with (k := 2), scale_above with (y := y) in Hr; [|done..].
    by rewrite (above_literal 2 1 3200) in Hhi.
Qed.

(** ** The answers *)

Section Laws.
Context `{NoiseRange} (seed : Z) `{BlockIds}.

(** The block at a height, for a height of the ground. *)
Lemma block_of_noise_profile y h f :
  in_unit f →
  block_of_noise y h f =
    if decide (y < h) then
      if bool_decide (y ≤ heightOffset - 10) && is_cave (scale_density y f) then Blocks_Air else Blocks_Stone
    else Blocks_Air.
Proof.
  intros Hf. unfold block_of_noise. pose proof (cave_repaired y f Hf) as Hr. revert Hr.
  generalize (is_cave (scale_density y f)) (is_repaired f). intros cave repaired Hr.
  rewrite (bool_decide_decide (y < h)), (bool_decide_decide (heightOffset - 10 < y)),
    (bool_decide_decide (y ≤ heightOffset - 10)).
  destruct (decide (y < h)), (decide (heightOffset - 10 < y)), (decide (y ≤ heightOffset - 10)); try lia;
    (destruct cave; [rewrite Hr by done|]); rewrite ?andb_true_r, ?andb_false_r; cbn [andb];
    repeat case_bool_decide; cbn [andb]; try congruence; by destruct repaired.
Qed.

Abbreviation ok := (cache_ok seed default_frequency default_octaves).
Abbreviation noise := (noise_of seed default_frequency default_octaves).

(** [p] answers [a] whatever has been cached. *)
Definition answers {A} (p : M NoiseCache A) (a : A) : Prop := triple ok p (λ r c, r = a ∧ ok c).

Lemma answers_noise {A} x y z (k : GenerationNoise → M NoiseCache A) a :
  (∀ c, k (noise x y z) c = (Ok a, c)) → answers (n ← Overworld_getNoise seed x y z; k n) a.
Proof.
  intros Hk. eapply triple_bind; [apply getNoise_ok|]. intros n c [-> Hc]. exists a, c. by rewrite Hk.
Qed.

Lemma answers_first {A} (d : A) p a : answers p a → first_answer d p = a.
Proof.
  intros Hp. destruct (Hp ∅) as (r & c & E & -> & _); [apply cache_ok_empty|]. unfold first_answer. by rewrite E.
Qed.

Lemma noise3_unit x y z : in_unit (density (noise3D (noise x y z))).
Proof. apply octave3D_range. Qed.

(** The height of the ground at a place. *)
Definition ground (x z : Z) : Z :=
  match surfaceLevel (continentalness (noise2_of seed default_frequency default_octaves x z)) with Ok h => h | _ => 0 end.
Lemma ground_ok x z :
  surfaceLevel (continentalness (noise2_of seed default_frequency default_octaves x z)) = Ok (ground x z) ∧
  80 ≤ ground x z ≤ 120.
Proof.
  unfold ground. destruct (surfaceLevel_ok _ (octave2D_range seed (dmul (double_of_Z x) default_frequency)
    (dmul (double_of_Z z) default_frequency) default_octaves)) as (h & Eh & Hh).
  cbn [noise2_of continentalness]. by rewrite Eh.
Qed.

Lemma getBlock_answers x y z :
  answers (Overworld_getBlock seed x y z) (block_of_noise y (ground x z) (density (noise3D (noise x y z)))).
Proof.
  apply answers_noise. intros c. destruct (ground_ok x z) as [Eh _]. cbn [noise_of noise2D].
  by rewrite Eh.
Qed.

Lemma getTreeSize_answers pos a b :
  0 ≤ b - a → - 2 ^ 29 ≤ a → b < 2 ^ 30 →
  ∃ n, answers (Overworld_getTreeSize seed pos a b) n ∧ 2 * a - b ≤ n ≤ b.
Proof.
  intros Hab Ha Hb. pose proof (octave3D_range seed (dmul (double_of_Z (px pos)) default_frequency)
    (dmul (double_of_Z (pz pos)) default_frequency) (dmul (double_of_Z (py pos)) default_frequency) default_octaves) as Hu.
  destruct (to_int32_between _ _ _ (affine_between _ (b - a) a Hu ltac:(lia) ltac:(lia))) as (n & En & Hn); [lia|lia|].
  exists n. split; [|lia]. apply answers_noise. intros c. cbn [noise_of noise3D noise3_of temperature].
  unfold lift. by rewrite En.
Qed.

(** The steps of the generation may rely on this generator. *)
Lemma overworld_generator_laws KB KM :
  Blocks_Air ∈ KB → Blocks_Stone ∈ KB → 0 ∈ KM → 1 ∈ KM → GeneratorLaws KB KM (overworld_generator seed).
Proof.
  intros Hair Hstone Hwarm Hcold. split.
  - intros x y z. cbn [generator_getBlock overworld_generator]. erewrite answers_first by apply getBlock_answers.
    rewrite block_of_noise_profile by apply noise3_unit. repeat case_match; done.
  - intros x y z. cbn [generator_getBiome overworld_generator]. unfold Overworld_getBiome.
    erewrite answers_first by (apply answers_noise; done). by case_match.
  - intros pos. destruct (getTreeSize_answers pos 4 6) as (n & Hn & Hb); [lia..|].
    cbn [generator_getTreeSize overworld_generator]. rewrite (answers_first _ _ _ Hn). lia.
  - intros pos. destruct (getTreeSize_answers pos 4 7) as (n & Hn & Hb); [lia..|].
    cbn [generator_getTreeSize overworld_generator]. rewrite (answers_first _ _ _ Hn). lia.
Qed.
End Laws.

(** ** Properties *)

(** What a generator is asked. *)
Inductive Question : Type :=
| Q_block (x y z : Z)
| Q_biome (x y z : Z)
| Q_treeSize (pos : Position) (sizeMin sizeMax : Z)
| Q_dense (x y z : Z)
| Q_trees (x y z : Z).

Definition ask `{PerlinNoise} `{BlockIds} (seed : Z) (q : Question) : M NoiseCache (Z + bool) :=
  match q with
  | Q_block x y z => n ← Overworld_getBlock seed x y z; mret (inl n)
  | Q_biome x y z => n ← Overworld_getBiome seed x y z; mret (inl n)
  | Q_treeSize pos a b => n ← Overworld_getTreeSize seed pos a b; mret (inl n)
  | Q_dense x y z => b ← Overworld_isDense seed x y z; mret (inr b)
  | Q_trees x y z => b ← Overworld_hasTrees seed x y z; mret (inr b)
  end.
(** The interface's answer. *)
Definition answer (g : Generator) (q : Question) : Z + bool :=
  match q with
  | Q_block x y z => inl (generator_getBlock g x y z)
  | Q_biome x y z => inl (generator_getBiome g x y z)
  | Q_treeSize pos a b => inl (generator_getTreeSize g pos a b)
  | Q_dense x y z => inr (generator_isDense g x y z)
  | Q_trees x y z => inr (generator_hasTrees g x y z)
  end.
(** Tree sizes in their order, and far from the bounds of [int]. *)
Definition sensible (q : Question) : Prop :=
  match q with Q_treeSize _ a b => - 2 ^ 29 ≤ a ≤ b ∧ b < 2 ^ 30 | _ => True end.

(** One question after another. *)
Fixpoint ask_all `{PerlinNoise} `{BlockIds} (seed : Z) (qs : list Question) : M NoiseCache (list (Z + bool)) :=
  match qs with
  | [] => mret []
  | q :: qs => a ← ask seed q; l ← ask_all seed qs; mret (a :: l)
  end.

Lemma answers_bind {A B} `{PerlinNoise} seed (p : M NoiseCache A) (d a : A) (f : A → B) :
  answers seed p a → answers seed (n ← p; mret (f n)) (f (first_answer d p)).
Proof.
  intros Hp. rewrite (answers_first seed d p a Hp). eapply triple_bind; [exact Hp|].
  intros n. apply triple_ret. by intros c [-> Hc].
Qed.

Lemma ask_answers `{NoiseRange} `{BlockIds} seed q :
  sensible q → answers seed (ask seed q) (answer (overworld_generator seed) q).
Proof.
  intros Hq. destruct q as [x y z|x y z|pos a b|x y z|x y z]; cbn [ask answer overworld_generator
    generator_getBlock generator_getBiome generator_getTreeSize generator_isDense generator_hasTrees].
  - eapply answers_bind, getBlock_answers.
  - eapply answers_bind, answers_noise. done.
  - destruct (getTreeSize_answers seed pos a b) as (n & Hn & _); [cbn in Hq; lia..|]. by eapply answers_bind.
  - eapply answers_bind, answers_noise. done.
  - eapply answers_bind, answers_noise. done.
Qed.

(** C40: the cache of the noise cannot be seen.  A generator that has been asked any questions,
    in any order, answers the next ones as a new one would, and none of its answers depends on what
    was stored; none of them fails either, since every conversion of a [double] to an
    [int] is in range. *)
Theorem noise_cache_transparent `{NoiseRange} `{BlockIds} seed qs :
  Forall sensible qs →
  ∃ c, ask_all seed qs ∅ = (Ok (answer (overworld_generator seed) <$> qs), c).
Proof.
  intros Hqs. assert (Hc : cache_ok seed default_frequency default_octaves ∅) by apply cache_ok_empty.
  revert Hc. generalize (∅ : NoiseCache). induction Hqs as [|q qs Hq _ IH]; intros c Hc; cbn [ask_all]; [by exists c|].
  destruct (ask_answers seed q Hq c Hc) as (a & c1 & E & -> & Hc1). destruct (IH c1 Hc1) as [c2 E2].
  exists c2. rewrite (bind_run_ok _ _ _ _ _ E). by rewrite (bind_run_ok _ _ _ _ _ E2).
Qed.

(** A library whose noise is nowhere. *)
Definition example_noise : PerlinNoise := mk_PerlinNoise (λ _ _ _ _, S754_zero false) (λ _ _ _ _ _, S754_zero false).
Lemma example_noise_range : @NoiseRange example_noise.
Proof. by split. Qed.

Lemma noise_cache_transparent_witness :
  Forall sensible [Q_block 3 64 (-5); Q_treeSize (mk_Position 0 0 0) 4 7; Q_block 3 64 (-5); Q_dense 3 64 (-5)] ∧
  ∃ c, @ask_all example_noise example_ids 42
      [Q_block 3 64 (-5); Q_treeSize (mk_Position 0 0 0) 4 7; Q_block 3 64 (-5); Q_dense 3 64 (-5)] ∅ =
    (Ok (answer (@overworld_generator example_noise 42 example_ids) <$>
      [Q_block 3 64 (-5); Q_treeSize (mk_Position 0 0 0) 4 7; Q_block 3 64 (-5); Q_dense 3 64 (-5)]), c).
Proof.
  assert (Hqs : Forall sensible [Q_block 3 64 (-5); Q_treeSize (mk_Position 0 0 0) 4 7; Q_block 3 64 (-5); Q_dense 3 64 (-5)])
    by (repeat constructor; cbn; lia).
  split; [exact Hqs|]. exact (@noise_cache_transparent example_noise example_noise_range example_ids 42 _ Hqs).
Defined.

(** Whether the noise leaves a hole at a height. *)
Definition cave_at `{PerlinNoise} (seed x y z : Z) : bool :=
  is_cave (scale_density y (density (noise3_of seed default_frequency default_octaves x y z))).

(** C39: the ground of the overworld.  In a column that got its raw terrain, over the
    bedrock, every place has a height of the ground between 80 and 120, under
    which there is stone with caves and above which there is air only; and above the
    height of 90 no cave opens the ground, because the noise of every cave there is in the
    range that is repaired, however the products of [double]s are rounded. *)
Theorem overworld_terrain `{NoiseRange} `{BlockIds} (seed : Z) (KB KM : list Z) (p : Position2D) (debug : Z) :
  zlen KB ≤ 2 ^ 15 → zlen KM ≤ 8 → 0 :: block_ids ⊆ KB → [0; 1] ⊆ KM → near p →
  ∃ c c', ChunkColumn_make p = Ok c ∧
    ChunkColumn_generate (overworld_generator seed) WorldType_DEFAULT DimensionType_OVERWORLD RAW_GENERATION
      (debug, c) = (Ok tt, (debug, c')) ∧
    ∀ x z, 0 ≤ x < 16 → 0 ≤ z < 16 → ∃ h, 80 ≤ h ≤ 120 ∧
      ∀ y, -64 ≤ y < 320 → ChunkColumn_getBlock c' (mk_Position x y z) = Ok (
        if decide (y = -64) then Blocks_Bedrock
        else if decide (h ≤ y) then Blocks_Air
        else if bool_decide (y ≤ 90) && cave_at seed (x + p2x p * 16) y (z + p2z p * 16) then Blocks_Air
        else Blocks_Stone).
Proof.
  intros HKB HKM HB HM Hp.
  destruct (ChunkColumn_generate_terrain (overworld_generator seed) KB KM p debug) as (c & c' & Ec & Eg & Hb);
    [done|done|apply overworld_generator_laws; set_solver|done|set_solver|done|].
  exists c, c'. split_and!; [done|done|]. intros x z Hx Hz.
  set (wx := x + p2x p * 16). set (wz := z + p2z p * 16).
  exists (ground seed wx wz). split; [apply ground_ok|]. intros y Hy.
  rewrite Hb by (repeat split; cbn; lia). cbn [px py pz]. f_equal. case_decide; [done|].
  rewrite decide_True by lia. cbn [generator_getBlock overworld_generator].
  erewrite (answers_first seed) by apply getBlock_answers. fold wx wz.
  rewrite block_of_noise_profile by apply noise3_unit. unfold cave_at.
  change (heightOffset - 10) with 90. repeat case_decide; try lia; done.
Qed.

Lemma overworld_terrain_witness :
  zlen (0 :: @block_ids example_ids) ≤ 2 ^ 15 ∧ zlen [0; 1] ≤ 8 ∧
  0 :: @block_ids example_ids ⊆ 0 :: @block_ids example_ids ∧ [0; 1] ⊆ [0; 1] ∧ near (mk_Position2D 2 2) ∧
  ∃ c c', ChunkColumn_make (mk_Position2D 2 2) = Ok c ∧
    @ChunkColumn_generate example_ids (@overworld_generator example_noise 42 example_ids) WorldType_DEFAULT
      DimensionType_OVERWORLD RAW_GENERATION (0, c) = (Ok tt, (0, c')) ∧
    ∀ x z, 0 ≤ x < 16 → 0 ≤ z < 16 → ∃ h, 80 ≤ h ≤ 120 ∧
      ∀ y, -64 ≤ y < 320 → ChunkColumn_getBlock c' (mk_Position x y z) = Ok (
        if decide (y = -64) then @Blocks_Bedrock example_ids
        else if decide (h ≤ y) then @Blocks_Air example_ids
        else if bool_decide (y ≤ 90) && @cave_at example_noise 42 (x + p2x (mk_Position2D 2 2) * 16) y
            (z + p2z (mk_Position2D 2 2) * 16) then @Blocks_Air example_ids
        else @Blocks_Stone example_ids).
Proof.
  assert (H1 : zlen (0 :: @block_ids example_ids) ≤ 2 ^ 15) by by vm_compute.
  assert (H2 : zlen [0; 1] ≤ 8) by by vm_compute.
  assert (H3 : 0 :: @block_ids example_ids ⊆ 0 :: @block_ids example_ids) by done.
  assert (H4 : [0; 1] ⊆ [0; 1]) by done.
  assert (H5 : near (mk_Position2D 2 2)) by (unfold near; cbn; lia).
  split_and!; [exact H1|exact H2|exact H3|exact H4|exact H5|].
  exact (@overworld_terrain example_noise example_noise_range example_ids 42 _ _ _ 0 H1 H2 H3 H4 H5).
Defined.

(** A tree may be smaller than the least size that was asked for: the noise may be
    negative.  Where it is -1, an oak of 4 to 7 blocks has one. *)
Lemma small_tree :
  let low : PerlinNoise := mk_PerlinNoise (λ _ _ _ _, double_of_Z (-1)) (λ _ _ _ _ _, double_of_Z (-1)) in
  @NoiseRange low ∧
  ∀ seed pos, @answers low seed _ (@Overworld_getTreeSize low seed pos 4 7) 1.
Proof.
  intros low. split; [by split|]. intros seed pos. by apply answers_noise.
Qed.
