(* ===== verification/Level.v ===== *)
(** * The level (world_storage/Level.hpp, Level.cpp) and block updates of a
      dimension (Dimension.cpp)

    A level is the map from chunk positions to columns.  Its two mutexes make
    each operation atomic and are not part of the state. *)

From S2P Require Import Prelude Types State Nbt DynamicStorage Palette Section ChunkColumn.

(** ** Positions of chunks and regions *)

(** [x < 0 ? -1 + int64_t((x + 1) / 16) : int64_t(x / 16)], as [int]. *)
Definition transformBlockPosToChunkPos (x : Z) : Z :=
  to_i32 (if decide (x < 0) then -1 + Z.quot (x + 1) 16 else Z.quot x 16).
Definition transformChunkPosToRegionPos (x : Z) : Z :=
  to_i32 (if decide (x < 0) then -1 + Z.quot (x + 1) 32 else Z.quot x 32).

(** ** The level *)

Abbreviation Level := (gmap Position2D ChunkColumn).

(** [emplace] does not replace a column that is there; [at] then finds one. *)
Definition Level_addChunkColumn (pos : Position2D) (chunkColumn : ChunkColumn) (l : Level) : Level :=
  match l !! pos with Some _ => l | None => <[pos := chunkColumn]> l end.

Definition Level_hasChunkColumn (l : Level) (pos : Position2D) : bool :=
  match l !! pos with Some c => ChunkColumn_isReady c | None => false end.

Definition Level_getChunkColumn (l : Level) (pos : Position2D) : result ChunkColumn :=
  match l !! pos with Some c => Ok c | None => Throw std_out_of_range end.

Definition chunk_pos_of_block (x z : Z) : Position2D :=
  mk_Position2D (transformBlockPosToChunkPos x) (transformBlockPosToChunkPos z).

Definition Level_getChunkColumnFromBlockPos (l : Level) (x z : Z) : result ChunkColumn :=
  Level_getChunkColumn l (chunk_pos_of_block x z).

Definition Level_removeChunkColumn (pos : Position2D) (l : Level) : Level := delete pos l.
Definition Level_clear (l : Level) : Level := ∅.

(** A method of the column that [getChunkColumn] returns a reference to. *)
Definition column_member {A} (pos : Position2D) (p : M ChunkColumn A) : M Level A := λ l,
  match l !! pos with
  | Some c => let '(r, c') := p c in (r, <[pos := c']> l)
  | None => (Throw std_out_of_range, l)
  end.

(** ** Blocks of the world *)

(** [auto x = position.x % 16; if (x < 0) x += 16;] *)
Definition positive_rem16 (x : Z) : Z :=
  let r := Z.rem x 16 in if decide (r < 0) then r + 16 else r.

(** The changes of [Dimension::updateBlock] to the level; what it then sends to
    the players of the dimension is the position and the block. *)
Definition Dimension_updateBlock (position : Position) (id : Z) : M Level unit :=
  column_member (chunk_pos_of_block (to_i32 (px position)) (to_i32 (pz position)))
    (ChunkColumn_updateBlock
       (mk_Position (positive_rem16 (px position)) (py position) (positive_rem16 (pz position))) id).
