(* ===== verification/LevelProps.v ===== *)
(** * Properties of the level *)

From S2P Require Import Prelude Types State Nbt DynamicStorage Palette Section StorageLaws SectionLaws ChunkColumn ChunkLaws ChunkProps Level.

Lemma block_to_chunk_floor x : is_s 32 x → transformBlockPosToChunkPos x = x / 16.
Proof.
  unfold is_s. intros Hx. unfold transformBlockPosToChunkPos, to_i32.
  case_decide; rewrite wrap_s_id by (unfold is_s; div_lia); div_lia.
Qed.

Lemma positive_rem16_mod x : positive_rem16 x = x mod 16.
Proof. unfold positive_rem16. case_decide; div_lia. Qed.

(** Chunk and region coordinates are floor divisions, below zero as well. *)
Theorem transform_positions_floor (x : Z) :
  is_s 32 x →
  transformBlockPosToChunkPos x = x / 16 ∧ transformChunkPosToRegionPos x = x / 32.
Proof.
  intros Hx. split; [by apply block_to_chunk_floor|].
  unfold is_s in Hx. unfold transformChunkPosToRegionPos, to_i32.
  case_decide; rewrite wrap_s_id by (unfold is_s; div_lia); div_lia.
Qed.

Lemma transform_positions_floor_witness :
  is_s 32 (-17) ∧
  (transformBlockPosToChunkPos (-17) = -17 / 16 ∧ transformChunkPosToRegionPos (-17) = -17 / 32).
Proof.
  assert (is_s 32 (-17)) as H by (unfold is_s; lia).
  split; [exact H|exact (transform_positions_floor (-17) H)].
Defined.

(** The positions of the world, and the block at one of them. *)
Definition in_world (pos : Position) : Prop :=
  is_s 32 (px pos) ∧ -64 ≤ py pos < 336 ∧ is_s 32 (pz pos).

Definition chunk_of (pos : Position) : Position2D := mk_Position2D (px pos / 16) (pz pos / 16).
Definition within_chunk (pos : Position) : Position :=
  mk_Position (px pos mod 16) (py pos) (pz pos mod 16).

Lemma within_chunk_in pos : in_world pos → in_column (within_chunk pos).
Proof. unfold in_world, in_column, within_chunk. cbn. intros. div_lia. Qed.

Lemma world_inj p q : chunk_of p = chunk_of q → within_chunk p = within_chunk q → p = q.
Proof.
  destruct p, q. unfold chunk_of, within_chunk. cbn. intros E1 E2.
  injection E1 as Ex Ez. injection E2 as Ex' Ey Ez'. f_equal; [div_lia|done|div_lia].
Qed.

Definition level_block (l : Level) (pos : Position) : result Z :=
  c ← Level_getChunkColumnFromBlockPos l (px pos) (pz pos);
  ChunkColumn_getBlock c (within_chunk pos).

Lemma level_block_at l pos :
  in_world pos →
  level_block l pos = match l !! chunk_of pos with
                      | Some c => ChunkColumn_getBlock c (within_chunk pos)
                      | None => Throw std_out_of_range
                      end.
Proof.
  intros (Hx & _ & Hz). unfold level_block, Level_getChunkColumnFromBlockPos, Level_getChunkColumn,
    chunk_pos_of_block, chunk_of. rewrite !block_to_chunk_floor by done. by destruct (l !! _).
Qed.

(** C8: a block update of the world changes one block: the column that holds the
    position is found whatever the signs of its coordinates, and every other
    position of the world keeps its block.  Without a column there, the update
    throws [std::out_of_range] and changes nothing. *)
Theorem Dimension_updateBlock_world (l : Level) (pos : Position) (b : Z) :
  in_world pos →
  (∀ p c, l !! p = Some c → column_wf c ∧
     ∀ s, s ∈ _sections c → zlen (_blockPalette s) < 2 ^ 15) →
  match l !! chunk_of pos with
  | None => Dimension_updateBlock pos b l = (Throw std_out_of_range, l)
  | Some _ => ∃ l', Dimension_updateBlock pos b l = (Ok tt, l') ∧
      ∀ q, in_world q → level_block l' q = if decide (q = pos) then Ok b else level_block l q
  end.
Proof.
  intros Hp Hl. pose proof Hp as (Hx & Hy & Hz).
  assert (Dimension_updateBlock pos b = column_member (chunk_of pos) (ChunkColumn_updateBlock (within_chunk pos) b)) as ->.
  { unfold Dimension_updateBlock, chunk_pos_of_block, chunk_of, within_chunk, to_i32.
    rewrite !wrap_s_id, !block_to_chunk_floor, !positive_rem16_mod by done. done. }
  unfold column_member. destruct (l !! chunk_of pos) as [c|] eqn:Ec; [|done].
  destruct (Hl _ _ Ec) as [Hc Hpal]. pose proof (within_chunk_in pos Hp) as Hin.
  destruct (column_section c (section_of (within_chunk pos)) Hc) as (s & Hs & _);
    [by apply section_of_range|].
  destruct (column_updateBlock c (within_chunk pos) b s Hc Hin Hs) as (s' & E & Hc' & Hq & _).
  { pose proof (add_length_le b (_blockPalette s)).
    pose proof (Hpal s ltac:(by eapply list_elem_of_lookup_2)). lia. }
  cbn zeta in *. rewrite E. eexists. split; [done|]. intros q Hqw. rewrite !level_block_at by done.
  destruct (decide (chunk_of q = chunk_of pos)) as [Eq|Ne].
  - rewrite Eq, lookup_insert_eq, Ec.
    rewrite !column_getBlock, Hq by (done || by apply within_chunk_in).
    destruct (decide (q = pos)) as [->|Hne]; [by rewrite decide_True|].
    rewrite decide_False; [done|]. intros Ew. by apply Hne, world_inj.
  - rewrite lookup_insert_ne by done. rewrite decide_False; [done|]. by intros ->.
Qed.

Lemma Dimension_updateBlock_world_witness :
  let l := {[ mk_Position2D (-1) 0 := column_example ]} : Level in
  let pos := mk_Position (-5) 70 3 in
  in_world pos ∧
  (∀ p c, l !! p = Some c → column_wf c ∧ ∀ s, s ∈ _sections c → zlen (_blockPalette s) < 2 ^ 15) ∧
  match l !! chunk_of pos with
  | None => Dimension_updateBlock pos 7 l = (Throw std_out_of_range, l)
  | Some _ => ∃ l', Dimension_updateBlock pos 7 l = (Ok tt, l') ∧
      ∀ q, in_world q → level_block l' q = if decide (q = pos) then Ok 7 else level_block l q
  end.
Proof.
  intros l pos.
  assert (in_world pos) as H1 by (unfold in_world, is_s; cbn; lia).
  assert (∀ p c, l !! p = Some c → column_wf c ∧
    ∀ s, s ∈ _sections c → zlen (_blockPalette s) < 2 ^ 15) as H2.
  { intros p c Hp. apply lookup_singleton_Some in Hp as [_ <-].
    destruct column_example_inv as [Hw Hd]. split; [exact Hw|]. intros s Hs.
    rewrite list.Forall_forall in Hd. destruct (Hd s Hs) as [Hb _].
    pose proof (drawn_length [0] _ Hb) as Hlen. change (zlen [0]) with 1 in Hlen. lia. }
  split; [exact H1|]. split; [exact H2|].
  exact (Dimension_updateBlock_world l pos 7 H1 H2).
Defined.
