(* ===== verification/Persistence.v ===== *)
(** * The saved world (world_storage/Persistence.hpp, Persistence.cpp, LevelData.hpp,
      PlayerData.hpp, default/Overworld.cpp)

    A world is a folder: level.dat, a file for each player, and the regions, each of
    thirty-two by thirty-two columns.  Tags are read by a third-party library: a file
    of tags is the tree it is read as, and a tag of a compound is found by its name.
    An [assert] that fails stops the program, and leaves it undefined when assertions
    are compiled out. *)

From stdpp Require Import pretty.
From S2P Require Import Prelude State Types Codec Pop Nbt DynamicStorage Palette Section ChunkColumn Level BlockStates.

(** The files that exist, and the library: [nbt_parse] with [NBT_PARSE_FLAG_USE_ZLIB],
    and a null. *)
Class Storage := {
  loadFile : string → option (list Z);
  lib_nbt_parse : list Z → option nbt_Base
}.

(** ** Tags *)

(** [nbt_tag_compound_get] on a compound. *)
Definition compound_get (value : list nbt_Base) (name : string) : option nbt_Base := nbt_getValue value name.

Definition assert_some {A} (o : option A) : result A :=
  match o with Some a => Ok a | None => UB FailedAssertion end.
(** The [GET_VALUE] macros, and their longer forms. *)
Definition as_byte t := match t with nbt_Byte _ v => Some v | _ => None end.
Definition as_short t := match t with nbt_Short _ v => Some v | _ => None end.
Definition as_int t := match t with nbt_Int _ v => Some v | _ => None end.
Definition as_long t := match t with nbt_Long _ v => Some v | _ => None end.
Definition as_float t := match t with nbt_Float _ v => Some v | _ => None end.
Definition as_double t := match t with nbt_Double _ v => Some v | _ => None end.
Definition as_text t := match t with nbt_String _ v => Some v | _ => None end.
Definition as_list t := match t with nbt_List _ v => Some v | _ => None end.
Definition as_compound t := match t with nbt_Compound _ v => Some v | _ => None end.
Definition as_bytes t := match t with nbt_ByteArray _ v => Some v | _ => None end.
Definition as_ints t := match t with nbt_IntArray _ v => Some v | _ => None end.
Definition as_longs t := match t with nbt_LongArray _ v => Some v | _ => None end.

Definition GET_VALUE {A} (as_type : nbt_Base → option A) (root : list nbt_Base) (src : string) : result A :=
  t ← assert_some (compound_get root src); assert_some (as_type t).

(** [assert(size == n)], [assert(type == ...)], and the elements. *)
Fixpoint elements {A} (as_type : nbt_Base → option A) (l : list nbt_Base) : option (list A) :=
  match l with
  | [] => Some []
  | t :: l => v ← as_type t; vs ← elements as_type l; Some (v :: vs)
  end.
Definition GET_LIST {A} (as_type : nbt_Base → option A) (root : list nbt_Base) (src : string) (n : nat) :
  result (list A) :=
  l ← GET_VALUE as_list root src;
  if decide (length l = n) then assert_some (elements as_type l) else UB FailedAssertion.

(** ** level.dat *)

Record Version : Type := mk_Version { version_id : Z; version_name : string; version_series : string; version_snapshot : Z }.
Record WorldGenSettings : Type := mk_WorldGenSettings { bonus_chest : Z; generateFeatures : Z; settings_seed : Z }.

(** Floating point values are their bits. *)
Record LevelData : Type := mk_LevelData {
  borderCenterX : Z; borderCenterZ : Z; borderDamagePerBlock : Z; borderSafeZone : Z;
  borderSize : Z; borderSizeLerpTarget : Z; borderSizeLerpTime : Z;
  borderWarningBlocks : Z; borderWarningTime : Z;
  dataVersion : Z; dayTime : Z; level_difficulty : Z; difficultyLocked : Z; gameType : Z;
  lastPlayed : Z; levelName : string; spawnAngle : Z; spawnX : Z; spawnY : Z; spawnZ : Z;
  level_time : Z; mcVersion : Version;
  wanderingTraderSpawnChance : Z; wanderingTraderSpawnDelay : Z; wasModded : Z;
  worldGenSettings : WorldGenSettings;
  allowCommands : Z; clearWeatherTime : Z; hardcore : Z; initialized : Z; rainTime : Z;
  raining : Z; thunderTime : Z; thundering : Z; level_version : Z
}.

Section Tags.
Local Open Scope string_scope.

(** What the assignments of [loadLevelData] make of the root. *)
Definition level_data (root : nbt_Base) : result LevelData :=
  root ← assert_some (as_compound root);
  data ← GET_VALUE as_compound root "Data";
  centerX ← GET_VALUE as_double data "BorderCenterX";
  centerZ ← GET_VALUE as_double data "BorderCenterZ";
  damage ← GET_VALUE as_double data "BorderDamagePerBlock";
  safe ← GET_VALUE as_double data "BorderSafeZone";
  size ← GET_VALUE as_double data "BorderSize";
  lerpTarget ← GET_VALUE as_double data "BorderSizeLerpTarget";
  lerpTime ← GET_VALUE as_long data "BorderSizeLerpTime";
  warningBlocks ← GET_VALUE as_double data "BorderWarningBlocks";
  warningTime ← GET_VALUE as_double data "BorderWarningTime";
  dataVersion ← GET_VALUE as_int data "DataVersion";
  dayTime ← GET_VALUE as_long data "DayTime";
  difficulty ← GET_VALUE as_byte data "Difficulty";
  locked ← GET_VALUE as_byte data "DifficultyLocked";
  gameType ← GET_VALUE as_int data "GameType";
  lastPlayed ← GET_VALUE as_long data "LastPlayed";
  name ← GET_VALUE as_text data "LevelName";
  angle ← GET_VALUE as_float data "SpawnAngle";
  x ← GET_VALUE as_int data "SpawnX";
  y ← GET_VALUE as_int data "SpawnY";
  z ← GET_VALUE as_int data "SpawnZ";
  time ← GET_VALUE as_long data "Time";
  v ← GET_VALUE as_compound data "Version";
  vId ← GET_VALUE as_int v "Id";
  vName ← GET_VALUE as_text v "Name";
  vSeries ← GET_VALUE as_text v "Series";
  vSnapshot ← GET_VALUE as_byte v "Snapshot";
  traderChance ← GET_VALUE as_int data "WanderingTraderSpawnChance";
  traderDelay ← GET_VALUE as_int data "WanderingTraderSpawnDelay";
  modded ← GET_VALUE as_byte data "WasModded";
  g ← GET_VALUE as_compound data "WorldGenSettings";
  chest ← GET_VALUE as_byte g "bonus_chest";
  features ← GET_VALUE as_byte g "generate_features";
  seed ← GET_VALUE as_long g "seed";
  commands ← GET_VALUE as_byte data "allowCommands";
  clear ← GET_VALUE as_int data "clearWeatherTime";
  hardcore ← GET_VALUE as_byte data "hardcore";
  initialized ← GET_VALUE as_byte data "initialized";
  rainTime ← GET_VALUE as_int data "rainTime";
  raining ← GET_VALUE as_byte data "raining";
  thunderTime ← GET_VALUE as_int data "thunderTime";
  thundering ← GET_VALUE as_byte data "thundering";
  version ← GET_VALUE as_int data "version";
  Ok (mk_LevelData centerX centerZ damage safe size lerpTarget lerpTime warningBlocks warningTime
        dataVersion dayTime difficulty locked gameType lastPlayed name angle x y z time
        (mk_Version vId vName vSeries vSnapshot) traderChance traderDelay modded
        (mk_WorldGenSettings chest features seed)
        commands clear hardcore initialized rainTime raining thunderTime thundering version).

(** ** The file of a player *)

Record PlayerData : Type := mk_PlayerData {
  absorptionAmount : Z; data_air : Z; player_dataVersion : Z; deathTime : Z; data_dimension : string;
  fallDistance : Z; fallFlying : Z; fire : Z; data_health : Z; hurtByTimestamp : Z; hurtTime : Z;
  invulnerable : Z; motion : list Z; data_onGround : Z; portalCooldown : Z; data_pos : list Z;
  rotation : list Z; score : Z; selectedItemSlot : Z; sleepTimer : Z; data_uuid : u128;
  xpLevel : Z; xpP : Z; xpSeed : Z; xpTotal : Z; foodExhaustionLevel : Z; data_foodLevel : Z;
  data_foodSaturationLevel : Z; data_foodTickTimer : Z; playerGameType : Z; seenCredits : Z
}.

(** Two words of the array as one of 64 bits, the first one low. *)
Definition two_words (lo hi : Z) : Z := Z.lor (to_u32 lo) (Z.shiftl (to_u32 hi) 32).
Definition uuid_of_ints (l : list Z) : result u128 :=
  match l with
  | [a; b; c; d] => Ok (u128_swapEndianness (mk_u128 (two_words a b) (two_words c d)))
  | _ => UB FailedAssertion
  end.

Definition player_data (root : nbt_Base) : result PlayerData :=
  root ← assert_some (as_compound root);
  absorption ← GET_VALUE as_float root "AbsorptionAmount";
  air ← GET_VALUE as_short root "Air";
  dataVersion ← GET_VALUE as_int root "DataVersion";
  deathTime ← GET_VALUE as_short root "DeathTime";
  dimension ← GET_VALUE as_text root "Dimension";
  fallDistance ← GET_VALUE as_float root "FallDistance";
  fallFlying ← GET_VALUE as_byte root "FallFlying";
  fire ← GET_VALUE as_short root "Fire";
  health ← GET_VALUE as_float root "Health";
  hurtBy ← GET_VALUE as_int root "HurtByTimestamp";
  hurtTime ← GET_VALUE as_short root "HurtTime";
  invulnerable ← GET_VALUE as_byte root "Invulnerable";
  motion ← GET_LIST as_double root "Motion" 3;
  onGround ← GET_VALUE as_byte root "OnGround";
  portal ← GET_VALUE as_int root "PortalCooldown";
  pos ← GET_LIST as_double root "Pos" 3;
  rotation ← GET_LIST as_float root "Rotation" 2;
  score ← GET_VALUE as_int root "Score";
  slot ← GET_VALUE as_int root "SelectedItemSlot";
  sleep ← GET_VALUE as_short root "SleepTimer";
  ints ← GET_VALUE as_ints root "Rotation";
  uuid ← uuid_of_ints ints;
  xpLevel ← GET_VALUE as_int root "XpLevel";
  xpP ← GET_VALUE as_float root "XpP";
  xpSeed ← GET_VALUE as_int root "XpSeed";
  xpTotal ← GET_VALUE as_int root "XpTotal";
  exhaustion ← GET_VALUE as_float root "foodExhaustionLevel";
  food ← GET_VALUE as_int root "foodLevel";
  saturation ← GET_VALUE as_float root "foodSaturationLevel";
  foodTimer ← GET_VALUE as_int root "foodTickTimer";
  gameType ← GET_VALUE as_int root "playerGameType";
  credits ← GET_VALUE as_byte root "seenCredits";
  Ok (mk_PlayerData absorption air dataVersion deathTime dimension fallDistance fallFlying fire health
        hurtBy hurtTime invulnerable motion onGround portal pos rotation score slot sleep uuid
        xpLevel xpP xpSeed xpTotal exhaustion food saturation foodTimer gameType credits).
End Tags.

Section Files.
Context `{Storage} (folder : string).

(** A file that is not there throws; one that the library does not read is a null. *)
Definition load_tags (file : string) : result nbt_Base :=
  match loadFile file with
  | None => Throw std_runtime_error
  | Some bytes => assert_some (lib_nbt_parse bytes)
  end.
Definition in_folder (file : string) : string := String.append folder (String.append "/" file).

Definition loadLevelData : result LevelData := t ← load_tags (in_folder "level.dat"); level_data t.
Definition loadPlayerData (uuid : u128) : result PlayerData :=
  t ← load_tags (in_folder (String.append "playerdata/" (String.append (string_of_bytes (u128_toString uuid)) ".dat")));
  player_data t.
End Files.

(** ** Regions *)

Definition maxXPerRegion : Z := 32.
Definition maxZPerRegion : Z := 32.
Definition numChunksPerRegion : Z := maxXPerRegion * maxZPerRegion.
Definition regionChunkAlignment : Z := 0x1000.

(** Four bytes of the file, as the machine reads them (the first one low). *)
Definition bytes_at (file : list Z) (at_ n : Z) : result (list Z) :=
  if decide (0 ≤ at_ ∧ 0 ≤ n ∧ at_ + n ≤ zlen file) then Ok (take (Z.to_nat n) (drop (Z.to_nat at_) file))
  else UB OutOfBoundsRead.
Definition word_at (file : list Z) (at_ : Z) : result Z := bs ← bytes_at file at_ 4; Ok (le_value bs).

Definition RegionLocation_getOffset (data : Z) : Z :=
  Z.lor (Z.lor (Z.shiftr (Z.land data 0x00FF0000) 16) (Z.land data 0x0000FF00))
        (Z.shiftl (Z.land data 0x000000FF) 16).
Definition RegionLocation_getSize (data : Z) : Z := to_u8 (Z.shiftr data 24).
Definition RegionLocation_isEmpty (data : Z) : bool := bool_decide (data = 0).

Definition ChunkHeader_size : Z := 5.
(** [ntohl] *)
Definition ChunkHeader_getLength (length : Z) : Z := ntoh32 length.

(** The bytes given to the library: [length] bytes after the header of the chunk.
    They are all taken to be read. *)
Definition chunk_bytes (file : list Z) (chunkOffset : Z) : result (list Z) :=
  length ← word_at file chunkOffset;
  bytes_at file (chunkOffset + ChunkHeader_size) (ChunkHeader_getLength length).

Section Regions.
Context `{Storage} (folder : string) (globalPalette : list InternalBlock).

(** *** A section *)

Fixpoint block_properties_of (l : list nbt_Base) : result (list (string * string)) :=
  match l with
  | [] => Ok []
  | prop :: l =>
      v ← assert_some (as_text prop); rest ← block_properties_of l; Ok ((nbt_getName prop, v) :: rest)
  end.
Definition palette_block (pal : nbt_Base) : result Block :=
  pal ← assert_some (as_compound pal);
  name ← GET_VALUE as_text pal "Name";
  match compound_get pal "Properties" with
  | None => Ok (mk_Block name [])
  | Some properties =>
      properties ← assert_some (as_compound properties);
      properties ← block_properties_of properties;
      Ok (mk_Block name properties)
  end.

(** The palette is changed while the list is read. *)
Definition _regionLoadPalette (blockStates : list nbt_Base) : M Palette unit :=
  palette ← lift (GET_VALUE as_list blockStates "palette");
  for_each palette (λ pal,
    block ← lift (palette_block pal);
    modify (Palette_add (fromBlockToProtocolId globalPalette block).1)).

Definition replace_store (bytes : list Z) (d : DynamicStorage) : DynamicStorage :=
  mk_DynamicStorage bytes (_valueSize d).

Definition load_blocks (blockStates : list nbt_Base) : M Section_ unit :=
  _ ← modify (λ s, set_blockPalette (Palette_clear (_blockPalette s)) s);
  _ ← member _blockPalette set_blockPalette (_regionLoadPalette blockStates);
  match compound_get blockStates "data" with
  | None => mret tt
  | Some dataArray =>
      data ← lift (assert_some (as_longs dataArray));
      p ← gets _blockPalette;
      bits ← lift (BlockPalette_getBits p);
      _ ← member _blocks set_blocks (assign (λ d, DynamicStorage_setValueSize 64 SECTION_3D_SIZE d bits));
      modify (λ s, set_blocks (replace_store (to_u64 <$> data) (_blocks s)) s)
  end.
Definition _regionLoadBlocks (sectionY : Z) (section : list nbt_Base) : M ChunkColumn unit :=
  match compound_get section "block_states" with
  | None => mret tt
  | Some blockStates =>
      blockStates ← lift (assert_some (as_compound blockStates));
      section_member sectionY (load_blocks blockStates)
  end.

(** One of the two lights of a section. *)
Definition load_light (sectionY : Z) (section : list nbt_Base) (name : string) (get : Section_ → DynamicStorage)
    (set : DynamicStorage → Section_ → Section_) (count recalculate : Section_ → Section_) : M ChunkColumn unit :=
  match compound_get section name with
  | Some lights =>
      bytes ← lift (assert_some (as_bytes lights));
      section_member sectionY (
        _ ← member get set (assign (λ d, DynamicStorage_setValueSize 8 SECTION_3D_SIZE d 4));
        modify (λ s, count (set (replace_store (to_u8 <$> bytes) (get s)) s)))
  | None => section_member sectionY (modify recalculate)
  end.
Definition _regionLoadLights (sectionY : Z) (section : list nbt_Base) : M ChunkColumn unit :=
  _ ← load_light sectionY section "BlockLight" _blockLight (λ d s, set_blockLight d (_blockLightCount s) s)
        Section_recalculateBlockLightCount Section_recalculateBlockLight;
  load_light sectionY section "SkyLight" _skyLight (λ d s, set_skyLight d (_skyLightCount s) s)
    Section_recalculateSkyLightCount Section_recalculateSkyLight.

Definition _regionLoadSection (section : list nbt_Base) : M ChunkColumn unit :=
  y ← lift (GET_VALUE as_byte section "Y");
  let sectionY := to_u8 (y + 5) in
  _ ← _regionLoadBlocks sectionY section; _regionLoadLights sectionY section.

(** *** A column *)

(** [addValue]: the lists of the constructor stay in front. *)
Definition load_heightmap (heightmaps : list nbt_Base) (name : string) : M ChunkColumn unit :=
  l ← lift (GET_VALUE as_longs heightmaps name);
  modify (λ c, set_heightMap (_heightMap c ++ [nbt_LongArray name l]) c).
Definition _regionLoadHeightmaps (data : list nbt_Base) : M ChunkColumn unit :=
  heightmaps ← lift (GET_VALUE as_compound data "Heightmaps");
  _ ← load_heightmap heightmaps "MOTION_BLOCKING"; load_heightmap heightmaps "WORLD_SURFACE".

Definition load_column (data : list nbt_Base) : M ChunkColumn unit :=
  sections ← lift (GET_VALUE as_list data "sections");
  _ ← for_each sections (λ section,
        section ← lift (assert_some (as_compound section)); _regionLoadSection section);
  _ ← _regionLoadHeightmaps data;
  modify (set_currentState READY).

(** The status is read as a text without a look at its type. *)
Definition status_of (data : list nbt_Base) : result string :=
  status ← assert_some (compound_get data "Status");
  match as_text status with Some s => Ok s | None => UB UninitializedRead end.

Definition region_chunk (cx cz x z : Z) : result Position2D :=
  rx ← chk_i32 (x * 32); chunkX ← chk_i32 (cx + rx);
  rz ← chk_i32 (z * 32); chunkZ ← chk_i32 (cz + rz);
  Ok (mk_Position2D chunkX chunkZ).

Definition _regionLoadChunk (cx cz x z : Z) (data : list nbt_Base) : M Level unit :=
  status ← lift (status_of data);
  if decide (status ≠ "full"%string) then mret tt
  else
    pos ← lift (region_chunk cx cz x z);
    column ← lift (ChunkColumn_make pos);
    _ ← modify (Level_addChunkColumn pos column);
    column_member pos (load_column data).

(** *** A region *)

Record Persistence : Type := mk_Persistence { _regionStore : list Position2D; stored_level : Level }.
Definition set_regionStore l s := mk_Persistence l (stored_level s).
Definition set_stored_level l s := mk_Persistence (_regionStore s) l.

(** The slot of a chunk in the location table; the offset is in blocks. *)
Definition slot_tag (file : list Z) (currentOffset : Z) : result (option (list nbt_Base)) :=
  data ← word_at file (4 * currentOffset);
  if RegionLocation_isEmpty data then Ok None
  else
    bytes ← chunk_bytes file (RegionLocation_getOffset data * regionChunkAlignment);
    match lib_nbt_parse bytes with
    | None => UB NullDereference
    | Some t => t ← assert_some (as_compound t); Ok (Some t)
    end.
Definition load_slot (file : list Z) (x z cx cz : Z) : M Level unit :=
  t ← lift (slot_tag file (cx + cz * maxXPerRegion));
  match t with None => mret tt | Some t => _regionLoadChunk cx cz x z t end.
Definition load_region_file (file : list Z) (x z : Z) : M Level unit :=
  for_each (seqZ 0 maxXPerRegion) (λ cx, for_each (seqZ 0 maxZPerRegion) (λ cz, load_slot file x z cx cz)).

Definition region_file (x z : Z) : string :=
  String.append folder (String.append "/region/r." (String.append (pretty x)
    (String.append "." (String.append (pretty z) ".mca")))).

Definition loadRegion (x z : Z) : M Persistence unit :=
  store ← gets _regionStore;
  if decide (mk_Position2D x z ∈ store) then mret tt
  else
    _ ← modify (λ s, set_regionStore (_regionStore s ++ [mk_Position2D x z]) s);
    match loadFile (region_file x z) with
    | None => mret tt
    | Some file => member stored_level set_stored_level (load_region_file file x z)
    end.

Definition isChunkLoaded (x z : Z) : M Persistence bool :=
  let rx := transformChunkPosToRegionPos x in
  let rz := transformChunkPosToRegionPos z in
  _ ← loadRegion rx rz;
  store ← gets _regionStore;
  if decide (mk_Position2D rx rz ∈ store) then
    gets (λ s, Level_hasChunkColumn (stored_level s) (mk_Position2D x z))
  else mret false.

(** [Overworld::generateChunk]: the generation of a column is its own. *)
Definition Overworld_generateChunk (enable_generation : bool) (generate : M ChunkColumn unit) (x z : Z) :
  M Persistence unit :=
  loaded ← isChunkLoaded x z;
  if loaded : bool then mret tt
  else
    let pos := mk_Position2D x z in
    column ← lift (ChunkColumn_make pos);
    _ ← modify (λ s, set_stored_level (Level_addChunkColumn pos column (stored_level s)) s);
    if enable_generation then member stored_level set_stored_level (column_member pos generate)
    else mret tt.
End Regions.
