(* ===== verification/PersistenceProps.v ===== *)
(** * What a saved world reads back to

    A region file, as the format describes it, is the blocks and the lights of its
    columns; [saved_section] says what a tag holds, and the theorems say what the
    server then finds in its columns. *)

From stdpp Require Import pretty.
From S2P Require Import Prelude State Types Codec Pop Nbt DynamicStorage Palette Section StorageLaws SectionLaws ChunkColumn PrimaryLaws ChunkLaws Level LevelProps BlockStates Persistence.

(** ** The contents of the tags *)

(** What a section of a file says: its height, the identifiers of its palette, the
    index of the palette of each of its blocks, and its lights, if it has any. *)
Record SavedSection : Type := mk_SavedSection {
  saved_Y : Z;
  saved_ids : list Z;
  saved_cells : list Z;
  saved_sky : option (list Z);
  saved_light : option (list Z)
}.

(** Values packed in words, none of which spans two of them. *)
Definition packed (word bits : Z) (cells words : list Z) : Prop :=
  storage_wf word 4096 (mk_DynamicStorage words bits) ∧ values word 4096 (mk_DynamicStorage words bits) = cells.
(** The bits of an index, in a file. *)
Definition file_bits (ids : list Z) : Z := Z.max 4 (Z.log2_up (zlen ids)).

Section Saved.
Context (globalPalette : list InternalBlock).

Fixpoint saved_palette_ids (palette : list nbt_Base) : result (list Z) :=
  match palette with
  | [] => Ok []
  | pal :: palette =>
      b ← palette_block pal; ids ← saved_palette_ids palette;
      Ok ((fromBlockToProtocolId globalPalette b).1 :: ids)
  end.

Definition saved_blocks (blockStates : list nbt_Base) (ids cells : list Z) : Prop :=
  ∃ palette, GET_VALUE as_list blockStates "palette" = Ok palette ∧ saved_palette_ids palette = Ok ids ∧ NoDup ids ∧
    ((zlen ids = 1 ∧ compound_get blockStates "data" = None) ∨
     (2 ≤ zlen ids ≤ 256 ∧ Forall (λ c, 0 ≤ c < zlen ids) cells ∧
      ∃ longs, GET_VALUE as_longs blockStates "data" = Ok longs ∧
        packed 64 (file_bits ids) cells (to_u64 <$> longs))).

Definition saved_lights (section : list nbt_Base) (name : string) (lights : option (list Z)) : Prop :=
  match lights with
  | None => compound_get section name = None
  | Some l => ∃ bytes, GET_VALUE as_bytes section name = Ok bytes ∧ packed 8 4 l (to_u8 <$> bytes)
  end.

Definition saved_section (t : nbt_Base) (v : SavedSection) : Prop :=
  ∃ section blockStates, as_compound t = Some section ∧
    GET_VALUE as_byte section "Y" = Ok (saved_Y v) ∧ -5 ≤ saved_Y v ≤ 20 ∧
    GET_VALUE as_compound section "block_states" = Ok blockStates ∧
    saved_blocks blockStates (saved_ids v) (saved_cells v) ∧
    saved_lights section "BlockLight" (saved_light v) ∧ saved_lights section "SkyLight" (saved_sky v).

Definition saved_column (data : list nbt_Base) (l : list SavedSection) : Prop :=
  ∃ sections heightmaps motion surface, GET_VALUE as_list data "sections" = Ok sections ∧
    Forall2 saved_section sections l ∧ NoDup (saved_Y <$> l) ∧
    GET_VALUE as_compound data "Heightmaps" = Ok heightmaps ∧
    GET_VALUE as_longs heightmaps "MOTION_BLOCKING" = Ok motion ∧
    GET_VALUE as_longs heightmaps "WORLD_SURFACE" = Ok surface.
End Saved.

(** The block of the file: a section of one kind has no cells, and is that kind all over. *)
Definition one_kind (v : SavedSection) : bool := bool_decide (zlen (saved_ids v) = 1).
Definition file_block (v : SavedSection) (i : nat) : Z :=
  saved_ids v !!! (if one_kind v then 0%nat else Z.to_nat (saved_cells v !!! i)).
(** What is read of it: the block of the file, but air in a section of one kind, whatever the
    kind; the default lights are full sky and no block. *)
Definition shown_block (v : SavedSection) (i : nat) : Z :=
  if one_kind v then 0 else file_block v i.
Definition shown_light (default : Z) (lights : option (list Z)) (i : nat) : Z :=
  match lights with Some l => l !!! i | None => default end.

Definition section_shows (s : Section_) (v : SavedSection) : Prop := ∀ pos, in_section 16 pos →
  let i := Z.to_nat (cell_index 16 pos) in
  Section_getBlock s pos = Ok (shown_block v i) ∧
  Section_getSkyLight s pos = Ok (shown_light 15 (saved_sky v) i) ∧
  Section_getBlockLight s pos = Ok (shown_light 0 (saved_light v) i).

Definition column_shows (c : ChunkColumn) (l : list SavedSection) : Prop :=
  _currentState c = READY ∧
  ∀ v pos, v ∈ l → in_column pos → py pos / 16 = saved_Y v →
    let i := Z.to_nat (cell_index 16 (local_of pos)) in
    ChunkColumn_getBlock c pos = Ok (shown_block v i) ∧
    ChunkColumn_getSkyLight c pos = Ok (shown_light 15 (saved_sky v) i) ∧
    ChunkColumn_getBlockLight c pos = Ok (shown_light 0 (saved_light v) i).

(** ** Reading a section *)

Lemma get_value_inv {A} (as_type : nbt_Base → option A) root src v :
  GET_VALUE as_type root src = Ok v → ∃ t, compound_get root src = Some t ∧ as_type t = Some v.
Proof.
  unfold GET_VALUE. destruct (compound_get root src) as [t|]; [|done]. cbn.
  destruct (as_type t) eqn:E; [|done]. intros [= <-]. eauto.
Qed.

Section Laws.
Context (globalPalette : list InternalBlock).

Lemma load_palette_ok palette ids p :
  saved_palette_ids globalPalette palette = Ok ids → NoDup (p ++ ids) →
  for_each palette (λ pal, block ← lift (palette_block pal);
    modify (Palette_add (fromBlockToProtocolId globalPalette block).1)) p = (Ok tt, p ++ ids).
Proof.
  revert ids p; induction palette as [|pal palette IH]; intros ids p Hi Hn; simpl in Hi.
  { simplify_eq. by rewrite app_nil_r. }
  destruct (palette_block pal) as [b| | |] eqn:Eb; try done. simpl in Hi.
  destruct (saved_palette_ids globalPalette palette) as [l| | |]; try done. simplify_eq/=.
  unfold mbind, M_bind, lift, modify. rewrite Eb.
  assert (Palette_add (fromBlockToProtocolId globalPalette b).1 p = p ++ [(fromBlockToProtocolId globalPalette b).1]) as ->.
  { unfold Palette_add. rewrite (proj2 (find_index_none _ _)); [done|].
    apply list.NoDup_app in Hn as (_ & Hn & _). intros Hin. by apply (Hn _ Hin), list_elem_of_here. }
  rewrite cons_middle, app_assoc in Hn. rewrite (cons_middle _ p l), (app_assoc p [_] l). by apply IH.
Qed.

Lemma getBits_file ids : 2 ≤ zlen ids ≤ 256 → BlockPalette_getBits ids = Ok (file_bits ids).
Proof.
  intros Hn. unfold BlockPalette_getBits, file_bits. rewrite decide_False by lia.
  unfold to_i32. rewrite wrap_s_id by (unfold is_s; lia).
  rewrite bitsNeeded_log2_up by lia. cbn [mbind result_bind].
  assert (Z.log2_up (zlen ids) ≤ 8) by (apply Z.log2_up_le_pow2; lia).
  case_decide; [f_equal; lia|]. rewrite decide_True by done. f_equal; lia.
Qed.

Lemma getBits_large ids : 257 ≤ zlen ids < 2 ^ 31 - 1 → BlockPalette_getBits ids = Ok 15.
Proof.
  intros Hn. unfold BlockPalette_getBits. rewrite decide_False by lia.
  unfold to_i32. rewrite wrap_s_id by (unfold is_s; lia).
  rewrite bitsNeeded_log2_up by lia. cbn [mbind result_bind].
  assert (8 < Z.log2_up (zlen ids)) by (apply Z.log2_up_lt_pow2; lia).
  by rewrite !decide_False by lia.
Qed.

(** The section the blocks leave. *)
Definition with_blocks (ids : list Z) (d : DynamicStorage) (s : Section_) : Section_ :=
  set_blocks d (set_blockPalette ids s).

Lemma load_blocks_palette blockStates palette ids s :
  GET_VALUE as_list blockStates "palette" = Ok palette → saved_palette_ids globalPalette palette = Ok ids → NoDup ids →
  load_blocks globalPalette blockStates s =
  match compound_get blockStates "data" with
  | None => (Ok tt, set_blockPalette ids s)
  | Some dataArray =>
      (data ← lift (assert_some (as_longs dataArray));
       p ← gets _blockPalette;
       bits ← lift (BlockPalette_getBits p);
       _ ← member _blocks set_blocks (assign (λ d, DynamicStorage_setValueSize 64 SECTION_3D_SIZE d bits));
       modify (λ s, set_blocks (replace_store (to_u64 <$> data) (_blocks s)) s)) (set_blockPalette ids s)
  end.
Proof.
  intros Hp Hi Hn. unfold load_blocks.
  rewrite (bind_run_ok _ _ _ tt (set_blockPalette [] s)) by done.
  rewrite (bind_run_ok _ _ _ tt (set_blockPalette ids s)); [by destruct (compound_get blockStates "data")|].
  unfold member. change (_blockPalette (set_blockPalette [] s)) with ([] : list Z).
  unfold _regionLoadPalette. rewrite (bind_run_ok _ _ _ palette []) by (unfold lift; by rewrite Hp).
  by rewrite (load_palette_ok palette ids []).
Qed.

Lemma load_blocks_data blockStates palette ids longs bits s :
  GET_VALUE as_list blockStates "palette" = Ok palette → saved_palette_ids globalPalette palette = Ok ids → NoDup ids →
  GET_VALUE as_longs blockStates "data" = Ok longs → BlockPalette_getBits ids = Ok bits → 0 < bits ≤ 30 →
  _blocks s = mk_DynamicStorage [] 0 →
  load_blocks globalPalette blockStates s =
    (Ok tt, with_blocks ids (mk_DynamicStorage (to_u64 <$> longs) bits) s).
Proof.
  intros Hp Hi Hn Hl Hb Hr Hs. rewrite (load_blocks_palette _ palette ids) by done.
  destruct (get_value_inv _ _ _ _ Hl) as (t & -> & Et).
  rewrite (bind_run_ok _ _ _ longs (set_blockPalette ids s)) by (unfold lift; by rewrite Et).
  rewrite (bind_run_ok _ _ _ ids (set_blockPalette ids s)) by (by destruct s).
  rewrite (bind_run_ok _ _ _ bits (set_blockPalette ids s)) by (unfold lift; by rewrite Hb).
  destruct (setValueSize_from_empty 64 4096 ltac:(lia) ltac:(lia) (_blocks s) bits) as (d' & E & _ & Hv & _);
    [by rewrite Hs|lia|].
  rewrite (bind_run_ok _ _ _ tt (set_blocks d' (set_blockPalette ids s))).
  - unfold modify, replace_store, with_blocks. destruct s; simpl in *. by rewrite Hv.
  - unfold member, assign. change SECTION_3D_SIZE with 4096. change (_blocks (set_blockPalette ids s)) with (_blocks s).
    by rewrite E.
Qed.

Lemma load_blocks_ok blockStates ids cells s :
  saved_blocks globalPalette blockStates ids cells → _blocks s = mk_DynamicStorage [] 0 →
  ∃ d, load_blocks globalPalette blockStates s = (Ok tt, with_blocks ids d s) ∧
    ((zlen ids = 1 ∧ _valueSize d = 0) ∨
     (2 ≤ zlen ids ≤ 256 ∧ Forall (λ c, 0 ≤ c < zlen ids) cells ∧ _valueSize d = file_bits ids ∧
      packed 64 (file_bits ids) cells (_store d))).
Proof.
  intros (palette & Hp & Hi & Hn & Hdata) Hs. destruct Hdata as [[H1 Hd]|(Hr & Hc & longs & Hl & Hpk)].
  - exists (mk_DynamicStorage [] 0). split; [|by left]. rewrite (load_blocks_palette _ palette ids), Hd by done.
    unfold with_blocks. destruct s; simpl in *; by subst.
  - exists (mk_DynamicStorage (to_u64 <$> longs) (file_bits ids)). split; [|by right].
    apply (load_blocks_data _ palette); try done; [by apply getBits_file|].
    unfold file_bits. assert (Z.log2_up (zlen ids) ≤ 8) by (apply Z.log2_up_le_pow2; lia). lia.
Qed.

(** The lights, through a field and its setter. *)
Lemma load_light_ok c i s section name lights get set count recalculate :
  saved_lights section name lights →
  _sections c !! i = Some s → _valueSize (get s) = 4 → set (get s) s = s →
  ∃ s', load_light (Z.of_nat i) section name get set count recalculate c =
    (Ok tt, set_sections (<[i := s']> (_sections c)) c) ∧
    match lights with
    | None => s' = recalculate s
    | Some l => ∃ d, s' = count (set d s) ∧ _valueSize d = 4 ∧ packed 8 4 l (_store d)
    end.
Proof.
  intros Hl Hs Hv Hset. unfold load_light. destruct lights as [l|]; simpl in Hl.
  - destruct Hl as (bytes & Hb & Hp). destruct (get_value_inv _ _ _ _ Hb) as (t & -> & Et).
    rewrite (bind_run_ok _ _ _ bytes c) by (unfold lift; by rewrite Et).
    exists (count (set (mk_DynamicStorage (to_u8 <$> bytes) 4) s)). split; [|by eexists; split_and!].
    apply (section_member_ok c i s _ tt); [done|].
    rewrite (bind_run_ok _ _ _ tt s); [unfold modify, replace_store; by rewrite Hv|].
    unfold member, assign, DynamicStorage_setValueSize. rewrite decide_True by done. by rewrite Hset.
  - rewrite Hl. exists (recalculate s). split; [|done]. by apply (section_member_ok c i s _ tt).
Qed.

Definition dark : DynamicStorage := mk_DynamicStorage (replicate 2048 0) 4.
Definition fresh_section : Section_ :=
  mk_Section (mk_DynamicStorage [] 0) (mk_DynamicStorage [] 0) BlockPalette_make BiomePalette_make dark dark 0 0.
Lemma Section_make_fresh : Section_make = Ok fresh_section.
Proof. vm_compute. reflexivity. Qed.

Lemma entry_packed word bits cells d i : 8 ≤ word ≤ 64 →
  packed word bits cells (_store d) → _valueSize d = bits → bits ≠ 0 → 0 ≤ i < 4096 →
  DynamicStorage_get word 4096 d i = Ok (cells !!! Z.to_nat i).
Proof.
  intros HW [Hw Hv] Hb Hz Hi. destruct d as [store v]; simpl in *; subst v.
  rewrite get_entry by (done || lia). f_equal. symmetry. apply list_lookup_total_correct.
  rewrite <- Hv. by apply values_lookup.
Qed.

Lemma entry_dark i : 0 ≤ i < 4096 → DynamicStorage_get 8 4096 dark i = Ok 0.
Proof.
  intros Hi. assert (packed 8 4 (replicate 4096 0) (_store dark)) as Hp.
  { split; [|by vm_compute]. split; [cbn; lia|]. split; [|done]. apply Forall_replicate. unfold is_u; lia. }
  rewrite (entry_packed 8 4 _ dark i ltac:(lia) Hp) by done. f_equal.
  by rewrite lookup_total_replicate_2 by lia.
Qed.
Lemma entry_full i : 0 ≤ i < 4096 → DynamicStorage_get 8 4096 (mk_DynamicStorage (replicate 2048 255) 4) i = Ok 15.
Proof.
  intros Hi. destruct full_light_wf as [[Hw _] He].
  rewrite get_entry by (done || lia). by rewrite He.
Qed.

Lemma shown_block_ok v d i :
  (zlen (saved_ids v) = 1 ∧ _valueSize d = 0) ∨
    (2 ≤ zlen (saved_ids v) ≤ 256 ∧ Forall (λ c, 0 ≤ c < zlen (saved_ids v)) (saved_cells v) ∧
     _valueSize d = file_bits (saved_ids v) ∧ packed 64 (file_bits (saved_ids v)) (saved_cells v) (_store d)) →
  0 ≤ i < 4096 →
  (if negb (canContainData d) then Ok 0
   else id ← DynamicStorage_get 64 4096 d i; Ok (Palette_getGlobalId (saved_ids v) id)) =
  Ok (shown_block v (Z.to_nat i)).
Proof.
  unfold canContainData, shown_block, file_block, one_kind. intros [[Hn Hz]|(Hn & Hc & Hz & Hpk)] Hi.
  { rewrite bool_decide_eq_false_2 by tauto. by rewrite bool_decide_eq_true_2. }
  assert (file_bits (saved_ids v) ≠ 0) by (unfold file_bits; lia).
  rewrite bool_decide_eq_true_2 by congruence. rewrite (bool_decide_eq_false_2 (zlen (saved_ids v) = 1)) by lia.
  rewrite (entry_packed 64 _ _ d i ltac:(lia) Hpk) by done. cbn [negb mbind result_bind]. f_equal.
  assert (Z.to_nat i < length (saved_cells v))%nat as Hlen
    by (destruct Hpk as [_ <-]; rewrite values_length; lia).
  destruct (lookup_lt_is_Some_2 _ _ Hlen) as [x Ex]. rewrite (list_lookup_total_correct _ _ _ Ex).
  pose proof (Forall_lookup_1 _ _ _ _ Hc Ex) as Hx. simpl in Hx.
  apply Palette_getGlobalId_lookup; [lia|]. apply list_lookup_lookup_total_lt. lia.
Qed.

Lemma load_section_ok c i t v :
  saved_section globalPalette t v → i = Z.to_nat (saved_Y v + 5) → _sections c !! i = Some fresh_section →
  ∃ s', (section ← lift (assert_some (as_compound t)); _regionLoadSection globalPalette section) c =
    (Ok tt, set_sections (<[i := s']> (_sections c)) c) ∧ section_shows s' v.
Proof.
  intros (section & bs & Ht & HY & Hr & Hbs & Hb & Hbl & Hsk) Hi Hs.
  rewrite (bind_run_ok _ _ _ section c) by (unfold lift; by rewrite Ht).
  unfold _regionLoadSection. rewrite (bind_run_ok _ _ _ (saved_Y v) c) by (unfold lift; by rewrite HY).
  replace (to_u8 (saved_Y v + 5)) with (Z.of_nat i)
    by (unfold to_u8; rewrite wrap_u_id by (unfold is_u; lia); lia).
  assert ((i < length (_sections c))%nat) as Hlt by (by eapply lookup_lt_Some).
  destruct (load_blocks_ok bs _ _ fresh_section Hb eq_refl) as (d & Ed & Hd).
  set (c1 := set_sections (<[i := with_blocks (saved_ids v) d fresh_section]> (_sections c)) c).
  rewrite (bind_run_ok _ _ _ tt c1).
  2:{ unfold _regionLoadBlocks. destruct (get_value_inv _ _ _ _ Hbs) as (tb & -> & Etb).
      rewrite (bind_run_ok _ _ _ bs c) by (unfold lift; by rewrite Etb).
      by apply (section_member_ok c i fresh_section _ tt). }
  unfold _regionLoadLights.
  destruct (load_light_ok c1 i (with_blocks (saved_ids v) d fresh_section) section "BlockLight" (saved_light v)
    _blockLight (λ d s, set_blockLight d (_blockLightCount s) s)
    Section_recalculateBlockLightCount Section_recalculateBlockLight) as (s2 & E2 & H2);
    [done|by apply list_lookup_insert_eq|done|done|].
  rewrite (bind_run_ok _ _ _ tt _ E2).
  assert (_skyLight s2 = dark ∧ _skyLightCount s2 = 0 ∧ _blocks s2 = d ∧ _blockPalette s2 = saved_ids v) as (K1 & K1' & K2 & K3)
    by (destruct (saved_light v); [destruct H2 as (? & -> & _)|subst s2]; done).
  destruct (load_light_ok (set_sections (<[i := s2]> (_sections c1)) c1) i s2 section "SkyLight" (saved_sky v)
    _skyLight (λ d s, set_skyLight d (_skyLightCount s) s)
    Section_recalculateSkyLightCount Section_recalculateSkyLight) as (s3 & E3 & H3);
    [done|apply list_lookup_insert_eq; simpl; by rewrite length_insert|by rewrite K1|by destruct s2|].
  rewrite E3. exists s3. split.
  { unfold c1, set_sections; simpl. by rewrite !list_insert_insert_eq. }
  assert (_blocks s3 = d ∧ _blockPalette s3 = saved_ids v ∧ _blockLight s3 = _blockLight s2) as (L1 & L3' & L3)
    by (destruct (saved_sky v); [destruct H3 as (? & -> & _)|subst s3]; done).
  intros pos Hp. pose proof (cell_index_range 16 pos Hp) as Hci.
  unfold Section_getBlock, Section_getSkyLight, Section_getBlockLight, SECTION_WIDTH, SECTION_3D_SIZE.
  destruct (guard_inside 16 pos Hp) as [-> _]. rewrite !block_idx_ok by done. cbn [mbind result_bind].
  change (SECTION_2D_SIZE * SECTION_WIDTH) with 4096. split_and!.
  - rewrite L1, L3'. by apply shown_block_ok.
  - destruct (saved_sky v) as [l|]; simpl.
    + destruct H3 as (d3 & -> & Hv3 & Hp3). by apply (entry_packed 8 4).
    + subst s3. unfold Section_recalculateSkyLight. rewrite K1. by apply entry_full.
  - rewrite L3. destruct (saved_light v) as [l|]; simpl.
    + destruct H2 as (d2 & -> & Hv2 & Hp2). by apply (entry_packed 8 4).
    + subst s2. by apply entry_dark.
Qed.

(** *** The sections of a column *)

Definition section_slot (v : SavedSection) : nat := Z.to_nat (saved_Y v + 5).

Lemma saved_Y_range ts l : Forall2 (saved_section globalPalette) ts l → ∀ v, v ∈ l → -5 ≤ saved_Y v ≤ 20.
Proof.
  induction 1 as [|t v ts l (? & ? & _ & _ & Hr & _) _ IH]; [by intros v Hv%list.not_elem_of_nil|].
  intros w [->|Hw]%list.elem_of_cons; [done|by apply IH].
Qed.

Lemma load_sections_ok ts l c :
  Forall2 (saved_section globalPalette) ts l → NoDup (saved_Y <$> l) →
  (∀ v, v ∈ l → _sections c !! section_slot v = Some fresh_section) →
  ∃ k, for_each ts (λ t, section ← lift (assert_some (as_compound t)); _regionLoadSection globalPalette section) c =
      (Ok tt, set_sections k c) ∧
    (∀ v, v ∈ l → ∃ s, k !! section_slot v = Some s ∧ section_shows s v) ∧
    (∀ i, (∀ v, v ∈ l → i ≠ section_slot v) → k !! i = _sections c !! i).
Proof.
  intros Hl; revert c. induction Hl as [|t v ts l Hv Hl IH]; intros c Hn Hf.
  { exists (_sections c). destruct c; split_and!; [done|by intros v Hv%list.not_elem_of_nil|done]. }
  simpl in Hn. apply list.NoDup_cons in Hn as [Hnv Hn].
  destruct (load_section_ok c (section_slot v) t v Hv eq_refl) as (s & E & Hs); [apply Hf; by left|].
  assert (∀ w, w ∈ l → section_slot v ≠ section_slot w) as Hne.
  { intros w Hw Heq. apply Hnv, list_elem_of_fmap. exists w. split; [|done].
    pose proof (saved_Y_range _ _ Hl w Hw). destruct Hv as (? & ? & _ & _ & ? & _). unfold section_slot in Heq. lia. }
  destruct (IH (set_sections (<[section_slot v := s]> (_sections c)) c) Hn) as (k & Ek & Hk & Hrest).
  { intros w Hw. simpl. rewrite list_lookup_insert_ne by (by apply Hne). apply Hf. by right. }
  exists k. cbn [for_each]. rewrite (bind_run_ok _ _ _ tt _ E). split_and!.
  - rewrite Ek. by destruct c.
  - intros w [->|Hw]%list.elem_of_cons; [|by apply Hk]. exists s. split; [|done].
    rewrite Hrest by done. simpl. apply list_lookup_insert_eq.
    eapply lookup_lt_Some, Hf. by left.
  - intros i Hi. rewrite Hrest by (intros w Hw; apply Hi; by right). simpl.
    rewrite list_lookup_insert_ne; [done|]. apply not_eq_sym, Hi. by left.
Qed.

(** A new column, and what loading makes of it. *)
Definition fresh_column (pos : Position2D) : ChunkColumn :=
  mk_ChunkColumn (replicate 26 fresh_section) None pos
    ((λ name, nbt_List name (replicate (Z.to_nat HEIGHTMAP_ARRAY_SIZE) (nbt_Long String.EmptyString 0)))
     <$> HEIGHTMAP_ENTRY) INITIALIZED.
Lemma ChunkColumn_make_fresh pos : ChunkColumn_make pos = Ok (fresh_column pos).
Proof. unfold ChunkColumn_make. by rewrite Section_make_fresh. Qed.

Lemma shows_getBlock c v pos s :
  _sections c !! section_slot v = Some s → section_shows s v → in_column pos → py pos / 16 = saved_Y v →
  let i := Z.to_nat (cell_index 16 (local_of pos)) in
  ChunkColumn_getBlock c pos = Ok (shown_block v i) ∧
  ChunkColumn_getSkyLight c pos = Ok (shown_light 15 (saved_sky v) i) ∧
  ChunkColumn_getBlockLight c pos = Ok (shown_light 0 (saved_light v) i).
Proof.
  intros Hs Hsh Hp Hy. unfold ChunkColumn_getBlock, ChunkColumn_getSkyLight, ChunkColumn_getBlockLight, sections_at.
  rewrite !getSectionIndex_ok by done. cbn [mbind result_bind]. rewrite Nat2Z.id.
  replace (section_of pos) with (section_slot v) by (unfold section_slot, section_of; div_lia).
  rewrite Hs. cbn [mbind result_bind]. rewrite !block_in_section_ok by done. cbn [mbind result_bind].
  by apply Hsh, local_in_section.
Qed.

Lemma load_column_ok data l pos :
  saved_column globalPalette data l →
  ∃ c, load_column globalPalette data (fresh_column pos) = (Ok tt, c) ∧ column_shows c l ∧ _chunkPos c = pos.
Proof.
  intros (ts & hs & motion & surface & Hts & Hl & Hn & Hh & Hm & Hw).
  destruct (load_sections_ok ts l (fresh_column pos) Hl Hn) as (k & Ek & Hk & _).
  { intros v Hv. apply lookup_replicate. split; [done|].
    pose proof (saved_Y_range _ _ Hl v Hv). unfold section_slot. lia. }
  unfold load_column. rewrite (bind_run_ok _ _ _ ts (fresh_column pos)) by (unfold lift; by rewrite Hts).
  rewrite (bind_run_ok _ _ _ tt _ Ek).
  set (c := set_sections k (fresh_column pos)).
  set (h := _heightMap c ++ [nbt_LongArray "MOTION_BLOCKING" motion] ++ [nbt_LongArray "WORLD_SURFACE" surface]).
  rewrite (bind_run_ok _ _ _ tt (set_heightMap h c)).
  2:{ unfold _regionLoadHeightmaps. rewrite (bind_run_ok _ _ _ hs c) by (unfold lift; by rewrite Hh).
      rewrite (bind_run_ok _ _ _ tt (set_heightMap (_heightMap c ++ [nbt_LongArray "MOTION_BLOCKING" motion]) c)).
      - unfold load_heightmap, mbind, M_bind, lift. by rewrite Hw.
      - unfold load_heightmap, mbind, M_bind, lift. by rewrite Hm. }
  exists (set_currentState READY (set_heightMap h c)). split; [done|]. split; [|done]. split; [done|].
  intros v p Hv Hp Hy. destruct (Hk v Hv) as (s & Es & Hs). by apply (shows_getBlock _ v p s).
Qed.
End Laws.

(** ** Reading a region *)

Section Region.
Context `{Storage} (folder : string) (globalPalette : list InternalBlock).

Definition region_pos (x z cx cz : Z) : Position2D := mk_Position2D (32 * x + cx) (32 * z + cz).
(** The region of coordinates whose chunks are integers of 32 bits. *)
Definition region_range (x z : Z) : Prop := -2 ^ 26 ≤ x < 2 ^ 26 ∧ -2 ^ 26 ≤ z < 2 ^ 26.
Definition slots : list (Z * Z) := pairs (seqZ 0 32) (seqZ 0 32).

(** A slot of a file: a complete column, or nothing, or one that was not finished. *)
Definition saved_slot (file : list Z) (k : Z) (o : option (list SavedSection)) : Prop :=
  match o with
  | Some l => ∃ data, slot_tag file k = Ok (Some data) ∧ status_of data = Ok "full"%string ∧
      saved_column globalPalette data l
  | None => slot_tag file k = Ok None ∨
      ∃ data status, slot_tag file k = Ok (Some data) ∧ status_of data = Ok status ∧ status ≠ "full"%string
  end.
Definition saved_region (file : list Z) (columns : Z → Z → option (list SavedSection)) : Prop :=
  ∀ cx cz, (cx, cz) ∈ slots → saved_slot file (cx + cz * 32) (columns cx cz).

Lemma slots_range cx cz : (cx, cz) ∈ slots ↔ 0 ≤ cx < 32 ∧ 0 ≤ cz < 32.
Proof. unfold slots. rewrite elem_of_pairs, !elem_of_seqZ. lia. Qed.
Lemma slots_nodup : NoDup slots.
Proof. apply (bool_decide_unpack _). vm_compute. exact I. Qed.

Lemma region_chunk_ok x z cx cz :
  region_range x z → (cx, cz) ∈ slots → region_chunk cx cz x z = Ok (region_pos x z cx cz).
Proof.
  intros [Hx Hz] [Hcx Hcz]%slots_range. unfold region_chunk, region_pos.
  rewrite chk_i32_ok by (unfold is_s; lia). cbn [mbind result_bind].
  rewrite chk_i32_ok by (unfold is_s; lia). cbn [mbind result_bind].
  rewrite chk_i32_ok by (unfold is_s; lia). cbn [mbind result_bind].
  rewrite chk_i32_ok by (unfold is_s; lia). cbn [mbind result_bind].
  do 2 f_equal; lia.
Qed.
Lemma region_pos_inj x z cx cz cx' cz' : region_pos x z cx cz = region_pos x z cx' cz' → (cx, cz) = (cx', cz').
Proof. unfold region_pos. intros [=]. f_equal; lia. Qed.

(** The level after the slots of a list. *)
Definition shows_slots (x z : Z) (columns : Z → Z → option (list SavedSection)) (l0 : Level)
    (done : list (Z * Z)) (l : Level) : Prop :=
  (∀ cx cz, (cx, cz) ∈ done → match columns cx cz with
     | Some v => ∃ c, l !! region_pos x z cx cz = Some c ∧ column_shows c v
     | None => l !! region_pos x z cx cz = None end) ∧
  (∀ p, (∀ cx cz, (cx, cz) ∈ done → p ≠ region_pos x z cx cz) → l !! p = l0 !! p).

Lemma load_slot_ok file x z columns l0 done cx cz :
  region_range x z → (cx, cz) ∈ slots → saved_slot file (cx + cz * 32) (columns cx cz) →
  (cx, cz) ∉ done → l0 !! region_pos x z cx cz = None →
  triple (shows_slots x z columns l0 done) (load_slot globalPalette file x z cx cz)
    (λ _, shows_slots x z columns l0 (done ++ [(cx, cz)])).
Proof.
  intros Hr Hin Hs Hd H0 l [Hshow Hrest].
  assert (l !! region_pos x z cx cz = None) as Hl.
  { rewrite Hrest; [done|]. intros cx' cz' Hin' E%region_pos_inj. by simplify_eq. }
  assert (∀ l', (∀ p, p ≠ region_pos x z cx cz → l' !! p = l !! p) →
    match columns cx cz with
    | Some v => ∃ c, l' !! region_pos x z cx cz = Some c ∧ column_shows c v
    | None => l' !! region_pos x z cx cz = None end → shows_slots x z columns l0 (done ++ [(cx, cz)]) l') as Hgoal.
  { intros l' Hsame Hnew. split.
    - intros cx' cz' [Hin'|E%list.list_elem_of_singleton]%elem_of_app; [|by simplify_eq].
      rewrite Hsame; [by apply Hshow|]. intros E%region_pos_inj. by simplify_eq.
    - intros p Hp. rewrite Hsame by (apply Hp, elem_of_app; right; by left).
      apply Hrest. intros cx' cz' Hd'. apply Hp, elem_of_app. by left. }
  unfold load_slot, maxXPerRegion. destruct (columns cx cz) as [v|] eqn:Ec; simpl in Hs.
  - destruct Hs as (data & Et & Est & Hcol).
    rewrite (bind_run_ok _ _ _ (Some data) l) by (unfold lift; by rewrite Et).
    unfold _regionLoadChunk. rewrite (bind_run_ok _ _ _ "full"%string l) by (unfold lift; by rewrite Est).
    rewrite decide_False by tauto.
    rewrite (bind_run_ok _ _ _ (region_pos x z cx cz) l) by (unfold lift; by rewrite region_chunk_ok).
    rewrite (bind_run_ok _ _ _ (fresh_column (region_pos x z cx cz)) l) by (unfold lift; by rewrite ChunkColumn_make_fresh).
    rewrite (bind_run_ok _ _ _ tt (<[region_pos x z cx cz := fresh_column (region_pos x z cx cz)]> l))
      by (unfold modify, Level_addChunkColumn; by rewrite Hl).
    destruct (load_column_ok globalPalette data v (region_pos x z cx cz) Hcol) as (c & Eload & Hc & _).
    exists tt. eexists. split.
    + unfold column_member. rewrite lookup_insert_eq, Eload. done.
    + apply Hgoal.
      * intros p Hp. by rewrite !lookup_insert_ne by done.
      * exists c. by rewrite lookup_insert_eq.
  - exists tt, l. split; [|by apply Hgoal].
    destruct Hs as [Et|(data & status & Et & Est & Hne)].
    + by rewrite (bind_run_ok _ _ _ None l) by (unfold lift; by rewrite Et).
    + rewrite (bind_run_ok _ _ _ (Some data) l) by (unfold lift; by rewrite Et).
      unfold _regionLoadChunk. rewrite (bind_run_ok _ _ _ status l) by (unfold lift; by rewrite Est).
      by rewrite decide_True.
Qed.

Lemma load_region_file_ok file x z columns l :
  region_range x z → saved_region file columns →
  (∀ cx cz, (cx, cz) ∈ slots → l !! region_pos x z cx cz = None) →
  ∃ l', load_region_file globalPalette file x z l = (Ok tt, l') ∧ shows_slots x z columns l slots l'.
Proof.
  intros Hr Hs Hl. unfold load_region_file. rewrite for_each_nested. fold slots.
  destruct (triple_for_each (shows_slots x z columns l) slots
    (λ xy, load_slot globalPalette file x z xy.1 xy.2)) with (s := l) as ([] & l' & E & Hl'); [| |by exists l'].
  - intros done [cx cz] rest Hsplit. apply load_slot_ok; [done|..].
    + rewrite Hsplit. apply elem_of_app; right; by left.
    + apply Hs. rewrite Hsplit. apply elem_of_app; right; by left.
    + intros Hd. pose proof slots_nodup as Hn. rewrite Hsplit in Hn.
      apply list.NoDup_app in Hn as (_ & Hn & _). apply (Hn _ Hd). by left.
    + apply Hl. rewrite Hsplit. apply elem_of_app; right; by left.
  - split; [by intros ? ? ?%list.not_elem_of_nil|done].
Qed.

Lemma loadRegion_ok x z file columns s :
  loadFile (region_file folder x z) = Some file → region_range x z → saved_region file columns →
  mk_Position2D x z ∉ _regionStore s →
  (∀ cx cz, (cx, cz) ∈ slots → stored_level s !! region_pos x z cx cz = None) →
  ∃ l, loadRegion folder globalPalette x z s =
      (Ok tt, mk_Persistence (_regionStore s ++ [mk_Position2D x z]) l) ∧
    shows_slots x z columns (stored_level s) slots l.
Proof.
  intros Hf Hr Hs Hn Hl. destruct (load_region_file_ok file x z columns _ Hr Hs Hl) as (l & El & Hshow).
  exists l. split; [|done]. destruct s as [store lev]. unfold loadRegion.
  rewrite (bind_run_ok _ _ _ store _) by done. simpl in Hn. rewrite decide_False by done.
  rewrite (bind_run_ok _ _ _ tt (mk_Persistence (store ++ [mk_Position2D x z]) lev)) by done.
  rewrite Hf. unfold member. simpl in *. by rewrite El.
Qed.

(** C30: A region reads back, but for its sections of one kind of block.  For a file that
    holds complete columns, every section of which has block states of at most 256 different
    identifiers, columns that are not finished, and nothing, in any of its 1024 slots, and
    a level that has none of them yet: loading the region does not fail, and every complete
    column is then ready and has, at every position of each of its sections, the sky light
    and the block light of the file (a missing light is full sky, and no block light), and
    the block of the file when the section has two kinds of blocks or more; a section
    of a single kind, which the format saves without data, is read as air, whatever the kind.
    Unfinished columns are left to the generation, and no other column changes. *)
Theorem region_reads_back (x z : Z) file columns (s : Persistence) :
  loadFile (region_file folder x z) = Some file →
  region_range x z →
  saved_region file columns →
  mk_Position2D x z ∉ _regionStore s →
  (∀ cx cz, (cx, cz) ∈ slots → stored_level s !! region_pos x z cx cz = None) →
  ∃ l, loadRegion folder globalPalette x z s =
      (Ok tt, mk_Persistence (_regionStore s ++ [mk_Position2D x z]) l) ∧
    (∀ cx cz, (cx, cz) ∈ slots → match columns cx cz with
       | Some v => ∃ c, l !! region_pos x z cx cz = Some c ∧ column_shows c v
       | None => l !! region_pos x z cx cz = None end) ∧
    (∀ p, (∀ cx cz, (cx, cz) ∈ slots → p ≠ region_pos x z cx cz) → l !! p = stored_level s !! p).
Proof. apply loadRegion_ok. Qed.

(** *** Which columns are generated *)

Lemma region_of_chunk x z : is_s 32 x → is_s 32 z →
  region_range (x / 32) (z / 32) ∧ (x mod 32, z mod 32) ∈ slots ∧
  region_pos (x / 32) (z / 32) (x mod 32) (z mod 32) = mk_Position2D x z ∧
  transformChunkPosToRegionPos x = x / 32 ∧ transformChunkPosToRegionPos z = z / 32.
Proof.
  unfold is_s. intros Hx Hz. rewrite slots_range. unfold region_range, region_pos.
  split_and!; try div_lia; [f_equal; div_lia|by apply transform_positions_floor..].
Qed.

(** C31: A saved column is not generated.  When a chunk is asked for in a region that was
    not loaded before, the region is loaded; the chunk is then what [region_reads_back] says
    of the column of the file, if the file has it complete: its blocks and lights, with air
    in place of a section of a single kind; and otherwise what the generation makes of
    a new column.  The region is not read again for the other chunks. *)
Theorem saved_column_not_generated (x z : Z) file columns generate c0 (s : Persistence) :
  is_s 32 x → is_s 32 z →
  loadFile (region_file folder (x / 32) (z / 32)) = Some file →
  saved_region file columns →
  mk_Position2D (x / 32) (z / 32) ∉ _regionStore s →
  (∀ cx cz, (cx, cz) ∈ slots → stored_level s !! region_pos (x / 32) (z / 32) cx cz = None) →
  generate (fresh_column (mk_Position2D x z)) = (Ok tt, c0) →
  ∃ s' c, Overworld_generateChunk folder globalPalette true generate x z s = (Ok tt, s') ∧
    mk_Position2D (x / 32) (z / 32) ∈ _regionStore s' ∧
    stored_level s' !! mk_Position2D x z = Some c ∧
    match columns (x mod 32) (z mod 32) with Some v => column_shows c v | None => c = c0 end.
Proof.
  intros Hx Hz Hf Hs Hn Hl Hg. destruct (region_of_chunk x z Hx Hz) as (Hr & Hin & Epos & Ex & Ez).
  destruct (loadRegion_ok (x / 32) (z / 32) file columns s Hf Hr Hs Hn Hl) as (l & El & Hshow & _).
  specialize (Hshow _ _ Hin). rewrite Epos in Hshow.
  assert (mk_Position2D (x / 32) (z / 32) ∈ _regionStore s ++ [mk_Position2D (x / 32) (z / 32)]) as Hst
    by (apply elem_of_app; right; by left).
  assert (isChunkLoaded folder globalPalette x z s =
    (Ok (Level_hasChunkColumn l (mk_Position2D x z)), mk_Persistence (_regionStore s ++ [mk_Position2D (x / 32) (z / 32)]) l)) as Eload.
  { unfold isChunkLoaded. rewrite Ex, Ez, (bind_run_ok _ _ _ tt _ El).
    unfold mbind, M_bind, gets. cbn [_regionStore]. by rewrite decide_True. }
  unfold Overworld_generateChunk. rewrite (bind_run_ok _ _ _ _ _ Eload). unfold Level_hasChunkColumn.
  destruct (columns (x mod 32) (z mod 32)) as [v|].
  - destruct Hshow as (c & Ec & Hc). rewrite Ec. unfold ChunkColumn_isReady.
    rewrite bool_decide_eq_true_2 by apply Hc. by do 2 eexists.
  - rewrite Hshow. rewrite ChunkColumn_make_fresh. unfold Level_addChunkColumn, column_member, member, modify, lift, mbind, M_bind.
    cbn [stored_level _regionStore set_stored_level]. rewrite Hshow, lookup_insert_eq, Hg.
    do 2 eexists. split; [done|]. split; [done|]. cbn. by rewrite lookup_insert_eq.
Qed.
End Region.

(** *** A world with one column *)

Definition example_blocks : list InternalBlock :=
  [mk_InternalBlock "minecraft:air" [] [] 0 0; mk_InternalBlock "minecraft:stone" [] [] 1 1].
Definition example_section : nbt_Base := nbt_Compound EmptyString [
  nbt_Byte "Y" (-4);
  nbt_Compound "block_states" [
    nbt_List "palette" [nbt_Compound EmptyString [nbt_String "Name" "minecraft:air"];
                        nbt_Compound EmptyString [nbt_String "Name" "minecraft:stone"]];
    nbt_LongArray "data" (replicate 256 1)];
  nbt_ByteArray "BlockLight" (replicate 2048 (-1))].
Definition example_column : list nbt_Base := [
  nbt_String "Status" "full";
  nbt_List "sections" [example_section];
  nbt_Compound "Heightmaps" [nbt_LongArray "MOTION_BLOCKING" []; nbt_LongArray "WORLD_SURFACE" []]].
Definition example_saved : SavedSection :=
  mk_SavedSection (-4) [0; 1] (values 64 4096 (mk_DynamicStorage (replicate 256 1) 4)) None (Some (replicate 4096 15)).
Definition example_columns (cx cz : Z) : option (list SavedSection) :=
  if decide (cx + cz * 32 = 0) then Some [example_saved] else None.
(** The first slot says that the chunk starts at the start of the file, and is 1 long. *)
Definition example_region : list Z := [0; 0; 0; 1] ++ replicate 4092 0.
Definition example_storage : Storage :=
  {| loadFile := λ f, if decide (f = "w/region/r.0.-1.mca"%string) then Some example_region else None;
     lib_nbt_parse := λ _, Some (nbt_Compound EmptyString example_column) |}.
#[local] Existing Instance example_storage.

Lemma example_saved_ok : saved_section example_blocks example_section example_saved.
Proof.
  do 2 eexists. split; [reflexivity|]. split; [reflexivity|]. split; [cbn; lia|]. split; [reflexivity|].
  split_and!; [|eexists; split; [reflexivity|]|reflexivity].
  - eexists. split; [reflexivity|]. split; [reflexivity|]. split; [apply (bool_decide_unpack _); exact I|].
    right. split; [cbn; lia|]. split.
    + apply (bool_decide_unpack _). vm_compute. exact I.
    + eexists. split; [reflexivity|]. split; [|reflexivity].
      split; [by vm_compute|]. split; [|done]. apply (bool_decide_unpack _). vm_compute. exact I.
  - split; [|vm_compute; reflexivity]. split; [by vm_compute|]. split; [|done].
    apply (bool_decide_unpack _). vm_compute. exact I.
Qed.
Lemma example_slots_empty :
  forallb (λ k, match slot_tag example_region k with Ok None => true | _ => false end) (seqZ 1 1023) = true.
Proof. vm_compute. reflexivity. Qed.
Lemma example_region_ok : saved_region example_blocks example_region example_columns.
Proof.
  intros cx cz [Hx Hz]%slots_range. unfold example_columns. case_decide as Hk.
  - rewrite Hk. eexists. split; [reflexivity|]. split; [reflexivity|].
    do 4 eexists. split; [reflexivity|]. split; [by repeat constructor; apply example_saved_ok|].
    split; [apply (bool_decide_unpack _); exact I|]. by split_and!.
  - left. pose proof example_slots_empty as E. rewrite forallb_forall in E.
    specialize (E (cx + cz * 32)). rewrite <- list_elem_of_In, elem_of_seqZ in E.
    specialize (E ltac:(lia)). by destruct (slot_tag example_region (cx + cz * 32)) as [[]| | |].
Qed.
Lemma region_reads_back_witness :
  ∃ l, loadRegion "w" example_blocks 0 (-1) (mk_Persistence [] ∅) =
      (Ok tt, mk_Persistence [mk_Position2D 0 (-1)] l) ∧
    (∀ cx cz, (cx, cz) ∈ slots → match example_columns cx cz with
       | Some v => ∃ c, l !! region_pos 0 (-1) cx cz = Some c ∧ column_shows c v
       | None => l !! region_pos 0 (-1) cx cz = None end) ∧
    (∀ p, (∀ cx cz, (cx, cz) ∈ slots → p ≠ region_pos 0 (-1) cx cz) → l !! p = (∅ : Level) !! p).
Proof.
  apply (region_reads_back "w" example_blocks 0 (-1) example_region example_columns (mk_Persistence [] ∅)).
  - vm_compute. reflexivity.
  - split; lia.
  - exact example_region_ok.
  - intros H%list.elem_of_nil. exact H.
  - intros cx cz _. reflexivity.
Defined.

Lemma saved_column_not_generated_witness :
  ∃ s' c, Overworld_generateChunk "w" example_blocks true (modify (set_currentState READY)) 0 (-32) (mk_Persistence [] ∅) = (Ok tt, s') ∧
    mk_Position2D 0 (-1) ∈ _regionStore s' ∧ stored_level s' !! mk_Position2D 0 (-32) = Some c ∧
    column_shows c [example_saved].
Proof.
  apply (saved_column_not_generated "w" example_blocks 0 (-32) example_region example_columns _
    (set_currentState READY (fresh_column (mk_Position2D 0 (-32)))) (mk_Persistence [] ∅)).
  - unfold is_s; lia.
  - unfold is_s; lia.
  - vm_compute. reflexivity.
  - exact example_region_ok.
  - intros H%list.elem_of_nil. exact H.
  - intros cx cz _. reflexivity.
  - reflexivity.
Defined.

(** ** Where reading fails *)

(** The numbers of a region file are written with the high byte first. *)
Lemma RegionLocation_bytes bs : Forall is_byte bs → length bs = 4%nat →
  RegionLocation_getOffset (le_value bs) = be_value (take 3 bs) ∧
  RegionLocation_getSize (le_value bs) = be_value (drop 3 bs) ∧
  ChunkHeader_getLength (le_value bs) = be_value bs.
Proof.
  intros Hb Hl. split_and!; [| |by apply ntoh32_le].
  - set (n := le_value bs).
    assert (RegionLocation_getOffset n =
      Z.lor (to_u8 (Z.shiftr n (8 * Z.of_nat 2))) (Z.shiftl (Z.lor (to_u8 (Z.shiftr n (8 * Z.of_nat 1)))
        (Z.shiftl (to_u8 (Z.shiftr n (8 * Z.of_nat 0))) 8)) 8)) as ->.
    { unfold RegionLocation_getOffset, to_u8. change 0xFF0000 with (Z.shiftl (Z.ones 8) 16).
      change 0xFF00 with (Z.shiftl (Z.ones 8) 8). change 0xFF with (Z.ones 8).
      change (8 * Z.of_nat 2) with 16. change (8 * Z.of_nat 1) with 8. change (8 * Z.of_nat 0) with 0. zbits. }
    unfold n. rewrite !le_value_byte by done.
    destruct bs as [|x [|y [|z [|w []]]]]; try done. cbn [nth_byte].
    repeat match goal with Hf : Forall _ (_ :: _) |- _ => apply Forall_cons_1 in Hf as [? Hf] end.
    rewrite !lor_shift_byte by done. unfold be_value; cbn. unfold be_step. lia.
  - unfold RegionLocation_getSize. change 24 with (8 * Z.of_nat 3). rewrite le_value_byte by done.
    by destruct bs as [|x [|y [|z [|w []]]]].
Qed.

Lemma store_size_large v : 9 ≤ v ≤ 12 → (if decide (v = 0) then 0 else store_size 64 4096 v) ≤ 820.
Proof.
  intros Hv. assert (v = 9 ∨ v = 10 ∨ v = 11 ∨ v = 12) as [-> |[-> |[-> | ->]]] by lia; by vm_compute.
Qed.
Lemma wide_get_throws store i : 3280 ≤ i < 4096 → zlen store ≤ 820 →
  DynamicStorage_get 64 4096 (mk_DynamicStorage store 15) i = Throw std_out_of_range.
Proof.
  intros Hi Hs. unfold DynamicStorage_get. rewrite decide_False by done. rewrite decide_False by lia. cbn zeta.
  change (value_mask _) with (Ok 32767). cbn [mbind result_bind _valueSize _store].
  unfold vector_at. rewrite decide_False; [done|]. change (Z.quot 64 15) with 4.
  rewrite Z.quot_div_nonneg by lia. div_lia.
Qed.

(** A large palette.  The file packs the indices of a section of 257 to 4096 kinds
    of blocks in 9 to 12 bits each; the server reads them in 15.  The section loads, and
    no block of its upper layers can be read: every access throws [out_of_range]. *)
Theorem large_palette_cut globalPalette blockStates palette ids cells longs s :
  GET_VALUE as_list blockStates "palette" = Ok palette →
  saved_palette_ids globalPalette palette = Ok ids → NoDup ids →
  257 ≤ zlen ids ≤ 4096 →
  GET_VALUE as_longs blockStates "data" = Ok longs →
  packed 64 (file_bits ids) cells (to_u64 <$> longs) →
  _blocks s = mk_DynamicStorage [] 0 →
  ∃ s', load_blocks globalPalette blockStates s = (Ok tt, s') ∧
    ∀ pos, in_section 16 pos → 13 ≤ py pos → Section_getBlock s' pos = Throw std_out_of_range.
Proof.
  intros Hp Hi Hnd Hn Hl [Hw _] Hs.
  assert (9 ≤ Z.log2_up (zlen ids) ≤ 12) as Hbits.
  { split; [|apply Z.log2_up_le_pow2; lia].
    assert (8 < Z.log2_up (zlen ids)) by (apply Z.log2_up_lt_pow2; lia). lia. }
  exists (with_blocks ids (mk_DynamicStorage (to_u64 <$> longs) 15) s). split.
  - apply (load_blocks_data _ _ palette); [done..| |done|done]. apply getBits_large. lia.
  - intros pos Hpos Hy. unfold Section_getBlock, SECTION_WIDTH.
    destruct (guard_inside 16 pos Hpos) as [-> _]. rewrite block_idx_ok by done. cbn [mbind result_bind].
    change (canContainData _) with true. cbn [negb].
    pose proof (cell_index_range 16 pos Hpos) as Hc.
    assert (3328 ≤ cell_index 16 pos) by (unfold cell_index, in_section in *; lia).
    change (BlockStorage_get _ _) with (DynamicStorage_get 64 4096 (mk_DynamicStorage (to_u64 <$> longs) 15) (cell_index 16 pos)).
    rewrite wide_get_throws; [done|lia|]. cbn [_store]. rewrite length_fmap.
    destruct Hw as (_ & _ & Hlen). cbn [_store _valueSize] in Hlen. rewrite length_fmap in Hlen.
    rewrite Hlen. unfold file_bits. rewrite Z.max_r by lia.
    by apply (store_size_large _ Hbits).
Qed.

Definition many_name (i : Z) : string := String.append "b" (pretty i).
Definition many_blocks : list InternalBlock := (λ i, mk_InternalBlock (many_name i) [] [] i i) <$> seqZ 0 257.
Definition many_palette : list nbt_Base := (λ i, nbt_Compound EmptyString [nbt_String "Name" (many_name i)]) <$> seqZ 0 257.
Lemma many_ids : saved_palette_ids many_blocks many_palette = Ok (seqZ 0 257).
Proof. vm_compute. reflexivity. Qed.
Lemma large_palette_cut_witness :
  ∃ s', load_blocks many_blocks [nbt_List "palette" many_palette; nbt_LongArray "data" (replicate 586 0)] fresh_section = (Ok tt, s') ∧
    ∀ pos, in_section 16 pos → 13 ≤ py pos → Section_getBlock s' pos = Throw std_out_of_range.
Proof.
  apply (large_palette_cut many_blocks _ many_palette (seqZ 0 257)
    (values 64 4096 (mk_DynamicStorage (to_u64 <$> replicate 586 0) 9)) (replicate 586 0)).
  - reflexivity.
  - exact many_ids.
  - apply (bool_decide_unpack _). vm_compute. exact I.
  - rewrite length_seqZ. lia.
  - reflexivity.
  - split; [|reflexivity]. split; [by vm_compute|]. split; [|by vm_compute].
    apply (bool_decide_unpack _). vm_compute. exact I.
  - reflexivity.
Defined.

(** What only ends well or at an assertion. *)
Definition asserts {A} (r : result A) : Prop := r = UB FailedAssertion ∨ ∃ a, r = Ok a.
Lemma get_value_asserts {A} (as_type : nbt_Base → option A) root src : asserts (GET_VALUE as_type root src).
Proof.
  unfold asserts, GET_VALUE, assert_some. destruct (compound_get root src); cbn; [|by left].
  destruct (as_type _); eauto.
Qed.
Lemma get_list_asserts {A} (as_type : nbt_Base → option A) root src n : asserts (GET_LIST as_type root src n).
Proof.
  unfold GET_LIST. destruct (get_value_asserts as_list root src) as [->|[l ->]]; cbn; [by left|].
  case_decide; [|by left]. destruct (elements _ _); cbn; [right; eauto|by left].
Qed.
Lemma assert_then {A B} (r : result A) (f : A → result B) :
  asserts r → (∀ a, r = Ok a → f a = UB FailedAssertion) → (r ≫= f) = UB FailedAssertion.
Proof. intros [->|[a ->]] Hf; [done|by apply Hf]. Qed.
Lemma list_is_no_array root src n l : GET_LIST as_float root src n = Ok l → GET_VALUE as_ints root src = UB FailedAssertion.
Proof.
  unfold GET_LIST, GET_VALUE, assert_some. destruct (compound_get root src) as [t|]; [|done]. by destruct t.
Qed.

(** The file of a player cannot be read.  [Rotation] must be both a list of two
    floats and an array of four integers: whatever the file holds, an assertion
    fails. *)
Theorem player_file_refused root : player_data root = UB FailedAssertion.
Proof.
  unfold player_data. destruct (as_compound root) as [data|]; [|done]. cbn [assert_some mbind result_bind].
  repeat first
    [ match goal with E : GET_LIST as_float _ "Rotation" _ = _ |- (GET_VALUE as_ints _ _ ≫= _) = _ =>
        by rewrite (list_is_no_array _ _ _ _ E) end
    | apply assert_then; [first [apply get_value_asserts | apply get_list_asserts]|intros ? ?] ].
Qed.

(** The height maps of the file are added behind those of the constructor, which are
    the ones that are found. *)
Lemma getValue_app l k name t : nbt_getValue l name = Some t → nbt_getValue (l ++ k) name = Some t.
Proof. induction l as [|i l IH]; simpl; [done|]. by case_decide. Qed.
Lemma loaded_heightmap_hidden c heightmaps name l t :
  nbt_getValue (_heightMap c) name = Some t → GET_VALUE as_longs heightmaps name = Ok l →
  ∃ c', load_heightmap heightmaps name c = (Ok tt, c') ∧ nbt_getValue (_heightMap c') name = Some t.
Proof.
  intros Ht Hl. eexists. split.
  - unfold load_heightmap, mbind, M_bind, lift. by rewrite Hl.
  - simpl. by apply getValue_app.
Qed.
