(* ===== verification/Container.v ===== *)
(** * Containers (protocol/container/Container.hpp, Container.cpp)

    What a click does to a container.  The slots a container gives out are
    references, some of which may be the cursor itself, so the clicks are
    modelled over locations in a store.  [Container] is the interface of the
    virtual methods; the inventory implements it in [Inventory].  The items that a click
    throws into the world are collected in order. *)

From S2P Require Import Prelude Types State Structures ServerPackets.

(** ** State and modes *)

Definition State_Normal : Z := 0.
Definition State_LeftDrag : Z := 1.
Definition State_RightDrag : Z := 2.
Definition State_MiddleDrag : Z := 3.

Definition ClickMode_Click : Z := 0.
Definition ClickMode_ShiftClick : Z := 1.
Definition ClickMode_Keys : Z := 2.
Definition ClickMode_MiddleClick : Z := 3.
Definition ClickMode_DropButton : Z := 4.
Definition ClickMode_Drag : Z := 5.
Definition ClickMode_DoubleClick : Z := 6.

(** [at] and [size] are virtual; the identifier, the cursor, the state and the
    index of the carried item are members. *)
Class Container (L S : Type) `{SlotStore L S} : Type := {
  container_id : Z;
  container_at : Z → result L;
  container_cursor : L;
  container_size : Z;
  container_state : S → Z;
  container_cariedItemIndex : S → Z;
  container_setState : Z → S → S
}.

Section OnClick.
Context {L S : Type} `{Container L S}.

(** A container and the items dropped so far. *)
Definition Clicks : Type := S * list Slot.

Definition read_slot (l : L) : M Clicks Slot := gets (λ s, slot_get l s.1).
Definition write_slot (l : L) (v : Slot) : M Clicks unit := modify (λ s, (slot_put l v s.1, s.2)).
Definition write_count (l : L) (n : Z) : M Clicks unit := modify (λ s, (put_count l n s.1, s.2)).
Definition reset_slot (l : L) : M Clicks unit := v ← read_slot l; write_slot l (Slot_reset v).
Definition on_store (f : S → S) : M Clicks unit := modify (λ s, (f s.1, s.2)).
Definition at_index (index : Z) : M Clicks L := lift (container_at index).

(** [makeEntity<Item>(item)->dropItem(...)] *)
Definition dropItem (item : Slot) : M Clicks unit := modify (λ s, (s.1, s.2 ++ [item])).

Definition close : M Clicks unit :=
  c ← read_slot container_cursor;
  if present c then _ ← dropItem c; reset_slot container_cursor else mret tt.

(** [case ClickMode::Click] *)
Definition onClick_click (index buttonId : Z) : M Clicks unit :=
  c ← read_slot container_cursor;
  if decide (index = -999) then
    if negb (present c) then mret tt
    else if decide (buttonId = 0) then
      _ ← dropItem c; reset_slot container_cursor
    else
      _ ← dropItem (mk_Slot true (itemID c) 1);
      _ ← write_count container_cursor (itemCount c - 1);
      c ← read_slot container_cursor;
      if decide (itemCount c = 0) then reset_slot container_cursor else mret tt
  else
    l ← at_index index;
    if decide (buttonId = 0) then on_store (Slot_swap l container_cursor)
    else if negb (present c) then
      v ← read_slot l;
      on_store (Slot_swap_n l container_cursor (Z.quot (itemCount v) 2))
    else on_store (Slot_swap_n container_cursor l 1).

(** [case ClickMode::MiddleClick] *)
Definition onClick_middle (isCreative : bool) (index : Z) : M Clicks unit :=
  l ← at_index index;
  if negb isCreative then mret tt
  else
    v ← read_slot l;
    _ ← write_slot container_cursor v;
    write_count container_cursor 64.

(** [case ClickMode::DropButton] *)
Definition onClick_drop (index buttonId : Z) : M Clicks unit :=
  c ← read_slot container_cursor;
  if present c then mret tt
  else
    l ← at_index index;
    v ← read_slot l;
    if negb (present v) then mret tt
    else
      _ ← (if decide (buttonId = 0) then
             _ ← dropItem (mk_Slot true (itemID v) 1);
             _ ← write_count l (itemCount v - 1);
             v ← read_slot l;
             if decide (itemCount v = 0) then reset_slot l else mret tt
           else
             _ ← dropItem v; reset_slot l);
      v ← read_slot l;
      if decide (itemCount v = 0) then reset_slot l else mret tt.

(** The body of the loop that ends a left drag, over [rest] and [addedStack]. *)
Definition drag_update (update : ClickContainer_SlotWithIndex) (rest addedStack : Z) :
  M Clicks (Z * Z) :=
  l ← at_index (ClickContainer_SlotWithIndex_slotNumber update);
  v ← read_slot l;
  c ← read_slot container_cursor;
  if present v then
    if decide (itemID v = itemID c ∧ itemCount v < 64) then
      _ ← write_count l (itemCount v + addedStack);
      v ← read_slot l;
      if decide (64 < itemCount v) then
        _ ← write_count l 64;
        mret (to_i16 (rest + (itemCount v - 64)), addedStack)
      else mret (rest, 0)
    else mret (rest, addedStack)
  else
    _ ← write_slot l c;
    _ ← write_count l addedStack;
    mret (rest, addedStack).

Fixpoint drag_loop (updates : list ClickContainer_SlotWithIndex) (rest addedStack : Z) :
  M Clicks Z :=
  match updates with
  | [] => mret rest
  | update :: updates =>
      r ← drag_update update rest addedStack;
      drag_loop updates r.1 r.2
  end.

(** [_cursor.itemCount / updates.size()] and [%]: the count becomes a [size_t]. *)
Definition share (f : Z → Z → Z) (itemCount size : Z) : result Z :=
  if decide (size = 0) then UB DivisionByZero else Ok (to_i16 (f (to_u64 itemCount) size)).

Definition end_left_drag (updates : list ClickContainer_SlotWithIndex) : M Clicks unit :=
  c ← read_slot container_cursor;
  rest ← lift (share Z.modulo (itemCount c) (zlen updates));
  addedStack ← lift (share Z.div (itemCount c) (zlen updates));
  rest ← drag_loop updates rest addedStack;
  _ ← (if decide (0 < rest) then write_count container_cursor rest else reset_slot container_cursor);
  on_store (container_setState State_Normal).

(** [case ClickMode::Drag] *)
Definition onClick_drag (isCreative : bool) (index buttonId : Z)
    (updates : list ClickContainer_SlotWithIndex) : M Clicks unit :=
  s ← gets (λ s, container_state s.1);
  c ← read_slot container_cursor;
  let start st := if negb (present c) then mret tt else on_store (container_setState st) in
  if decide (buttonId = 0 ∧ index = -999 ∧ s = State_Normal) then start State_LeftDrag
  else if decide (buttonId = 4 ∧ index = -999 ∧ s = State_Normal) then start State_RightDrag
  else if decide (buttonId = 8 ∧ index = -999 ∧ s = State_Normal ∧ isCreative = true) then
    start State_MiddleDrag
  else if decide (buttonId = 1 ∧ s = State_LeftDrag) then mret tt
  else if decide (buttonId = 2 ∧ index = -999 ∧ s = State_LeftDrag) then end_left_drag updates
  else on_store (container_setState State_Normal).

(** [case ClickMode::DoubleClick] *)
Definition collect_slot (i : Z) : M Clicks unit :=
  l ← at_index (to_i16 i);
  c ← read_slot container_cursor;
  v ← read_slot l;
  if negb (Slot_eqb c v) then mret tt
  else
    _ ← write_count container_cursor (itemCount c + itemCount v);
    c ← read_slot container_cursor;
    if decide (64 < itemCount c) then
      _ ← write_count l (itemCount c - 64);
      write_count container_cursor 64
    else reset_slot l.

Definition onClick_double (index : Z) : M Clicks unit :=
  l ← at_index index;
  v ← read_slot l;
  c ← read_slot container_cursor;
  if present v || bool_decide (itemCount c = 64) || negb (present c) then mret tt
  else for_each (seqZ 0 container_size) collect_slot.

Definition Container_onClick (isCreative : bool) (index buttonId mode : Z)
    (updates : list ClickContainer_SlotWithIndex) : M Clicks unit :=
  if decide (mode = ClickMode_Click) then onClick_click index buttonId
  else if decide (mode = ClickMode_MiddleClick) then onClick_middle isCreative index
  else if decide (mode = ClickMode_DropButton) then onClick_drop index buttonId
  else if decide (mode = ClickMode_Drag) then onClick_drag isCreative index buttonId updates
  else if decide (mode = ClickMode_DoubleClick) then onClick_double index
  else mret tt.
End OnClick.
Arguments Clicks : clear implicits.
