(* ===== verification/Inventory.v ===== *)
(** * The player's inventory (protocol/container/Inventory.hpp, Inventory.cpp)

    The five arrays of slots of a player and the cursor, the map from the slot
    numbers of the protocol to them, and the clicks that the inventory handles itself. *)

From S2P Require Import Prelude Types State Structures ServerPackets Container.

Definition INVENTORY_SIZE : Z := 27.
Definition HOTBAR_SIZE : Z := 9.
Definition ARMOR_SIZE : Z := 4.
Definition CRAFTING_GRID_2X2 : Z := 5.
Definition HOTBAR_OFFSET : Z := INVENTORY_SIZE + ARMOR_SIZE + CRAFTING_GRID_2X2.

(** The members of [Container] that change, and those of [Inventory]. *)
Record Inventory : Type := mk_Inventory {
  _state : Z;
  _cursor : Slot;
  _cariedItemIndex : Z;
  _playerInventory : list Slot;
  _hotbar : list Slot;
  _armor : list Slot;
  _offhand : Slot;
  _craftingGrid : list Slot
}.

Definition set_state n v := mk_Inventory n (_cursor v) (_cariedItemIndex v) (_playerInventory v)
  (_hotbar v) (_armor v) (_offhand v) (_craftingGrid v).
Definition set_cursor s v := mk_Inventory (_state v) s (_cariedItemIndex v) (_playerInventory v)
  (_hotbar v) (_armor v) (_offhand v) (_craftingGrid v).
Definition setCariedItemIndex i v := mk_Inventory (_state v) (_cursor v) i (_playerInventory v)
  (_hotbar v) (_armor v) (_offhand v) (_craftingGrid v).
Definition set_playerInventory l v := mk_Inventory (_state v) (_cursor v) (_cariedItemIndex v) l
  (_hotbar v) (_armor v) (_offhand v) (_craftingGrid v).
Definition set_hotbar l v := mk_Inventory (_state v) (_cursor v) (_cariedItemIndex v)
  (_playerInventory v) l (_armor v) (_offhand v) (_craftingGrid v).
Definition set_armor l v := mk_Inventory (_state v) (_cursor v) (_cariedItemIndex v)
  (_playerInventory v) (_hotbar v) l (_offhand v) (_craftingGrid v).
Definition set_offhand s v := mk_Inventory (_state v) (_cursor v) (_cariedItemIndex v)
  (_playerInventory v) (_hotbar v) (_armor v) s (_craftingGrid v).
Definition set_craftingGrid l v := mk_Inventory (_state v) (_cursor v) (_cariedItemIndex v)
  (_playerInventory v) (_hotbar v) (_armor v) (_offhand v) l.

Definition Inventory_make : Inventory :=
  mk_Inventory State_Normal Slot_default 0
    (replicate (Z.to_nat INVENTORY_SIZE) Slot_default) (replicate (Z.to_nat HOTBAR_SIZE) Slot_default)
    (replicate (Z.to_nat ARMOR_SIZE) Slot_default) Slot_default
    (replicate (Z.to_nat CRAFTING_GRID_2X2) Slot_default).

(** The slots a reference can stand for. *)
Inductive slot_ref : Type :=
| ref_cursor | ref_offhand
| ref_crafting (i : nat) | ref_armor (i : nat) | ref_main (i : nat) | ref_hotbar (i : nat).

#[export] Instance slot_ref_eq_dec : EqDecision slot_ref.
Proof. solve_decision. Defined.

Definition Inventory_get (r : slot_ref) (v : Inventory) : Slot :=
  match r with
  | ref_cursor => _cursor v
  | ref_offhand => _offhand v
  | ref_crafting i => default Slot_default (_craftingGrid v !! i)
  | ref_armor i => default Slot_default (_armor v !! i)
  | ref_main i => default Slot_default (_playerInventory v !! i)
  | ref_hotbar i => default Slot_default (_hotbar v !! i)
  end.

Definition Inventory_put (r : slot_ref) (s : Slot) (v : Inventory) : Inventory :=
  match r with
  | ref_cursor => set_cursor s v
  | ref_offhand => set_offhand s v
  | ref_crafting i => set_craftingGrid (<[i := s]> (_craftingGrid v)) v
  | ref_armor i => set_armor (<[i := s]> (_armor v)) v
  | ref_main i => set_playerInventory (<[i := s]> (_playerInventory v)) v
  | ref_hotbar i => set_hotbar (<[i := s]> (_hotbar v)) v
  end.

#[export] Instance Inventory_store : SlotStore slot_ref Inventory :=
  { slot_get := Inventory_get; slot_put := Inventory_put }.

(** [array.at(i)]: the index becomes a [size_t]. *)
Definition array_at (ref : nat → slot_ref) (size i : Z) : result slot_ref :=
  if decide (0 ≤ i < size) then Ok (ref (Z.to_nat i)) else Throw std_out_of_range.

Definition Inventory_at (index : Z) : result slot_ref :=
  if decide (index = -1) then Ok ref_cursor
  else if decide (index < 5) then array_at ref_crafting CRAFTING_GRID_2X2 index
  else if decide (index < 9) then array_at ref_armor ARMOR_SIZE (index - 5)
  else if decide (index < 36) then array_at ref_main INVENTORY_SIZE (index - 9)
  else if decide (index < 45) then array_at ref_hotbar HOTBAR_SIZE (index - 36)
  else if decide (index = 45) then Ok ref_offhand
  else Throw std_out_of_range.

Definition Inventory_size : Z := INVENTORY_SIZE + HOTBAR_SIZE + ARMOR_SIZE + CRAFTING_GRID_2X2 + 1.

#[export] Instance Inventory_container : Container slot_ref Inventory := {
  container_id := 0;
  container_at := Inventory_at;
  container_cursor := ref_cursor;
  container_size := Inventory_size;
  container_state := _state;
  container_cariedItemIndex := _cariedItemIndex;
  container_setState := set_state
}.

(** The first loop of [swapContainer]: the stacks of the same kind.  It answers
    whether the function has returned. *)
Fixpoint swap_merge (slot : slot_ref) (container : list slot_ref) : M Inventory bool :=
  match container with
  | [] => mret false
  | containerSlot :: container =>
      c ← gets (slot_get containerSlot);
      s ← gets (slot_get slot);
      if Slot_eqb c s then
        _ ← modify (put_count containerSlot (itemCount c + itemCount s));
        c ← gets (slot_get containerSlot);
        if decide (itemCount c ≤ 64) then
          _ ← modify (slot_put slot (Slot_reset s)); mret true
        else
          _ ← modify (put_count slot (itemCount c - 64));
          _ ← modify (put_count containerSlot 64);
          swap_merge slot container
      else swap_merge slot container
  end.

(** The second loop: the first empty place. *)
Fixpoint swap_place (slot : slot_ref) (container : list slot_ref) : M Inventory unit :=
  match container with
  | [] => mret tt
  | containerSlot :: container =>
      c ← gets (slot_get containerSlot);
      if negb (present c) then
        s ← gets (slot_get slot);
        _ ← modify (slot_put containerSlot s);
        s ← gets (slot_get slot);
        modify (slot_put slot (Slot_reset s))
      else swap_place slot container
  end.

Definition swapContainer (slot : slot_ref) (container : list slot_ref) : M Inventory unit :=
  returned ← swap_merge slot container;
  if returned : bool then mret tt else swap_place slot container.

Definition hotbar_refs : list slot_ref := ref_hotbar <$> seq 0 (Z.to_nat HOTBAR_SIZE).
Definition main_refs : list slot_ref := ref_main <$> seq 0 (Z.to_nat INVENTORY_SIZE).

(** The methods of the inventory alone. *)
Abbreviation on_inventory := (member fst (λ v s, (v, s.2))).

Definition Inventory_onClick (isCreative : bool) (index buttonId mode : Z)
    (updates : list ClickContainer_SlotWithIndex) : M (Clicks Inventory) unit :=
  if decide (mode = ClickMode_ShiftClick) then
    l ← at_index index;
    if decide (9 ≤ index ∧ index < 36) then on_inventory (swapContainer l hotbar_refs)
    else on_inventory (swapContainer l main_refs)
  else if decide (mode = ClickMode_Keys) then
    if decide (buttonId = 40) then
      l ← at_index index; on_store (std_swap ref_offhand l)
    else
      h ← lift (array_at ref_hotbar HOTBAR_SIZE buttonId);
      l ← at_index index; on_store (std_swap h l)
  else Container_onClick isCreative index buttonId mode updates.
