(* ===== verification/InventoryLaws.v ===== *)
(** * The laws of the inventory

    The five arrays and the cursor are a store of slots, so that the swaps keep
    what they hold; the items of every kind are counted over all the slots, and
    what a click throws into the world. *)

From S2P Require Import Prelude Types State Structures ServerPackets Container Inventory.

(** ** The store *)

Definition arrays_sized (v : Inventory) : Prop :=
  zlen (_playerInventory v) = INVENTORY_SIZE ∧ zlen (_hotbar v) = HOTBAR_SIZE ∧
  zlen (_armor v) = ARMOR_SIZE ∧ zlen (_craftingGrid v) = CRAFTING_GRID_2X2.

Definition in_array (r : slot_ref) : Prop :=
  match r with
  | ref_cursor | ref_offhand => True
  | ref_crafting i => (i < 5)%nat
  | ref_armor i => (i < 4)%nat
  | ref_main i => (i < 27)%nat
  | ref_hotbar i => (i < 9)%nat
  end.

Definition Inventory_valid (r : slot_ref) (v : Inventory) : Prop := arrays_sized v ∧ in_array r.

Lemma arrays_sized_put r s v : arrays_sized (slot_put r s v) ↔ arrays_sized v.
Proof. destruct r; cbn; unfold arrays_sized; cbn; by rewrite ?length_insert. Qed.

#[export] Instance Inventory_laws : SlotStoreLaws slot_ref Inventory Inventory_valid.
Proof.
  split.
  - intros l s v [(H1 & H2 & H3 & H4) Hl]. unfold INVENTORY_SIZE, HOTBAR_SIZE, ARMOR_SIZE,
      CRAFTING_GRID_2X2 in *. destruct l; cbn in *; try done;
      rewrite list_lookup_insert_eq by lia; done.
  - intros l k s v Hne. destruct l, k; cbn; try done; rewrite list_lookup_insert_ne; congruence.
  - intros l k s v. unfold Inventory_valid. by rewrite arrays_sized_put.
Qed.

Lemma Inventory_put_put r a b (v : Inventory) : slot_put r a (slot_put r b v) = slot_put r a v.
Proof. destruct r; cbn; try done; by rewrite list_insert_insert_eq. Qed.

Lemma Inventory_put_comm r q a b (v : Inventory) :
  r ≠ q → slot_put r a (slot_put q b v) = slot_put q b (slot_put r a v).
Proof. intros Hne. destruct r, q; cbn; try done; by rewrite list_insert_insert_ne by congruence. Qed.

Definition all_slots : list slot_ref :=
  ref_cursor :: ref_offhand :: (ref_crafting <$> seq 0 5) ++ (ref_armor <$> seq 0 4) ++
  (ref_main <$> seq 0 27) ++ (ref_hotbar <$> seq 0 9).

Lemma all_slots_NoDup : NoDup all_slots.
Proof. apply (bool_decide_eq_true_1 _). by vm_compute. Qed.

Lemma elem_of_all_slots r : r ∈ all_slots ↔ in_array r.
Proof.
  unfold all_slots. rewrite !elem_of_cons, !elem_of_app, !list_elem_of_fmap.
  setoid_rewrite elem_of_seq. destruct r; cbn; naive_solver lia.
Qed.

(** ** Counting *)

Definition sum_of {A} (f : A → Z) (l : list A) : Z := foldr (λ x n, f x + n) 0 l.

Lemma sum_of_cons {A} (f : A → Z) x l : sum_of f (x :: l) = f x + sum_of f l.
Proof. done. Qed.

Lemma sum_of_ext {A} (f g : A → Z) l : (∀ x, x ∈ l → f x = g x) → sum_of f l = sum_of g l.
Proof.
  induction l as [|x l IH]; intros H; [done|]. rewrite !sum_of_cons. f_equal; [apply H; by left|].
  apply IH. intros y Hy. apply H. by right.
Qed.

Lemma sum_of_update {A} (f g : A → Z) l x :
  NoDup l → x ∈ l → (∀ y, y ∈ l → y ≠ x → f y = g y) → sum_of f l = sum_of g l - g x + f x.
Proof.
  induction l as [|z l IH]; intros Hd Hx H; [by apply elem_of_nil in Hx|].
  apply list.NoDup_cons in Hd as [Hz Hd]. rewrite !sum_of_cons. apply elem_of_cons in Hx as [<-|Hx].
  - rewrite (sum_of_ext f g l); [lia|]. intros y Hy. apply H; [by right|congruence].
  - rewrite (IH Hd Hx), (H z); [lia|by left|congruence|]. intros y Hy. apply H. by right.
Qed.

(** The items of a kind in the inventory and its cursor. *)
Definition total (id : Z) (v : Inventory) : Z :=
  sum_of (λ r, items_in id (slot_get r v)) all_slots.
Definition dropped (id : Z) (items : list Slot) : Z := sum_of (items_in id) items.

Lemma total_put id r s v :
  Inventory_valid r v →
  total id (slot_put r s v) = total id v - items_in id (slot_get r v) + items_in id s.
Proof.
  intros Hv. unfold total. rewrite (sum_of_update _ (λ r, items_in id (slot_get r v)) _ r).
  - by rewrite get_put_eq.
  - apply all_slots_NoDup.
  - by apply elem_of_all_slots, Hv.
  - intros y _ Hy. by rewrite get_put_ne.
Qed.

(** ** Stocked inventories *)

Definition stocked (v : Inventory) : Prop :=
  arrays_sized v ∧ ∀ r, in_array r → Slot_sound (slot_get r v).

Definition keeps (v v' : Inventory) : Prop := stocked v' ∧ ∀ id, total id v' = total id v.

Lemma stocked_valid v r : stocked v → in_array r → Inventory_valid r v.
Proof. by intros [? _]. Qed.
Lemma arrays_sized_of r v : Inventory_valid r v → arrays_sized v.
Proof. by intros []. Qed.
Lemma stocked_sound v r : stocked v → in_array r → Slot_sound (slot_get r v).
Proof. intros [_ H]. apply H. Qed.

Lemma get_put_count r n v :
  Inventory_valid r v → slot_get r (put_count r n v) = with_count (slot_get r v) n.
Proof. intros H. unfold put_count. by rewrite get_put_eq. Qed.
Lemma get_put_count_ne r q n v : r ≠ q → slot_get q (put_count r n v) = slot_get q v.
Proof. intros H. unfold put_count. by rewrite get_put_ne. Qed.
Lemma valid_put_count r q n v : Inventory_valid q (put_count r n v) ↔ Inventory_valid q v.
Proof. apply valid_put. Qed.

Lemma stocked_put r s v : in_array r → stocked v → Slot_sound s → stocked (slot_put r s v).
Proof.
  intros Hr [Hv Hs] Hsound. split; [by apply arrays_sized_put|]. intros q Hq.
  destruct (decide (q = r)) as [->|]; [by rewrite get_put_eq|]. rewrite get_put_ne by done. auto.
Qed.

(** Two slots change and hold together what they held: the inventory keeps its stock. *)
Lemma keeps_pair a b v v' :
  a ≠ b → in_array a → in_array b → stocked v → arrays_sized v' →
  (∀ r, r ≠ a → r ≠ b → slot_get r v' = slot_get r v) →
  Slot_sound (slot_get a v') ∧ Slot_sound (slot_get b v') ∧
  (∀ id, items_in id (slot_get a v') + items_in id (slot_get b v') =
         items_in id (slot_get a v) + items_in id (slot_get b v)) →
  keeps v v'.
Proof.
  intros Hne Ha Hb Hv Hv' Hf (Sa & Sb & Hsum). split.
  - split; [done|]. intros r Hr. destruct (decide (r = a)) as [->|]; [done|].
    destruct (decide (r = b)) as [->|]; [done|]. rewrite Hf by done. by apply stocked_sound.
  - intros id. unfold total.
    set (mid r := items_in id (if decide (r = a) then slot_get a v' else slot_get r v)).
    rewrite (sum_of_update _ mid _ b).
    + rewrite (sum_of_update mid (λ r, items_in id (slot_get r v)) _ a).
      * unfold mid. rewrite decide_True, decide_False by done. specialize (Hsum id). lia.
      * apply all_slots_NoDup.
      * by apply elem_of_all_slots.
      * intros r _ Hr. unfold mid. by rewrite decide_False.
    + apply all_slots_NoDup.
    + by apply elem_of_all_slots.
    + intros r _ Hr. unfold mid. case_decide; [by subst|]. by rewrite Hf.
Qed.

Lemma keeps_refl v : stocked v → keeps v v.
Proof. done. Qed.

Lemma keeps_swap a b v :
  a ≠ b → in_array a → in_array b → stocked v → keeps v (Slot_swap a b v).
Proof.
  intros Hne Ha Hb Hv. apply (keeps_pair a b); try done.
  - apply (arrays_sized_of ref_cursor). by apply Slot_swap_valid, stocked_valid.
  - intros r. apply Slot_swap_frame.
  - apply Slot_swap_sound_conserves; auto using stocked_valid, stocked_sound.
Qed.

Lemma keeps_swap_n a b x v :
  a ≠ b → in_array a → in_array b → stocked v → 0 ≤ x →
  (x = 0 → present (slot_get a v) = false ∨ present (slot_get b v) = true) →
  keeps v (Slot_swap_n a b x v).
Proof.
  intros Hne Ha Hb Hv H0 Hx. apply (keeps_pair a b); try done.
  - apply (arrays_sized_of ref_cursor). by apply Slot_swap_n_valid, stocked_valid.
  - intros r. apply Slot_swap_n_frame.
  - apply Slot_swap_n_sound_conserves; auto using stocked_valid, stocked_sound.
Qed.

(** Exchanging a slot with itself changes nothing either. *)
Lemma keeps_std_swap a b v :
  in_array a → in_array b → stocked v → keeps v (std_swap a b v).
Proof.
  intros Ha Hb Hv. pose proof (stocked_sound v _ Hv Ha) as Sa.
  pose proof (stocked_sound v _ Hv Hb) as Sb. unfold std_swap. split.
  - by repeat apply stocked_put.
  - intros id. rewrite total_put by (apply stocked_valid; [by apply stocked_put|done]).
    rewrite total_put by by apply stocked_valid.
    destruct (decide (a = b)) as [->|].
    + rewrite get_put_eq by by apply stocked_valid. lia.
    + rewrite get_put_ne by done. lia.
Qed.
