(* ===== verification/InventoryProps.v ===== *)
(** * What clicks do to the items of an inventory

    The clicks that keep every item, as transitions of the inventory, and those that
    create or destroy some. *)

From S2P Require Import Prelude Types State Structures ServerPackets Container Inventory InventoryLaws.

(** ** Indices *)

Lemma Inventory_at_ok index :
  0 ≤ index ≤ 45 → ∃ r, Inventory_at index = Ok r ∧ in_array r ∧ r ≠ ref_cursor.
Proof.
  intros H. unfold Inventory_at, array_at, CRAFTING_GRID_2X2, ARMOR_SIZE, INVENTORY_SIZE, HOTBAR_SIZE.
  rewrite decide_False by lia.
  repeat (case_decide; try lia); eexists; (split; [done|]); (split; [|done]); cbn; lia.
Qed.

Lemma Inventory_at_bad index : index < -1 ∨ 45 < index → Inventory_at index = Throw std_out_of_range.
Proof.
  intros H. unfold Inventory_at, array_at, CRAFTING_GRID_2X2, ARMOR_SIZE, INVENTORY_SIZE, HOTBAR_SIZE.
  rewrite decide_False by lia. by repeat (case_decide; try lia).
Qed.

(** The slots nine to thirty-five are those of the main part. *)
Lemma Inventory_at_main index r :
  0 ≤ index ≤ 45 → Inventory_at index = Ok r → (∃ k, r = ref_main k) ↔ 9 ≤ index < 36.
Proof.
  intros Hi. unfold Inventory_at, array_at, CRAFTING_GRID_2X2, ARMOR_SIZE, INVENTORY_SIZE, HOTBAR_SIZE.
  rewrite decide_False by lia. intros E.
  repeat (case_decide; try lia); injection E as <-; split; intros;
    first [by eexists | lia | naive_solver].
Qed.

Definition slot_at (index : Z) (v : Inventory) : Slot :=
  match Inventory_at index with Ok r => slot_get r v | _ => Slot_default end.

(** ** Clicks *)

Record Click : Type := mk_Click {
  click_isCreative : bool;
  click_index : Z;
  click_buttonId : Z;
  click_mode : Z;
  click_updates : list ClickContainer_SlotWithIndex
}.

Definition perform (c : Click) : M (Clicks Inventory) unit :=
  Inventory_onClick (click_isCreative c) (click_index c) (click_buttonId c) (click_mode c)
    (click_updates c).

(** The items of a kind, in the inventory, on the cursor and on the ground. *)
Definition held (id : Z) (s : Clicks Inventory) : Z := total id s.1 + dropped id s.2.
Definition conserved (s s' : Clicks Inventory) : Prop :=
  stocked s'.1 ∧ ∀ id, held id s' = held id s.

Lemma conserved_refl s : stocked s.1 → conserved s s.
Proof. done. Qed.
Lemma conserved_trans s1 s2 s3 : conserved s1 s2 → conserved s2 s3 → conserved s1 s3.
Proof. intros [_ H12] [? H23]. split; [done|]. intros id. by rewrite H23. Qed.
Lemma conserved_keeps v v' d : keeps v v' → conserved (v, d) (v', d).
Proof. intros [? H]. split; [done|]. intros id. unfold held. cbn [fst snd]. by rewrite H. Qed.

Lemma dropped_app id l k : dropped id (l ++ k) = dropped id l + dropped id k.
Proof.
  unfold dropped. induction l as [|x l IH]; [done|]. cbn [app]. rewrite !sum_of_cons, IH. lia.
Qed.

(** A slot of the inventory loses [n] of its items to the ground. *)
Lemma conserved_drop r s it n v d :
  in_array r → stocked v → Slot_sound s → itemID it = itemID (slot_get r v) →
  (s = Slot_default ∧ itemCount it = itemCount (slot_get r v) ∨
   itemID s = itemID it ∧ itemCount it = n ∧ itemCount s = itemCount (slot_get r v) - n) →
  conserved (v, d) (slot_put r s v, d ++ [it]).
Proof.
  intros Hr Hv Hs Hid Hn. split; [by apply stocked_put|]. intros id. unfold held. cbn [fst snd].
  rewrite total_put, dropped_app by by apply stocked_valid. 
  unfold dropped at 2. rewrite sum_of_cons. unfold items_in, sum_of. cbn [foldr].
  destruct Hn as [[-> ->]|(-> & -> & ->)]; rewrite ?Hid; cbn [Slot_default itemCount itemID];
    repeat case_decide; lia.
Qed.

(** ** Every mode *)

(** What a method that keeps the items does. *)
Definition conserves (p : M (Clicks Inventory) unit) (s : Clicks Inventory) : Prop :=
  ∃ s', p s = (Ok tt, s') ∧ conserved s s'.

Lemma conserves_done s : stocked s.1 → conserves (mret tt) s.
Proof. intros H. by exists s. Qed.

Lemma conserves_store f v d : keeps v (f v) → conserves (on_store f) (v, d).
Proof. intros H. exists (f v, d). split; [done|by apply conserved_keeps]. Qed.

Lemma conserves_seq p q s s1 : p s = (Ok tt, s1) → conserved s s1 → conserves q s1 → conserves (_ ← p; q) s.
Proof.
  intros E H (s2 & E2 & H2). exists s2. rewrite (bind_run_ok _ _ _ _ _ E).
  split; [done|by eapply conserved_trans].
Qed.

Lemma conserves_read {A} (p : M (Clicks Inventory) A) f s a :
  p s = (Ok a, s) → conserves (f a) s → conserves (p ≫= f) s.
Proof. intros E (s' & E' & H). exists s'. by rewrite (bind_run_ok _ _ _ _ _ E). Qed.

Lemma run_at {A} index r (f : slot_ref → M (Clicks Inventory) A) s :
  Inventory_at index = Ok r → (at_index index ≫= f) s = f r s.
Proof.
  intros E. apply bind_run_ok. change (lift (Inventory_at index) s = (Ok r, s)). by rewrite E.
Qed.
Lemma conserves_at index r f s :
  Inventory_at index = Ok r → conserves (f r) s → conserves (at_index index ≫= f) s.
Proof. intros E (s' & E' & H). exists s'. by rewrite (run_at _ _ _ _ E). Qed.

(** The steps of a click, run. *)
Lemma run_read {A} l (f : Slot → M (Clicks Inventory) A) v d :
  (read_slot l ≫= f) (v, d) = f (slot_get l v) (v, d).
Proof. done. Qed.
Lemma run_write_count {A} l n (f : unit → M (Clicks Inventory) A) v d :
  (write_count l n ≫= f) (v, d) = f tt (put_count l n v, d).
Proof. done. Qed.
Lemma run_drop {A} it (f : unit → M (Clicks Inventory) A) v d :
  (dropItem it ≫= f) (v, d) = f tt (v, d ++ [it]).
Proof. done. Qed.
Lemma run_reset l v d : reset_slot l (v, d) = (Ok tt, (slot_put l Slot_default v, d)).
Proof. done. Qed.
Lemma run_assoc {A B C} (p : M (Clicks Inventory) A) (f : A → M (Clicks Inventory) B)
    (g : B → M (Clicks Inventory) C) s :
  ((p ≫= f) ≫= g) s = (p ≫= λ a, f a ≫= g) s.
Proof. unfold mbind, M_bind. by destruct (p s) as [[]]. Qed.
Lemma run_reset_then {A} l (f : unit → M (Clicks Inventory) A) v d :
  (reset_slot l ≫= f) (v, d) = f tt (slot_put l Slot_default v, d).
Proof. done. Qed.

Lemma slot_at_ok index r v : Inventory_at index = Ok r → slot_at index v = slot_get r v.
Proof. unfold slot_at. by intros ->. Qed.

Lemma click_conserves index buttonId v d :
  stocked v →
  (index = -999 ∨ 0 ≤ index ≤ 45 ∧
     (buttonId = 0 ∨ present (_cursor v) = true ∨ itemCount (slot_at index v) ≠ 1)) →
  conserves (onClick_click index buttonId) (v, d).
Proof.
  intros Hv Hi. pose proof (stocked_sound v ref_cursor Hv I) as Sc. cbn in Sc.
  apply (conserves_read _ _ _ (_cursor v)); [done|].
  destruct Hi as [->|[Hi Hb]].
  - rewrite decide_True by done. destruct (present (_cursor v)) eqn:Pc; [|by apply conserves_done].
    destruct Sc as [Sc|(_ & Ic & Cc)]; [by rewrite Sc in Pc|].
    cbn [negb]. case_decide.
    + eexists. split; [reflexivity|]. apply (conserved_drop ref_cursor _ _ 0); try done; [by left|].
      by left.
    + set (rest := mk_Slot true (itemID (_cursor v)) (itemCount (_cursor v) - 1)).
      exists (slot_put ref_cursor (if decide (itemCount rest = 0) then Slot_default else rest) v,
              d ++ [mk_Slot true (itemID (_cursor v)) 1]).
      split.
      * unfold mbind, M_bind. cbn. unfold put_count, with_count. cbn.
        rewrite Pc, to_i8_small by lia. by case_decide.
      * apply (conserved_drop ref_cursor _ _ 1); try done.
        -- case_decide; [by left|right]. cbn in *. split; [done|]. split; [done|lia].
        -- case_decide; [left; cbn in *; split; [done|lia]|by right].
  - destruct (Inventory_at_ok index Hi) as (r & E & Hr & Hne).
    rewrite decide_False by lia. apply (conserves_at _ _ _ _ E).
    rewrite (slot_at_ok _ _ _ E) in Hb. case_decide.
    + apply conserves_store. by apply keeps_swap.
    + destruct (present (_cursor v)) eqn:Pc; cbn [negb].
      * apply conserves_store. apply keeps_swap_n; try done; lia.
      * apply (conserves_read _ _ _ (slot_get r v)); [done|].
        pose proof (stocked_sound v r Hv Hr) as Sr. pose proof (Slot_sound_count _ Sr).
        apply conserves_store. apply keeps_swap_n; try done; [apply Z.quot_pos; lia|].
        intros Hq. left. destruct Hb as [|[|Hb]]; [done|congruence|].
        destruct Sr as [Sr|(_ & _ & Cr)]; [by rewrite Sr|].
        apply Z.quot_small_iff in Hq; [|done]. lia.
Qed.

Lemma drop_conserves index buttonId v d :
  stocked v → 0 ≤ index ≤ 45 → conserves (onClick_drop index buttonId) (v, d).
Proof.
  intros Hv Hi. destruct (Inventory_at_ok index Hi) as (r & E & Hr & Hne).
  apply (conserves_read _ _ _ (_cursor v)); [done|].
  case_match; [by apply conserves_done|]. apply (conserves_at _ _ _ _ E).
  apply (conserves_read _ _ _ (slot_get r v)); [done|].
  pose proof (stocked_sound v r Hv Hr) as Sr.
  destruct (present (slot_get r v)) eqn:Pr; cbn [negb]; [|by apply conserves_done].
  destruct Sr as [Sr|(_ & Ir & Cr)]; [by rewrite Sr in Pr|].
  assert (∀ w, Inventory_valid r (slot_put r w v)) as Hval.
  { intros w. by apply valid_put, stocked_valid. }
  pose proof (stocked_valid v r Hv Hr) as Hval0.
  case_decide.
  - set (rest := mk_Slot true (itemID (slot_get r v)) (itemCount (slot_get r v) - 1)).
    assert (with_count (slot_get r v) (itemCount (slot_get r v) - 1) = rest) as Er.
    { unfold with_count. by rewrite Pr, to_i8_small by lia. }
    exists (slot_put r (if decide (itemCount rest = 0) then Slot_default else rest) v,
            d ++ [mk_Slot true (itemID (slot_get r v)) 1]).
    split.
    + rewrite run_assoc, run_drop, run_assoc, run_write_count, run_assoc, run_read.
      unfold put_count. rewrite Er, !get_put_eq by done. case_decide as Hz.
      * rewrite run_reset_then, Inventory_put_put, run_read, get_put_eq by done.
        rewrite decide_True by done. rewrite run_reset. by rewrite Inventory_put_put.
      * rewrite (bind_run_ok _ _ _ tt (slot_put r rest v, d ++ [mk_Slot true (itemID (slot_get r v)) 1]))
          by done.
        rewrite run_read, get_put_eq, decide_False by done. done.
    + apply (conserved_drop r _ _ 1); try done.
      * case_decide; [by left|right]. cbn in *. split; [done|]. split; [done|lia].
      * case_decide; [left; cbn in *; split; [done|lia]|by right].
  - exists (slot_put r Slot_default v, d ++ [slot_get r v]). split.
    + rewrite run_assoc, run_drop, run_reset_then, run_read, get_put_eq by done.
      rewrite decide_True by done. rewrite run_reset. by rewrite Inventory_put_put.
    + apply (conserved_drop r _ _ 0); try done; by left.
Qed.

(** *** Shift clicks *)

Lemma put_count_sound r n v :
  present (slot_get r v) = true → itemID (slot_get r v) ≠ 0 → 1 ≤ n ≤ 64 →
  with_count (slot_get r v) n = mk_Slot true (itemID (slot_get r v)) n ∧
  Slot_sound (mk_Slot true (itemID (slot_get r v)) n).
Proof.
  intros Pr Ir Hn. split; [unfold with_count; by rewrite Pr, to_i8_small by lia|].
  by right.
Qed.

(** Slots that [operator==] identifies: both empty, or of one kind. *)
Lemma same_kind a b :
  Slot_sound a → Slot_sound b → Slot_eqb a b = true →
  a = Slot_default ∧ b = Slot_default ∨
  present a = true ∧ present b = true ∧ itemID a ≠ 0 ∧ itemID b = itemID a ∧
  1 ≤ itemCount a ≤ 64 ∧ 1 ≤ itemCount b ≤ 64.
Proof.
  intros Sa Sb E. unfold Slot_eqb in E. apply andb_true_iff in E as [E1 E2].
  apply bool_decide_eq_true in E1, E2.
  destruct Sa as [->|(Pa & Ia & Ca)], Sb as [->|(Pb & Ib & Cb)]; cbn in *; try congruence; [by left|].
  right. auto 6.
Qed.

(** Writing both slots of a pair. *)
Lemma keeps_write_pair a b x y v :
  a ≠ b → in_array a → in_array b → stocked v → Slot_sound x → Slot_sound y →
  (∀ id, items_in id x + items_in id y =
         items_in id (slot_get a v) + items_in id (slot_get b v)) →
  keeps v (slot_put b y (slot_put a x v)).
Proof.
  intros Hne Ha Hb Hv Sx Sy Hsum. split; [by repeat apply stocked_put|]. intros id.
  rewrite total_put by (apply stocked_valid; [by apply stocked_put|done]).
  rewrite total_put by by apply stocked_valid. rewrite get_put_ne by done.
  specialize (Hsum id). lia.
Qed.

(** Moving the items of [slot] on to a stack of the same kind: all of them when they
    fit, as many as fit otherwise. *)
Definition merged (to_ from : slot_ref) (v : Inventory) : Inventory :=
  let c := slot_get to_ v in
  let s := slot_get from v in
  if decide (itemCount c + itemCount s ≤ 64)
  then slot_put from Slot_default (slot_put to_ (with_count c (itemCount c + itemCount s)) v)
  else slot_put from (with_count s (itemCount c + itemCount s - 64)) (slot_put to_ (with_count c 64) v).

Lemma keeps_merged a b v :
  a ≠ b → in_array a → in_array b → stocked v →
  Slot_eqb (slot_get a v) (slot_get b v) = true → keeps v (merged a b v).
Proof.
  intros Hne Ha Hb Hv E. pose proof (stocked_sound v a Hv Ha) as Sa.
  pose proof (stocked_sound v b Hv Hb) as Sb.
  unfold merged. destruct (same_kind _ _ Sa Sb E) as [[Ea Eb]|(Pa & Pb & Ia & Eid & Ca & Cb)].
  - rewrite Ea, Eb, decide_True by done.
    apply keeps_write_pair; try done; [by left..|]. intros id. by rewrite Ea, Eb.
  - assert (itemID (slot_get b v) ≠ 0) by congruence.
    case_decide.
    + destruct (put_count_sound a (itemCount (slot_get a v) + itemCount (slot_get b v)) v) as [-> ?];
        [done|done|lia|].
      apply keeps_write_pair; try done; [by left|]. intros id. unfold items_in.
      cbn [itemID itemCount Slot_default]. rewrite Eid. repeat case_decide; lia.
    + destruct (put_count_sound a 64 v) as [-> ?]; [done|done|lia|].
      destruct (put_count_sound b (itemCount (slot_get a v) + itemCount (slot_get b v) - 64) v) as [-> ?];
        [done|done|lia|].
      apply keeps_write_pair; try done. intros id. unfold items_in.
      cbn [itemID itemCount]. rewrite Eid. repeat case_decide; lia.
Qed.

(** The way the code gets to the second case. *)
Lemma put_count_overflow a b n m v :
  a ≠ b → Inventory_valid a v →
  put_count a 64 (put_count b m (put_count a n v)) =
    slot_put b (with_count (slot_get b v) m) (slot_put a (with_count (slot_get a v) 64) v).
Proof.
  intros Hne Va. unfold put_count.
  rewrite !(get_put_ne a b), !(get_put_ne b a), !get_put_eq by (rewrite ?valid_put; done).
  by rewrite (Inventory_put_comm a b), Inventory_put_put.
Qed.

(** No two stacks that would overflow the [int8_t] of the count. *)
Definition merges (slot : slot_ref) (l : list slot_ref) (v : Inventory) : Prop :=
  ∀ r, r ∈ l → Slot_eqb (slot_get r v) (slot_get slot v) = true →
    itemCount (slot_get r v) + itemCount (slot_get slot v) ≤ 127.

Lemma swap_merge_keeps slot l v :
  in_array slot → (∀ r, r ∈ l → in_array r ∧ r ≠ slot) → stocked v → merges slot l v →
  ∃ b v', swap_merge slot l v = (Ok b, v') ∧ keeps v v'.
Proof.
  intros Hslot. revert v. induction l as [|r l IH]; intros v Hl Hv Hm; [by exists false, v|].
  destruct (Hl r) as [Hr Hne]; [by left|].
  assert (∀ q, q ∈ l → in_array q ∧ q ≠ slot) as Hl' by (intros q Hq; apply Hl; by right).
  cbn [swap_merge]. rewrite (bind_run_ok _ _ _ (slot_get r v) v), (bind_run_ok _ _ _ (slot_get slot v) v)
    by done.
  destruct (Slot_eqb (slot_get r v) (slot_get slot v)) eqn:E.
  2:{ apply IH; [done..|]. intros q Hq. apply Hm. by right. }
  pose proof (Hm r ltac:(by left) E) as Hsum.
  pose proof (keeps_merged r slot v Hne Hr Hslot Hv E) as Hk.
  pose proof (stocked_sound v r Hv Hr) as Sr. pose proof (stocked_sound v slot Hv Hslot) as Ss.
  pose proof (Slot_sound_count _ Sr). pose proof (Slot_sound_count _ Ss).
  set (n := itemCount (slot_get r v) + itemCount (slot_get slot v)) in *.
  rewrite (bind_run_ok _ _ _ tt (put_count r n v)) by done.
  rewrite (bind_run_ok _ _ _ (slot_get r (put_count r n v)) (put_count r n v)) by done.
  rewrite get_put_count by by apply stocked_valid.
  cbn [with_count itemCount]. rewrite to_i8_small by lia.
  unfold merged in Hk. fold n in Hk. case_decide.
  - rewrite (bind_run_ok _ _ _ tt (slot_put slot Slot_default (put_count r n v))) by done.
    by eexists _, _.
  - set (v2 := slot_put slot (with_count (slot_get slot v) (n - 64))
                 (slot_put r (with_count (slot_get r v) 64) v)) in *.
    rewrite (bind_run_ok _ _ _ tt (put_count slot (n - 64) (put_count r n v))) by done.
    assert (put_count r 64 (put_count slot (n - 64) (put_count r n v)) = v2) as E2.
    { apply put_count_overflow; [done|by apply stocked_valid]. }
    rewrite (bind_run_ok _ _ _ tt (put_count r 64 (put_count slot (n - 64) (put_count r n v))))
      by done.
    rewrite E2.
    assert (itemCount (slot_get slot v2) ≤ 63) as Hsmall.
    { unfold v2. rewrite get_put_eq by (apply valid_put, stocked_valid; done).
      cbn [with_count itemCount]. rewrite to_i8_small; lia. }
    destruct (IH v2) as (b & v' & Eb & Hk'); [done|apply Hk| |].
    { intros q Hq _. destruct (Hl' q Hq) as [Hq1 _].
      pose proof (Slot_sound_count _ (stocked_sound v2 q (proj1 Hk) Hq1)). lia. }
    exists b, v'. split; [done|]. destruct Hk as [_ Hk], Hk' as [? Hk']. split; [done|].
    intros id. by rewrite Hk', Hk.
Qed.

Lemma swap_place_keeps slot l v :
  in_array slot → (∀ r, r ∈ l → in_array r ∧ r ≠ slot) → stocked v →
  ∃ v', swap_place slot l v = (Ok tt, v') ∧ keeps v v'.
Proof.
  intros Hslot. induction l as [|r l IH]; intros Hl Hv; [by exists v|].
  destruct (Hl r) as [Hr Hne]; [by left|].
  cbn [swap_place]. rewrite (bind_run_ok _ _ _ (slot_get r v) v) by done.
  destruct (present (slot_get r v)) eqn:Pr; cbn [negb].
  { apply IH; [|done]. intros q Hq. apply Hl. by right. }
  pose proof (Slot_sound_absent _ (stocked_sound v r Hv Hr) Pr) as Er.
  exists (slot_put slot Slot_default (slot_put r (slot_get slot v) v)). split; [done|].
  apply keeps_write_pair; try done; [by apply stocked_sound|by left|].
  intros id. rewrite Er. lia.
Qed.

Lemma swapContainer_keeps slot l v :
  in_array slot → (∀ r, r ∈ l → in_array r ∧ r ≠ slot) → stocked v → merges slot l v →
  ∃ v', swapContainer slot l v = (Ok tt, v') ∧ keeps v v'.
Proof.
  intros Hslot Hl Hv Hm. destruct (swap_merge_keeps slot l v) as (b & v1 & E & H1 & K1); [done..|].
  unfold swapContainer. rewrite (bind_run_ok _ _ _ _ _ E). destruct b; [by exists v1|].
  destruct (swap_place_keeps slot l v1) as (v2 & E2 & H2 & K2); [done..|].
  exists v2. split; [done|]. split; [done|]. intros id. by rewrite K2, K1.
Qed.

(** *** Double clicks *)

(** No full stack of the cursor's kind to take from. *)
Definition no_full_stack (v : Inventory) : Prop :=
  ∀ r, in_array r → r ≠ ref_cursor → itemID (slot_get r v) = itemID (slot_get ref_cursor v) →
    itemCount (slot_get r v) ≤ 63.

Lemma collect_keeps v0 d i :
  0 ≤ i < 46 →
  triple (λ s, s.2 = d ∧ keeps v0 s.1 ∧ no_full_stack s.1 ∧ present (slot_get ref_cursor s.1) = true)
    (collect_slot i)
    (λ _ s, s.2 = d ∧ keeps v0 s.1 ∧ no_full_stack s.1 ∧ present (slot_get ref_cursor s.1) = true).
Proof.
  intros Hi [v d'] (Hd & [Hv Ht] & Hfull & Pc). cbn [fst snd] in *. subst d'.
  destruct (Inventory_at_ok i ltac:(lia)) as (r & E & Hr & Hne).
  exists tt. unfold collect_slot, to_i16. rewrite wrap_s_id by (unfold is_s; lia).
  rewrite (run_at _ _ _ _ E).
  change (@container_cursor _ _ _ _) with ref_cursor.
  rewrite !run_read.
  pose proof (stocked_sound v ref_cursor Hv I) as Sc. pose proof (stocked_sound v r Hv Hr) as Sr.
  destruct (Slot_eqb (slot_get ref_cursor v) (slot_get r v)) eqn:Eq; cbn [negb];
    [|exists (v, d); split; [done|]; split; [done|]; split; [by split|done]].
  destruct (same_kind _ _ Sc Sr Eq) as [[Ec _]|(_ & Pr & Ic & Eid & Cc & Cr)]; [by rewrite Ec in Pc|].
  pose proof (Hfull r Hr Hne Eid) as H63.
  pose proof (keeps_merged ref_cursor r v ltac:(done) I Hr Hv Eq) as [Hs Hsum].
  unfold merged in Hs, Hsum.
  set (n := itemCount (slot_get ref_cursor v) + itemCount (slot_get r v)) in *.
  rewrite run_write_count, run_read. pose proof (stocked_valid v ref_cursor Hv I) as Vc.
  rewrite get_put_count by done. cbn [with_count itemCount]. rewrite to_i8_small by lia.
  assert (∀ x y, itemID x = itemID (slot_get ref_cursor v) → present x = true → itemCount y ≤ 63 →
    no_full_stack (slot_put r y (slot_put ref_cursor x v)) ∧
    present (slot_get ref_cursor (slot_put r y (slot_put ref_cursor x v))) = true) as Hframe.
  { intros x y Hx Px Hy.
    assert (slot_get ref_cursor (slot_put r y (slot_put ref_cursor x v)) = x) as Ex.
    { by rewrite get_put_ne, get_put_eq. }
    split; [|by rewrite Ex]. intros q Hq Hqc. rewrite Ex, Hx.
    destruct (decide (q = r)) as [->|].
    - by rewrite get_put_eq by (apply valid_put, stocked_valid; done).
    - rewrite !get_put_ne by done. by apply Hfull. }
  destruct (decide (64 < n)) as [Hn|Hn].
  - rewrite decide_False in Hs, Hsum by lia.
    exists (slot_put r (with_count (slot_get r v) (n - 64)) (slot_put ref_cursor (with_count (slot_get ref_cursor v) 64) v), d).
    split; [rewrite run_write_count; by rewrite <- (put_count_overflow _ _ n)|].
    split; [done|]. split; [split; [done|]; intros id; by rewrite Hsum|].
    apply Hframe; [done|done|]. cbn [with_count itemCount]. rewrite to_i8_small; lia.
  - rewrite decide_True in Hs, Hsum by lia.
    exists (slot_put r Slot_default (slot_put ref_cursor (with_count (slot_get ref_cursor v) n) v), d).
    split; [done|]. split; [done|]. split; [split; [done|]; intros id; by rewrite Hsum|].
    by apply Hframe.
Qed.

Lemma double_conserves index v d :
  stocked v → 0 ≤ index ≤ 45 → no_full_stack v → conserves (onClick_double index) (v, d).
Proof.
  intros Hv Hi Hfull. destruct (Inventory_at_ok index Hi) as (r & E & Hr & Hne).
  apply (conserves_at _ _ _ _ E). apply (conserves_read _ _ _ (slot_get r v)); [done|].
  apply (conserves_read _ _ _ (slot_get ref_cursor v)); [done|].
  destruct (present (slot_get r v) || _ || _) eqn:Eg; [by apply conserves_done|].
  apply orb_false_iff in Eg as [_ Pc]. apply negb_false_iff in Pc.
  destruct (triple_for_each_inv (λ s, s.2 = d ∧ keeps v s.1 ∧ no_full_stack s.1 ∧
      present (slot_get ref_cursor s.1) = true) (seqZ 0 46) collect_slot) with (s := (v, d))
    as ([] & [v' d'] & E' & Hd & Hk & _).
  - intros i Hin. apply collect_keeps. apply elem_of_seqZ in Hin. lia.
  - by split.
  - cbn in Hd. subst d'. exists (v', d). split; [exact E'|by apply conserved_keeps].
Qed.

(** *** The other modes *)

Lemma shift_conserves isCreative index buttonId updates v d :
  stocked v → 0 ≤ index ≤ 45 → itemCount (slot_at index v) ≤ 63 →
  conserves (Inventory_onClick isCreative index buttonId ClickMode_ShiftClick updates) (v, d).
Proof.
  intros Hv Hi H63. destruct (Inventory_at_ok index Hi) as (r & E & Hr & Hne).
  rewrite (slot_at_ok _ _ _ E) in H63. unfold Inventory_onClick. rewrite decide_True by done.
  apply (conserves_at _ _ _ _ E).
  assert (∀ l, (∀ q, q ∈ l → in_array q ∧ q ≠ r) →
    conserves (on_inventory (swapContainer r l)) (v, d)) as G.
  { intros l Hl. destruct (swapContainer_keeps r l v) as (v' & E' & Hk); [done..| |].
    - intros q Hq _. pose proof (Slot_sound_count _ (stocked_sound v q Hv (proj1 (Hl q Hq)))). lia.
    - exists (v', d). split; [unfold member; cbn [fst snd]; by rewrite E'|by apply conserved_keeps]. }
  pose proof (Inventory_at_main index r Hi E) as Hmain.
  destruct (decide (9 ≤ index ∧ index < 36)) as [H9|H9]; apply G; intros q Hq;
    apply list_elem_of_fmap in Hq as (k & -> & Hk); apply elem_of_seq in Hk;
    unfold INVENTORY_SIZE, HOTBAR_SIZE in Hk; (split; [cbn; lia|]).
  - destruct (proj2 Hmain H9) as [m ->]. done.
  - intros <-. apply H9, Hmain. by eexists.
Qed.

Lemma keys_conserves isCreative index buttonId updates v d :
  stocked v → 0 ≤ index ≤ 45 → buttonId = 40 ∨ 0 ≤ buttonId < 9 →
  conserves (Inventory_onClick isCreative index buttonId ClickMode_Keys updates) (v, d).
Proof.
  intros Hv Hi Hb. destruct (Inventory_at_ok index Hi) as (r & E & Hr & Hne).
  unfold Inventory_onClick. rewrite decide_False, decide_True by done. case_decide.
  - apply (conserves_at _ _ _ _ E), conserves_store. by apply keeps_std_swap.
  - apply (conserves_read _ _ _ (ref_hotbar (Z.to_nat buttonId))).
    { unfold lift, array_at, HOTBAR_SIZE. by rewrite decide_True by lia. }
    apply (conserves_at _ _ _ _ E), conserves_store. apply keeps_std_swap; [cbn; lia|done|done].
Qed.

Lemma keeps_set_state n v : stocked v → keeps v (set_state n v).
Proof.
  intros Hv. assert (∀ r, slot_get r (set_state n v) = slot_get r v) as E by by intros [].
  split; [split; [apply Hv|]|].
  - intros r Hr. rewrite E. by apply stocked_sound.
  - intros id. unfold total. apply sum_of_ext. intros r _. by rewrite E.
Qed.

Lemma drag_conserves isCreative index buttonId updates v d :
  stocked v → ¬ (buttonId = 2 ∧ index = -999 ∧ _state v = State_LeftDrag) →
  conserves (onClick_drag isCreative index buttonId updates) (v, d).
Proof.
  intros Hv Hn. apply (conserves_read _ _ _ (_state v)); [done|].
  apply (conserves_read _ _ _ (_cursor v)); [done|]. cbn zeta.
  repeat case_decide; try tauto; try case_match;
    first [by apply conserves_done | by apply conserves_store, keeps_set_state].
Qed.

(** The clicks that the code gets right: a right click does not halve a single item on to
    an empty cursor, a shift click does not move a full stack, a double click finds no
    full stack to take from, and no left drag ends. *)
Definition ordinary (c : Click) (v : Inventory) : Prop :=
  let index := click_index c in
  let buttonId := click_buttonId c in
  (click_mode c = ClickMode_Click ∧
     (index = -999 ∨ 0 ≤ index ≤ 45 ∧
       (buttonId = 0 ∨ present (_cursor v) = true ∨ itemCount (slot_at index v) ≠ 1))) ∨
  (click_mode c = ClickMode_ShiftClick ∧ 0 ≤ index ≤ 45 ∧ itemCount (slot_at index v) ≤ 63) ∨
  (click_mode c = ClickMode_Keys ∧ 0 ≤ index ≤ 45 ∧ (buttonId = 40 ∨ 0 ≤ buttonId < 9)) ∨
  (click_mode c = ClickMode_MiddleClick ∧ 0 ≤ index ≤ 45 ∧ click_isCreative c = false) ∨
  (click_mode c = ClickMode_DropButton ∧ 0 ≤ index ≤ 45) ∨
  (click_mode c = ClickMode_Drag ∧ ¬ (buttonId = 2 ∧ index = -999 ∧ _state v = State_LeftDrag)) ∨
  (click_mode c = ClickMode_DoubleClick ∧ 0 ≤ index ≤ 45 ∧ no_full_stack v).

Lemma ordinary_conserves c v d : stocked v → ordinary c v → conserves (perform c) (v, d).
Proof.
  intros Hv Hc. unfold perform. destruct c as [isCreative index buttonId mode updates]. unfold ordinary in Hc.
  cbn [click_isCreative click_index click_buttonId click_mode click_updates] in *.
  destruct Hc as [[-> H]|[(-> & Hi & H)|[(-> & Hi & H)|[(-> & Hi & ->)|[(-> & Hi)|[(-> & H)|(-> & Hi & H)]]]]]].
  - by apply click_conserves.
  - by apply shift_conserves.
  - by apply keys_conserves.
  - destruct (Inventory_at_ok index Hi) as (r & E & _).
    apply (conserves_at _ _ _ _ E). by apply conserves_done.
  - by apply drop_conserves.
  - by apply drag_conserves.
  - by apply double_conserves.
Qed.

(** The runs of such clicks. *)
Inductive clicks : Clicks Inventory → list Click → Clicks Inventory → Prop :=
| clicks_nil s : clicks s [] s
| clicks_cons s c s1 l s2 :
    ordinary c s.1 → perform c s = (Ok tt, s1) → clicks s1 l s2 → clicks s (c :: l) s2.

(** C11: along any run of ordinary clicks the items are conserved: of every kind, what
    the slots and the cursor hold and what was thrown on the ground is what there was
    before, every slot is empty or a stack of one to sixty-four items, and the next
    ordinary click does not throw. *)
Theorem Inventory_clicks_conserve (s s' : Clicks Inventory) (l : list Click) :
  stocked s.1 → clicks s l s' →
  stocked s'.1 ∧ (∀ id, held id s' = held id s) ∧
  (∀ c, ordinary c s'.1 → (perform c s').1 = Ok tt).
Proof.
  intros Hs Hrun. assert (conserved s s') as Hc.
  { induction Hrun as [|s c s1 l s2 Ho E Hrun IH]; [done|].
    destruct s as [v d]. destruct (ordinary_conserves c v d Hs Ho) as (s1' & E' & H1).
    rewrite E in E'. injection E' as <-. eapply conserved_trans; [exact H1|]. by apply IH, H1. }
  destruct Hc as [Hs' Hh]. split; [done|]. split; [done|]. intros c Ho. destruct s' as [v d].
  destruct (ordinary_conserves c v d Hs' Ho) as (s1 & -> & _). done.
Qed.

(** ** The clicks that create or destroy items *)

Definition perform_all (l : list Click) : M (Clicks Inventory) unit := for_each l perform.

Definition left_click (index : Z) : Click := mk_Click false index 0 ClickMode_Click [].
Definition right_click (index : Z) : Click := mk_Click false index 1 ClickMode_Click [].
Definition shift_click (index : Z) : Click := mk_Click false index 0 ClickMode_ShiftClick [].
Definition drop_one (index : Z) : Click := mk_Click false index 0 ClickMode_DropButton [].
Definition end_drag (updates : list ClickContainer_SlotWithIndex) : Click :=
  mk_Click false (-999) 2 ClickMode_Drag updates.

Lemma perform_cons c l s s1 : perform c s = (Ok tt, s1) → perform_all (c :: l) s = perform_all l s1.
Proof. intros E. unfold perform_all. cbn [for_each]. by rewrite (bind_run_ok _ _ _ _ _ E). Qed.

Lemma run_left_click index r v d :
  Inventory_at index = Ok r → index ≠ -999 →
  perform (left_click index) (v, d) = (Ok tt, (Slot_swap r ref_cursor v, d)).
Proof.
  intros E Hi. change (perform (left_click index)) with (onClick_click index 0 : M (Clicks Inventory) unit).
  unfold onClick_click. rewrite run_read, decide_False by done. rewrite (run_at _ _ _ _ E). done.
Qed.

(** A right click on a single item puts a stack of no items on the empty cursor;
    laid down on an empty slot and thrown from there, it becomes an item on the ground,
    while the first item is where it was: three clicks make an item, and leave a stack
    of minus one. *)
Theorem Inventory_right_click_duplicates (v : Inventory) (d : list Slot) (i j k : Z) :
  stocked v → 0 ≤ i ≤ 45 → 0 ≤ j ≤ 45 → k ≠ 0 → _cursor v = Slot_default →
  slot_at i v = mk_Slot true k 1 → slot_at j v = Slot_default →
  ∃ v', perform_all [right_click i; left_click j; drop_one j] (v, d) =
          (Ok tt, (v', d ++ [mk_Slot true k 1])) ∧
    slot_at i v' = mk_Slot true k 1 ∧ slot_at j v' = mk_Slot true k (-1) ∧ _cursor v' = Slot_default.
Proof.
  intros Hv Hi Hj Hk Hc Ei Ej.
  destruct (Inventory_at_ok i Hi) as (a & Ea & Ha & Hac).
  destruct (Inventory_at_ok j Hj) as (b & Eb & Hb & Hbc).
  rewrite (slot_at_ok i a v Ea) in Ei. rewrite (slot_at_ok j b v Eb) in Ej.
  change (_cursor v) with (slot_get ref_cursor v) in Hc.
  assert (a ≠ b) as Hab by (intros ->; rewrite Ei in Ej; done).
  set (v1 := Slot_swap_n a ref_cursor 0 v).
  assert (slot_get a v1 = mk_Slot true k 1 ∧ slot_get ref_cursor v1 = mk_Slot true k 0) as [A1 C1].
  { pose proof (Slot_swap_n_get a ref_cursor 0 v Hac (stocked_valid v a Hv Ha)
      (stocked_valid v ref_cursor Hv I)) as E. cbn zeta in E. rewrite Ei, Hc in E.
    specialize (E eq_refl ltac:(done) ltac:(done) ltac:(done) ltac:(done)).
    rewrite bool_decide_false in E by done. by injection E as E1 E2. }
  assert (slot_get b v1 = Slot_default) as B1 by (unfold v1; by rewrite Slot_swap_n_frame).
  assert (∀ r, in_array r → Inventory_valid r v1) as V1.
  { intros r Hr. by apply Slot_swap_n_valid, stocked_valid. }
  set (v2 := Slot_swap b ref_cursor v1).
  assert (slot_get b v2 = mk_Slot true k 0 ∧ slot_get ref_cursor v2 = Slot_default) as [B2 C2].
  { pose proof (Slot_swap_get b ref_cursor v1 Hbc (V1 b Hb) (V1 ref_cursor I)) as E. cbn zeta in E.
    rewrite B1, C1, bool_decide_false in E by (intros [=]; congruence). by injection E as E1 E2. }
  assert (slot_get a v2 = mk_Slot true k 1) as A2 by (unfold v2; by rewrite Slot_swap_frame).
  assert (Inventory_valid b v2) as V2 by (apply Slot_swap_valid, V1; done).
  exists (slot_put b (mk_Slot true k (-1)) v2).
  rewrite (slot_at_ok i a _ Ea), (slot_at_ok j b _ Eb).
  split.
  - rewrite (perform_cons _ _ _ (v1, d)).
    2:{ change (perform (right_click i)) with (onClick_click i 1 : M (Clicks Inventory) unit).
        unfold onClick_click. rewrite run_read, decide_False by lia. rewrite (run_at _ _ _ _ Ea).
        rewrite decide_False by done. change (@container_cursor _ _ _ _) with ref_cursor.
        rewrite Hc. cbn [Slot_default present negb]. rewrite run_read, Ei. done. }
    rewrite (perform_cons _ _ _ (v2, d)) by (apply run_left_click; [done|lia]).
    rewrite (perform_cons _ _ _ (slot_put b (mk_Slot true k (-1)) v2, d ++ [mk_Slot true k 1])); [done|].
    change (perform (drop_one j)) with (onClick_drop j 0 : M (Clicks Inventory) unit).
    unfold onClick_drop. change (@container_cursor _ _ _ _) with ref_cursor.
    rewrite run_read, C2. cbn [Slot_default present]. rewrite (run_at _ _ _ _ Eb), run_read, B2.
    cbn [negb present itemID]. rewrite decide_True by done.
    rewrite run_assoc, run_drop, run_assoc, run_write_count, run_assoc, run_read.
    unfold put_count. rewrite B2, get_put_eq by done.
    change (with_count _ _) with (mk_Slot true k (-1)). rewrite decide_False by done.
    rewrite (bind_run_ok _ _ _ tt (slot_put b (mk_Slot true k (-1)) v2, d ++ [mk_Slot true k 1]))
      by done.
    by rewrite run_read, get_put_eq, decide_False.
  - rewrite get_put_ne, get_put_eq, A2 by done. split; [done|]. split; [done|].
    change (_cursor ?w) with (slot_get ref_cursor w). by rewrite get_put_ne.
Qed.

(** Shift-clicking a full stack of the main part, when the first slot of the hotbar
    holds a full stack of the same kind, adds the counts in an [int8_t]: the stack that
    was clicked is gone and the other one has minus one hundred and twenty-eight items. *)
Theorem Inventory_shift_click_overflow (v : Inventory) (d : list Slot) (i k : Z) :
  stocked v → 9 ≤ i < 36 →
  slot_at i v = mk_Slot true k 64 → slot_at 36 v = mk_Slot true k 64 →
  ∃ v', perform (shift_click i) (v, d) = (Ok tt, (v', d)) ∧
    slot_at i v' = Slot_default ∧ slot_at 36 v' = mk_Slot true k (-128) ∧
    ∀ q, in_array q → Inventory_at i ≠ Ok q → q ≠ ref_hotbar 0 → slot_get q v' = slot_get q v.
Proof.
  intros Hv Hi Ei E36. set (h := ref_hotbar 0).
  destruct (Inventory_at_ok i ltac:(lia)) as (a & Ea & Ha & _).
  destruct (proj2 (Inventory_at_main i a ltac:(lia) Ea) Hi) as [m Em].
  assert (a ≠ h) as Hne by by subst.
  assert (Inventory_at 36 = Ok h) as Eh by done.
  rewrite (slot_at_ok i a v Ea) in Ei. rewrite (slot_at_ok 36 h v Eh) in E36.
  pose proof (stocked_valid v a Hv Ha) as Va. assert (Inventory_valid h v) as Vh by (split; [apply Hv|cbn; lia]).
  exists (slot_put a Slot_default (slot_put h (mk_Slot true k (-128)) v)).
  rewrite (slot_at_ok i a _ Ea), (slot_at_ok 36 h _ Eh).
  split; [|split; [|split]].
  - change (perform (shift_click i)) with (Inventory_onClick false i 0 ClickMode_ShiftClick []).
    unfold Inventory_onClick. rewrite decide_True by done. rewrite (run_at _ _ _ _ Ea).
    rewrite decide_True by done. unfold member. cbn [fst snd].
    unfold swapContainer. change hotbar_refs with (h :: (ref_hotbar <$> seq 1 8)). cbn [swap_merge].
    rewrite (bind_run_ok _ _ v true (slot_put a Slot_default (slot_put h (mk_Slot true k (-128)) v)));
      [done|].
    rewrite (bind_run_ok _ _ _ (slot_get h v) v), (bind_run_ok _ _ _ (slot_get a v) v) by done.
    rewrite Ei, E36. replace (Slot_eqb _ _) with true
      by (unfold Slot_eqb; by rewrite !bool_decide_true).
    rewrite (bind_run_ok _ _ _ tt (slot_put h (mk_Slot true k (-128)) v)).
    2:{ unfold modify, put_count. by rewrite E36. }
    rewrite (bind_run_ok _ _ _ (mk_Slot true k (-128)) (slot_put h (mk_Slot true k (-128)) v)).
    2:{ unfold gets. by rewrite get_put_eq. }
    by rewrite decide_True.
  - by rewrite get_put_eq by by apply valid_put.
  - by rewrite get_put_ne, get_put_eq.
  - intros q _ Hqi Hqh. rewrite !get_put_ne; [done|done|congruence].
Qed.

(** The two turns of the loop that ends a left drag. *)
Lemma drag_update_stack index x a rest added k m n v d :
  Inventory_at index = Ok a → Inventory_valid a v → 0 ≤ m + added ≤ 64 → m < 64 →
  slot_get ref_cursor v = mk_Slot true k n → slot_get a v = mk_Slot true k m →
  drag_update (mk_ClickContainer_SlotWithIndex index x) rest added (v, d) =
    (Ok (rest, 0), (slot_put a (mk_Slot true k (m + added)) v, d)).
Proof.
  intros E Va Hsum Hm Ec Ea. unfold drag_update. cbn [ClickContainer_SlotWithIndex_slotNumber].
  rewrite (run_at _ _ _ _ E). change (@container_cursor _ _ _ _) with ref_cursor.
  rewrite !run_read, Ec, Ea. cbn [present itemID itemCount]. rewrite decide_True by done.
  assert (put_count a (m + added) v = slot_put a (mk_Slot true k (m + added)) v) as Ep.
  { unfold put_count, with_count. by rewrite Ea, to_i8_small by lia. }
  by rewrite run_write_count, Ep, run_read, get_put_eq, decide_False by (done || cbn; lia).
Qed.

Lemma drag_update_empty index x b rest added k n v d :
  Inventory_at index = Ok b → Inventory_valid b v → 0 ≤ added ≤ 64 →
  slot_get ref_cursor v = mk_Slot true k n → slot_get b v = Slot_default →
  drag_update (mk_ClickContainer_SlotWithIndex index x) rest added (v, d) =
    (Ok (rest, added), (slot_put b (mk_Slot true k added) v, d)).
Proof.
  intros E Vb Ha Ec Eb. unfold drag_update. cbn [ClickContainer_SlotWithIndex_slotNumber].
  rewrite (run_at _ _ _ _ E). change (@container_cursor _ _ _ _) with ref_cursor.
  rewrite !run_read, Ec, Eb. cbn [Slot_default present].
  rewrite (bind_run_ok _ _ _ tt (slot_put b (mk_Slot true k n) v, d)) by done.
  rewrite run_write_count. unfold put_count. rewrite get_put_eq, Inventory_put_put by done.
  unfold with_count. cbn [present itemID]. by rewrite to_i8_small by lia.
Qed.

(** Ending a left drag over a stack of the cursor's kind and an empty slot loses the
    share of the empty slot: [addedStack] is zero after the first slot, and the second
    one gets a stack of no items. *)
Theorem Inventory_left_drag_loses (v : Inventory) (d : list Slot) (i j k m n : Z) (x y : Slot) :
  stocked v → 0 ≤ i ≤ 45 → 0 ≤ j ≤ 45 → _state v = State_LeftDrag →
  _cursor v = mk_Slot true k n → slot_at i v = mk_Slot true k m → slot_at j v = Slot_default →
  1 ≤ n → 1 ≤ m → m + n / 2 ≤ 64 → m < 64 →
  ∃ v', perform (end_drag [mk_ClickContainer_SlotWithIndex i x; mk_ClickContainer_SlotWithIndex j y])
          (v, d) = (Ok tt, (v', d)) ∧
    slot_at i v' = mk_Slot true k (m + n / 2) ∧ slot_at j v' = mk_Slot true k 0 ∧
    _cursor v' = (if decide (n mod 2 = 0) then Slot_default else mk_Slot true k 1).
Proof.
  intros Hv Hi Hj Hst Hc Ei Ej Hn Hm Hsum Hm64.
  destruct (Inventory_at_ok i Hi) as (a & Ea & Ha & Hac).
  destruct (Inventory_at_ok j Hj) as (b & Eb & Hb & Hbc).
  rewrite (slot_at_ok i a v Ea) in Ei. rewrite (slot_at_ok j b v Eb) in Ej.
  change (_cursor v) with (slot_get ref_cursor v) in Hc.
  assert (a ≠ b) as Hab by (intros ->; rewrite Ei in Ej; done).
  pose proof (stocked_valid v a Hv Ha) as Va. pose proof (stocked_valid v b Hv Hb) as Vb.
  pose proof (stocked_valid v ref_cursor Hv I) as Vc.
  pose proof (Slot_sound_count _ (stocked_sound v ref_cursor Hv I)) as Hn64. rewrite Hc in Hn64. cbn in Hn64.
  set (w := slot_put b (mk_Slot true k 0) (slot_put a (mk_Slot true k (m + n / 2)) v)).
  set (c := if decide (n mod 2 = 0) then Slot_default else mk_Slot true k 1).
  exists (set_state State_Normal (slot_put ref_cursor c w)).
  assert (∀ r u, slot_get r (set_state State_Normal u) = slot_get r u) as Eset by by intros [].
  rewrite (slot_at_ok i a _ Ea), (slot_at_ok j b _ Eb), !Eset.
  split.
  - change (perform (end_drag ?u)) with (onClick_drag false (-999) 2 u : M (Clicks Inventory) unit).
    unfold onClick_drag. rewrite (bind_run_ok _ _ _ (_state v) (v, d)) by done.
    change (@container_cursor _ _ _ _) with ref_cursor. rewrite run_read, Hst. cbn zeta.
    rewrite !decide_False by naive_solver. rewrite decide_True by done.
    unfold end_left_drag. change (@container_cursor _ _ _ _) with ref_cursor. rewrite run_read, Hc.
    cbn [itemCount].
    assert (∀ f, (∀ z, 0 ≤ z ≤ 64 → 0 ≤ f z 2 ≤ 64) →
      share f n (zlen [mk_ClickContainer_SlotWithIndex i x; mk_ClickContainer_SlotWithIndex j y]) =
        Ok (f n 2)) as Eshare.
    { intros f Hf. unfold share. rewrite decide_False by done. unfold to_u64, to_i16.
      rewrite wrap_u_id by (unfold is_u; lia). change (zlen _) with 2.
      rewrite wrap_s_id; [done|lia|]. specialize (Hf n ltac:(lia)). unfold is_s. lia. }
    rewrite !Eshare by (intros; div_lia).
    rewrite (bind_run_ok _ _ _ (n mod 2) (v, d)), (bind_run_ok _ _ _ (n / 2) (v, d)) by done.
    rewrite (bind_run_ok _ _ _ (n mod 2) (w, d)).
    2:{ cbn [drag_loop]. rewrite (bind_run_ok _ _ _ _ _ (drag_update_stack i x a (n mod 2) (n / 2) k m n v d
          Ea Va ltac:(div_lia) Hm64 Hc Ei)). cbn [fst snd].
        rewrite (bind_run_ok _ _ _ _ _ (drag_update_empty j y b (n mod 2) 0 k n _ d Eb
          (proj2 (valid_put a b _ v) Vb) ltac:(lia) ltac:(by rewrite get_put_ne)
          ltac:(by rewrite get_put_ne))). done. }
    rewrite (bind_run_ok _ _ _ tt (slot_put ref_cursor c w, d)); [done|].
    assert (slot_get ref_cursor w = mk_Slot true k n) as Ecw by (unfold w; by rewrite !get_put_ne).
    unfold c. destruct (decide (n mod 2 = 0)) as [Hmod|Hmod].
    + rewrite decide_False by lia. exact (run_reset ref_cursor w d).
    + assert (n mod 2 = 1) as Hone by div_lia. rewrite decide_True by lia.
      unfold write_count, modify, put_count. cbn [fst snd]. by rewrite Ecw, Hone.
  - unfold w. rewrite (get_put_ne ref_cursor a), (get_put_ne ref_cursor b) by done.
    rewrite (get_put_ne b a), !get_put_eq by (rewrite ?valid_put; done).
    split; [done|]. split; [done|].
    change (_cursor ?u) with (slot_get ref_cursor u). rewrite Eset.
    by rewrite get_put_eq by (rewrite !valid_put; done).
Qed.

(** An index that names no slot throws [std::out_of_range] in every mode that looks
    at it and changes nothing; ending a left drag without any slot divides by zero. *)
Theorem Inventory_onClick_errors (v : Inventory) (d : list Slot) (isCreative : bool)
    (index buttonId : Z) (updates : list ClickContainer_SlotWithIndex) :
  index < -1 ∨ 45 < index →
  (∀ mode, mode ∈ [ClickMode_Click; ClickMode_ShiftClick; ClickMode_Keys; ClickMode_MiddleClick;
                   ClickMode_DoubleClick; ClickMode_DropButton] →
     (mode = ClickMode_Click → index ≠ -999) →
     (mode = ClickMode_DropButton → present (_cursor v) = false) →
     Inventory_onClick isCreative index buttonId mode updates (v, d) =
       (Throw std_out_of_range, (v, d))) ∧
  (_state v = State_LeftDrag → perform (end_drag []) (v, d) = (UB DivisionByZero, (v, d))).
Proof.
  intros Hi. pose proof (Inventory_at_bad index Hi) as E.
  assert (∀ A (f : slot_ref → M (Clicks Inventory) A),
    (at_index index ≫= f) (v, d) = (Throw std_out_of_range, (v, d))) as Hat.
  { intros A f. apply bind_run_throw. unfold at_index, lift.
    change (container_at index) with (Inventory_at index). by rewrite E. }
  split.
  - intros mode Hmode Hclick Hdrop. rewrite !elem_of_cons in Hmode.
    destruct Hmode as [->|[->|[->|[->|[->|[->|Hmode]]]]]]; [..|by apply elem_of_nil in Hmode];
      unfold Inventory_onClick; rewrite ?decide_False by done; rewrite ?decide_True by done.
    + change (onClick_click index buttonId (v, d) = (Throw std_out_of_range, (v, d))).
      unfold onClick_click. rewrite run_read, decide_False by auto. apply Hat.
    + apply Hat.
    + case_decide; [apply Hat|]. unfold array_at. case_decide.
      * rewrite (bind_run_ok _ _ _ (ref_hotbar (Z.to_nat buttonId)) (v, d)) by done. apply Hat.
      * by apply bind_run_throw.
    + apply (Hat unit).
    + apply (Hat unit).
    + change (onClick_drop index buttonId (v, d) = (Throw std_out_of_range, (v, d))).
      unfold onClick_drop. rewrite run_read.
      change (slot_get container_cursor v) with (_cursor v). rewrite Hdrop by done. apply Hat.
  - intros Hst. change (perform (end_drag [])) with (onClick_drag false (-999) 2 [] : M (Clicks Inventory) unit).
    unfold onClick_drag. rewrite (bind_run_ok _ _ _ (_state v) (v, d)) by done.
    rewrite run_read, Hst. cbn zeta. rewrite !decide_False by naive_solver.
    rewrite decide_True by done. done.
Qed.

(** ** Examples *)

Definition Slot_soundb (s : Slot) : bool :=
  bool_decide (s = Slot_default) ||
  (present s && bool_decide (itemID s ≠ 0) && bool_decide (1 ≤ itemCount s ≤ 64)).

Lemma stocked_check v :
  arrays_sized v → forallb (λ r, Slot_soundb (slot_get r v)) all_slots = true → stocked v.
Proof.
  intros Hv Hs. split; [done|]. intros r Hr. apply elem_of_all_slots in Hr.
  rewrite forallb_forall in Hs. apply list_elem_of_In in Hr. apply Hs in Hr.
  unfold Slot_soundb in Hr. apply orb_true_iff in Hr as [Hr|Hr];
    rewrite ?andb_true_iff, ?bool_decide_eq_true in Hr; [by left|right; naive_solver].
Qed.

(** An inventory with [slot] on the cursor, [main] in slot nine and [hot] in slot thirty-six. *)
Definition inventory_with (slot main hot : Slot) : Inventory :=
  slot_put ref_cursor slot (slot_put (ref_main 0) main (slot_put (ref_hotbar 0) hot Inventory_make)).

Lemma Inventory_clicks_conserve_witness :
  ∃ s', stocked (inventory_with Slot_default (mk_Slot true 5 3) (mk_Slot true 5 62)) ∧
    clicks (inventory_with Slot_default (mk_Slot true 5 3) (mk_Slot true 5 62), [])
      [shift_click 9; drop_one 36; left_click 36] s' ∧
    (stocked s'.1 ∧
     (∀ id, held id s' =
        held id (inventory_with Slot_default (mk_Slot true 5 3) (mk_Slot true 5 62), [])) ∧
     (∀ c, ordinary c s'.1 → (perform c s').1 = Ok tt)).
Proof.
  set (v := inventory_with Slot_default (mk_Slot true 5 3) (mk_Slot true 5 62)).
  assert (stocked v) as Hv by (apply stocked_check; by vm_compute).
  assert (∃ s', clicks (v, []) [shift_click 9; drop_one 36; left_click 36] s') as [s' Hs'].
  { eexists. eapply clicks_cons; [|by vm_compute|].
    { right. left. split; [done|]. split; [done|]. by vm_compute. }
    eapply clicks_cons; [|by vm_compute|].
    { do 4 right. left. done. }
    eapply clicks_cons; [|by vm_compute|apply clicks_nil].
    left. split; [done|]. right. split; [done|]. by left. }
  exists s'. split; [exact Hv|]. split; [exact Hs'|].
  exact (Inventory_clicks_conserve (v, []) s' _ Hv Hs').
Defined.

Lemma Inventory_right_click_duplicates_witness :
  let v := inventory_with Slot_default (mk_Slot true 5 1) Slot_default in
  stocked v ∧
  ∃ v', perform_all [right_click 9; left_click 10; drop_one 10] (v, []) =
          (Ok tt, (v', [] ++ [mk_Slot true 5 1])) ∧
    slot_at 9 v' = mk_Slot true 5 1 ∧ slot_at 10 v' = mk_Slot true 5 (-1) ∧ _cursor v' = Slot_default.
Proof.
  intros v. assert (stocked v) as Hv by (apply stocked_check; by vm_compute).
  split; [exact Hv|].
  exact (Inventory_right_click_duplicates v [] 9 10 5 Hv ltac:(lia) ltac:(lia) ltac:(lia)
    eq_refl eq_refl eq_refl).
Defined.

Lemma Inventory_shift_click_overflow_witness :
  let v := inventory_with Slot_default (mk_Slot true 5 64) (mk_Slot true 5 64) in
  stocked v ∧
  ∃ v', perform (shift_click 9) (v, []) = (Ok tt, (v', [])) ∧
    slot_at 9 v' = Slot_default ∧ slot_at 36 v' = mk_Slot true 5 (-128) ∧
    ∀ q, in_array q → Inventory_at 9 ≠ Ok q → q ≠ ref_hotbar 0 → slot_get q v' = slot_get q v.
Proof.
  intros v. assert (stocked v) as Hv by (apply stocked_check; by vm_compute).
  split; [exact Hv|].
  exact (Inventory_shift_click_overflow v [] 9 5 Hv ltac:(lia) eq_refl eq_refl).
Defined.

Lemma Inventory_left_drag_loses_witness :
  let v := set_state State_LeftDrag (inventory_with (mk_Slot true 5 7) (mk_Slot true 5 2) Slot_default) in
  stocked v ∧
  ∃ v', perform (end_drag [mk_ClickContainer_SlotWithIndex 9 Slot_default;
                           mk_ClickContainer_SlotWithIndex 10 Slot_default]) (v, []) =
          (Ok tt, (v', [])) ∧
    slot_at 9 v' = mk_Slot true 5 (2 + 7 / 2) ∧ slot_at 10 v' = mk_Slot true 5 0 ∧
    _cursor v' = (if decide (7 mod 2 = 0) then Slot_default else mk_Slot true 5 1).
Proof.
  intros v. assert (stocked v) as Hv by (apply stocked_check; by vm_compute).
  split; [exact Hv|].
  exact (Inventory_left_drag_loses v [] 9 10 5 2 7 Slot_default Slot_default Hv ltac:(lia) ltac:(lia)
    eq_refl eq_refl eq_refl eq_refl ltac:(lia) ltac:(lia) ltac:(done) ltac:(lia)).
Defined.

Definition dragging : Inventory := set_state State_LeftDrag Inventory_make.

Lemma Inventory_onClick_errors_witness :
  (46 < -1 ∨ 45 < 46) ∧
  ((∀ mode, mode ∈ [ClickMode_Click; ClickMode_ShiftClick; ClickMode_Keys; ClickMode_MiddleClick;
                    ClickMode_DoubleClick; ClickMode_DropButton] →
     (mode = ClickMode_Click → 46 ≠ -999) →
     (mode = ClickMode_DropButton → present (_cursor dragging) = false) →
     Inventory_onClick true 46 0 mode [] (dragging, []) =
       (Throw std_out_of_range, (dragging, []))) ∧
   (_state dragging = State_LeftDrag →
     perform (end_drag []) (dragging, []) = (UB DivisionByZero, (dragging, [])))).
Proof.
  assert (46 < -1 ∨ 45 < 46) as H by lia.
  split; [exact H|exact (Inventory_onClick_errors dragging [] true 46 0 [] H)].
Defined.
