(* ===== verification/ClientPackets.v ===== *)
(** * The clientbound packets: identifiers and structures (protocol/ClientPackets.hpp)

    One record per structure of the header, nested ones included; integers and
    enumerations are [Z], floats their bits.  The names of the nested structures are
    shortened to their last parts ([Advancement] for
    [UpdateAdvancements::AdvancementMapping::Advancement]).  A packet that refers to
    a container or to a chunk column holds its value at the time of the call. *)

From S2P Require Import Prelude Types Structures Nbt ChunkColumn.

(** [PlayerProperty], of protocol/common.hpp. *)
Record PlayerProperty : Type := mk_PlayerProperty {
  PlayerProperty_name : string;
  PlayerProperty_value : string;
  PlayerProperty_isSigned : bool;
  PlayerProperty_signature : string
}.

(** [BlockEntity], of protocol/Structures.hpp. *)
Record BlockEntity : Type := mk_BlockEntity {
  BlockEntity_sectionCoordinate : Z;
  BlockEntity_height : Z;
  BlockEntity_type : Z;
  BlockEntity_data : nbt_Base
}.

(** ** Identifiers *)

Definition ClientPacketID_DisconnectLogin : Z := 0x00.
Definition ClientPacketID_EncryptionRequest : Z := 0x01.
Definition ClientPacketID_LoginSuccess : Z := 0x02.
Definition ClientPacketID_Status : Z := 0x00.
Definition ClientPacketID_Ping : Z := 0x01.
Definition ClientPacketID_SpawnEntity : Z := 0x00.
Definition ClientPacketID_SpawnPlayer : Z := 0x02.
Definition ClientPacketID_EntityAnimation : Z := 0x03.
Definition ClientPacketID_BlockUpdate : Z := 0x09.
Definition ClientPacketID_ChangeDifficulty : Z := 0x0b.
Definition ClientPacketID_Commands : Z := 0x0e.
Definition ClientPacketID_CloseContainer : Z := 0x0f.
Definition ClientPacketID_SetContainerContent : Z := 0x10.
Definition ClientPacketID_SetContainerSlot : Z := 0x12.
Definition ClientPacketID_PluginMessage : Z := 0x15.
Definition ClientPacketID_DisconnectPlay : Z := 0x17.
Definition ClientPacketID_EntityEvent : Z := 0x19.
Definition ClientPacketID_UnloadChunk : Z := 0x1b.
Definition ClientPacketID_GameEvent : Z := 0x1c.
Definition ClientPacketID_InitializeWorldBorder : Z := 0x1e.
Definition ClientPacketID_KeepAlive : Z := 0x1f.
Definition ClientPacketID_ChunkDataAndLightUpdate : Z := 0x20.
Definition ClientPacketID_WorldEvent : Z := 0x21.
Definition ClientPacketID_LoginPlay : Z := 0x24.
Definition ClientPacketID_UpdateEntityPosition : Z := 0x27.
Definition ClientPacketID_UpdateEntityPositionRotation : Z := 0x28.
Definition ClientPacketID_UpdateEntityRotation : Z := 0x29.
Definition ClientPacketID_PlayerAbilities : Z := 0x30.
Definition ClientPacketID_PlayerChatMessage : Z := 0x31.
Definition ClientPacketID_PlayerInfoRemove : Z := 0x35.
Definition ClientPacketID_PlayerInfoUpdate : Z := 0x36.
Definition ClientPacketID_SynchronizePlayerPosition : Z := 0x38.
Definition ClientPacketID_UpdateRecipesBook : Z := 0x39.
Definition ClientPacketID_RemoveEntities : Z := 0x3a.
Definition ClientPacketID_HeadRotation : Z := 0x3e.
Definition ClientPacketID_ServerData : Z := 0x41.
Definition ClientPacketID_SetHeldItem : Z := 0x49.
Definition ClientPacketID_CenterChunk : Z := 0x4a.
Definition ClientPacketID_SetDefaultSpawnPosition : Z := 0x4c.
Definition ClientPacketID_SetEntityMetadata : Z := 0x4e.
Definition ClientPacketID_EntityVelocity : Z := 0x50.
Definition ClientPacketID_SetExperience : Z := 0x52.
Definition ClientPacketID_Health : Z := 0x53.
Definition ClientPacketID_UpdateTime : Z := 0x5a.
Definition ClientPacketID_EntitySoundEffect : Z := 0x5d.
Definition ClientPacketID_SoundEffect : Z := 0x5e.
Definition ClientPacketID_StopSound : Z := 0x5f.
Definition ClientPacketID_SystemChatMessage : Z := 0x60.
Definition ClientPacketID_TeleportEntity : Z := 0x64.
Definition ClientPacketID_UpdateAdvancements : Z := 0x65.
Definition ClientPacketID_UpdateAttributes : Z := 0x66.
Definition ClientPacketID_FeatureFlags : Z := 0x67.
Definition ClientPacketID_UpdateRecipes : Z := 0x69.
Definition ClientPacketID_UpdateTags : Z := 0x6a.

(** [PlayerInfoUpdate::Actions] *)
Definition PlayerInfoUpdate_Actions_AddPlayer : Z := 1.
Definition PlayerInfoUpdate_Actions_InitializeChat : Z := 2.
Definition PlayerInfoUpdate_Actions_UpdateGamemode : Z := 4.
Definition PlayerInfoUpdate_Actions_UpdateListed : Z := 8.
Definition PlayerInfoUpdate_Actions_UpdateLatency : Z := 16.
Definition PlayerInfoUpdate_Actions_UpdateDisplayName : Z := 32.

(** ** Packets *)

Record Disconnect : Type := mk_Disconnect {
  Disconnect_reason : string
}.

Record EncryptionRequest : Type := mk_EncryptionRequest {
  EncryptionRequest_serverID : string;
  EncryptionRequest_publicKey : list Z;
  EncryptionRequest_verifyToken : list Z
}.

Record LoginSuccess : Type := mk_LoginSuccess {
  LoginSuccess_uuid : u128;
  LoginSuccess_username : string;
  LoginSuccess_properties : list PlayerProperty
}.

Record StatusResponse : Type := mk_StatusResponse {
  StatusResponse_payload : string
}.

Record PingResponse : Type := mk_PingResponse {
  PingResponse_payload : Z
}.

Record SpawnEntity : Type := mk_SpawnEntity {
  SpawnEntity_entityId : Z;
  SpawnEntity_entityUuid : u128;
  SpawnEntity_type : Z;
  SpawnEntity_x : Z;
  SpawnEntity_y : Z;
  SpawnEntity_z : Z;
  SpawnEntity_pitch : Z;
  SpawnEntity_yaw : Z;
  SpawnEntity_headYaw : Z;
  SpawnEntity_data : Z;
  SpawnEntity_velocityX : Z;
  SpawnEntity_velocityY : Z;
  SpawnEntity_velocityZ : Z
}.

Record SpawnPlayer : Type := mk_SpawnPlayer {
  SpawnPlayer_entityId : Z;
  SpawnPlayer_playerUuid : u128;
  SpawnPlayer_x : Z;
  SpawnPlayer_y : Z;
  SpawnPlayer_z : Z;
  SpawnPlayer_yaw : Z;
  SpawnPlayer_pitch : Z
}.

Record BlockUpdate : Type := mk_BlockUpdate {
  BlockUpdate_location : Position;
  BlockUpdate_blockId : Z
}.

Record ChangeDifficultyClient : Type := mk_ChangeDifficultyClient {
  ChangeDifficultyClient_difficulty : Z;
  ChangeDifficultyClient_locked : bool
}.

Record Commands : Type := mk_Commands {
  Commands_nodes : list Z;
  Commands_rootIndex : Z
}.

Record CloseContainer : Type := mk_CloseContainer {
  CloseContainer_windowId : Z
}.

Record SetContainerContent (S : Type) : Type := mk_SetContainerContent {
  SetContainerContent_container : S
}.
Arguments mk_SetContainerContent {S} _ .
Arguments SetContainerContent_container {S} _.

Record SetContainerSlot (S : Type) : Type := mk_SetContainerSlot {
  SetContainerSlot_container : S;
  SetContainerSlot_containerId : Z;
  SetContainerSlot_slot : Z
}.
Arguments mk_SetContainerSlot {S} _ _ _.
Arguments SetContainerSlot_container {S} _.
Arguments SetContainerSlot_containerId {S} _.
Arguments SetContainerSlot_slot {S} _.

Record PluginMessageResponse : Type := mk_PluginMessageResponse {
  PluginMessageResponse_channel : string;
  PluginMessageResponse_data : list Z
}.

Record CustomSoundEffect : Type := mk_CustomSoundEffect {
  CustomSoundEffect_name : string;
  CustomSoundEffect_category : Z;
  CustomSoundEffect_x : Z;
  CustomSoundEffect_y : Z;
  CustomSoundEffect_z : Z;
  CustomSoundEffect_volume : Z;
  CustomSoundEffect_pitch : Z;
  CustomSoundEffect_seed : Z
}.

Record EntityEvent : Type := mk_EntityEvent {
  EntityEvent_entityId : Z;
  EntityEvent_eventStatus : Z
}.

Record GameEvent : Type := mk_GameEvent {
  GameEvent_event : Z;
  GameEvent_value : Z
}.

Record InitializeWorldBorder : Type := mk_InitializeWorldBorder {
  InitializeWorldBorder_x : Z;
  InitializeWorldBorder_z : Z;
  InitializeWorldBorder_oldDiameter : Z;
  InitializeWorldBorder_newDiameter : Z;
  InitializeWorldBorder_speed : Z;
  InitializeWorldBorder_portalTeleportBoundary : Z;
  InitializeWorldBorder_warningTime : Z;
  InitializeWorldBorder_warningBlocks : Z
}.

Record ChunkDataAndLightUpdate : Type := mk_ChunkDataAndLightUpdate {
  ChunkDataAndLightUpdate_chunkX : Z;
  ChunkDataAndLightUpdate_chunkZ : Z;
  ChunkDataAndLightUpdate_data : ChunkColumn
}.

Record WorldEvent : Type := mk_WorldEvent {
  WorldEvent_event : Z;
  WorldEvent_position : Position;
  WorldEvent_data : Z;
  WorldEvent_disableRelativeVolume : bool
}.

Record LoginPlay : Type := mk_LoginPlay {
  LoginPlay_entityID : Z;
  LoginPlay_isHardcore : bool;
  LoginPlay_gamemode : Z;
  LoginPlay_previousGamemode : Z;
  LoginPlay_dimensionNames : list string;
  LoginPlay_registryCodec : nbt_Base;
  LoginPlay_dimensionType : string;
  LoginPlay_dimensionName : string;
  LoginPlay_hashedSeed : Z;
  LoginPlay_maxPlayers : Z;
  LoginPlay_viewDistance : Z;
  LoginPlay_simulationDistance : Z;
  LoginPlay_reducedDebugInfo : bool;
  LoginPlay_enableRespawnScreen : bool;
  LoginPlay_isDebug : bool;
  LoginPlay_isFlat : bool;
  LoginPlay_hasDeathLocation : bool;
  LoginPlay_deathDimensionName : string;
  LoginPlay_deathLocation : Position
}.

Record UpdateEntityPosition : Type := mk_UpdateEntityPosition {
  UpdateEntityPosition_entityId : Z;
  UpdateEntityPosition_deltaX : Z;
  UpdateEntityPosition_deltaY : Z;
  UpdateEntityPosition_deltaZ : Z;
  UpdateEntityPosition_onGround : bool
}.

Record UpdateEntityPositionRotation : Type := mk_UpdateEntityPositionRotation {
  UpdateEntityPositionRotation_entityId : Z;
  UpdateEntityPositionRotation_deltaX : Z;
  UpdateEntityPositionRotation_deltaY : Z;
  UpdateEntityPositionRotation_deltaZ : Z;
  UpdateEntityPositionRotation_yaw : Z;
  UpdateEntityPositionRotation_pitch : Z;
  UpdateEntityPositionRotation_onGround : bool
}.

Record UpdateEntityRotation : Type := mk_UpdateEntityRotation {
  UpdateEntityRotation_entityId : Z;
  UpdateEntityRotation_yaw : Z;
  UpdateEntityRotation_pitch : Z;
  UpdateEntityRotation_onGround : bool
}.

Record PlayerAbilitiesClient : Type := mk_PlayerAbilitiesClient {
  PlayerAbilitiesClient_flags : Z;
  PlayerAbilitiesClient_flyingSpeed : Z;
  PlayerAbilitiesClient_fieldOfViewModifier : Z
}.

Record PlayerChatMessage : Type := mk_PlayerChatMessage {
  PlayerChatMessage_senderUUID : u128;
  PlayerChatMessage_index : Z;
  PlayerChatMessage_hasSignature : bool;
  PlayerChatMessage_signature : list Z;
  PlayerChatMessage_message : string;
  PlayerChatMessage_timestamp : Z;
  PlayerChatMessage_salt : Z;
  PlayerChatMessage_previousMessages : list (Z * list Z);
  PlayerChatMessage_hasUnsignedContent : bool;
  PlayerChatMessage_unsignedContent : string;
  PlayerChatMessage_filterType : Z;
  PlayerChatMessage_filterData : list Z;
  PlayerChatMessage_chatType : Z;
  PlayerChatMessage_networkName : string;
  PlayerChatMessage_hasNetworkTargetName : bool;
  PlayerChatMessage_networkTargetName : string
}.

Record PlayerInfoRemove : Type := mk_PlayerInfoRemove {
  PlayerInfoRemove_uuids : list u128
}.

Record Action_AddPlayer : Type := mk_Action_AddPlayer {
  Action_AddPlayer_name : string;
  Action_AddPlayer_properties : list PlayerProperty
}.

Record Action_InitializeChat : Type := mk_Action_InitializeChat {
  Action_InitializeChat_hasSigData : bool
}.

Record Action_UpdateGamemode : Type := mk_Action_UpdateGamemode {
  Action_UpdateGamemode_gamemode : Z
}.

Record Action_UpdateListed : Type := mk_Action_UpdateListed {
  Action_UpdateListed_listed : bool
}.

Record Action_UpdateLatency : Type := mk_Action_UpdateLatency {
  Action_UpdateLatency_latency : Z
}.

Record Action_UpdateDisplayName : Type := mk_Action_UpdateDisplayName {
  Action_UpdateDisplayName_hasDisplayName : bool;
  Action_UpdateDisplayName_displayName : string
}.

Record Action : Type := mk_Action {
  Action_uuid : u128;
  Action_addPlayer : Action_AddPlayer;
  Action_initializeChat : Action_InitializeChat;
  Action_updateGamemode : Action_UpdateGamemode;
  Action_updateListed : Action_UpdateListed;
  Action_updateLatency : Action_UpdateLatency;
  Action_updateDisplayName : Action_UpdateDisplayName
}.

Record PlayerInfoUpdate : Type := mk_PlayerInfoUpdate {
  PlayerInfoUpdate_actions : Z;
  PlayerInfoUpdate_actionSets : list Action
}.

Record SynchronizePlayerPosition : Type := mk_SynchronizePlayerPosition {
  SynchronizePlayerPosition_x : Z;
  SynchronizePlayerPosition_y : Z;
  SynchronizePlayerPosition_z : Z;
  SynchronizePlayerPosition_yaw : Z;
  SynchronizePlayerPosition_pitch : Z;
  SynchronizePlayerPosition_flags : Z;
  SynchronizePlayerPosition_teleportId : Z;
  SynchronizePlayerPosition_dismountVehicle : bool
}.

Record UpdateRecipesBook : Type := mk_UpdateRecipesBook {
  UpdateRecipesBook_action : Z;
  UpdateRecipesBook_craftingRecipeBookOpen : bool;
  UpdateRecipesBook_craftingRecipeBookFilterActive : bool;
  UpdateRecipesBook_smeltingRecipeBookOpen : bool;
  UpdateRecipesBook_smeltingRecipeBookFilterActive : bool;
  UpdateRecipesBook_blastFurnaceRecipeBookOpen : bool;
  UpdateRecipesBook_blastFurnaceRecipeBookFilterActive : bool;
  UpdateRecipesBook_smokerRecipeBookOpen : bool;
  UpdateRecipesBook_smokerRecipeBookFilterActive : bool;
  UpdateRecipesBook_recipesId : list string;
  UpdateRecipesBook_recipiesIdForInit : list string
}.

Record RemoveEntities : Type := mk_RemoveEntities {
  RemoveEntities_entities : list Z
}.

Record HeadRotation : Type := mk_HeadRotation {
  HeadRotation_entityID : Z;
  HeadRotation_headYaw : Z
}.

Record ServerData : Type := mk_ServerData {
  ServerData_hasMotd : bool;
  ServerData_motd : string;
  ServerData_hasIcon : bool;
  ServerData_icon : string;
  ServerData_enforceSecureChat : bool
}.

Record SetHeldItemClient : Type := mk_SetHeldItemClient {
  SetHeldItemClient_slot : Z
}.

Record SetDefaultSpawnPosition : Type := mk_SetDefaultSpawnPosition {
  SetDefaultSpawnPosition_position : Position;
  SetDefaultSpawnPosition_angle : Z
}.

Record EntityMetadata : Type := mk_EntityMetadata {
  EntityMetadata_index : Z;
  EntityMetadata_type : Z;
  EntityMetadata_slot : Slot
}.

Record SetEntityMetadata : Type := mk_SetEntityMetadata {
  SetEntityMetadata_entityId : Z;
  SetEntityMetadata_metadata : list EntityMetadata
}.

Record UpdateTime : Type := mk_UpdateTime {
  UpdateTime_worldAge : Z;
  UpdateTime_timeOfDay : Z
}.

Record EntitySoundEffect : Type := mk_EntitySoundEffect {
  EntitySoundEffect_soundId : Z;
  EntitySoundEffect_category : Z;
  EntitySoundEffect_entityId : Z;
  EntitySoundEffect_volume : Z;
  EntitySoundEffect_pitch : Z;
  EntitySoundEffect_seed : Z
}.

Record SoundEffect : Type := mk_SoundEffect {
  SoundEffect_soundId : Z;
  SoundEffect_category : Z;
  SoundEffect_x : Z;
  SoundEffect_y : Z;
  SoundEffect_z : Z;
  SoundEffect_volume : Z;
  SoundEffect_pitch : Z;
  SoundEffect_seed : Z
}.

Record StopSound : Type := mk_StopSound {
  StopSound_flags : Z;
  StopSound_source : Z;
  StopSound_sound : string
}.

Record SystemChatMessage : Type := mk_SystemChatMessage {
  SystemChatMessage_JSONData : string;
  SystemChatMessage_overlay : bool
}.

Record EntityVelocity : Type := mk_EntityVelocity {
  EntityVelocity_entityId : Z;
  EntityVelocity_velocityX : Z;
  EntityVelocity_velocityY : Z;
  EntityVelocity_velocityZ : Z
}.

Record SetExperience : Type := mk_SetExperience {
  SetExperience_experienceBar : Z;
  SetExperience_totalExperience : Z;
  SetExperience_level : Z
}.

Record Health : Type := mk_Health {
  Health_health : Z;
  Health_food : Z;
  Health_foodSaturation : Z
}.

Record TeleportEntity : Type := mk_TeleportEntity {
  TeleportEntity_entityID : Z;
  TeleportEntity_x : Z;
  TeleportEntity_y : Z;
  TeleportEntity_z : Z;
  TeleportEntity_yaw : Z;
  TeleportEntity_pitch : Z;
  TeleportEntity_onGround : bool
}.

Record AdvancementCriteria : Type := mk_AdvancementCriteria {
  AdvancementCriteria_key : string
}.

Record AdvancementDisplay : Type := mk_AdvancementDisplay {
  AdvancementDisplay_title : string;
  AdvancementDisplay_description : string;
  AdvancementDisplay_icon : Slot;
  AdvancementDisplay_frameType : Z;
  AdvancementDisplay_flags : Z;
  AdvancementDisplay_backgroundTexture : string;
  AdvancementDisplay_xCoord : Z;
  AdvancementDisplay_yCoord : Z
}.

Record Advancement : Type := mk_Advancement {
  Advancement_hasParent : bool;
  Advancement_parent : string;
  Advancement_hasDisplay : bool;
  Advancement_displayData : AdvancementDisplay;
  Advancement_criteria : list AdvancementCriteria;
  Advancement_requirements : list (list string)
}.

Record AdvancementMapping : Type := mk_AdvancementMapping {
  AdvancementMapping_identifier : string;
  AdvancementMapping_advancement : Advancement
}.

Record CriterionProgress : Type := mk_CriterionProgress {
  CriterionProgress_achived : bool;
  CriterionProgress_dateOfAchieving : Z
}.

Record CriteriaMapping : Type := mk_CriteriaMapping {
  CriteriaMapping_identifier : string;
  CriteriaMapping_criteria : CriterionProgress
}.

Record ProgressMapping : Type := mk_ProgressMapping {
  ProgressMapping_identifier : string;
  ProgressMapping_advancementProgress : list CriteriaMapping
}.

Record UpdateAdvancements : Type := mk_UpdateAdvancements {
  UpdateAdvancements_resetOrClear : bool;
  UpdateAdvancements_advancementMapping : list AdvancementMapping;
  UpdateAdvancements_identifiers : list string;
  UpdateAdvancements_progressMapping : list ProgressMapping
}.

Record AttributesPropertyModifier : Type := mk_AttributesPropertyModifier {
  AttributesPropertyModifier_uuid : u128;
  AttributesPropertyModifier_amount : Z;
  AttributesPropertyModifier_operation : Z
}.

Record AttributesProperty : Type := mk_AttributesProperty {
  AttributesProperty_key : string;
  AttributesProperty_value : string;
  AttributesProperty_modifiers : list AttributesPropertyModifier
}.

Record UpdateAttributes : Type := mk_UpdateAttributes {
  UpdateAttributes_entityId : Z;
  UpdateAttributes_attributes : list AttributesProperty
}.

Record FeatureFlags : Type := mk_FeatureFlags {
  FeatureFlags_flags : list string
}.

Record UpdateRecipes : Type := mk_UpdateRecipes {
  UpdateRecipes_recipes : list Z
}.

Record UpdateTags : Type := mk_UpdateTags {
  UpdateTags_tags : list Z
}.
