(* ===== verification/AddStructures.v ===== *)
(** * Writers of composite structures (protocol/serialization/add.hpp)

    Palettes, chunk columns with their light, containers, and the parts of the
    advancement, attribute and chat packets. *)

From S2P Require Import Prelude Types Codec Structures Add Nbt DynamicStorage Palette Section ChunkColumn Container ClientPackets.

(** [addNBT]: [data.serialize(out)], with the name. *)
Definition addNBT (data : nbt_Base) : writer := nbt_serialize true data.

Definition addBlockEntity (data : BlockEntity) : writer := serialize [
  addByte (BlockEntity_sectionCoordinate data);
  addShort (BlockEntity_height data);
  addVarInt (BlockEntity_type data);
  addNBT (BlockEntity_data data)].
Definition addBlockEntities (data : list BlockEntity) : writer :=
  serialize (addVarInt (zlen data) :: (addBlockEntity <$> data)).

(** ** Palettes *)

(** [getBits] is the virtual method of the palette. *)
Definition addPalette (getBits : Palette → result Z) (palette : Palette) : writer := λ out,
  bytePerBlock ← getBits palette;
  out ← addByte bytePerBlock out;
  if decide (Palette_size palette = 0) then addVarInt 0 out
  else if decide (Palette_size palette = 1) then
    globalId ← Palette_index palette 0; addVarInt globalId out
  else if decide (bytePerBlock = 15) then Ok out
  else addArray addVarInt palette out.

(** ** Light *)

Record LightMasks : Type := mk_LightMasks {
  skyLightMask : Z;
  blockLightMask : Z;
  emptySkyLightMask : Z;
  emptyBlockLightMask : Z;
  countSkyLight : Z;
  countBlockLight : Z
}.

(** [1 << i], an [int], as [uint64_t]. *)
Definition shifted_one (i : Z) : result Z :=
  if decide (32 ≤ i) then UB InvalidShift else Ok (to_u64 (to_i32 (Z.shiftl 1 i))).

Definition add_masks (i : Z) (section : Section_) (m : LightMasks) : result LightMasks :=
  bit ← shifted_one i;
  let m :=
    if Section_hasSkyLight section then
      mk_LightMasks (Z.lor (skyLightMask m) bit) (blockLightMask m) (emptySkyLightMask m)
        (emptyBlockLightMask m) (to_u8 (countSkyLight m + 1)) (countBlockLight m)
    else
      mk_LightMasks (skyLightMask m) (blockLightMask m) (Z.lor (emptySkyLightMask m) bit)
        (emptyBlockLightMask m) (countSkyLight m) (countBlockLight m) in
  Ok (if Section_hasBlockLight section then
        mk_LightMasks (skyLightMask m) (Z.lor (blockLightMask m) bit) (emptySkyLightMask m)
          (emptyBlockLightMask m) (countSkyLight m) (to_u8 (countBlockLight m + 1))
      else
        mk_LightMasks (skyLightMask m) (blockLightMask m) (emptySkyLightMask m)
          (Z.lor (emptyBlockLightMask m) bit) (countSkyLight m) (countBlockLight m)).

Fixpoint light_masks (i : Z) (sections : list Section_) (m : LightMasks) : result LightMasks :=
  match sections with
  | [] => Ok m
  | section :: sections => m ← add_masks i section m; light_masks (i + 1) sections m
  end.

Definition add_longs : list Z → writer := addArray addUnsignedLong.
Definition add_bytes : list Z → writer := addArray addByte.

Definition addLight (data : ChunkColumn) : writer := λ out,
  let sections := _sections data in
  m ← light_masks 0 sections (mk_LightMasks 0 0 0 0 0 0);
  serialize ([
    addBoolean true;
    add_longs [skyLightMask m];
    add_longs [blockLightMask m];
    add_longs [emptySkyLightMask m];
    add_longs [emptyBlockLightMask m];
    addVarInt (countSkyLight m)] ++
    ((λ section, when (Section_hasSkyLight section) (add_bytes (_store (_skyLight section))))
       <$> sections) ++
    [addVarInt (countBlockLight m)] ++
    ((λ section, when (Section_hasBlockLight section) (add_bytes (_store (_blockLight section))))
       <$> sections)) out.

(** ** Chunk columns *)

(** The blocks of a section that are not air, counted in sixteen bits. *)
Fixpoint count_blocks (section : Section_) (l : list Z) (blockCount : Z) : result Z :=
  match l with
  | [] => Ok blockCount
  | i :: l =>
      b ← Section_getBlock_idx section i;
      count_blocks section l (if decide (b ≠ 0) then to_u16 (blockCount + 1) else blockCount)
  end.

(** One turn of the loop over the sections. *)
Definition addSection (section : Section_) : writer := λ out,
  blockCount ← count_blocks section (seqZ 0 SECTION_3D_SIZE) 0;
  out ← addShort blockCount out;
  out ← addPalette BlockPalette_getBits (_blockPalette section) out;
  hasBlocks ← Section_hasBlocks section;
  out ← (if hasBlocks : bool then add_longs (_store (_blocks section)) out else addVarInt 0 out);
  out ← addPalette BiomePalette_getBits (_biomePalette section) out;
  hasBiomes ← Section_hasBiomes section;
  if hasBiomes : bool then add_longs (_store (_biomes section)) out else addVarInt 0 out.

(** [idx] from [1] to [sections.size() - 2]. *)
Definition inner_sections (data : ChunkColumn) : list Section_ :=
  take (length (_sections data) - 2) (drop 1 (_sections data)).

Definition addChunkColumn (data : ChunkColumn) : writer := λ out,
  out ← addNBT (nbt_Compound String.EmptyString (_heightMap data)) out;
  chunkData ← serialize (addSection <$> inner_sections data) [];
  serialize [add_bytes chunkData; addBlockEntities []; addLight data] out.

(** ** Parts of other packets *)

Definition addAttributesPropertyModifier (data : AttributesPropertyModifier) : writer := serialize [
  addUUID (AttributesPropertyModifier_uuid data);
  addDouble (AttributesPropertyModifier_amount data);
  addByte (to_u8 (AttributesPropertyModifier_operation data))].

Definition addAttributesProperty (data : AttributesProperty) : writer := serialize [
  addString (AttributesProperty_key data);
  addString (AttributesProperty_value data);
  addArray addAttributesPropertyModifier (AttributesProperty_modifiers data)].

Definition hasBackgroundTexture : Z := 0x01.

Definition addAdvancementDisplay (data : AdvancementDisplay) : writer := serialize [
  addChat (AdvancementDisplay_title data);
  addChat (AdvancementDisplay_description data);
  addSlot (AdvancementDisplay_icon data);
  addVarInt (to_u8 (AdvancementDisplay_frameType data));
  addInt (AdvancementDisplay_flags data);
  when (bool_decide (Z.land (AdvancementDisplay_flags data) hasBackgroundTexture ≠ 0))
    (addString (AdvancementDisplay_backgroundTexture data));
  addFloat (AdvancementDisplay_xCoord data);
  addFloat (AdvancementDisplay_yCoord data)].

Definition addAdvancementCriteria (data : AdvancementCriteria) : writer :=
  addIdentifier (AdvancementCriteria_key data).

Definition addAdvancement (data : Advancement) : writer := serialize [
  addBoolean (Advancement_hasParent data);
  when (Advancement_hasParent data) (addString (Advancement_parent data));
  addBoolean (Advancement_hasDisplay data);
  when (Advancement_hasDisplay data) (addAdvancementDisplay (Advancement_displayData data));
  addArray addAdvancementCriteria (Advancement_criteria data);
  addArray (addArray addString) (Advancement_requirements data)].

Definition addAdvancementMapping (data : AdvancementMapping) : writer := serialize [
  addIdentifier (AdvancementMapping_identifier data);
  addAdvancement (AdvancementMapping_advancement data)].

Definition addAdvancementCriterionProgress (data : CriterionProgress) : writer := serialize [
  addBoolean (CriterionProgress_achived data);
  addLong (CriterionProgress_dateOfAchieving data)].

Definition addAdvancementCriteriaMapping (data : CriteriaMapping) : writer := serialize [
  addIdentifier (CriteriaMapping_identifier data);
  addAdvancementCriterionProgress (CriteriaMapping_criteria data)].

Definition addAdvancementProgressMapping (data : ProgressMapping) : writer := serialize [
  addIdentifier (ProgressMapping_identifier data);
  addArray addAdvancementCriteriaMapping (ProgressMapping_advancementProgress data)].

Definition addRawMessage (rawMessage : Z * list Z) : writer := serialize [
  addVarInt rawMessage.1;
  add_bytes rawMessage.2].

(** [at(i)]: the [uint64_t] becomes an [int16_t]. *)
Definition addContainer {L S : Type} `{Container L S} (container : S) : writer :=
  serialize (addVarInt container_size ::
    ((λ i out, l ← container_at (to_i16 i); addSlot (slot_get l container) out)
       <$> seqZ 0 container_size)).
