(* ===== verification/CreatePackets.v ===== *)
(** * Making the clientbound packets (protocol/ClientPackets.cpp, PacketUtils.hpp)

    Each [create] function serialises the fields of its structure in order into a
    payload and puts the length and the packet identifier in front. *)

From S2P Require Import Prelude Types Codec Structures Add Container ClientPackets AddStructures.

(** [addVarInt(out, payloadSize + encodedPacketId.size())]: the [size_t] becomes an
    [int32_t]. *)
Definition finalize (out payload : list Z) (packetId : Z) : result (list Z) :=
  encodedPacketId ← addVarInt packetId [];
  out ← addVarInt (to_u64 (zlen payload + zlen encodedPacketId)) out;
  Ok (out ++ encodedPacketId ++ payload).

(** The common end of the functions: a payload, and a packet made of it. *)
Definition packet (packetId : Z) (w : writer) : result (list Z) :=
  payload ← w []; finalize [] payload packetId.

Definition has_action (p : PlayerInfoUpdate) (action : Z) : bool :=
  bool_decide (Z.land (PlayerInfoUpdate_actions p) action ≠ 0).

Definition createLoginDisconnect (p : Disconnect) : result (list Z) :=
  packet ClientPacketID_DisconnectLogin (serialize [
  addString (Disconnect_reason p)]).

Definition createEncryptionRequest (p : EncryptionRequest) : result (list Z) :=
  packet ClientPacketID_EncryptionRequest (serialize [
  addString (EncryptionRequest_serverID p);
  addArray addByte (EncryptionRequest_publicKey p);
  addArray addByte (EncryptionRequest_verifyToken p)]).

Definition createLoginSuccess (p : LoginSuccess) : result (list Z) :=
  packet ClientPacketID_LoginSuccess (serialize [
  addUUID (LoginSuccess_uuid p);
  addString (LoginSuccess_username p);
  addVarInt (zlen (LoginSuccess_properties p));
  serialize ((λ property, serialize [
    addString (PlayerProperty_name property);
    addString (PlayerProperty_value property);
    addBoolean (PlayerProperty_isSigned property);
    when (PlayerProperty_isSigned property) (addString (PlayerProperty_signature property))])
    <$> LoginSuccess_properties p)]).

Definition createStatusResponse (p : StatusResponse) : result (list Z) :=
  packet ClientPacketID_Status (serialize [
  addString (StatusResponse_payload p)]).

Definition createPingResponse (p : PingResponse) : result (list Z) :=
  packet ClientPacketID_Ping (serialize [
  addLong (PingResponse_payload p)]).

Definition createSpawnEntity (p : SpawnEntity) : result (list Z) :=
  packet ClientPacketID_SpawnEntity (serialize [
  addVarInt (SpawnEntity_entityId p);
  addUUID (SpawnEntity_entityUuid p);
  addVarInt (SpawnEntity_type p);
  addDouble (SpawnEntity_x p);
  addDouble (SpawnEntity_y p);
  addDouble (SpawnEntity_z p);
  addByte (SpawnEntity_pitch p);
  addByte (SpawnEntity_yaw p);
  addByte (SpawnEntity_headYaw p);
  addVarInt (SpawnEntity_data p);
  addShort (SpawnEntity_velocityX p);
  addShort (SpawnEntity_velocityY p);
  addShort (SpawnEntity_velocityZ p)]).

Definition createSpawnPlayer (p : SpawnPlayer) : result (list Z) :=
  packet ClientPacketID_SpawnPlayer (serialize [
  addVarInt (SpawnPlayer_entityId p);
  addUUID (SpawnPlayer_playerUuid p);
  addDouble (SpawnPlayer_x p);
  addDouble (SpawnPlayer_y p);
  addDouble (SpawnPlayer_z p);
  addByte (SpawnPlayer_yaw p);
  addByte (SpawnPlayer_pitch p)]).

Definition createEntityAnimation (animId entityID : Z) : result (list Z) :=
  packet ClientPacketID_EntityAnimation (serialize [
  addVarInt entityID;
  addByte animId]).

Definition createBlockUpdate (p : BlockUpdate) : result (list Z) :=
  packet ClientPacketID_BlockUpdate (serialize [
  addPosition (BlockUpdate_location p);
  addVarInt (BlockUpdate_blockId p)]).

Definition createChangeDifficultyClient (p : ChangeDifficultyClient) : result (list Z) :=
  packet ClientPacketID_ChangeDifficulty (serialize [
  addByte (ChangeDifficultyClient_difficulty p);
  addBoolean (ChangeDifficultyClient_locked p)]).

Definition createCommands (p : Commands) : result (list Z) :=
  packet ClientPacketID_Commands (serialize [
  addArray addVarInt (Commands_nodes p);
  addVarInt (Commands_rootIndex p)]).

Definition createCloseContainer (p : CloseContainer) : result (list Z) :=
  packet ClientPacketID_CloseContainer (serialize [
  addByte (CloseContainer_windowId p)]).

Definition createSetContainerContent {L S : Type} `{Container L S} (p : SetContainerContent S) :
  result (list Z) :=
  let container := SetContainerContent_container p in
  packet ClientPacketID_SetContainerContent (serialize [
  addByte container_id;
  addVarInt (container_state container);
  addContainer container;
  λ out, l ← container_at (container_cariedItemIndex container); addSlot (slot_get l container) out]).

Definition createSetContainerSlot {L S : Type} `{Container L S} (p : SetContainerSlot S) : result (list Z) :=
  let container := SetContainerSlot_container p in
  packet ClientPacketID_SetContainerSlot (serialize [
  addByte (SetContainerSlot_containerId p);
  addVarInt (container_state container);
  addShort (SetContainerSlot_slot p);
  λ out, l ← container_at (SetContainerSlot_slot p); addSlot (slot_get l container) out]).

Definition createPluginMessageResponse (p : PluginMessageResponse) : result (list Z) :=
  packet ClientPacketID_PluginMessage (serialize [
  addIdentifier (PluginMessageResponse_channel p);
  serialize (push_back <$> PluginMessageResponse_data p)]).

(** The body is commented out: the packet is an empty vector. *)
Definition createCustomSoundEffect (p : CustomSoundEffect) : result (list Z) := Ok [].

Definition createPlayDisconnect (p : Disconnect) : result (list Z) :=
  packet ClientPacketID_DisconnectPlay (serialize [
  addString (Disconnect_reason p)]).

Definition createEntityEvent (p : EntityEvent) : result (list Z) :=
  packet ClientPacketID_EntityEvent (serialize [
  addInt (EntityEvent_entityId p);
  addByte (EntityEvent_eventStatus p)]).

Definition createUnloadChunk (p : Position2D) : result (list Z) :=
  packet ClientPacketID_UnloadChunk (serialize [
  addInt (p2x p);
  addInt (p2z p)]).

Definition createInitializeWorldBorder (p : InitializeWorldBorder) : result (list Z) :=
  packet ClientPacketID_InitializeWorldBorder (serialize [
  addDouble (InitializeWorldBorder_x p);
  addDouble (InitializeWorldBorder_z p);
  addDouble (InitializeWorldBorder_oldDiameter p);
  addDouble (InitializeWorldBorder_newDiameter p);
  addVarLong (InitializeWorldBorder_speed p);
  addVarInt (InitializeWorldBorder_portalTeleportBoundary p);
  addVarInt (InitializeWorldBorder_warningTime p);
  addVarInt (InitializeWorldBorder_warningBlocks p)]).

Definition createGameEvent (p : GameEvent) : result (list Z) :=
  packet ClientPacketID_GameEvent (serialize [
  addByte (to_u8 (GameEvent_event p));
  addFloat (GameEvent_value p)]).

Definition createKeepAlive (id : Z) : result (list Z) :=
  packet ClientPacketID_KeepAlive (serialize [
  addLong id]).

Definition createChunkDataAndLightUpdate (p : ChunkDataAndLightUpdate) : result (list Z) :=
  packet ClientPacketID_ChunkDataAndLightUpdate (serialize [
  addInt (ChunkDataAndLightUpdate_chunkX p);
  addInt (ChunkDataAndLightUpdate_chunkZ p);
  addChunkColumn (ChunkDataAndLightUpdate_data p)]).

Definition createWorldEvent (p : WorldEvent) : result (list Z) :=
  packet ClientPacketID_WorldEvent (serialize [
  addInt (WorldEvent_event p);
  addPosition (WorldEvent_position p);
  addInt (WorldEvent_data p);
  addBoolean (WorldEvent_disableRelativeVolume p)]).

Definition createLoginPlay (p : LoginPlay) : result (list Z) :=
  packet ClientPacketID_LoginPlay (serialize [
  addInt (LoginPlay_entityID p);
  addBoolean (LoginPlay_isHardcore p);
  addByte (LoginPlay_gamemode p);
  addByte (LoginPlay_previousGamemode p);
  addArray addString (LoginPlay_dimensionNames p);
  addNBT (LoginPlay_registryCodec p);
  addString (LoginPlay_dimensionType p);
  addString (LoginPlay_dimensionName p);
  addLong (LoginPlay_hashedSeed p);
  addVarInt (LoginPlay_maxPlayers p);
  addVarInt (LoginPlay_viewDistance p);
  addVarInt (LoginPlay_simulationDistance p);
  addBoolean (LoginPlay_reducedDebugInfo p);
  addBoolean (LoginPlay_enableRespawnScreen p);
  addBoolean (LoginPlay_isDebug p);
  addBoolean (LoginPlay_isFlat p);
  addBoolean (LoginPlay_hasDeathLocation p);
  when (LoginPlay_hasDeathLocation p) (serialize [
    addString (LoginPlay_deathDimensionName p);
    addPosition (LoginPlay_deathLocation p)])]).

Definition createUpdateEntityPosition (p : UpdateEntityPosition) : result (list Z) :=
  packet ClientPacketID_UpdateEntityPosition (serialize [
  addVarInt (UpdateEntityPosition_entityId p);
  addShort (UpdateEntityPosition_deltaX p);
  addShort (UpdateEntityPosition_deltaY p);
  addShort (UpdateEntityPosition_deltaZ p);
  addBoolean (UpdateEntityPosition_onGround p)]).

Definition createUpdateEntityPositionRotation (p : UpdateEntityPositionRotation) : result (list Z) :=
  packet ClientPacketID_UpdateEntityPositionRotation (serialize [
  addVarInt (UpdateEntityPositionRotation_entityId p);
  addShort (UpdateEntityPositionRotation_deltaX p);
  addShort (UpdateEntityPositionRotation_deltaY p);
  addShort (UpdateEntityPositionRotation_deltaZ p);
  addByte (UpdateEntityPositionRotation_yaw p);
  addByte (UpdateEntityPositionRotation_pitch p);
  addBoolean (UpdateEntityPositionRotation_onGround p)]).

Definition createUpdateEntityRotation (p : UpdateEntityRotation) : result (list Z) :=
  packet ClientPacketID_UpdateEntityRotation (serialize [
  addVarInt (UpdateEntityRotation_entityId p);
  addByte (UpdateEntityRotation_yaw p);
  addByte (UpdateEntityRotation_pitch p);
  addBoolean (UpdateEntityRotation_onGround p)]).

Definition createPlayerAbilities (p : PlayerAbilitiesClient) : result (list Z) :=
  packet ClientPacketID_PlayerAbilities (serialize [
  addByte (PlayerAbilitiesClient_flags p);
  addFloat (PlayerAbilitiesClient_flyingSpeed p);
  addFloat (PlayerAbilitiesClient_fieldOfViewModifier p)]).

Definition createPlayerChatMessage (p : PlayerChatMessage) : result (list Z) :=
  packet ClientPacketID_PlayerChatMessage (serialize [
  addUUID (PlayerChatMessage_senderUUID p);
  addVarInt (PlayerChatMessage_index p);
  addBoolean (PlayerChatMessage_hasSignature p);
  when (PlayerChatMessage_hasSignature p) (addArray addByte (PlayerChatMessage_signature p));
  addChat (PlayerChatMessage_message p);
  addLong (PlayerChatMessage_timestamp p);
  addLong (PlayerChatMessage_salt p);
  addArray addRawMessage (PlayerChatMessage_previousMessages p);
  addBoolean (PlayerChatMessage_hasUnsignedContent p);
  when (PlayerChatMessage_hasUnsignedContent p) (addChat (PlayerChatMessage_unsignedContent p));
  addVarInt (PlayerChatMessage_filterType p);
  addVarInt (PlayerChatMessage_chatType p);
  addChat (PlayerChatMessage_networkName p);
  addBoolean (PlayerChatMessage_hasNetworkTargetName p);
  when (PlayerChatMessage_hasNetworkTargetName p) (addChat (PlayerChatMessage_networkTargetName p))]).

Definition createPlayerInfoRemove (p : PlayerInfoRemove) : result (list Z) :=
  packet ClientPacketID_PlayerInfoRemove (serialize [
  addArray addUUID (PlayerInfoRemove_uuids p)]).

Definition createPlayerInfoUpdate (p : PlayerInfoUpdate) : result (list Z) :=
  packet ClientPacketID_PlayerInfoUpdate (serialize [
  addByte (PlayerInfoUpdate_actions p);
  addVarInt (zlen (PlayerInfoUpdate_actionSets p));
  serialize ((λ actionSet, serialize [
    addUUID (Action_uuid actionSet);
    when (has_action p PlayerInfoUpdate_Actions_AddPlayer) (serialize [
      addString (Action_AddPlayer_name (Action_addPlayer actionSet));
      addVarInt 0]);
    when (has_action p PlayerInfoUpdate_Actions_InitializeChat)
      (addBoolean (Action_InitializeChat_hasSigData (Action_initializeChat actionSet)));
    when (has_action p PlayerInfoUpdate_Actions_UpdateGamemode)
      (addVarInt (Action_UpdateGamemode_gamemode (Action_updateGamemode actionSet)));
    when (has_action p PlayerInfoUpdate_Actions_UpdateListed)
      (addBoolean (Action_UpdateListed_listed (Action_updateListed actionSet)));
    when (has_action p PlayerInfoUpdate_Actions_UpdateLatency)
      (addVarInt (Action_UpdateLatency_latency (Action_updateLatency actionSet)));
    when (has_action p PlayerInfoUpdate_Actions_UpdateDisplayName)
      (addBoolean (Action_UpdateDisplayName_hasDisplayName (Action_updateDisplayName actionSet)))])
    <$> PlayerInfoUpdate_actionSets p)]).

Definition createSynchronizePlayerPosition (p : SynchronizePlayerPosition) : result (list Z) :=
  packet ClientPacketID_SynchronizePlayerPosition (serialize [
  addDouble (SynchronizePlayerPosition_x p);
  addDouble (SynchronizePlayerPosition_y p);
  addDouble (SynchronizePlayerPosition_z p);
  addFloat (SynchronizePlayerPosition_yaw p);
  addFloat (SynchronizePlayerPosition_pitch p);
  addByte (SynchronizePlayerPosition_flags p);
  addVarInt (SynchronizePlayerPosition_teleportId p);
  addBoolean (SynchronizePlayerPosition_dismountVehicle p)]).

Definition createUpdateRecipesBook (p : UpdateRecipesBook) : result (list Z) :=
  packet ClientPacketID_UpdateRecipesBook (serialize [
  addVarInt (UpdateRecipesBook_action p);
  addBoolean (UpdateRecipesBook_craftingRecipeBookOpen p);
  addBoolean (UpdateRecipesBook_craftingRecipeBookFilterActive p);
  addBoolean (UpdateRecipesBook_smeltingRecipeBookOpen p);
  addBoolean (UpdateRecipesBook_smeltingRecipeBookFilterActive p);
  addBoolean (UpdateRecipesBook_blastFurnaceRecipeBookOpen p);
  addBoolean (UpdateRecipesBook_blastFurnaceRecipeBookFilterActive p);
  addBoolean (UpdateRecipesBook_smokerRecipeBookOpen p);
  addBoolean (UpdateRecipesBook_smokerRecipeBookFilterActive p);
  addArray addIdentifier (UpdateRecipesBook_recipesId p);
  when (bool_decide (UpdateRecipesBook_action p = 0))
    (addArray addIdentifier (UpdateRecipesBook_recipiesIdForInit p))]).

Definition createRemoveEntities (p : RemoveEntities) : result (list Z) :=
  packet ClientPacketID_RemoveEntities (serialize [
  addArray addVarInt (RemoveEntities_entities p)]).

Definition createHeadRotation (p : HeadRotation) : result (list Z) :=
  packet ClientPacketID_HeadRotation (serialize [
  addVarInt (HeadRotation_entityID p);
  addByte (HeadRotation_headYaw p)]).

Definition createServerData (p : ServerData) : result (list Z) :=
  packet ClientPacketID_ServerData (serialize [
  addBoolean (ServerData_hasMotd p);
  addBoolean (ServerData_hasIcon p);
  addBoolean (ServerData_enforceSecureChat p)]).

Definition createSetHeldItemClient (p : SetHeldItemClient) : result (list Z) :=
  packet ClientPacketID_SetHeldItem (serialize [
  addByte (SetHeldItemClient_slot p)]).

Definition createCenterChunk (p : Position2D) : result (list Z) :=
  packet ClientPacketID_CenterChunk (serialize [
  addVarInt (p2x p);
  addVarInt (p2z p)]).

Definition createSetDefaultSpawnPosition (p : SetDefaultSpawnPosition) : result (list Z) :=
  packet ClientPacketID_SetDefaultSpawnPosition (serialize [
  addPosition (SetDefaultSpawnPosition_position p);
  addFloat (SetDefaultSpawnPosition_angle p)]).

(** [in.metadata[0]] of an empty vector is undefined. *)
Definition createSetEntityMetadata (p : SetEntityMetadata) : result (list Z) :=
  match SetEntityMetadata_metadata p with
  | [] => UB OutOfBoundsRead
  | metadata :: _ =>
      packet ClientPacketID_SetEntityMetadata (serialize [
      addVarInt (SetEntityMetadata_entityId p);
      addByte (EntityMetadata_index metadata);
      addVarInt (EntityMetadata_type metadata);
      addSlot (EntityMetadata_slot metadata);
      addByte 0xff])
  end.

Definition createUpdateTime (p : UpdateTime) : result (list Z) :=
  packet ClientPacketID_UpdateTime (serialize [
  addLong (UpdateTime_worldAge p);
  addLong (UpdateTime_timeOfDay p)]).

Definition createEntitySoundEffect (p : EntitySoundEffect) : result (list Z) :=
  packet ClientPacketID_EntitySoundEffect (serialize [
  addVarInt (EntitySoundEffect_soundId p);
  addVarInt (EntitySoundEffect_category p);
  addVarInt (EntitySoundEffect_entityId p);
  addFloat (EntitySoundEffect_volume p);
  addFloat (EntitySoundEffect_pitch p);
  addLong (EntitySoundEffect_seed p)]).

Definition createSoundEffect (p : SoundEffect) : result (list Z) :=
  packet ClientPacketID_SoundEffect (serialize [
  addVarInt (SoundEffect_soundId p);
  addVarInt (SoundEffect_category p);
  addInt (SoundEffect_x p);
  addInt (SoundEffect_y p);
  addInt (SoundEffect_z p);
  addFloat (SoundEffect_volume p);
  addFloat (SoundEffect_pitch p);
  addLong (SoundEffect_seed p)]).

Definition createStopSound (p : StopSound) : result (list Z) :=
  packet ClientPacketID_StopSound (serialize [
  addByte (StopSound_flags p);
  when (bool_decide (StopSound_flags p = 3 ∨ StopSound_flags p = 1)) (addVarInt (StopSound_source p));
  when (bool_decide (StopSound_flags p = 2 ∨ StopSound_flags p = 3)) (addIdentifier (StopSound_sound p))]).

Definition createSystemChatMessage (p : SystemChatMessage) : result (list Z) :=
  packet ClientPacketID_SystemChatMessage (serialize [
  addChat (SystemChatMessage_JSONData p);
  addBoolean (SystemChatMessage_overlay p)]).

Definition createEntityVelocity (p : EntityVelocity) : result (list Z) :=
  packet ClientPacketID_EntityVelocity (serialize [
  addVarInt (EntityVelocity_entityId p);
  addShort (EntityVelocity_velocityX p);
  addShort (EntityVelocity_velocityY p);
  addShort (EntityVelocity_velocityZ p)]).

Definition createSetExperience (p : SetExperience) : result (list Z) :=
  packet ClientPacketID_SetExperience (serialize [
  addFloat (SetExperience_experienceBar p);
  addVarInt (SetExperience_level p);
  addVarInt (SetExperience_totalExperience p)]).

Definition createHealth (p : Health) : result (list Z) :=
  packet ClientPacketID_Health (serialize [
  addFloat (Health_health p);
  addVarInt (Health_food p);
  addFloat (Health_foodSaturation p)]).

Definition createTeleportEntity (p : TeleportEntity) : result (list Z) :=
  packet ClientPacketID_TeleportEntity (serialize [
  addVarInt (TeleportEntity_entityID p);
  addDouble (TeleportEntity_x p);
  addDouble (TeleportEntity_y p);
  addDouble (TeleportEntity_z p);
  addByte (TeleportEntity_yaw p);
  addByte (TeleportEntity_pitch p);
  addBoolean (TeleportEntity_onGround p)]).

Definition createUpdateAdvancements (p : UpdateAdvancements) : result (list Z) :=
  packet ClientPacketID_UpdateAdvancements (serialize [
  addBoolean (UpdateAdvancements_resetOrClear p);
  addArray addAdvancementMapping (UpdateAdvancements_advancementMapping p);
  addArray addIdentifier (UpdateAdvancements_identifiers p);
  addArray addAdvancementProgressMapping (UpdateAdvancements_progressMapping p)]).

Definition createUpdateAttributes (p : UpdateAttributes) : result (list Z) :=
  packet ClientPacketID_UpdateAttributes (serialize [
  addVarInt (UpdateAttributes_entityId p);
  addArray addAttributesProperty (UpdateAttributes_attributes p)]).

Definition createFeatureFlags (p : FeatureFlags) : result (list Z) :=
  packet ClientPacketID_FeatureFlags (serialize [
  addArray addString (FeatureFlags_flags p)]).

Definition createUpdateRecipes (p : UpdateRecipes) : result (list Z) :=
  packet ClientPacketID_UpdateRecipes (serialize [
  addArray addVarInt (UpdateRecipes_recipes p)]).

Definition createUpdateTags (p : UpdateTags) : result (list Z) :=
  packet ClientPacketID_UpdateTags (serialize [
  addArray addVarInt (UpdateTags_tags p)]).
