(* ===== verification/ClientWire.v ===== *)
(** * What a client makes of the packets

    One reader per clientbound packet, which reads the fields of the packet's structure
    in the order of ClientPackets.hpp, and the optional ones when their flag says so;
    and the packets it gets back: those that announce nothing that the server does
    not send.  [ClientPacket] is the sum of the packets that are read field by field; the
    plugin message, whose data run to the end of the packet, the containers and the
    chunk data are treated apart, and a custom sound effect is an empty packet. *)

From S2P Require Import Prelude Types Codec Structures Add Pop CompositeLaws RoundTrip Nbt NbtLaws ClientPackets AddStructures CreatePackets.

(** ** Parts *)

Definition read_NBT : reader nbt_Base :=
  t ← nbt_parse; match t with Some t => mret t | None => throw std_runtime_error end.
Definition nbt_carried (t : nbt_Base) : Prop := nbt_wf t ∧ nbt_sent true t = t.

Definition read_RawMessage : reader (Z * list Z) :=
  id ← popVarInt; signature ← popArray popByte; mret (id, signature).
Definition wf_RawMessage (m : Z * list Z) : Prop := is_s 32 m.1 ∧ array_of is_byte m.2.

Definition read_PlayerProperty : reader PlayerProperty :=
  name ← popString;
  value ← popString;
  isSigned ← popBoolean;
  signature ← (if isSigned then popString else mret String.EmptyString);
  mret (mk_PlayerProperty name value isSigned signature).
Definition wf_PlayerProperty (p : PlayerProperty) : Prop :=
  string_fits (PlayerProperty_name p) ∧
  string_fits (PlayerProperty_value p) ∧
  (if PlayerProperty_isSigned p then string_fits (PlayerProperty_signature p)
   else PlayerProperty_signature p = String.EmptyString).

Definition read_AttributesPropertyModifier : reader AttributesPropertyModifier :=
  uuid ← popUUID;
  amount ← popDouble;
  operation ← popByte;
  mret (mk_AttributesPropertyModifier uuid amount operation).
Definition wf_AttributesPropertyModifier (data : AttributesPropertyModifier) : Prop :=
  u128_wf (AttributesPropertyModifier_uuid data) ∧
  is_u 64 (AttributesPropertyModifier_amount data) ∧
  is_u 8 (AttributesPropertyModifier_operation data).

Definition read_AttributesProperty : reader AttributesProperty :=
  key ← popString;
  value ← popString;
  modifiers ← popArray read_AttributesPropertyModifier;
  mret (mk_AttributesProperty key value modifiers).
Definition wf_AttributesProperty (data : AttributesProperty) : Prop :=
  string_fits (AttributesProperty_key data) ∧
  string_fits (AttributesProperty_value data) ∧
  array_of wf_AttributesPropertyModifier (AttributesProperty_modifiers data).

Definition read_AdvancementCriteria : reader AdvancementCriteria :=
  key ← popString;
  mret (mk_AdvancementCriteria key).
Definition wf_AdvancementCriteria (data : AdvancementCriteria) : Prop :=
  string_fits (AdvancementCriteria_key data).

Definition read_AdvancementDisplay : reader AdvancementDisplay :=
  title ← popChat;
  description ← popChat;
  icon ← popSlot;
  frameType ← popVarInt;
  flags ← popInt;
  backgroundTexture ← (if decide (Z.land flags hasBackgroundTexture ≠ 0)
    then popString else mret String.EmptyString);
  xCoord ← popFloat;
  yCoord ← popFloat;
  mret (mk_AdvancementDisplay title description icon frameType flags backgroundTexture xCoord
    yCoord).
Definition wf_AdvancementDisplay (data : AdvancementDisplay) : Prop :=
  chat_fits (AdvancementDisplay_title data) ∧
  chat_fits (AdvancementDisplay_description data) ∧
  slot_canonical (AdvancementDisplay_icon data) ∧
  is_u 8 (AdvancementDisplay_frameType data) ∧
  is_s 32 (AdvancementDisplay_flags data) ∧
  (if bool_decide (Z.land (AdvancementDisplay_flags data) hasBackgroundTexture ≠ 0)
   then string_fits (AdvancementDisplay_backgroundTexture data)
   else AdvancementDisplay_backgroundTexture data = String.EmptyString) ∧
  is_u 32 (AdvancementDisplay_xCoord data) ∧
  is_u 32 (AdvancementDisplay_yCoord data).

Definition AdvancementDisplay_default : AdvancementDisplay :=
  mk_AdvancementDisplay String.EmptyString String.EmptyString Slot_default 0 0
    String.EmptyString 0 0.

Definition read_Advancement : reader Advancement :=
  hasParent ← popBoolean;
  parent ← (if hasParent then popString else mret String.EmptyString);
  hasDisplay ← popBoolean;
  displayData ← (if hasDisplay then read_AdvancementDisplay else mret AdvancementDisplay_default);
  criteria ← popArray read_AdvancementCriteria;
  requirements ← popArray (popArray popString);
  mret (mk_Advancement hasParent parent hasDisplay displayData criteria requirements).
Definition wf_Advancement (data : Advancement) : Prop :=
  (if Advancement_hasParent data then string_fits (Advancement_parent data)
   else Advancement_parent data = String.EmptyString) ∧
  (if Advancement_hasDisplay data then wf_AdvancementDisplay (Advancement_displayData data)
   else Advancement_displayData data = AdvancementDisplay_default) ∧
  array_of wf_AdvancementCriteria (Advancement_criteria data) ∧
  array_of (array_of string_fits) (Advancement_requirements data).

Definition read_AdvancementMapping : reader AdvancementMapping :=
  identifier ← popString;
  advancement ← read_Advancement;
  mret (mk_AdvancementMapping identifier advancement).
Definition wf_AdvancementMapping (data : AdvancementMapping) : Prop :=
  string_fits (AdvancementMapping_identifier data) ∧
  wf_Advancement (AdvancementMapping_advancement data).

Definition read_CriterionProgress : reader CriterionProgress :=
  achived ← popBoolean;
  dateOfAchieving ← popLong;
  mret (mk_CriterionProgress achived dateOfAchieving).
Definition wf_CriterionProgress (data : CriterionProgress) : Prop :=
  is_s 64 (CriterionProgress_dateOfAchieving data).

Definition read_CriteriaMapping : reader CriteriaMapping :=
  identifier ← popString;
  criteria ← read_CriterionProgress;
  mret (mk_CriteriaMapping identifier criteria).
Definition wf_CriteriaMapping (data : CriteriaMapping) : Prop :=
  string_fits (CriteriaMapping_identifier data) ∧
  wf_CriterionProgress (CriteriaMapping_criteria data).

Definition read_ProgressMapping : reader ProgressMapping :=
  identifier ← popString;
  advancementProgress ← popArray read_CriteriaMapping;
  mret (mk_ProgressMapping identifier advancementProgress).
Definition wf_ProgressMapping (data : ProgressMapping) : Prop :=
  string_fits (ProgressMapping_identifier data) ∧
  array_of wf_CriteriaMapping (ProgressMapping_advancementProgress data).

(** ** Packets *)

Definition read_Disconnect : reader Disconnect :=
  reason ← popString;
  mret (mk_Disconnect reason).
Definition wf_Disconnect (p : Disconnect) : Prop :=
  string_fits (Disconnect_reason p).

Definition read_EncryptionRequest : reader EncryptionRequest :=
  serverID ← popString;
  publicKey ← popArray popByte;
  verifyToken ← popArray popByte;
  mret (mk_EncryptionRequest serverID publicKey verifyToken).
Definition wf_EncryptionRequest (p : EncryptionRequest) : Prop :=
  string_fits (EncryptionRequest_serverID p) ∧
  array_of is_byte (EncryptionRequest_publicKey p) ∧
  array_of is_byte (EncryptionRequest_verifyToken p).

Definition read_StatusResponse : reader StatusResponse :=
  payload ← popString;
  mret (mk_StatusResponse payload).
Definition wf_StatusResponse (p : StatusResponse) : Prop :=
  string_fits (StatusResponse_payload p).

Definition read_PingResponse : reader PingResponse :=
  payload ← popLong;
  mret (mk_PingResponse payload).
Definition wf_PingResponse (p : PingResponse) : Prop :=
  is_s 64 (PingResponse_payload p).

Definition read_SpawnEntity : reader SpawnEntity :=
  entityId ← popVarInt;
  entityUuid ← popUUID;
  type ← popVarInt;
  x ← popDouble;
  y ← popDouble;
  z ← popDouble;
  pitch ← popByte;
  yaw ← popByte;
  headYaw ← popByte;
  data ← popVarInt;
  velocityX ← popShort;
  velocityY ← popShort;
  velocityZ ← popShort;
  mret (mk_SpawnEntity entityId entityUuid type x y z pitch yaw headYaw data (to_i16 velocityX)
    (to_i16 velocityY) (to_i16 velocityZ)).
Definition wf_SpawnEntity (p : SpawnEntity) : Prop :=
  is_s 32 (SpawnEntity_entityId p) ∧
  u128_wf (SpawnEntity_entityUuid p) ∧
  is_s 32 (SpawnEntity_type p) ∧
  is_u 64 (SpawnEntity_x p) ∧
  is_u 64 (SpawnEntity_y p) ∧
  is_u 64 (SpawnEntity_z p) ∧
  is_u 8 (SpawnEntity_pitch p) ∧
  is_u 8 (SpawnEntity_yaw p) ∧
  is_u 8 (SpawnEntity_headYaw p) ∧
  is_s 32 (SpawnEntity_data p) ∧
  is_s 16 (SpawnEntity_velocityX p) ∧
  is_s 16 (SpawnEntity_velocityY p) ∧
  is_s 16 (SpawnEntity_velocityZ p).

Definition read_SpawnPlayer : reader SpawnPlayer :=
  entityId ← popVarInt;
  playerUuid ← popUUID;
  x ← popDouble;
  y ← popDouble;
  z ← popDouble;
  yaw ← popByte;
  pitch ← popByte;
  mret (mk_SpawnPlayer entityId playerUuid x y z yaw pitch).
Definition wf_SpawnPlayer (p : SpawnPlayer) : Prop :=
  is_s 32 (SpawnPlayer_entityId p) ∧
  u128_wf (SpawnPlayer_playerUuid p) ∧
  is_u 64 (SpawnPlayer_x p) ∧
  is_u 64 (SpawnPlayer_y p) ∧
  is_u 64 (SpawnPlayer_z p) ∧
  is_u 8 (SpawnPlayer_yaw p) ∧
  is_u 8 (SpawnPlayer_pitch p).

Definition read_BlockUpdate : reader BlockUpdate :=
  location ← popPosition;
  blockId ← popVarInt;
  mret (mk_BlockUpdate location blockId).
Definition wf_BlockUpdate (p : BlockUpdate) : Prop :=
  Position_in_wire_range (BlockUpdate_location p) ∧
  is_s 32 (BlockUpdate_blockId p).

Definition read_ChangeDifficultyClient : reader ChangeDifficultyClient :=
  difficulty ← popByte;
  locked ← popBoolean;
  mret (mk_ChangeDifficultyClient difficulty locked).
Definition wf_ChangeDifficultyClient (p : ChangeDifficultyClient) : Prop :=
  is_u 8 (ChangeDifficultyClient_difficulty p).

Definition read_Commands : reader Commands :=
  nodes ← popArray popVarInt;
  rootIndex ← popVarInt;
  mret (mk_Commands nodes rootIndex).
Definition wf_Commands (p : Commands) : Prop :=
  array_of (is_s 32) (Commands_nodes p) ∧
  is_s 32 (Commands_rootIndex p).

Definition read_CloseContainer : reader CloseContainer :=
  windowId ← popByte;
  mret (mk_CloseContainer windowId).
Definition wf_CloseContainer (p : CloseContainer) : Prop :=
  is_u 8 (CloseContainer_windowId p).

Definition read_EntityEvent : reader EntityEvent :=
  entityId ← popInt;
  eventStatus ← popByte;
  mret (mk_EntityEvent entityId eventStatus).
Definition wf_EntityEvent (p : EntityEvent) : Prop :=
  is_s 32 (EntityEvent_entityId p) ∧
  is_u 8 (EntityEvent_eventStatus p).

Definition read_InitializeWorldBorder : reader InitializeWorldBorder :=
  x ← popDouble;
  z ← popDouble;
  oldDiameter ← popDouble;
  newDiameter ← popDouble;
  speed ← popVarLong;
  portalTeleportBoundary ← popVarInt;
  warningTime ← popVarInt;
  warningBlocks ← popVarInt;
  mret (mk_InitializeWorldBorder x z oldDiameter newDiameter speed portalTeleportBoundary
    warningTime warningBlocks).
Definition wf_InitializeWorldBorder (p : InitializeWorldBorder) : Prop :=
  is_u 64 (InitializeWorldBorder_x p) ∧
  is_u 64 (InitializeWorldBorder_z p) ∧
  is_u 64 (InitializeWorldBorder_oldDiameter p) ∧
  is_u 64 (InitializeWorldBorder_newDiameter p) ∧
  is_s 64 (InitializeWorldBorder_speed p) ∧
  is_s 32 (InitializeWorldBorder_portalTeleportBoundary p) ∧
  is_s 32 (InitializeWorldBorder_warningTime p) ∧
  is_s 32 (InitializeWorldBorder_warningBlocks p).

Definition read_GameEvent : reader GameEvent :=
  event ← popByte;
  value ← popFloat;
  mret (mk_GameEvent event value).
Definition wf_GameEvent (p : GameEvent) : Prop :=
  is_u 8 (GameEvent_event p) ∧
  is_u 32 (GameEvent_value p).

Definition read_WorldEvent : reader WorldEvent :=
  event ← popInt;
  position ← popPosition;
  data ← popInt;
  disableRelativeVolume ← popBoolean;
  mret (mk_WorldEvent event position data disableRelativeVolume).
Definition wf_WorldEvent (p : WorldEvent) : Prop :=
  is_s 32 (WorldEvent_event p) ∧
  Position_in_wire_range (WorldEvent_position p) ∧
  is_s 32 (WorldEvent_data p).

Definition read_LoginPlay : reader LoginPlay :=
  entityID ← popInt;
  isHardcore ← popBoolean;
  gamemode ← popByte;
  previousGamemode ← popByte;
  dimensionNames ← popArray popString;
  registryCodec ← read_NBT;
  dimensionType ← popString;
  dimensionName ← popString;
  hashedSeed ← popLong;
  maxPlayers ← popVarInt;
  viewDistance ← popVarInt;
  simulationDistance ← popVarInt;
  reducedDebugInfo ← popBoolean;
  enableRespawnScreen ← popBoolean;
  isDebug ← popBoolean;
  isFlat ← popBoolean;
  hasDeathLocation ← popBoolean;
  both ← (if hasDeathLocation then 
    deathDimensionName ← popString; deathLocation ← popPosition;
    mret (deathDimensionName, deathLocation)
   else mret (String.EmptyString, (mk_Position 0 0 0)));
  mret (mk_LoginPlay entityID isHardcore gamemode previousGamemode dimensionNames registryCodec
    dimensionType dimensionName hashedSeed maxPlayers viewDistance simulationDistance
    reducedDebugInfo enableRespawnScreen isDebug isFlat hasDeathLocation both.1 both.2).
Definition wf_LoginPlay (p : LoginPlay) : Prop :=
  is_s 32 (LoginPlay_entityID p) ∧
  is_u 8 (LoginPlay_gamemode p) ∧
  is_u 8 (LoginPlay_previousGamemode p) ∧
  array_of string_fits (LoginPlay_dimensionNames p) ∧
  nbt_carried (LoginPlay_registryCodec p) ∧
  string_fits (LoginPlay_dimensionType p) ∧
  string_fits (LoginPlay_dimensionName p) ∧
  is_s 64 (LoginPlay_hashedSeed p) ∧
  is_s 32 (LoginPlay_maxPlayers p) ∧
  is_s 32 (LoginPlay_viewDistance p) ∧
  is_s 32 (LoginPlay_simulationDistance p) ∧
  (if LoginPlay_hasDeathLocation p
   then string_fits (LoginPlay_deathDimensionName p) ∧
     Position_in_wire_range (LoginPlay_deathLocation p)
   else (LoginPlay_deathDimensionName p, LoginPlay_deathLocation p) =
     (String.EmptyString, (mk_Position 0 0 0))).

Definition read_UpdateEntityPosition : reader UpdateEntityPosition :=
  entityId ← popVarInt;
  deltaX ← popShort;
  deltaY ← popShort;
  deltaZ ← popShort;
  onGround ← popBoolean;
  mret (mk_UpdateEntityPosition entityId (to_i16 deltaX) (to_i16 deltaY) (to_i16 deltaZ)
    onGround).
Definition wf_UpdateEntityPosition (p : UpdateEntityPosition) : Prop :=
  is_s 32 (UpdateEntityPosition_entityId p) ∧
  is_s 16 (UpdateEntityPosition_deltaX p) ∧
  is_s 16 (UpdateEntityPosition_deltaY p) ∧
  is_s 16 (UpdateEntityPosition_deltaZ p).

Definition read_UpdateEntityPositionRotation : reader UpdateEntityPositionRotation :=
  entityId ← popVarInt;
  deltaX ← popShort;
  deltaY ← popShort;
  deltaZ ← popShort;
  yaw ← popByte;
  pitch ← popByte;
  onGround ← popBoolean;
  mret (mk_UpdateEntityPositionRotation entityId (to_i16 deltaX) (to_i16 deltaY) (to_i16
    deltaZ) yaw pitch onGround).
Definition wf_UpdateEntityPositionRotation (p : UpdateEntityPositionRotation) : Prop :=
  is_s 32 (UpdateEntityPositionRotation_entityId p) ∧
  is_s 16 (UpdateEntityPositionRotation_deltaX p) ∧
  is_s 16 (UpdateEntityPositionRotation_deltaY p) ∧
  is_s 16 (UpdateEntityPositionRotation_deltaZ p) ∧
  is_u 8 (UpdateEntityPositionRotation_yaw p) ∧
  is_u 8 (UpdateEntityPositionRotation_pitch p).

Definition read_UpdateEntityRotation : reader UpdateEntityRotation :=
  entityId ← popVarInt;
  yaw ← popByte;
  pitch ← popByte;
  onGround ← popBoolean;
  mret (mk_UpdateEntityRotation entityId yaw pitch onGround).
Definition wf_UpdateEntityRotation (p : UpdateEntityRotation) : Prop :=
  is_s 32 (UpdateEntityRotation_entityId p) ∧
  is_u 8 (UpdateEntityRotation_yaw p) ∧
  is_u 8 (UpdateEntityRotation_pitch p).

Definition read_PlayerAbilitiesClient : reader PlayerAbilitiesClient :=
  flags ← popByte;
  flyingSpeed ← popFloat;
  fieldOfViewModifier ← popFloat;
  mret (mk_PlayerAbilitiesClient flags flyingSpeed fieldOfViewModifier).
Definition wf_PlayerAbilitiesClient (p : PlayerAbilitiesClient) : Prop :=
  is_u 8 (PlayerAbilitiesClient_flags p) ∧
  is_u 32 (PlayerAbilitiesClient_flyingSpeed p) ∧
  is_u 32 (PlayerAbilitiesClient_fieldOfViewModifier p).

Definition read_PlayerChatMessage : reader PlayerChatMessage :=
  senderUUID ← popUUID;
  index ← popVarInt;
  hasSignature ← popBoolean;
  signature ← (if hasSignature then popArray popByte else mret []);
  message ← popChat;
  timestamp ← popLong;
  salt ← popLong;
  previousMessages ← popArray read_RawMessage;
  hasUnsignedContent ← popBoolean;
  unsignedContent ← (if hasUnsignedContent then popChat else mret String.EmptyString);
  filterType ← popVarInt;
  chatType ← popVarInt;
  networkName ← popChat;
  hasNetworkTargetName ← popBoolean;
  networkTargetName ← (if hasNetworkTargetName then popChat else mret String.EmptyString);
  mret (mk_PlayerChatMessage senderUUID index hasSignature signature message timestamp salt
    previousMessages hasUnsignedContent unsignedContent filterType [] chatType networkName
    hasNetworkTargetName networkTargetName).
Definition wf_PlayerChatMessage (p : PlayerChatMessage) : Prop :=
  u128_wf (PlayerChatMessage_senderUUID p) ∧
  is_s 32 (PlayerChatMessage_index p) ∧
  (if PlayerChatMessage_hasSignature p then array_of is_byte (PlayerChatMessage_signature p)
   else PlayerChatMessage_signature p = []) ∧
  chat_fits (PlayerChatMessage_message p) ∧
  is_s 64 (PlayerChatMessage_timestamp p) ∧
  is_s 64 (PlayerChatMessage_salt p) ∧
  array_of wf_RawMessage (PlayerChatMessage_previousMessages p) ∧
  (if PlayerChatMessage_hasUnsignedContent p then chat_fits (PlayerChatMessage_unsignedContent p)
   else PlayerChatMessage_unsignedContent p = String.EmptyString) ∧
  is_s 32 (PlayerChatMessage_filterType p) ∧
  is_s 32 (PlayerChatMessage_chatType p) ∧
  chat_fits (PlayerChatMessage_networkName p) ∧
  (if PlayerChatMessage_hasNetworkTargetName p
   then chat_fits (PlayerChatMessage_networkTargetName p)
   else PlayerChatMessage_networkTargetName p = String.EmptyString) ∧
  PlayerChatMessage_filterData p = [].

Definition read_PlayerInfoRemove : reader PlayerInfoRemove :=
  uuids ← popArray popUUID;
  mret (mk_PlayerInfoRemove uuids).
Definition wf_PlayerInfoRemove (p : PlayerInfoRemove) : Prop :=
  array_of u128_wf (PlayerInfoRemove_uuids p).

Definition read_SynchronizePlayerPosition : reader SynchronizePlayerPosition :=
  x ← popDouble;
  y ← popDouble;
  z ← popDouble;
  yaw ← popFloat;
  pitch ← popFloat;
  flags ← popByte;
  teleportId ← popVarInt;
  dismountVehicle ← popBoolean;
  mret (mk_SynchronizePlayerPosition x y z yaw pitch flags teleportId dismountVehicle).
Definition wf_SynchronizePlayerPosition (p : SynchronizePlayerPosition) : Prop :=
  is_u 64 (SynchronizePlayerPosition_x p) ∧
  is_u 64 (SynchronizePlayerPosition_y p) ∧
  is_u 64 (SynchronizePlayerPosition_z p) ∧
  is_u 32 (SynchronizePlayerPosition_yaw p) ∧
  is_u 32 (SynchronizePlayerPosition_pitch p) ∧
  is_u 8 (SynchronizePlayerPosition_flags p) ∧
  is_s 32 (SynchronizePlayerPosition_teleportId p).

Definition read_UpdateRecipesBook : reader UpdateRecipesBook :=
  action ← popVarInt;
  craftingRecipeBookOpen ← popBoolean;
  craftingRecipeBookFilterActive ← popBoolean;
  smeltingRecipeBookOpen ← popBoolean;
  smeltingRecipeBookFilterActive ← popBoolean;
  blastFurnaceRecipeBookOpen ← popBoolean;
  blastFurnaceRecipeBookFilterActive ← popBoolean;
  smokerRecipeBookOpen ← popBoolean;
  smokerRecipeBookFilterActive ← popBoolean;
  recipesId ← popArray popString;
  recipiesIdForInit ← (if decide (action = 0) then popArray popString else mret []);
  mret (mk_UpdateRecipesBook action craftingRecipeBookOpen craftingRecipeBookFilterActive
    smeltingRecipeBookOpen smeltingRecipeBookFilterActive blastFurnaceRecipeBookOpen
    blastFurnaceRecipeBookFilterActive smokerRecipeBookOpen smokerRecipeBookFilterActive
    recipesId recipiesIdForInit).
Definition wf_UpdateRecipesBook (p : UpdateRecipesBook) : Prop :=
  is_s 32 (UpdateRecipesBook_action p) ∧
  array_of string_fits (UpdateRecipesBook_recipesId p) ∧
  (if bool_decide (UpdateRecipesBook_action p = 0)
   then array_of string_fits (UpdateRecipesBook_recipiesIdForInit p)
   else UpdateRecipesBook_recipiesIdForInit p = []).

Definition read_RemoveEntities : reader RemoveEntities :=
  entities ← popArray popVarInt;
  mret (mk_RemoveEntities entities).
Definition wf_RemoveEntities (p : RemoveEntities) : Prop :=
  array_of (is_s 32) (RemoveEntities_entities p).

Definition read_HeadRotation : reader HeadRotation :=
  entityID ← popVarInt;
  headYaw ← popByte;
  mret (mk_HeadRotation entityID headYaw).
Definition wf_HeadRotation (p : HeadRotation) : Prop :=
  is_s 32 (HeadRotation_entityID p) ∧
  is_u 8 (HeadRotation_headYaw p).

Definition read_ServerData : reader ServerData :=
  hasMotd ← popBoolean;
  motd ← (if hasMotd then popChat else mret String.EmptyString);
  hasIcon ← popBoolean;
  icon ← (if hasIcon then popString else mret String.EmptyString);
  enforceSecureChat ← popBoolean;
  mret (mk_ServerData hasMotd motd hasIcon icon enforceSecureChat).
(** Neither the message of the day nor the icon is sent, so that they must not be announced. *)
Definition wf_ServerData (p : ServerData) : Prop :=
  ServerData_hasMotd p = false ∧
  ServerData_hasIcon p = false ∧
  ServerData_motd p = String.EmptyString ∧
  ServerData_icon p = String.EmptyString.

Definition read_SetHeldItemClient : reader SetHeldItemClient :=
  slot ← popByte;
  mret (mk_SetHeldItemClient slot).
Definition wf_SetHeldItemClient (p : SetHeldItemClient) : Prop :=
  is_u 8 (SetHeldItemClient_slot p).

Definition read_SetDefaultSpawnPosition : reader SetDefaultSpawnPosition :=
  position ← popPosition;
  angle ← popFloat;
  mret (mk_SetDefaultSpawnPosition position angle).
Definition wf_SetDefaultSpawnPosition (p : SetDefaultSpawnPosition) : Prop :=
  Position_in_wire_range (SetDefaultSpawnPosition_position p) ∧
  is_u 32 (SetDefaultSpawnPosition_angle p).

Definition read_UpdateTime : reader UpdateTime :=
  worldAge ← popLong;
  timeOfDay ← popLong;
  mret (mk_UpdateTime worldAge timeOfDay).
Definition wf_UpdateTime (p : UpdateTime) : Prop :=
  is_s 64 (UpdateTime_worldAge p) ∧
  is_s 64 (UpdateTime_timeOfDay p).

Definition read_EntitySoundEffect : reader EntitySoundEffect :=
  soundId ← popVarInt;
  category ← popVarInt;
  entityId ← popVarInt;
  volume ← popFloat;
  pitch ← popFloat;
  seed ← popLong;
  mret (mk_EntitySoundEffect soundId category entityId volume pitch seed).
Definition wf_EntitySoundEffect (p : EntitySoundEffect) : Prop :=
  is_s 32 (EntitySoundEffect_soundId p) ∧
  is_s 32 (EntitySoundEffect_category p) ∧
  is_s 32 (EntitySoundEffect_entityId p) ∧
  is_u 32 (EntitySoundEffect_volume p) ∧
  is_u 32 (EntitySoundEffect_pitch p) ∧
  is_s 64 (EntitySoundEffect_seed p).

Definition read_SoundEffect : reader SoundEffect :=
  soundId ← popVarInt;
  category ← popVarInt;
  x ← popInt;
  y ← popInt;
  z ← popInt;
  volume ← popFloat;
  pitch ← popFloat;
  seed ← popLong;
  mret (mk_SoundEffect soundId category x y z volume pitch seed).
Definition wf_SoundEffect (p : SoundEffect) : Prop :=
  is_s 32 (SoundEffect_soundId p) ∧
  is_s 32 (SoundEffect_category p) ∧
  is_s 32 (SoundEffect_x p) ∧
  is_s 32 (SoundEffect_y p) ∧
  is_s 32 (SoundEffect_z p) ∧
  is_u 32 (SoundEffect_volume p) ∧
  is_u 32 (SoundEffect_pitch p) ∧
  is_s 64 (SoundEffect_seed p).

Definition read_StopSound : reader StopSound :=
  flags ← popByte;
  source ← (if decide (flags = 3 ∨ flags = 1) then popVarInt else mret 0);
  sound ← (if decide (flags = 2 ∨ flags = 3) then popString else mret String.EmptyString);
  mret (mk_StopSound flags source sound).
Definition wf_StopSound (p : StopSound) : Prop :=
  is_u 8 (StopSound_flags p) ∧
  (if bool_decide (StopSound_flags p = 3 ∨ StopSound_flags p = 1)
   then is_s 32 (StopSound_source p)
   else StopSound_source p = 0) ∧
  (if bool_decide (StopSound_flags p = 2 ∨ StopSound_flags p = 3)
   then string_fits (StopSound_sound p)
   else StopSound_sound p = String.EmptyString).

Definition read_SystemChatMessage : reader SystemChatMessage :=
  JSONData ← popChat;
  overlay ← popBoolean;
  mret (mk_SystemChatMessage JSONData overlay).
Definition wf_SystemChatMessage (p : SystemChatMessage) : Prop :=
  chat_fits (SystemChatMessage_JSONData p).

Definition read_EntityVelocity : reader EntityVelocity :=
  entityId ← popVarInt;
  velocityX ← popShort;
  velocityY ← popShort;
  velocityZ ← popShort;
  mret (mk_EntityVelocity entityId (to_i16 velocityX) (to_i16 velocityY) (to_i16 velocityZ)).
Definition wf_EntityVelocity (p : EntityVelocity) : Prop :=
  is_s 32 (EntityVelocity_entityId p) ∧
  is_s 16 (EntityVelocity_velocityX p) ∧
  is_s 16 (EntityVelocity_velocityY p) ∧
  is_s 16 (EntityVelocity_velocityZ p).

Definition read_SetExperience : reader SetExperience :=
  experienceBar ← popFloat;
  level ← popVarInt;
  totalExperience ← popVarInt;
  mret (mk_SetExperience experienceBar totalExperience level).
Definition wf_SetExperience (p : SetExperience) : Prop :=
  is_u 32 (SetExperience_experienceBar p) ∧
  is_s 32 (SetExperience_level p) ∧
  is_s 32 (SetExperience_totalExperience p).

Definition read_Health : reader Health :=
  health ← popFloat;
  food ← popVarInt;
  foodSaturation ← popFloat;
  mret (mk_Health health food foodSaturation).
Definition wf_Health (p : Health) : Prop :=
  is_u 32 (Health_health p) ∧
  is_s 32 (Health_food p) ∧
  is_u 32 (Health_foodSaturation p).

Definition read_TeleportEntity : reader TeleportEntity :=
  entityID ← popVarInt;
  x ← popDouble;
  y ← popDouble;
  z ← popDouble;
  yaw ← popByte;
  pitch ← popByte;
  onGround ← popBoolean;
  mret (mk_TeleportEntity entityID x y z yaw pitch onGround).
Definition wf_TeleportEntity (p : TeleportEntity) : Prop :=
  is_s 32 (TeleportEntity_entityID p) ∧
  is_u 64 (TeleportEntity_x p) ∧
  is_u 64 (TeleportEntity_y p) ∧
  is_u 64 (TeleportEntity_z p) ∧
  is_u 8 (TeleportEntity_yaw p) ∧
  is_u 8 (TeleportEntity_pitch p).

Definition read_UpdateAdvancements : reader UpdateAdvancements :=
  resetOrClear ← popBoolean;
  advancementMapping ← popArray read_AdvancementMapping;
  identifiers ← popArray popString;
  progressMapping ← popArray read_ProgressMapping;
  mret (mk_UpdateAdvancements resetOrClear advancementMapping identifiers progressMapping).
Definition wf_UpdateAdvancements (p : UpdateAdvancements) : Prop :=
  array_of wf_AdvancementMapping (UpdateAdvancements_advancementMapping p) ∧
  array_of string_fits (UpdateAdvancements_identifiers p) ∧
  array_of wf_ProgressMapping (UpdateAdvancements_progressMapping p).

Definition read_UpdateAttributes : reader UpdateAttributes :=
  entityId ← popVarInt;
  attributes ← popArray read_AttributesProperty;
  mret (mk_UpdateAttributes entityId attributes).
Definition wf_UpdateAttributes (p : UpdateAttributes) : Prop :=
  is_s 32 (UpdateAttributes_entityId p) ∧
  array_of wf_AttributesProperty (UpdateAttributes_attributes p).

Definition read_FeatureFlags : reader FeatureFlags :=
  flags ← popArray popString;
  mret (mk_FeatureFlags flags).
Definition wf_FeatureFlags (p : FeatureFlags) : Prop :=
  array_of string_fits (FeatureFlags_flags p).

Definition read_UpdateRecipes : reader UpdateRecipes :=
  recipes ← popArray popVarInt;
  mret (mk_UpdateRecipes recipes).
Definition wf_UpdateRecipes (p : UpdateRecipes) : Prop :=
  array_of (is_s 32) (UpdateRecipes_recipes p).

Definition read_UpdateTags : reader UpdateTags :=
  tags ← popArray popVarInt;
  mret (mk_UpdateTags tags).
Definition wf_UpdateTags (p : UpdateTags) : Prop :=
  array_of (is_s 32) (UpdateTags_tags p).

Definition read_LoginSuccess : reader LoginSuccess :=
  uuid ← popUUID;
  username ← popString;
  properties ← popArray read_PlayerProperty;
  mret (mk_LoginSuccess uuid username properties).
Definition wf_LoginSuccess (p : LoginSuccess) : Prop :=
  u128_wf (LoginSuccess_uuid p) ∧
  string_fits (LoginSuccess_username p) ∧
  array_of wf_PlayerProperty (LoginSuccess_properties p).

(** The properties of a player are announced as none. *)
Definition read_AddPlayer : reader Action_AddPlayer :=
  name ← popString;
  properties ← popArray read_PlayerProperty;
  mret (mk_Action_AddPlayer name properties).
Definition wf_AddPlayer (p : Action_AddPlayer) : Prop :=
  string_fits (Action_AddPlayer_name p) ∧ Action_AddPlayer_properties p = [].

(** The signature data are no field of the structure: who announces them sends what
    cannot be read on. *)
Definition read_InitializeChat : reader bool :=
  hasSigData ← popBoolean; if hasSigData : bool then throw std_runtime_error else mret hasSigData.
Definition read_UpdateDisplayName : reader Action_UpdateDisplayName :=
  hasDisplayName ← popBoolean;
  displayName ← (if hasDisplayName : bool then popChat else mret String.EmptyString);
  mret (mk_Action_UpdateDisplayName hasDisplayName displayName).

(** The parts of an action that the set of actions does not name are not sent. *)
Definition read_Action (actions : Z) : reader Action :=
  uuid ← popUUID;
  addPlayer ← (if decide (Z.land actions PlayerInfoUpdate_Actions_AddPlayer ≠ 0)
    then read_AddPlayer else mret (mk_Action_AddPlayer String.EmptyString []));
  hasSigData ← (if decide (Z.land actions PlayerInfoUpdate_Actions_InitializeChat ≠ 0)
    then read_InitializeChat else mret false);
  gamemode ← (if decide (Z.land actions PlayerInfoUpdate_Actions_UpdateGamemode ≠ 0)
    then popVarInt else mret 0);
  listed ← (if decide (Z.land actions PlayerInfoUpdate_Actions_UpdateListed ≠ 0)
    then popBoolean else mret false);
  latency ← (if decide (Z.land actions PlayerInfoUpdate_Actions_UpdateLatency ≠ 0)
    then popVarInt else mret 0);
  displayName ← (if decide (Z.land actions PlayerInfoUpdate_Actions_UpdateDisplayName ≠ 0)
    then read_UpdateDisplayName else mret (mk_Action_UpdateDisplayName false String.EmptyString));
  mret (mk_Action uuid addPlayer (mk_Action_InitializeChat hasSigData)
    (mk_Action_UpdateGamemode gamemode) (mk_Action_UpdateListed listed)
    (mk_Action_UpdateLatency latency)
    displayName).
Definition wf_Action (actions : Z) (a : Action) : Prop :=
  u128_wf (Action_uuid a) ∧
  (if bool_decide (Z.land actions PlayerInfoUpdate_Actions_AddPlayer ≠ 0)
   then wf_AddPlayer (Action_addPlayer a)
   else Action_addPlayer a = mk_Action_AddPlayer String.EmptyString []) ∧
  Action_InitializeChat_hasSigData (Action_initializeChat a) = false ∧
  (if bool_decide (Z.land actions PlayerInfoUpdate_Actions_UpdateGamemode ≠ 0)
   then is_s 32 (Action_UpdateGamemode_gamemode (Action_updateGamemode a))
   else Action_UpdateGamemode_gamemode (Action_updateGamemode a) = 0) ∧
  (if bool_decide (Z.land actions PlayerInfoUpdate_Actions_UpdateListed ≠ 0) then True
   else Action_UpdateListed_listed (Action_updateListed a) = false) ∧
  (if bool_decide (Z.land actions PlayerInfoUpdate_Actions_UpdateLatency ≠ 0)
   then is_s 32 (Action_UpdateLatency_latency (Action_updateLatency a))
   else Action_UpdateLatency_latency (Action_updateLatency a) = 0) ∧
  Action_updateDisplayName a = mk_Action_UpdateDisplayName false String.EmptyString.

Definition read_PlayerInfoUpdate : reader PlayerInfoUpdate :=
  actions ← popByte;
  actionSets ← popArray (read_Action actions);
  mret (mk_PlayerInfoUpdate actions actionSets).
Definition wf_PlayerInfoUpdate (p : PlayerInfoUpdate) : Prop :=
  is_u 8 (PlayerInfoUpdate_actions p) ∧
  array_of (wf_Action (PlayerInfoUpdate_actions p)) (PlayerInfoUpdate_actionSets p).

Definition read_UnloadChunk : reader Position2D :=
  x ← popInt; z ← popInt; mret (mk_Position2D x z).
Definition read_CenterChunk : reader Position2D :=
  x ← popVarInt; z ← popVarInt; mret (mk_Position2D x z).
Definition wf_Position2D (p : Position2D) : Prop := is_s 32 (p2x p) ∧ is_s 32 (p2z p).

(** The arguments of [createEntityAnimation] and [createKeepAlive]. *)
Definition read_EntityAnimation : reader (Z * Z) :=
  entityID ← popVarInt; animId ← popByte; mret (animId, entityID).
Definition wf_EntityAnimation (a : Z * Z) : Prop := is_u 8 a.1 ∧ is_s 32 a.2.
Definition read_KeepAlive : reader Z := popLong.
Definition wf_KeepAlive (id : Z) : Prop := is_s 64 id.

(** Entries up to the end mark, of which there are no more than indices. *)
Fixpoint read_metadata (fuel : nat) : reader (list EntityMetadata) :=
  match fuel with
  | O => throw std_runtime_error
  | S fuel =>
      index ← popByte;
      if decide (index = 0xff) then mret []
      else type ← popVarInt; slot ← popSlot; l ← read_metadata fuel; mret (mk_EntityMetadata index type slot :: l)
  end.
Definition read_SetEntityMetadata : reader SetEntityMetadata :=
  entityId ← popVarInt;
  metadata ← read_metadata 256;
  mret (mk_SetEntityMetadata entityId metadata).
(** Only the first entry is sent. *)
Definition wf_SetEntityMetadata (p : SetEntityMetadata) : Prop :=
  is_s 32 (SetEntityMetadata_entityId p) ∧
  match SetEntityMetadata_metadata p with
  | [m] => is_u 8 (EntityMetadata_index m) ∧ EntityMetadata_index m ≠ 0xff ∧ is_s 32 (EntityMetadata_type m) ∧
      slot_canonical (EntityMetadata_slot m)
  | _ => False
  end.

(** ** All of them *)

Inductive ClientPacket : Type :=
| Sent_LoginDisconnect (p : Disconnect)
| Sent_EncryptionRequest (p : EncryptionRequest)
| Sent_LoginSuccess (p : LoginSuccess)
| Sent_StatusResponse (p : StatusResponse)
| Sent_PingResponse (p : PingResponse)
| Sent_SpawnEntity (p : SpawnEntity)
| Sent_SpawnPlayer (p : SpawnPlayer)
| Sent_BlockUpdate (p : BlockUpdate)
| Sent_ChangeDifficultyClient (p : ChangeDifficultyClient)
| Sent_Commands (p : Commands)
| Sent_CloseContainer (p : CloseContainer)
| Sent_PlayDisconnect (p : Disconnect)
| Sent_EntityEvent (p : EntityEvent)
| Sent_UnloadChunk (p : Position2D)
| Sent_InitializeWorldBorder (p : InitializeWorldBorder)
| Sent_GameEvent (p : GameEvent)
| Sent_WorldEvent (p : WorldEvent)
| Sent_LoginPlay (p : LoginPlay)
| Sent_UpdateEntityPosition (p : UpdateEntityPosition)
| Sent_UpdateEntityPositionRotation (p : UpdateEntityPositionRotation)
| Sent_UpdateEntityRotation (p : UpdateEntityRotation)
| Sent_PlayerAbilities (p : PlayerAbilitiesClient)
| Sent_PlayerChatMessage (p : PlayerChatMessage)
| Sent_PlayerInfoRemove (p : PlayerInfoRemove)
| Sent_PlayerInfoUpdate (p : PlayerInfoUpdate)
| Sent_SynchronizePlayerPosition (p : SynchronizePlayerPosition)
| Sent_UpdateRecipesBook (p : UpdateRecipesBook)
| Sent_RemoveEntities (p : RemoveEntities)
| Sent_HeadRotation (p : HeadRotation)
| Sent_ServerData (p : ServerData)
| Sent_SetHeldItemClient (p : SetHeldItemClient)
| Sent_CenterChunk (p : Position2D)
| Sent_SetDefaultSpawnPosition (p : SetDefaultSpawnPosition)
| Sent_UpdateTime (p : UpdateTime)
| Sent_EntitySoundEffect (p : EntitySoundEffect)
| Sent_SoundEffect (p : SoundEffect)
| Sent_StopSound (p : StopSound)
| Sent_SystemChatMessage (p : SystemChatMessage)
| Sent_EntityVelocity (p : EntityVelocity)
| Sent_SetExperience (p : SetExperience)
| Sent_Health (p : Health)
| Sent_TeleportEntity (p : TeleportEntity)
| Sent_UpdateAdvancements (p : UpdateAdvancements)
| Sent_UpdateAttributes (p : UpdateAttributes)
| Sent_FeatureFlags (p : FeatureFlags)
| Sent_UpdateRecipes (p : UpdateRecipes)
| Sent_UpdateTags (p : UpdateTags)
| Sent_EntityAnimation (p : Z * Z)
| Sent_KeepAlive (p : Z)
| Sent_SetEntityMetadata (p : SetEntityMetadata).

Definition send (packet : ClientPacket) : result (list Z) :=
  match packet with
  | Sent_LoginDisconnect p => createLoginDisconnect p
  | Sent_EncryptionRequest p => createEncryptionRequest p
  | Sent_LoginSuccess p => createLoginSuccess p
  | Sent_StatusResponse p => createStatusResponse p
  | Sent_PingResponse p => createPingResponse p
  | Sent_SpawnEntity p => createSpawnEntity p
  | Sent_SpawnPlayer p => createSpawnPlayer p
  | Sent_BlockUpdate p => createBlockUpdate p
  | Sent_ChangeDifficultyClient p => createChangeDifficultyClient p
  | Sent_Commands p => createCommands p
  | Sent_CloseContainer p => createCloseContainer p
  | Sent_PlayDisconnect p => createPlayDisconnect p
  | Sent_EntityEvent p => createEntityEvent p
  | Sent_UnloadChunk p => createUnloadChunk p
  | Sent_InitializeWorldBorder p => createInitializeWorldBorder p
  | Sent_GameEvent p => createGameEvent p
  | Sent_WorldEvent p => createWorldEvent p
  | Sent_LoginPlay p => createLoginPlay p
  | Sent_UpdateEntityPosition p => createUpdateEntityPosition p
  | Sent_UpdateEntityPositionRotation p => createUpdateEntityPositionRotation p
  | Sent_UpdateEntityRotation p => createUpdateEntityRotation p
  | Sent_PlayerAbilities p => createPlayerAbilities p
  | Sent_PlayerChatMessage p => createPlayerChatMessage p
  | Sent_PlayerInfoRemove p => createPlayerInfoRemove p
  | Sent_PlayerInfoUpdate p => createPlayerInfoUpdate p
  | Sent_SynchronizePlayerPosition p => createSynchronizePlayerPosition p
  | Sent_UpdateRecipesBook p => createUpdateRecipesBook p
  | Sent_RemoveEntities p => createRemoveEntities p
  | Sent_HeadRotation p => createHeadRotation p
  | Sent_ServerData p => createServerData p
  | Sent_SetHeldItemClient p => createSetHeldItemClient p
  | Sent_CenterChunk p => createCenterChunk p
  | Sent_SetDefaultSpawnPosition p => createSetDefaultSpawnPosition p
  | Sent_UpdateTime p => createUpdateTime p
  | Sent_EntitySoundEffect p => createEntitySoundEffect p
  | Sent_SoundEffect p => createSoundEffect p
  | Sent_StopSound p => createStopSound p
  | Sent_SystemChatMessage p => createSystemChatMessage p
  | Sent_EntityVelocity p => createEntityVelocity p
  | Sent_SetExperience p => createSetExperience p
  | Sent_Health p => createHealth p
  | Sent_TeleportEntity p => createTeleportEntity p
  | Sent_UpdateAdvancements p => createUpdateAdvancements p
  | Sent_UpdateAttributes p => createUpdateAttributes p
  | Sent_FeatureFlags p => createFeatureFlags p
  | Sent_UpdateRecipes p => createUpdateRecipes p
  | Sent_UpdateTags p => createUpdateTags p
  | Sent_EntityAnimation p => createEntityAnimation p.1 p.2
  | Sent_KeepAlive p => createKeepAlive p
  | Sent_SetEntityMetadata p => createSetEntityMetadata p
  end.

Definition wf_ClientPacket (packet : ClientPacket) : Prop :=
  match packet with
  | Sent_LoginDisconnect p => wf_Disconnect p
  | Sent_EncryptionRequest p => wf_EncryptionRequest p
  | Sent_LoginSuccess p => wf_LoginSuccess p
  | Sent_StatusResponse p => wf_StatusResponse p
  | Sent_PingResponse p => wf_PingResponse p
  | Sent_SpawnEntity p => wf_SpawnEntity p
  | Sent_SpawnPlayer p => wf_SpawnPlayer p
  | Sent_BlockUpdate p => wf_BlockUpdate p
  | Sent_ChangeDifficultyClient p => wf_ChangeDifficultyClient p
  | Sent_Commands p => wf_Commands p
  | Sent_CloseContainer p => wf_CloseContainer p
  | Sent_PlayDisconnect p => wf_Disconnect p
  | Sent_EntityEvent p => wf_EntityEvent p
  | Sent_UnloadChunk p => wf_Position2D p
  | Sent_InitializeWorldBorder p => wf_InitializeWorldBorder p
  | Sent_GameEvent p => wf_GameEvent p
  | Sent_WorldEvent p => wf_WorldEvent p
  | Sent_LoginPlay p => wf_LoginPlay p
  | Sent_UpdateEntityPosition p => wf_UpdateEntityPosition p
  | Sent_UpdateEntityPositionRotation p => wf_UpdateEntityPositionRotation p
  | Sent_UpdateEntityRotation p => wf_UpdateEntityRotation p
  | Sent_PlayerAbilities p => wf_PlayerAbilitiesClient p
  | Sent_PlayerChatMessage p => wf_PlayerChatMessage p
  | Sent_PlayerInfoRemove p => wf_PlayerInfoRemove p
  | Sent_PlayerInfoUpdate p => wf_PlayerInfoUpdate p
  | Sent_SynchronizePlayerPosition p => wf_SynchronizePlayerPosition p
  | Sent_UpdateRecipesBook p => wf_UpdateRecipesBook p
  | Sent_RemoveEntities p => wf_RemoveEntities p
  | Sent_HeadRotation p => wf_HeadRotation p
  | Sent_ServerData p => wf_ServerData p
  | Sent_SetHeldItemClient p => wf_SetHeldItemClient p
  | Sent_CenterChunk p => wf_Position2D p
  | Sent_SetDefaultSpawnPosition p => wf_SetDefaultSpawnPosition p
  | Sent_UpdateTime p => wf_UpdateTime p
  | Sent_EntitySoundEffect p => wf_EntitySoundEffect p
  | Sent_SoundEffect p => wf_SoundEffect p
  | Sent_StopSound p => wf_StopSound p
  | Sent_SystemChatMessage p => wf_SystemChatMessage p
  | Sent_EntityVelocity p => wf_EntityVelocity p
  | Sent_SetExperience p => wf_SetExperience p
  | Sent_Health p => wf_Health p
  | Sent_TeleportEntity p => wf_TeleportEntity p
  | Sent_UpdateAdvancements p => wf_UpdateAdvancements p
  | Sent_UpdateAttributes p => wf_UpdateAttributes p
  | Sent_FeatureFlags p => wf_FeatureFlags p
  | Sent_UpdateRecipes p => wf_UpdateRecipes p
  | Sent_UpdateTags p => wf_UpdateTags p
  | Sent_EntityAnimation p => wf_EntityAnimation p
  | Sent_KeepAlive p => wf_KeepAlive p
  | Sent_SetEntityMetadata p => wf_SetEntityMetadata p
  end.

Definition ClientPacket_id (packet : ClientPacket) : Z :=
  match packet with
  | Sent_LoginDisconnect _ => ClientPacketID_DisconnectLogin
  | Sent_EncryptionRequest _ => ClientPacketID_EncryptionRequest
  | Sent_LoginSuccess _ => ClientPacketID_LoginSuccess
  | Sent_StatusResponse _ => ClientPacketID_Status
  | Sent_PingResponse _ => ClientPacketID_Ping
  | Sent_SpawnEntity _ => ClientPacketID_SpawnEntity
  | Sent_SpawnPlayer _ => ClientPacketID_SpawnPlayer
  | Sent_BlockUpdate _ => ClientPacketID_BlockUpdate
  | Sent_ChangeDifficultyClient _ => ClientPacketID_ChangeDifficulty
  | Sent_Commands _ => ClientPacketID_Commands
  | Sent_CloseContainer _ => ClientPacketID_CloseContainer
  | Sent_PlayDisconnect _ => ClientPacketID_DisconnectPlay
  | Sent_EntityEvent _ => ClientPacketID_EntityEvent
  | Sent_UnloadChunk _ => ClientPacketID_UnloadChunk
  | Sent_InitializeWorldBorder _ => ClientPacketID_InitializeWorldBorder
  | Sent_GameEvent _ => ClientPacketID_GameEvent
  | Sent_WorldEvent _ => ClientPacketID_WorldEvent
  | Sent_LoginPlay _ => ClientPacketID_LoginPlay
  | Sent_UpdateEntityPosition _ => ClientPacketID_UpdateEntityPosition
  | Sent_UpdateEntityPositionRotation _ => ClientPacketID_UpdateEntityPositionRotation
  | Sent_UpdateEntityRotation _ => ClientPacketID_UpdateEntityRotation
  | Sent_PlayerAbilities _ => ClientPacketID_PlayerAbilities
  | Sent_PlayerChatMessage _ => ClientPacketID_PlayerChatMessage
  | Sent_PlayerInfoRemove _ => ClientPacketID_PlayerInfoRemove
  | Sent_PlayerInfoUpdate _ => ClientPacketID_PlayerInfoUpdate
  | Sent_SynchronizePlayerPosition _ => ClientPacketID_SynchronizePlayerPosition
  | Sent_UpdateRecipesBook _ => ClientPacketID_UpdateRecipesBook
  | Sent_RemoveEntities _ => ClientPacketID_RemoveEntities
  | Sent_HeadRotation _ => ClientPacketID_HeadRotation
  | Sent_ServerData _ => ClientPacketID_ServerData
  | Sent_SetHeldItemClient _ => ClientPacketID_SetHeldItem
  | Sent_CenterChunk _ => ClientPacketID_CenterChunk
  | Sent_SetDefaultSpawnPosition _ => ClientPacketID_SetDefaultSpawnPosition
  | Sent_UpdateTime _ => ClientPacketID_UpdateTime
  | Sent_EntitySoundEffect _ => ClientPacketID_EntitySoundEffect
  | Sent_SoundEffect _ => ClientPacketID_SoundEffect
  | Sent_StopSound _ => ClientPacketID_StopSound
  | Sent_SystemChatMessage _ => ClientPacketID_SystemChatMessage
  | Sent_EntityVelocity _ => ClientPacketID_EntityVelocity
  | Sent_SetExperience _ => ClientPacketID_SetExperience
  | Sent_Health _ => ClientPacketID_Health
  | Sent_TeleportEntity _ => ClientPacketID_TeleportEntity
  | Sent_UpdateAdvancements _ => ClientPacketID_UpdateAdvancements
  | Sent_UpdateAttributes _ => ClientPacketID_UpdateAttributes
  | Sent_FeatureFlags _ => ClientPacketID_FeatureFlags
  | Sent_UpdateRecipes _ => ClientPacketID_UpdateRecipes
  | Sent_UpdateTags _ => ClientPacketID_UpdateTags
  | Sent_EntityAnimation _ => ClientPacketID_EntityAnimation
  | Sent_KeepAlive _ => ClientPacketID_KeepAlive
  | Sent_SetEntityMetadata _ => ClientPacketID_SetEntityMetadata
  end.

(** The reader for the packets of the same constructor. *)
Definition read_like (packet : ClientPacket) : reader ClientPacket :=
  match packet with
  | Sent_LoginDisconnect _ => p ← read_Disconnect; mret (Sent_LoginDisconnect p)
  | Sent_EncryptionRequest _ => p ← read_EncryptionRequest; mret (Sent_EncryptionRequest p)
  | Sent_LoginSuccess _ => p ← read_LoginSuccess; mret (Sent_LoginSuccess p)
  | Sent_StatusResponse _ => p ← read_StatusResponse; mret (Sent_StatusResponse p)
  | Sent_PingResponse _ => p ← read_PingResponse; mret (Sent_PingResponse p)
  | Sent_SpawnEntity _ => p ← read_SpawnEntity; mret (Sent_SpawnEntity p)
  | Sent_SpawnPlayer _ => p ← read_SpawnPlayer; mret (Sent_SpawnPlayer p)
  | Sent_BlockUpdate _ => p ← read_BlockUpdate; mret (Sent_BlockUpdate p)
  | Sent_ChangeDifficultyClient _ =>
      p ← read_ChangeDifficultyClient; mret (Sent_ChangeDifficultyClient p)
  | Sent_Commands _ => p ← read_Commands; mret (Sent_Commands p)
  | Sent_CloseContainer _ => p ← read_CloseContainer; mret (Sent_CloseContainer p)
  | Sent_PlayDisconnect _ => p ← read_Disconnect; mret (Sent_PlayDisconnect p)
  | Sent_EntityEvent _ => p ← read_EntityEvent; mret (Sent_EntityEvent p)
  | Sent_UnloadChunk _ => p ← read_UnloadChunk; mret (Sent_UnloadChunk p)
  | Sent_InitializeWorldBorder _ =>
      p ← read_InitializeWorldBorder; mret (Sent_InitializeWorldBorder p)
  | Sent_GameEvent _ => p ← read_GameEvent; mret (Sent_GameEvent p)
  | Sent_WorldEvent _ => p ← read_WorldEvent; mret (Sent_WorldEvent p)
  | Sent_LoginPlay _ => p ← read_LoginPlay; mret (Sent_LoginPlay p)
  | Sent_UpdateEntityPosition _ =>
      p ← read_UpdateEntityPosition; mret (Sent_UpdateEntityPosition p)
  | Sent_UpdateEntityPositionRotation _ =>
      p ← read_UpdateEntityPositionRotation; mret (Sent_UpdateEntityPositionRotation p)
  | Sent_UpdateEntityRotation _ =>
      p ← read_UpdateEntityRotation; mret (Sent_UpdateEntityRotation p)
  | Sent_PlayerAbilities _ => p ← read_PlayerAbilitiesClient; mret (Sent_PlayerAbilities p)
  | Sent_PlayerChatMessage _ => p ← read_PlayerChatMessage; mret (Sent_PlayerChatMessage p)
  | Sent_PlayerInfoRemove _ => p ← read_PlayerInfoRemove; mret (Sent_PlayerInfoRemove p)
  | Sent_PlayerInfoUpdate _ => p ← read_PlayerInfoUpdate; mret (Sent_PlayerInfoUpdate p)
  | Sent_SynchronizePlayerPosition _ =>
      p ← read_SynchronizePlayerPosition; mret (Sent_SynchronizePlayerPosition p)
  | Sent_UpdateRecipesBook _ => p ← read_UpdateRecipesBook; mret (Sent_UpdateRecipesBook p)
  | Sent_RemoveEntities _ => p ← read_RemoveEntities; mret (Sent_RemoveEntities p)
  | Sent_HeadRotation _ => p ← read_HeadRotation; mret (Sent_HeadRotation p)
  | Sent_ServerData _ => p ← read_ServerData; mret (Sent_ServerData p)
  | Sent_SetHeldItemClient _ => p ← read_SetHeldItemClient; mret (Sent_SetHeldItemClient p)
  | Sent_CenterChunk _ => p ← read_CenterChunk; mret (Sent_CenterChunk p)
  | Sent_SetDefaultSpawnPosition _ =>
      p ← read_SetDefaultSpawnPosition; mret (Sent_SetDefaultSpawnPosition p)
  | Sent_UpdateTime _ => p ← read_UpdateTime; mret (Sent_UpdateTime p)
  | Sent_EntitySoundEffect _ => p ← read_EntitySoundEffect; mret (Sent_EntitySoundEffect p)
  | Sent_SoundEffect _ => p ← read_SoundEffect; mret (Sent_SoundEffect p)
  | Sent_StopSound _ => p ← read_StopSound; mret (Sent_StopSound p)
  | Sent_SystemChatMessage _ => p ← read_SystemChatMessage; mret (Sent_SystemChatMessage p)
  | Sent_EntityVelocity _ => p ← read_EntityVelocity; mret (Sent_EntityVelocity p)
  | Sent_SetExperience _ => p ← read_SetExperience; mret (Sent_SetExperience p)
  | Sent_Health _ => p ← read_Health; mret (Sent_Health p)
  | Sent_TeleportEntity _ => p ← read_TeleportEntity; mret (Sent_TeleportEntity p)
  | Sent_UpdateAdvancements _ => p ← read_UpdateAdvancements; mret (Sent_UpdateAdvancements p)
  | Sent_UpdateAttributes _ => p ← read_UpdateAttributes; mret (Sent_UpdateAttributes p)
  | Sent_FeatureFlags _ => p ← read_FeatureFlags; mret (Sent_FeatureFlags p)
  | Sent_UpdateRecipes _ => p ← read_UpdateRecipes; mret (Sent_UpdateRecipes p)
  | Sent_UpdateTags _ => p ← read_UpdateTags; mret (Sent_UpdateTags p)
  | Sent_EntityAnimation _ => p ← read_EntityAnimation; mret (Sent_EntityAnimation p)
  | Sent_KeepAlive _ => p ← read_KeepAlive; mret (Sent_KeepAlive p)
  | Sent_SetEntityMetadata _ => p ← read_SetEntityMetadata; mret (Sent_SetEntityMetadata p)
  end.

(** A frame: its length, the identifier of the packet, and the packet. *)
Definition read_frame {A} (id : Z) (p : reader A) : reader A :=
  length ← popVarInt;
  d ← distance_to_eof;
  if decide (d + 1 ≠ length) then throw PacketEOF
  else
    packetId ← popVarInt;
    if decide (packetId ≠ id) then throw std_runtime_error else p.
