(* ===== verification/Json.v ===== *)
(** * JSON values

    Values, reading and writing of JSON are those of the nlohmann library: [json]
    is its value type, with objects sorted by key, and [JsonLib] its printer, which
    throws on a string that is not UTF-8, and its parser. *)

From S2P Require Import Prelude Floats.

Inductive json : Type :=
| json_null
| json_bool (b : bool)
| json_number (n : Z)
| json_float (f : double)
| json_string (s : string)
| json_array (l : list json)
| json_object (members : list (string * json)).

(** [dump()] and [parse(text)]; both throw where they give [None]. *)
Class JsonLib := {
  json_dump : json → option string;
  json_parse : string → option json
}.

Fixpoint members_find (key : string) (l : list (string * json)) : option json :=
  match l with
  | [] => None
  | (k, v) :: l => if decide (k = key) then Some v else members_find key l
  end.

Fixpoint members_set (key : string) (v : json) (l : list (string * json)) : list (string * json) :=
  match l with
  | [] => [(key, v)]
  | (k, w) :: l =>
      if decide (k = key) then (key, v) :: l
      else if String.ltb key k then (key, v) :: (k, w) :: l
      else (k, w) :: members_set key v l
  end.

(** [j[key] = v]; the code does it to null values and to objects. *)
Definition json_set (key : string) (v : json) (j : json) : json :=
  match j with
  | json_null => json_object [(key, v)]
  | json_object l => json_object (members_set key v l)
  | j => j
  end.
Definition json_set_if (key : string) (v : option json) (j : json) : json :=
  match v with Some v => json_set key v j | None => j end.

Definition json_contains (key : string) (j : json) : bool :=
  match j with
  | json_object l => match members_find key l with Some _ => true | None => false end
  | _ => false
  end.

(** [j[key]] of a constant [j]: the library asserts that the key is there. *)
Definition json_index (key : string) (j : json) : result json :=
  match j with
  | json_object l => match members_find key l with Some v => Ok v | None => UB FailedAssertion end
  | _ => Throw nlohmann_exception
  end.

Definition json_get_string (j : json) : result string :=
  match j with json_string s => Ok s | _ => Throw nlohmann_exception end.
Definition json_get_bool (j : json) : result bool :=
  match j with json_bool b => Ok b | _ => Throw nlohmann_exception end.

(** The range of a [for] over a value. *)
Definition json_elements (j : json) : list json :=
  match j with
  | json_array l => l
  | json_object l => snd <$> l
  | json_null => []
  | j => [j]
  end.

(** The nesting of a value: the fuel of the recursion. *)
Fixpoint json_depth (j : json) : nat :=
  match j with
  | json_array l => S (foldr Nat.max O (map json_depth l))
  | json_object l => S (foldr Nat.max O (map (λ kv, json_depth kv.2) l))
  | _ => 1
  end.

(** *** Numbers

    A number is read as an integer or as a floating point number; [get] converts. *)

Definition json_is_string (j : json) : bool := match j with json_string _ => true | _ => false end.
Definition json_is_object (j : json) : bool := match j with json_object _ => true | _ => false end.
Definition json_is_array (j : json) : bool := match j with json_array _ => true | _ => false end.
Definition json_is_number (j : json) : bool :=
  match j with json_number _ | json_float _ => true | _ => false end.
Definition json_is_integer (j : json) : bool := match j with json_number _ => true | _ => false end.
Definition json_is_unsigned (j : json) : bool :=
  match j with json_number n => bool_decide (0 ≤ n) | _ => false end.
Definition json_is_float (j : json) : bool := match j with json_float _ => true | _ => false end.

Definition json_get_int64 (j : json) : result Z :=
  match j with
  | json_number n => Ok (to_i64 n)
  | json_float f => to_integer (is_s 64) f
  | _ => Throw nlohmann_exception
  end.
Definition json_get_uint64 (j : json) : result Z :=
  match j with
  | json_number n => Ok (to_u64 n)
  | json_float f => to_integer (is_u 64) f
  | _ => Throw nlohmann_exception
  end.
Definition json_get_double (j : json) : result double :=
  match j with
  | json_number n => Ok (double_of_Z n)
  | json_float f => Ok f
  | _ => Throw nlohmann_exception
  end.

(** A member that is there and is of a kind. *)
Definition json_find (key : string) (j : json) : option json :=
  match j with json_object l => members_find key l | _ => None end.
Definition json_has (key : string) (kind : json → bool) (j : json) : bool :=
  match json_find key j with Some v => kind v | None => false end.

(** * Reading JSON ends

    The nesting of the parts of a value, which bounds the recursion of what reads
    it, and the readers that do not run out of fuel. *)

Lemma depth_in j l : j ∈ l → (json_depth j ≤ foldr Nat.max O (map json_depth l))%nat.
Proof. induction 1; cbn; lia. Qed.

Lemma depth_find key v l :
  members_find key l = Some v →
  (json_depth v ≤ foldr Nat.max O (map (λ kv, json_depth kv.2) l))%nat.
Proof.
  induction l as [|[k w] l IH]; cbn; [done|]. case_decide.
  - intros [= ->]. lia.
  - intros Hf. specialize (IH Hf). lia.
Qed.

Lemma in_fuel_map_result {A B} (f : A → result B) l :
  (∀ x, x ∈ l → in_fuel (f x) = true) → in_fuel (map_result f l) = true.
Proof.
  induction l as [|x l IH]; intros Hl; [done|]. cbn. apply bind_in_fuel; [apply Hl; by left|].
  intros y _. apply bind_in_fuel; [apply IH; intros; apply Hl; by right|done].
Qed.

Lemma in_fuel_fmap {A B} (f : A → B) (r : result A) : in_fuel (f <$> r) = in_fuel r.
Proof. by destruct r. Qed.

Lemma in_fuel_index key j : in_fuel (json_index key j) = true.
Proof. destruct j as [| | | | | |l]; try done. cbn. by destruct (members_find key l). Qed.

Lemma depth_index key j v : json_index key j = Ok v → (json_depth v < json_depth j)%nat.
Proof.
  destruct j as [| | | | | |l]; try done. cbn [json_index].
  destruct (members_find key l) as [w|] eqn:E; intros [= <-]. apply depth_find in E. cbn. lia.
Qed.

Lemma depth_elements j v : v ∈ json_elements j → (json_depth v ≤ json_depth j)%nat.
Proof.
  destruct j as [| | | | |l|l]; cbn [json_elements]; intros Hv;
    try (apply list_elem_of_singleton in Hv as ->; done); [by apply elem_of_nil in Hv| |].
  - apply depth_in in Hv. cbn. lia.
  - apply list_elem_of_fmap in Hv as (kv & -> & Hin). cbn. induction Hin; cbn; lia.
Qed.

Lemma in_fuel_string j : in_fuel (json_get_string j) = true.
Proof. by destruct j. Qed.
Lemma in_fuel_bool j : in_fuel (json_get_bool j) = true.
Proof. by destruct j. Qed.
Create HintDb in_fuel.
#[export] Hint Resolve in_fuel_string in_fuel_bool in_fuel_index : in_fuel.
