(* ===== verification/LootTables.v ===== *)
(** * Loot tables (loot_tables/)

    A table is a list of pools, a pool a list of weighted entries and a number of
    rolls; polling a table collects items.  Tables are read from JSON; the types of
    rolls, entries, functions and conditions are found by their names.  Every type of
    condition is always true and every function does nothing, in the code too; the
    context of a poll is not read. *)

From S2P Require Import Prelude State Floats BlockStates Json.

(** ** Names *)

(** [find(':')] and the two [substr]. *)
Definition colon : Ascii.ascii := ascii_of_byte 58.
Fixpoint split_colon (s : string) : option (string * string) :=
  match s with
  | EmptyString => None
  | String c s =>
      if decide (c = colon) then Some (EmptyString, s)
      else match split_colon s with Some (a, b) => Some (String c a, b) | None => None end
  end.

Definition default_functions : list string := [
  "apply_bonus"; "copy_state"; "copy_name"; "copy_nbt"; "enchant_randomly"; "enchant_with_levels";
  "exploration_map"; "explosion_decay"; "fill_player_head"; "furnace_smelt"; "limit_count";
  "looting_enchant"; "set_attributes"; "set_banner_pattern"; "set_contents"; "set_count"; "set_damage";
  "set_enchantments"; "set_instrument"; "set_loot_table"; "set_lore"; "set_name"; "set_nbt"; "set_potion";
  "set_stew_effect"]%string.
Definition default_conditions : list string := [
  "alternative"; "block_state_property"; "damage_source_properties"; "entity_properties"; "entity_scores";
  "inverted"; "killed_by_player"; "location_check"; "match_tool"; "random_chance";
  "random_chance_with_looting"; "reference"; "survives_explosion"; "table_bonus"; "time_check";
  "value_check"; "weather_check"]%string.

(** A creator by its two names; the one of an unknown name is a null that is called. *)
Definition find_creator (names : list string) (type : string) : result (option string) :=
  match split_colon type with
  | None => Ok None
  | Some (ns, name) =>
      if decide (ns = "minecraft"%string ∧ name ∈ names) then Ok (Some name) else UB NullDereference
  end.

(** [createFunction], [createCondition]: a null for a type without a namespace.  A
    function is made of its name and its conditions. *)
Definition create_named (key : string) (names : list string) (e : exn) (j : json) : result (option string) :=
  match json_find key j with
  | Some (json_string type) => find_creator names type
  | _ => Throw e
  end.

Abbreviation Condition := string.
Definition createCondition : json → result (option Condition) :=
  create_named "condition" default_conditions NoConditionContructor.
Definition Condition_verify (c : Condition) : bool := true.
Definition Condition_isValid (c : Condition) : bool := true.

(** A member that is an array, element by element. *)
Definition json_list {A} (create : json → result A) (key : string) (j : json) : result (list A) :=
  match json_find key j with Some (json_array l) => map_result create l | _ => Ok [] end.
(** [isValid()] on each element of a list of pointers, until one is not. *)
Fixpoint all_valid {A} (isValid : A → bool) (l : list (option A)) : result bool :=
  match l with
  | [] => Ok true
  | None :: _ => UB NullDereference
  | Some x :: l => if isValid x then all_valid isValid l else Ok false
  end.

(** [setValidity(true)] of the constructor of every type. *)
Record LootFunction : Type := mk_LootFunction { function_conditions : list (option Condition); function_validity : bool }.
Definition createFunction (j : json) : result (option LootFunction) :=
  name ← create_named "function" default_functions NoFunctionContructor j;
  match name with
  | None => Ok None
  | Some name =>
      l ← json_list createCondition "conditions" j;
      valid ← all_valid Condition_isValid l;
      Ok (Some (mk_LootFunction l valid))
  end.

(** ** Polls (LootTable.hpp) *)

(** The items rolled so far, and how many random numbers were drawn. *)
Record LootTablePoll : Type := mk_Poll { poll_items : gmap Z Z; poll_drawn : nat }.

Definition addRolledItem (item count : Z) (items : gmap Z Z) : gmap Z Z :=
  match items !! item with
  | None => <[item := count]> items
  | Some n => <[item := to_u8 (n + count)]> items
  end.
Definition addRolledItems (l : gmap Z Z) (items : gmap Z Z) : gmap Z Z :=
  foldr (λ e items, addRolledItem e.1 e.2 items) items (map_to_list l).

Section Random.
(** The numbers [rand()] gives. *)
Context (random : nat → Z).

Definition rand : M LootTablePoll Z := λ s, (Ok (random (poll_drawn s)), mk_Poll (poll_items s) (S (poll_drawn s))).
Definition add_items (f : gmap Z Z → gmap Z Z) : M LootTablePoll unit :=
  modify (λ s, mk_Poll (f (poll_items s)) (poll_drawn s)).

(** ** Rolls (rolls/) *)

Inductive Target : Type := Fixed | This | Killer | DirectKiller | KillerPlayer.
Inductive Roll : Type :=
| Constant (rolls : Z)
| Uniform (min max : Z)
| Binomial (n : Z) (p : double)
| Score (target : Target) (fixedTarget : option string) (objective : string) (scale : double).

Definition Constant_isOfType (roll : json) : bool :=
  json_is_number roll ||
  match json_find "type" roll with
  | Some (json_string type) => json_has "value" json_is_number roll && bool_decide (type = "minecraft:constant"%string)
  | _ => false
  end.
Definition Uniform_isOfType (roll : json) : bool :=
  json_has "min" json_is_number roll && json_has "max" json_is_number roll.
Definition Binomial_isOfType (roll : json) : bool :=
  json_has "n" json_is_number roll && json_has "p" json_is_number roll.
Definition Score_isOfType (roll : json) : bool :=
  match json_find "type" roll with
  | Some (json_string type) =>
      bool_decide (type = "minecraft:score"%string) && json_has "score" json_is_string roll &&
      json_has "target" (λ t, json_is_string t || json_has "target" json_is_string t) roll
  | _ => false
  end.

Definition Constant_creator (roll : json) : result Roll :=
  if json_is_number roll then Constant <$> json_get_uint64 roll
  else v ← json_index "value" roll; Constant <$> json_get_uint64 v.
Definition Uniform_creator (roll : json) : result Roll :=
  a ← json_index "min" roll; min ← json_get_int64 a;
  b ← json_index "max" roll; max ← json_get_int64 b; Ok (Uniform min max).
Definition Binomial_creator (roll : json) : result Roll :=
  a ← json_index "n" roll; n ← json_get_int64 a;
  b ← json_index "p" roll; p ← json_get_double b; Ok (Binomial n p).
Definition target_of (target : string) : Target :=
  if decide (target = "killer"%string) then Killer
  else if decide (target = "direct_killer"%string) then DirectKiller
  else if decide (target = "killer_player"%string) then KillerPlayer else This.
(** The type of a target that is an object is read whether it is there or not. *)
Definition Score_creator (roll : json) : result Roll :=
  target ← json_index "target" roll;
  t ← match target with
      | json_string s => Ok (target_of s, None)
      | target =>
          a ← json_index "type" target; type ← json_get_string a;
          if decide (type = "minecraft:context"%string) then
            b ← json_index "target" target; s ← json_get_string b; Ok (target_of s, None)
          else if decide (type = "minecraft:fixed"%string) then
            b ← json_index "name" target; s ← json_get_string b; Ok (This, Some s)
          else Ok (This, None)
      end;
  c ← json_index "score" roll; objective ← json_get_string c;
  Ok (Score t.1 t.2 objective
        (match json_find "scale" roll with Some (json_float f) => f | _ => double_of_Z 1 end)).

Definition createRoll (roll : json) : result Roll :=
  if Constant_isOfType roll then Constant_creator roll
  else if Uniform_isOfType roll then Uniform_creator roll
  else if Binomial_isOfType roll then Binomial_creator roll
  else if Score_isOfType roll then Score_creator roll
  else Throw NoRollConstructor.

(** The number of rolls, an [int64_t], and their probability. *)
Definition Roll_poll (r : Roll) : M LootTablePoll (Z * double) :=
  match r with
  | Constant rolls => mret (to_i64 rolls, double_of_Z 1)
  | Uniform min max =>
      if decide (max ≤ min) then mret (min, double_of_Z 1)
      else
        d ← lift (chk_i64 (max - min)); d ← lift (chk_i64 (d + 1));
        r ← rand; n ← lift (chk_i64 (min + Z.rem r d)); mret (n, double_of_Z 1)
  | Binomial n p => mret (n, p)
  | Score _ _ _ _ => mret (1, double_of_Z 1)
  end.

(** ** Entries (entries/) *)

Record EntryBase : Type := mk_EntryBase {
  _weight : Z;
  _quality : Z;
  _functions : list (option LootFunction);
  _conditions : list (option Condition)
}.

(** Children may be null.  The item of an entry without a name is not initialised. *)
Inductive EntryKind : Type :=
| Alternative (children : list (option Entry))
| Dynamic
| Empty
| Group (children : list (option Entry))
| Item (item : option Z)
| ItemTag (name : string)
| LootTableEntry (table : option (string * string))
| Sequence (children : list (option Entry))
with Entry : Type := mk_Entry (base : EntryBase) (kind : EntryKind) (validity : bool).

Definition Entry_base (e : Entry) : EntryBase := let 'mk_Entry base _ _ := e in base.
Definition Entry_isValid (e : Entry) : bool := let 'mk_Entry _ _ v := e in v.
Definition Entry_getWeight (e : Entry) : Z := _weight (Entry_base e).

(** The quality goes to the weight. *)
Definition Entry_new (j : json) : result EntryBase :=
  let weight := match json_find "weight" j with Some (json_number n) => to_i64 n | _ => 1 end in
  let weight := match json_find "quality" j with Some (json_number n) => to_i64 n | _ => weight end in
  functions ← json_list createFunction "functions" j;
  conditions ← json_list createCondition "conditions" j;
  Ok (mk_EntryBase weight 1 functions conditions).
Definition Entry_setValidity (base : EntryBase) : result bool :=
  v ← all_valid Condition_isValid (_conditions base);
  if v : bool then all_valid function_validity (_functions base) else Ok false.

(** The tables that exist, by namespace and name. *)
Section Create.
Context (fromItemToProtocolId : string → Z) (table_exists : string → string → bool).

Definition create_children (create : json → result (option Entry)) (entry : json) : result (list (option Entry)) :=
  children ← json_index "children" entry; map_result create (json_elements children).

(** A table is looked for under two empty names. *)
Definition LootTableEntry_table (name : string) : option (option (string * string)) :=
  match split_colon name with
  | None => None
  | Some ref => Some (if table_exists EmptyString EmptyString then Some ref else None)
  end.

(** What the constructor of a type does after that of [Entry]; [None] leaves the entry
    invalid. *)
Definition create_kind (create : json → result (option Entry)) (name : string) (entry : json) :
  result (option EntryKind) :=
  if decide (name = "alternatives"%string) then
    l ← create_children create entry; Ok (Some (Alternative l))
  else if decide (name = "group"%string) then
    l ← create_children create entry; Ok (Some (Group l))
  else if decide (name = "sequence"%string) then
    l ← create_children create entry; Ok (Some (Sequence l))
  else if decide (name = "dynamic"%string) then Ok (Some Dynamic)
  else if decide (name = "empty"%string) then Ok (Some Empty)
  else if decide (name = "item"%string) then
    Ok (Some (Item (match json_find "name" entry with
                    | Some (json_string s) => Some (fromItemToProtocolId s) | _ => None end)))
  else if decide (name = "tag"%string) then
    n ← json_index "name" entry; s ← json_get_string n; Ok (Some (ItemTag s))
  else
    n ← json_index "name" entry; s ← json_get_string n; Ok (LootTableEntry <$> LootTableEntry_table s).

Definition default_entries : list string :=
  ["alternatives"; "dynamic"; "empty"; "group"; "item"; "tag"; "loot_table"; "sequence"]%string.

Fixpoint createEntry_fuel (fuel : nat) (entry : json) : result (option Entry) :=
  match fuel with
  | O => OutOfFuel
  | S fuel =>
      name ← create_named "type" default_entries NoEntryContructor entry;
      match name with
      | None => Ok None
      | Some name =>
          base ← Entry_new entry;
          kind ← create_kind (createEntry_fuel fuel) name entry;
          match kind with
          | None => Ok (Some (mk_Entry base (LootTableEntry None) false))
          | Some kind => v ← Entry_setValidity base; Ok (Some (mk_Entry base kind v))
          end
      end
  end.
Definition createEntry (entry : json) : result (option Entry) := createEntry_fuel (json_depth entry) entry.

(** ** Pools and tables (Pool.cpp, LootTable.cpp) *)

Record LootPool : Type := mk_LootPool {
  _roll : option Roll;
  _entries : list (option Entry);
  pool_functions : list (option LootFunction);
  pool_conditions : list (option Condition);
  _totalWeight : Z;
  pool_validity : bool
}.
Record LootTable : Type := mk_LootTable {
  _pools : list LootPool;
  table_type : string;
  table_functions : list (option LootFunction);
  table_validity : bool
}.

Fixpoint getTotalWeight (weight : Z) (entries : list (option Entry)) : result Z :=
  match entries with
  | [] => Ok weight
  | None :: _ => UB NullDereference
  | Some e :: entries => weight ← chk_i64 (weight + Entry_getWeight e); getTotalWeight weight entries
  end.
Definition Pool_setValidity (roll : Roll) (entries : list (option Entry)) (functions : list (option LootFunction))
    (conditions : list (option Condition)) : result bool :=
  v ← all_valid Condition_isValid conditions;
  if negb v then Ok false else
  v ← all_valid function_validity functions;
  if negb v then Ok false else all_valid Entry_isValid entries.

Definition Pool_new (pool : json) : result LootPool :=
  match json_find "entries" pool, json_find "rolls" pool with
  | Some (json_array (e :: entries)), Some rolls =>
      roll ← createRoll rolls;
      entries ← map_result createEntry (e :: entries);
      functions ← json_list createFunction "functions" pool;
      conditions ← json_list createCondition "conditions" pool;
      weight ← getTotalWeight 0 entries;
      v ← Pool_setValidity roll entries functions conditions;
      Ok (mk_LootPool (Some roll) entries functions conditions weight v)
  | _, _ => Ok (mk_LootPool None [] [] [] 0 false)
  end.

Definition LootTable_new (table : json) : result LootTable :=
  match json_find "pools" table with
  | Some (json_array pools) =>
      let type := match json_find "type" table with Some (json_string s) => s | _ => EmptyString end in
      pools ← map_result Pool_new pools;
      functions ← json_list createFunction "functions" table;
      v ← all_valid function_validity functions;
      Ok (mk_LootTable pools type functions (v && forallb pool_validity pools))
  | _ => Ok (mk_LootTable [] EmptyString [] false)
  end.
End Create.

(** *** Polling *)

(** [condition->verify(context) == false] on some condition. *)
Fixpoint refused (l : list (option Condition)) : result bool :=
  match l with
  | [] => Ok false
  | None :: _ => UB NullDereference
  | Some c :: l => if negb (Condition_verify c) then Ok true else refused l
  end.

Section Poll.
(** [poll] of the table a reference points to. *)
Context (poll_table : string * string → M LootTablePoll unit).

(** The [continue] of an alternative and of a group is that of the inner loop. *)
Fixpoint Entry_poll (e : Entry) : M LootTablePoll bool :=
  let 'mk_Entry base kind _ := e in
  match kind with
  | Alternative [] => mret false
  | Alternative (child :: _) =>
      _ ← lift (refused (_conditions base));
      match child with None => undefined_ NullDereference | Some e => _ ← Entry_poll e; mret true end
  | Group children =>
      (fix group (l : list (option Entry)) : M LootTablePoll bool :=
         match l with
         | [] => mret true
         | child :: l =>
             _ ← lift (refused (_conditions base));
             match child with None => undefined_ NullDereference | Some e => _ ← Entry_poll e; group l end
         end) children
  | Sequence children =>
      (fix sequence (polled : bool) (l : list (option Entry)) : M LootTablePoll bool :=
         match l with
         | [] => mret polled
         | child :: l =>
             r ← lift (refused (_conditions base));
             if r : bool then mret polled
             else match child with
                  | None => undefined_ NullDereference
                  | Some e => _ ← Entry_poll e; sequence true l
                  end
         end) false children
  | Dynamic | ItemTag _ => mret true
  | Empty => r ← lift (refused (_conditions base)); mret (negb r)
  | Item item =>
      r ← lift (refused (_conditions base));
      if r : bool then mret false
      else match item with
           | None => undefined_ UninitializedRead
           | Some item => _ ← add_items (addRolledItem item 1); mret true
           end
  | LootTableEntry None => mret false
  | LootTableEntry (Some table) => _ ← poll_table table; mret true
  end.

(** The loop over the entries; the elapsed weight stays zero, and the rolled one
    grows. *)
Fixpoint poll_entries (total rolled : Z) (entries : list (option Entry)) : M LootTablePoll unit :=
  match entries with
  | [] => mret tt
  | None :: _ => undefined_ NullDereference
  | Some e :: entries =>
      if decide (total ≤ 1 ∨ rolled < 0 + Entry_getWeight e) then _ ← Entry_poll e; mret tt
      else rolled ← lift (chk_i64 (rolled + Entry_getWeight e)); poll_entries total rolled entries
  end.

Definition dle (a b : double) : bool := SFleb a b.
Definition dlt (a b : double) : bool := SFltb a b.

Definition poll_once (p : LootPool) (probability : double) : M LootTablePoll unit :=
  hit ← (if dle (double_of_Z 1) probability then mret true
         else r ← rand; mret (dlt (double_of_Z (Z.rem r 10000)) (dmul probability (double_of_Z 10000))));
  if hit : bool then
    rolled ← (if decide (1 < _totalWeight p) then r ← rand; mret (Z.rem r (_totalWeight p)) else mret 0);
    poll_entries (_totalWeight p) rolled (_entries p)
  else mret tt.

(** The counter of the loop is an [int]. *)
Definition Pool_poll (p : LootPool) : M LootTablePoll unit :=
  match _roll p with
  | None => undefined_ NullDereference
  | Some roll =>
      r ← Roll_poll roll;
      _ ← for_each (seqZ 0 (Z.min r.1 (2 ^ 31))) (λ _, poll_once p r.2);
      if decide (2 ^ 31 ≤ r.1) then undefined_ SignedOverflow else mret tt
  end.
Definition LootTable_poll_pools (t : LootTable) : M LootTablePoll unit := for_each (_pools t) Pool_poll.
End Poll.

(** ** The tables (LootTables.cpp) *)

Abbreviation LootTables := (gmap string (gmap string LootTable)).

Definition LootTables_exists (t : LootTables) (_namespace table : string) : bool :=
  match t !! _namespace with Some l => bool_decide (is_Some (l !! table)) | None => false end.

(** A table polls into a poll of its own, which is then added; [fuel] bounds the
    nesting of references. *)
Fixpoint LootTable_poll_fuel (fuel : nat) (tables : LootTables) (t : LootTable) : M LootTablePoll unit :=
  match fuel with
  | O => λ s, (OutOfFuel, s)
  | S fuel =>
      LootTable_poll_pools (λ ref,
        match tables !! ref.1 ≫= lookup ref.2 with
        | None => undefined_ NullDereference
        | Some t => λ s,
            match LootTable_poll_fuel fuel tables t (mk_Poll ∅ (poll_drawn s)) with
            | (Ok _, s') => (Ok tt, mk_Poll (addRolledItems (poll_items s') (poll_items s)) (poll_drawn s'))
            | (r, s') => (r, mk_Poll (poll_items s) (poll_drawn s'))
            end
        end) t
  end.

(** The files of a folder, by their names, with what they hold; a valid table replaces
    the one of its name. *)
Fixpoint importTableFolder (fromItemToProtocolId : string → Z) (_namespace : string)
    (files : list (string * option json)) (tables : LootTables) : result LootTables :=
  match files with
  | [] => Ok tables
  | (name, None) :: _ => Throw nlohmann_exception
  | (name, Some j) :: files =>
      t ← LootTable_new fromItemToProtocolId (LootTables_exists tables) j;
      importTableFolder fromItemToProtocolId _namespace files
        (if table_validity t
         then <[_namespace := <[name := t]> (default ∅ (tables !! _namespace))]> tables else tables)
  end.
End Random.

(** * What loot tables give

    The choice of an entry by its weight, the counts of a poll, and which tables can
    be polled. *)

(** ** The choice of an entry *)

(** The entry that a rolled weight selects, as the loop computes it. *)
Fixpoint selected (rolled : Z) (ws : list Z) : option nat :=
  match ws with
  | [] => None
  | w :: ws => if decide (rolled < w) then Some O else S <$> selected (rolled + w) ws
  end.
Definition total (ws : list Z) : Z := foldr Z.add 0 ws.

Lemma selected_spec rolled ws i :
  selected rolled ws = Some i → ∃ w, ws !! i = Some w ∧ rolled + total (take i ws) < w.
Proof.
  revert rolled i; induction ws as [|w ws IH]; intros rolled i Hs; simpl in Hs; [done|].
  case_decide; simplify_eq/=; [exists w; split; [done|lia]|].
  destruct (selected (rolled + w) ws) as [j|] eqn:E; simplify_eq/=.
  destruct (IH _ _ E) as (v & Hv & Hlt). exists v. split; [done|]. unfold total in *. simpl. lia.
Qed.

(** With equal weights the first one is selected, or none. *)
Lemma selected_equal rolled w n : 0 < w → 0 ≤ rolled →
  selected rolled (replicate n w) = if decide (rolled < w ∧ n ≠ O) then Some O else None.
Proof.
  intros Hw. revert rolled; induction n as [|n IH]; intros rolled Hr; simpl.
  { by rewrite decide_False by tauto. }
  destruct (decide (rolled < w)).
  - by rewrite decide_True by (split; [lia|done]).
  - rewrite IH by lia. by rewrite !decide_False by lia.
Qed.

Section Polls.
Context (random : nat → Z) (poll_table : string * string → M LootTablePoll unit).

(** An entry that is an item. *)
Record ItemEntry : Type := mk_ItemEntry { item_base : EntryBase; item_id : Z; item_valid : bool }.
Definition item_entry (x : ItemEntry) : Entry := mk_Entry (item_base x) (Item (Some (item_id x))) (item_valid x).
Definition item_weight (x : ItemEntry) : Z := _weight (item_base x).

Lemma keeps_item (I : LootTablePoll → Prop) x :
  keeps I (add_items (addRolledItem (item_id x) 1)) → keeps I (Entry_poll poll_table (item_entry x)).
Proof.
  intros Hk. simpl. apply keeps_bind; [apply keeps_lift|]. intros []; [apply keeps_ret|].
  apply keeps_bind; [done|]. intros ?. apply keeps_ret.
Qed.

Lemma keeps_poll_entries (I : LootTablePoll → Prop) t rolled items :
  (∀ i x, items !! i = Some x →
     (t ≤ 1 ∧ i = O) ∨ rolled + total (item_weight <$> take i items) < item_weight x →
     keeps I (add_items (addRolledItem (item_id x) 1))) →
  keeps I (poll_entries poll_table t rolled ((λ x, Some (item_entry x)) <$> items)).
Proof.
  revert rolled; induction items as [|x items IH]; intros rolled Hk; [apply keeps_ret|].
  cbn [fmap list_fmap poll_entries]. change (Entry_getWeight (item_entry x)) with (item_weight x).
  case_decide as Hc.
  - apply keeps_bind; [|intros; apply keeps_ret]. apply keeps_item, (Hk O x); [done|]. simpl. lia.
  - apply keeps_lift_bind. intros r Er. apply chk_i64_inv in Er as ->.
    apply IH. intros i y Hy Hc'. apply (Hk (S i) y Hy). right.
    destruct Hc' as [[Ht _]|Hlt]; [lia|]. cbn [take]. rewrite fmap_cons. unfold total in *. cbn [foldr]. lia.
Qed.

Lemma keeps_poll_once (I : LootTablePoll → Prop) p probability items :
  (∀ k, 0 ≤ random k) → (∀ s, I s → I (mk_Poll (poll_items s) (S (poll_drawn s)))) →
  _entries p = (λ x, Some (item_entry x)) <$> items →
  Forall (λ x, 0 < item_weight x) items →
  (∀ i x, items !! i = Some x → total (item_weight <$> take i items) < item_weight x →
     keeps I (add_items (addRolledItem (item_id x) 1))) →
  keeps I (poll_once random poll_table p probability).
Proof.
  intros Hr Hd He Hw Hk. unfold poll_once.
  assert (keeps I (rand random)) as Hrand by (intros s Hs; by apply Hd).
  apply keeps_bind. { case_match; [apply keeps_ret|]. apply keeps_bind; [done|intros; apply keeps_ret]. }
  intros []; [|apply keeps_ret]. rewrite He.
  assert (∀ rolled, 0 ≤ rolled →
    keeps I (poll_entries poll_table (_totalWeight p) rolled ((λ x, Some (item_entry x)) <$> items))) as Hpoll.
  { intros rolled Hro. apply keeps_poll_entries. intros i x Hx Hc. apply (Hk i x Hx).
    destruct Hc as [[_ ->]|Hlt]; [|lia]. simpl. by apply (Forall_lookup_1 _ _ _ _ Hw Hx). }
  case_decide as Ht.
  - intros s Hs. unfold mbind, M_bind, rand at 1. cbn. apply Hpoll; [|by apply Hd].
    apply Z.rem_nonneg; [lia|apply Hr].
  - intros s Hs. by apply Hpoll.
Qed.

(** C32: Weights.  In a pool made of item entries, all with positive weights, an item is never
    rolled when its weight is not larger than the sum of the weights before it, whatever the
    random numbers: the loop adds the weights of the entries it passes to the rolled weight,
    which it should compare with them.  Of entries of equal weights, only the first one is ever
    rolled.  (A single entry of weight zero, on the other hand, is always rolled.) *)
Theorem light_item_never_rolled p items it s :
  (∀ k, 0 ≤ random k) →
  _entries p = (λ x, Some (item_entry x)) <$> items →
  Forall (λ x, 0 < item_weight x) items →
  (∀ i x, items !! i = Some x → item_id x = it → item_weight x ≤ total (item_weight <$> take i items)) →
  poll_items (Pool_poll random poll_table p s).2 !! it = poll_items s !! it.
Proof.
  intros Hr He Hw Hl.
  assert (keeps (λ s', poll_items s' !! it = poll_items s !! it) (Pool_poll random poll_table p)) as Hk; [|by apply Hk].
  unfold Pool_poll. destruct (_roll p) as [roll|]; [|apply keeps_undefined].
  apply keeps_bind.
  { destruct roll; simpl; repeat first [apply keeps_ret | case_decide
      | apply keeps_bind; [first [apply keeps_lift | by intros s' Hs']|intros ?] ]. }
  intros r. apply keeps_bind; [|intros _; case_decide; [apply keeps_undefined|apply keeps_ret]].
  apply keeps_for_each. intros _ _. apply (keeps_poll_once _ _ _ items); [done|by intros|done|done|].
  intros i x Hx Hlt. apply keeps_modify. intros s' Hs'. simpl. unfold addRolledItem.
  destruct (decide (item_id x = it)) as [Ei|Ei].
  - specialize (Hl i x Hx Ei). lia.
  - by case_match; rewrite lookup_insert_ne by done.
Qed.

(** ** Counts *)

Lemma refused_some l : Forall is_Some l → refused l = Ok false.
Proof. induction 1 as [|c l [x ->] _ IH]; [done|]. simpl. by rewrite IH. Qed.

(** A count of [n] in eight bits; an item that was never rolled has none. *)
Definition count_of (n : Z) : option Z := if decide (n = 0) then None else Some (n mod 2 ^ 8).

Lemma add_count it n items : 0 ≤ n →
  items !! it = count_of n → addRolledItem it 1 items !! it = count_of (n + 1).
Proof.
  intros Hn Hi. unfold addRolledItem. rewrite Hi. unfold count_of.
  rewrite (decide_False (P := n + 1 = 0)) by lia.
  case_decide as E; rewrite lookup_insert_eq; [by subst|].
  f_equal. unfold to_u8, wrap_u. by rewrite Zplus_mod_idemp_l.
Qed.

Lemma poll_once_single p x s :
  (∀ k, 0 ≤ random k) → _entries p = [Some (item_entry x)] → _totalWeight p = item_weight x →
  0 < item_weight x < 2 ^ 31 → Forall is_Some (_conditions (item_base x)) →
  ∃ k, poll_once random poll_table p (double_of_Z 1) s =
    (Ok tt, mk_Poll (addRolledItem (item_id x) 1 (poll_items s)) k).
Proof.
  intros Hr He Ht Hw Hc. unfold poll_once. change (dle (double_of_Z 1) (double_of_Z 1)) with true.
  rewrite (bind_run_ok _ _ _ true s) by done. rewrite He, Ht.
  assert (∀ rolled s, (item_weight x ≤ 1 ∨ rolled < item_weight x) →
    poll_entries poll_table (item_weight x) rolled [Some (item_entry x)] s =
      (Ok tt, mk_Poll (addRolledItem (item_id x) 1 (poll_items s)) (poll_drawn s))) as Hp.
  { intros rolled s0 Hd. cbn [poll_entries]. change (Entry_getWeight (item_entry x)) with (item_weight x).
    rewrite decide_True by lia. unfold mbind, M_bind. simpl.
    unfold mbind, M_bind, lift. by rewrite refused_some. }
  case_decide as Hd.
  - rewrite (bind_run_ok _ _ _ (Z.rem (random (poll_drawn s)) (item_weight x))
      (mk_Poll (poll_items s) (S (poll_drawn s)))) by done.
    eexists. rewrite Hp; [done|]. right. apply Z.rem_bound_pos; [apply Hr|lia].
  - exists (poll_drawn s). rewrite (bind_run_ok _ _ _ 0 s) by done. rewrite Hp; [done|lia].
Qed.

(** Counts.  A pool of a single item that is rolled [n] times gives [n] modulo 256
    of it: 256 rolls give an entry of zero items. *)
Theorem rolled_count_wraps p x n k :
  (∀ k, 0 ≤ random k) →
  0 ≤ n < 2 ^ 31 →
  _roll p = Some (Constant n) →
  _entries p = [Some (item_entry x)] → _totalWeight p = item_weight x →
  0 < item_weight x < 2 ^ 31 → Forall is_Some (_conditions (item_base x)) →
  ∃ s', Pool_poll random poll_table p (mk_Poll ∅ k) = (Ok tt, s') ∧
    poll_items s' !! item_id x = count_of n.
Proof.
  intros Hr Hn Hroll He Ht Hw Hc.
  assert (∀ l m s, 0 ≤ m → poll_items s !! item_id x = count_of m →
    ∃ s', for_each (l : list Z) (λ _, poll_once random poll_table p (double_of_Z 1)) s = (Ok tt, s') ∧
      poll_items s' !! item_id x = count_of (m + zlen l)) as Hloop.
  { induction l as [|y l IH]; intros m s Hm Hs; cbn [for_each].
    { exists s. split; [done|]. by rewrite Z.add_0_r. }
    destruct (poll_once_single p x s) as [k' Ek]; [done..|].
    rewrite (bind_run_ok _ _ _ tt _ Ek).
    destruct (IH (m + 1) (mk_Poll (addRolledItem (item_id x) 1 (poll_items s)) k')) as (s' & E & Hs'); [lia|by apply add_count|].
    exists s'. split; [done|]. rewrite Hs'. f_equal. cbn [length]. lia. }
  destruct (Hloop (seqZ 0 n) 0 (mk_Poll ∅ k)) as (s' & E & Hs'); [lia|done|].
  exists s'. unfold Pool_poll. rewrite Hroll. cbn [Roll_poll].
  assert (to_i64 n = n) as En by (unfold to_i64; apply wrap_s_id; unfold is_s; lia).
  rewrite (bind_run_ok _ _ _ (n, double_of_Z 1) (mk_Poll ∅ k)) by (by rewrite En).
  cbn [fst snd]. rewrite Z.min_l by lia. rewrite (bind_run_ok _ _ _ tt _ E).
  rewrite decide_False by lia. split; [done|]. rewrite Hs', length_seqZ. f_equal. lia.
Qed.

(** ** Tables that can be polled *)

Fixpoint entry_sound (e : Entry) : Prop :=
  let 'mk_Entry base kind _ := e in
  let fix all (l : list (option Entry)) : Prop :=
    match l with [] => True | None :: _ => False | Some e :: l => entry_sound e ∧ all l end in
  Forall is_Some (_conditions base) ∧
  match kind with
  | Alternative l | Group l | Sequence l => all l
  | Item i => is_Some i
  | LootTableEntry t => t = None
  | _ => True
  end.
Definition roll_sound (r : Roll) : Prop :=
  match r with
  | Constant n => to_i64 n < 2 ^ 31
  | Uniform min max => - 2 ^ 62 ≤ min ∧ min < 2 ^ 31 ∧ max < 2 ^ 31
  | Binomial n _ => n < 2 ^ 31
  | Score _ _ _ _ => True
  end.
Definition pool_sound (p : LootPool) : Prop :=
  (∃ roll, _roll p = Some roll ∧ roll_sound roll) ∧
  ∃ entries, _entries p = Some <$> entries ∧ Forall entry_sound entries ∧
    Forall (λ e, 0 ≤ Entry_getWeight e) entries ∧
    _totalWeight p = total (Entry_getWeight <$> entries) ∧ _totalWeight p < 2 ^ 62.

(** [p] returns, whatever the state. *)
Definition returns {A} (p : M LootTablePoll A) : Prop := ∀ s, ∃ a s', p s = (Ok a, s').
Lemma returns_ret {A} (a : A) : returns (mret a).
Proof. intros s. by exists a, s. Qed.
Lemma returns_bind {A B} (p : M LootTablePoll A) (f : A → M LootTablePoll B) :
  returns p → (∀ a, returns (f a)) → returns (p ≫= f).
Proof. intros Hp Hf s. destruct (Hp s) as (a & s' & E). rewrite (bind_run_ok _ _ _ _ _ E). apply Hf. Qed.
Lemma returns_lift {A} (r : result A) a : r = Ok a → returns (lift r).
Proof. intros -> s. by exists a, s. Qed.
Lemma returns_for_each {X} (l : list X) p : (∀ x, returns (p x)) → returns (for_each l p).
Proof.
  intros Hp; induction l as [|x l IH]; [apply returns_ret|]. cbn [for_each]. by apply returns_bind.
Qed.
Lemma returns_rand : returns (rand random).
Proof. intros s. by do 2 eexists. Qed.

Lemma sound_entry_returns : ∀ e, entry_sound e → returns (Entry_poll poll_table e).
Proof.
  fix IH 1. intros [base kind v] [Hc Hk]. pose proof (refused_some _ Hc) as Hr.
  assert (returns (lift (refused (_conditions base)))) as Href by (by eapply returns_lift).
  destruct kind as [l| | |l|item| |table|l]; simpl.
  - destruct l as [|[e|] l]; [apply returns_ret| |done]. destruct Hk as [He _].
    apply returns_bind; [done|]. intros _. apply returns_bind; [by apply IH|]. intros _. apply returns_ret.
  - apply returns_ret.
  - apply returns_bind; [done|]. intros ?. apply returns_ret.
  - induction l as [|[e|] l IHl]; [apply returns_ret| |done]. destruct Hk as [He Hl].
    apply returns_bind; [done|]. intros _. apply returns_bind; [by apply IH|]. intros _. by apply IHl.
  - destruct Hk as [i ->]. apply returns_bind; [done|]. intros []; [apply returns_ret|].
    apply returns_bind; [intros s; by do 2 eexists|]. intros _. apply returns_ret.
  - apply returns_ret.
  - rewrite Hk. apply returns_ret.
  - generalize false as polled. induction l as [|[e|] l IHl]; intros polled; [apply returns_ret| |done].
    destruct Hk as [He Hl]. apply returns_bind; [done|]. intros []; [apply returns_ret|].
    apply returns_bind; [by apply IH|]. intros _. by apply IHl.
Qed.

Lemma total_nonneg entries : Forall (λ e, 0 ≤ Entry_getWeight e) entries → 0 ≤ total (Entry_getWeight <$> entries).
Proof. induction 1; unfold total in *; cbn; lia. Qed.

Lemma sound_entries_return t rolled entries :
  Forall entry_sound entries → Forall (λ e, 0 ≤ Entry_getWeight e) entries →
  0 ≤ rolled → rolled + total (Entry_getWeight <$> entries) < 2 ^ 63 →
  returns (poll_entries poll_table t rolled (Some <$> entries)).
Proof.
  intros Hs. revert rolled; induction Hs as [|e entries He Hs IH]; intros rolled Hw Hr Ht; [apply returns_ret|].
  apply Forall_cons_1 in Hw as [Hwe Hw]. rewrite fmap_cons in Ht. unfold total in Ht; cbn [foldr] in Ht.
  pose proof (total_nonneg _ Hw).
  unfold total in *. cbn [fmap list_fmap poll_entries]. case_decide.
  - apply returns_bind; [by apply sound_entry_returns|]. intros _. apply returns_ret.
  - intros s. unfold mbind, M_bind, lift. rewrite chk_i64_ok by (unfold is_s; lia).
    apply IH; [done|lia|unfold total; lia].
Qed.

Lemma sound_roll_returns r s : (∀ k, 0 ≤ random k) → roll_sound r →
  ∃ n p s', Roll_poll random r s = (Ok (n, p), s') ∧ n < 2 ^ 31.
Proof.
  intros Hr Hs. destruct r as [n|min max|n p|]; simpl in *; [by do 3 eexists| |by do 3 eexists|by do 3 eexists].
  case_decide; [do 3 eexists; split; [done|lia]|].
  pose proof (Z.rem_bound_pos (random (poll_drawn s)) (max - min + 1) (Hr _) ltac:(lia)).
  unfold mbind, M_bind, lift. rewrite chk_i64_ok by (unfold is_s; lia). rewrite chk_i64_ok by (unfold is_s; lia).
  unfold rand. rewrite chk_i64_ok by (unfold is_s; lia). do 3 eexists. split; [done|]. lia.
Qed.

Lemma sound_table_returns t s :
  (∀ k, 0 ≤ random k) → Forall pool_sound (_pools t) →
  ∃ s', LootTable_poll_pools random poll_table t s = (Ok tt, s').
Proof.
  intros Hr Hp. unfold LootTable_poll_pools.
  revert s; induction Hp as [|p pools (( roll & Hroll & Hrs) & es & He & Hes & Hw & Ht & Hb) _ IH]; intros s; [by eexists|].
  cbn [for_each].
  assert (∃ s', Pool_poll random poll_table p s = (Ok tt, s')) as [s' E];
    [|rewrite (bind_run_ok _ _ _ _ _ E); apply IH].
  unfold Pool_poll. rewrite Hroll. destruct (sound_roll_returns roll s Hr Hrs) as (n & pr & s1 & E1 & Hn).
  rewrite (bind_run_ok _ _ _ _ _ E1). cbn [fst snd].
  assert (returns (for_each (seqZ 0 (n `min` 2 ^ 31)) (λ _, poll_once random poll_table p pr))) as Hloop.
  { apply returns_for_each. intros _. unfold poll_once. apply returns_bind.
    { case_match; [apply returns_ret|]. apply returns_bind; [apply returns_rand|intros; apply returns_ret]. }
    intros []; [|apply returns_ret]. rewrite He, Ht. case_decide as Hone.
    - intros s2. rewrite (bind_run_ok _ _ _ (Z.rem (random (poll_drawn s2)) (total (Entry_getWeight <$> es)))
        (mk_Poll (poll_items s2) (S (poll_drawn s2)))) by done.
      assert (0 ≤ Z.rem (random (poll_drawn s2)) (total (Entry_getWeight <$> es)) < total (Entry_getWeight <$> es))
        by (apply Z.rem_bound_pos; [apply Hr|lia]).
      apply sound_entries_return; [done|done|lia|lia].
    - intros s2. rewrite (bind_run_ok _ _ _ 0 s2) by done. apply sound_entries_return; [done|done|lia|lia]. }
  destruct (Hloop s1) as ([] & s2 & E2). rewrite (bind_run_ok _ _ _ _ _ E2).
  rewrite decide_False by lia. by eexists.
Qed.

(** C33: Sound tables.  A table whose pools have a roll below 2^31, from -2^62 on if it is
    uniform, entries with weights that are not negative and a sum below 2^62, conditions
    and children that are there, items with a name and no reference to another table
    ([pool_sound]) can be polled: no null is followed, nothing overflows, and
    every loop ends, whatever the random numbers and the items rolled before. *)
Theorem sound_table_polls t s :
  (∀ k, 0 ≤ random k) → Forall pool_sound (_pools t) →
  ∃ s', LootTable_poll_pools random poll_table t s = (Ok tt, s').
Proof. apply sound_table_returns. Qed.
End Polls.

(** Polling with a nesting of one is enough for them: no reference is followed. *)
Lemma sound_table_poll_fuel random fuel tables t s :
  (∀ k, 0 ≤ random k) → Forall pool_sound (_pools t) →
  ∃ s', LootTable_poll_fuel random (S fuel) tables t s = (Ok tt, s').
Proof. intros Hr Hp. by apply sound_table_returns. Qed.

(** *** References to tables

    An entry that names a table looks for one under two empty names, which no import
    into a namespace makes: it never refers to its table. *)
Lemma import_keeps_empty items ns files tables tables' :
  ns ≠ EmptyString → tables !! EmptyString = None →
  importTableFolder items ns files tables = Ok tables' → tables' !! EmptyString = None.
Proof.
  intros Hns. revert tables; induction files as [|[name [j|]] files IH]; intros tables Ht Hi; simpl in Hi;
    [by simplify_eq| |done].
  destruct (LootTable_new items (LootTables_exists tables) j) as [t| | |]; try done. simpl in Hi.
  eapply IH; [|done]. case_match; [by rewrite lookup_insert_ne|done].
Qed.
Lemma reference_never_made tables name ref :
  tables !! EmptyString = None → LootTableEntry_table (LootTables_exists tables) name = Some ref → ref = None.
Proof.
  intros Ht. unfold LootTableEntry_table, LootTables_exists. rewrite Ht. by case_match; intros; simplify_eq.
Qed.

(** ** Loading ends *)

#[local] Hint Resolve bind_in_fuel in_fuel_map_result in_fuel_fmap : in_fuel.

Lemma in_fuel_list {A} (create : json → result A) key j :
  (∀ v, in_fuel (create v) = true) → in_fuel (json_list create key j) = true.
Proof. intros Hc. unfold json_list. repeat case_match; auto using in_fuel_map_result. Qed.
Lemma in_fuel_valid {A} (isValid : A → bool) l : in_fuel (all_valid isValid l) = true.
Proof. induction l as [|[x|] l IH]; simpl; [done| |done]. by destruct (isValid x). Qed.
Lemma in_fuel_named key names e j : in_fuel (create_named key names e j) = true.
Proof. unfold create_named, find_creator. repeat case_match; done. Qed.
Lemma in_fuel_condition j : in_fuel (createCondition j) = true.
Proof. apply in_fuel_named. Qed.
Lemma in_fuel_function j : in_fuel (createFunction j) = true.
Proof.
  unfold createFunction. apply bind_in_fuel; [apply in_fuel_named|]. intros [] _; [|done].
  apply bind_in_fuel; [apply in_fuel_list, in_fuel_condition|]. intros l _.
  apply bind_in_fuel; [apply in_fuel_valid|done].
Qed.
Lemma in_fuel_chk z : in_fuel (chk_i64 z) = true.
Proof. unfold chk_i64. by case_decide. Qed.
Lemma in_fuel_int64 j : in_fuel (json_get_int64 j) = true.
Proof. destruct j; try done. simpl. unfold to_integer. repeat case_match; done. Qed.
Lemma in_fuel_uint64 j : in_fuel (json_get_uint64 j) = true.
Proof. destruct j; try done. simpl. unfold to_integer. repeat case_match; done. Qed.
Lemma in_fuel_double j : in_fuel (json_get_double j) = true.
Proof. by destruct j. Qed.
#[local] Hint Resolve in_fuel_int64 in_fuel_uint64 in_fuel_double : in_fuel.

Ltac in_fuel_steps := repeat first
  [ done | progress auto with in_fuel | rewrite in_fuel_fmap
  | apply bind_in_fuel; [|intros ? _] | case_match ].
Lemma in_fuel_roll j : in_fuel (createRoll j) = true.
Proof.
  unfold createRoll, Constant_creator, Uniform_creator, Binomial_creator, Score_creator. in_fuel_steps.
Qed.

Section Loading.
Context (items : string → Z) (exists_ : string → string → bool).

Lemma in_fuel_children create j :
  (∀ v, (json_depth v < json_depth j)%nat → in_fuel (create v) = true) → in_fuel (create_children create j) = true.
Proof.
  intros Hc. unfold create_children. apply bind_in_fuel; [apply in_fuel_index|]. intros l Hl%depth_index.
  apply in_fuel_map_result. intros v Hv%depth_elements. apply Hc. lia.
Qed.
Lemma in_fuel_kind create name j :
  (∀ v, (json_depth v < json_depth j)%nat → in_fuel (create v) = true) →
  in_fuel (create_kind items exists_ create name j) = true.
Proof.
  intros Hc. unfold create_kind. pose proof (in_fuel_children create j Hc).
  repeat case_decide; in_fuel_steps.
Qed.
Lemma createEntry_fuel_S n entry : createEntry_fuel items exists_ (S n) entry =
  (name ← create_named "type" default_entries NoEntryContructor entry;
   match name with
   | None => Ok None
   | Some name =>
       base ← Entry_new entry;
       kind ← create_kind items exists_ (createEntry_fuel items exists_ n) name entry;
       match kind with
       | None => Ok (Some (mk_Entry base (LootTableEntry None) false))
       | Some kind => v ← Entry_setValidity base; Ok (Some (mk_Entry base kind v))
       end
   end).
Proof. done. Qed.
Lemma createEntry_in_fuel fuel : ∀ j, (json_depth j ≤ fuel)%nat → in_fuel (createEntry_fuel items exists_ fuel j) = true.
Proof.
  induction fuel as [|fuel IH]; intros j Hd; [destruct j; cbn in Hd; lia|].
  rewrite createEntry_fuel_S. apply bind_in_fuel; [apply in_fuel_named|]. intros [name|] _; [|done].
  apply bind_in_fuel.
  { unfold Entry_new. apply bind_in_fuel; [apply in_fuel_list, in_fuel_function|]. intros ? _.
    apply bind_in_fuel; [apply in_fuel_list, in_fuel_condition|done]. }
  intros base _. apply bind_in_fuel; [apply in_fuel_kind; intros v Hv; apply IH; lia|].
  intros [kind|] _; [|done]. apply bind_in_fuel; [|done]. unfold Entry_setValidity.
  apply bind_in_fuel; [apply in_fuel_valid|]. intros [] _; [apply in_fuel_valid|done].
Qed.

Lemma Pool_new_in_fuel j : in_fuel (Pool_new items exists_ j) = true.
Proof.
  unfold Pool_new. destruct (json_find "entries" j) as [[| | | | |[|e l]|]|]; try done.
  destruct (json_find "rolls" j) as [rolls|]; [|done].
  apply bind_in_fuel; [apply in_fuel_roll|intros ? _].
  apply bind_in_fuel; [apply in_fuel_map_result; intros; by apply createEntry_in_fuel|intros entries _].
  apply bind_in_fuel; [apply in_fuel_list, in_fuel_function|intros ? _].
  apply bind_in_fuel; [apply in_fuel_list, in_fuel_condition|intros ? _].
  apply bind_in_fuel.
  { generalize 0. induction entries as [|[x|] entries IH]; intros w; cbn [getTotalWeight]; [done| |done].
    apply bind_in_fuel; [apply in_fuel_chk|intros ? _; apply IH]. }
  intros ? _. apply bind_in_fuel; [|done]. unfold Pool_setValidity.
  apply bind_in_fuel; [apply in_fuel_valid|intros [] _]; [|done]. simpl.
  apply bind_in_fuel; [apply in_fuel_valid|intros [] _]; [|done]. apply in_fuel_valid.
Qed.

(** Loading ends for any value: the depth of a value is enough fuel for its entries. *)
Theorem LootTable_new_total j : in_fuel (LootTable_new items exists_ j) = true.
Proof.
  unfold LootTable_new. destruct (json_find "pools" j) as [[]|]; try done.
  apply bind_in_fuel; [apply in_fuel_map_result; intros ? _; apply Pool_new_in_fuel|intros ? _].
  apply bind_in_fuel; [apply in_fuel_list, in_fuel_function|intros ? _].
  apply bind_in_fuel; [apply in_fuel_valid|done].
Qed.
End Loading.

(** ** Examples *)

Definition sevens : nat → Z := λ _, 7.
Definition no_tables : string * string → M LootTablePoll unit := λ _, undefined_ NullDereference.
Definition plain : EntryBase := mk_EntryBase 1 1 [] [].
Definition two_items : list ItemEntry := [mk_ItemEntry plain 1 true; mk_ItemEntry plain 2 true].
Definition pool_of (rolls : Z) (items : list ItemEntry) : LootPool :=
  mk_LootPool (Some (Constant rolls)) ((λ x, Some (item_entry x)) <$> items) [] [] (total (item_weight <$> items)) true.

Lemma light_item_never_rolled_witness :
  poll_items (Pool_poll sevens no_tables (pool_of 3 two_items) (mk_Poll ∅ 0)).2 !! 2 = (∅ : gmap Z Z) !! 2.
Proof.
  apply (light_item_never_rolled sevens no_tables (pool_of 3 two_items) two_items 2 (mk_Poll ∅ 0)).
  - intros k. unfold sevens. lia.
  - reflexivity.
  - repeat constructor.
  - intros [|[|i]] x Hx Hi; simplify_eq/=; vm_compute; discriminate.
Defined.
Lemma rolled_count_wraps_witness :
  ∃ s', Pool_poll sevens no_tables (pool_of 256 [mk_ItemEntry plain 1 true]) (mk_Poll ∅ 0) = (Ok tt, s') ∧
    poll_items s' !! 1 = count_of 256.
Proof.
  apply (rolled_count_wraps sevens no_tables (pool_of 256 [mk_ItemEntry plain 1 true])
    (mk_ItemEntry plain 1 true) 256 0); try reflexivity; try (split; reflexivity || discriminate).
  - intros k. unfold sevens. lia.
  - constructor.
Defined.
Lemma sound_table_polls_witness :
  ∃ s', LootTable_poll_pools sevens no_tables
    (mk_LootTable [pool_of 3 two_items] EmptyString [] true) (mk_Poll ∅ 0) = (Ok tt, s').
Proof.
  apply (sound_table_polls sevens no_tables); [intros k; unfold sevens; lia|].
  repeat constructor; [exists (Constant 3); split; [reflexivity|vm_compute; reflexivity]|].
  exists (item_entry <$> two_items). split; [reflexivity|].
  split; [repeat constructor; by eexists|]. split; [repeat constructor; vm_compute; discriminate|].
  split; vm_compute; reflexivity.
Defined.

(** *** A valid table that cannot be polled *)

Definition child_json (type : string) : json := json_object [("type"%string, json_string type)].
Definition group_json (type : string) : json := json_object
  [("children", json_array [child_json type]); ("type", json_string "minecraft:group")]%string.
Definition pool_json (type : string) : json := json_object
  [("entries", json_array [group_json type]); ("rolls", json_number 1)]%string.
Definition group_table (type : string) : json := json_object [("pools"%string, json_array [pool_json type])].

Section Unnamed.
Context (items : string → Z) (exists_ : string → string → bool) (type : string).
Hypothesis Htype : split_colon type = None.

Lemma unnamed_child n : createEntry_fuel items exists_ (S n) (child_json type) = Ok None.
Proof.
  rewrite createEntry_fuel_S. unfold create_named.
  change (json_find "type" (child_json type)) with (Some (json_string type)). cbv iota beta.
  unfold find_creator. by rewrite Htype.
Qed.
Definition group_entry : Entry := mk_Entry plain (Group [None]) true.
Lemma unnamed_group : createEntry items exists_ (group_json type) = Ok (Some group_entry).
Proof.
  unfold createEntry. change (json_depth (group_json type)) with 4%nat. rewrite createEntry_fuel_S.
  assert (create_named "type" default_entries NoEntryContructor (group_json type) = Ok (Some "group"%string)) as -> by reflexivity.
  cbn [mbind result_bind].
  assert (Entry_new (group_json type) = Ok plain) as -> by reflexivity. cbn [mbind result_bind].
  assert (∀ create, create_kind items exists_ create "group" (group_json type) =
    (l ← create_children create (group_json type); Ok (Some (Group l)))) as -> by reflexivity.
  assert (∀ create, create_children create (group_json type) = map_result create [child_json type]) as -> by reflexivity.
  cbn [map_result]. by rewrite unnamed_child.
Qed.
Definition group_pool : LootPool := mk_LootPool (Some (Constant 1)) [Some group_entry] [] [] 1 true.
Lemma unnamed_pool : Pool_new items exists_ (pool_json type) = Ok group_pool.
Proof.
  unfold Pool_new.
  change (json_find "entries" (pool_json type)) with (Some (json_array [group_json type])).
  change (json_find "rolls" (pool_json type)) with (Some (json_number 1)). cbv iota beta.
  assert (createRoll (json_number 1) = Ok (Constant 1)) as -> by reflexivity. cbn [mbind result_bind map_result].
  rewrite unnamed_group. reflexivity.
Qed.
End Unnamed.

(** Types without a namespace.  A child of a group whose type has no namespace is a
    null; the table is valid all the same, and the first poll follows the null. *)
Theorem unnamed_child_crashes items exists_ random poll_table type s :
  split_colon type = None →
  ∃ t, LootTable_new items exists_ (group_table type) = Ok t ∧ table_validity t = true ∧
    LootTable_poll_pools random poll_table t s = (UB NullDereference, s).
Proof.
  intros Ht. exists (mk_LootTable [group_pool] EmptyString [] true). split; [|done].
  unfold LootTable_new. change (json_find "pools" (group_table type)) with (Some (json_array [pool_json type])).
  cbn [map_result]. by rewrite unnamed_pool.
Qed.
Lemma unnamed_child_crashes_witness :
  ∃ t, LootTable_new (λ _, 0) (λ _ _, false) (group_table "item") = Ok t ∧ table_validity t = true ∧
    LootTable_poll_pools sevens no_tables t (mk_Poll ∅ 0) = (UB NullDereference, mk_Poll ∅ 0).
Proof. apply (unnamed_child_crashes (λ _, 0) (λ _ _, false) sevens no_tables "item"). reflexivity. Defined.
