(* ===== verification/Recipes.v ===== *)
(** * Recipes (recipes/)

    A recipe is read from JSON by the creator of its type, and dropped when it is not
    valid.  Writing a recipe to the log is left out. *)

From S2P Require Import Prelude State Floats BlockStates Json.

(** ** Recipes *)

Record RecipeBase : Type := mk_RecipeBase { _category : option string; _group : option string }.

(** A cell of a pattern refers to the items of a key weakly: by the number of the
    vector, which may be gone.  The four kinds of cooking are alike. *)
Record ShapedRecipe : Type := mk_ShapedRecipe {
  _key : gmap Z (nat * list Z);
  _pattern : list (list (option nat));
  shaped_result : Z;
  shaped_count : Z;
  next_vector : nat
}.
Inductive RecipeContent : Type :=
| Cooking (ingredient result_ : Z) (experience : double) (cookingTime : Z)
| CraftingShaped (r : ShapedRecipe)
| CraftingShapeless (ingredients : list Z) (result_ count : Z)
| Smithing (base addition result_ : Z)
| StoneCutting (ingredient result_ count : Z).
Definition Recipe : Type := RecipeBase * RecipeContent.

Definition text_member (key : string) (j : json) : option string :=
  match json_find key j with Some (json_string s) => Some s | _ => None end.
Definition Recipe_new (recipe : json) : RecipeBase :=
  mk_RecipeBase (text_member "category" recipe) (text_member "group" recipe).

Section Creators.
Context (fromItemToProtocolId : string → Z).

(** [recipe[key]["item"]], an object with a text. *)
Definition item_member (key : string) (recipe : json) : option Z :=
  o ← json_find key recipe;
  if json_is_object o then fromItemToProtocolId <$> text_member "item" o else None.
Definition item_text (key : string) (recipe : json) : option Z := fromItemToProtocolId <$> text_member key recipe.
Definition unsigned_member (key : string) (j : json) : option Z :=
  match json_find key j with
  | Some (json_number n) => if decide (0 ≤ n) then Some (to_u64 n) else None
  | _ => None
  end.
Definition number_member (key : string) (j : json) : option double :=
  match json_find key j with
  | Some (json_number n) => Some (double_of_Z n)
  | Some (json_float f) => Some f
  | _ => None
  end.
(** The count of a result is one when there is none. *)
Definition result_count (recipe : json) : Z :=
  default 1 (o ← json_find "result" recipe; unsigned_member "count" o).

(** [Blasting], [CampfireCooking], [Smelting], [Smoking] *)
Definition Cooking_create (recipe : json) : option RecipeContent :=
  ingredient ← item_member "ingredient" recipe;
  result_ ← item_text "result" recipe;
  experience ← number_member "experience" recipe;
  cookingTime ← unsigned_member "cookingtime" recipe;
  Some (Cooking ingredient result_ experience cookingTime).
Definition Smithing_create (recipe : json) : option RecipeContent :=
  base ← item_member "base" recipe;
  addition ← item_member "addition" recipe;
  result_ ← item_member "result" recipe;
  Some (Smithing base addition result_).
Definition StoneCutting_create (recipe : json) : option RecipeContent :=
  ingredient ← item_member "ingredient" recipe;
  result_ ← item_text "result" recipe;
  count ← unsigned_member "count" recipe;
  Some (StoneCutting ingredient result_ count).

Fixpoint read_items (l : list json) : option (list Z) :=
  match l with
  | [] => Some []
  | j :: l =>
      if json_is_object j then
        s ← text_member "item" j; rest ← read_items l; Some (fromItemToProtocolId s :: rest)
      else None
  end.
Definition CraftingShapeless_create (recipe : json) : option RecipeContent :=
  match json_find "ingredients" recipe with
  | Some (json_array l) =>
      result_ ← item_member "result" recipe;
      ingredients ← read_items l;
      Some (CraftingShapeless ingredients result_ (result_count recipe))
  | _ => None
  end.

(** *** Shaped recipes *)

(** [getKey]: every use of a key makes its vector anew. *)
Definition getKey (key : Z) (content : json) (r : ShapedRecipe) : option ShapedRecipe :=
  items ← match content with
          | json_object _ => (λ s, [fromItemToProtocolId s]) <$> text_member "item" content
          | json_array l => read_items l
          | _ => None
          end;
  Some (mk_ShapedRecipe (<[key := (next_vector r, items)]> (_key r)) (_pattern r)
          (shaped_result r) (shaped_count r) (S (next_vector r))).

Definition push_cell (cell : option nat) (r : ShapedRecipe) : ShapedRecipe :=
  mk_ShapedRecipe (_key r)
    (match reverse (_pattern r) with [] => [] | line :: lines => reverse ((line ++ [cell]) :: lines) end)
    (shaped_result r) (shaped_count r) (next_vector r).
Definition push_line (r : ShapedRecipe) : ShapedRecipe :=
  mk_ShapedRecipe (_key r) (_pattern r ++ [[]]) (shaped_result r) (shaped_count r) (next_vector r).

(** The pointer to a character of the line is read as a text: the rest of the line, up
    to a zero. *)
Fixpoint c_string (bytes : list Z) : list Z :=
  match bytes with [] => [] | b :: bytes => if decide (b = 0) then [] else b :: c_string bytes end.
Fixpoint read_line (keys : json) (line : list Z) (r : ShapedRecipe) : option ShapedRecipe :=
  match line with
  | [] => Some r
  | c :: rest =>
      if decide (c = 32) then read_line keys rest (push_cell None r)
      else
        content ← json_find (string_of_bytes (c_string (c :: rest))) keys;
        r ← getKey c content r;
        read_line keys rest (push_cell (fst <$> _key r !! c) r)
  end.
Fixpoint read_pattern (keys : json) (lines : list json) (r : ShapedRecipe) : option ShapedRecipe :=
  match lines with
  | [] => Some r
  | json_string line :: lines =>
      r ← read_line keys (string_bytes line) (push_line r); read_pattern keys lines r
  | _ :: _ => None
  end.
Definition CraftingShaped_create (recipe : json) : option RecipeContent :=
  match json_find "pattern" recipe, json_find "key" recipe with
  | Some (json_array lines), Some (json_object keys) =>
      result_ ← item_member "result" recipe;
      CraftingShaped <$> read_pattern (json_object keys) lines (mk_ShapedRecipe ∅ [] result_ (result_count recipe) O)
  | _, _ => None
  end.

(** The items of a cell: those of the key that still has its vector. *)
Definition cell_items (r : ShapedRecipe) (n : nat) : option (list Z) :=
  match filter (λ v : nat * list Z, v.1 = n) ((map_to_list (_key r)).*2) with
  | v :: _ => Some v.2
  | [] => None
  end.

(** ** Types *)

(** The special types have no valid recipe. *)
Definition Creator : Type := json → option RecipeContent.
Definition Special_create : Creator := λ _, None.
Definition default_creators : list (string * Creator) := [
  ("blasting", Cooking_create); ("campfire_cooking", Cooking_create);
  ("crafting_shaped", CraftingShaped_create); ("crafting_shapeless", CraftingShapeless_create);
  ("smelting", Cooking_create); ("smithing", Smithing_create); ("smoking", Cooking_create);
  ("stonecutting", StoneCutting_create);
  ("crafting_special_armordye", Special_create); ("crafting_special_bannerduplicate", Special_create);
  ("crafting_special_bookcloning", Special_create); ("crafting_special_firework_rocket", Special_create);
  ("crafting_special_firework_star", Special_create); ("crafting_special_firework_star_fade", Special_create);
  ("crafting_special_mapcloning", Special_create); ("crafting_special_mapextending", Special_create);
  ("crafting_special_repairitem", Special_create); ("crafting_special_shielddecoration", Special_create);
  ("crafting_special_shulkerboxcoloring", Special_create);
  ("crafting_special_suspiciousstew", Special_create); ("crafting_special_tippedarrow", Special_create)]%string.
End Creators.

(** ** The recipes (Recipes.cpp) *)

Record Recipes : Type := mk_Recipes {
  _recipes : gmap string (gmap string Recipe);
  _recipeCreators : gmap string (gmap string Creator);
  _folderPaths : gmap string (list string)
}.

Definition Recipes_addRecipeCreator (_namespace type : string) (creator : Creator) (r : Recipes) : Recipes :=
  mk_Recipes (_recipes r)
    (<[_namespace := <[type := creator]> (default ∅ (_recipeCreators r !! _namespace))]> (_recipeCreators r))
    (_folderPaths r).

(** [substr(0, find(':'))] and [substr(find(':') + 1)]: both are the whole text when
    there is no colon. *)
Fixpoint before_colon (s : list Z) : option (list Z * list Z) :=
  match s with
  | [] => None
  | c :: s =>
      if decide (c = 58) then Some ([], s)
      else match before_colon s with Some (a, b) => Some (c :: a, b) | None => None end
  end.
Definition type_names (type : string) : string * string :=
  match before_colon (string_bytes type) with
  | Some (a, b) => (string_of_bytes a, string_of_bytes b)
  | None => (type, type)
  end.

(** One file of a folder: its name in the folder, and what it holds. *)
Definition load_recipe (_namespace name : string) (recipeContent : json) (r : Recipes) : result Recipes :=
  match text_member "type" recipeContent with
  | None => Ok r
  | Some type =>
      let creators := default ∅ (_recipeCreators r !! (type_names type).1) in
      match creators !! (type_names type).2 with
      | None => Throw UnknownRecipeType
      | Some creator =>
          let recipes := default ∅ (_recipes r !! _namespace) in
          let recipes := match creator recipeContent with
            | Some c => <[name := (Recipe_new recipeContent, c)]> recipes
            | None => delete name recipes
            end in
          Ok (mk_Recipes (<[_namespace := recipes]> (_recipes r)) (_recipeCreators r) (_folderPaths r))
      end
  end.
Fixpoint load_files (_namespace : string) (files : list (string * option json)) (r : Recipes) : result Recipes :=
  match files with
  | [] => Ok r
  | (name, None) :: _ => Throw nlohmann_exception
  | (name, Some j) :: files => r ← load_recipe _namespace name j r; load_files _namespace files r
  end.

(** The JSON files of a folder and of the folders in it. *)
Section Folders.
Context (files_of : string → list (string * option json)).

Definition loadFolder (_namespace folder : string) (r : Recipes) : result Recipes :=
  let paths := default [] (_folderPaths r !! _namespace) in
  load_files _namespace (files_of folder)
    (mk_Recipes (_recipes r) (_recipeCreators r) (<[_namespace := paths ++ [folder]]> (_folderPaths r))).

(** It returns before its first statement. *)
Definition Recipes_initialize (r : Recipes) : Recipes := r.
Definition Recipes_clear (r : Recipes) : Recipes := mk_Recipes ∅ (_recipeCreators r) (_folderPaths r).

(** [loadFolder] adds its folder to the list that is being gone through: after the
    first one the iterator is no longer valid. *)
Fixpoint reload_folders (l : list (string * list string)) (r : Recipes) : result Recipes :=
  match l with
  | [] => Ok r
  | (_, []) :: l => reload_folders l r
  | (_namespace, folder :: _) :: _ => r ← loadFolder _namespace folder r; UB InvalidRange
  end.
Definition Recipes_reload (r : Recipes) : result Recipes :=
  reload_folders (map_to_list (_folderPaths r)) (Recipes_clear r).
End Folders.

(** * What recipes are read

    Which shaped recipes are kept, and what their patterns refer to. *)

Section Shaped.
Context (items : string → Z).

Lemma c_string_two c d l : c ≠ 0 → d ≠ 0 → (2 ≤ length (c_string (c :: d :: l)))%nat.
Proof. intros Hc Hd. cbn. rewrite decide_False by done. cbn. rewrite decide_False by done. cbn. lia. Qed.
Lemma c_string_bytes l : Forall is_byte l → Forall is_byte (c_string l).
Proof. induction 1; cbn; [done|]. case_decide; by constructor. Qed.

(** A text of two bytes is no key of one. *)
Lemma find_one_byte keys l : Forall is_byte l → (2 ≤ length l)%nat →
  (∀ k v, (k, v) ∈ keys → length (string_bytes k) = 1%nat) → json_find (string_of_bytes l) (json_object keys) = None.
Proof.
  intros Hb Hl Hk. simpl. induction keys as [|[k v] keys IH]; [done|]. simpl.
  rewrite decide_False; [apply IH; intros; eapply Hk; by right|].
  intros ->. specialize (Hk _ v ltac:(by left)). rewrite string_bytes_of in Hk by done. lia.
Qed.

Lemma read_line_wide keys line r l1 c d l2 :
  (∀ k v, (k, v) ∈ keys → length (string_bytes k) = 1%nat) →
  Forall is_byte line → line = l1 ++ c :: d :: l2 → c ≠ 32 → c ≠ 0 → d ≠ 0 →
  read_line items (json_object keys) line r = None.
Proof.
  intros Hk. revert r l1; induction line as [|b line IH]; intros r l1 Hb Hl Hc Hc0 Hd; [by destruct l1|].
  cbn [read_line]. destruct l1 as [|b' l1]; cbn [app] in Hl; simplify_eq.
  - rewrite decide_False by done. rewrite find_one_byte; [done| | |done].
    + by apply c_string_bytes.
    + by apply c_string_two.
  - apply Forall_cons_1 in Hb as [_ Hb].
    case_decide; [by eapply IH|].
    destruct (json_find _ _); [|done]. cbn [mbind option_bind]. destruct (getKey _ _ _ _); [|done]. by eapply IH.
Qed.

Lemma read_pattern_wide keys lines line r :
  json_string line ∈ lines → (∀ r, read_line items keys (string_bytes line) r = None) →
  read_pattern items keys lines r = None.
Proof.
  intros Hin Hl. revert r; induction lines as [|j lines IH]; intros r; [by apply not_elem_of_nil in Hin|].
  apply elem_of_cons in Hin as [<-|Hin]; cbn [read_pattern]; [by rewrite Hl|].
  destruct j; try done. destruct (read_line _ _ _ _); [|done]. cbn. by apply IH.
Qed.

(** Shaped recipes.  When the keys are single characters, as the format says, a
    recipe with a line in which a character that is not a space is followed by another
    one is dropped: the key that is looked for is the rest of the line.  Only recipes
    of one column are kept. *)
Theorem wide_recipe_dropped recipe keys lines line l1 c d l2 :
  json_find "key" recipe = Some (json_object keys) →
  (∀ k v, (k, v) ∈ keys → length (string_bytes k) = 1%nat) →
  json_find "pattern" recipe = Some (json_array lines) →
  json_string line ∈ lines →
  string_bytes line = l1 ++ c :: d :: l2 → c ≠ 32 → c ≠ 0 → d ≠ 0 →
  CraftingShaped_create items recipe = None.
Proof.
  intros Hkey Hk Hp Hin Hl Hc Hc0 Hd. unfold CraftingShaped_create. rewrite Hp, Hkey.
  destruct (item_member items "result" recipe); [|done]. cbn.
  rewrite (read_pattern_wide _ _ line); [done|done|]. intros r.
  eapply read_line_wide; [done|apply string_bytes_is_byte|done..].
Qed.
End Shaped.

(** ** Examples *)

Definition item_json (name : string) : json := json_object [("item"%string, json_string name)].
Definition shaped_json (lines : list string) : json := json_object [
  ("key", json_object [("#", item_json "minecraft:oak_planks")]);
  ("pattern", json_array (json_string <$> lines));
  ("result", item_json "minecraft:crafting_table")]%string.
Definition five : string → Z := λ _, 5.

Lemma wide_recipe_dropped_witness : CraftingShaped_create five (shaped_json ["##"; "##"]%string) = None.
Proof.
  apply (wide_recipe_dropped five _ [("#", item_json "minecraft:oak_planks")]%string
    [json_string "##"; json_string "##"]%string "##"%string [] 35 35 []); try reflexivity; try discriminate.
  - intros k v Hkv%list.list_elem_of_singleton. by simplify_eq.
  - by left.
Defined.

(** A column is kept; the first cell of a key that is used twice has lost its items. *)
Example column_kept : ∃ r, CraftingShaped_create five (shaped_json ["#"; "#"]%string) = Some (CraftingShaped r) ∧
  _pattern r = [[Some 0%nat]; [Some 1%nat]] ∧ cell_items r 0 = None ∧ cell_items r 1 = Some [5].
Proof. eexists. split; [reflexivity|]. vm_compute. done. Qed.
