(* ===== verification/Message.v ===== *)
(** * Chat messages (chat/Message.hpp, chat/Message.cpp, chat/events/,
      chat/translationFromKey.cpp)

    A message is a text with a style, options, siblings and two events, and goes
    to the clients as JSON. *)

From S2P Require Import Prelude Json.

(** ** Messages *)

Record Style : Type := mk_Style {
  bold : option bool;
  italic : option bool;
  underlined : option bool;
  strikethrough : option bool;
  obfuscated : option bool;
  font : option string;
  color : option string
}.
Definition Style_default : Style := mk_Style None None None None None None None.

(** The subclasses of [OnClick], which differ in the name of the action. *)
Inductive OnClick : Type :=
| OpenUrlClick (url : string)
| RunCommandClick (command : string)
| SuggestCommandClick (command : string)
| ChangePageClick (page : string)
| CopyToClipboardClick (text : string).

(** The text, the style, the options ([insertion], [translate], [with]), the
    siblings and the events; and the subclasses of [OnHover]. *)
Inductive Message : Type :=
| mk_Message (message : string) (style : Style) (insertion translate : option string)
    (with_ extra : list Message) (clickEvent : option OnClick) (hoverEvent : option OnHover)
with OnHover : Type :=
| EntityHover
| ItemHover (item : string)
| TextHover (messages : list Message).

(** [Message(text)] *)
Definition Message_text (message : string) : Message :=
  mk_Message message Style_default None None [] [] None None.

(** ** Writing *)

Definition click_json (action value : string) : json :=
  json_set "value" (json_string value) (json_set "action" (json_string action) json_null).

Definition OnClick_toJson (e : OnClick) : json :=
  match e with
  | OpenUrlClick url => click_json "open_url" url
  | RunCommandClick command => click_json "run_command" command
  | SuggestCommandClick command => click_json "suggest_command" command
  | ChangePageClick page => click_json "change_page" page
  | CopyToClipboardClick text => click_json "copy_to_clipboard" text
  end.

Definition hover_json (action : string) (contents : json) : json :=
  json_set "contents" contents (json_set "action" (json_string action) json_null).

Definition Style_toJson (s : Style) (j : json) : json :=
  let j := json_set_if "bold" (json_bool <$> bold s) j in
  let j := json_set_if "italic" (json_bool <$> italic s) j in
  let j := json_set_if "underlined" (json_bool <$> underlined s) j in
  let j := json_set_if "strikethrough" (json_bool <$> strikethrough s) j in
  let j := json_set_if "obfuscated" (json_bool <$> obfuscated s) j in
  let j := json_set_if "font" (json_string <$> font s) j in
  json_set_if "color" (json_string <$> color s) j.

(** An array of messages, when there are any. *)
Definition array_if (l : list json) : option json :=
  match l with [] => None | l => Some (json_array l) end.

Fixpoint Message_toJson (m : Message) : json :=
  match m with
  | mk_Message message style insertion translate with_ extra clickEvent hoverEvent =>
      let j := json_set_if "text"
        (if decide (message = EmptyString) then None else Some (json_string message)) json_null in
      let j := Style_toJson style j in
      let j := json_set_if "insertion" (json_string <$> insertion) j in
      let j := json_set_if "translate" (json_string <$> translate) j in
      let j := json_set_if "with" (array_if (map Message_toJson with_)) j in
      let j := json_set_if "extra" (array_if (map Message_toJson extra)) j in
      let j := json_set_if "clickEvent" (OnClick_toJson <$> clickEvent) j in
      json_set_if "hoverEvent"
        (match hoverEvent with Some e => Some (OnHover_toJson e) | None => None end) j
  end
with OnHover_toJson (e : OnHover) : json :=
  match e with
  | EntityHover => hover_json "show_entity"
      (json_set "id" (json_string "00000000-0000-0000-0000-000000000000")
        (json_set "type" (json_string "minecraft:player") (json_object [])))
  | ItemHover item => hover_json "show_item" (json_set "id" (json_string item) (json_object []))
  | TextHover messages => hover_json "show_text" (json_array (map Message_toJson messages))
  end.

Definition serialize_message `{JsonLib} (m : Message) : result string :=
  match json_dump (Message_toJson m) with Some s => Ok s | None => Throw nlohmann_exception end.

(** ** Reading *)

(** [if (json.contains(key)) ... = json[key].get<A>()] *)
Definition optional_member {A} (get : json → result A) (key : string) (j : json) : result (option A) :=
  if json_contains key j then v ← json_index key j; Some <$> get v else Ok None.

Definition OnClick_fromJson (j : json) : result OnClick :=
  a ← json_index "action" j; action ← json_get_string a;
  let value (f : string → OnClick) : result OnClick :=
    v ← json_index "value" j; f <$> json_get_string v in
  if decide (action = "open_url") then value OpenUrlClick
  else if decide (action = "run_command") then value RunCommandClick
  else if decide (action = "suggest_command") then value SuggestCommandClick
  else if decide (action = "change_page") then value ChangePageClick
  else if decide (action = "copy_to_clipboard") then value CopyToClipboardClick
  else Throw std_runtime_error.

Definition Style_fromJson (j : json) : result Style :=
  b ← optional_member json_get_bool "bold" j;
  i ← optional_member json_get_bool "italic" j;
  u ← optional_member json_get_bool "underlined" j;
  s ← optional_member json_get_bool "strikethrough" j;
  o ← optional_member json_get_bool "obfuscated" j;
  f ← optional_member json_get_string "font" j;
  c ← optional_member json_get_string "color" j;
  Ok (mk_Style b i u s o f c).

(** [catch (const nlohmann::json::exception &)] *)
Definition catch_json {A} (r : result A) : result A :=
  match r with
  | Throw e => if decide (e = nlohmann_exception) then Throw std_runtime_error else Throw e
  | r => r
  end.

(** A [TextHover] that is made without arguments holds one message, the default
    argument of its constructor; those of the value are added to it. *)
Definition OnHover_fromJson (fromJson : json → result Message) (j : json) : result OnHover :=
  a ← json_index "action" j; action ← json_get_string a;
  if decide (action = "show_text") then
    contents ← json_index "contents" j;
    let l := match contents with json_array l => l | contents => [contents] end in
    messages ← map_result fromJson l; Ok (TextHover (Message_text EmptyString :: messages))
  else if decide (action = "show_item") then
    contents ← json_index "contents" j; id ← json_index "id" contents;
    ItemHover <$> json_get_string id
  else if decide (action = "show_entity") then Ok EntityHover
  else Throw std_runtime_error.

Fixpoint Message_fromJson_fuel (fuel : nat) (j : json) : result Message :=
  match fuel with
  | O => OutOfFuel
  | S fuel => catch_json (
      t ← json_index "text" j; text ← json_get_string t;
      style ← Style_fromJson j;
      insertion ← optional_member json_get_string "insertion" j;
      translate ← optional_member json_get_string "translate" j;
      with_ ← optional_member (λ v, map_result (Message_fromJson_fuel fuel) (json_elements v)) "with" j;
      extra ← optional_member (λ v, map_result (Message_fromJson_fuel fuel) (json_elements v)) "extra" j;
      clickEvent ← optional_member OnClick_fromJson "clickEvent" j;
      hoverEvent ← optional_member (OnHover_fromJson (Message_fromJson_fuel fuel)) "hoverEvent" j;
      Ok (mk_Message text style insertion translate (default [] with_) (default [] extra)
            clickEvent hoverEvent))
  end.
Definition Message_fromJson (j : json) : result Message := Message_fromJson_fuel (json_depth j) j.

Definition Message_deserialize `{JsonLib} (message : string) : result Message :=
  match json_parse message with Some j => Message_fromJson j | None => Throw nlohmann_exception end.

(** ** Messages of the server *)

Definition with_clickEvent (e : OnClick) (m : Message) : Message :=
  match m with mk_Message t s i tr w x _ h => mk_Message t s i tr w x (Some e) h end.
Definition with_hoverEvent (e : OnHover) (m : Message) : Message :=
  match m with mk_Message t s i tr w x c _ => mk_Message t s i tr w x c (Some e) end.
Definition with_color (c : string) (m : Message) : Message :=
  match m with
  | mk_Message t s i tr w x ck h =>
      mk_Message t (mk_Style (bold s) (italic s) (underlined s) (strikethrough s) (obfuscated s)
        (font s) (Some c)) i tr w x ck h
  end.
Definition with_translate (key : string) (args : list Message) (m : Message) : Message :=
  match m with mk_Message t s i _ _ x c h => mk_Message t s i (Some key) args x c h end.

(** The name of a player, which suggests a command and shows an entity. *)
Definition sender_message (username : string) : Message :=
  with_hoverEvent EntityHover
    (with_clickEvent (SuggestCommandClick (String.append "/tell " (String.append username " ")))
       (Message_text username)).

(** [userName.style().color = "gold"] for one player *)
Definition gold_name (username : string) (m : Message) : Message :=
  if decide (username = "STMiki") then with_color "gold" m else m.

Definition MultiplayerPlayerJoined (username : string) : Message :=
  with_translate "multiplayer.player.joined" [gold_name username (sender_message username)]
    (with_color "yellow" (Message_text EmptyString)).
Definition MultiplayerPlayerLeft (username : string) : Message :=
  with_translate "multiplayer.player.left" [gold_name username (sender_message username)]
    (with_color "yellow" (Message_text EmptyString)).
Definition CommandsMessageDisplayIncoming (username : string) (message : Message) : Message :=
  with_translate "commands.message.display.incoming" [sender_message username; message] (Message_text EmptyString).
Definition CommandsMessageDisplayOutgoing (username : string) (message : Message) : Message :=
  with_translate "commands.message.display.outgoing" [sender_message username; message] (Message_text EmptyString).
Definition ChatTypeAnnouncement (username : string) (message : Message) : Message :=
  with_translate "chat.type.announcement" [sender_message username; message] (Message_text EmptyString).
Definition ChatTypeTeamText (username : string) (message : Message) : Message :=
  with_translate "chat.type.team.text"
    [Message_text "TEAM CUCK"; sender_message username; message] (Message_text EmptyString).
Definition ChatTypeTeamSent (username : string) (message : Message) : Message :=
  with_translate "chat.type.team.sent"
    [Message_text "TEAM CUCK"; sender_message username; message] (Message_text EmptyString).
