(* ===== verification/MessageProps.v ===== *)
(** * Chat messages are read back (theorems)

    What reading makes of the JSON of a message. *)

From S2P Require Import Prelude Json Message.

(** ** Members *)

Lemma members_find_set_eq key v l : members_find key (members_set key v l) = Some v.
Proof.
  induction l as [|[k w] l IH]; cbn.
  - by rewrite decide_True.
  - case_decide as Hk; [cbn; by rewrite decide_True|].
    destruct (String.ltb key k); cbn; [by rewrite decide_True|by rewrite decide_False].
Qed.

Lemma members_find_set_ne key key' v l :
  key ≠ key' → members_find key (members_set key' v l) = members_find key l.
Proof.
  intros Hne. induction l as [|[k w] l IH]; cbn.
  - by rewrite decide_False.
  - case_decide as Hk; subst; [cbn; by rewrite !(decide_False (P := key' = key))|].
    destruct (String.ltb key' k); cbn; [by rewrite (decide_False (P := key' = key))|].
    case_decide; [done|exact IH].
Qed.

(** The members of a value that an object is built on. *)
Definition members (j : json) : list (string * json) := match j with json_object l => l | _ => [] end.
Definition plain (j : json) : Prop := j = json_null ∨ ∃ l, j = json_object l.

Lemma find_set key key' v j :
  plain j → members_find key (members (json_set key' v j)) =
    if String.eqb key key' then Some v else members_find key (members j).
Proof.
  intros [->|[l ->]]; cbn.
  - destruct (String.eqb_spec key key') as [->|]; [by rewrite decide_True|by rewrite decide_False by congruence].
  - destruct (String.eqb_spec key key') as [->|]; [apply members_find_set_eq|by apply members_find_set_ne].
Qed.

Lemma plain_set key v j : plain j → plain (json_set key v j).
Proof. intros [->|[l ->]]; right; cbn; eauto. Qed.
Lemma plain_set_if key v j : plain j → plain (json_set_if key v j).
Proof. destruct v; [apply plain_set|done]. Qed.

Lemma find_set_if_ne key key' v j :
  String.eqb key key' = false → plain j →
  members_find key (members (json_set_if key' v j)) = members_find key (members j).
Proof. intros E Hj. destruct v; [|done]. cbn. by rewrite find_set, E. Qed.

Lemma find_set_if_eq key v j :
  plain j → members_find key (members j) = None →
  members_find key (members (json_set_if key v j)) = v.
Proof. intros Hj E. destruct v; [|done]. cbn. by rewrite find_set, String.eqb_refl. Qed.

(** ** Reading members *)

Definition is_object (j : json) : Prop := ∃ l, j = json_object l.

Lemma set_object key v j : plain j → is_object (json_set key v j).
Proof. intros [->|[l ->]]; cbn; eexists; done. Qed.

Lemma object_set_if key v j : is_object j → is_object (json_set_if key v j).
Proof. intros [l ->]. destruct v; cbn; by eexists. Qed.

Lemma index_find key j :
  is_object j →
  json_index key j = match members_find key (members j) with Some v => Ok v | None => UB FailedAssertion end.
Proof. by intros [l ->]. Qed.

Lemma optional_find {A} (get : json → result A) key j :
  is_object j →
  optional_member get key j =
    match members_find key (members j) with Some v => Some <$> get v | None => Ok None end.
Proof.
  intros [l ->]. unfold optional_member. cbn. by destruct (members_find key l).
Qed.

(** ** The members of a message *)

Create HintDb plain.
#[export] Hint Resolve plain_set_if plain_set : plain.
#[export] Hint Extern 0 (plain json_null) => by left : plain.

(** Looks a key up in what the setters built. *)
Ltac member_of :=
  cbn [Message_toJson]; unfold Style_toJson;
  repeat (rewrite find_set_if_ne; [|reflexivity|solve [eauto 20 with plain]]);
  try (rewrite find_set_if_eq; [done|solve [eauto 20 with plain]|]);
  repeat (rewrite find_set_if_ne; [|reflexivity|solve [eauto 20 with plain]]); try reflexivity.

Definition text_member (message : string) : option json :=
  if decide (message = EmptyString) then None else Some (json_string message).

Section Members.
Context (message : string) (s : Style) (insertion translate : option string)
  (with_ extra : list Message) (clickEvent : option OnClick) (hoverEvent : option OnHover).
Let j := Message_toJson (mk_Message message s insertion translate with_ extra clickEvent hoverEvent).

Lemma message_object : message ≠ EmptyString → is_object j.
Proof.
  intros Hm. subst j. cbn [Message_toJson]. unfold Style_toJson. rewrite decide_False by done.
  do 13 apply object_set_if. cbn. by eexists.
Qed.

Lemma find_text : members_find "text" (members j) = text_member message.
Proof. subst j. member_of. Qed.
Lemma find_bold : members_find "bold" (members j) = json_bool <$> bold s.
Proof. subst j. member_of. Qed.
Lemma find_italic : members_find "italic" (members j) = json_bool <$> italic s.
Proof. subst j. member_of. Qed.
Lemma find_underlined : members_find "underlined" (members j) = json_bool <$> underlined s.
Proof. subst j. member_of. Qed.
Lemma find_strikethrough : members_find "strikethrough" (members j) = json_bool <$> strikethrough s.
Proof. subst j. member_of. Qed.
Lemma find_obfuscated : members_find "obfuscated" (members j) = json_bool <$> obfuscated s.
Proof. subst j. member_of. Qed.
Lemma find_font : members_find "font" (members j) = json_string <$> font s.
Proof. subst j. member_of. Qed.
Lemma find_color : members_find "color" (members j) = json_string <$> color s.
Proof. subst j. member_of. Qed.
Lemma find_insertion : members_find "insertion" (members j) = json_string <$> insertion.
Proof. subst j. member_of. Qed.
Lemma find_translate : members_find "translate" (members j) = json_string <$> translate.
Proof. subst j. member_of. Qed.
Lemma find_with : members_find "with" (members j) = array_if (map Message_toJson with_).
Proof. subst j. member_of. Qed.
Lemma find_extra : members_find "extra" (members j) = array_if (map Message_toJson extra).
Proof. subst j. member_of. Qed.
Lemma find_click : members_find "clickEvent" (members j) = OnClick_toJson <$> clickEvent.
Proof. subst j. member_of. Qed.
Lemma find_hover : members_find "hoverEvent" (members j) = OnHover_toJson <$> hoverEvent.
Proof. subst j. member_of. Qed.
End Members.


Lemma optional_fmap {A} (get : json → result A) (put : A → json) key j v :
  (∀ a, get (put a) = Ok a) → is_object j → members_find key (members j) = put <$> v →
  optional_member get key j = Ok v.
Proof. intros Hget Hj Hf. rewrite optional_find, Hf by done. destruct v; [cbn; by rewrite Hget|done]. Qed.

Lemma Style_roundtrip message s insertion translate with_ extra clickEvent hoverEvent :
  message ≠ EmptyString →
  Style_fromJson (Message_toJson (mk_Message message s insertion translate with_ extra clickEvent hoverEvent)) = Ok s.
Proof.
  intros Hm. unfold Style_fromJson.
  do 5 (erewrite (optional_fmap _ json_bool);
    [cbn [mbind result_bind]|done|by apply message_object|by first
      [apply find_bold | apply find_italic | apply find_underlined | apply find_strikethrough | apply find_obfuscated]]).
  do 2 (erewrite (optional_fmap _ json_string);
    [cbn [mbind result_bind]|done|by apply message_object|by first [apply find_font | apply find_color]]).
  by destruct s.
Qed.

Lemma OnClick_roundtrip e : OnClick_fromJson (OnClick_toJson e) = Ok e.
Proof. by destruct e. Qed.

(** ** Messages that have a text, and what reading gives *)

Fixpoint has_text (m : Message) : bool :=
  match m with
  | mk_Message message _ _ _ with_ extra _ hoverEvent =>
      negb (bool_decide (message = EmptyString)) && forallb has_text with_ && forallb has_text extra &&
      match hoverEvent with Some (TextHover l) => forallb has_text l | _ => true end
  end.

(** The messages of a hover event come after an empty one. *)
Fixpoint reread (m : Message) : Message :=
  match m with
  | mk_Message message s insertion translate with_ extra clickEvent hoverEvent =>
      mk_Message message s insertion translate (map reread with_) (map reread extra) clickEvent
        (match hoverEvent with
         | Some (TextHover l) => Some (TextHover (Message_text EmptyString :: map reread l))
         | e => e
         end)
  end.

(** ** Fuel *)

Lemma depth_member key v j :
  is_object j → members_find key (members j) = Some v → (json_depth v < json_depth j)%nat.
Proof. intros [l ->] Hf. cbn in *. apply depth_find in Hf. lia. Qed.

Lemma map_result_Forall {A B} (f : A → result B) (g : A → B) l :
  (∀ x, x ∈ l → f x = Ok (g x)) → map_result f l = Ok (map g l).
Proof.
  induction l as [|x l IH]; intros Hl; [done|]. cbn.
  rewrite Hl by (by left). cbn. rewrite IH by (intros; apply Hl; by right). done.
Qed.

Lemma forallb_in {A} (p : A → bool) l x : forallb p l = true → x ∈ l → p x = true.
Proof. rewrite forallb_forall. setoid_rewrite list_elem_of_In. auto. Qed.

(** A list of messages in an array. *)
Lemma messages_roundtrip fuel (l : list Message) :
  (∀ m, m ∈ l → has_text m = true → (json_depth (Message_toJson m) ≤ fuel)%nat →
    Message_fromJson_fuel fuel (Message_toJson m) = Ok (reread m)) →
  forallb has_text l = true → (json_depth (json_array (map Message_toJson l)) ≤ S fuel)%nat →
  map_result (Message_fromJson_fuel fuel) (map Message_toJson l) = Ok (map reread l).
Proof.
  intros IH Ht Hd. induction l as [|m l IHl]; [done|]. cbn in Hd, Ht |- *.
  apply andb_prop in Ht as [Ht Hts]. rewrite IH by (by left || done || lia). cbn.
  rewrite IHl; [done| |done|cbn; lia]. intros m' Hm'. apply IH. by right.
Qed.

Lemma array_if_roundtrip fuel key (l : list Message) j :
  is_object j → members_find key (members j) = array_if (map Message_toJson l) →
  (∀ m, m ∈ l → has_text m = true → (json_depth (Message_toJson m) ≤ fuel)%nat →
    Message_fromJson_fuel fuel (Message_toJson m) = Ok (reread m)) →
  forallb has_text l = true → (json_depth j ≤ S fuel)%nat →
  default [] <$> optional_member (λ v, map_result (Message_fromJson_fuel fuel) (json_elements v)) key j =
    Ok (map reread l).
Proof.
  intros Hj Hf IH Ht Hd. rewrite optional_find, Hf by done. destruct l as [|m l]; [done|].
  cbn [array_if map json_elements]. fold (map Message_toJson (m :: l)).
  pose proof (depth_member key _ j Hj Hf) as Hdep.
  change (Message_toJson m :: map Message_toJson l) with (map Message_toJson (m :: l)) in *.
  rewrite (messages_roundtrip fuel (m :: l)) by (done || lia). done.
Qed.

Lemma OnHover_roundtrip fuel e :
  (∀ m, has_text m = true → (json_depth (Message_toJson m) ≤ fuel)%nat →
    Message_fromJson_fuel fuel (Message_toJson m) = Ok (reread m)) →
  match e with TextHover l => forallb has_text l | _ => true end = true →
  (json_depth (OnHover_toJson e) ≤ S (S fuel))%nat →
  OnHover_fromJson (Message_fromJson_fuel fuel) (OnHover_toJson e) =
    Ok (match e with TextHover l => TextHover (Message_text EmptyString :: map reread l) | e => e end).
Proof.
  intros IH Ht Hd. destruct e as [|item|l]; [done..|].
  assert (map_result (Message_fromJson_fuel fuel) (map Message_toJson l) = Ok (map reread l)) as E.
  { apply messages_roundtrip; [auto|done|]. revert Hd.
    change (OnHover_toJson (TextHover l)) with (hover_json "show_text" (json_array (map Message_toJson l))).
    generalize (json_array (map Message_toJson l)). intros j.
    change (hover_json "show_text" j) with
      (json_object [("action", json_string "show_text"); ("contents", j)]). cbn. lia. }
  change (OnHover_toJson (TextHover l)) with (hover_json "show_text" (json_array (map Message_toJson l))).
  revert E. generalize (map Message_toJson l). intros k E. unfold OnHover_fromJson.
  assert (json_index "action" (hover_json "show_text" (json_array k)) = Ok (json_string "show_text")) as -> by done.
  cbn [mbind result_bind json_get_string]. rewrite decide_True by done.
  assert (json_index "contents" (hover_json "show_text" (json_array k)) = Ok (json_array k)) as -> by done.
  cbn [mbind result_bind]. by rewrite E.
Qed.

Lemma roundtrip_fuel : ∀ fuel m,
  has_text m = true → (json_depth (Message_toJson m) ≤ fuel)%nat →
  Message_fromJson_fuel fuel (Message_toJson m) = Ok (reread m).
Proof.
  induction fuel as [|fuel IH]; intros m Ht Hd.
  { destruct (Message_toJson m); cbn in Hd; lia. }
  destruct m as [message s insertion translate with_ extra clickEvent hoverEvent].
  cbn [has_text] in Ht. apply andb_prop in Ht as [Ht Hh]. apply andb_prop in Ht as [Ht Hx].
  apply andb_prop in Ht as [Hm Hw]. apply negb_true_iff, bool_decide_eq_false in Hm.
  pose proof (message_object message s insertion translate with_ extra clickEvent hoverEvent Hm) as Hj.
  pose proof (find_text message s insertion translate with_ extra clickEvent hoverEvent) as Etext.
  pose proof (Style_roundtrip message s insertion translate with_ extra clickEvent hoverEvent Hm) as Es.
  pose proof (find_insertion message s insertion translate with_ extra clickEvent hoverEvent) as Ei.
  pose proof (find_translate message s insertion translate with_ extra clickEvent hoverEvent) as Etr.
  pose proof (find_with message s insertion translate with_ extra clickEvent hoverEvent) as Ew.
  pose proof (find_extra message s insertion translate with_ extra clickEvent hoverEvent) as Ex.
  pose proof (find_click message s insertion translate with_ extra clickEvent hoverEvent) as Ec.
  pose proof (find_hover message s insertion translate with_ extra clickEvent hoverEvent) as Eh.
  set (j := Message_toJson _) in *. clearbody j. cbv zeta in *.
  cbn [Message_fromJson_fuel reread].
  rewrite index_find, Etext by done. unfold text_member. rewrite decide_False by done.
  cbn [mbind result_bind json_get_string]. rewrite Es. cbn [mbind result_bind].
  rewrite (optional_fmap _ json_string "insertion" _ insertion) by done. cbn [mbind result_bind].
  rewrite (optional_fmap _ json_string "translate" _ translate) by done. cbn [mbind result_bind].
  assert (default [] <$> optional_member _ "with" j = Ok (map reread with_)) as Rw by
    (eapply array_if_roundtrip; eauto; lia).
  assert (default [] <$> optional_member _ "extra" j = Ok (map reread extra)) as Rx by
    (eapply array_if_roundtrip; eauto; lia).
  destruct (optional_member _ "with" j) as [w| | |]; try discriminate Rw. injection Rw as Rw.
  cbn [mbind result_bind].
  destruct (optional_member _ "extra" j) as [x| | |]; try discriminate Rx. injection Rx as Rx.
  cbn [mbind result_bind].
  rewrite (optional_fmap _ OnClick_toJson "clickEvent" _ clickEvent) by (done || apply OnClick_roundtrip).
  cbn [mbind result_bind]. rewrite optional_find, Eh by done.
  rewrite Rw, Rx.
  destruct hoverEvent as [e|]; [|done].
  pose proof (depth_member "hoverEvent" (OnHover_toJson e) j Hj Eh).
  cbn [fmap option_fmap option_map]. rewrite (OnHover_roundtrip fuel e); [by destruct e|auto|by destruct e|lia].
Qed.

(** C21: A message every part of which has a text is read back from its JSON, with
    one difference: a hover event that shows messages comes back with an empty
    message in front, which the default argument of its constructor puts there. *)
Theorem Message_roundtrip (m : Message) :
  has_text m = true → Message_fromJson (Message_toJson m) = Ok (reread m).
Proof. intros Ht. by apply roundtrip_fuel. Qed.

(** A message with a translation key has no text: reading what the server writes
    when a player joins looks for a member that is not there. *)
Theorem joined_not_read_back (username : string) :
  Message_fromJson (Message_toJson (MultiplayerPlayerJoined username)) = UB FailedAssertion.
Proof. unfold MultiplayerPlayerJoined, gold_name. by case_decide. Qed.

Definition hover_example : Message :=
  with_hoverEvent (TextHover [Message_text "help"])
    (with_clickEvent (RunCommandClick "/help") (with_color "red" (Message_text "?"))).

Lemma Message_roundtrip_witness :
  has_text hover_example = true ∧
  Message_fromJson (Message_toJson hover_example) = Ok (reread hover_example) ∧
  reread hover_example ≠ hover_example.
Proof. split; [done|]. split; [by apply (Message_roundtrip hover_example)|done]. Defined.

(** ** The fuel is enough for any value *)

Lemma in_fuel_optional {A} (get : json → result A) key j :
  (∀ v, json_index key j = Ok v → in_fuel (get v) = true) →
  in_fuel (optional_member get key j) = true.
Proof.
  intros Hg. unfold optional_member. destruct (json_contains key j); [|done].
  apply bind_in_fuel; [apply in_fuel_index|]. intros v Hv. rewrite in_fuel_fmap. auto.
Qed.

Lemma in_fuel_click j : in_fuel (OnClick_fromJson j) = true.
Proof.
  unfold OnClick_fromJson. do 2 (apply bind_in_fuel; [auto with in_fuel|intros ? _]).
  repeat case_decide; try done; (apply bind_in_fuel; [auto with in_fuel|intros ? _]);
    rewrite in_fuel_fmap; auto with in_fuel.
Qed.

Lemma in_fuel_hover f j :
  (∀ v, (json_depth v < json_depth j)%nat → in_fuel (f v) = true) → in_fuel (OnHover_fromJson f j) = true.
Proof.
  intros Hf. unfold OnHover_fromJson. do 2 (apply bind_in_fuel; [auto with in_fuel|intros ? _]).
  repeat case_decide; try done.
  - apply bind_in_fuel; [auto with in_fuel|]. intros contents Hc. apply depth_index in Hc.
    apply bind_in_fuel; [|done]. apply in_fuel_map_result. intros v Hv. apply Hf.
    enough (json_depth v ≤ json_depth contents)%nat by lia.
    destruct contents; try (apply list_elem_of_singleton in Hv as ->; done).
    by apply (depth_elements (json_array l)).
  - do 2 (apply bind_in_fuel; [auto with in_fuel|intros ? _]). rewrite in_fuel_fmap. auto with in_fuel.
Qed.

Lemma in_fuel_catch {A} (r : result A) : in_fuel r = true → in_fuel (catch_json r) = true.
Proof. destruct r; try done. cbn. by case_decide. Qed.

Lemma Message_fromJson_in_fuel : ∀ fuel j,
  (json_depth j ≤ fuel)%nat → in_fuel (Message_fromJson_fuel fuel j) = true.
Proof.
  induction fuel as [|fuel IH]; intros j Hd; [destruct j; cbn in Hd; lia|]. cbn [Message_fromJson_fuel].
  apply in_fuel_catch. do 2 (apply bind_in_fuel; [auto with in_fuel|intros ? _]).
  apply bind_in_fuel.
  { unfold Style_fromJson.
    repeat (apply bind_in_fuel; [apply in_fuel_optional; auto with in_fuel|intros ? _]). done. }
  intros ? _. do 2 (apply bind_in_fuel; [apply in_fuel_optional; auto with in_fuel|intros ? _]).
  assert (∀ key, in_fuel (optional_member
    (λ v, map_result (Message_fromJson_fuel fuel) (json_elements v)) key j) = true) as Hl.
  { intros key. apply in_fuel_optional. intros v Hv%depth_index. apply in_fuel_map_result.
    intros w Hw%depth_elements. apply IH. lia. }
  do 2 (apply bind_in_fuel; [apply Hl|intros ? _]).
  apply bind_in_fuel; [apply in_fuel_optional; intros; apply in_fuel_click|intros ? _].
  apply bind_in_fuel; [|done]. apply in_fuel_optional. intros v Hv%depth_index.
  apply in_fuel_hover. intros w Hw. apply IH. lia.
Qed.

(** Reading ends, whatever the value. *)
Theorem Message_fromJson_total (j : json) : in_fuel (Message_fromJson j) = true.
Proof. by apply Message_fromJson_in_fuel. Qed.
