(* ===== verification/Whitelist.v ===== *)
(** * The whitelist (whitelist/Whitelist.hpp, whitelist/Whitelist.cpp)

    The whitelist is the JSON array of its file.  Reading and writing of the file
    are not modelled: a method that writes returns the value it writes. *)

From S2P Require Import Prelude Types Codec Json.

(** ** The text of an identifier *)

(** [<< std::hex << v]: no more digits than the value needs. *)
Fixpoint strip_zeros (s : list Z) : list Z :=
  match s with
  | 48 :: ((_ :: _) as s') => strip_zeros s'
  | s => s
  end.
Definition hex_min (v : Z) : list Z := strip_zeros (hex_fixed 16 v).

(** [str.insert(pos, "-")] *)
Definition insert_at (pos : nat) (s : list Z) : result (list Z) :=
  if decide (pos ≤ length s)%nat then Ok (insert_dash pos s) else Throw std_out_of_range.

Definition u128ToUuidString (u : u128) : result string :=
  s ← insert_at 8 (hex_min (most u) ++ hex_min (least u));
  s ← insert_at 12 s; s ← insert_at 16 s; s ← insert_at 20 s;
  Ok (string_of_bytes s).

(** ** The list *)

Definition json_is (s : string) (j : json) : bool :=
  match j with json_string s' => bool_decide (s' = s) | _ => false end.

(** The condition of the loop; the second operand is not evaluated when the first
    is true. *)
Definition whitelist_matches (uuid : u128) (playerName : string) (entry : json) : result bool :=
  id ← json_index "uuid" entry;
  text ← u128ToUuidString uuid;
  if json_is text id then Ok true
  else name ← json_index "name" entry; Ok (json_is playerName name).

(** The loop goes on after a match: the position is that of the last one. *)
Fixpoint whitelist_find (uuid : u128) (playerName : string) (l : list json) (pos : Z) (found : bool * Z) :
  result (bool * Z) :=
  match l with
  | [] => Ok found
  | entry :: l =>
      b ← whitelist_matches uuid playerName entry;
      whitelist_find uuid playerName l (pos + 1) (if b : bool then (true, pos) else found)
  end.

Definition isPlayerWhitelisted (data : json) (uuid : u128) (playerName : string) : result (bool * Z) :=
  whitelist_find uuid playerName (json_elements data) 0 (false, 0).

(** [push_back] of an object *)
Definition json_push_back (v j : json) : result json :=
  match j with
  | json_null => Ok (json_array [v])
  | json_array l => Ok (json_array (l ++ [v]))
  | _ => Throw nlohmann_exception
  end.

Definition whitelist_entry (name uuid : string) : json :=
  json_object [("name", json_string name); ("uuid", json_string uuid)].

Definition Whitelist_addPlayer (uuid : u128) (playerName : string) (data : json) : result json :=
  r ← isPlayerWhitelisted data uuid playerName;
  if r.1 : bool then Ok data
  else text ← u128ToUuidString uuid; json_push_back (whitelist_entry playerName text) data.

(** [erase(index)] of an array *)
Definition json_erase (index : Z) (j : json) : result json :=
  match j with
  | json_array l =>
      if decide (index < zlen l) then Ok (json_array (take (Z.to_nat index) l ++ drop (Z.to_nat (index + 1)) l))
      else Throw nlohmann_exception
  | _ => Throw nlohmann_exception
  end.

Definition Whitelist_removePlayer (uuid : u128) (playerName : string) (data : json) : result json :=
  r ← isPlayerWhitelisted data uuid playerName;
  if r.1 : bool then json_erase r.2 data else Ok data.

(** * Who is whitelisted (theorems) *)

(** A whitelist as [addPlayer] makes it: names and texts of identifiers. *)
Definition whitelist_of (l : list (string * string)) : json :=
  json_array ((λ e, whitelist_entry e.1 e.2) <$> l).

Definition listed (name text : string) (e : string * string) : Prop := e.2 = text ∨ e.1 = name.
#[export] Instance listed_dec name text e : Decision (listed name text e).
Proof. unfold listed. apply _. Defined.

Lemma whitelist_matches_entry uuid name text e :
  u128ToUuidString uuid = Ok text →
  whitelist_matches uuid name (whitelist_entry e.1 e.2) = Ok (bool_decide (listed name text e)).
Proof.
  intros Ht. destruct e as [n u]. unfold whitelist_matches, listed. cbn [fst snd].
  assert (∀ key, json_index key (whitelist_entry n u) =
    if String.eqb key "name" then Ok (json_string n)
    else if String.eqb key "uuid" then Ok (json_string u) else UB FailedAssertion) as Hi.
  { intros key. cbn. destruct (String.eqb_spec key "name") as [->|]; [by rewrite decide_True|].
    rewrite decide_False by congruence.
    destruct (String.eqb_spec key "uuid") as [->|]; [by rewrite decide_True|by rewrite decide_False by congruence]. }
  rewrite !Hi. cbn. rewrite Ht. cbn. repeat case_bool_decide; cbn; f_equal; naive_solver.
Qed.

(** The loop keeps the last match. *)
Lemma whitelist_find_entries uuid name text l : ∀ pos found,
  u128ToUuidString uuid = Ok text →
  ∃ r, whitelist_find uuid name ((λ e, whitelist_entry e.1 e.2) <$> l) pos found = Ok r ∧
    ((r = found ∧ Forall (λ e, ¬ listed name text e) l) ∨
     ∃ a e b, l = a ++ e :: b ∧ r = (true, pos + zlen a) ∧ listed name text e ∧
       Forall (λ e, ¬ listed name text e) b).
Proof.
  induction l as [|e l IH]; intros pos found Ht; [exists found; split; [done|left; by split]|].
  cbn [fmap list_fmap whitelist_find]. rewrite (whitelist_matches_entry _ _ text) by done. cbn [mbind result_bind].
  destruct (IH (pos + 1) (if bool_decide (listed name text e) then (true, pos) else found) Ht)
    as (r & -> & Hr). exists r. split; [done|].
  destruct Hr as [[-> Hl]|(a & e' & b & -> & -> & He & Hb)].
  - case_bool_decide; [right; exists [], e, l|left]; split_and!; try done; [f_equal; cbn; lia|by constructor].
  - right. exists (e :: a), e', b. split_and!; [done|f_equal; rewrite zlen_cons; lia|done..].
Qed.

(** A player is whitelisted exactly when an entry has the text of its
    identifier or has its name, whatever the rest of that entry says, and the
    position given is that of the last such entry. *)
Theorem isPlayerWhitelisted_spec (l : list (string * string)) (uuid : u128) (name text : string) :
  u128ToUuidString uuid = Ok text →
  ∃ found pos, isPlayerWhitelisted (whitelist_of l) uuid name = Ok (found, pos) ∧
    (found = true ↔ Exists (listed name text) l) ∧
    (found = true → ∃ a e b, l = a ++ e :: b ∧ pos = zlen a ∧ listed name text e ∧
       Forall (λ e, ¬ listed name text e) b).
Proof.
  intros Ht. destruct (whitelist_find_entries uuid name text l 0 (false, 0) Ht) as (r & E & Hr).
  exists r.1, r.2. unfold isPlayerWhitelisted. cbn [json_elements whitelist_of].
  rewrite E. split; [by destruct r|].
  destruct Hr as [[-> Hl]|(a & e & b & -> & -> & He & Hb)]; cbn.
  - split; [|done]. split; [done|]. intros Hex. by apply Forall_not_Exists in Hl.
  - split; [split; [|done]; intros _; apply Exists_app; right; by left|].
    intros _. exists a, e, b. done.
Qed.

(** ** The text of an identifier does not determine it *)

Definition uuid_a : u128 := mk_u128 0x1 0x123456789abcdef0.
Definition uuid_b : u128 := mk_u128 0x11 0x23456789abcdef0.

(** Two identifiers with one text: each is whitelisted where the other is. *)
Theorem u128ToUuidString_collision :
  uuid_a ≠ uuid_b ∧ u128ToUuidString uuid_a = u128ToUuidString uuid_b ∧
  is_ok (u128ToUuidString uuid_a) = true ∧
  ∀ data, isPlayerWhitelisted data uuid_a "nobody" = isPlayerWhitelisted data uuid_b "nobody".
Proof.
  split; [done|]. split; [by vm_compute|]. split; [by vm_compute|].
  intros data. unfold isPlayerWhitelisted. generalize (json_elements data) 0 (false, 0).
  intros l. induction l as [|e l IH]; intros pos found; [done|]. cbn [whitelist_find].
  assert (whitelist_matches uuid_a "nobody" e = whitelist_matches uuid_b "nobody" e) as ->.
  { unfold whitelist_matches. by replace (u128ToUuidString uuid_b) with (u128ToUuidString uuid_a) by (by vm_compute). }
  destruct (whitelist_matches _ _ _); try done. cbn. apply IH.
Qed.

(** An identifier of few digits has no text: the insertion of a dash throws. *)
Theorem u128ToUuidString_short :
  u128ToUuidString (mk_u128 0 0) = Throw std_out_of_range ∧
  isPlayerWhitelisted (whitelist_of [("a", "b")]) (mk_u128 0 0) "c" = Throw std_out_of_range.
Proof. by vm_compute. Qed.

Lemma isPlayerWhitelisted_spec_witness :
  let l := [("steve", "1123456-789a-bcd-ef0"); ("alex", "x")] in
  ∃ text, u128ToUuidString uuid_a = Ok text ∧
  ∃ found pos, isPlayerWhitelisted (whitelist_of l) uuid_a "alex" = Ok (found, pos) ∧
    (found = true ↔ Exists (listed "alex" text) l) ∧
    (found = true → ∃ a e b, l = a ++ e :: b ∧ pos = zlen a ∧ listed "alex" text e ∧
       Forall (λ e, ¬ listed "alex" text e) b).
Proof.
  intros l. eexists. split; [vm_compute; reflexivity|].
  apply (isPlayerWhitelisted_spec l uuid_a "alex"). by vm_compute.
Defined.
