(* ===== verification/Checksum.v ===== *)
(** * The server identifier of the online login (Checksum.hpp, Checksum.cpp)

    SHA-1 is a third-party library; what the code does itself is to write a
    digest as a signed hexadecimal number. *)

From S2P Require Import Prelude Types.

(** The loop that negates the digest, from its last byte to the first. *)
Fixpoint negate_bytes (carry : bool) (reversed : list Z) : list Z :=
  match reversed with
  | [] => []
  | b :: l =>
      let b := to_u8 (Z.lnot b) in
      if carry then to_u8 (b + 1) :: negate_bytes (bool_decide (b = 0xff)) l
      else b :: negate_bytes false l
  end.

(** [fmt::format("{:02x}", byte)] *)
Definition hex_byte (b : Z) : list Z := hex_fixed 2 b.

(** [while ((result.length() > 0) && (result[0] == '0')) result.erase(0, 1);] *)
Fixpoint erase_zeros (s : list Z) : list Z :=
  match s with
  | 48 :: s' => erase_zeros s'
  | s => s
  end.

Definition digestToProtocol (digest : list Z) : list Z :=
  let isNegative := bool_decide (0x80 ≤ default 0 (digest !! 0%nat)) in
  let digest := if isNegative then reverse (negate_bytes true (reverse digest)) else digest in
  let result := erase_zeros (concat (hex_byte <$> digest)) in
  if isNegative then 45 :: result else result.

(** ** What the text stands for *)

Fixpoint bytes_value (l : list Z) : Z :=
  match l with [] => 0 | b :: l => b * 256 ^ zlen l + bytes_value l end.

(** The digest as a signed number of 160 bits. *)
Definition digest_value (digest : list Z) : Z :=
  wrap_s (8 * zlen digest) (bytes_value digest).

(** * The text of a digest (theorems) *)

(** ** Hexadecimal digits *)

Lemma hex_value_digit d : 0 ≤ d < 16 → hex_value (hex_digit d) = Some d.
Proof.
  intros Hd. unfold hex_value, hex_digit. repeat case_decide; try lia; f_equal; lia.
Qed.

Lemma hex_byte_digits b :
  is_byte b → hex_byte b = [hex_digit (b / 16); hex_digit (b mod 16)].
Proof.
  intros [H0 H1]. unfold hex_byte. cbn [hex_fixed].
  change 15 with (Z.ones 4). rewrite !Z.land_ones, !Z.shiftr_div_pow2 by lia. cbn.
  rewrite Z.div_1_r, (Z.mod_small (b / 16)); [done|]. split; [apply Z.div_pos; lia|].
  apply Z.div_lt_upper_bound; lia.
Qed.

Lemma read_hex_byte acc b s : is_byte b → read_hex acc (hex_byte b ++ s) = read_hex (acc * 256 + b) s.
Proof.
  intros Hb. rewrite hex_byte_digits by done. destruct Hb. cbn.
  pose proof (Z.mod_pos_bound b 16 ltac:(lia)). pose proof (Z.div_mod b 16 ltac:(lia)).
  rewrite !hex_value_digit by lia. f_equal. lia.
Qed.

Lemma read_hex_bytes l : ∀ acc,
  Forall is_byte l → read_hex acc (concat (hex_byte <$> l)) = acc * 256 ^ zlen l + bytes_value l.
Proof.
  induction l as [|b l IH]; intros acc Hl; [cbn; lia|].
  apply list.Forall_cons in Hl as [Hb Hl]. cbn [fmap list_fmap concat].
  rewrite read_hex_byte, IH by done. cbn [bytes_value]. rewrite zlen_cons, Z.pow_add_r by lia. lia.
Qed.

(** ** Leading zeros *)

Lemma read_hex_erase s : read_hex 0 (erase_zeros s) = read_hex 0 s.
Proof.
  induction s as [|c s IH]; [done|].
  destruct (decide (c = 48)) as [->|Hc]; [exact IH|].
  unfold erase_zeros. repeat (case_match; try done).
Qed.

Lemma erase_zeros_head s : head (erase_zeros s) ≠ Some 48.
Proof.
  induction s as [|c s IH]; [done|].
  destruct (decide (c = 48)) as [->|Hc]; [exact IH|].
  unfold erase_zeros. repeat (case_match; try done); cbn; congruence.
Qed.

Lemma erase_zeros_sub s c : c ∈ erase_zeros s → c ∈ s.
Proof.
  induction s as [|d s IH]; [done|].
  destruct (decide (d = 48)) as [->|Hd]; [by right; apply IH|].
  unfold erase_zeros. repeat (case_match; try done).
Qed.

(** ** Negation *)

Lemma bytes_value_app a b : bytes_value (a ++ b) = bytes_value a * 256 ^ zlen b + bytes_value b.
Proof.
  induction a as [|x a IH]; [done|]. cbn. rewrite IH, zlen_app, Z.pow_add_r by lia. lia.
Qed.

Lemma bytes_value_range l : Forall is_byte l → 0 ≤ bytes_value l < 256 ^ zlen l.
Proof.
  induction 1 as [|b l [H0 H1] _ IH]; [cbn; lia|]. cbn [bytes_value].
  rewrite zlen_cons, Z.pow_add_r by lia. nia.
Qed.

(** The value of a list whose first byte is the lowest. *)
Definition reversed_value (l : list Z) : Z := bytes_value (reverse l).

Lemma reversed_value_cons b l : reversed_value (b :: l) = b + 256 * reversed_value l.
Proof. unfold reversed_value. rewrite reverse_cons, bytes_value_app. cbn. lia. Qed.

Lemma reversed_value_pos l : Forall is_byte l → 0 ≤ reversed_value l.
Proof. intros Hl. unfold reversed_value. by apply bytes_value_range, Forall_reverse. Qed.

Lemma negate_bytes_value l : ∀ carry,
  Forall is_byte l → (carry = true → reversed_value l ≠ 0) →
  Forall is_byte (negate_bytes carry l) ∧ length (negate_bytes carry l) = length l ∧
  reversed_value (negate_bytes carry l) = 256 ^ zlen l - 1 + Z.b2z carry - reversed_value l.
Proof.
  induction l as [|b l IH]; intros carry Hl Hc.
  { destruct carry; [by destruct (Hc eq_refl)|]. split_and!; [constructor|done|done]. }
  apply list.Forall_cons in Hl as [Hb Hl]. pose proof (reversed_value_pos l Hl).
  rewrite reversed_value_cons in *. rewrite zlen_cons, Z.pow_add_r by lia.
  assert (to_u8 (Z.lnot b) = 255 - b) as En.
  { unfold to_u8, wrap_u, Z.lnot. destruct Hb. rewrite <- (Z.mod_add _ 1) by lia.
    rewrite Z.mod_small by (cbn in *; lia). cbn. lia. }
  cbn [negate_bytes]. rewrite En. destruct carry.
  - destruct (IH (bool_decide (255 - b = 255)) Hl) as (Hf & Hlen & Hv).
    { intros Hd%bool_decide_eq_true. assert (b = 0) by lia. specialize (Hc eq_refl). lia. }
    rewrite reversed_value_cons, Hv. cbn [length]. rewrite Hlen. split_and!; [|done|].
    + constructor; [apply wrap_u_range; lia|done].
    + destruct Hb. unfold to_u8, wrap_u. case_bool_decide; cbn [Z.b2z].
      * replace b with 0 by lia. change ((255 - 0 + 1) mod 2 ^ 8) with 0. lia.
      * change (2 ^ 8) with 256 in *. rewrite Z.mod_small by lia. lia.
  - destruct (IH false Hl) as (Hf & Hlen & Hv); [done|].
    rewrite reversed_value_cons, Hv. cbn [length Z.b2z]. rewrite Hlen.
    split_and!; [|done|lia]. constructor; [destruct Hb; split; cbn in *; lia|done].
Qed.

(** ** The text *)

Lemma text_digits l :
  Forall is_byte l → Forall (λ c, is_Some (hex_value c)) (erase_zeros (concat (hex_byte <$> l))).
Proof.
  intros Hl. apply list.Forall_forall. intros c Hc%erase_zeros_sub.
  induction Hl as [|b l Hb Hl IH]; [by apply elem_of_nil in Hc|].
  cbn [fmap list_fmap concat] in Hc. rewrite elem_of_app in Hc. destruct Hc as [Hc|]; [|auto].
  rewrite hex_byte_digits in Hc by done. destruct Hb as [H0 H1]. change (2 ^ 8) with 256 in *.
  pose proof (Z.mod_pos_bound b 16 ltac:(lia)). pose proof (Z.div_mod b 16 ltac:(lia)).
  rewrite !elem_of_cons in Hc. destruct Hc as [->|[->|Hc]]; [..|by apply elem_of_nil in Hc];
    rewrite hex_value_digit by lia; by eexists.
Qed.

Lemma digest_value_cons b l :
  Forall is_byte (b :: l) →
  digest_value (b :: l) = bytes_value (b :: l) - (if decide (0x80 ≤ b) then 256 ^ zlen (b :: l) else 0).
Proof.
  intros [Hb Hl]%list.Forall_cons. pose proof (bytes_value_range l Hl). destruct Hb as [H0 H1].
  unfold digest_value, wrap_s. cbn [bytes_value]. rewrite zlen_cons.
  assert (0 < 256 ^ zlen l) by (apply Z.pow_pos_nonneg; lia).
  replace (2 ^ (8 * (1 + zlen l) - 1)) with (128 * 256 ^ zlen l).
  2:{ change 256 with (2 ^ 8). change 128 with (2 ^ 7).
      rewrite <- Z.pow_mul_r, <- Z.pow_add_r by lia. f_equal. lia. }
  replace (2 ^ (8 * (1 + zlen l))) with (256 * 256 ^ zlen l).
  2:{ change 256 with (2 ^ 8). rewrite <- Z.pow_mul_r, <- Z.pow_add_r by lia. f_equal. lia. }
  rewrite (Z.pow_add_r 256) by lia. change (256 ^ 1) with 256. change (2 ^ 8) with 256 in *.
  set (p := 256 ^ zlen l) in *. set (v := bytes_value l) in *.
  case_decide.
  - rewrite <- (Z.mod_add _ (-1)) by lia. rewrite Z.mod_small by nia. lia.
  - rewrite Z.mod_small by nia. lia.
Qed.

(** The text of a digest is its value as a signed number, in two's complement,
    written in hexadecimal: a minus sign exactly for a negative number, digits
    that read as the absolute value, and no zero in front. *)
Theorem digestToProtocol_value (digest : list Z) :
  Forall is_byte digest →
  ∃ digits, digestToProtocol digest = (if decide (digest_value digest < 0) then 45 :: digits else digits) ∧
    read_hex 0 digits = Z.abs (digest_value digest) ∧
    head digits ≠ Some 48 ∧ Forall (λ c, is_Some (hex_value c)) digits.
Proof.
  intros Hd. destruct digest as [|b l]; [by exists []|].
  pose proof (bytes_value_range _ Hd) as Hr. pose proof (digest_value_cons b l Hd) as Hv.
  unfold digestToProtocol. cbn [lookup list_lookup from_option id].
  assert (0 < 256 ^ zlen l) by (apply Z.pow_pos_nonneg; lia).
  pose proof Hd as [[Hb0 Hb1] Hl]%list.Forall_cons. pose proof (bytes_value_range l Hl).
  case_bool_decide as Hs; unfold id in Hs.
  - rewrite (decide_True (P := 128 ≤ b)) in Hv by done.
    destruct (negate_bytes_value (reverse (b :: l)) true) as (Hf & Hlen & Hn).
    { by apply Forall_reverse. }
    { intros _. unfold reversed_value. rewrite reverse_involutive. cbn [bytes_value]. nia. }
    unfold reversed_value in Hn. rewrite reverse_involutive, length_reverse in Hn.
    set (n := reverse (negate_bytes true (reverse (b :: l)))) in *.
    assert (Forall is_byte n) by (by apply Forall_reverse).
    exists (erase_zeros (concat (hex_byte <$> n))).
    rewrite decide_True by lia. split_and!; [done| |apply erase_zeros_head|by apply text_digits].
    rewrite read_hex_erase, read_hex_bytes by done. cbn [Z.b2z] in Hn. lia.
  - rewrite (decide_False (P := 128 ≤ b)) in Hv by done.
    exists (erase_zeros (concat (hex_byte <$> (b :: l)))).
    rewrite decide_False by lia. split_and!; [done| |apply erase_zeros_head|by apply text_digits].
    rewrite read_hex_erase, read_hex_bytes by done. lia.
Qed.

(** A digest with the highest bit set. *)
Lemma digestToProtocol_value_witness :
  let jeb := [0x83; 0x6c; 0x5f; 0x54; 0xc0; 0xef; 0x2d; 0x80; 0x4c; 0xf6;
              0xda; 0x72; 0xd9; 0x6d; 0x41; 0x0b; 0x5c; 0xc4; 0x6c; 0xe5] in
  Forall is_byte jeb ∧ digest_value jeb < 0 ∧
  (∃ digits, digestToProtocol jeb = (if decide (digest_value jeb < 0) then 45 :: digits else digits) ∧
    read_hex 0 digits = Z.abs (digest_value jeb) ∧
    head digits ≠ Some 48 ∧ Forall (λ c, is_Some (hex_value c)) digits).
Proof.
  intros jeb. split; [by apply (bool_decide_unpack _)|]. split; [done|].
  apply (digestToProtocol_value jeb). by apply (bool_decide_unpack _).
Defined.

(** * The texts of an identifier (theorems) *)

(** ** Characters of a hexadecimal number *)

Definition is_hex (c : Z) : Prop := 48 ≤ c ≤ 57 ∨ 97 ≤ c ≤ 102.

Lemma hex_digit_is_hex d : 0 ≤ d < 16 → is_hex (hex_digit d).
Proof. intros Hd. unfold is_hex, hex_digit. case_decide; lia. Qed.

Lemma nibble_range z : 0 ≤ Z.land z 15 < 16.
Proof. change 15 with (Z.ones 4). rewrite Z.land_ones by lia. apply Z.mod_pos_bound. lia. Qed.

Lemma hex_fixed_is_hex n v : Forall is_hex (hex_fixed n v).
Proof.
  induction n as [|n IH]; cbn [hex_fixed]; [apply Forall_nil_2|].
  apply Forall_cons_2; [apply hex_digit_is_hex, nibble_range|done].
Qed.

Lemma hex_fixed_length n v : length (hex_fixed n v) = n.
Proof. induction n; cbn; congruence. Qed.

Lemma read_hex_fixed n v : ∀ acc,
  0 ≤ v → read_hex acc (hex_fixed n v) = acc * 16 ^ Z.of_nat n + v `mod` 16 ^ Z.of_nat n.
Proof.
  intros acc Hv. revert acc. induction n as [|n IH]; intros acc; [cbn; rewrite Z.mod_1_r; lia|].
  cbn [hex_fixed read_hex]. rewrite hex_value_digit by apply nibble_range. rewrite IH.
  change 15 with (Z.ones 4). rewrite Z.land_ones, Z.shiftr_div_pow2 by lia.
  rewrite Nat2Z.inj_succ, Z.pow_succ_r by lia.
  replace (2 ^ (4 * Z.of_nat n)) with (16 ^ Z.of_nat n) by (rewrite Z.pow_mul_r by lia; done).
  rewrite (Z.mul_comm 16 (16 ^ _)), Z.rem_mul_r by lia. change (2 ^ 4) with 16. lia.
Qed.

(** [std::stoull] of digits alone. *)
Lemma stoull16_hex s :
  Forall is_hex s → s ≠ [] → read_hex 0 s < 2 ^ 64 → stoull16 s = Ok (read_hex 0 s).
Proof.
  intros Hs Hne Hr. destruct s as [|c s]; [done|]. apply list.Forall_cons in Hs as [Hc Hs].
  unfold stoull16. cbn [skip_spaces]. unfold is_space. rewrite bool_decide_false by (unfold is_hex in Hc; lia).
  assert (E0 : skip_0x (c :: s) = c :: s).
  { unfold skip_0x. destruct (decide (c = 48)) as [->|Hc48].
    - destruct s as [|x [|d s]]; [done..|]. apply list.Forall_cons in Hs as [Hx _].
      rewrite bool_decide_false; [done|]. unfold is_hex in Hx. lia.
    - repeat (case_match; try done). }
  assert (E : ∀ A (a b d : A), match c with 43 => a | 45 => b | _ => d end = d).
  { intros A a b d. unfold is_hex in Hc. repeat (case_match; try done); lia. }
  destruct (match c :: s with 43 :: s' => (false, s') | 45 :: s' => (true, s') | _ => (false, c :: s) end)
    as [neg s1] eqn:E1.
  rewrite E in E1. injection E1 as <- <-. rewrite E0.
  assert (∃ d, hex_value c = Some d) as [d Hd].
  { unfold hex_value. unfold is_hex in Hc. repeat case_decide; eauto. lia. }
  rewrite Hd. by rewrite decide_True.
Qed.

Lemma stoull16_fixed v : is_u 64 v → stoull16 (hex_fixed 16 v) = Ok v.
Proof.
  intros [H0 H1]. assert (E : read_hex 0 (hex_fixed 16 v) = v).
  { rewrite read_hex_fixed by done. change (16 ^ Z.of_nat 16) with (2 ^ 64). rewrite Z.mod_small; lia. }
  rewrite stoull16_hex; [by rewrite E|apply hex_fixed_is_hex|done|by rewrite E].
Qed.

(** ** Dashes *)

Abbreviation without_dashes := (filter (λ c : Z, c ≠ 45)).

Lemma without_dashes_insert pos s : without_dashes (insert_dash pos s) = without_dashes s.
Proof.
  unfold insert_dash. rewrite list.filter_app, filter_cons_False by naive_solver.
  by rewrite <- list.filter_app, take_drop.
Qed.

Lemma without_dashes_hex s : Forall is_hex s → without_dashes s = s.
Proof.
  induction 1 as [|c s Hc Hs IH]; [done|]. rewrite filter_cons_True, IH; [done|].
  unfold is_hex in Hc. lia.
Qed.

(** The text the server gives an identifier reads back: without its four
    dashes it is the short text of the session server, which [fromShortString]
    turns into the same identifier. *)
Theorem u128_toString_fromShortString (u : u128) :
  u128_wf u → u128_fromShortString (without_dashes (u128_toString u)) = Ok u.
Proof.
  intros [Hm Hl]. unfold u128_toString. rewrite !without_dashes_insert.
  rewrite without_dashes_hex by (apply Forall_app; split; apply hex_fixed_is_hex).
  pose proof (hex_fixed_length 16 (most u)). pose proof (hex_fixed_length 16 (least u)).
  unfold u128_fromShortString. rewrite decide_False by zlia.
  rewrite take_app_length', drop_app_length' by done.
  rewrite !stoull16_fixed by done. by destruct u.
Qed.

Lemma u128_toString_fromShortString_witness :
  u128_fromShortString (without_dashes (u128_toString (mk_u128 0x0011223344556677 0x8899aabbccddeeff))) =
    Ok (mk_u128 0x0011223344556677 0x8899aabbccddeeff).
Proof. apply u128_toString_fromShortString. by vm_compute. Defined.
