(* ===== verification/Configuration.v ===== *)
(** * The configuration (configuration/, initArgs of main.cpp)

    A value of the configuration comes from the arguments of the program, from the
    environment, or from the file, in that order.  YAML and the parser of arguments
    are third-party libraries: a file is the tree it is read as, and an argument is
    there or not. *)

From stdpp Require Import pretty.
From S2P Require Import Prelude State.

(** ** Nodes (Node.hpp, Node.cpp) *)

(** The keys of maps are texts. *)
Inductive yaml : Type :=
| Y_null
| Y_scalar (s : string)
| Y_sequence (l : list yaml)
| Y_map (l : list (string * yaml)).

Fixpoint map_find (key : string) (l : list (string * yaml)) : option yaml :=
  match l with
  | [] => None
  | (k, n) :: l => if decide (k = key) then Some n else map_find key l
  end.
Fixpoint map_update (key : string) (n : yaml) (l : list (string * yaml)) : list (string * yaml) :=
  match l with
  | [] => [(key, n)]
  | (k, m) :: l => if decide (k = key) then (k, n) :: l else (k, m) :: map_update key n l
  end.

(** [_impl[key].IsDefined()]: the library does not look for a key in a scalar. *)
Definition Node_has (key : string) (n : yaml) : result bool :=
  match n with
  | Y_map l => Ok (bool_decide (is_Some (map_find key l)))
  | Y_scalar _ => Throw yaml_exception
  | Y_null | Y_sequence _ => Ok false
  end.

Definition Node_at (key : string) (n : yaml) : result yaml :=
  match n with
  | Y_map l => match map_find key l with Some m => Ok m | None => Throw ConfigurationError end
  | _ => Throw ConfigurationError
  end.

(** [as<std::string>]: a null reads as a text. *)
Definition as_string (n : yaml) : result string :=
  match n with
  | Y_scalar s => Ok s
  | Y_null => Ok "null"%string
  | _ => Throw yaml_exception
  end.

Definition Node_isArray (n : yaml) : bool := match n with Y_sequence _ => true | _ => false end.
Definition Node_isScalar (n : yaml) : bool := match n with Y_scalar _ | Y_null => true | _ => false end.
Definition Node_get (n : yaml) : result string :=
  if Node_isScalar n then as_string n else Throw ConfigurationError.
Fixpoint strings_of (l : list yaml) : result (list string) :=
  match l with [] => Ok [] | n :: l => s ← as_string n; ss ← strings_of l; Ok (s :: ss) end.
Definition Node_getArray (n : yaml) : result (list string) :=
  match n with Y_sequence l => strings_of l | _ => Throw ConfigurationError end.

(** [set]: a text replaces the node, a list is added to a sequence. *)
Definition Node_set (values : list string) (n : yaml) : result yaml :=
  match values with
  | [v] => Ok (Y_scalar v)
  | _ =>
      match n with
      | Y_null => Ok (Y_sequence (Y_scalar <$> values))
      | Y_sequence l => Ok (Y_sequence (l ++ (Y_scalar <$> values)))
      | _ => Throw yaml_exception
      end
  end.

(** [_impl[key] = YAML::Node()]: the library makes a map of a null, and of a
    sequence. *)
Definition Node_put (key : string) (child : yaml) (n : yaml) : result yaml :=
  match n with
  | Y_map l => Ok (Y_map (map_update key child l))
  | Y_null => Ok (Y_map [(key, child)])
  | Y_sequence l => Ok (Y_map (map_update key child (imap (λ i m, (pretty (Z.of_nat i), m)) l)))
  | Y_scalar _ => Throw yaml_exception
  end.

(** ** Conversions (conversion.hpp) *)

(** [std::stoi] and [std::stol]: spaces, a sign, and the digits that follow. *)
Definition isspace (c : Z) : bool := bool_decide (c = 32 ∨ 9 ≤ c ≤ 13).
Fixpoint skip_isspace (s : list Z) : list Z :=
  match s with c :: s' => if isspace c then skip_isspace s' else s | [] => [] end.
Fixpoint digits (s : list Z) : list Z :=
  match s with c :: s => if decide (48 ≤ c ≤ 57) then (c - 48) :: digits s else [] | [] => [] end.
Definition decimal (ds : list Z) : Z := foldl (λ n d, 10 * n + d) 0 ds.
Definition strtol (s : list Z) : option Z :=
  let '(sign, s) := match skip_isspace s with
    | 45 :: s => (-1, s)
    | 43 :: s => (1, s)
    | s => (1, s)
    end in
  match digits s with [] => None | ds => Some (sign * decimal ds) end.
Definition sto (width : Z) (s : string) : result Z :=
  match strtol (string_bytes s) with
  | None => Throw std_logic_error       (* [std::invalid_argument] *)
  | Some n => if decide (is_s width n) then Ok n else Throw std_out_of_range
  end.
Definition stoi : string → result Z := sto 32.
Definition stol : string → result Z := sto 64.

Definition Convertor_bool (value : string) : bool := bool_decide (value = "true"%string).
Definition Convertor_int32 : string → result Z := stoi.
Definition Convertor_int64 : string → result Z := stol.
Definition Convertor_uint8 (value : string) : result Z := n ← stoi value; Ok (to_u8 n).
Definition Convertor_uint16 (value : string) : result Z := n ← stoi value; Ok (to_u16 n).

(** [Convertor<std::string>] *)
Definition string_of_bool (b : bool) : string := if b then "true" else "false".
Definition string_of_int (n : Z) : string := pretty n.

(** ** Values (Value.hpp, Value.cpp) *)

Record Value : Type := mk_Value {
  _required : bool;
  _implicit : bool;
  _value : list string;
  _defaultValue : list string;
  value_name : string;
  _possibleValue : list string;
  _defaultValueConfig : list string;
  _defaultValueArgument : string;
  _defaultValueEnvironmentVariable : string
}.

Definition Value_make (name : string) : Value := mk_Value false false [] [] name [] [] EmptyString EmptyString.
Definition Value_required (v : Value) : Value :=
  mk_Value true (_implicit v) (_value v) (_defaultValue v) (value_name v) (_possibleValue v)
    (_defaultValueConfig v) (_defaultValueArgument v) (_defaultValueEnvironmentVariable v).
Definition Value_implicit (v : Value) : Value :=
  mk_Value (_required v) true (_value v) ["false"%string] (value_name v) (_possibleValue v)
    (_defaultValueConfig v) (_defaultValueArgument v) (_defaultValueEnvironmentVariable v).
Definition set_value (l : list string) (v : Value) : Value :=
  mk_Value (_required v) (_implicit v) l (_defaultValue v) (value_name v) (_possibleValue v)
    (_defaultValueConfig v) (_defaultValueArgument v) (_defaultValueEnvironmentVariable v).
Definition Value_defaultValue (s : string) (v : Value) : Value :=
  mk_Value (_required v) (_implicit v) (_value v) (_defaultValue v ++ [s]) (value_name v)
    (_possibleValue v) (_defaultValueConfig v) (_defaultValueArgument v) (_defaultValueEnvironmentVariable v).
(** [clear], [resize] to the number of values, then [push_back] of each. *)
Definition Value_possibleValues (l : list string) (v : Value) : Value :=
  mk_Value (_required v) (_implicit v) (_value v) (_defaultValue v) (value_name v)
    (replicate (length l) EmptyString ++ l)
    (_defaultValueConfig v) (_defaultValueArgument v) (_defaultValueEnvironmentVariable v).
(** With a node and a key, neither of which is empty. *)
Definition Value_valueFromConfig (keys : list string) (v : Value) : Value :=
  mk_Value (_required v) (_implicit v) (_value v) (_defaultValue v) (value_name v) (_possibleValue v)
    keys (_defaultValueArgument v) (_defaultValueEnvironmentVariable v).
Definition Value_valueFromArgument (argument : string) (v : Value) : Value :=
  mk_Value (_required v) (_implicit v) (_value v) (_defaultValue v) (value_name v) (_possibleValue v)
    (_defaultValueConfig v) argument (_defaultValueEnvironmentVariable v).
Definition Value_valueFromEnvironmentVariable (variable : string) (v : Value) : Value :=
  mk_Value (_required v) (_implicit v) (_value v) (_defaultValue v) (value_name v) (_possibleValue v)
    (_defaultValueConfig v) (_defaultValueArgument v) variable.

Definition Value_value (v : Value) : result string :=
  match _value v, _defaultValue v with
  | s :: _, _ => Ok s
  | [], s :: _ => Ok s
  | [], [] => Throw ConfigurationError
  end.
Definition Value_isDefault (v : Value) : bool := match _value v with [] => true | _ => false end.
(** [as<T>]: the first of the default values is read without a test. *)
Definition Value_as (v : Value) : result string :=
  match (if Value_isDefault v then _defaultValue v else _value v) with
  | s :: _ => Ok s
  | [] => UB OutOfBoundsRead
  end.

(** *** Parsing *)

(** The argument that was used, the variables, and the files that exist. *)
Record Environment : Type := mk_Environment {
  argument_used : string → option string;
  getenv : string → option string;
  file_contents : string → option string
}.

(** The walk stops at the last node that is there. *)
Fixpoint find_node (keys : list string) (n : yaml) : result yaml :=
  match keys with
  | [] => Ok n
  | key :: keys =>
      h ← Node_has key n;
      if h : bool then m ← Node_at key n; find_node keys m else Ok n
  end.

Definition from_argument (env : Environment) (v : Value) : list string :=
  if decide (_defaultValueArgument v = EmptyString) then _value v
  else match argument_used env (_defaultValueArgument v) with Some s => [s] | None => _value v end.

(** A variable with the suffix [_FILE] names a file that holds the value. *)
Definition from_environment (env : Environment) (v : Value) : list string :=
  let variable := _defaultValueEnvironmentVariable v in
  let secret := s ← getenv env (String.append variable "_FILE"); file_contents env s in
  match secret with
  | Some s => [s]
  | None => match getenv env variable with Some s => [s] | None => [] end
  end.

Definition from_config (root : yaml) (v : Value) : result (list string) :=
  n ← find_node (_defaultValueConfig v) root;
  if Node_isArray n then Node_getArray n
  else if Node_isScalar n then s ← Node_get n; Ok [s]
  else Throw ConfigurationError.

Definition Value_check (v : Value) : result Value :=
  if decide (_possibleValue v = []) then Ok v
  else if decide (_value v = [] ∧ _defaultValue v = [] ∧ _required v = true) then Throw ConfigurationError
  else if forallb (λ s, bool_decide (s ∈ _possibleValue v)) (_value v) then Ok v
  else Throw ConfigurationError.

Definition Value_parse (env : Environment) (root : yaml) (v : Value) : result Value :=
  let current := from_argument env v in
  let current := if decide (_defaultValueEnvironmentVariable v ≠ EmptyString ∧ current = [])
                 then from_environment env v else current in
  current ← (if decide (_defaultValueConfig v ≠ [] ∧ current = []) then from_config root v else Ok current);
  Value_check (set_value current v).

(** ** The handler (ConfigHandler.hpp, ConfigHandler.cpp) *)

(** What [YAML::LoadFile] makes of a file; a sequence as the root has no keys to read, unless
    it is empty. *)
Inductive config_file : Type :=
| File_missing
| File_malformed
| File_read (root : yaml).

Definition Node_load (f : config_file) : result yaml :=
  match f with
  | File_missing => Throw BadFile
  | File_malformed | File_read (Y_sequence (_ :: _)) => Throw yaml_exception
  | File_read root => Ok root
  end.

(** The walk of [save] for one value: the nodes that are not there are made. *)
Fixpoint save_at (keys : list string) (values : list string) (n : yaml) : result yaml :=
  match keys with
  | [] => Node_set values n
  | key :: keys =>
      h ← Node_has key n;
      child ← (if h : bool then Node_at key n else Ok Y_null);
      child ← save_at keys values child;
      Node_put key child n
  end.

(** The values come in the order of the map that holds them. *)
Fixpoint ConfigHandler_save (values : list Value) (root : yaml) : result yaml :=
  match values with
  | [] => Ok root
  | v :: values =>
      root ← (if decide (_defaultValueConfig v = [] ∨ _defaultValue v = []) then Ok root
              else save_at (_defaultValueConfig v) (_defaultValue v) root);
      ConfigHandler_save values root
  end.

Fixpoint ConfigHandler_parse (env : Environment) (root : yaml) (values : list Value) : result (list Value) :=
  match values with
  | [] => Ok []
  | v :: values =>
      v ← Value_parse env root v; values ← ConfigHandler_parse env root values; Ok (v :: values)
  end.

Fixpoint ConfigHandler_get (name : string) (values : list Value) : result Value :=
  match values with
  | [] => Throw std_out_of_range
  | v :: values => if decide (value_name v = name) then Ok v else ConfigHandler_get name values
  end.

(** ** The program (main.cpp) *)

Section Program.
Local Open Scope string_scope.

Definition option_in (section name env : string) : Value :=
  Value_valueFromEnvironmentVariable env (Value_valueFromConfig [section; name] (Value_make name)).

Definition program_values : list Value := [
  Value_implicit (Value_possibleValues ["true"; "false"]
    (Value_valueFromEnvironmentVariable "CBSRV_NOGUI" (Value_valueFromArgument "--nogui" (Value_make "nogui"))));
  Value_required (Value_defaultValue "0.0.0.0" (option_in "network" "ip" "CBSRV_IP"));
  Value_required (Value_defaultValue (string_of_int 25565) (option_in "network" "port" "CBSRV_PORT"));
  Value_required (Value_defaultValue (string_of_int 20)
    (Value_valueFromEnvironmentVariable "CBSRV_MAX_PLAYERS"
      (Value_valueFromConfig ["general"; "max_players"] (Value_make "max-players"))));
  Value_required (Value_defaultValue "A Cubic Server" (option_in "general" "motd" "CBSRV_MOTD"));
  Value_required (Value_defaultValue (string_of_bool false) (Value_possibleValues ["true"; "false"]
    (option_in "general" "whitelist-enabled" "CBSRV_WHITELIST_ENABLED")));
  Value_required (Value_defaultValue (string_of_bool false) (Value_possibleValues ["true"; "false"]
    (option_in "general" "enforce-whitelist" "CBSRV_ENFORCE_WHITELIST")));
  Value_defaultValue (string_of_bool true) (Value_possibleValues ["true"; "false"]
    (Value_valueFromArgument "--enable-generation"
      (option_in "generation" "enable-generation" "CBSRV_ENABLE_GENERATION")));
  Value_defaultValue "world" (Value_valueFromArgument "--level-name"
    (option_in "general" "level-name" "CBSRV_LEVEL_NAME"));
  Value_defaultValue (string_of_int 4) (Value_valueFromArgument "--num-gen-thread"
    (option_in "general" "num-gen-thread" "CBSRV_NUM_GEN_THREAD"));
  Value_defaultValue "default" (Value_possibleValues
      ["default"; "superflat"; "largebiome"; "amplified"; "singlebiome"; "debug"; "superflat_cubic_server"]
    (Value_valueFromArgument "--world-type" (option_in "generation" "world-type" "CBSRV_LEVEL_TYPE")));
  Value_defaultValue (string_of_int (-721274728)) (Value_valueFromArgument "--seed"
    (option_in "generation" "seed" "CBSRV_SEED"));
  Value_defaultValue (string_of_int 10) (Value_valueFromArgument "--render-distance"
    (option_in "general" "render-distance" "CBSRV_RENDER_DISTANCE"));
  Value_defaultValue (string_of_bool true) (Value_possibleValues ["false"; "true"]
    (Value_valueFromArgument "--online-mode" (option_in "general" "online-mode" "CBSRV_ONLINE_MODE")))
].
End Program.

(** A missing file is written, with the defaults; the values are in the order of the
    map.  Every exception ends the program. *)
Definition initArgs (env : Environment) (f : config_file) (values : list Value) : result (list Value) :=
  root ← match f with
         | File_missing => ConfigHandler_save values Y_null
         | _ => Node_load f
         end;
  ConfigHandler_parse env root values.

(** * What the configuration gives

    A tree is written by the values one after the other, each at its own path; paths
    of which none begins another do not disturb each other.  [settled] is what a value
    ends with when no file says otherwise. *)

(** The sources a value has apart from the file, in their order. *)
Definition outside (env : Environment) (v : Value) : list string :=
  let current := from_argument env v in
  if decide (_defaultValueEnvironmentVariable v ≠ EmptyString ∧ current = [])
  then from_environment env v else current.
Definition settled (env : Environment) (v : Value) : list string :=
  if decide (outside env v = []) then
    (if decide (_defaultValueConfig v = []) then [] else _defaultValue v)
  else outside env v.

(** Two paths that part at some key. *)
Fixpoint diverge (ks ks' : list string) : Prop :=
  match ks, ks' with
  | k :: ks, k' :: ks' => k ≠ k' ∨ diverge ks ks'
  | _, _ => False
  end.
Definition one_default (v : Value) : Prop :=
  _defaultValueConfig v ≠ [] → ∃ d, _defaultValue v = [d].
Definition apart (v v' : Value) : Prop :=
  _defaultValueConfig v ≠ [] → _defaultValueConfig v' ≠ [] →
  diverge (_defaultValueConfig v) (_defaultValueConfig v').

(** The walk along a path meets only maps, and ends on a map without the next key. *)
Fixpoint absent (keys : list string) (n : yaml) : Prop :=
  match keys, n with
  | key :: keys, Y_map l =>
      match map_find key l with None => True | Some m => absent keys m end
  | _, _ => False
  end.
(** The path can be written, and holds a text. *)
Fixpoint room (keys : list string) (n : yaml) : Prop :=
  match keys, n with
  | [], _ => True
  | _ :: _, Y_null => True
  | key :: keys, Y_map l =>
      match map_find key l with None => True | Some m => room keys m end
  | _, _ => False
  end.
Fixpoint holds (keys : list string) (n : yaml) (s : string) : Prop :=
  match keys, n with
  | [], _ => n = Y_scalar s
  | key :: keys, Y_map l =>
      match map_find key l with None => False | Some m => holds keys m s end
  | _, _ => False
  end.

(** ** Maps *)

Lemma map_find_update k n l : map_find k (map_update k n l) = Some n.
Proof.
  induction l as [|[k' m] l IH]; simpl; [by rewrite decide_True|].
  case_decide; simpl; [by rewrite decide_True|by rewrite decide_False].
Qed.
Lemma map_find_update_ne k k' n l : k ≠ k' → map_find k (map_update k' n l) = map_find k l.
Proof.
  intros Hk; induction l as [|[j m] l IH]; simpl; [by rewrite decide_False|].
  case_decide; simpl; [subst; by rewrite !(decide_False (P := k' = k))|].
  by rewrite IH.
Qed.
Lemma map_find_singleton k n k' : map_find k' [(k, n)] = if decide (k = k') then Some n else None.
Proof. done. Qed.

(** ** Writing at a path *)

(** One step of the walk of [save]. *)
Lemma save_at_cons key keys s n :
  room (key :: keys) n →
  ∃ child l, save_at (key :: keys) [s] n = (c ← save_at keys [s] child; Ok (Y_map (map_update key c l))) ∧
    room keys child ∧
    ((n = Y_null ∧ l = [] ∧ child = Y_null) ∨
     (n = Y_map l ∧ child = default Y_null (map_find key l))).
Proof.
  destruct n as [| |l'|l']; simpl; try done; intros Hr.
  - exists Y_null, []; split_and!; [done|by destruct keys|by left].
  - exists (default Y_null (map_find key l')), l'.
    destruct (map_find key l') as [m|] eqn:E; simpl.
    + split_and!; [done..|by right].
    + split_and!; [done|by destruct keys|by right].
Qed.

Lemma save_at_holds keys s n :
  room keys n → ∃ n', save_at keys [s] n = Ok n' ∧ holds keys n' s.
Proof.
  revert n; induction keys as [|key keys IH]; intros n Hr; [by exists (Y_scalar s)|].
  destruct (save_at_cons key keys s n Hr) as (child & l & -> & Hc & _).
  destruct (IH child Hc) as (c & -> & Hh). eexists; split; [done|].
  simpl. by rewrite map_find_update.
Qed.

Lemma save_at_room keys keys' s n n' :
  room keys n → save_at keys [s] n = Ok n' → diverge keys keys' → room keys' n → room keys' n'.
Proof.
  revert keys' n n'; induction keys as [|key keys IH]; intros keys' n n' Hr Hs Hd Hr'; [done|].
  destruct keys' as [|key' keys']; [done|].
  destruct (save_at_cons key keys s n Hr) as (child & l & Hs' & Hc & Hn).
  rewrite Hs' in Hs. destruct (save_at_holds keys s child Hc) as (c & Hsc & _).
  rewrite Hsc in Hs; simplify_eq/=.
  destruct (decide (key' = key)) as [->|Hk].
  - destruct Hd as [Hd|Hd]; [done|]. rewrite map_find_update.
    apply (IH keys' child c); [done..|].
    destruct Hn as [(-> & -> & ->)|(-> & ->)]; [by destruct keys'|].
    simpl in Hr'; destruct (map_find key l); [done|by destruct keys'].
  - rewrite map_find_update_ne by done.
    destruct Hn as [(-> & -> & ->)|(-> & ->)]; done.
Qed.

Lemma save_at_keeps keys keys' s s' n n' :
  room keys n → save_at keys [s] n = Ok n' → diverge keys keys' → holds keys' n s' → holds keys' n' s'.
Proof.
  revert keys' n n'; induction keys as [|key keys IH]; intros keys' n n' Hr Hs Hd Hr'; [done|].
  destruct keys' as [|key' keys']; [done|].
  destruct (save_at_cons key keys s n Hr) as (child & l & Hs' & Hc & Hn).
  rewrite Hs' in Hs. destruct (save_at_holds keys s child Hc) as (c & Hsc & _).
  rewrite Hsc in Hs; simplify_eq/=.
  destruct Hn as [(-> & -> & ->)|(-> & ->)]; [done|]. simpl in Hr'.
  destruct (decide (key' = key)) as [->|Hk].
  - destruct Hd as [Hd|Hd]; [done|]. rewrite map_find_update.
    destruct (map_find key l); [by eapply IH|done].
  - by rewrite map_find_update_ne.
Qed.

Lemma find_node_holds keys n s : holds keys n s → find_node keys n = Ok (Y_scalar s).
Proof.
  revert n; induction keys as [|key keys IH]; intros n Hh; simpl in *; [by subst|].
  destruct n as [| |?|l]; try done. simpl.
  destruct (map_find key l) as [m|]; [|done].
  by apply IH.
Qed.
Lemma find_node_absent keys n : absent keys n → ∃ l, find_node keys n = Ok (Y_map l).
Proof.
  revert n; induction keys as [|key keys IH]; intros n Hh; simpl in *; [by destruct n|].
  destruct n as [| |?|l]; try done. simpl.
  destruct (map_find key l) as [m|].
  - by apply IH.
  - by eexists.
Qed.

(** ** The file that is written *)

Lemma diverge_sym ks ks' : diverge ks ks' → diverge ks' ks.
Proof.
  revert ks'; induction ks as [|k ks IH]; intros [|k' ks']; simpl; try done.
  intros [?|?]; [by left; congruence|right; by apply IH].
Qed.

Lemma save_all values root :
  Forall one_default values →
  ForallOrdPairs apart values →
  Forall (λ v, room (_defaultValueConfig v) root) values →
  ∃ root', ConfigHandler_save values root = Ok root' ∧
    (∀ keys s, Forall (λ v, _defaultValueConfig v ≠ [] → diverge (_defaultValueConfig v) keys) values →
       holds keys root s → holds keys root' s) ∧
    Forall (λ v, _defaultValueConfig v ≠ [] →
       ∀ d, _defaultValue v = [d] → holds (_defaultValueConfig v) root' d) values.
Proof.
  intros Hd Ho; revert root. induction Ho as [|v values Hv Ho IH]; intros root Hr.
  { by exists root. }
  apply Forall_cons_1 in Hd as [Hdv Hd]; apply Forall_cons_1 in Hr as [Hrv Hr].
  simpl. destruct (decide (_defaultValueConfig v = [])) as [He|He].
  { rewrite decide_True by (by left). simpl.
    destruct (IH Hd root Hr) as (root' & -> & Hk & Hh). exists root'; split_and!; [done| |by constructor].
    intros keys s [_ Hks]%Forall_cons_1 Hs. by apply Hk. }
  destruct (Hdv He) as [d Ed]. rewrite decide_False, Ed by (rewrite Ed; by intros [?|?]).
  destruct (save_at_holds _ d root Hrv) as (root1 & E1 & H1). rewrite E1. simpl.
  destruct (IH Hd root1) as (root' & -> & Hk & Hh).
  { rewrite Forall_forall in Hv, Hr |- *. intros w Hw.
    destruct (decide (_defaultValueConfig w = [])) as [->|Hne]; [done|].
    eapply save_at_room; [done|done|by apply Hv|by apply Hr]. }
  exists root'; split_and!; [done| |constructor; [|done]].
  - intros keys s [Hvk Hks]%Forall_cons_1 Hs. apply Hk; [done|].
    eapply save_at_keeps; [done..|by apply Hvk|done].
  - intros _ d' Ed'. rewrite Ed in Ed'; simplify_eq. apply Hk; [|done].
    rewrite Forall_forall in Hv |- *. intros w Hw Hne. by apply diverge_sym, Hv.
Qed.

(** ** Parsing *)

Lemma Value_parse_eq env root v :
  Value_parse env root v =
  (current ← (if decide (_defaultValueConfig v ≠ [] ∧ outside env v = []) then from_config root v
              else Ok (outside env v));
   Value_check (set_value current v)).
Proof. done. Qed.

Lemma Value_parse_written env root v :
  (_defaultValueConfig v ≠ [] → ∃ d, _defaultValue v = [d] ∧ holds (_defaultValueConfig v) root d) →
  Value_parse env root v = Value_check (set_value (settled env v) v).
Proof.
  intros Hv. rewrite Value_parse_eq; unfold settled.
  destruct (decide (outside env v = [])) as [Eo|Eo].
  - destruct (decide (_defaultValueConfig v = [])) as [Ec|Ec].
    + rewrite decide_False by naive_solver. by rewrite Eo.
    + rewrite decide_True by done. destruct (Hv Ec) as (d & -> & Hh).
      unfold from_config. by rewrite (find_node_holds _ _ _ Hh).
  - by rewrite decide_False by naive_solver.
Qed.

(** C28: The first start.  When no configuration file exists, one is written with the
    default values and read back.  For values that have one default each, at paths of
    which none begins another, whatever their order: each value ends with the
    argument that was used for it, else the content of the file its variable names,
    else its variable, and else its own default (only a value that is not in the file
    stays without one), and the only error left is a value that is not possible. *)
Theorem first_start env values :
  Forall one_default values →
  ForallOrdPairs apart values →
  initArgs env File_missing values =
  map_result (λ v, Value_check (set_value (settled env v) v)) values.
Proof.
  intros Hd Ha. destruct (save_all values Y_null Hd Ha) as (root & E & _ & Hh).
  { apply Forall_forall. intros v _. by destruct (_defaultValueConfig v). }
  unfold initArgs. rewrite E. simpl. clear E Ha.
  induction values as [|v values IH]; [done|]. simpl.
  apply Forall_cons_1 in Hd as [Hdv Hd]; apply Forall_cons_1 in Hh as [Hhv Hh].
  rewrite Value_parse_written; [by rewrite IH|].
  intros Hne. destruct (Hdv Hne) as [d Ed]. eauto.
Qed.
Lemma first_start_witness :
  let env := mk_Environment (λ a, if decide (a = "--seed"%string) then Some "5"%string else None)
    (λ v, if decide (v = "CBSRV_PORT"%string) then Some "4000"%string else None) (λ _, None) in
  initArgs env File_missing program_values =
  map_result (λ v, Value_check (set_value (settled env v) v)) program_values.
Proof.
  intros env. apply first_start.
  - repeat constructor; intros _; eexists; reflexivity.
  - repeat first [apply FOP_nil | apply FOP_cons]; repeat first [apply Forall_nil_2 | apply Forall_cons_2];
      intros H1 H2; first [by destruct H1|vm_compute; first [left; congruence|right; left; congruence]].
Defined.

(** *** What the program makes of it *)

Definition quiet_env : Environment := mk_Environment (λ _, None) (λ _, None) (λ _, None).
Definition option_of (name : string) (r : result (list Value)) : result string :=
  l ← r; v ← ConfigHandler_get name l; Value_value v.

Example first_start_port : option_of "port" (initArgs quiet_env File_missing program_values) = Ok "25565"%string.
Proof. vm_compute. reflexivity. Qed.

(** C29: An option that an existing file leaves out, where the file and the sections on the
    way to it are maps.  With no argument and no variable for it, a value with a path stops the
    program, whatever its default: the walk ends on the map that lacks the key, which
    is neither a text nor a list.  (A file or a section that is empty is no map: its
    options become the text null, [empty_section_null].) *)
Theorem missing_option_refused env root before v after :
  outside env v = [] →
  absent (_defaultValueConfig v) root →
  (∀ w, w ∈ before → ∃ w', Value_parse env root w = Ok w') →
  Node_load (File_read root) = Ok root →
  initArgs env (File_read root) (before ++ v :: after) = Throw ConfigurationError.
Proof.
  intros Ho Ha Hb Hl. unfold initArgs. rewrite Hl. simpl.
  induction before as [|w before IH]; simpl.
  - rewrite Value_parse_eq, Ho, decide_True.
    + destruct (find_node_absent _ _ Ha) as [l E]. unfold from_config. by rewrite E.
    + split; [|done]. by intros E; rewrite E in Ha.
  - destruct (Hb w) as [w' ->]; [by left|]. simpl. rewrite IH; [done|].
    intros x Hx. apply Hb. by right.
Qed.

(** A file with everything but the render distance. *)
Definition old_file : yaml := Y_map [("network"%string, Y_map [("ip"%string, Y_scalar "0.0.0.0"); ("port"%string, Y_scalar "25565")])].
Definition port_value : Value := Value_defaultValue "20" (option_in "network" "backlog" "CBSRV_BACKLOG").
Definition ip_value : Value := Value_defaultValue "0.0.0.0" (option_in "network" "ip" "CBSRV_IP").
Lemma missing_option_refused_witness :
  initArgs quiet_env (File_read old_file) ([ip_value] ++ port_value :: []) = Throw ConfigurationError.
Proof.
  apply missing_option_refused; [reflexivity|exact I| |reflexivity].
  intros w ->%list.list_elem_of_singleton. eexists. reflexivity.
Defined.

(** The walk ends on a node that is empty. *)
Fixpoint empty_on_the_way (keys : list string) (n : yaml) : Prop :=
  match keys, n with
  | _ :: _, Y_null => True
  | key :: keys, Y_map l => match map_find key l with Some m => empty_on_the_way keys m | None => False end
  | _, _ => False
  end.

(** An empty section, or an empty file, is read as the text of each of its options. *)
Lemma empty_section_null env root v :
  outside env v = [] → empty_on_the_way (_defaultValueConfig v) root → _possibleValue v = [] →
  Value_parse env root v = Ok (set_value ["null"%string] v).
Proof.
  intros Ho He Hp. rewrite Value_parse_eq, Ho, decide_True.
  2:{ split; [|done]. intros E. by rewrite E in He. }
  assert (find_node (_defaultValueConfig v) root = Ok Y_null) as E.
  { revert root He. induction (_defaultValueConfig v) as [|key keys IH]; intros [] He; try done.
    cbn in *. destruct (map_find key l) as [m|]; [|done]. rewrite bool_decide_eq_true_2 by done. cbn. by apply IH. }
  unfold from_config. rewrite E. cbn. unfold Value_check. cbn. by rewrite Hp.
Qed.

(** A list of possible values lets the empty text through.  The list is first
    filled with as many empty texts as it has values, so a variable that is set and
    empty, for which no argument was given, passes the check of its own list; a
    boolean option is then off, whatever its default. *)
Theorem empty_variable_accepted env root v l :
  let v := Value_possibleValues l v in
  l ≠ [] →
  _value v = [] →
  (_defaultValueArgument v = EmptyString ∨ argument_used env (_defaultValueArgument v) = None) →
  _defaultValueEnvironmentVariable v ≠ EmptyString →
  getenv env (String.append (_defaultValueEnvironmentVariable v) "_FILE") = None →
  getenv env (_defaultValueEnvironmentVariable v) = Some EmptyString →
  Value_parse env root v = Ok (set_value [EmptyString] v) ∧
  Convertor_bool EmptyString = false.
Proof.
  intros w Hl Hv Harg Hvar Hfile Henv. split; [|done]. subst w; simpl in *.
  rewrite Value_parse_eq.
  assert (outside env (Value_possibleValues l v) = [EmptyString]) as ->.
  { assert (from_argument env (Value_possibleValues l v) = []) as E1.
    { unfold from_argument; simpl. rewrite Hv. destruct Harg as [-> | ->]; [done|by case_decide]. }
    unfold outside. rewrite E1, decide_True by done.
    unfold from_environment; simpl. by rewrite Hfile, Henv. }
  rewrite decide_False by (by intros []). simpl.
  unfold Value_check; simpl. destruct l as [|x l]; [done|]. simpl.
  done.
Qed.
Lemma empty_variable_accepted_witness :
  let env := mk_Environment (λ _, None)
    (λ v, if decide (v = "CBSRV_ONLINE_MODE"%string) then Some EmptyString else None) (λ _, None) in
  let v := Value_possibleValues ["false"; "true"]%string (Value_defaultValue "true"
             (Value_valueFromArgument "--online-mode" (option_in "general" "online-mode" "CBSRV_ONLINE_MODE"))) in
  Value_parse env Y_null v = Ok (set_value [EmptyString] v) ∧ Convertor_bool EmptyString = false.
Proof.
  intros env v.
  apply (empty_variable_accepted env Y_null
    (Value_defaultValue "true" (Value_valueFromArgument "--online-mode"
       (option_in "general" "online-mode" "CBSRV_ONLINE_MODE"))) ["false"; "true"]%string);
    try reflexivity; try discriminate. by right.
Defined.

(** A port outside its width is taken modulo it; what is not a number ends the program. *)
Lemma Convertor_uint16_wraps s n : stoi s = Ok n → Convertor_uint16 s = Ok (n mod 2 ^ 16).
Proof. intros E. unfold Convertor_uint16. by rewrite E. Qed.
Example port_70000 : Convertor_uint16 "70000" = Ok 4464.
Proof. vm_compute. reflexivity. Qed.
Example port_null : ∀ env, outside env (option_in "network" "port" "CBSRV_PORT") = [] →
  (v ← Value_parse env Y_null (option_in "network" "port" "CBSRV_PORT"); s ← Value_value v; Convertor_uint16 s)
  = Throw std_logic_error.
Proof. intros env E. rewrite Value_parse_eq, E. vm_compute. reflexivity. Qed.
