(* ===== verification/ClientProps.v ===== *)
(** * The clientbound packets

    A client that knows the layout of the packets reads back, from the bytes of
    every [create] function, the structure that was sent; and what the server
    leaves out. *)

From S2P Require Import Prelude Types Codec Structures Add Pop PrimaryLaws CompositeLaws RoundTrip Nbt NbtLaws ClientPackets AddStructures CreatePackets ClientWire.

(** ** Framing *)

Lemma reads_whole {A} (p : reader A) bs a :
  Reads p bs a → p bs (zlen bs - 1) 0 = Ok (a, zlen bs).
Proof.
  intros H. pose proof (H [] [] (zlen bs - 1)) as E. cbn [app] in E.
  rewrite app_nil_r in E. apply E. lia.
Qed.

(** A reader with nothing after it knows how many bytes are left. *)
Lemma reads_length {A} (p : reader A) length bs a :
  Reads p bs a → length = zlen bs → length < 2 ^ 31 →
  (n ← popVarInt; d ← distance_to_eof; if decide (d + 1 ≠ n) then throw PacketEOF else p)
    (varint_bytes length ++ bs) (zlen (varint_bytes length ++ bs) - 1) 0 =
  Ok (a, zlen (varint_bytes length ++ bs)).
Proof.
  intros H -> Hl. unfold mbind, reader_bind.
  pose proof (reads_popVarInt (zlen bs) [] bs (zlen (varint_bytes (zlen bs) ++ bs) - 1)) as E.
  cbn [app] in E. change (zlen []) with 0 in E. rewrite E by zlia. cbn.
  unfold to_i32. rewrite wrap_s_id by (unfold is_s; zlia).
  rewrite decide_False by zlia.
  pose proof (H (varint_bytes (zlen bs)) [] (zlen (varint_bytes (zlen bs) ++ bs) - 1)) as E'.
  rewrite app_nil_r in E'. apply E'. zlia.
Qed.

Lemma packet_framed {A} (id : Z) (w : writer) (p : reader A) (a : A) :
  is_s 32 id → RT w p a →
  ∃ frame, packet id w = Ok frame ∧
    (zlen frame < 2 ^ 31 → read_frame id p frame (zlen frame - 1) 0 = Ok (a, zlen frame)).
Proof.
  intros Hid (bs & Hw & Hp). unfold packet, finalize.
  rewrite (emits_nil _ _ Hw). cbn [mbind result_bind].
  rewrite (emits_nil _ _ (emits_addVarInt id)). cbn [mbind result_bind].
  rewrite (emits_nil _ _ (emits_addVarInt _)). cbn [mbind result_bind].
  set (body := varint_bytes id ++ bs).
  replace (zlen bs + zlen (varint_bytes id)) with (zlen body) by (unfold body; zlia).
  eexists. split; [done|]. intros Hl.
  assert (to_u64 (zlen body) = zlen body) as E.
  { apply wrap_u_id. unfold is_u. revert Hl. zlia. }
  rewrite E in *. apply (reads_length _ (zlen body) body a); [|done|revert Hl; zlia].
  eapply reads_bind; [apply _|]. cbn beta. unfold to_i32. rewrite wrap_s_id by done.
  rewrite decide_False by (intros []; done). done.
Qed.

(** ** Round trips of the parts *)

Lemma rt_NBT t : nbt_carried t → RT (addNBT t) read_NBT t.
Proof.
  intros [Hw Hs]. exists (nbt_wire true t). split; [by apply nbt_emits|].
  unfold read_NBT. rewrite <- (app_nil_r (nbt_wire true t)).
  eapply reads_bind; [by apply reads_nbt_parse|]. cbn. rewrite Hs. apply reads_ret.
Qed.
#[export] Hint Resolve rt_NBT : rt.

(** An array written as its length and then its elements. *)
Lemma rt_counted {A B T} (w : T → writer) (p : reader A) l l' (k : list A → reader B) ws b :
  RT (addArray w l) (popArray p) l' → RT (serialize ws) (k l') b →
  RT (serialize (addVarInt (zlen l) :: serialize (w <$> l) :: ws)) (popArray p ≫= k) b.
Proof.
  intros (bs & Hw & Hp) (bs' & Hws & Hk). exists (bs ++ bs'). split; [|by eapply reads_bind].
  intros out. specialize (Hw out). unfold addArray in Hw. cbn [serialize].
  rewrite (emits_addVarInt (zlen l) out) in *. cbn [mbind result_bind] in *.
  rewrite Hw. cbn [mbind result_bind]. by rewrite Hws, app_assoc.
Qed.

Lemma rt_none {A} (p : reader A) : RT (addVarInt 0) (popArray p) [].
Proof.
  exists (varint_bytes 0). split; [apply _|]. rewrite <- (app_nil_r (varint_bytes 0)).
  eapply reads_bind; [apply _|apply reads_ret].
Qed.
#[export] Hint Resolve rt_none : rt.

(** The casts of the enumerations to [uint8_t]. *)
Lemma rt_Byte_cast v : is_u 8 v → RT (addByte (to_u8 v)) popByte v.
Proof. intros H. rewrite (to_u8_id v H). by apply rt_Byte. Qed.
Lemma rt_VarInt_cast v : is_u 8 v → RT (addVarInt (to_u8 v)) popVarInt v.
Proof.
  intros H. rewrite (to_u8_id v H). apply rt_VarInt. unfold is_u, is_s in *.
  change (2 ^ 8) with 256 in H. lia.
Qed.
#[export] Hint Extern 0 (RT (addByte _) _ _) => apply rt_Byte; assumption : rt.
#[export] Hint Extern 0 (RT (addByte (to_u8 _)) _ _) => apply rt_Byte_cast; assumption : rt.
#[export] Hint Extern 0 (RT (addVarInt (to_u8 _)) _ _) => apply rt_VarInt_cast; assumption : rt.

Lemma rt_map {A B} w (p : reader A) (f : A → B) a :
  RT w p a → RT w (x ← p; mret (f x)) (f a).
Proof.
  intros (bs & Hw & Hp). exists bs. split; [done|]. rewrite <- (app_nil_r bs).
  eapply reads_bind; [done|apply reads_ret].
Qed.

Ltac rt_parts :=
  repeat first
    [ eapply rt_cons; [solve [eauto 6 with rt]|cbn beta]
    | eapply rt_counted; [solve [eauto 6 with rt]|cbn beta] ];
  apply rt_ret.

Lemma rt_RawMessage m : wf_RawMessage m → RT (addRawMessage m) read_RawMessage m.
Proof. intros (? & ?). unfold addRawMessage, add_bytes. rt_parts. by destruct m. Qed.
#[export] Hint Resolve rt_RawMessage : rt.

Ltac rt_part p := intros H; red in H; destruct_and?; rt_parts; rt_record p.

Lemma rt_AttributesPropertyModifier m :
  wf_AttributesPropertyModifier m →
  RT (addAttributesPropertyModifier m) read_AttributesPropertyModifier m.
Proof. rt_part m. Qed.
#[export] Hint Resolve rt_AttributesPropertyModifier : rt.

Lemma rt_AttributesProperty m :
  wf_AttributesProperty m → RT (addAttributesProperty m) read_AttributesProperty m.
Proof. rt_part m. Qed.
#[export] Hint Resolve rt_AttributesProperty : rt.

Lemma rt_AdvancementCriteria m :
  wf_AdvancementCriteria m → RT (addAdvancementCriteria m) read_AdvancementCriteria m.
Proof. intros H. destruct m as [key]. by apply rt_map, rt_Identifier. Qed.
#[export] Hint Resolve rt_AdvancementCriteria : rt.

Lemma rt_AdvancementDisplay m :
  wf_AdvancementDisplay m → RT (addAdvancementDisplay m) read_AdvancementDisplay m.
Proof. rt_part m. Qed.
#[export] Hint Resolve rt_AdvancementDisplay : rt.

Lemma rt_Advancement m : wf_Advancement m → RT (addAdvancement m) read_Advancement m.
Proof. rt_part m. Qed.
#[export] Hint Resolve rt_Advancement : rt.

Lemma rt_AdvancementMapping m :
  wf_AdvancementMapping m → RT (addAdvancementMapping m) read_AdvancementMapping m.
Proof. rt_part m. Qed.
#[export] Hint Resolve rt_AdvancementMapping : rt.

Lemma rt_CriterionProgress m :
  wf_CriterionProgress m → RT (addAdvancementCriterionProgress m) read_CriterionProgress m.
Proof. rt_part m. Qed.
#[export] Hint Resolve rt_CriterionProgress : rt.

Lemma rt_CriteriaMapping m :
  wf_CriteriaMapping m → RT (addAdvancementCriteriaMapping m) read_CriteriaMapping m.
Proof. rt_part m. Qed.
#[export] Hint Resolve rt_CriteriaMapping : rt.

Lemma rt_ProgressMapping m :
  wf_ProgressMapping m → RT (addAdvancementProgressMapping m) read_ProgressMapping m.
Proof. rt_part m. Qed.
#[export] Hint Resolve rt_ProgressMapping : rt.

Lemma rt_PlayerProperty p :
  wf_PlayerProperty p →
  RT (serialize [
        addString (PlayerProperty_name p);
        addString (PlayerProperty_value p);
        addBoolean (PlayerProperty_isSigned p);
        when (PlayerProperty_isSigned p) (addString (PlayerProperty_signature p))])
     read_PlayerProperty p.
Proof. rt_part p. Qed.

Lemma rt_InitializeChat (b : bool) : b = false → RT (addBoolean b) read_InitializeChat b.
Proof.
  intros ->. destruct (rt_Boolean false) as (bs & Hw & Hr). exists bs. split; [done|].
  rewrite <- (app_nil_r bs). unfold read_InitializeChat. eapply reads_bind; [exact Hr|apply reads_ret].
Qed.
Lemma rt_UpdateDisplayName n :
  n = mk_Action_UpdateDisplayName false String.EmptyString →
  RT (addBoolean (Action_UpdateDisplayName_hasDisplayName n)) read_UpdateDisplayName n.
Proof.
  intros ->. destruct (rt_Boolean false) as (bs & Hw & Hr). exists bs. split; [done|].
  rewrite <- (app_nil_r bs). unfold read_UpdateDisplayName. eapply reads_bind; [exact Hr|].
  rewrite <- (app_nil_r []). eapply reads_bind; apply reads_ret.
Qed.

#[export] Hint Resolve rt_InitializeChat rt_UpdateDisplayName : rt.

Lemma rt_AddPlayer p :
  wf_AddPlayer p →
  RT (serialize [addString (Action_AddPlayer_name p); addVarInt 0]) read_AddPlayer p.
Proof. rt_part p. Qed.
#[export] Hint Resolve rt_AddPlayer : rt.

(** The writer of one action, as in [createPlayerInfoUpdate]. *)
Lemma rt_Action p a :
  wf_Action (PlayerInfoUpdate_actions p) a →
  RT (serialize [
        addUUID (Action_uuid a);
        when (has_action p PlayerInfoUpdate_Actions_AddPlayer) (serialize [
          addString (Action_AddPlayer_name (Action_addPlayer a));
          addVarInt 0]);
        when (has_action p PlayerInfoUpdate_Actions_InitializeChat)
          (addBoolean (Action_InitializeChat_hasSigData (Action_initializeChat a)));
        when (has_action p PlayerInfoUpdate_Actions_UpdateGamemode)
          (addVarInt (Action_UpdateGamemode_gamemode (Action_updateGamemode a)));
        when (has_action p PlayerInfoUpdate_Actions_UpdateListed)
          (addBoolean (Action_UpdateListed_listed (Action_updateListed a)));
        when (has_action p PlayerInfoUpdate_Actions_UpdateLatency)
          (addVarInt (Action_UpdateLatency_latency (Action_updateLatency a)));
        when (has_action p PlayerInfoUpdate_Actions_UpdateDisplayName)
          (addBoolean (Action_UpdateDisplayName_hasDisplayName (Action_updateDisplayName a)))])
     (read_Action (PlayerInfoUpdate_actions p)) a.
Proof.
  intros H. red in H. destruct_and?. unfold has_action. rt_parts.
  destruct a as [? [] [] [] [] [] []]; cbn in *; by subst.
Qed.

#[export] Hint Extern 1 (RT (addArray _ _) (popArray read_PlayerProperty) _) =>
  refine (rt_Array _ _ _ _ rt_PlayerProperty _); eassumption : rt.
#[export] Hint Extern 1 (RT (addArray _ _) (popArray (read_Action (PlayerInfoUpdate_actions ?p))) _) =>
  refine (rt_Array _ _ _ _ (rt_Action p) _); eassumption : rt.

Lemma rt_ServerData p :
  wf_ServerData p →
  RT (serialize [addBoolean (ServerData_hasMotd p); addBoolean (ServerData_hasIcon p);
       addBoolean (ServerData_enforceSecureChat p)]) read_ServerData p.
Proof.
  destruct p as [? ? ? ? e]. intros (H1 & H2 & H3 & H4). simpl in H1, H2, H3, H4. subst. unfold read_ServerData. do 2 (eapply rt_cons; [apply rt_Boolean|]; apply rt_skip).
  eapply rt_cons; [apply rt_Boolean|]. by apply rt_ret.
Qed.

Lemma rt_metadata p m :
  SetEntityMetadata_metadata p = [m] → is_s 32 (SetEntityMetadata_entityId p) →
  is_u 8 (EntityMetadata_index m) → EntityMetadata_index m ≠ 0xff → is_s 32 (EntityMetadata_type m) →
  slot_canonical (EntityMetadata_slot m) →
  RT (serialize [
        addVarInt (SetEntityMetadata_entityId p);
        addByte (EntityMetadata_index m);
        addVarInt (EntityMetadata_type m);
        addSlot (EntityMetadata_slot m);
        addByte 0xff]) read_SetEntityMetadata p.
Proof.
  intros Hm ? ? Hi ? ?. unfold read_SetEntityMetadata. eapply rt_cons; [solve [eauto with rt]|cbn beta].
  apply (rt_bind_ret _ _ (λ l, mk_SetEntityMetadata (SetEntityMetadata_entityId p) l) [m]); [|destruct p; cbn in *; by f_equal].
  cbn [read_metadata]. eapply rt_cons; [solve [eauto with rt]|cbn beta]. rewrite decide_False by done.
  do 2 (eapply rt_cons; [solve [eauto with rt]|cbn beta]).
  apply (rt_bind_ret _ _ (cons (mk_EntityMetadata (EntityMetadata_index m) (EntityMetadata_type m) (EntityMetadata_slot m))) []);
    [|by destruct m].
  eapply rt_cons; [by apply rt_Byte|cbn beta]. rewrite decide_True by done. by apply rt_ret.
Qed.

Lemma rt_LoginPlay_death (b : bool) name location :
  (if b then string_fits name ∧ Position_in_wire_range location
   else (name, location) = (String.EmptyString, mk_Position 0 0 0)) →
  RT (when b (serialize [addString name; addPosition location]))
     (if b then deathDimensionName ← popString; deathLocation ← popPosition;
        mret (deathDimensionName, deathLocation)
      else mret (String.EmptyString, mk_Position 0 0 0)) (name, location).
Proof. intros H. apply rt_when. destruct b; [destruct H; rt_parts; done|done]. Qed.

Lemma rt_single {A} w (p : reader A) a : RT w p a → RT (serialize [w]) p a.
Proof.
  intros (bs & Hw & Hp). exists (bs ++ []). split; [apply emits_serialize_cons; [done|apply _]|].
  by rewrite app_nil_r.
Qed.

(** ** All packets *)

Lemma framed_as {A} (id : Z) (w : writer) (p : reader A) (a : A) (f : A → ClientPacket) :
  is_s 32 id → RT w p a →
  ∃ frame, packet id w = Ok frame ∧
    (zlen frame < 2 ^ 31 →
     read_frame id (x ← p; mret (f x)) frame (zlen frame - 1) 0 = Ok (f a, zlen frame)).
Proof. intros Hid H. apply packet_framed; [done|]. by apply rt_map. Qed.


(** A player of the list, with the game mode and the latency but no name. *)
Definition action_example : Action :=
  mk_Action (mk_u128 1 2) (mk_Action_AddPlayer String.EmptyString []) (mk_Action_InitializeChat false)
    (mk_Action_UpdateGamemode 1) (mk_Action_UpdateListed false) (mk_Action_UpdateLatency (-1))
    (mk_Action_UpdateDisplayName false String.EmptyString).
Definition packet_example : ClientPacket :=
  Sent_PlayerInfoUpdate (mk_PlayerInfoUpdate 0x14 [action_example; action_example]).

