(* ===== verification/ChunkWireProps.v ===== *)
(** * The chunk packet, as a client reads it

    [createChunkDataAndLightUpdate] nests a byte array inside of the packet: the
    sections, each with a block count and two paletted containers.  This file is
    the client's side, the layout of the protocol: paletted containers with one
    identifier, an indirect palette or none, light arrays found through bit
    masks; and the sized round-trip relation that the nested array needs. *)

From S2P Require Import Prelude State Types Codec Structures Add Pop PrimaryLaws CompositeLaws RoundTrip Nbt NbtLaws DynamicStorage StorageLaws Palette Section SectionLaws ChunkColumn ChunkLaws ChunkProps ClientPackets AddStructures CreatePackets ClientWire ClientProps.

(** ** Paletted containers *)

Record Paletted : Type := mk_Paletted {
  paletted_bits : Z;
  paletted_ids : list Z;
  paletted_longs : list Z
}.

Definition read_longs : reader (list Z) := popArray (v ← popLong; mret (to_u64 v)).

(** No bits: one identifier; up to [indirect] bits: a palette; more: the entries
    are global identifiers. *)
Definition read_paletted (indirect : Z) : reader Paletted :=
  bits ← popByte;
  ids ← (if decide (bits = 0) then id ← popVarInt; mret [id]
         else if decide (bits ≤ indirect) then popArray popVarInt else mret []);
  longs ← read_longs;
  mret (mk_Paletted bits ids longs).

(** Entries do not span words. *)
Definition paletted_entry (p : Paletted) (i : Z) : Z :=
  let per_word := 64 / paletted_bits p in
  Z.land (Z.shiftr (paletted_longs p !!! Z.to_nat (i / per_word))
            (i `mod` per_word * paletted_bits p)) (Z.ones (paletted_bits p)).

Definition paletted_get (indirect : Z) (p : Paletted) (i : Z) : option Z :=
  if decide (paletted_bits p = 0) then head (paletted_ids p)
  else if decide (paletted_bits p ≤ indirect) then paletted_ids p !! Z.to_nat (paletted_entry p i)
  else Some (paletted_entry p i).

Definition BLOCK_INDIRECT : Z := 8.
Definition BIOME_INDIRECT : Z := 3.

(** ** Sections *)

Record SeenSection : Type := mk_SeenSection {
  seen_count : Z;
  seen_blocks : Paletted;
  seen_biomes : Paletted
}.

Definition read_section : reader SeenSection :=
  count ← popShort;
  blocks ← read_paletted BLOCK_INDIRECT;
  biomes ← read_paletted BIOME_INDIRECT;
  mret (mk_SeenSection count blocks biomes).

(** [p] applied to the whole of a byte array. *)
Definition read_within {A} (p : reader A) (data : list Z) : result A :=
  r ← p data (zlen data - 1) 0;
  if decide (r.2 = zlen data) then Ok r.1 else Throw PacketEOF.

(** ** Light *)

Record SeenLight : Type := mk_SeenLight {
  seen_mask : list Z;
  seen_arrays : list (list Z)
}.

(** The array of section [i] is the one whose rank is the number of sections
    below it that are in the mask. *)
Definition in_mask (mask : list Z) (i : Z) : bool :=
  Z.testbit (mask !!! Z.to_nat (i / 64)) (i `mod` 64).
Definition rank (mask : list Z) (i : Z) : nat := length (filter (λ j, in_mask mask j) (seqZ 0 i)).

Definition light_get (l : SeenLight) (i cell : Z) : option Z :=
  if in_mask (seen_mask l) i then
    a ← seen_arrays l !! rank (seen_mask l) i;
    b ← a !! Z.to_nat (cell / 2);
    Some (Z.land (Z.shiftr b (cell `mod` 2 * 4)) 15)
  else Some 0.

(** ** The packet *)

Record SeenChunk : Type := mk_SeenChunk {
  seen_x : Z;
  seen_z : Z;
  seen_heightMap : nbt_Base;
  seen_sections : list SeenSection;
  seen_sky : SeenLight;
  seen_block_light : SeenLight
}.

Definition read_light : reader (SeenLight * SeenLight) :=
  trustEdges ← popBoolean;
  skyMask ← read_longs;
  blockMask ← read_longs;
  emptySkyMask ← read_longs;
  emptyBlockMask ← read_longs;
  sky ← popArray (popArray popByte);
  block ← popArray (popArray popByte);
  mret (mk_SeenLight skyMask sky, mk_SeenLight blockMask block).

(** A byte array that is itself a sequence of [n] sections. *)
Definition read_data (n : nat) : reader (list SeenSection) :=
  data ← popArray popByte;
  computed (read_within (popArray_loop read_section n) data).

(** A column has twenty-four sections, and no block entities here. *)
Definition read_chunk : reader SeenChunk :=
  x ← popInt;
  z ← popInt;
  heightMap ← read_NBT;
  sections ← read_data 24;
  entities ← popVarInt;
  if decide (entities ≠ 0) then throw std_runtime_error
  else
    light ← read_light;
    mret (mk_SeenChunk x z heightMap sections light.1 light.2).

Definition seen_section_at (k : SeenChunk) (y : Z) : option SeenSection :=
  seen_sections k !! Z.to_nat ((y + 64) / 16).

(** The block, the biome and the light a client sees at a position of the world
    relative to the column. *)
Definition client_block (k : SeenChunk) (x y z : Z) : option Z :=
  s ← seen_section_at k y;
  paletted_get BLOCK_INDIRECT (seen_blocks s) (x + z * 16 + (y + 64) `mod` 16 * 256).
Definition client_biome (k : SeenChunk) (x y z : Z) : option Z :=
  s ← seen_sections k !! Z.to_nat ((y + 16) / 4);
  paletted_get BIOME_INDIRECT (seen_biomes s) (x + z * 4 + (y + 16) `mod` 4 * 16).
(** The light arrays start one section below the world. *)
Definition client_light (l : SeenLight) (x y z : Z) : option Z :=
  light_get l ((y + 80) / 16) (x + z * 16 + (y + 64) `mod` 16 * 256).

(** ** Sized round trips *)

(** [RT], with the bytes known to be bytes and at most [n]. *)
Definition Sized {A} (n : Z) (w : writer) (p : reader A) (a : A) : Prop :=
  ∃ bs, Emits w bs ∧ Reads p bs a ∧ Forall is_byte bs ∧ zlen bs ≤ n.

Lemma sized_rt {A} n w (p : reader A) a : Sized n w p a → RT w p a.
Proof. intros (bs & ? & ? & _). by exists bs. Qed.

Lemma sized_ext {A} n w w' (p : reader A) a :
  (∀ out, w out = w' out) → Sized n w' p a → Sized n w p a.
Proof. intros E (bs & Hw & ?). exists bs. split; [|done]. intros out. by rewrite E, Hw. Qed.

Lemma sized_le {A} n n' w (p : reader A) a : n ≤ n' → Sized n w p a → Sized n' w p a.
Proof. intros ? (bs & ? & ? & ? & ?). exists bs. split_and!; (done || lia). Qed.

Lemma sized_ret {A} (a b : A) : a = b → Sized 0 (serialize []) (mret a) b.
Proof. intros ->. exists []. split_and!; [apply _|apply reads_ret|constructor|done]. Qed.

Lemma sized_cons {A B} n m w ws (p : reader A) (f : A → reader B) a b :
  Sized n w p a → Sized m (serialize ws) (f a) b → Sized (n + m) (serialize (w :: ws)) (p ≫= f) b.
Proof.
  intros (bs & Hw & Hp & Hb & Hl) (bs' & Hws & Hf & Hb' & Hl'). exists (bs ++ bs').
  split_and!; [by apply emits_serialize_cons|by eapply reads_bind|by apply Forall_app|zlia].
Qed.

Lemma serialize_app ws ws' out : serialize (ws ++ ws') out = serialize ws out ≫= serialize ws'.
Proof.
  revert out. induction ws as [|w ws IH]; intros out; [done|]. cbn.
  destruct (w out); cbn; [apply IH|done..].
Qed.

Lemma sized_app {A B} n m ws ws' (p : reader A) (f : A → reader B) a b :
  Sized n (serialize ws) p a → Sized m (serialize ws') (f a) b →
  Sized (n + m) (serialize (ws ++ ws')) (p ≫= f) b.
Proof.
  intros Hp Hf. eapply (sized_ext _ _ (serialize [serialize ws; serialize ws'])).
  { intros out. rewrite serialize_app. cbn. destruct (serialize ws out) as [o| | |]; cbn; [|done..].
    by destruct (serialize ws' o). }
  eapply sized_cons; [exact Hp|]. eapply sized_ext; [|exact Hf].
  intros out. cbn. by destruct (serialize ws' out).
Qed.

Lemma sized_map {A B} n w (p : reader A) (f : A → B) a b :
  Sized n w p a → f a = b → Sized n w (x ← p; mret (f x)) b.
Proof.
  intros (bs & Hw & Hp & ? & ?) <-. exists bs. split_and!; [done| |done|done].
  rewrite <- (app_nil_r bs). eapply reads_bind; [done|apply reads_ret].
Qed.

Lemma sized_single {A} n w (p : reader A) a : Sized n w p a → Sized n (serialize [w]) p a.
Proof.
  intros H. eapply sized_ext; [|exact H]. intros out. cbn. by destruct (w out).
Qed.

Lemma var_bytes_size n v : zlen (var_bytes n v) ≤ Z.of_nat n.
Proof.
  revert v. induction n as [|n IH]; intros v; [done|]. cbn [var_bytes].
  case_decide; [cbn; lia|]. specialize (IH (v / 128)). zlia.
Qed.

Lemma var_bytes_is_byte n v : 0 ≤ v → Forall is_byte (var_bytes n v).
Proof.
  revert v. induction n as [|n IH]; intros v Hv; [constructor|]. cbn [var_bytes].
  pose proof (Z.mod_pos_bound v 128 ltac:(lia)).
  case_decide; constructor; [unfold is_byte, is_u; lia|constructor|unfold is_byte, is_u; lia|].
  apply IH. by apply Z.div_pos.
Qed.

Lemma sized_VarInt v : is_s 32 v → Sized 5 (addVarInt v) popVarInt v.
Proof.
  intros H. exists (varint_bytes v). split_and!; [apply _| | |apply var_bytes_size].
  - eapply reads_eq; [apply _|done|]. by apply wrap_s_id.
  - apply var_bytes_is_byte. apply Z.mod_pos_bound. lia.
Qed.

Lemma sized_Byte v : is_u 8 v → Sized 1 (addByte v) popByte v.
Proof.
  intros H. exists [to_u8 v]. split_and!; [apply _| |repeat constructor; apply Z.mod_pos_bound; lia|done].
  eapply reads_eq; [apply _|done|]. by apply wrap_u_id.
Qed.

Lemma sized_Boolean b : Sized 1 (addBoolean b) popBoolean b.
Proof.
  eexists. split_and!; [apply emits_addBoolean|apply reads_popBoolean_bit| |done].
  destruct b; repeat constructor; done.
Qed.

Lemma sized_Short v : is_u 16 v → Sized 2 (addShort v) popShort v.
Proof.
  intros H. exists (be_bytes 2 v). split_and!; [apply _| |apply be_bytes_is_byte|done].
  eapply reads_eq; [apply _|done|]. by apply wrap_u_id.
Qed.

Lemma sized_ULong v : is_u 64 v → Sized 8 (addUnsignedLong v) (v ← popLong; mret (to_u64 v)) v.
Proof.
  intros H. exists (be_bytes 8 v). split_and!; [apply _| |apply be_bytes_is_byte|done].
  rewrite <- (app_nil_r (be_bytes 8 v)). eapply reads_bind; [apply _|]. cbn beta.
  unfold to_i64, to_u64. rewrite wrap_u_wrap_s, wrap_u_id by done. apply reads_ret.
Qed.

Lemma sized_elements {T} n (add : T → writer) (pop : reader T) l :
  Forall (λ x, Sized n (add x) pop x) l →
  Sized (n * zlen l) (serialize (add <$> l)) (popArray_loop pop (length l)) l.
Proof.
  induction 1 as [|x l Hx HF IH].
  { apply (sized_le 0); [by rewrite Z.mul_0_r|by apply sized_ret]. }
  apply (sized_le (n + n * zlen l)); [rewrite zlen_cons; lia|]. cbn.
  eapply sized_cons; [exact Hx|]. by eapply sized_map; [exact IH|].
Qed.

Lemma sized_Array {T} n (add : T → writer) (pop : reader T) l :
  0 ≤ n → zlen l < 2 ^ 31 → Forall (λ x, Sized n (add x) pop x) l →
  Sized (5 + n * zlen l) (addArray add l) (popArray pop) l.
Proof.
  intros Hn Hl HF.
  eapply (sized_ext _ _ (serialize [addVarInt (zlen l); serialize (add <$> l)])).
  { intros out. unfold addArray. cbn [serialize]. rewrite (emits_addVarInt (zlen l) out).
    cbn [mbind result_bind]. by destruct (serialize (add <$> l) _). }
  unfold popArray. eapply sized_cons; [apply sized_VarInt; unfold is_s; zlia|]. cbn beta.
  rewrite Nat2Z.id. by apply sized_single, sized_elements.
Qed.

(** A whole array is read to its end. *)
Lemma sized_within {A} n w (p : reader A) a :
  Sized n w p a → ∃ bs, w [] = Ok bs ∧ read_within p bs = Ok a ∧ Forall is_byte bs ∧ zlen bs ≤ n.
Proof.
  intros (bs & Hw & Hp & ?). exists bs. split_and!; [by apply emits_nil| |tauto..].
  unfold read_within. pose proof (Hp [] [] (zlen bs - 1)) as E. cbn [app] in E.
  rewrite app_nil_r in E. change (zlen []) with 0 in E. rewrite E by lia. cbn. by rewrite decide_True.
Qed.

(** * What a client sees of a chunk

    The bytes of the chunk packet, read with the layout of the protocol, show
    the blocks, the biomes and the light of the column. *)

(** ** Paletted containers *)

Definition palette_ids (p : Palette) (d : DynamicStorage) : writer :=
  if decide (_valueSize d = 0) then addVarInt 0
  else if decide (_valueSize d = 15) then serialize [] else addArray addVarInt p.
Definition storage_longs (d : DynamicStorage) : writer :=
  if decide (_valueSize d = 0) then addVarInt 0 else add_longs (_store d).
Definition paletted_writer (p : Palette) (d : DynamicStorage) : writer :=
  serialize [addByte (_valueSize d); palette_ids p d; storage_longs d].

Definition seen_paletted (indirect : Z) (p : Palette) (d : DynamicStorage) : Paletted :=
  mk_Paletted (_valueSize d)
    (if decide (_valueSize d = 0) then [0] else if decide (_valueSize d ≤ indirect) then p else [])
    (_store d).

Section Paletted.
Context (N : Z) (getBits : Palette → result Z) (capacity indirect : Z).
Context {HB : BitsLaw getBits capacity}.

Lemma empty_palette p d :
  paletted_wf N getBits capacity p d → _valueSize d = 0 → p = [0] ∧ _store d = [].
Proof.
  intros (Hw & Hb & Hc & Hh & _) Hz. destruct (bits_ok p Hc) as (b & Hb' & _ & Hb0 & _).
  rewrite Hb in Hb'. injection Hb' as <-. destruct Hw as (_ & _ & Hs).
  rewrite decide_True in Hs by done. split; [|by apply nil_length_inv; lia].
  destruct p as [|x [|y p]]; cbn in *; [done|congruence|lia].
Qed.

Lemma long_palette p d :
  paletted_wf N getBits capacity p d → _valueSize d ≠ 0 → 1 < zlen p.
Proof.
  intros (_ & Hb & Hc & _) Hz. destruct (bits_ok p Hc) as (b & Hb' & _ & Hb0 & _).
  rewrite Hb in Hb'. injection Hb' as <-. lia.
Qed.

Lemma addPalette_ids p d out :
  paletted_wf N getBits capacity p d →
  addPalette getBits p out = serialize [addByte (_valueSize d); palette_ids p d] out.
Proof.
  intros Hwf. pose proof Hwf as (_ & Hb & _). unfold addPalette, palette_ids. rewrite Hb.
  cbn [mbind result_bind serialize]. destruct (addByte (_valueSize d) out) as [o| | |]; [|done..].
  unfold Palette_size. destruct (decide (_valueSize d = 0)) as [Hz|Hz].
  - destruct (empty_palette p d Hwf Hz) as [-> _]. cbn. by destruct (addVarInt 0 o).
  - pose proof (long_palette p d Hwf Hz). cbn [mbind result_bind].
    rewrite (decide_False (P := zlen p = 0)), (decide_False (P := zlen p = 1)) by lia.
    case_decide; [done|]. by destruct (addArray addVarInt p o).
Qed.

Lemma paletted_part p d (k : list Z → result (list Z)) out :
  paletted_wf N getBits capacity p d →
  (out ← addPalette getBits p out;
   has ← (bits ← getBits p; Ok (bool_decide (bits ≠ 0)));
   out ← (if has : bool then add_longs (_store d) out else addVarInt 0 out);
   k out) = (out ← paletted_writer p d out; k out).
Proof.
  intros Hwf. rewrite (addPalette_ids p d out Hwf). destruct Hwf as (_ & -> & _).
  unfold paletted_writer, storage_longs. cbn [mbind result_bind serialize].
  destruct (addByte _ _) as [o| | |]; cbn [mbind result_bind]; [|done..].
  destruct (palette_ids _ _ o) as [o1| | |]; cbn [mbind result_bind]; [|done..].
  rewrite bool_decide_decide. destruct (decide (_valueSize d = 0)) as [Hz|Hz].
  - rewrite decide_False by tauto. by destruct (addVarInt 0 o1).
  - rewrite decide_True by done. by destruct (add_longs _ o1).
Qed.

Lemma seen_cell p d i :
  paletted_wf N getBits capacity p d → _valueSize d ≤ indirect → 0 ≤ i < N →
  paletted_get indirect (seen_paletted indirect p d) i = Some (cell p d i).
Proof.
  intros (Hw & _ & _ & Hh & He) Hv Hi. unfold paletted_get, seen_paletted, cell. cbn.
  destruct (decide (_valueSize d = 0)) as [Hz|Hz]; [done|]. rewrite !decide_True by done.
  change (paletted_entry _ i) with (entry 64 d i).
  pose proof (He Hz i Hi). unfold Palette_getGlobalId. rewrite decide_False by lia.
  destruct (lookup_lt_is_Some_2 p (Z.to_nat (entry 64 d i))) as [g Hg].
  { pose proof (entry_range 64 N d i Hw) as [? _]. lia. }
  by rewrite Hg.
Qed.

(** Without a palette the client takes the local identifiers for global ones. *)
Lemma seen_direct p d i :
  0 ≤ indirect < _valueSize d →
  paletted_get indirect (seen_paletted indirect p d) i = Some (entry 64 d i).
Proof. intros Hv. unfold paletted_get, seen_paletted. cbn. by rewrite !decide_False by lia. Qed.

Hypothesis HN : 0 ≤ N ≤ 4096.

Lemma store_size_le v : 0 < v ≤ 30 → 0 ≤ store_size 64 N v ≤ N + 1.
Proof.
  intros Hv. unfold store_size. pose proof (per_entry_pos 64 v ltac:(lia)) as Hp.
  assert (0 ≤ N / per_entry 64 v ≤ N).
  { split; [apply Z.div_pos; lia|]. apply Z.div_le_upper_bound; [lia|].
    nia. }
  case_decide; lia.
Qed.

Hypothesis Hcap : 0 ≤ capacity ≤ 2 ^ 15.
Hypothesis Hind : 0 ≤ indirect < 15.

Lemma sized_paletted p d :
  paletted_wf N getBits capacity p d → (_valueSize d ≤ indirect ∨ _valueSize d = 15) →
  Forall (is_s 32) p →
  Sized 200000 (paletted_writer p d) (read_paletted indirect) (seen_paletted indirect p d).
Proof.
  intros Hwf Hv Hp. pose proof Hwf as ((Hvs & Hst & Hlen) & _ & Hc & _).
  unfold paletted_writer, read_paletted, seen_paletted, palette_ids, storage_longs, add_longs.
  apply (sized_le (1 + (5 + 5 * 2 ^ 15 + (5 + 8 * 4097 + 0)))); [lia|].
  eapply sized_cons; [apply sized_Byte; unfold is_u; lia|]. cbn beta.
  destruct (decide (_valueSize d = 0)) as [Hz|Hz].
  - destruct (empty_palette p d Hwf Hz) as [-> ->].
    eapply sized_cons.
    { apply (sized_le 5); [lia|]. by eapply sized_map; [apply sized_VarInt|]. }
    cbn beta. eapply sized_cons; [|by apply sized_ret]. unfold read_longs.
    exists (varint_bytes 0). split_and!; [apply _| |by apply var_bytes_is_byte|done].
    rewrite <- (app_nil_r (varint_bytes 0)). eapply reads_bind; [apply _|apply reads_ret].
  - pose proof (store_size_le (_valueSize d) ltac:(lia)).
    eapply (sized_cons (5 + 5 * 2 ^ 15)).
    + instantiate (1 := if decide (_valueSize d ≤ indirect) then p else []).
      destruct (decide (_valueSize d = 15)).
      * rewrite !decide_False by lia. apply (sized_le 0); [lia|]. by apply sized_ret.
      * rewrite !decide_True by lia. eapply sized_le; [|apply (sized_Array 5); [lia|lia|]]; [lia|].
        eapply list.Forall_impl; [exact Hp|]. intros x. apply sized_VarInt.
    + cbn beta. eapply sized_cons; [|by apply sized_ret].
      eapply sized_le; [|apply (sized_Array 8); [lia|lia|]]; [lia|].
      eapply list.Forall_impl; [exact Hst|]. intros x. apply sized_ULong.
Qed.

End Paletted.

Lemma block_bits_range p b :
  zlen p ≤ 2 ^ 15 → BlockPalette_getBits p = Ok b → if decide (zlen p ≤ 2 ^ 8) then b ≤ 8 else b = 15.
Proof.
  intros Hp. unfold BlockPalette_getBits. case_decide as H1; [intros [= <-]; case_decide; lia|].
  unfold to_i32. rewrite wrap_s_id by (unfold is_s; lia).
  rewrite bitsNeeded_log2_up by lia. cbn [mbind result_bind].
  pose proof (Z.log2_up_le_pow2 (zlen p) 8 ltac:(lia)).
  repeat case_decide; intros [= <-]; lia.
Qed.

Lemma biome_bits_range p b : BiomePalette_getBits p = Ok b → b ≤ 3.
Proof.
  unfold BiomePalette_getBits. case_decide; [intros [= <-]; lia|].
  destruct (bitsNeeded _); cbn; try done. case_decide; intros [= <-]; lia.
Qed.

(** ** Sections *)

Definition ids_fit (s : Section_) : Prop :=
  Forall (is_s 32) (_blockPalette s) ∧ Forall (is_s 32) (_biomePalette s).

Definition block_count (s : Section_) : Z :=
  zlen (filter (λ i, cell (_blockPalette s) (_blocks s) i ≠ 0) (seqZ 0 4096)).

Definition seen_section (s : Section_) : SeenSection :=
  mk_SeenSection (block_count s)
    (seen_paletted BLOCK_INDIRECT (_blockPalette s) (_blocks s))
    (seen_paletted BIOME_INDIRECT (_biomePalette s) (_biomes s)).

Lemma count_blocks_ok s l n :
  section_wf s → Forall (λ i, 0 ≤ i < 4096) l → 0 ≤ n → n + zlen l < 2 ^ 16 →
  count_blocks s l n =
    Ok (n + zlen (filter (λ i, cell (_blockPalette s) (_blocks s) i ≠ 0) l)).
Proof.
  intros Hs Hl. pose proof Hs as (Hb & _). revert n. induction Hl as [|i l Hi Hl IH]; intros n Hn Hn'.
  - cbn. f_equal. lia.
  - rewrite zlen_cons in Hn'. cbn [count_blocks].
    assert (Section_getBlock_idx s i = Ok (cell (_blockPalette s) (_blocks s) i)) as ->.
    { by apply (get_cell 4096 BlockPalette_getBits (2 ^ 15)). }
    cbn [mbind result_bind]. rewrite filter_cons.
    case_decide.
    + unfold to_u16. rewrite wrap_u_id by (unfold is_u; lia). rewrite IH by lia. rewrite zlen_cons.
      f_equal. lia.
    + by rewrite IH by lia.
Qed.

Lemma block_count_range s : is_u 16 (block_count s).
Proof.
  unfold block_count, is_u. pose proof (length_filter (λ i, cell (_blockPalette s) (_blocks s) i ≠ 0) (seqZ 0 4096)).
  rewrite length_seqZ in *. lia.
Qed.

Lemma count_all_blocks s : section_wf s → count_blocks s (seqZ 0 SECTION_3D_SIZE) 0 = Ok (block_count s).
Proof.
  intros Hs. apply count_blocks_ok; [done| |done|by rewrite length_seqZ].
  apply list.Forall_forall. intros i Hi. by apply elem_of_seqZ in Hi.
Qed.

Lemma addSection_parts s out :
  section_wf s →
  addSection s out = serialize [addShort (block_count s);
    paletted_writer (_blockPalette s) (_blocks s);
    paletted_writer (_biomePalette s) (_biomes s)] out.
Proof.
  intros Hs. pose proof Hs as (Hb & Hm & _).
  pose proof (count_all_blocks s Hs) as E.
  unfold addSection, Section_hasBlocks, Section_hasBiomes. rewrite E.
  cbn [mbind result_bind serialize].
  rewrite (emits_addShort (block_count s) out). cbn [mbind result_bind].
  rewrite (paletted_part 4096 BlockPalette_getBits (2 ^ 15) _ _ _ _ Hb).
  destruct (paletted_writer (_blockPalette s) _ _) as [o| | |]; [|done..].
  cbn [mbind result_bind].
  etransitivity; [|exact (paletted_part 64 BiomePalette_getBits 8 _ _ Ok o Hm)].
  destruct (addPalette _ _ o); cbn [mbind result_bind]; [|done..].
  destruct (BiomePalette_getBits _); cbn [mbind result_bind]; [|done..].
  by destruct (if bool_decide _ then _ else _).
Qed.

Lemma sized_section s :
  section_wf s → ids_fit s → Sized 500000 (addSection s) read_section (seen_section s).
Proof.
  intros Hs [Hi Hi']. pose proof Hs as (Hb & Hm & _).
  eapply sized_ext; [intros out; by apply addSection_parts|].
  apply (sized_le (2 + (200000 + (200000 + 0)))); [lia|]. unfold read_section.
  eapply sized_cons; [apply sized_Short, block_count_range|]. cbn beta.
  eapply sized_cons.
  { apply (sized_paletted 4096 BlockPalette_getBits (2 ^ 15) BLOCK_INDIRECT); try done.
    destruct Hb as (_ & Hb & Hc & _). pose proof (block_bits_range _ _ Hc Hb). unfold BLOCK_INDIRECT.
    case_decide; lia. }
  cbn beta. eapply sized_cons; [|by apply sized_ret].
  apply (sized_paletted 64 BiomePalette_getBits 8 BIOME_INDIRECT); try done.
  destruct Hm as (_ & Hm & _). pose proof (biome_bits_range _ _ Hm). unfold BIOME_INDIRECT. lia.
Qed.

(** ** Light *)

Fixpoint mask_from (f : Section_ → bool) (i : Z) (l : list Section_) : Z :=
  match l with
  | [] => 0
  | s :: l => Z.lor (if f s then 2 ^ i else 0) (mask_from f (i + 1) l)
  end.

Definition lit_count (f : Section_ → bool) (l : list Section_) : Z := zlen (filter (λ s, f s) l).

Lemma lit_count_cons f s l : lit_count f (s :: l) = (if f s then 1 else 0) + lit_count f l.
Proof.
  unfold lit_count. rewrite filter_cons. destruct (f s); cbn; [rewrite decide_True by done; cbn; lia|].
  by rewrite decide_False by (intros []).
Qed.

Lemma shifted_one_ok i : 0 ≤ i < 31 → shifted_one i = Ok (2 ^ i).
Proof.
  intros Hi. unfold shifted_one. rewrite decide_False, Z.shiftl_1_l by lia.
  assert (0 < 2 ^ i) by (apply Z.pow_pos_nonneg; lia).
  assert (2 ^ i < 2 ^ 31) by (apply Z.pow_lt_mono_r; lia).
  unfold to_i32, to_u64. rewrite wrap_s_id by (unfold is_s; lia).
  by rewrite wrap_u_id by (unfold is_u; lia).
Qed.

Lemma light_masks_ok i l m :
  0 ≤ i → i + zlen l < 31 → 0 ≤ countSkyLight m → 0 ≤ countBlockLight m →
  countSkyLight m + zlen l < 2 ^ 8 → countBlockLight m + zlen l < 2 ^ 8 →
  light_masks i l m = Ok (mk_LightMasks
    (Z.lor (skyLightMask m) (mask_from Section_hasSkyLight i l))
    (Z.lor (blockLightMask m) (mask_from Section_hasBlockLight i l))
    (Z.lor (emptySkyLightMask m) (mask_from (negb ∘ Section_hasSkyLight) i l))
    (Z.lor (emptyBlockLightMask m) (mask_from (negb ∘ Section_hasBlockLight) i l))
    (countSkyLight m + lit_count Section_hasSkyLight l)
    (countBlockLight m + lit_count Section_hasBlockLight l)).
Proof.
  revert i m. induction l as [|s l IH]; intros i m Hi Hl Hs Hb Hs' Hb'.
  - cbn. rewrite !Z.lor_0_r, !Z.add_0_r. by destruct m.
  - rewrite zlen_cons in *. cbn [light_masks mask_from]. unfold add_masks.
    rewrite shifted_one_ok by lia. cbn [mbind result_bind]. rewrite !lit_count_cons.
    unfold to_u8. unfold compose at 1 3.
    destruct (Section_hasSkyLight s), (Section_hasBlockLight s); cbn -[mask_from light_masks wrap_u];
      (rewrite IH; cbn -[mask_from wrap_u]; [|rewrite ?wrap_u_id by (unfold is_u; lia); lia..]);
      rewrite ?wrap_u_id by (unfold is_u; lia); f_equal;
      rewrite ?Z.lor_0_l, ?Z.lor_assoc; f_equal; lia.
Qed.

Lemma lor_range n a b : 0 ≤ n → 0 ≤ a < 2 ^ n → 0 ≤ b < 2 ^ n → 0 ≤ Z.lor a b < 2 ^ n.
Proof.
  intros Hn Ha Hb. assert (0 ≤ Z.lor a b) as H0 by (apply Z.lor_nonneg; lia). split; [done|].
  destruct (decide (Z.lor a b = 0)) as [->|]; [by apply Z.pow_pos_nonneg|].
  apply Z.log2_lt_pow2; [lia|]. rewrite Z.log2_lor by lia.
  assert (∀ x, 0 ≤ x < 2 ^ n → x = 0 ∨ Z.log2 x < n) as L.
  { intros x Hx. destruct (decide (x = 0)); [by left|right]. apply Z.log2_lt_pow2; lia. }
  assert (0 < n). { destruct (decide (n = 0)) as [->|]; [|lia]. assert (a = 0) as -> by lia.
    assert (b = 0) as -> by lia. done. }
  destruct (L a Ha) as [->|], (L b Hb) as [->|]; cbn [Z.log2]; lia.
Qed.

Lemma mask_from_range f i l : 0 ≤ i → 0 ≤ mask_from f i l < 2 ^ (i + zlen l).
Proof.
  revert i. induction l as [|s l IH]; intros i Hi; cbn [mask_from].
  - split; [done|]. apply Z.pow_pos_nonneg; zlia.
  - specialize (IH (i + 1) ltac:(lia)). rewrite zlen_cons.
    replace (i + (1 + zlen l)) with (i + 1 + zlen l) by lia.
    assert (0 ≤ (if f s then 2 ^ i else 0) < 2 ^ (i + 1 + zlen l)).
    { assert (0 < 2 ^ i) by (apply Z.pow_pos_nonneg; lia).
      assert (2 ^ i < 2 ^ (i + 1 + zlen l)) by (apply Z.pow_lt_mono_r; lia). destruct (f s); lia. }
    by apply lor_range; [lia|..].
Qed.

Lemma mask_from_testbit f i l j :
  0 ≤ i → 0 ≤ j → Z.testbit (mask_from f i l) j =
    if decide (i ≤ j) then match l !! Z.to_nat (j - i) with Some s => f s | None => false end else false.
Proof.
  revert i. induction l as [|s l IH]; intros i Hi Hj; cbn [mask_from].
  - rewrite Z.testbit_0_l. by case_decide.
  - rewrite Z.lor_spec, IH by lia. destruct (decide (i = j)) as [->|].
    + rewrite Z.sub_diag, decide_False, decide_True, orb_false_r by lia.
      change ((s :: l) !! Z.to_nat 0) with (Some s). cbn beta iota.
      destruct (f s); [by apply Z.pow2_bits_true|by rewrite Z.testbit_0_l].
    + assert (Z.testbit (if f s then 2 ^ i else 0) j = false) as ->.
      { destruct (f s); [by apply Z.pow2_bits_false; lia|by rewrite Z.testbit_0_l]. }
      repeat case_decide; try lia; try done.
      by replace (Z.to_nat (j - i)) with (S (Z.to_nat (j - (i + 1)))) by lia.
Qed.

(** The arrays of the sections in the mask, behind their number. *)
Lemma sized_lit {B} n f (w : Section_ → writer) (p : reader B) (g : Section_ → B) l :
  0 ≤ n → Forall (λ s, Sized n (w s) p (g s)) l →
  Sized (n * zlen l) (serialize ((λ s, when (f s) (w s)) <$> l))
    (popArray_loop p (length (filter (λ s, f s) l))) (g <$> filter (λ s, f s) l).
Proof.
  intros Hn. induction 1 as [|s l Hs Hl IH].
  { apply (sized_le 0); [by rewrite Z.mul_0_r|by apply sized_ret]. }
  apply (sized_le (n + n * zlen l)); [rewrite zlen_cons; lia|].
  rewrite filter_cons. cbn [fmap list_fmap]. destruct (f s); cbn [when].
  - rewrite decide_True by done. cbn [length popArray_loop fmap list_fmap].
    eapply sized_cons; [exact Hs|]. by eapply sized_map; [exact IH|].
  - rewrite decide_False by (intros []). apply (sized_le (n * zlen l)); [lia|].
    eapply sized_ext; [|exact IH]. done.
Qed.

Lemma sized_counted_lit {B} n f (w : Section_ → writer) (p : reader B) (g : Section_ → B) l :
  0 ≤ n → zlen l < 2 ^ 31 → Forall (λ s, Sized n (w s) p (g s)) l →
  Sized (5 + n * zlen l) (serialize (addVarInt (lit_count f l) :: ((λ s, when (f s) (w s)) <$> l)))
    (popArray p) (g <$> filter (λ s, f s) l).
Proof.
  intros Hn Hl H. unfold popArray. pose proof (length_filter (λ s, f s) l).
  eapply sized_cons; [apply sized_VarInt; unfold lit_count, is_s; lia|]. cbn beta.
  unfold lit_count. rewrite Nat2Z.id. by apply sized_lit.
Qed.

Definition seen_light (f : Section_ → bool) (d : Section_ → DynamicStorage) (l : list Section_) : SeenLight :=
  mk_SeenLight [mask_from f 0 l] ((λ s, _store (d s)) <$> filter (λ s, f s) l).

Lemma sized_mask n : is_u 64 n → Sized 13 (add_longs [n]) read_longs [n].
Proof. intros H. apply (sized_Array 8); [lia|done|]. repeat constructor. by apply sized_ULong. Qed.

Lemma sized_light_array d n :
  light_wf d n → Sized 2053 (add_bytes (_store d)) (popArray popByte) (_store d).
Proof.
  intros ((Hv & Hs & Hl) & H4 & _). rewrite H4, decide_False in Hl by done. change (store_size 8 4096 4) with 2048 in Hl.
  apply (sized_le (5 + 1 * zlen (_store d))); [lia|].
  apply (sized_Array 1); [lia|lia|]. eapply list.Forall_impl; [exact Hs|]. intros x. apply sized_Byte.
Qed.

Lemma masks_fit f c : column_wf c → 0 ≤ mask_from f 0 (_sections c) < 2 ^ 26.
Proof. intros [Hl _]. pose proof (mask_from_range f 0 (_sections c) ltac:(lia)) as H. by rewrite Hl in H. Qed.

Lemma addLight_parts c out :
  column_wf c →
  addLight c out = serialize ([addBoolean true;
      add_longs [mask_from Section_hasSkyLight 0 (_sections c)];
      add_longs [mask_from Section_hasBlockLight 0 (_sections c)];
      add_longs [mask_from (negb ∘ Section_hasSkyLight) 0 (_sections c)];
      add_longs [mask_from (negb ∘ Section_hasBlockLight) 0 (_sections c)]] ++
    (addVarInt (lit_count Section_hasSkyLight (_sections c)) ::
      ((λ s, when (Section_hasSkyLight s) (add_bytes (_store (_skyLight s)))) <$> _sections c)) ++
    (addVarInt (lit_count Section_hasBlockLight (_sections c)) ::
      ((λ s, when (Section_hasBlockLight s) (add_bytes (_store (_blockLight s)))) <$> _sections c))) out.
Proof.
  intros [Hl _]. unfold addLight. rewrite (light_masks_ok 0 (_sections c)) by (cbn [countSkyLight countBlockLight]; lia).
  cbn [mbind result_bind skyLightMask blockLightMask emptySkyLightMask emptyBlockLightMask
    countSkyLight countBlockLight]. by rewrite !Z.lor_0_l, !Z.add_0_l.
Qed.

Lemma sized_light c :
  column_wf c →
  Sized 200000 (addLight c) read_light
    (seen_light Section_hasSkyLight _skyLight (_sections c),
     seen_light Section_hasBlockLight _blockLight (_sections c)).
Proof.
  intros Hwf. pose proof Hwf as [Hl Hc]. eapply sized_ext; [intros out; by apply addLight_parts|].
  assert (∀ f, is_u 64 (mask_from f 0 (_sections c))) as Hm.
  { intros f. unfold is_u. pose proof (masks_fit f c Hwf). lia. }
  set (l := _sections c) in *.
  apply (sized_le (1 + (13 + (13 + (13 + (13 + ((5 + 2053 * zlen l) + ((5 + 2053 * zlen l) + 0))))))));
    [lia|].
  unfold read_light. cbn [app].
  eapply sized_cons; [apply sized_Boolean|]. cbn beta.
  do 4 (eapply sized_cons; [by apply sized_mask|]; cbn beta).
  rewrite app_comm_cons.
  eapply sized_app.
  { apply sized_counted_lit; [lia|lia|]. eapply list.Forall_impl; [exact Hc|].
    intros s (_ & _ & Hs & _). by eapply sized_light_array. }
  cbn beta. eapply sized_ext.
  { intros out. rewrite <- (app_nil_r (addVarInt _ :: _)). reflexivity. }
  eapply sized_app; [|by apply sized_ret].
  apply sized_counted_lit; [lia|lia|]. eapply list.Forall_impl; [exact Hc|].
  intros s (_ & _ & _ & Hs). by eapply sized_light_array.
Qed.

Lemma filter_rank {A} (f : A → bool) l i s :
  l !! i = Some s → f s = true →
  filter (λ s, f s) l !! length (filter (λ s, f s) (take i l)) = Some s.
Proof.
  intros Hi Hf.
  assert (filter (λ s, f s) l = filter (λ s, f s) (take i l ++ s :: drop (S i) l)) as ->
    by (by rewrite take_drop_middle).
  rewrite list.filter_app, filter_cons, decide_True by (by rewrite Hf).
  by apply list_lookup_middle.
Qed.

Lemma rank_filter f l i :
  (i ≤ length l)%nat → (length l ≤ 64)%nat →
  rank [mask_from f 0 l] (Z.of_nat i) = length (filter (λ s, f s) (take i l)).
Proof.
  intros Hi Hl. unfold rank. induction i as [|i IH]; [done|].
  destruct (lookup_lt_is_Some_2 l i) as [s Hs]; [lia|].
  rewrite (take_S_r _ _ _ Hs), seqZ_S, Z.add_0_l.
  rewrite !list.filter_app, !length_app, IH by lia. f_equal. rewrite !filter_cons.
  assert (in_mask [mask_from f 0 l] (Z.of_nat i) = f s) as ->.
  { unfold in_mask. rewrite Z.div_small, Z.mod_small by lia.
    change ([mask_from f 0 l] !!! Z.to_nat 0) with (mask_from f 0 l).
    rewrite mask_from_testbit, decide_True by lia. by rewrite Z.sub_0_r, Nat2Z.id, Hs. }
  by case_decide.
Qed.

(** The level of a cell, in the mask or not. *)
Lemma light_get_ok f d n l i s c :
  (length l ≤ 64)%nat → l !! i = Some s → light_wf (d s) (n s) → f s = bool_decide (0 < n s) →
  0 ≤ c < 4096 →
  light_get (seen_light f d l) (Z.of_nat i) c = Some (entry 8 (d s) c).
Proof.
  intros Hl Hi (Hw & H4 & Hn) Hf Hc. pose proof (lookup_lt_Some _ _ _ Hi).
  unfold light_get, seen_light. cbn [seen_mask seen_arrays].
  unfold in_mask. rewrite Z.div_small, Z.mod_small by lia.
  change ([mask_from f 0 l] !!! Z.to_nat 0) with (mask_from f 0 l).
  rewrite mask_from_testbit, decide_True, Z.sub_0_r, Nat2Z.id, Hi by lia.
  destruct (f s) eqn:E.
  - rewrite rank_filter, list_lookup_fmap, (filter_rank f l i s Hi E) by lia.
    cbn [fmap option_fmap option_map mbind option_bind].
    pose proof (store_index 8 4096 ltac:(lia) (d s) c Hw ltac:(lia) Hc) as Hx.
    rewrite H4 in Hx. change (per_entry 8 4) with 2 in Hx.
    destruct (lookup_lt_is_Some_2 (_store (d s)) (Z.to_nat (c / 2))) as [b Hb]; [lia|].
    rewrite Hb. cbn [mbind option_bind]. unfold entry, word_of, offset_of. rewrite H4.
    change (per_entry 8 4) with 2. by rewrite (list_lookup_total_correct _ _ _ Hb).
  - symmetry in Hf. apply bool_decide_eq_false in Hf. f_equal. symmetry.
    assert (filter (λ v, v ≠ 0) (values 8 4096 (d s)) = []) as Hz by (apply nil_length_inv; lia).
    destruct (decide (entry 8 (d s) c = 0)) as [|Hv]; [done|].
    assert (entry 8 (d s) c ∈ filter (λ v, v ≠ 0) (values 8 4096 (d s))) as Hin.
    { apply list_elem_of_filter. split; [done|]. eapply list_elem_of_lookup_2.
      by apply (values_lookup 8 4096 (d s) c). }
    rewrite Hz in Hin. by apply not_elem_of_nil in Hin.
Qed.

(** ** The packet *)

Definition chunk_sendable (x z : Z) (c : ChunkColumn) : Prop :=
  is_s 32 x ∧ is_s 32 z ∧ column_wf c ∧ Forall ids_fit (_sections c) ∧
  nbt_carried (nbt_Compound String.EmptyString (_heightMap c)).

Definition seen_chunk (x z : Z) (c : ChunkColumn) : SeenChunk :=
  mk_SeenChunk x z (nbt_Compound String.EmptyString (_heightMap c)) (seen_section <$> inner_sections c)
    (seen_light Section_hasSkyLight _skyLight (_sections c))
    (seen_light Section_hasBlockLight _blockLight (_sections c)).

Lemma inner_lookup c i :
  column_wf c → (i < 24)%nat → inner_sections c !! i = _sections c !! S i.
Proof.
  intros [Hl _] Hi. unfold inner_sections. rewrite Hl, lookup_take_lt, lookup_drop by lia. done.
Qed.

Lemma rt_chunk_data c :
  column_wf c → Forall ids_fit (_sections c) →
  ∃ data, serialize (addSection <$> inner_sections c) [] = Ok data ∧
    RT (add_bytes data) (read_data 24) (seen_section <$> inner_sections c).
Proof.
  intros [Hl Hw] Hf.
  assert (length (inner_sections c) = 24%nat) as Hi.
  { unfold inner_sections. rewrite length_take, length_drop. lia. }
  assert (Forall (λ s, section_wf s ∧ ids_fit s) (inner_sections c)) as Hs.
  { unfold inner_sections. apply Forall_take, Forall_drop.
    apply list.Forall_and. by split. }
  assert (Sized (500000 * 24) (serialize (addSection <$> inner_sections c))
            (popArray_loop read_section 24) (seen_section <$> inner_sections c)) as H.
  { rewrite <- Hi. replace (500000 * 24) with (500000 * zlen (inner_sections c)) by lia.
    clear Hi. induction Hs as [|s l [Hs Hfs] _ IH].
    { apply (sized_le 0); [by rewrite Z.mul_0_r|by apply sized_ret]. }
    apply (sized_le (500000 + 500000 * zlen l)); [rewrite zlen_cons; lia|]. cbn.
    eapply sized_cons; [by apply sized_section|]. by eapply sized_map; [exact IH|]. }
  destruct (sized_within _ _ _ _ H) as (data & Hd & Hr & Hb & Hn). exists data. split; [done|].
  assert (RT (add_bytes data) (popArray popByte) data) as (bs & He & Hp).
  { apply rt_byte_array. split; [lia|done]. }
  exists bs. split; [done|]. unfold read_data. rewrite <- (app_nil_r bs).
  eapply reads_bind; [exact Hp|]. unfold computed. rewrite Hr. cbn. apply reads_ret.
Qed.

Lemma rt_chunk x z c :
  chunk_sendable x z c →
  RT (serialize [addInt x; addInt z; addChunkColumn c]) read_chunk (seen_chunk x z c).
Proof.
  intros (Hx & Hz & Hc & Hf & Hn).
  destruct (rt_chunk_data c Hc Hf) as (data & Hd & Hdata).
  assert (∀ out, serialize [addInt x; addInt z; addChunkColumn c] out =
    serialize [addInt x; addInt z; addNBT (nbt_Compound String.EmptyString (_heightMap c));
      add_bytes data; addVarInt 0; addLight c] out) as E.
  { intros out. cbn [serialize]. destruct (addInt x out) as [o| | |]; cbn [mbind result_bind]; [|done..].
    destruct (addInt z o) as [o1| | |]; cbn [mbind result_bind]; [|done..]. unfold addChunkColumn.
    destruct (addNBT _ o1) as [o2| | |]; cbn [mbind result_bind]; [|done..].
    rewrite Hd. cbn [mbind result_bind serialize]. unfold addBlockEntities. cbn [fmap list_fmap serialize].
    destruct (add_bytes data o2) as [o3| | |]; cbn [mbind result_bind]; [|done..].
    change (zlen []) with 0.
    destruct (addVarInt 0 o3) as [o4| | |]; cbn [mbind result_bind]; [|done..].
    by destruct (addLight c o4). }
  assert (RT (serialize [addInt x; addInt z; addNBT (nbt_Compound String.EmptyString (_heightMap c));
      add_bytes data; addVarInt 0; addLight c]) read_chunk (seen_chunk x z c)) as (bs & Hw & Hr).
  { unfold read_chunk, seen_chunk.
    do 2 (eapply rt_cons; [by apply rt_Int|]; cbn beta).
    eapply rt_cons; [by apply rt_NBT|]. cbn beta.
    eapply rt_cons; [exact Hdata|]. cbn beta.
    eapply rt_cons; [by apply rt_VarInt|]. cbn beta. rewrite decide_False by tauto.
    eapply rt_cons; [by eapply sized_rt, sized_light|]. by apply rt_ret. }
  exists bs. split; [|done]. intros out. by rewrite E, Hw.
Qed.

(** A frame that fits in the protocol's length is read back to its last byte. *)
Lemma chunk_framed x z c :
  chunk_sendable x z c →
  ∃ frame, createChunkDataAndLightUpdate (mk_ChunkDataAndLightUpdate x z c) = Ok frame ∧
    (zlen frame < 2 ^ 31 →
     read_frame ClientPacketID_ChunkDataAndLightUpdate read_chunk frame (zlen frame - 1) 0 =
       Ok (seen_chunk x z c, zlen frame)).
Proof. intros H. by apply packet_framed, rt_chunk. Qed.

Definition playable (pos : Position) : Prop :=
  0 ≤ px pos < 16 ∧ CHUNK_HEIGHT_MIN ≤ py pos < CHUNK_HEIGHT_MAX ∧ 0 ≤ pz pos < 16.

Lemma playable_in_column pos : playable pos → in_column pos.
Proof. unfold playable, in_column, CHUNK_HEIGHT_MIN, CHUNK_HEIGHT_MAX. lia. Qed.

Lemma playable_section c pos :
  column_wf c → playable pos →
  ∃ s, _sections c !! section_of pos = Some s ∧ section_wf s ∧
    inner_sections c !! Z.to_nat ((py pos + 64) / 16) = Some s ∧
    0 ≤ cell_index 16 (local_of pos) < 4096.
Proof.
  intros Hc Hp. pose proof (playable_in_column pos Hp) as Hi.
  pose proof (section_of_range pos Hi).
  destruct (column_section c (section_of pos) Hc ltac:(lia)) as (s & Hs & Hw).
  exists s. split_and!; [done..| |apply (cell_index_range 16), local_in_section, Hi|
    apply (cell_index_range 16), local_in_section, Hi].
  unfold playable, CHUNK_HEIGHT_MIN, CHUNK_HEIGHT_MAX in Hp.
  rewrite inner_lookup by (done || div_lia). rewrite <- Hs. f_equal. unfold section_of. div_lia.
Qed.

Lemma client_cell pos : px pos + pz pos * 16 + (py pos + 64) `mod` 16 * 256 = cell_index 16 (local_of pos).
Proof. unfold cell_index, local_of. cbn. lia. Qed.

Lemma client_block_local x z c pos s :
  inner_sections c !! Z.to_nat ((py pos + 64) / 16) = Some s →
  client_block (seen_chunk x z c) (px pos) (py pos) (pz pos) =
    paletted_get BLOCK_INDIRECT (seen_blocks (seen_section s)) (cell_index 16 (local_of pos)).
Proof.
  intros Hs. unfold client_block, seen_section_at, seen_chunk. cbn [seen_sections].
  by rewrite list_lookup_fmap, Hs, client_cell.
Qed.

Lemma client_light_local f d n c pos s :
  column_wf c → playable pos → _sections c !! section_of pos = Some s →
  light_wf (d s) (n s) → f s = bool_decide (0 < n s) →
  client_light (seen_light f d (_sections c)) (px pos) (py pos) (pz pos) =
    Some (entry 8 (d s) (cell_index 16 (local_of pos))).
Proof.
  intros Hc Hp Hs Hl Hf. destruct (playable_section c pos Hc Hp) as (_ & _ & _ & _ & Hr).
  unfold client_light. rewrite client_cell.
  replace ((py pos + 80) / 16) with (Z.of_nat (section_of pos)).
  - eapply light_get_ok; try done. destruct Hc. lia.
  - unfold section_of, playable, CHUNK_HEIGHT_MIN, CHUNK_HEIGHT_MAX in *. rewrite Z2Nat.id by div_lia. done.
Qed.

Lemma column_light c pos s :
  playable pos → section_wf s → _sections c !! section_of pos = Some s →
  ChunkColumn_getSkyLight c pos = Ok (sky_at s (local_of pos)) ∧
  ChunkColumn_getBlockLight c pos = Ok (block_light_at s (local_of pos)).
Proof.
  intros Hp Hw Hs. apply playable_in_column in Hp.
  unfold ChunkColumn_getSkyLight, ChunkColumn_getBlockLight, sections_at.
  rewrite getSectionIndex_ok by done. cbn [mbind result_bind]. rewrite Nat2Z.id, Hs.
  cbn [mbind result_bind]. rewrite block_in_section_ok by done. cbn [mbind result_bind].
  by rewrite getSkyLight_at, getBlockLight_at by (done || by apply local_in_section).
Qed.

(** What a client must see of a column. *)
Definition shows (k : SeenChunk) (c : ChunkColumn) (pos : Position) : Prop :=
  let '(x, y, z) := (px pos, py pos, pz pos) in
  ∃ block sky light,
    ChunkColumn_getBlock c pos = Ok block ∧ client_block k x y z = Some block ∧
    ChunkColumn_getSkyLight c pos = Ok sky ∧ client_light (seen_sky k) x y z = Some sky ∧
    ChunkColumn_getBlockLight c pos = Ok light ∧ client_light (seen_block_light k) x y z = Some light.

(** C12: the chunk packet carries the column: from the frame the server makes of a
    column whose sections have at most 256 block states, a client that follows
    the protocol finds the chunk's place and height map, at every playable
    position exactly the block, the sky light and the block light that the
    server reads there, and the biomes. *)
Theorem chunk_packet_shows_column (x z : Z) (c : ChunkColumn) :
  chunk_sendable x z c → Forall (λ s, zlen (_blockPalette s) ≤ 2 ^ 8) (_sections c) →
  ∃ frame, createChunkDataAndLightUpdate (mk_ChunkDataAndLightUpdate x z c) = Ok frame ∧
    (zlen frame < 2 ^ 31 →
     ∃ k, read_frame ClientPacketID_ChunkDataAndLightUpdate read_chunk frame (zlen frame - 1) 0 =
         Ok (k, zlen frame) ∧
       seen_x k = x ∧ seen_z k = z ∧
       seen_heightMap k = nbt_Compound String.EmptyString (_heightMap c) ∧
       (∀ pos, playable pos → shows k c pos) ∧
       ∀ pos, 0 ≤ px pos < 4 → -16 ≤ py pos < 80 → 0 ≤ pz pos < 4 →
         client_biome k (px pos) (py pos) (pz pos) = Some (column_biome c pos)).
Proof.
  intros Hok H8. pose proof Hok as (_ & _ & Hc & _).
  destruct (chunk_framed x z c Hok) as (frame & Hf & Hr). exists frame. split; [done|].
  intros Hl. exists (seen_chunk x z c). split; [by apply Hr|]. do 3 (split; [done|]). split.
  - intros pos Hp. destruct (playable_section c pos Hc Hp) as (s & Hs & Hw & Hi & Hcell).
    destruct (column_light c pos s Hp Hw Hs) as [Hsky Hblock]. pose proof Hw as (Hb & _ & Hs1 & Hs2).
    exists (block_at s (local_of pos)), (sky_at s (local_of pos)), (block_light_at s (local_of pos)).
    split_and!; [|rewrite (client_block_local _ _ _ _ s Hi)|done| |done|].
    + rewrite column_getBlock by (done || by apply playable_in_column). unfold column_block. by rewrite Hs.
    + apply (seen_cell 4096 BlockPalette_getBits (2 ^ 15)); [done| |done].
      destruct Hb as (_ & Hb & Hcap & _). pose proof (block_bits_range _ _ Hcap Hb) as Hbits.
      rewrite decide_True in Hbits; [done|]. by eapply (Forall_lookup_1 _ _ _ _ H8 Hs).
    + by eapply client_light_local.
    + by eapply client_light_local.
  - intros pos Hx Hy Hz. unfold client_biome, seen_chunk, column_biome. cbn [seen_sections].
    assert (in_biome_column pos) as Hp by (unfold in_biome_column; lia).
    pose proof (biome_section_of_range pos Hp).
    destruct (column_section c (biome_section_of pos) Hc ltac:(lia)) as (s & Hs & Hw & Hm & _).
    rewrite list_lookup_fmap, inner_lookup by (done || div_lia).
    replace (S (Z.to_nat ((py pos + 16) / 4))) with (biome_section_of pos)
      by (unfold biome_section_of; div_lia).
    rewrite Hs. cbn [fmap option_fmap option_map mbind option_bind seen_section seen_biomes].
    unfold biome_at. replace (px pos + pz pos * 4 + (py pos + 16) `mod` 4 * 16)
      with (cell_index 4 (biome_local_of pos)) by (unfold cell_index, biome_local_of; cbn; lia).
    apply (seen_cell 64 BiomePalette_getBits 8); [done| |by apply (cell_index_range 4), biome_local_in_section].
    destruct Hm as (_ & Hm & _). by apply (biome_bits_range _ _ Hm).
Qed.

(** A new column with one block. *)
Lemma drawn_mono x K p : drawn K p → drawn (K ++ [x]) p.
Proof. intros [Hn Hs]. split; [done|]. intros y Hy. apply elem_of_app. by left; apply Hs. Qed.

Lemma example_drawn :
  Forall (λ s, drawn [0; 9] (_blockPalette s) ∧ drawn [0] (_biomePalette s)) (_sections column_example).
Proof.
  destruct column_example_inv as [_ Hd]. eapply list.Forall_impl; [exact Hd|].
  intros s [Hb Hm]. split; [by apply (drawn_mono 9 [0])|done].
Qed.

Lemma example_sendable l :
  Forall (λ s, drawn [0; 9] (_blockPalette s) ∧ drawn [0] (_biomePalette s)) l →
  column_wf (set_sections l column_example) → chunk_sendable 3 (-4) (set_sections l column_example).
Proof.
  intros Hd Hc. split; [done|]. split; [done|]. split; [exact Hc|]. split.
  - eapply list.Forall_impl; [exact Hd|]. intros s [[_ Hb] [_ Hm]]. cbv beta in Hb, Hm.
    split; apply list.Forall_forall; intros i Hi; [apply Hb in Hi|apply Hm in Hi];
      unfold is_s; set_unfold in Hi; lia.
  - split; [|by vm_compute]. cbn [set_sections _heightMap].
    assert (_heightMap column_example = (λ name, nbt_List name
      (replicate 36 (nbt_Long String.EmptyString 0))) <$> HEIGHTMAP_ENTRY) as ->.
    { by vm_compute. }
    vm_compute. repeat match goal with
    | |- _ ∧ _ => split | |- True => exact I | |- _ = _ => reflexivity
    | |- _ → False => discriminate | |- Forall _ _ => constructor
    end.
Qed.

(** A column in which one block was placed. *)
Lemma placed_example :
  ∃ c, ChunkColumn_getBlock c (mk_Position 3 (-60) 5) = Ok 9 ∧ chunk_sendable 3 (-4) c ∧
    Forall (λ s, zlen (_blockPalette s) ≤ 2 ^ 8) (_sections c).
Proof.
  assert (in_column (mk_Position 3 (-60) 5)) as Hin by (unfold in_column; cbn; lia).
  destruct (updateBlock_inv [0; 9] [0] ltac:(done) column_example (mk_Position 3 (-60) 5) 9)
    as (l & _ & [Hc Hd] & Hb & _).
  { split; [exact (proj1 column_example_inv)|exact example_drawn]. }
  { exact Hin. }
  { by right; left. }
  exists (set_sections l column_example). split_and!; [|by apply example_sendable|].
  - rewrite (column_getBlock _ _ Hc Hin), (Hb _ Hin). by rewrite decide_True.
  - eapply list.Forall_impl; [exact Hd|]. intros s [Hs _]. pose proof (drawn_length _ _ Hs). cbn in *. lia.
Qed.

Lemma chunk_packet_shows_column_witness :
  ∃ c frame, ChunkColumn_getBlock c (mk_Position 3 (-60) 5) = Ok 9 ∧
    chunk_sendable 3 (-4) c ∧ Forall (λ s, zlen (_blockPalette s) ≤ 2 ^ 8) (_sections c) ∧
    createChunkDataAndLightUpdate (mk_ChunkDataAndLightUpdate 3 (-4) c) = Ok frame.
Proof.
  destruct placed_example as (c & Hb & H1 & H2).
  destruct (chunk_packet_shows_column 3 (-4) c H1 H2) as (frame & Hf & _).
  exists c, frame. split; [exact Hb|split; [exact H1|split; [exact H2|exact Hf]]].
Defined.

(** Beyond 256 block states in a section the packet names the wrong blocks: the
    palette is left out of the bytes, but the entries are still local
    identifiers, so the client takes a position in the palette for the block. *)
Theorem chunk_packet_many_blocks (x z : Z) (c : ChunkColumn) (pos : Position) (s : Section_) :
  chunk_sendable x z c → playable pos → _sections c !! section_of pos = Some s →
  2 ^ 8 < zlen (_blockPalette s) →
  ∃ frame, createChunkDataAndLightUpdate (mk_ChunkDataAndLightUpdate x z c) = Ok frame ∧
    (zlen frame < 2 ^ 31 →
     ∃ k local block,
       read_frame ClientPacketID_ChunkDataAndLightUpdate read_chunk frame (zlen frame - 1) 0 =
         Ok (k, zlen frame) ∧
       client_block k (px pos) (py pos) (pz pos) = Some local ∧
       _blockPalette s !! Z.to_nat local = Some block ∧ 0 ≤ local < zlen (_blockPalette s) ∧
       ChunkColumn_getBlock c pos = Ok block).
Proof.
  intros Hok Hp Hs H8. pose proof Hok as (_ & _ & Hc & _).
  destruct (chunk_framed x z c Hok) as (frame & Hf & Hr). exists frame. split; [done|]. intros Hl.
  destruct (playable_section c pos Hc Hp) as (s' & Hs' & ((Hw & Hb & Hcap & _ & He) & _) & Hi & Hcell).
  rewrite Hs in Hs'. injection Hs' as <-.
  pose proof (block_bits_range _ _ Hcap Hb) as Hbits. rewrite decide_False in Hbits by lia.
  pose proof (He ltac:(lia) _ Hcell) as Hlt.
  pose proof (entry_range 64 4096 (_blocks s) (cell_index 16 (local_of pos)) Hw) as [Hge _].
  destruct (lookup_lt_is_Some_2 (_blockPalette s)
    (Z.to_nat (entry 64 (_blocks s) (cell_index 16 (local_of pos))))) as [b Hb']; [lia|].
  exists (seen_chunk x z c), (entry 64 (_blocks s) (cell_index 16 (local_of pos))), b.
  split_and!; [by apply Hr| |done|lia|lia|].
  - rewrite (client_block_local _ _ _ _ s Hi). apply seen_direct. rewrite Hbits. done.
  - rewrite column_getBlock by (done || by apply playable_in_column). unfold column_block, block_at, cell.
    rewrite Hs, decide_False by lia. by rewrite (Palette_getGlobalId_lookup _ _ b).
Qed.

(** A section with 257 block states. *)
Definition crowded (s : Section_) : Section_ :=
  set_blockPalette (seqZ 0 257) (set_blocks (mk_DynamicStorage (replicate 1024 0) 15) s).

Lemma crowded_wf s : section_wf s → section_wf (crowded s).
Proof.
  intros (_ & H). split; [|exact H]. cbn [crowded set_blockPalette set_blocks _blockPalette _blocks].
  split; [split; [done|split; [by apply Forall_replicate|done]]|]. split; [by vm_compute|].
  split; [done|]. split; [done|]. intros _ i Hi. rewrite length_seqZ.
  assert (entry 64 (mk_DynamicStorage (replicate 1024 0) 15) i = 0) as ->; [|done].
  unfold entry, word_of. cbn [_store _valueSize]. change (per_entry 64 15) with 4.
  rewrite lookup_total_replicate_2 by div_lia. by rewrite Z.shiftr_0_l.
Qed.

Lemma chunk_packet_many_blocks_witness :
  ∃ c s frame, chunk_sendable 3 (-4) c ∧ playable (mk_Position 0 0 0) ∧
    _sections c !! section_of (mk_Position 0 0 0) = Some s ∧ 2 ^ 8 < zlen (_blockPalette s) ∧
    createChunkDataAndLightUpdate (mk_ChunkDataAndLightUpdate 3 (-4) c) = Ok frame.
Proof.
  destruct column_example_inv as [Hw Hd].
  destruct (column_section _ 5 Hw ltac:(lia)) as (s & Hs & Hws).
  set (c := set_sections (<[5%nat := crowded s]> (_sections column_example)) column_example).
  assert (chunk_sendable 3 (-4) c) as H1.
  { destruct (example_sendable (_sections column_example)) as (_ & _ & _ & Hids & Hn).
    { exact example_drawn. }
    { by destruct column_example. }
    split; [done|]. split; [done|]. split; [by apply column_wf_insert, crowded_wf|]. split; [|exact Hn].
    apply Forall_insert; [exact Hids|].
    split; [|by apply (Forall_lookup_1 _ _ _ _ Hids Hs)]. apply list.Forall_forall.
    intros i Hi. apply elem_of_seqZ in Hi. unfold is_s. lia. }
  assert (playable (mk_Position 0 0 0)) as H2 by (unfold playable, CHUNK_HEIGHT_MIN, CHUNK_HEIGHT_MAX; cbn; lia).
  assert (_sections c !! section_of (mk_Position 0 0 0) = Some (crowded s)) as H3.
  { apply list_lookup_insert_eq. by eapply lookup_lt_Some. }
  assert (2 ^ 8 < zlen (_blockPalette (crowded s))) as H4 by done.
  destruct (chunk_packet_many_blocks 3 (-4) c (mk_Position 0 0 0) (crowded s) H1 H2 H3 H4) as (frame & Hf & _).
  exists c, (crowded s), frame. split; [exact H1|]. split; [exact H2|]. split; [exact H3|].
  split; [exact H4|exact Hf].
Defined.
