(* ===== verification/DumpChunk.v ===== *)
(** * The dump of a chunk (command_parser/commands/DumpChunk.cpp)

    What [/dumpChunk] does with a chunk: it goes through the palettes, makes the chunk
    packet, and reads the packet again with the server's own readers.  The lines of the
    log are values here: what was read, and the complaints. *)

From S2P Require Import Prelude Types Codec Structures Add Pop PrimaryLaws CompositeLaws RoundTrip Nbt NbtLaws DynamicStorage StorageLaws Palette Section SectionLaws ChunkColumn ChunkLaws AddStructures ClientWire ClientProps ChunkWireProps BlockStates.

Section DumpChunk.
Context (palette : list InternalBlock).

(** ** The palettes *)

(** The first loop over a section: the bits, the size, the number of blocks that are
    not air, and the names of the palette. *)
Record DumpedSection : Type := mk_DumpedSection {
  dumped_bits : Z;
  dumped_size : Z;
  dumped_count : Z;
  dumped_names : list (Z * Block)
}.

Fixpoint dump_names (ids : list Z) : result (list (Z * Block)) :=
  match ids with
  | [] => Ok []
  | block :: ids =>
      b ← fromProtocolIdToBlock palette block; l ← dump_names ids; Ok ((block, b) :: l)
  end.
Definition dump_section (section : Section_) : result DumpedSection :=
  bits ← BlockPalette_getBits (_blockPalette section);
  count ← count_blocks section (seqZ 0 SECTION_3D_SIZE) 0;
  let size := Palette_size (_blockPalette section) in
  names ← dump_names (Palette_getGlobalId (_blockPalette section) <$> seqZ 0 size);
  Ok (mk_DumpedSection bits size count names).

(** The blocks of a section that are not in its palette. *)
Fixpoint blocks_missing (section : Section_) (l : list Z) : result (list Z) :=
  match l with
  | [] => Ok []
  | i :: l =>
      block ← Section_getBlock_idx section i;
      missing ← blocks_missing section l;
      Ok (if bool_decide (block ∈ _blockPalette section) then missing else block :: missing)
  end.

(** [sectionID] from [1] to [NB_OF_SECTIONS - 2], with [at]. *)
Fixpoint each_section {A} (f : Section_ → result A) (sections : list Section_) (ids : list Z) : result (list A) :=
  match ids with
  | [] => Ok []
  | sectionID :: ids =>
      match sections !! Z.to_nat sectionID with
      | None => Throw std_out_of_range
      | Some section => a ← f section; l ← each_section f sections ids; Ok (a :: l)
      end
  end.
Definition dumped_sections : list Z := seqZ 1 (NB_OF_SECTIONS - 2).

(** ** The packet *)

Record ReadPalette : Type := mk_ReadPalette {
  palette_bits : Z;
  palette_entries : list (Z * Block);
  palette_data : list Z
}.

Definition read_entry : reader (Z * Block) :=
  value ← popVarInt; block ← computed (fromProtocolIdToBlock palette value); mret (value, block).

(** The palette that is filled on the way is not used. *)
Definition read_palette : reader (Z * list (Z * Block)) :=
  bits ← popByte;
  entries ← (if decide (bits = 0) then value ← popVarInt; mret [(value, mk_Block EmptyString [])]
             else if decide (bits ≤ 8) then
               paletteSize ← popVarInt; popArray_loop read_entry (Z.to_nat paletteSize)
             else mret []);
  mret (bits, entries).

(** What the log says is wrong. *)
Inductive Complaint : Type := Not_compatible | Too_small | Wrong_mask | Wrong_light | Not_all_read.
Definition complain (b : bool) (c : Complaint) : list Complaint := if b then [c] else [].

Definition data_complaints (bits size count : Z) : result (list Complaint) :=
  let wrong := complain (bool_decide (0 < size ∧ bits = 0 ∨ size = 0 ∧ 0 < bits)) Not_compatible in
  if decide (0 < bits) then
    entries ← chk_i32 (size * (64 / bits)); Ok (wrong ++ complain (bool_decide (entries < count)) Too_small)
  else Ok wrong.

Record ReadSection : Type := mk_ReadSection {
  section_count : Z;
  section_blocks : ReadPalette;
  section_biomes : ReadPalette;
  section_complaints : list Complaint
}.

(** The number of longs is looked at before they are read. *)
Definition read_data (check : Z → result (list Complaint)) : reader (list Complaint * list Z) :=
  size ← popVarInt;
  complaints ← computed (check size);
  data ← popArray_loop popLong (Z.to_nat size);
  mret (complaints, data).

Definition read_section_data : reader ReadSection :=
  blockCount ← popShort;
  blocks ← read_palette;
  blockData ← read_data (λ size, data_complaints blocks.1 size blockCount);
  biomes ← read_palette;
  biomeData ← read_data (λ _, Ok []);
  mret (mk_ReadSection blockCount (mk_ReadPalette blocks.1 blocks.2 blockData.2)
    (mk_ReadPalette biomes.1 biomes.2 biomeData.2) blockData.1).

Record ReadChunk : Type := mk_ReadChunk {
  chunk_heightmap : option nbt_Base;
  chunk_size : Z;
  chunk_sections : list ReadSection;
  chunk_entities : Z;
  chunk_trustEdges : bool;
  chunk_masks : list (list Z);
  chunk_sky : list (list Z);
  chunk_light : list (list Z);
  chunk_complaints : list Complaint
}.

Definition mask_complaint (mask : list Z) : list Complaint :=
  complain (bool_decide (zlen mask ≠ 1)) Wrong_mask.
Definition light_complaint (array : list Z) : list Complaint :=
  complain (bool_decide (zlen array ≠ SECTION_3D_SIZE / 2)) Wrong_light.

(** All but the last line. *)
Definition read_chunk_parts : reader ReadChunk :=
  heightmap ← nbt_parse;
  size ← popVarInt;
  sections ← popArray_loop read_section_data (Z.to_nat (NB_OF_SECTIONS - 2));
  blockEntitiesCount ← popVarInt;
  trustEdges ← popBoolean;
  skyLightMask ← popArray popLong;
  blockLightMask ← popArray popLong;
  emptySkyLightMask ← popArray popLong;
  emptyBlockLightMask ← popArray popLong;
  sky ← popArray (popArray popByte);
  light ← popArray (popArray popByte);
  let masks := [skyLightMask; blockLightMask; emptySkyLightMask; emptyBlockLightMask] in
  mret (mk_ReadChunk heightmap size sections blockEntitiesCount trustEdges masks sky light
    ((sections ≫= section_complaints) ++ (masks ≫= mask_complaint) ++ (sky ≫= light_complaint) ++
     (light ≫= light_complaint))).
Definition read_chunk_data : reader ReadChunk :=
  c ← read_chunk_parts;
  rest ← distance_to_eof;
  mret (mk_ReadChunk (chunk_heightmap c) (chunk_size c) (chunk_sections c) (chunk_entities c) (chunk_trustEdges c)
    (chunk_masks c) (chunk_sky c) (chunk_light c)
    (chunk_complaints c ++ complain (bool_decide (rest ≠ -1)) Not_all_read)).

(** ** The chunk *)

Definition dump_chunk (chunk : ChunkColumn) : result (list DumpedSection * list (list Z) * ReadChunk) :=
  palettes ← each_section dump_section (_sections chunk) dumped_sections;
  missing ← each_section (λ s, blocks_missing s (seqZ 0 SECTION_3D_SIZE)) (_sections chunk) dumped_sections;
  data ← addChunkColumn chunk [];
  r ← read_chunk_data data (zlen data - 1) 0;
  Ok (palettes, missing, r.1).
End DumpChunk.

(** ** The dump of a well-formed chunk *)

Lemma result_assoc {A B C} (p : result A) (f : A → result B) (g : B → result C) :
  (p ≫= f) ≫= g = p ≫= λ x, f x ≫= g.
Proof. by destruct p. Qed.

(** A group of readers is the same as one after another. *)
Lemma reads_assoc {A B C} (p : reader A) (f : A → reader B) (g : B → reader C) bs c :
  Reads ((p ≫= f) ≫= g) bs c → Reads (p ≫= λ x, f x ≫= g) bs c.
Proof.
  intros H pre post eof He. rewrite <- (H pre post eof He). unfold mbind, reader_bind.
  by destruct (p _ _ _) as [[a i]| | |].
Qed.
Lemma sized_assoc {A B C} n w (p : reader A) (f : A → reader B) (g : B → reader C) c :
  Sized n w ((p ≫= f) ≫= g) c → Sized n w (p ≫= λ x, f x ≫= g) c.
Proof. intros (bs & ? & ? & ?). exists bs. split_and!; [done|by apply reads_assoc|tauto..]. Qed.

Lemma sized_computed {A B} n w (r : result A) a (f : A → reader B) b :
  r = Ok a → Sized n w (f a) b → Sized n w (computed r ≫= f) b.
Proof. intros -> (bs & ? & ? & ?). exists bs. split_and!; [done| |tauto..]. intros pre post eof He. by apply H0. Qed.

Lemma sized_list {S A} n (w : S → writer) (p : reader A) (g : S → A) l :
  Forall (λ s, Sized n (w s) p (g s)) l →
  Sized (n * zlen l) (serialize (w <$> l)) (popArray_loop p (length l)) (g <$> l).
Proof.
  induction 1 as [|x l Hx _ IH].
  { apply (sized_le 0); [by rewrite Z.mul_0_r|by apply sized_ret]. }
  apply (sized_le (n + n * zlen l)); [rewrite zlen_cons; lia|]. cbn.
  eapply sized_cons; [exact Hx|]. by eapply sized_map; [exact IH|].
Qed.

Lemma sized_Long v : is_u 64 v → Sized 8 (addUnsignedLong v) popLong (to_i64 v).
Proof. intros H. exists (be_bytes 8 v). split_and!; [apply _|apply _|apply be_bytes_is_byte|done]. Qed.

Section Dump.
Context (palette : list InternalBlock).

(** The conversion of an identifier to a block is defined. *)
Definition knows (id : Z) : Prop := ∃ b, fromProtocolIdToBlock palette id = Ok b.
Definition block_of (id : Z) : Block :=
  match fromProtocolIdToBlock palette id with Ok b => b | _ => mk_Block EmptyString [] end.

Lemma knows_block id : knows id → fromProtocolIdToBlock palette id = Ok (block_of id).
Proof. intros [b Hb]. unfold block_of. by rewrite Hb. Qed.

(** *** A palette and its data *)

Definition dumped_palette (p : Palette) (d : DynamicStorage) : ReadPalette :=
  mk_ReadPalette (_valueSize d)
    (if decide (_valueSize d = 0) then [(0, mk_Block EmptyString [])]
     else if decide (_valueSize d ≤ 8) then (λ id, (id, block_of id)) <$> p else [])
    (to_i64 <$> _store d).

Section Container.
Context (N : Z) (getBits : Palette → result Z) (capacity : Z).
Context {HB : BitsLaw getBits capacity}.
Hypothesis HN : 0 < N ≤ 4096.
Hypothesis Hcap : 0 ≤ capacity ≤ 2 ^ 15.

Lemma sized_palette_ids p d :
  paletted_wf N getBits capacity p d → (_valueSize d ≤ 8 ∨ _valueSize d = 15) →
  Forall (is_s 32) p → Forall knows p →
  Sized 200000 (serialize [addByte (_valueSize d); palette_ids p d]) (read_palette palette)
    (_valueSize d, palette_entries (dumped_palette p d)).
Proof.
  intros Hwf Hv Hp Hk. pose proof Hwf as ((Hvs & _) & _ & Hc & _). unfold read_palette, palette_ids, dumped_palette.
  cbn [palette_entries]. apply (sized_le (1 + (199000 + 0))); [lia|].
  eapply sized_cons; [apply sized_Byte; unfold is_u; lia|]. cbn beta.
  destruct (decide (_valueSize d = 0)) as [Hz|Hz].
  - eapply sized_cons; [|by apply sized_ret]. apply (sized_le 5); [lia|].
    by eapply sized_map; [apply sized_VarInt|].
  - eapply sized_cons; [|by apply sized_ret]. destruct (decide (_valueSize d = 15)) as [H15|H15].
    + rewrite !decide_False by lia. apply (sized_le 0); [lia|]. by apply sized_ret.
    + rewrite !decide_True by lia. apply (sized_le (5 + 5 * 2 ^ 15)); [lia|].
      eapply (sized_ext _ _ (serialize [addVarInt (zlen p); serialize (addVarInt <$> p)])).
      { intros out. unfold addArray. cbn [serialize]. destruct (addVarInt (zlen p) out); cbn [mbind result_bind]; [|done..].
        by destruct (serialize (addVarInt <$> p) _). }
      eapply sized_cons; [apply sized_VarInt; unfold is_s; lia|]. cbn beta. rewrite Nat2Z.id.
      apply sized_single. apply (sized_le (5 * zlen p)); [lia|]. apply sized_list.
      apply list.Forall_forall. intros id Hid. rewrite list.Forall_forall in Hp, Hk. unfold read_entry.
      apply (sized_le (5 + 0)); [lia|]. 
      eapply (sized_ext _ _ (serialize [addVarInt id])); [intros out; cbn [serialize]; by destruct (addVarInt id out)|].
      eapply sized_cons; [by apply sized_VarInt, Hp|]. cbn beta.
      eapply sized_computed; [by apply knows_block, Hk|]. by apply sized_ret.
Qed.

Lemma sized_data p d check :
  paletted_wf N getBits capacity p d → check (zlen (_store d)) = Ok [] →
  Sized 40000 (storage_longs d) (read_data check) ([], to_i64 <$> _store d).
Proof.
  intros Hwf Hcheck. pose proof Hwf as ((Hvs & Hst & Hlen) & _). unfold read_data.
  assert (Hl : 0 ≤ zlen (_store d) ≤ 4097).
  { rewrite Hlen. case_decide; [lia|]. pose proof (store_size_le N ltac:(lia) (_valueSize d)). lia. }
  eapply (sized_ext _ _ (serialize [addVarInt (zlen (_store d)); serialize (addUnsignedLong <$> _store d)])).
  { intros out. unfold storage_longs. destruct (decide (_valueSize d = 0)) as [Hz|Hz].
    - destruct (empty_palette N getBits capacity p d Hwf Hz) as [_ ->]. change (zlen []) with 0. cbn [serialize fmap list_fmap].
      by destruct (addVarInt 0 out).
    - unfold add_longs, addArray. cbn [serialize].
      destruct (addVarInt _ out); cbn [mbind result_bind]; [|done..]. by destruct (serialize (addUnsignedLong <$> _) _). }
  apply (sized_le (5 + 8 * zlen (_store d))); [lia|].
  eapply sized_cons; [apply sized_VarInt; unfold is_s; lia|]. cbn beta.
  eapply sized_computed; [exact Hcheck|]. rewrite Nat2Z.id.
  apply sized_single. eapply (sized_map _ _ _ (λ data, ([], data))); [|reflexivity]. apply sized_list.
  eapply list.Forall_impl; [exact Hst|]. intros x. apply sized_Long.
Qed.
End Container.

(** *** Sections *)

Definition section_known (s : Section_) : Prop :=
  Forall knows (_blockPalette s) ∧ Forall knows (_biomePalette s).

Definition dumped_section (s : Section_) : ReadSection :=
  mk_ReadSection (block_count s) (dumped_palette (_blockPalette s) (_blocks s))
    (dumped_palette (_biomePalette s) (_biomes s)) [].

(** The data of a section are as many as its bits ask for. *)
Lemma no_data_complaints s :
  section_wf s →
  data_complaints (_valueSize (_blocks s)) (zlen (_store (_blocks s))) (block_count s) = Ok [].
Proof.
  intros (((Hv & _ & Hl) & _) & _). unfold data_complaints.
  assert (Hc : block_count s ≤ 4096).
  { unfold block_count. pose proof (length_filter (λ i, cell (_blockPalette s) (_blocks s) i ≠ 0) (seqZ 0 4096)) as H.
    rewrite length_seqZ in H. lia. }
  rewrite Hl. set (v := _valueSize (_blocks s)) in *. destruct (decide (v = 0)) as [Hz|Hz].
  - rewrite Hz. rewrite decide_False by lia. done.
  - rewrite decide_True by lia. unfold store_size, per_entry.
    assert (Hp : 2 ≤ 64 / v ≤ 64) by (split; [apply Z.div_le_lower_bound|apply Z.div_le_upper_bound]; lia).
    set (k := 64 / v) in *. pose proof (Z.div_mod 4096 k ltac:(lia)) as Hdm.
    pose proof (Z.mod_pos_bound 4096 k ltac:(lia)) as Hm.
    assert (Hq : 64 ≤ 4096 / k ≤ 2048) by (split; [apply Z.div_le_lower_bound|apply Z.div_le_upper_bound]; lia).
    set (n := 4096 / k + _). assert (Hn : 64 ≤ n ≤ 2049 ∧ 4096 ≤ n * k) by (unfold n; case_decide; split; nia).
    unfold chk_i32. rewrite decide_True by (unfold is_s; nia). cbn [mbind result_bind].
    unfold complain. rewrite !bool_decide_eq_false_2 by lia. done.
Qed.

Lemma addSection_groups s out :
  section_wf s →
  addSection s out = serialize [addShort (block_count s);
    serialize [addByte (_valueSize (_blocks s)); palette_ids (_blockPalette s) (_blocks s)];
    storage_longs (_blocks s);
    serialize [addByte (_valueSize (_biomes s)); palette_ids (_biomePalette s) (_biomes s)];
    storage_longs (_biomes s)] out.
Proof.
  intros Hs. rewrite addSection_parts by done. unfold paletted_writer. cbn [serialize].
  destruct (addShort _ out) as [o| | |]; cbn [mbind result_bind]; [|done..].
  destruct (addByte (_valueSize (_blocks s)) o) as [o1| | |]; cbn [mbind result_bind]; [|done..].
  destruct (palette_ids (_blockPalette s) _ o1) as [o2| | |]; cbn [mbind result_bind]; [|done..].
  destruct (storage_longs (_blocks s) o2) as [o3| | |]; cbn [mbind result_bind]; [|done..].
  destruct (addByte _ o3) as [o4| | |]; cbn [mbind result_bind]; [|done..].
  destruct (palette_ids _ _ o4) as [o5| | |]; cbn [mbind result_bind]; [|done..].
  by destruct (storage_longs _ o5).
Qed.

Lemma sized_dumped_section s :
  section_wf s → ids_fit s → section_known s →
  Sized 500000 (addSection s) (read_section_data palette) (dumped_section s).
Proof.
  intros Hs [Hi Hi'] [Hk Hk']. pose proof Hs as (Hb & Hm & _).
  eapply sized_ext; [intros out; by apply addSection_groups|].
  apply (sized_le (2 + (200000 + (40000 + (200000 + (40000 + 0)))))); [lia|]. unfold read_section_data.
  eapply sized_cons; [apply sized_Short, block_count_range|]. cbn beta.
  eapply sized_cons.
  { apply (sized_palette_ids 4096 BlockPalette_getBits (2 ^ 15)); try done.
    destruct Hb as (_ & Hb & Hc & _). pose proof (block_bits_range _ _ Hc Hb). case_decide; lia. }
  cbn beta. eapply sized_cons.
  { apply (sized_data 4096 BlockPalette_getBits (2 ^ 15) ltac:(lia) (_blockPalette s)); [done|]. by apply no_data_complaints. }
  cbn beta. eapply sized_cons.
  { apply (sized_palette_ids 64 BiomePalette_getBits 8); try done.
    destruct Hm as (_ & Hm & _). pose proof (biome_bits_range _ _ Hm). lia. }
  cbn beta. eapply sized_cons; [by apply (sized_data 64 BiomePalette_getBits 8 ltac:(lia) (_biomePalette s))|].
  by apply sized_ret.
Qed.

(** *** The light *)

Lemma sized_dumped_mask n : is_s 64 n → 0 ≤ n → Sized 13 (add_longs [n]) (popArray popLong) [n].
Proof.
  intros H Hn. unfold popArray, add_longs, addArray. apply (sized_le (5 + 8)); [lia|].
  eapply (sized_ext _ _ (serialize [addVarInt 1; serialize [addUnsignedLong n]])).
  { intros out. change (zlen [n]) with 1. cbn [serialize fmap list_fmap].
    destruct (addVarInt 1 out); cbn [mbind result_bind]; [|done..]. by destruct (addUnsignedLong n _). }
  eapply sized_cons; [by apply sized_VarInt|]. cbn beta. change (Z.to_nat 1) with 1%nat.
  apply sized_single, (sized_le (8 * 1)); [done|].
  assert (Hl : Sized (8 * 1) (serialize [addUnsignedLong n]) (popArray_loop popLong 1) [to_i64 n]).
  { apply (sized_list 8 addUnsignedLong popLong to_i64 [n]). repeat constructor. apply sized_Long.
    unfold is_u, is_s in *. lia. }
  unfold to_i64 in Hl. by rewrite wrap_s_id in Hl.
Qed.

(** *** Columns *)

(** What is read of a well-formed column. *)
Definition dumped_masks (c : ChunkColumn) : list (list Z) :=
  [[mask_from Section_hasSkyLight 0 (_sections c)]; [mask_from Section_hasBlockLight 0 (_sections c)];
   [mask_from (negb ∘ Section_hasSkyLight) 0 (_sections c)];
   [mask_from (negb ∘ Section_hasBlockLight) 0 (_sections c)]].
Definition dumped_light (f : Section_ → bool) (d : Section_ → DynamicStorage) (c : ChunkColumn) : list (list Z) :=
  (λ s, _store (d s)) <$> filter (λ s, f s) (_sections c).
Definition dumped_chunk (data : list Z) (c : ChunkColumn) : ReadChunk :=
  mk_ReadChunk (Some (nbt_Compound String.EmptyString (_heightMap c))) (zlen data)
    (dumped_section <$> inner_sections c) 0 true (dumped_masks c)
    (dumped_light Section_hasSkyLight _skyLight c) (dumped_light Section_hasBlockLight _blockLight c) [].

(** Nobody complains about it. *)
Lemma no_complaints {A} (f : A → list Complaint) l : Forall (λ x, f x = []) l → l ≫= f = [].
Proof. induction 1 as [|x l Hx _ IH]; [done|]. cbn. by rewrite Hx, IH. Qed.

Lemma light_arrays f d n c :
  (∀ s, section_wf s → light_wf (d s) (n s)) → column_wf c → dumped_light f d c ≫= light_complaint = [].
Proof.
  intros Hd [_ Hc]. apply no_complaints. unfold dumped_light. rewrite Forall_fmap.
  apply list.Forall_forall. intros s Hs. apply list_elem_of_filter in Hs as [_ Hs].
  rewrite list.Forall_forall in Hc. destruct (Hd s (Hc s Hs)) as ((_ & _ & Hl) & H4 & _).
  rewrite H4, decide_False in Hl by done. change (store_size 8 4096 4) with 2048 in Hl.
  unfold light_complaint, complain. cbn. by rewrite Hl.
Qed.

Lemma sized_lit_arrays f d n c :
  (∀ s, section_wf s → light_wf (d s) (n s)) → column_wf c →
  Sized 60000 (serialize (addVarInt (lit_count f (_sections c)) ::
      ((λ s, when (f s) (add_bytes (_store (d s)))) <$> _sections c)))
    (popArray (popArray popByte)) (dumped_light f d c).
Proof.
  intros Hd [Hl Hc]. apply (sized_le (5 + 2053 * zlen (_sections c))); [lia|].
  apply sized_counted_lit; [lia|lia|]. eapply list.Forall_impl; [exact Hc|].
  intros s Hs. by eapply sized_light_array, Hd.
Qed.

Lemma inner_wf c : column_wf c → length (inner_sections c) = 24%nat ∧ Forall section_wf (inner_sections c).
Proof.
  intros [Hl Hw]. unfold inner_sections. split; [rewrite length_take, length_drop; lia|by apply Forall_take, Forall_drop].
Qed.

Lemma rt_dumped_data c :
  column_wf c → Forall ids_fit (_sections c) → Forall section_known (_sections c) →
  ∃ data, serialize (addSection <$> inner_sections c) [] = Ok data ∧ zlen data < 2 ^ 31 ∧ Forall is_byte data ∧
    Reads (popArray_loop (read_section_data palette) 24) data (dumped_section <$> inner_sections c).
Proof.
  intros Hc Hf Hk. destruct (inner_wf c Hc) as [Hi Hw].
  assert (Hs : Sized (500000 * zlen (inner_sections c)) (serialize (addSection <$> inner_sections c))
      (popArray_loop (read_section_data palette) (length (inner_sections c))) (dumped_section <$> inner_sections c)).
  { apply sized_list. assert (Hall : Forall (λ s, section_wf s ∧ ids_fit s ∧ section_known s) (inner_sections c)).
    { unfold inner_sections. apply Forall_take, Forall_drop. destruct Hc as [_ Hc].
      rewrite list.Forall_forall in *. auto. }
    eapply list.Forall_impl; [exact Hall|]. intros s (? & ? & ?). by apply sized_dumped_section. }
  rewrite Hi in Hs. destruct Hs as (bs & Hw' & Hr & Hb & Hn). exists bs.
  split_and!; [by apply emits_nil|lia|done|done].
Qed.

(** The packet is read up to its last byte. *)
Lemma rt_dumped c :
  column_wf c → Forall ids_fit (_sections c) → Forall section_known (_sections c) →
  nbt_carried (nbt_Compound String.EmptyString (_heightMap c)) →
  ∃ data, RT (addChunkColumn c) (read_chunk_parts palette) (dumped_chunk data c).
Proof.
  intros Hc Hf Hk Hn. destruct (rt_dumped_data c Hc Hf Hk) as (data & Hd & Hl & Hb & Hr). exists data.
  assert (∀ out, addChunkColumn c out = serialize [addNBT (nbt_Compound String.EmptyString (_heightMap c));
      addVarInt (zlen data); serialize (addByte <$> data); addVarInt 0; addLight c] out) as E.
  { intros out. unfold addChunkColumn. cbn [serialize].
    destruct (addNBT _ out) as [o| | |]; cbn [mbind result_bind]; [|done..].
    rewrite Hd. cbn [mbind result_bind]. unfold add_bytes, addArray, addBlockEntities. cbn [serialize fmap list_fmap].
    destruct (addVarInt (zlen data) o) as [o1| | |]; cbn [mbind result_bind]; [|done..].
    destruct (serialize (addByte <$> data) o1) as [o2| | |]; cbn [mbind result_bind]; [|done..].
    change (zlen []) with 0. destruct (addVarInt 0 o2) as [o3| | |]; cbn [mbind result_bind]; [|done..].
    by destruct (addLight c o3). }
  cut (RT (serialize [addNBT (nbt_Compound String.EmptyString (_heightMap c));
      addVarInt (zlen data); serialize (addByte <$> data); addVarInt 0; addLight c])
    (read_chunk_parts palette) (dumped_chunk data c)).
  { intros (bs & Hw & Hp). exists bs. split; [|done]. intros out. by rewrite E, Hw. }
  unfold read_chunk_parts. eapply (rt_cons _ _ _ _ (Some (nbt_Compound String.EmptyString (_heightMap c)))).
  { destruct Hn as [Hwf Hs]. exists (nbt_wire true (nbt_Compound String.EmptyString (_heightMap c))).
    split; [by apply nbt_emits|]. pose proof (reads_nbt_parse (nbt_Compound String.EmptyString (_heightMap c)) Hwf) as H.
    by rewrite Hs in H. }
  cbn beta. eapply rt_cons; [apply rt_VarInt; unfold is_s; zlia|].
  cbn beta. eapply rt_cons.
  { exists data. split; [by apply emits_bytes|exact Hr]. }
  cbn beta. eapply rt_cons; [by apply rt_VarInt|]. cbn beta. apply (sized_rt 200000).
  apply sized_single. eapply sized_ext; [intros out; by apply addLight_parts|].
  apply (sized_le (1 + (13 + (13 + (13 + (13 + (60000 + (60000 + 0)))))))); [lia|]. cbn [app].
  assert (Hm : ∀ f, is_s 64 (mask_from f 0 (_sections c)) ∧ 0 ≤ mask_from f 0 (_sections c)).
  { intros f. pose proof (masks_fit f c Hc). unfold is_s. lia. }
  eapply sized_cons; [apply sized_Boolean|]. cbn beta.
  do 4 (eapply sized_cons; [by apply sized_dumped_mask; apply Hm|]; cbn beta).
  rewrite app_comm_cons. eapply sized_app; [by apply (sized_lit_arrays _ _ _skyLightCount); [intros s (? & ? & ? & ?)|]|].
  cbn beta. eapply sized_ext; [intros out; rewrite <- (app_nil_r (addVarInt _ :: _)); reflexivity|].
  eapply sized_app; [by apply (sized_lit_arrays _ _ _blockLightCount); [intros s (? & ? & ? & ?)|]|].
  cbn beta. apply sized_ret. unfold dumped_chunk. f_equal.
  rewrite (light_arrays Section_hasSkyLight _skyLight _skyLightCount), (light_arrays Section_hasBlockLight _blockLight _blockLightCount)
    by (done || by intros s (? & ? & ? & ?)).
  rewrite no_complaints by (rewrite Forall_fmap; by apply list.Forall_forall). done.
Qed.

(** *** The loops over the sections *)

Lemma each_section_ok {A} (f : Section_ → result A) (g : Section_ → A) l n k :
  (k + n ≤ length l)%nat → Forall (λ s, f s = Ok (g s)) l →
  each_section f l (seqZ (Z.of_nat k) (Z.of_nat n)) = Ok (g <$> take n (drop k l)).
Proof.
  intros Hn Hf. revert k Hn. induction n as [|n IH]; intros k Hn; [done|].
  rewrite seqZ_cons by lia. cbn [each_section]. rewrite Nat2Z.id.
  destruct (lookup_lt_is_Some_2 l k) as [s Hs]; [lia|]. rewrite Hs.
  rewrite list.Forall_lookup in Hf. rewrite (Hf k s Hs). cbn [mbind result_bind].
  replace (Z.succ (Z.of_nat k)) with (Z.of_nat (S k)) by lia. replace (Z.pred (Z.of_nat (S n))) with (Z.of_nat n) by lia.
  rewrite IH by lia. cbn [mbind result_bind]. by rewrite (drop_S l s k Hs).
Qed.

Lemma each_inner {A} (f : Section_ → result A) (g : Section_ → A) c :
  column_wf c → (∀ s, s ∈ _sections c → f s = Ok (g s)) →
  each_section f (_sections c) dumped_sections = Ok (g <$> inner_sections c).
Proof.
  intros [Hl _] Hf. unfold inner_sections. rewrite Hl. apply (each_section_ok f g (_sections c) 24 1); [lia|].
  by apply list.Forall_forall.
Qed.

(** Every block of a section is in its palette. *)
Lemma cell_in_palette s i : section_wf s → 0 ≤ i < 4096 → cell (_blockPalette s) (_blocks s) i ∈ _blockPalette s.
Proof.
  intros (((Hv & _) & _ & _ & Hh & He) & _) Hi. unfold cell. destruct (decide (_valueSize (_blocks s) = 0)) as [Hz|Hz].
  - destruct (_blockPalette s); [done|]. injection Hh as ->. apply list.elem_of_cons. by left.
  - specialize (He Hz i Hi). unfold Palette_getGlobalId. rewrite decide_False by lia.
    assert (0 ≤ entry 64 (_blocks s) i).
    { unfold entry. rewrite Z.land_ones by lia. apply Z.mod_pos_bound, Z.pow_pos_nonneg; lia. }
    destruct (lookup_lt_is_Some_2 (_blockPalette s) (Z.to_nat (entry 64 (_blocks s) i))) as [g Hg]; [lia|].
    rewrite Hg. by eapply list_elem_of_lookup_2.
Qed.

Lemma nothing_missing s l : section_wf s → Forall (λ i, 0 ≤ i < 4096) l → blocks_missing s l = Ok [].
Proof.
  intros Hs. induction 1 as [|i l Hi _ IH]; [done|]. cbn [blocks_missing].
  assert (Section_getBlock_idx s i = Ok (cell (_blockPalette s) (_blocks s) i)) as ->.
  { exact (get_cell 4096 BlockPalette_getBits (2 ^ 15) _ _ _ (proj1 Hs) Hi). }
  cbn [mbind result_bind].
  rewrite IH. cbn [mbind result_bind]. by rewrite bool_decide_eq_true_2 by by apply cell_in_palette.
Qed.

Lemma dump_names_ok ids : Forall knows ids → dump_names palette ids = Ok ((λ id, (id, block_of id)) <$> ids).
Proof.
  induction 1 as [|id ids Hid _ IH]; [done|]. cbn [dump_names fmap list_fmap].
  rewrite (knows_block id Hid). cbn [mbind result_bind]. by rewrite IH.
Qed.

(** The palette, read by its indices. *)
Lemma palette_by_index p : Palette_getGlobalId p <$> seqZ 0 (zlen p) = p.
Proof.
  apply list_eq. intros i. rewrite list_lookup_fmap. destruct (decide (i < length p)%nat) as [Hi|Hi].
  - rewrite lookup_seqZ_lt by lia. cbn. unfold Palette_getGlobalId. rewrite decide_False by lia.
    rewrite Z.add_0_l, Nat2Z.id. destruct (lookup_lt_is_Some_2 p i Hi) as [g Hg]. by rewrite Hg.
  - rewrite (lookup_seqZ_ge 0), lookup_ge_None_2 by lia. done.
Qed.

Definition dumped_names_of (s : Section_) : DumpedSection :=
  mk_DumpedSection (_valueSize (_blocks s)) (zlen (_blockPalette s)) (block_count s)
    ((λ id, (id, block_of id)) <$> _blockPalette s).
Lemma dump_section_ok s : section_wf s → section_known s → dump_section palette s = Ok (dumped_names_of s).
Proof.
  intros Hs [Hk _]. pose proof Hs as ((_ & Hb & _) & _). pose proof (count_all_blocks s Hs) as Hc. revert Hc.
  unfold dump_section, dumped_names_of. generalize (block_count s) as n.
  generalize (count_blocks s (seqZ 0 SECTION_3D_SIZE) 0) as count. intros count n ->.
  unfold Palette_size. rewrite Hb, palette_by_index, dump_names_ok by done. done.
Qed.

(** The command [/dumpChunk] reads back what the server sends.  For a well-formed column
    whose identifiers have names, going through its palettes and reading its packet again with the
    server's own readers never fails; every palette that is sent comes out
    entry by entry, every section with its number of blocks, its data and its lights, the packet is read to its
    last byte, and there is nothing to complain about: no block is missing from its
    palette, no mask or light has a wrong size, the data are as many as their bits ask for. *)
Theorem dump_reads_back c :
  column_wf c → Forall ids_fit (_sections c) → Forall section_known (_sections c) →
  nbt_carried (nbt_Compound String.EmptyString (_heightMap c)) →
  ∃ data, dump_chunk palette c =
    Ok (dumped_names_of <$> inner_sections c, (λ _, []) <$> inner_sections c, dumped_chunk data c).
Proof.
  intros Hc Hf Hk Hn. destruct (rt_dumped c Hc Hf Hk Hn) as (data & bs & Hw & Hr). exists data.
  pose proof Hc as [_ Hwf]. rewrite list.Forall_forall in Hwf. rewrite list.Forall_forall in Hk.
  unfold dump_chunk.
  rewrite (each_inner _ dumped_names_of) by (auto using dump_section_ok). cbn [mbind result_bind].
  rewrite (each_inner _ (λ _, [])) by (done || (intros s Hs; apply nothing_missing; [auto|];
    apply list.Forall_forall; intros i Hi; by apply elem_of_seqZ in Hi)). cbn [mbind result_bind].
  rewrite (emits_nil _ _ Hw). cbn [mbind result_bind].
  pose proof (Hr [] [] (zlen bs - 1)) as E. cbn [app] in E. rewrite app_nil_r in E. specialize (E ltac:(lia)).
  unfold read_chunk_data, mbind, reader_bind. change (zlen []) with 0 in E. rewrite E. cbn [mbind result_bind fst snd].
  unfold distance_to_eof. cbn [mbind result_bind fst snd]. replace (zlen bs - 1 - zlen bs) with (-1) by lia. done.
Qed.
End Dump.

Lemma dump_reads_back_witness :
  ∃ c data, column_wf c ∧ Forall ids_fit (_sections c) ∧ Forall (section_known []) (_sections c) ∧
    nbt_carried (nbt_Compound String.EmptyString (_heightMap c)) ∧
    dump_chunk [] c =
      Ok (dumped_names_of [] <$> inner_sections c, (λ _, []) <$> inner_sections c, dumped_chunk [] data c).
Proof.
  destruct placed_example as (c & _ & (_ & _ & Hc & Hf & Hn) & _).
  assert (Hk : Forall (section_known []) (_sections c)).
  { apply list.Forall_forall. intros s _. split; apply list.Forall_forall; intros id _; by eexists. }
  destruct (dump_reads_back [] c Hc Hf Hk Hn) as [data Hd]. exists c, data.
  split; [exact Hc|split; [exact Hf|split; [exact Hk|split; [exact Hn|exact Hd]]]].
Defined.
