(* ===== verification/Logging.v ===== *)
(** * The registry of loggers (logging/)

    Which loggers there are, at which level each of them writes, and which one a thread
    writes to.  The lines themselves and where they go are left to the library. *)

From S2P Require Import Prelude State.

(** spdlog: the names of the levels, and the level of a name. *)
Class Spdlog : Type := mk_Spdlog {
  LEVEL_NAMES : list string;
  level_from_str : string → Z
}.

(** A logger is its level. *)
Record Registry : Type := mk_Registry {
  _loggers : gmap string Z;
  _threadLoggers : gmap Z string
}.
Definition set_loggers l r := mk_Registry l (_threadLoggers r).
Definition set_threadLoggers t r := mk_Registry (_loggers r) t.

(** ** Operations *)

(** [level] is the one the library gives to a new logger. *)
Definition Registry_registerLogger (name : string) (level : Z) : M Registry unit :=
  known ← gets (λ r, bool_decide (is_Some (_loggers r !! name)));
  if known : bool then raise std_runtime_error
  else modify (λ r, set_loggers (<[name := level]> (_loggers r)) r).

Definition Registry_unregisterLogger (name : string) : M Registry unit :=
  known ← gets (λ r, bool_decide (is_Some (_loggers r !! name)));
  if known : bool then
    _ ← modify (λ r, set_loggers (delete name (_loggers r)) r);
    modify (λ r, set_threadLoggers (filter (λ e, e.2 ≠ name) (_threadLoggers r)) r)
  else mret tt.

(** A null pointer is [None]. *)
Definition Registry_get (name : string) : M Registry (option string) :=
  known ← gets (λ r, bool_decide (is_Some (_loggers r !! name)));
  mret (if known : bool then Some name else None).

(** The default logger of the library, which the constructor sets. *)
Definition main_logger : string := "main".

Definition Registry_threadDefaultLogger (thread : Z) : M Registry (option string) :=
  name ← gets (λ r, _threadLoggers r !! thread);
  match name with None => mret (Some main_logger) | Some name => Registry_get name end.

Definition Registry_setThreadDefaultLogger (thread : Z) (name : string) : M Registry unit :=
  _ ← modify (λ r, set_threadLoggers (delete thread (_threadLoggers r)) r);
  modify (λ r, set_threadLoggers (<[thread := name]> (_threadLoggers r)) r).

Definition Registry_removeThreadDefaultLogger (thread : Z) : M Registry unit :=
  modify (λ r, set_threadLoggers (delete thread (_threadLoggers r)) r).

(** [logger->set_level(level)], and the level of all of them. *)
Definition Logger_set_level (name : string) (level : Z) : M Registry unit :=
  modify (λ r, set_loggers (<[name := level]> (_loggers r)) r).
Definition Registry_setLevel (level : Z) : M Registry unit :=
  modify (λ r, set_loggers ((λ _, level) <$> _loggers r) r).

(** The constructor. *)
Definition Registry_make (level : Z) : Registry := mk_Registry {[main_logger := level]} ∅.

(** [LINFO] and the others write through a pointer: [threadDefaultLogger()->log(...)]. *)
Definition log (thread : Z) : M Registry unit :=
  logger ← Registry_threadDefaultLogger thread;
  match logger with Some _ => mret tt | None => undefined_ NullDereference end.

(** ** The command [/log] (command_parser/commands/Log.cpp) *)

Section Log.
Context `{Spdlog}.

Definition Log_levels (args : list string) : M Registry unit :=
  match args with
  | [] => mret tt
  | name :: rest =>
      if bool_decide (name ∈ LEVEL_NAMES) then Registry_setLevel (level_from_str name)
      else
        logger ← Registry_get name;
        match logger with
        | None => mret tt
        | Some logger =>
            match rest with
            | [] => undefined_ OutOfBoundsRead
            | type :: _ => Logger_set_level logger (level_from_str type)
            end
        end
  end.
End Log.

(** ** Properties *)

(** A call of the registry. *)
Inductive LoggingCall : Type :=
| Log_register (name : string) (level : Z)
| Log_unregister (name : string)
| Log_set_thread (thread : Z) (name : string)
| Log_remove_thread (thread : Z)
| Log_level (level : Z)
| Log_write (thread : Z).

Definition logging_call (c : LoggingCall) : M Registry unit :=
  match c with
  | Log_register name level => Registry_registerLogger name level
  | Log_unregister name => Registry_unregisterLogger name
  | Log_set_thread thread name => Registry_setThreadDefaultLogger thread name
  | Log_remove_thread thread => Registry_removeThreadDefaultLogger thread
  | Log_level level => Registry_setLevel level
  | Log_write thread => log thread
  end.

(** Every thread that has a logger of its own has one that exists. *)
Definition registry_sound (r : Registry) : Prop :=
  map_Forall (λ _ name, is_Some (_loggers r !! name)) (_threadLoggers r).
(** Threads are given loggers that exist. *)
Definition call_careful (r : Registry) (c : LoggingCall) : Prop :=
  match c with Log_set_thread _ name => is_Some (_loggers r !! name) | _ => True end.

(** A sequence of calls, whatever they answer; [None] once one of them is undefined. *)
Fixpoint logging_calls (cs : list LoggingCall) (r : Registry) : option Registry :=
  match cs with
  | [] => Some r
  | c :: cs =>
      match logging_call c r with
      | (UB _, _) | (OutOfFuel, _) => None
      | (_, r) => logging_calls cs r
      end
  end.
Fixpoint calls_careful (cs : list LoggingCall) (r : Registry) : Prop :=
  match cs with
  | [] => True
  | c :: cs => call_careful r c ∧ calls_careful cs (logging_call c r).2
  end.

Lemma call_keeps_sound c r :
  registry_sound r → call_careful r c →
  (∀ k, (logging_call c r).1 ≠ UB k) ∧ (logging_call c r).1 ≠ OutOfFuel ∧ registry_sound (logging_call c r).2.
Proof.
  intros Hs Hc. destruct c as [name level|name|thread name|thread|level|thread]; cbn [logging_call].
  - unfold Registry_registerLogger, gets, modify, raise, mbind, M_bind. case_bool_decide; [done|].
    split_and!; [done|done|]. intros t n Hn. cbn in *. apply lookup_insert_is_Some.
    destruct (decide (name = n)); [by left|right; split; [done|by eapply Hs]].
  - unfold Registry_unregisterLogger, gets, modify, mbind, M_bind. case_bool_decide; [|done].
    split_and!; [done|done|]. intros t n Hn. cbn in *. apply map_lookup_filter_Some in Hn as [Hn Hne]. cbn in Hne.
    rewrite lookup_delete_ne by done. by eapply Hs.
  - unfold Registry_setThreadDefaultLogger, modify, mbind, M_bind. cbn in Hc.
    split_and!; [done|done|]. intros t n Hn. cbn in *. apply lookup_insert_Some in Hn as [[-> ->]|[_ Hn]]; [done|].
    apply lookup_delete_Some in Hn as [_ Hn]. by eapply Hs.
  - split_and!; [done|done|]. intros t n Hn. cbn in *. apply lookup_delete_Some in Hn as [_ Hn]. by eapply Hs.
  - split_and!; [done|done|]. intros t n Hn. cbn in *. rewrite lookup_fmap. destruct (Hs t n Hn) as [l Hl].
    by rewrite Hl.
  - unfold log, Registry_threadDefaultLogger, Registry_get, gets, mbind, M_bind.
    destruct (_threadLoggers r !! thread) as [n|] eqn:E; [|done].
    rewrite bool_decide_eq_true_2 by (by eapply Hs). done.
Qed.

(** No line of the log goes through a null pointer: whatever loggers are registered and
    removed, as long as threads are given loggers that exist at that time, no sequence of
    calls is undefined.  (Nothing checks the name that a thread is given.) *)
Theorem log_never_null cs r :
  registry_sound r → calls_careful cs r → ∃ r', logging_calls cs r = Some r' ∧ registry_sound r'.
Proof.
  revert r. induction cs as [|c cs IH]; intros r Hs Hc; cbn in *; [by exists r|]. destruct Hc as [Hc Hcs].
  destruct (call_keeps_sound c r Hs Hc) as (Hu & Hf & Hs'). specialize (IH _ Hs' Hcs).
  destruct (logging_call c r) as [[] r']; cbn in *; try done. by edestruct Hu.
Qed.

Lemma log_never_null_witness :
  registry_sound (Registry_make 2) ∧
  calls_careful [Log_register "WorldGen" 2; Log_set_thread 7 "WorldGen"; Log_write 7; Log_unregister "WorldGen"; Log_write 7]
    (Registry_make 2) ∧
  ∃ r', logging_calls [Log_register "WorldGen" 2; Log_set_thread 7 "WorldGen"; Log_write 7; Log_unregister "WorldGen"; Log_write 7]
    (Registry_make 2) = Some r' ∧ registry_sound r'.
Proof.
  assert (H1 : registry_sound (Registry_make 2)) by apply map_Forall_empty.
  assert (H2 : calls_careful [Log_register "WorldGen" 2; Log_set_thread 7 "WorldGen"; Log_write 7; Log_unregister "WorldGen"; Log_write 7]
    (Registry_make 2)) by (repeat split; by eexists).
  split; [exact H1|]. split; [exact H2|]. exact (log_never_null _ _ H1 H2).
Defined.

(** The name of a logger that does not exist makes the next line of that thread undefined. *)
Lemma unknown_logger_null thread name r :
  _loggers r !! name = None →
  (log thread (logging_call (Log_set_thread thread name) r).2).1 = UB NullDereference.
Proof.
  intros Hn. unfold log, Registry_threadDefaultLogger, Registry_get, gets, modify, mbind, M_bind.
  cbn [logging_call]. unfold Registry_setThreadDefaultLogger, modify, mbind, M_bind. cbn.
  rewrite lookup_insert_eq. cbn. by rewrite Hn.
Qed.
