(* ===== verification/Game.v ===== *)
(** * Players, dimensions and the world as one state (Player.hpp, Entity.hpp,
      LivingEntity.hpp, Dimension.hpp, World.hpp, TickClock.hpp, TickClock.cpp)

    The objects refer to each other through shared pointers, so the methods run
    over a store: a [Game] holds the network, the players by entity identifier,
    one dimension with its level, and the world.  A dimension lists the
    identifiers of its players and entities.  The mutexes make the methods
    atomic.  Plugins are libraries loaded at run time: [Plugins] is what they have
    registered for an event. *)

From S2P Require Import Prelude State LootTables Logging Types Floats Codec Structures Add Section ChunkColumn Level Container Inventory ClientPackets CreatePackets BlockStates Network Json Message.

(** ** Clocks *)

(** [_callback] is the code that the owner of the clock runs when [tick] says so. *)
Record TickClock : Type := mk_TickClock { clock_started : bool; clock_tickRate : Z; clock_tick : Z }.

Definition TickClock_start (c : TickClock) : TickClock := mk_TickClock true (clock_tickRate c) 0.
Definition TickClock_stop (c : TickClock) : TickClock := mk_TickClock false (clock_tickRate c) 0.
Definition TickClock_setTickRate (tickRate : Z) (c : TickClock) : TickClock :=
  mk_TickClock (clock_started c) tickRate (clock_tick c).

Definition TickClock_tick (c : TickClock) : bool * TickClock :=
  if negb (clock_started c) then (false, c)
  else
    let tick := to_u16 (clock_tick c + 1) in
    if decide (tick < clock_tickRate c) then (false, mk_TickClock true (clock_tickRate c) tick)
    else (true, mk_TickClock true (clock_tickRate c) 0).

(** ** Players *)

Inductive ChunkState : Type := ChunkState_Unloaded | ChunkState_Loading | ChunkState_Loaded.

#[export] Instance ChunkState_eq_dec : EqDecision ChunkState.
Proof. solve_decision. Defined.

Definition Gamemode_Survival : Z := 0.
Definition Gamemode_Creative : Z := 1.
Definition Gamemode_Adventure : Z := 2.
Definition Gamemode_Spectator : Z := 3.

Definition MAX_FOOD_LEVEL : Z := 20.
Definition MIN_FOOD_LEVEL : Z := 0.
Definition MIN_FOOD_LEVEL_FOR_REGENERATION : Z := 18.
Definition DEFAULT_FOOD_SATURATION_LEVEL : float := float_of_Z 5.
Definition FOOD_EXHAUSTION_SPRINTING_MULTIPLIER : float := float_lit 1 10.
Definition FOOD_EXHAUSTION_JUMP : float := float_lit 5 100.
Definition FOOD_EXHAUSTION_SPRINTING_JUMP : float := float_lit 2 10.
Definition FOOD_EXHAUSTION_ATTACK : float := float_lit 1 10.
Definition MAX_TICK_BEFORE_TIMEOUT : Z := 6000.

(** The members of [Player] with those of [LivingEntity] and [Entity] that its
    methods use.  [_cli] is the client's identifier in the network; the container
    list, to which nothing is ever added, is left out. *)
Record Player : Type := mk_Player {
  _id : Z;
  _cli : Z;
  _username : string;
  _uuidString : list Z;
  _uuid : u128;
  _keepAliveId : Z;
  _keepAliveIgnored : Z;
  _heldItem : Z;
  _gamemode : Z;
  _keepAliveClock : TickClock;
  _chunks : gmap Position2D ChunkState;
  _inventory : Inventory;
  _foodLevel : Z;
  _foodSaturationLevel : float;
  _foodTickTimer : Z;
  _foodExhaustionLevel : float;
  _chatVisibility : Z;
  _isFlying : bool;
  _isOperator : bool;
  _isSprinting : bool;
  _isJumping : bool;
  _health : float;
  _maxHealth : float;
  _pos : Vector3 double;
  _rot : Vector2 Z;
  _lastPos : Vector3 double;
  _lastRot : Vector2 Z
}.

Definition set_keepAliveId (v : Z) (p : Player) : Player :=
  mk_Player (_id p) (_cli p)
    (_username p) (_uuidString p) (_uuid p) v (_keepAliveIgnored p) (_heldItem p) (_gamemode p)
    (_keepAliveClock p) (_chunks p) (_inventory p) (_foodLevel p) (_foodSaturationLevel p)
    (_foodTickTimer p) (_foodExhaustionLevel p) (_chatVisibility p) (_isFlying p) (_isOperator p)
    (_isSprinting p) (_isJumping p) (_health p) (_maxHealth p) (_pos p) (_rot p) (_lastPos p)
    (_lastRot p).
Definition set_keepAliveIgnored (v : Z) (p : Player) : Player :=
  mk_Player (_id p) (_cli p)
    (_username p) (_uuidString p) (_uuid p) (_keepAliveId p) v (_heldItem p) (_gamemode p)
    (_keepAliveClock p) (_chunks p) (_inventory p) (_foodLevel p) (_foodSaturationLevel p)
    (_foodTickTimer p) (_foodExhaustionLevel p) (_chatVisibility p) (_isFlying p) (_isOperator p)
    (_isSprinting p) (_isJumping p) (_health p) (_maxHealth p) (_pos p) (_rot p) (_lastPos p)
    (_lastRot p).
Definition set_heldItem (v : Z) (p : Player) : Player :=
  mk_Player (_id p) (_cli p)
    (_username p) (_uuidString p) (_uuid p) (_keepAliveId p) (_keepAliveIgnored p) v (_gamemode p)
    (_keepAliveClock p) (_chunks p) (_inventory p) (_foodLevel p) (_foodSaturationLevel p)
    (_foodTickTimer p) (_foodExhaustionLevel p) (_chatVisibility p) (_isFlying p) (_isOperator p)
    (_isSprinting p) (_isJumping p) (_health p) (_maxHealth p) (_pos p) (_rot p) (_lastPos p)
    (_lastRot p).
Definition set_gamemode (v : Z) (p : Player) : Player :=
  mk_Player (_id p) (_cli p)
    (_username p) (_uuidString p) (_uuid p) (_keepAliveId p) (_keepAliveIgnored p) (_heldItem p) v
    (_keepAliveClock p) (_chunks p) (_inventory p) (_foodLevel p) (_foodSaturationLevel p)
    (_foodTickTimer p) (_foodExhaustionLevel p) (_chatVisibility p) (_isFlying p) (_isOperator p)
    (_isSprinting p) (_isJumping p) (_health p) (_maxHealth p) (_pos p) (_rot p) (_lastPos p)
    (_lastRot p).
Definition set_keepAliveClock (v : TickClock) (p : Player) : Player :=
  mk_Player (_id p)
    (_cli p) (_username p) (_uuidString p) (_uuid p) (_keepAliveId p) (_keepAliveIgnored p)
    (_heldItem p) (_gamemode p) v (_chunks p) (_inventory p) (_foodLevel p)
    (_foodSaturationLevel p) (_foodTickTimer p) (_foodExhaustionLevel p) (_chatVisibility p)
    (_isFlying p) (_isOperator p) (_isSprinting p) (_isJumping p) (_health p) (_maxHealth p)
    (_pos p) (_rot p) (_lastPos p) (_lastRot p).
Definition set_chunks (v : gmap Position2D ChunkState) (p : Player) : Player :=
  mk_Player
    (_id p) (_cli p) (_username p) (_uuidString p) (_uuid p) (_keepAliveId p)
    (_keepAliveIgnored p) (_heldItem p) (_gamemode p) (_keepAliveClock p) v (_inventory p)
    (_foodLevel p) (_foodSaturationLevel p) (_foodTickTimer p) (_foodExhaustionLevel p)
    (_chatVisibility p) (_isFlying p) (_isOperator p) (_isSprinting p) (_isJumping p) (_health p)
    (_maxHealth p) (_pos p) (_rot p) (_lastPos p) (_lastRot p).
Definition set_inventory (v : Inventory) (p : Player) : Player :=
  mk_Player (_id p) (_cli p)
    (_username p) (_uuidString p) (_uuid p) (_keepAliveId p) (_keepAliveIgnored p) (_heldItem p)
    (_gamemode p) (_keepAliveClock p) (_chunks p) v (_foodLevel p) (_foodSaturationLevel p)
    (_foodTickTimer p) (_foodExhaustionLevel p) (_chatVisibility p) (_isFlying p) (_isOperator p)
    (_isSprinting p) (_isJumping p) (_health p) (_maxHealth p) (_pos p) (_rot p) (_lastPos p)
    (_lastRot p).
Definition set_foodLevel (v : Z) (p : Player) : Player :=
  mk_Player (_id p) (_cli p)
    (_username p) (_uuidString p) (_uuid p) (_keepAliveId p) (_keepAliveIgnored p) (_heldItem p)
    (_gamemode p) (_keepAliveClock p) (_chunks p) (_inventory p) v (_foodSaturationLevel p)
    (_foodTickTimer p) (_foodExhaustionLevel p) (_chatVisibility p) (_isFlying p) (_isOperator p)
    (_isSprinting p) (_isJumping p) (_health p) (_maxHealth p) (_pos p) (_rot p) (_lastPos p)
    (_lastRot p).
Definition set_foodSaturationLevel (v : float) (p : Player) : Player :=
  mk_Player (_id p)
    (_cli p) (_username p) (_uuidString p) (_uuid p) (_keepAliveId p) (_keepAliveIgnored p)
    (_heldItem p) (_gamemode p) (_keepAliveClock p) (_chunks p) (_inventory p) (_foodLevel p) v
    (_foodTickTimer p) (_foodExhaustionLevel p) (_chatVisibility p) (_isFlying p) (_isOperator p)
    (_isSprinting p) (_isJumping p) (_health p) (_maxHealth p) (_pos p) (_rot p) (_lastPos p)
    (_lastRot p).
Definition set_foodTickTimer (v : Z) (p : Player) : Player :=
  mk_Player (_id p) (_cli p)
    (_username p) (_uuidString p) (_uuid p) (_keepAliveId p) (_keepAliveIgnored p) (_heldItem p)
    (_gamemode p) (_keepAliveClock p) (_chunks p) (_inventory p) (_foodLevel p)
    (_foodSaturationLevel p) v (_foodExhaustionLevel p) (_chatVisibility p) (_isFlying p)
    (_isOperator p) (_isSprinting p) (_isJumping p) (_health p) (_maxHealth p) (_pos p) (_rot p)
    (_lastPos p) (_lastRot p).
Definition set_foodExhaustionLevel (v : float) (p : Player) : Player :=
  mk_Player (_id p)
    (_cli p) (_username p) (_uuidString p) (_uuid p) (_keepAliveId p) (_keepAliveIgnored p)
    (_heldItem p) (_gamemode p) (_keepAliveClock p) (_chunks p) (_inventory p) (_foodLevel p)
    (_foodSaturationLevel p) (_foodTickTimer p) v (_chatVisibility p) (_isFlying p)
    (_isOperator p) (_isSprinting p) (_isJumping p) (_health p) (_maxHealth p) (_pos p) (_rot p)
    (_lastPos p) (_lastRot p).
Definition set_chatVisibility (v : Z) (p : Player) : Player :=
  mk_Player (_id p) (_cli p)
    (_username p) (_uuidString p) (_uuid p) (_keepAliveId p) (_keepAliveIgnored p) (_heldItem p)
    (_gamemode p) (_keepAliveClock p) (_chunks p) (_inventory p) (_foodLevel p)
    (_foodSaturationLevel p) (_foodTickTimer p) (_foodExhaustionLevel p) v (_isFlying p)
    (_isOperator p) (_isSprinting p) (_isJumping p) (_health p) (_maxHealth p) (_pos p) (_rot p)
    (_lastPos p) (_lastRot p).
Definition set_isFlying (v : bool) (p : Player) : Player :=
  mk_Player (_id p) (_cli p)
    (_username p) (_uuidString p) (_uuid p) (_keepAliveId p) (_keepAliveIgnored p) (_heldItem p)
    (_gamemode p) (_keepAliveClock p) (_chunks p) (_inventory p) (_foodLevel p)
    (_foodSaturationLevel p) (_foodTickTimer p) (_foodExhaustionLevel p) (_chatVisibility p) v
    (_isOperator p) (_isSprinting p) (_isJumping p) (_health p) (_maxHealth p) (_pos p) (_rot p)
    (_lastPos p) (_lastRot p).
Definition set_isOperator (v : bool) (p : Player) : Player :=
  mk_Player (_id p) (_cli p)
    (_username p) (_uuidString p) (_uuid p) (_keepAliveId p) (_keepAliveIgnored p) (_heldItem p)
    (_gamemode p) (_keepAliveClock p) (_chunks p) (_inventory p) (_foodLevel p)
    (_foodSaturationLevel p) (_foodTickTimer p) (_foodExhaustionLevel p) (_chatVisibility p)
    (_isFlying p) v (_isSprinting p) (_isJumping p) (_health p) (_maxHealth p) (_pos p) (_rot p)
    (_lastPos p) (_lastRot p).
Definition set_isSprinting (v : bool) (p : Player) : Player :=
  mk_Player (_id p) (_cli p)
    (_username p) (_uuidString p) (_uuid p) (_keepAliveId p) (_keepAliveIgnored p) (_heldItem p)
    (_gamemode p) (_keepAliveClock p) (_chunks p) (_inventory p) (_foodLevel p)
    (_foodSaturationLevel p) (_foodTickTimer p) (_foodExhaustionLevel p) (_chatVisibility p)
    (_isFlying p) (_isOperator p) v (_isJumping p) (_health p) (_maxHealth p) (_pos p) (_rot p)
    (_lastPos p) (_lastRot p).
Definition set_isJumping (v : bool) (p : Player) : Player :=
  mk_Player (_id p) (_cli p)
    (_username p) (_uuidString p) (_uuid p) (_keepAliveId p) (_keepAliveIgnored p) (_heldItem p)
    (_gamemode p) (_keepAliveClock p) (_chunks p) (_inventory p) (_foodLevel p)
    (_foodSaturationLevel p) (_foodTickTimer p) (_foodExhaustionLevel p) (_chatVisibility p)
    (_isFlying p) (_isOperator p) (_isSprinting p) v (_health p) (_maxHealth p) (_pos p) (_rot p)
    (_lastPos p) (_lastRot p).
Definition set_health (v : float) (p : Player) : Player :=
  mk_Player (_id p) (_cli p)
    (_username p) (_uuidString p) (_uuid p) (_keepAliveId p) (_keepAliveIgnored p) (_heldItem p)
    (_gamemode p) (_keepAliveClock p) (_chunks p) (_inventory p) (_foodLevel p)
    (_foodSaturationLevel p) (_foodTickTimer p) (_foodExhaustionLevel p) (_chatVisibility p)
    (_isFlying p) (_isOperator p) (_isSprinting p) (_isJumping p) v (_maxHealth p) (_pos p)
    (_rot p) (_lastPos p) (_lastRot p).
Definition set_pos (v : Vector3 double) (p : Player) : Player :=
  mk_Player (_id p) (_cli p)
    (_username p) (_uuidString p) (_uuid p) (_keepAliveId p) (_keepAliveIgnored p) (_heldItem p)
    (_gamemode p) (_keepAliveClock p) (_chunks p) (_inventory p) (_foodLevel p)
    (_foodSaturationLevel p) (_foodTickTimer p) (_foodExhaustionLevel p) (_chatVisibility p)
    (_isFlying p) (_isOperator p) (_isSprinting p) (_isJumping p) (_health p) (_maxHealth p) v
    (_rot p) (_lastPos p) (_lastRot p).
Definition set_rot (v : Vector2 Z) (p : Player) : Player :=
  mk_Player (_id p) (_cli p)
    (_username p) (_uuidString p) (_uuid p) (_keepAliveId p) (_keepAliveIgnored p) (_heldItem p)
    (_gamemode p) (_keepAliveClock p) (_chunks p) (_inventory p) (_foodLevel p)
    (_foodSaturationLevel p) (_foodTickTimer p) (_foodExhaustionLevel p) (_chatVisibility p)
    (_isFlying p) (_isOperator p) (_isSprinting p) (_isJumping p) (_health p) (_maxHealth p)
    (_pos p) v (_lastPos p) (_lastRot p).
Definition set_lastPos (v : Vector3 double) (p : Player) : Player :=
  mk_Player (_id p) (_cli p)
    (_username p) (_uuidString p) (_uuid p) (_keepAliveId p) (_keepAliveIgnored p) (_heldItem p)
    (_gamemode p) (_keepAliveClock p) (_chunks p) (_inventory p) (_foodLevel p)
    (_foodSaturationLevel p) (_foodTickTimer p) (_foodExhaustionLevel p) (_chatVisibility p)
    (_isFlying p) (_isOperator p) (_isSprinting p) (_isJumping p) (_health p) (_maxHealth p)
    (_pos p) (_rot p) v (_lastRot p).
Definition set_lastRot (v : Vector2 Z) (p : Player) : Player :=
  mk_Player (_id p) (_cli p)
    (_username p) (_uuidString p) (_uuid p) (_keepAliveId p) (_keepAliveIgnored p) (_heldItem p)
    (_gamemode p) (_keepAliveClock p) (_chunks p) (_inventory p) (_foodLevel p)
    (_foodSaturationLevel p) (_foodTickTimer p) (_foodExhaustionLevel p) (_chatVisibility p)
    (_isFlying p) (_isOperator p) (_isSprinting p) (_isJumping p) (_health p) (_maxHealth p)
    (_pos p) (_rot p) (_lastPos p) v.

(** ** Items on the ground *)

Record ItemEntity : Type := mk_ItemEntity { item_pos : Vector3 double; item_slot : Slot }.

(** ** The dimension, the world and the game *)

(** The generation pool, as the dimension uses it: a job for a chunk is added and
    gets an identifier, under which it may be cancelled. *)
Class JobPool := {
  pool_state : Type;
  pool_addJob : Position2D → pool_state → Z * pool_state;
  pool_cancelJob : Z → pool_state → bool * pool_state
}.

(** The players hold weak pointers here: an identifier without a player is a
    pointer that has expired. *)
Record ChunkRequest : Type := mk_ChunkRequest { request_id : Z; request_players : list Z }.

Record Dimension : Type := mk_Dimension {
  _level : Level;
  _entities : list Z;
  _players : list Z;
  _loadingChunks : gmap Position2D ChunkRequest
}.

Definition set_level l d := mk_Dimension l (_entities d) (_players d) (_loadingChunks d).
Definition set_entities l d := mk_Dimension (_level d) l (_players d) (_loadingChunks d).
Definition set_players l d := mk_Dimension (_level d) (_entities d) l (_loadingChunks d).
Definition set_loadingChunks m d := mk_Dimension (_level d) (_entities d) (_players d) m.

Record World : Type := mk_World {
  _age : Z;
  _time : Z;
  _renderDistance : Z;
  _timeUpdateClock : TickClock;
  _seed : Z
}.

(** ** The server

    What the rest reads of [Server] and of its configuration.  The chat of the
    default world group is its list of messages; [system_clock] is the time the
    standard library gives, in nanoseconds. *)

Record Config : Type := mk_Config {
  config_online_mode : bool;
  config_whitelist_enabled : bool;
  config_enforce_whitelist : bool;
  config_motd : string;
  config_max_players : Z
}.

Record Server : Type := mk_Server {
  _config : Config;
  _operatorSet : gset string;
  _whitelistData : json;
  _globalPalette : list InternalBlock;
  _itemConverter : list InternalItem;
  _worldsInitialized : bool;
  _messagesLog : list Message;
  system_clock : Z;
  _running : bool;
  _lootTableSystem : gmap string (gmap string LootTable);
  _registry : Registry;
  (** the random numbers that are yet to be drawn *)
  _random : nat → Z
}.

Definition set_config c s := mk_Server c (_operatorSet s) (_whitelistData s) (_globalPalette s)
  (_itemConverter s) (_worldsInitialized s) (_messagesLog s) (system_clock s) (_running s)
  (_lootTableSystem s) (_registry s) (_random s).
Definition set_running r s := mk_Server (_config s) (_operatorSet s) (_whitelistData s)
  (_globalPalette s) (_itemConverter s) (_worldsInitialized s) (_messagesLog s) (system_clock s) r
  (_lootTableSystem s) (_registry s) (_random s).
Definition set_operatorSet o s := mk_Server (_config s) o (_whitelistData s) (_globalPalette s)
  (_itemConverter s) (_worldsInitialized s) (_messagesLog s) (system_clock s) (_running s)
  (_lootTableSystem s) (_registry s) (_random s).
Definition set_whitelistData w s := mk_Server (_config s) (_operatorSet s) w (_globalPalette s)
  (_itemConverter s) (_worldsInitialized s) (_messagesLog s) (system_clock s) (_running s)
  (_lootTableSystem s) (_registry s) (_random s).
Definition set_messagesLog l s := mk_Server (_config s) (_operatorSet s) (_whitelistData s)
  (_globalPalette s) (_itemConverter s) (_worldsInitialized s) l (system_clock s) (_running s)
  (_lootTableSystem s) (_registry s) (_random s).
Definition set_registry v s := mk_Server (_config s) (_operatorSet s) (_whitelistData s)
  (_globalPalette s) (_itemConverter s) (_worldsInitialized s) (_messagesLog s) (system_clock s)
  (_running s) (_lootTableSystem s) v (_random s).
Definition set_random v s := mk_Server (_config s) (_operatorSet s) (_whitelistData s)
  (_globalPalette s) (_itemConverter s) (_worldsInitialized s) (_messagesLog s) (system_clock s)
  (_running s) (_lootTableSystem s) (_registry s) v.

(** ** Clients

    What a [Client] holds besides its connection: the status, the bytes received
    and not yet handled, the player once there is one, and the identity that the
    login has found so far. *)

Inductive ClientStatus : Type :=
| ClientStatus_Initial | ClientStatus_Status | ClientStatus_Login | ClientStatus_Play.

#[export] Instance ClientStatus_eq_dec : EqDecision ClientStatus.
Proof. solve_decision. Defined.

Record Client : Type := mk_Client {
  _status : ClientStatus;
  _recvBuffer : list Z;
  _player : option Z;
  _resPck : LoginSuccess
}.

Definition setStatus s c := mk_Client s (_recvBuffer c) (_player c) (_resPck c).
Definition set_recvBuffer b c := mk_Client (_status c) b (_player c) (_resPck c).
Definition set_player p c := mk_Client (_status c) (_recvBuffer c) p (_resPck c).
Definition set_resPck r c := mk_Client (_status c) (_recvBuffer c) (_player c) r.

Section Game.
Context `{Cfb8} `{JobPool}.

(** [g_nextId] is the counter of the constructor of [Entity]. *)
Record Game : Type := mk_Game {
  g_network : Network;
  g_players : gmap Z Player;
  g_items : gmap Z ItemEntity;
  g_dimension : Dimension;
  g_world : World;
  g_pool : pool_state;
  g_nextId : Z;
  g_server : Server;
  g_clients : gmap Z Client
}.

Definition set_g_network n g := mk_Game n (g_players g) (g_items g) (g_dimension g) (g_world g) (g_pool g) (g_nextId g) (g_server g) (g_clients g).
Definition set_g_players m g := mk_Game (g_network g) m (g_items g) (g_dimension g) (g_world g) (g_pool g) (g_nextId g) (g_server g) (g_clients g).
Definition set_g_items m g := mk_Game (g_network g) (g_players g) m (g_dimension g) (g_world g) (g_pool g) (g_nextId g) (g_server g) (g_clients g).
Definition set_g_dimension d g := mk_Game (g_network g) (g_players g) (g_items g) d (g_world g) (g_pool g) (g_nextId g) (g_server g) (g_clients g).
Definition set_g_world w g := mk_Game (g_network g) (g_players g) (g_items g) (g_dimension g) w (g_pool g) (g_nextId g) (g_server g) (g_clients g).
Definition set_g_pool p g := mk_Game (g_network g) (g_players g) (g_items g) (g_dimension g) (g_world g) p (g_nextId g) (g_server g) (g_clients g).
Definition set_g_nextId n g := mk_Game (g_network g) (g_players g) (g_items g) (g_dimension g) (g_world g) (g_pool g) n (g_server g) (g_clients g).
Definition set_g_server s g := mk_Game (g_network g) (g_players g) (g_items g) (g_dimension g) (g_world g) (g_pool g) (g_nextId g) s (g_clients g).
Definition set_g_clients c g := mk_Game (g_network g) (g_players g) (g_items g) (g_dimension g) (g_world g) (g_pool g) (g_nextId g) (g_server g) c.

Definition on_network {A} (p : M Network A) : M Game A := member g_network set_g_network p.
Definition on_dimension {A} (p : M Dimension A) : M Game A := member g_dimension set_g_dimension p.
Definition on_pool {A} (f : pool_state → A * pool_state) : M Game A :=
  member g_pool set_g_pool (λ s, let '(a, s') := f s in (Ok a, s')).

(** The object behind a pointer that the caller holds. *)
Definition this_player (this : Z) : M Game Player :=
  p ← gets (λ g, g_players g !! this);
  match p with Some p => mret p | None => undefined_ NullDereference end.
Definition update_player (this : Z) (f : Player → Player) : M Game unit :=
  modify (λ g, set_g_players (alter f this (g_players g)) g).
Definition in_server {A} (f : Server → A) : M Game A := gets (λ g, f (g_server g)).
Definition on_server (f : Server → Server) : M Game unit :=
  modify (λ g, set_g_server (f (g_server g)) g).
Definition this_client (this : Z) : M Game Client :=
  c ← gets (λ g, g_clients g !! this);
  match c with Some c => mret c | None => undefined_ NullDereference end.
Definition update_client (this : Z) (f : Client → Client) : M Game unit :=
  modify (λ g, set_g_clients (alter f this (g_clients g)) g).
Definition in_dimension {A} (f : Dimension → A) : M Game A := gets (λ g, f (g_dimension g)).

(** ** Plugins (PluginManager.hpp, events/Events.hpp) *)

Inductive Event : Type :=
| onPlayerJoin (player : Z)
| onPlayerLeave (player : Z)
| onEntityMove (entity : Z) (from to : Vector3 double)
| onEntityRotate (entity : Z) (from to : Vector3 Z)
| onEntityInteractEntity (source target : Z)
| onEntityDamage (source : Z) (amount : float)
| onBlockDestroy (block_id : Z) (position : Vector3 Z)
| tick.

(** The functions that the plugins have registered for an event, in order; each
    one answers whether it cancels the event. *)
Class Plugins := plugin_events : Event → list (M Game bool).

Context `{!Plugins}.

Definition onEvent (e : Event) : M Game unit :=
  for_each (plugin_events e) (λ f, _ ← f; mret tt).

(** [is_canceled = is_canceled || f(...)] *)
Fixpoint call_until_canceled (l : list (M Game bool)) (is_canceled : bool) : M Game bool :=
  match l with
  | [] => mret is_canceled
  | f :: l =>
      if is_canceled then call_until_canceled l true
      else is_canceled ← f; call_until_canceled l is_canceled
  end.
Definition onEventCancelable (e : Event) : M Game bool := call_until_canceled (plugin_events e) false.

(** ** Sending packets to a player *)

Definition send_to (this : Z) (pck : result (list Z)) : M Game unit :=
  p ← this_player this; on_network (send (_cli p) pck).

Definition Player_sendLoginPlay (this : Z) (packet : LoginPlay) : M Game unit :=
  send_to this (createLoginPlay packet).
Definition Player_sendPlayerInfoUpdate (this : Z) (packet : PlayerInfoUpdate) : M Game unit :=
  send_to this (createPlayerInfoUpdate packet).
Definition Player_sendPlayerInfoRemove (this : Z) (packet : PlayerInfoRemove) : M Game unit :=
  send_to this (createPlayerInfoRemove packet).
Definition Player_sendSpawnEntity (this : Z) (packet : SpawnEntity) : M Game unit :=
  send_to this (createSpawnEntity packet).
Definition Player_sendSpawnPlayer (this : Z) (packet : SpawnPlayer) : M Game unit :=
  send_to this (createSpawnPlayer packet).
Definition Player_sendEntityVelocity (this : Z) (packet : EntityVelocity) : M Game unit :=
  send_to this (createEntityVelocity packet).
Definition Player_sendUpdateTime (this : Z) (packet : UpdateTime) : M Game unit :=
  send_to this (createUpdateTime packet).
Definition Player_sendChatMessageResponse (this : Z) (packet : PlayerChatMessage) : M Game unit :=
  send_to this (createPlayerChatMessage packet).
Definition Player_sendSystemChatMessage (this : Z) (packet : SystemChatMessage) : M Game unit :=
  send_to this (createSystemChatMessage packet).
Definition Player_sendWorldEvent (this : Z) (packet : WorldEvent) : M Game unit :=
  send_to this (createWorldEvent packet).
Definition Player_sendKeepAlive (this : Z) (packet : Z) : M Game unit :=
  send_to this (createKeepAlive packet).
Definition Player_sendUpdateEntityPosition (this : Z) (packet : UpdateEntityPosition) : M Game unit :=
  send_to this (createUpdateEntityPosition packet).
Definition Player_sendUpdateEntityPositionAndRotation (this : Z) (packet : UpdateEntityPositionRotation) : M Game unit :=
  send_to this (createUpdateEntityPositionRotation packet).
Definition Player_sendUpdateEntityRotation (this : Z) (packet : UpdateEntityRotation) : M Game unit :=
  send_to this (createUpdateEntityRotation packet).
Definition Player_sendHeadRotation (this : Z) (packet : HeadRotation) : M Game unit :=
  send_to this (createHeadRotation packet).
Definition Player_sendSetCenterChunk (this : Z) (packet : Position2D) : M Game unit :=
  send_to this (createCenterChunk packet).
Definition Player_sendBlockUpdate (this : Z) (packet : BlockUpdate) : M Game unit :=
  send_to this (createBlockUpdate packet).
Definition Player_sendFeatureFlags (this : Z) (packet : FeatureFlags) : M Game unit :=
  send_to this (createFeatureFlags packet).
Definition Player_sendServerData (this : Z) (packet : ServerData) : M Game unit :=
  send_to this (createServerData packet).
Definition Player_sendPlayerAbilities (this : Z) (packet : PlayerAbilitiesClient) : M Game unit :=
  send_to this (createPlayerAbilities packet).
Definition Player_sendGameEvent (this : Z) (packet : GameEvent) : M Game unit :=
  send_to this (createGameEvent packet).
Definition Player_sendUpdateRecipes (this : Z) (packet : UpdateRecipes) : M Game unit :=
  send_to this (createUpdateRecipes packet).
Definition Player_sendUpdateTags (this : Z) (packet : UpdateTags) : M Game unit :=
  send_to this (createUpdateTags packet).
Definition Player_sendCommands (this : Z) (packet : Commands) : M Game unit :=
  send_to this (createCommands packet).
Definition Player_sendChangeDifficulty (this : Z) (packet : ChangeDifficultyClient) : M Game unit :=
  send_to this (createChangeDifficultyClient packet).
Definition Player_sendSetHeldItem (this : Z) (packet : SetHeldItemClient) : M Game unit :=
  send_to this (createSetHeldItemClient packet).
Definition Player_sendEntityEvent (this : Z) (packet : EntityEvent) : M Game unit :=
  send_to this (createEntityEvent packet).
Definition Player_sendUpdateRecipiesBook (this : Z) (packet : UpdateRecipesBook) : M Game unit :=
  send_to this (createUpdateRecipesBook packet).
Definition Player_sendInitializeWorldBorder (this : Z) (packet : InitializeWorldBorder) : M Game unit :=
  send_to this (createInitializeWorldBorder packet).
Definition Player_sendSetDefaultSpawnPosition (this : Z) (packet : SetDefaultSpawnPosition) : M Game unit :=
  send_to this (createSetDefaultSpawnPosition packet).
Definition Player_sendSetEntityMetadata (this : Z) (packet : SetEntityMetadata) : M Game unit :=
  send_to this (createSetEntityMetadata packet).
Definition Player_sendUpdateAttributes (this : Z) (packet : UpdateAttributes) : M Game unit :=
  send_to this (createUpdateAttributes packet).
Definition Player_sendUpdateAdvancements (this : Z) (packet : UpdateAdvancements) : M Game unit :=
  send_to this (createUpdateAdvancements packet).
Definition Player_sendSetExperience (this : Z) (packet : SetExperience) : M Game unit :=
  send_to this (createSetExperience packet).

Definition Player_sendUnloadChunk (this x z : Z) : M Game unit :=
  send_to this (createUnloadChunk (mk_Position2D x z)).
Definition Player_sendRemoveEntities (this : Z) (entities : list Z) : M Game unit :=
  send_to this (createRemoveEntities (mk_RemoveEntities entities)).
Definition Player_sendEntityAnimation (this animId entityID : Z) : M Game unit :=
  send_to this (createEntityAnimation animId entityID).
(** [EntityAnimation::ID] *)
Definition EntityAnimation_SwingMainArm : Z := 0.
Definition EntityAnimation_TakeDamage : Z := 1.
Definition EntityAnimation_SwingOffHand : Z := 3.
Definition Player_sendSwingArm (this : Z) (mainHand : bool) (swingerId : Z) : M Game unit :=
  Player_sendEntityAnimation this
    (if mainHand then EntityAnimation_SwingMainArm else EntityAnimation_SwingOffHand) swingerId.
Definition Player_sendCloseContainer (this containerId : Z) : M Game unit :=
  send_to this (createCloseContainer (mk_CloseContainer containerId)).
Definition Player_sendSetContainerContent (this : Z) : M Game unit :=
  p ← this_player this;
  send_to this (createSetContainerContent (mk_SetContainerContent (_inventory p))).
Definition Player_sendSetContainerSlot (this slot : Z) : M Game unit :=
  p ← this_player this;
  send_to this (createSetContainerSlot (mk_SetContainerSlot (_inventory p) 0 slot)).

Definition Player_sendHealth (this : Z) : M Game unit :=
  p ← this_player this;
  send_to this (createHealth (mk_Health (bits_of_float32 (_health p)) (_foodLevel p)
    (bits_of_float32 (_foodSaturationLevel p)))).

Definition Player_sendSynchronizePosition (this : Z) (pos : Vector3 double) : M Game unit :=
  send_to this (createSynchronizePlayerPosition (mk_SynchronizePlayerPosition
    (bits_of_double (v3x pos)) (bits_of_double (v3y pos)) (bits_of_double (v3z pos)) 0 0
    (Z.lor 0x08 0x10) 0 true)).

(** The rotation is that of the receiver. *)
Definition Player_sendTeleportEntity (this id : Z) (pos : Vector3 double) : M Game unit :=
  p ← this_player this;
  send_to this (createTeleportEntity (mk_TeleportEntity id
    (bits_of_double (v3x pos)) (bits_of_double (v3y pos)) (bits_of_double (v3z pos))
    (v2x (_rot p)) (v2z (_rot p)) false)).

Definition Player_sendSkinLayers (this entityID : Z) : M Game unit :=
  send_to this (data ← addVarInt entityID []; finalize [] (data ++ [17; 0; 0xff; 0xff]) 0x4e).

(** ** Sounds *)

Record FloatingPosition : Type := mk_FloatingPosition { fpx : double; fpy : double; fpz : double }.

(** [static_cast<int32_t>(position.x * 32.0)] *)
Definition fixed_point (v : double) : result Z := to_int32 (dmul v (double_of_Z 32)).

Definition Player_playSoundEffect (this sound : Z) (position : FloatingPosition) (category : Z) :
  M Game unit :=
  send_to this (
    x ← fixed_point (fpx position); y ← fixed_point (fpy position); z ← fixed_point (fpz position);
    createSoundEffect (mk_SoundEffect sound category x y z
      (bits_of_float32 (float_lit 1 2)) (bits_of_float32 (float_of_Z 1)) 0)).
Definition Player_playSoundEffect_on (this sound entityId category : Z) : M Game unit :=
  send_to this (createEntitySoundEffect (mk_EntitySoundEffect sound category entityId
    (bits_of_float32 (float_of_Z 1)) (bits_of_float32 (float_of_Z 1)) 1)).
Definition Player_stopSound (this flags category : Z) (sound : string) : M Game unit :=
  send_to this (createStopSound (mk_StopSound flags category sound)).

End Game.
