(* ===== verification/Plugins.v ===== *)
(** * Plugins (PluginManager.hpp, PluginManager.cpp, events/Events.hpp)

    The manager opens the shared objects of a folder and collects their functions, by
    the name of the event; it is what the game asks for the functions of an event. *)

From S2P Require Import Prelude State Types Floats Structures Level Network Game.

(** What is called: the event of a game, or the one of the loading. *)
Inductive PluginEvent : Type := Initialize | Game_event (e : Event).

Section Plugins.
Context `{Cfb8} `{JobPool}.

(** [dlopen], [dlsym], and the functions that are found.  Handles and addresses are
    numbers. *)
Class DynamicLibraries : Type := mk_DynamicLibraries {
  dl_open : string → option Z;
  dl_sym : Z → string → option Z;
  dl_call : Z → PluginEvent → M Game bool
}.
Context `{!DynamicLibraries}.

Record PluginManager : Type := mk_PluginManager {
  _plugins : gmap string Z;
  _events : gmap string (list Z)
}.
Definition set_plugins v m := mk_PluginManager v (_events m).
Definition set_events v m := mk_PluginManager (_plugins m) v.
Definition PluginManager_make : PluginManager := mk_PluginManager ∅ ∅.

(** EventKey *)
Definition EventKeyArray : list string := [
  "initialize"; "destroy"; "tick"; "onPlayerJoin"; "onPlayerLeave"; "onPlayerChat"; "onEntitySpawn";
  "onEntityMove"; "onEntityRotate"; "onEntityInteractEntity"; "onEntityInteractBlock"; "onEntityDamage";
  "onEntityUse"; "onBlockPlace"; "onBlockDestroy"; "onBlockInteract"; "onInventoryOpen"; "onInventoryClose";
  "onInventoryChange"; "onWorldLoad"; "onDimensionLoad"; "onChunkLoad"].
Definition event_key (e : PluginEvent) : string :=
  match e with
  | Initialize => "initialize"
  | Game_event (onPlayerJoin _) => "onPlayerJoin"
  | Game_event (onPlayerLeave _) => "onPlayerLeave"
  | Game_event (onEntityMove _ _ _) => "onEntityMove"
  | Game_event (onEntityRotate _ _ _) => "onEntityRotate"
  | Game_event (onEntityInteractEntity _ _) => "onEntityInteractEntity"
  | Game_event (onEntityDamage _ _) => "onEntityDamage"
  | Game_event (onBlockDestroy _ _) => "onBlockDestroy"
  | Game_event tick => "tick"
  end.

(** ** Operations *)

(** [_events[key].push_back(rawptr)] *)
Definition push_event (key : string) (rawptr : Z) (m : PluginManager) : PluginManager :=
  set_events (<[key := default [] (_events m !! key) ++ [rawptr]]> (_events m)) m.

Definition load_event (nhandle : Z) (m : PluginManager) (key : string) : PluginManager :=
  match dl_sym nhandle key with Some rawptr => push_event key rawptr m | None => m end.

Definition loadPlugin (filepath : string) (m : PluginManager) : PluginManager :=
  match dl_open filepath with
  | None => m
  | Some nhandle =>
      foldl (load_event nhandle) (set_plugins (<[filepath := nhandle]> (_plugins m)) m) EventKeyArray
  end.

(** [filepath.path().string().ends_with(".so")] *)
Definition is_shared_object (filepath : string) : bool :=
  bool_decide (take 3 (reverse (String.list_ascii_of_string filepath)) = reverse (String.list_ascii_of_string ".so")).

Definition load_folder (files : list string) (m : PluginManager) : PluginManager :=
  foldl (λ m filepath, if is_shared_object filepath then loadPlugin filepath m else m) m files.

(** The functions of an event; the [operator[]] makes an empty list of what is missing. *)
Definition event_functions (m : PluginManager) (e : PluginEvent) : list (M Game bool) :=
  (λ rawptr, dl_call rawptr e) <$> default [] (_events m !! event_key e).

(** [folder] is what the folder holds, in the order of the directory, if it is one. *)
Definition PluginManager_load (folder : option (list string)) : M (PluginManager * Game) unit :=
  match folder with
  | None => mret tt
  | Some files =>
      _ ← modify (λ s, (load_folder files s.1, s.2));
      m ← gets fst;
      member snd (λ g s, (s.1, g)) (for_each (event_functions m Initialize) (λ f, _ ← f; mret tt))
  end.
Definition PluginManager_unload : M (PluginManager * Game) unit := modify (λ s, (PluginManager_make, s.2)).
Definition PluginManager_reload (folder : option (list string)) : M (PluginManager * Game) unit :=
  _ ← PluginManager_unload; PluginManager_load folder.

(** The game's plugins are those of the manager. *)
#[export] Instance manager_plugins (m : PluginManager) : Plugins := λ e, event_functions m (Game_event e).

(** ** What is registered *)

(** The function that a file has for an event. *)
Definition function_of (key filepath : string) : option Z :=
  nhandle ← dl_open filepath; dl_sym nhandle key.

Lemma load_events_lookup nhandle keys m key :
  NoDup keys →
  default [] (_events (foldl (load_event nhandle) m keys) !! key) =
    default [] (_events m !! key) ++
    (if bool_decide (key ∈ keys) then option_list (dl_sym nhandle key) else []).
Proof.
  intros Hk. revert m. induction Hk as [|k keys Hk _ IH]; intros m; cbn [foldl].
  { rewrite bool_decide_eq_false_2 by apply list.not_elem_of_nil. by rewrite app_nil_r. }
  rewrite IH. unfold load_event. destruct (decide (k = key)) as [->|Hne].
  - rewrite (bool_decide_eq_false_2 (key ∈ keys)) by done.
    rewrite bool_decide_eq_true_2 by (apply list.elem_of_cons; by left). rewrite app_nil_r.
    destruct (dl_sym nhandle key) as [r|]; cbn; [by rewrite lookup_insert_eq|by rewrite app_nil_r].
  - assert (E : bool_decide (key ∈ k :: keys) = bool_decide (key ∈ keys)).
    { apply bool_decide_ext. rewrite list.elem_of_cons. naive_solver. }
    rewrite E. f_equal. destruct (dl_sym nhandle k); [|done]. cbn. by rewrite lookup_insert_ne.
Qed.

Lemma loadPlugin_lookup filepath m key :
  key ∈ EventKeyArray →
  default [] (_events (loadPlugin filepath m) !! key) =
    default [] (_events m !! key) ++ option_list (function_of key filepath).
Proof.
  intros Hk. unfold loadPlugin, function_of. destruct (dl_open filepath) as [h|]; [|by rewrite app_nil_r].
  cbn [mbind option_bind].
  assert (Hn : NoDup EventKeyArray) by (apply (bool_decide_unpack _); vm_compute; exact I).
  rewrite load_events_lookup by done. by rewrite bool_decide_eq_true_2.
Qed.

(** Every shared object of the folder, in its order. *)
Lemma load_folder_lookup files m key :
  key ∈ EventKeyArray →
  default [] (_events (load_folder files m) !! key) =
    default [] (_events m !! key) ++ omap (function_of key) (filter (λ f, is_shared_object f) files).
Proof.
  intros Hk. revert m. induction files as [|f files IH]; intros m; cbn [load_folder foldl].
  { by rewrite app_nil_r. }
  change (foldl _ _ files) with (load_folder files (if is_shared_object f then loadPlugin f m else m)).
  rewrite IH, filter_cons. destruct (is_shared_object f).
  - rewrite decide_True by done. rewrite loadPlugin_lookup, <- app_assoc by done. f_equal. cbn.
    by destruct (function_of key f).
  - by rewrite decide_False by (intros []).
Qed.

(** The keys of all events are looked for. *)
Lemma event_key_known e : event_key e ∈ EventKeyArray.
Proof. apply (bool_decide_unpack _). by destruct e as [|[]]. Qed.

(** A reload registers every function once.  Whatever was loaded before, and however
    often, after a reload the functions that the game calls for an event are those of the
    shared objects that the folder has now, one for each that has one, in the order of
    the folder; it is the loading without the unloading that doubles them. *)
Theorem reload_registers_once files m g e :
  event_functions (PluginManager_reload (Some files) (m, g)).2.1 e =
    (λ rawptr, dl_call rawptr e) <$> omap (function_of (event_key e)) (filter (λ f, is_shared_object f) files) ∧
  event_functions (load_folder files (load_folder files PluginManager_make)) e =
    event_functions (load_folder files PluginManager_make) e ++ event_functions (load_folder files PluginManager_make) e.
Proof.
  pose proof (event_key_known e) as Hk. split.
  - unfold PluginManager_reload, PluginManager_unload, PluginManager_load, gets, modify, member, mbind, M_bind. cbn [fst snd].
    destruct (for_each _ _ g) as [r g']. cbn [fst snd]. unfold event_functions.
    by rewrite (load_folder_lookup files PluginManager_make (event_key e) Hk).
  - unfold event_functions. rewrite <- fmap_app. f_equal.
    rewrite !(load_folder_lookup files) by done. done.
Qed.
End Plugins.
