(* ===== verification/ThreadPool.v ===== *)
(** * The priority thread pool (thread_pool/PriorityThreadPool.hpp, PriorityThreadPool.cpp,
      PriorityThreadWorker.cpp, Semaphore.hpp)

    The pool that generates chunks.  A step is what a thread does under one lock, or
    on one atomic: [queueProtection] guards the queue, [_counterMutex] the semaphore,
    but [release] adds to the counter of the semaphore without the mutex.  [addSubJob]
    is a template that nothing instantiates, and nothing changes the number of
    workers. *)

From S2P Require Import Prelude State Types Game.

Section Pool.
(** What a job runs. *)
Context {A : Type}.

Record Job : Type := mk_Job { job_id : Z; job_tasks : list A }.

(** A worker waits in [acquire], has acquired, runs what is left of a job, is at the
    test of its loop, or has ended. *)
Inductive worker_pc : Type :=
| Wk_waiting
| Wk_acquired
| Wk_running (tasks : list A)
| Wk_testing
| Wk_ended.

(** [cancelJob] or [cancelAll] has taken jobs out of the queue and goes on to [increment]
    by their number; it has read the counter there. *)
Inductive canceller_pc : Type :=
| K_removed (n : Z)
| K_read (n seen : Z).

(** [releasing] holds what the threads in [addJob] are about to release.  [taken],
    [cancelled] and [ran] record what has happened to the jobs. *)
Record Pool : Type := mk_Pool {
  jobQueue : list Job;
  counter : Z;
  stayAlive : bool;
  totalJobsPushed : Z;
  workers : gmap Z worker_pc;
  releasing : list Z;
  cancelling : option canceller_pc;
  taken : list Job;
  cancelled : list Job;
  ran : list A
}.

Definition set_jobQueue q p := mk_Pool q (counter p) (stayAlive p) (totalJobsPushed p) (workers p)
  (releasing p) (cancelling p) (taken p) (cancelled p) (ran p).
Definition set_counter c p := mk_Pool (jobQueue p) c (stayAlive p) (totalJobsPushed p) (workers p)
  (releasing p) (cancelling p) (taken p) (cancelled p) (ran p).
Definition set_worker w pc p := mk_Pool (jobQueue p) (counter p) (stayAlive p) (totalJobsPushed p)
  (<[w := pc]> (workers p)) (releasing p) (cancelling p) (taken p) (cancelled p) (ran p).
Definition set_releasing l p := mk_Pool (jobQueue p) (counter p) (stayAlive p) (totalJobsPushed p)
  (workers p) l (cancelling p) (taken p) (cancelled p) (ran p).
Definition set_cancelling k p := mk_Pool (jobQueue p) (counter p) (stayAlive p) (totalJobsPushed p)
  (workers p) (releasing p) k (taken p) (cancelled p) (ran p).

(** ** What is done under the lock of the queue *)

(** [jobId = ++totalJobsPushed; jobQueue.emplace_back(jobId, priority, ...)] *)
Definition push_job (tasks : list A) (p : Pool) : Z * Pool :=
  let jobId := to_i32 (totalJobsPushed p + 1) in
  (jobId, mk_Pool (jobQueue p ++ [mk_Job jobId tasks]) (counter p) (stayAlive p) jobId (workers p)
            (releasing p) (cancelling p) (taken p) (cancelled p) (ran p)).

(** [std::find_if] and [erase]. *)
Fixpoint remove_job (id : Z) (l : list Job) : option (Job * list Job) :=
  match l with
  | [] => None
  | j :: l =>
      if decide (job_id j = id) then Some (j, l)
      else match remove_job id l with Some (k, l') => Some (k, j :: l') | None => None end
  end.

(** The loop of [doJob]: the position of the first job of the least priority;
    [greater] is the best so far. *)
Fixpoint select_job (priority : Job → Z) (l : list Job) (i : nat) (greater : nat) (best : Z) : nat :=
  match l with
  | [] => greater
  | j :: l =>
      if decide (priority j < best) then select_job priority l (S i) i (priority j)
      else select_job priority l (S i) greater best
  end.
Definition best_job (priority : Job → Z) (l : list Job) : nat :=
  match l with [] => O | j :: k => select_job priority k 1 0 (priority j) end.

(** [Semaphore::increment], once the counter has been read: [_counter -= 1] is atomic,
    the assignment is not part of the test. *)
Definition increment_write (n seen counter : Z) : Z := if decide (n < seen) then counter - n else 0.

(** ** Whole operations, when nothing comes in between *)

Definition PriorityThreadPool_addJob (tasks : list A) (p : Pool) : Z * Pool :=
  let '(id, p) := push_job tasks p in (id, set_counter (counter p + Z.of_nat (length tasks)) p).

Definition cancel_removed (j : Job) (q : list Job) (p : Pool) : Pool :=
  mk_Pool q (counter p) (stayAlive p) (totalJobsPushed p) (workers p) (releasing p) (Some (K_removed 1))
    (taken p) (cancelled p ++ [j]) (ran p).

Definition PriorityThreadPool_cancelJob (id : Z) (p : Pool) : bool * Pool :=
  match remove_job id (jobQueue p) with
  | None => (false, p)
  | Some (j, q) =>
      (true, set_cancelling None (set_counter (increment_write 1 (counter p) (counter p)) (cancel_removed j q p)))
  end.

(** [cancelAll] up to the clearing of the queue, and as a whole. *)
Definition cancel_everything (p : Pool) : Pool :=
  mk_Pool [] (counter p) (stayAlive p) (totalJobsPushed p) (workers p) (releasing p)
    (Some (K_removed (zlen (jobQueue p)))) (taken p) (cancelled p ++ jobQueue p) (ran p).
Definition PriorityThreadPool_cancelAll (p : Pool) : Pool :=
  set_cancelling None
    (set_counter (increment_write (zlen (jobQueue p)) (counter p) (counter p)) (cancel_everything p)).

(** What [library] counts: the workers between the taking of a job and its end. *)
Definition books (p : Pool) : Z :=
  zlen (List.filter (λ e, match e.2 with Wk_running _ => true | _ => false end) (map_to_list (workers p))).

(** ** Steps *)

Inductive pool_event : Type := P_push | P_cancel | P_work.

Inductive pool_step (p : Pool) : pool_event → Pool → Prop :=
(** addJob *)
| pool_push tasks :
    cancelling p = None →
    pool_step p P_push (set_releasing (releasing p ++ [Z.of_nat (length tasks)]) (push_job tasks p).2)
| pool_release n l1 l2 :
    releasing p = l1 ++ n :: l2 →
    pool_step p P_work (set_releasing (l1 ++ l2) (set_counter (counter p + n) p))
(** cancelJob *)
| pool_cancel id j q :
    cancelling p = None → remove_job id (jobQueue p) = Some (j, q) →
    pool_step p P_cancel (cancel_removed j q p)
(** cancelAll *)
| pool_cancel_all :
    cancelling p = None → pool_step p P_cancel (cancel_everything p)
| pool_increment_read n :
    cancelling p = Some (K_removed n) → pool_step p P_work (set_cancelling (Some (K_read n (counter p))) p)
| pool_increment_write n seen :
    cancelling p = Some (K_read n seen) →
    pool_step p P_work (set_cancelling None (set_counter (increment_write n seen (counter p)) p))
(** PriorityThreadWorker::doJob *)
| worker_acquires w :
    workers p !! w = Some Wk_waiting → (∀ n seen, cancelling p ≠ Some (K_read n seen)) → 1 ≤ counter p →
    pool_step p P_work (set_worker w Wk_acquired (set_counter (counter p - 1) p))
| worker_finds_nothing w :
    workers p !! w = Some Wk_acquired → cancelling p = None → stayAlive p = false ∨ jobQueue p = [] →
    pool_step p P_work (set_worker w Wk_testing p)
| worker_takes w priority j :
    workers p !! w = Some Wk_acquired → cancelling p = None → stayAlive p = true →
    jobQueue p !! best_job priority (jobQueue p) = Some j →
    pool_step p P_work
      (mk_Pool (delete (best_job priority (jobQueue p)) (jobQueue p)) (counter p) (stayAlive p)
         (totalJobsPushed p) (<[w := Wk_running (job_tasks j)]> (workers p)) (releasing p) (cancelling p)
         (taken p ++ [j]) (cancelled p) (ran p))
| worker_runs w task tasks :
    workers p !! w = Some (Wk_running (task :: tasks)) →
    pool_step p P_work
      (mk_Pool (jobQueue p) (counter p) (stayAlive p) (totalJobsPushed p)
         (<[w := Wk_running tasks]> (workers p)) (releasing p) (cancelling p) (taken p) (cancelled p)
         (ran p ++ [task]))
| worker_done w :
    workers p !! w = Some (Wk_running []) → pool_step p P_work (set_worker w Wk_testing p)
| worker_goes_on w :
    workers p !! w = Some Wk_testing → stayAlive p = true →
    pool_step p P_work (set_worker w Wk_waiting p)
| worker_ends w :
    workers p !! w = Some Wk_testing → stayAlive p = false →
    pool_step p P_work (set_worker w Wk_ended p).

Inductive pool_steps : Pool → Pool → Prop :=
| pool_refl p : pool_steps p p
| pool_cons p e p' p'' : pool_step p e p' → pool_steps p' p'' → pool_steps p p''.

(** Steps none of which adds a job. *)
Inductive pool_steps_idle : Pool → Pool → Prop :=
| idle_refl p : pool_steps_idle p p
| idle_cons p e p' p'' : e ≠ P_push → pool_step p e p' → pool_steps_idle p' p'' → pool_steps_idle p p''.

(** ~PriorityThreadPool, before the workers are joined. *)
Definition PriorityThreadPool_destroy (targetSize : Z) (p : Pool) : Pool :=
  mk_Pool (jobQueue p) (counter p + targetSize) false (totalJobsPushed p) (workers p) (releasing p)
    (cancelling p) (taken p) (cancelled p) (ran p).

(** The constructor: [threadCount] workers. *)
Definition PriorityThreadPool_make (threadCount : nat) : Pool :=
  mk_Pool [] 0 true 0 (list_to_map ((λ i, (Z.of_nat i, Wk_testing)) <$> seq 0 threadCount)) [] None [] [] [].

Lemma pool_steps_trans p p' p'' : pool_steps p p' → pool_steps p' p'' → pool_steps p p''.
Proof. induction 1 as [|p e p' q Hs _ IH]; [done|]. intros Hq. eapply pool_cons; eauto. Qed.
End Pool.
Arguments Job : clear implicits.
Arguments Pool : clear implicits.
Arguments worker_pc : clear implicits.

(** The pool of the dimensions: a job generates one chunk. *)
#[export] Instance generation_pool : JobPool :=
  {| pool_state := Pool Position2D;
     pool_addJob := λ pos, PriorityThreadPool_addJob [pos];
     pool_cancelJob := PriorityThreadPool_cancelJob |}.

(** * What becomes of the jobs of a pool *)

Section PoolProps.
Context {A : Type}.
Implicit Types p : Pool A.

(** ** The choice of a job *)

Lemma select_job_spec priority (l k : list (Job A)) i j :
  k !! i = Some j → (i < length k)%nat →
  (∀ n j', k !! n = Some j' → priority j ≤ priority j' ∧ (priority j' = priority j → (i ≤ n)%nat)) →
  ∃ g, (k ++ l) !! select_job priority l (length k) i (priority j) = Some g ∧
    ∀ n j', (k ++ l) !! n = Some j' →
      priority g ≤ priority j' ∧
      (priority j' = priority g → (select_job priority l (length k) i (priority j) ≤ n)%nat).
Proof.
  revert k i j. induction l as [|a l IH]; intros k i j Hi Hlt Hk; cbn [select_job].
  - rewrite app_nil_r. eauto.
  - assert (Ha : (k ++ [a]) !! length k = Some a) by (by rewrite list_lookup_middle).
    specialize (IH (k ++ [a])). rewrite length_app in IH. cbn in IH.
    rewrite Nat.add_1_r, <- app_assoc in IH. cbn in IH.
    assert (Hcase : ∀ n j', (k ++ [a]) !! n = Some j' → k !! n = Some j' ∨ (n = length k ∧ j' = a)).
    { intros n j' [Hn|[Hn Hj]]%lookup_app_Some; [by left|right].
      apply list_lookup_singleton_Some in Hj as [Hj <-]. split; [lia|done]. }
    case_decide as Hlt'; apply IH; try lia; try done.
    + intros n j' [Hn|[-> ->]]%Hcase; [|split; [lia|done]]. destruct (Hk n j' Hn). split; lia.
    + by apply lookup_app_l_Some.
    + intros n j' [Hn|[-> ->]]%Hcase; [by apply Hk|]. split; [lia|]. intros _. lia.
Qed.

(** A worker takes a job of the least priority, and the first of them. *)
Theorem best_job_least priority (l : list (Job A)) :
  l ≠ [] →
  ∃ j, l !! best_job priority l = Some j ∧
    ∀ n j', l !! n = Some j' →
      priority j ≤ priority j' ∧ (priority j' = priority j → (best_job priority l ≤ n)%nat).
Proof.
  destruct l as [|a l]; [done|]. intros _. cbn [best_job].
  apply (select_job_spec priority l [a] 0 a); [done|cbn; lia|].
  intros [|n] j' Hj; [injection Hj as ->; lia|done].
Qed.

Lemma remove_job_spec id (l l' : list (Job A)) j :
  remove_job id l = Some (j, l') → job_id j = id ∧ l ≡ₚ j :: l'.
Proof.
  revert l'. induction l as [|a l IH]; intros l'; [done|]. cbn. case_decide as E.
  - intros [= <- <-]. done.
  - destruct (remove_job id l) as [[k l1]|]; [|done]. intros [= <- <-].
    destruct (IH l1 eq_refl) as [Hid Hl]. split; [done|]. rewrite Hl. constructor.
Qed.

(** ** Accounting *)

Definition all_jobs p : list (Job A) := jobQueue p ++ taken p ++ cancelled p.

Definition tasks_of (pc : worker_pc A) : list A := match pc with Wk_running l => l | _ => [] end.
(** What the workers have yet to run. *)
Definition remaining (m : gmap Z (worker_pc A)) : list A := concat ((λ e, tasks_of e.2) <$> map_to_list m).

Lemma remaining_delete m w pc : m !! w = Some pc → remaining m ≡ₚ tasks_of pc ++ remaining (delete w m).
Proof.
  intros Hm. unfold remaining. by rewrite <- (map_to_list_delete m w pc Hm).
Qed.
Lemma remaining_insert m w pc pc' :
  m !! w = Some pc → tasks_of pc ++ remaining (<[w := pc']> m) ≡ₚ tasks_of pc' ++ remaining m.
Proof.
  intros Hm. rewrite (remaining_delete m w pc Hm).
  rewrite (remaining_delete (<[w := pc']> m) w pc') by apply lookup_insert_eq.
  rewrite delete_insert_eq. rewrite !app_assoc. f_equiv. apply Permutation_app_comm.
Qed.
Lemma remaining_same m w pc pc' :
  m !! w = Some pc → tasks_of pc = [] → tasks_of pc' = [] → remaining (<[w := pc']> m) ≡ₚ remaining m.
Proof. intros Hm E E'. pose proof (remaining_insert m w pc pc' Hm) as Hr. by rewrite E, E' in Hr. Qed.

Definition accounted p : Prop :=
  (zlen (all_jobs p) < 2 ^ 31 →
     totalJobsPushed p = zlen (all_jobs p) ∧ job_id <$> all_jobs p ≡ₚ seqZ 1 (zlen (all_jobs p))) ∧
  concat (job_tasks <$> taken p) ≡ₚ ran p ++ remaining (workers p).

(** The jobs have moved, and nothing else. *)
Lemma accounted_moved p p' :
  all_jobs p ≡ₚ all_jobs p' → totalJobsPushed p' = totalJobsPushed p →
  concat (job_tasks <$> taken p') ≡ₚ ran p' ++ remaining (workers p') →
  accounted p → accounted p'.
Proof.
  intros Hall Ht Hr [Hids _]. split; [|done]. rewrite <- (Permutation_length Hall), Ht.
  intros Hlt. destruct (Hids Hlt) as [? Hperm]. split; [done|]. by rewrite <- Hall.
Qed.

Lemma accounted_push tasks p :
  accounted p → accounted (set_releasing (releasing p ++ [Z.of_nat (length tasks)]) (push_job tasks p).2).
Proof.
  intros [Hids Hr]. split; [|exact Hr]. set (q := set_releasing _ _).
  assert (Hlen : zlen (all_jobs q) = zlen (all_jobs p) + 1)
    by (unfold all_jobs, q; cbn [jobQueue taken cancelled set_releasing push_job snd]; zlia).
  rewrite Hlen. intros Hlt. destruct Hids as [Ht Hperm]; [lia|].
  assert (Hid : to_i32 (totalJobsPushed p + 1) = zlen (all_jobs p) + 1).
  { rewrite Ht. unfold to_i32. apply wrap_s_id; [done|]. unfold is_s. lia. }
  split; [exact Hid|]. unfold all_jobs, q. cbn. rewrite Hid.
  fold (all_jobs p). rewrite seqZ_app by lia.
  transitivity ((zlen (all_jobs p) + 1) :: (job_id <$> all_jobs p)).
  { rewrite <- app_assoc. cbn. rewrite <- (Permutation_middle (jobQueue p)). done. }
  assert (E : seqZ (1 + zlen (all_jobs p)) 1 = [zlen (all_jobs p) + 1]).
  { rewrite seqZ_cons by lia. by rewrite (Z.add_comm 1). }
  rewrite Hperm, E. by rewrite (Permutation_app_comm (seqZ _ _)).
Qed.

Lemma move_job i (q t c : list (Job A)) j :
  q !! i = Some j → q ++ t ++ c ≡ₚ delete i q ++ (t ++ [j]) ++ c.
Proof.
  intros Hj. pose proof (delete_Permutation q i j Hj) as Hp. revert Hp. generalize (delete i q).
  intros q' ->. rewrite <- app_assoc. cbn. rewrite !(app_assoc q' t). by rewrite <- Permutation_middle.
Qed.

Lemma accounted_step p e p' : pool_step p e p' → accounted p → accounted p'.
Proof.
  intros Hs Hp. destruct Hs as [tasks Hk|n l1 l2 Hr|id j q Hk Hq|Hk|n Hk|n seen Hk|w Hw Hk Hc|w Hw Hk Hq|
    w priority j Hw Hk Ha Hj|w task tasks Hw|w Hw|w Hw Ha|w Hw Ha];
    try exact Hp; try (eapply accounted_moved; [| | |exact Hp]; [done|done|]; cbn;
      rewrite (remaining_same _ _ _ _ Hw) by done; apply Hp).
  - by apply accounted_push.
  - eapply accounted_moved; [| | |exact Hp]; [|done|apply Hp].
    unfold all_jobs. cbn. apply remove_job_spec in Hq as [_ ->]. cbn.
    rewrite !app_assoc. rewrite (Permutation_app_comm _ [j]). done.
  - eapply accounted_moved; [| | |exact Hp]; [|done|apply Hp].
    unfold all_jobs. cbn. rewrite Permutation_app_comm, app_assoc. done.
  - eapply accounted_moved; [| | |exact Hp]; [|done|].
    + by apply move_job.
    + cbn. rewrite fmap_app, concat_app. cbn. rewrite app_nil_r, (proj2 Hp), <- app_assoc. f_equiv.
      pose proof (remaining_insert _ _ _ (Wk_running (job_tasks j)) Hw) as Hr. cbn in Hr.
      rewrite Hr. apply Permutation_app_comm.
  - eapply accounted_moved; [| | |exact Hp]; [done|done|]. cbn. rewrite (proj2 Hp), <- app_assoc. f_equiv.
    pose proof (remaining_insert _ _ _ (Wk_running tasks) Hw) as Hr. cbn in Hr.
    apply (Permutation_app_inv_l tasks). rewrite <- Hr. apply Permutation_middle.
Qed.

Lemma steps_accounted p p' : pool_steps p p' → accounted p → accounted p'.
Proof. induction 1 as [|p e p' p'' Hs _ IH]; [done|]. intros Hp. by eapply IH, accounted_step. Qed.

Lemma make_accounted n : accounted (PriorityThreadPool_make n).
Proof.
  split; [done|]. change ([] ≡ₚ remaining (workers (PriorityThreadPool_make (A := A) n))). unfold remaining.
  assert (Hz : ∀ pc, pc ∈ (map_to_list (workers (PriorityThreadPool_make (A := A) n))).*2 → tasks_of pc = []).
  { intros pc ([w pc'] & -> & He)%list_elem_of_fmap. apply elem_of_map_to_list in He.
    apply elem_of_list_to_map_2, list_elem_of_fmap in He as (i & [= -> ->] & _). done. }
  revert Hz. generalize (map_to_list (workers (PriorityThreadPool_make (A := A) n))).
  intros l Hl. induction l as [|e l IH]; [done|]. cbn in *. rewrite Hl by set_solver. apply IH. set_solver.
Qed.

(** C26: however the threads of a pool interleave, no job is lost, doubled or run after it
    was cancelled: every job that was ever added, by its identifier, is in exactly one
    of three places, the queue, the jobs that a worker took and the jobs that were
    cancelled; and what was run and what the workers have yet to run are together the
    tasks of the jobs that were taken, each once.  (The identifiers are the numbers from
    one on, as long as there are fewer than 2^31.) *)
Theorem pool_accounts_for_jobs n p :
  pool_steps (PriorityThreadPool_make n) p → zlen (all_jobs p) < 2 ^ 31 →
  job_id <$> all_jobs p ≡ₚ seqZ 1 (zlen (all_jobs p)) ∧ NoDup (job_id <$> all_jobs p) ∧
  concat (job_tasks <$> taken p) ≡ₚ ran p ++ remaining (workers p).
Proof.
  intros Hs Hlt. destruct (steps_accounted _ _ Hs (make_accounted n)) as [Hids Hr].
  destruct (Hids Hlt) as [_ Hperm]. split_and!; [done| |done]. rewrite Hperm. apply NoDup_seqZ.
Qed.

(** ** Wakeups *)

Definition acquired (m : gmap Z (worker_pc A)) : Prop := ∃ w, m !! w = Some Wk_acquired.

(** Nobody will ever take a job: the semaphore is at zero, nobody is about to release
    it, and no worker has acquired it. *)
Definition starved p : Prop :=
  counter p = 0 ∧ releasing p = [] ∧ ¬ acquired (workers p) ∧
  match cancelling p with Some (K_read n seen) => seen ≤ n | Some (K_removed n) => 0 ≤ n | None => True end.

Lemma not_acquired_insert m w pc :
  ¬ acquired m → pc ≠ Wk_acquired → ¬ acquired (<[w := pc]> m).
Proof.
  intros Hm Hpc [v Hv]. apply Hm. apply lookup_insert_Some in Hv as [[_ ?]|[_ Hv]]; [done|by exists v].
Qed.

Lemma starved_step p e p' : e ≠ P_push → pool_step p e p' → starved p →
  starved p' ∧ taken p' = taken p ∧ concat (job_tasks <$> taken p') = concat (job_tasks <$> taken p).
Proof.
  intros He Hs (Hc & Hr & Ha & Hk). inversion Hs; subst; try done;
    try (split; [|done]; split_and!; cbn; try done; try (by apply not_acquired_insert); fail);
    try (by destruct Ha; eexists).
  - rewrite Hr in H. by destruct l1.
  - split; [|done]. split_and!; cbn; try done. lia.
  - split; [|done]. rewrite H in Hk. split_and!; cbn; try done. lia.
  - split; [|done]. rewrite H in Hk. split_and!; cbn; try done. unfold increment_write.
    by rewrite decide_False by lia.
  - lia.
Qed.

Lemma starved_forever p p' : pool_steps_idle p p' → starved p → taken p' = taken p.
Proof.
  induction 1 as [|p e p' p'' He Hs _ IH]; [done|]. intros Hp.
  destruct (starved_step p e p' He Hs Hp) as (Hp' & <- & _). by apply IH.
Qed.

(** *** Without the race *)

(** Nobody releases the semaphore between the test and the assignment of
    [increment], and every job that is added has a task. *)
Definition careful p p' : Prop :=
  (∀ n seen, cancelling p = Some (K_read n seen) → counter p' ≤ counter p) ∧
  Forall (λ n, 1 ≤ n) (releasing p').

Inductive careful_steps : Pool A → Pool A → Prop :=
| careful_refl p : careful_steps p p
| careful_cons p e p' p'' :
    pool_step p e p' → careful p p' → careful_steps p' p'' → careful_steps p p''.

Definition holds_token (pc : worker_pc A) : Z := match pc with Wk_acquired => 1 | _ => 0 end.
Definition sum (l : list Z) : Z := foldr Z.add 0 l.
Arguments sum : simpl never.
Definition tokens (m : gmap Z (worker_pc A)) : Z := sum ((λ e, holds_token e.2) <$> map_to_list m).

Lemma sum_app l k : sum (l ++ k) = sum l + sum k.
Proof. unfold sum. induction l as [|x l IH]; cbn; lia. Qed.
Lemma sum_cons x l : sum (x :: l) = x + sum l.
Proof. done. Qed.
#[export] Instance sum_proper : Proper (Permutation ==> eq) sum.
Proof. intros l k Hl. induction Hl; unfold sum in *; cbn in *; lia. Qed.

Lemma tokens_insert m w pc pc' :
  m !! w = Some pc → tokens (<[w := pc']> m) = tokens m + holds_token pc' - holds_token pc.
Proof.
  intros Hm. unfold tokens. rewrite <- (map_to_list_delete m w pc Hm).
  rewrite <- (map_to_list_delete (<[w := pc']> m) w pc') by apply lookup_insert_eq.
  rewrite delete_insert_eq. cbn. rewrite !sum_cons. lia.
Qed.
Lemma tokens_nonneg m : 0 ≤ tokens m.
Proof.
  unfold tokens, sum. generalize (map_to_list m). intros l.
  induction l as [|[w pc] l IH]; cbn in *; [done|]. destruct pc; cbn; lia.
Qed.
Lemma sum_nonneg l : Forall (λ n, 1 ≤ n) l → 0 ≤ sum l.
Proof. unfold sum. induction 1; cbn; lia. Qed.

(** There is a wakeup for every job in the queue. *)
Definition awake p : Prop :=
  zlen (jobQueue p) + match cancelling p with Some (K_removed n) | Some (K_read n _) => n | None => 0 end ≤ counter p + tokens (workers p) + sum (releasing p) ∧
  0 ≤ counter p ∧ Forall (λ n, 1 ≤ n) (releasing p) ∧
  (∀ n seen, cancelling p = Some (K_read n seen) → seen = counter p).

Lemma awake_step p e p' : pool_step p e p' → careful p p' → stayAlive p = true → awake p → awake p'.
Proof.
  intros Hs [Hrace Hpos] Halive (Hlen & Hc & Hr & Hk).
  destruct Hs as [tasks Hk'|n l1 l2 Hr'|id j q Hk' Hq|Hk'|n Hk'|n seen Hk'|w Hw Hk' Hc'|w Hw Hk' Hq|
    w priority j Hw Hk' Ha Hj|w task tasks Hw|w Hw|w Hw Ha|w Hw Ha]; unfold awake;
    try (cbn; rewrite (tokens_insert _ _ _ _ Hw); cbn; split_and!; try done; lia).
  - cbn in *. apply Forall_app in Hpos as [_ Hn]. apply Forall_inv in Hn.
    rewrite Hk' in *. rewrite length_app, sum_app, sum_cons. cbn in *. change (sum []) with 0. split_and!; [lia|done| |done].
    apply Forall_app. split; [done|]. constructor; [lia|done].
  - cbn in *. rewrite Hr' in Hlen, Hr. rewrite sum_app, sum_cons in Hlen.
    apply Forall_app in Hr as [_ Hn]. apply Forall_inv in Hn.
    rewrite sum_app. split_and!; [lia|lia|done|]. intros k seen Hseen. specialize (Hrace k seen Hseen). lia.
  - apply remove_job_spec in Hq as [_ Hq]. apply Permutation_length in Hq. cbn in *.
    rewrite Hk', Hq in Hlen. split_and!; [lia|done..].
  - cbn in *. rewrite Hk' in Hlen. split_and!; [lia|done..].
  - cbn in *. rewrite Hk' in Hlen. split_and!; [lia|done..|]. congruence.
  - cbn in *. rewrite (Hk n seen Hk'), Hk' in *. unfold increment_write. case_decide; split_and!; try done; lia.
  - cbn. rewrite (tokens_insert _ _ _ _ Hw). cbn. split_and!; [lia|lia|done|]. intros n seen E.
    by destruct (Hk' n seen).
  - cbn. rewrite (tokens_insert _ _ _ _ Hw). cbn. destruct Hq as [Hq|Hq]; [congruence|].
    pose proof (tokens_nonneg (<[w := Wk_testing]> (workers p))) as Ht.
    rewrite (tokens_insert _ _ _ _ Hw) in Ht. cbn in Ht. pose proof (sum_nonneg _ Hr).
    rewrite Hq, Hk' in *. cbn in *. split_and!; try done; lia.
  - cbn. rewrite (tokens_insert _ _ _ _ Hw). cbn. rewrite Hk' in *.
    apply delete_Permutation, Permutation_length in Hj. cbn in Hj. split_and!; try done; lia.
Qed.

Lemma step_stayAlive p e p' : pool_step p e p' → stayAlive p' = stayAlive p.
Proof. by destruct 1. Qed.

Lemma careful_awake p p' : careful_steps p p' → stayAlive p = true → awake p → awake p'.
Proof.
  induction 1 as [|p e p' p'' Hs Hc _ IH]; [done|]. intros Ha Hp.
  apply IH; [by rewrite (step_stayAlive _ _ _ Hs)|by eapply awake_step].
Qed.

Lemma make_awake n : awake (PriorityThreadPool_make (A := A) n).
Proof. unfold awake. cbn. pose proof (tokens_nonneg (workers (PriorityThreadPool_make (A := A) n))). 
  split_and!; [cbn in *; change (sum []) with 0; lia|done|done|done]. Qed.

Lemma tokens_acquired m : 1 ≤ tokens m → acquired m.
Proof.
  unfold tokens. intros Ht.
  assert (He : ∃ e, e ∈ map_to_list m ∧ e.2 = Wk_acquired).
  { revert Ht. generalize (map_to_list m). intros l. induction l as [|[w pc] l IH]; [done|].
    cbn. rewrite sum_cons. destruct (decide (holds_token pc = 1)) as [E|E].
    - intros _. exists (w, pc). split; [by left|]. by destruct pc.
    - intros Ht. assert (holds_token pc = 0) by (by destruct pc). destruct IH as (e & He & Hpc); [lia|].
      exists e. split; [by right|done]. }
  destruct He as ([w pc] & He & Hpc). cbn in Hpc. subst pc. apply elem_of_map_to_list in He. by exists w.
Qed.

(** As long as no release of the semaphore falls between the test and the assignment
    of a cancellation, no wakeup is lost: whenever a job is in the queue and no thread is
    in the middle of adding or cancelling one, a worker has acquired the semaphore or can
    acquire it. *)
Theorem wakeups_kept n p :
  careful_steps (PriorityThreadPool_make n) p → jobQueue p ≠ [] → releasing p = [] → cancelling p = None →
  acquired (workers p) ∨ 1 ≤ counter p.
Proof.
  intros Hs Hq Hr Hk. destruct (careful_awake _ _ Hs eq_refl (make_awake n)) as (Hlen & Hc & _).
  rewrite Hr, Hk in Hlen. change (sum []) with 0 in Hlen.
  assert (1 ≤ zlen (jobQueue p)) by (destruct (jobQueue p); [done|cbn; lia]).
  destruct (decide (1 ≤ counter p)); [by right|]. left. apply tokens_acquired. lia.
Qed.

(** ** The pool as the dimensions use it *)

(** Adding and cancelling, as the dimension sees them, are runs of the pool. *)
Theorem addJob_runs tasks p :
  cancelling p = None → pool_steps p (PriorityThreadPool_addJob tasks p).2.
Proof.
  intros Hk. eapply pool_cons; [by apply (pool_push p tasks)|].
  eapply pool_cons; [apply (pool_release _ (zlen tasks) (releasing p) []); done|].
  rewrite app_nil_r. apply pool_refl.
Qed.
Theorem cancelJob_runs id p :
  cancelling p = None → pool_steps p (PriorityThreadPool_cancelJob id p).2.
Proof.
  intros Hk. unfold PriorityThreadPool_cancelJob.
  destruct (remove_job id (jobQueue p)) as [[j q]|] eqn:E; [|apply pool_refl].
  eapply pool_cons; [by eapply pool_cancel|]. eapply pool_cons; [by apply pool_increment_read|].
  eapply pool_cons; [by apply (pool_increment_write _ 1 (counter p))|]. apply pool_refl.
Qed.
End PoolProps.

(** ** Examples *)

(** One worker; a job is added, and another, whose release comes late; the first is
    cancelled, and the release falls in the middle. *)
Definition pool_waiting : Pool Z := set_worker 0 Wk_waiting (PriorityThreadPool_make 1).
Definition pool_one : Pool Z := (PriorityThreadPool_addJob [7] pool_waiting).2.
Definition pool_two : Pool Z := set_releasing [1] (push_job [8] pool_one).2.
Definition pool_removed : Pool Z := cancel_removed (mk_Job 1 [7]) [mk_Job 2 [8]] pool_two.
Definition pool_seen : Pool Z := set_cancelling (Some (K_read 1 1)) pool_removed.
Definition pool_released : Pool Z := set_releasing [] (set_counter 2 pool_seen).
Definition pool_lost : Pool Z := set_cancelling None (set_counter 0 pool_released).

Lemma pool_lost_reached : pool_steps (PriorityThreadPool_make 1) pool_lost.
Proof.
  eapply pool_cons; [by apply (worker_goes_on _ 0)|]. fold pool_waiting.
  eapply pool_steps_trans; [by apply (addJob_runs [7])|]. fold pool_one.
  eapply pool_cons; [by apply (pool_push _ [8])|].
  eapply pool_cons; [by apply (pool_cancel _ 1 (mk_Job 1 [7]) [mk_Job 2 [8]])|].
  eapply pool_cons; [by apply pool_increment_read|].
  eapply pool_cons; [by apply (pool_release _ 1 [] [])|].
  eapply pool_cons; [by apply (pool_increment_write _ 1 1)|]. apply pool_refl.
Qed.

(** C27: a wakeup can be lost: a pool of one worker reaches, through two additions and one
    cancellation, a state in which a job is in the queue and the worker is waiting, and
    in which nothing but a further job will ever make the worker take it. *)
Theorem wakeup_lost :
  ∃ p : Pool Z, pool_steps (PriorityThreadPool_make 1) p ∧ stayAlive p = true ∧
    job_id <$> jobQueue p = [2] ∧ cancelling p = None ∧ releasing p = [] ∧ workers p !! 0 = Some Wk_waiting ∧
    ∀ p', pool_steps_idle p p' → taken p' = [].
Proof.
  exists pool_lost. split_and!; [apply pool_lost_reached|done..|].
  intros p' Hs. apply (starved_forever _ _ Hs). split_and!; [done|done| |done].
  intros [w Hw]. change (<[0 := Wk_waiting]> (workers (PriorityThreadPool_make (A := Z) 1)) !! w = Some Wk_acquired) in Hw.
  apply lookup_insert_Some in Hw as [[_ ?]|[_ Hw]]; [done|].
  apply elem_of_list_to_map_2, list_elem_of_fmap in Hw as (i & [= _ ?] & _).
Qed.

Lemma pool_accounts_for_jobs_witness :
  job_id <$> all_jobs pool_lost ≡ₚ [1; 2] ∧ NoDup (job_id <$> all_jobs pool_lost).
Proof.
  destruct (pool_accounts_for_jobs 1 pool_lost pool_lost_reached ltac:(reflexivity)) as (Hp & Hn & _).
  split; [exact Hp|exact Hn].
Defined.

Lemma wakeups_kept_witness : acquired (workers pool_one) ∨ 1 ≤ counter pool_one.
Proof.
  apply (wakeups_kept 1); [|done..].
  eapply careful_cons; [by apply (worker_goes_on _ 0)|by split|].
  eapply careful_cons; [by apply (pool_push _ [7])|split; [done|by repeat constructor]|].
  eapply careful_cons; [by apply (pool_release _ 1 [] [])|by split|]. apply careful_refl.
Defined.
