(* ===== verification/Worlds.v ===== *)
(** * Worlds: their start, their ticks and their stop (WorldGroup.cpp, World.cpp,
      Dimension.cpp, default/)

    The threads that a world group runs: one ticks its world, each dimension has its own
    and waits in a semaphore for the ticks of the world, the workers of the pool
    generate the spawn chunks, and a further one waits for them.  The main thread starts
    them and, at the end, stops them in turn.  There is one world in the group, as
    [DefaultWorldGroup::initialize] makes it.  [worlds_step] has these threads; the thread of
    the command line, which outlives them and may read chunks, is in [program_step].

    [std::counting_semaphore<1000>] may not hold more than 1000, and the code never asks:
    here its counter is an integer, as it is in the library of gcc, and
    [overflowed] tells that the bound was passed.  Sleeping in a loop is no step. *)

From S2P Require Import Prelude State Types ThreadPool.

(** ** The spawn chunks *)

Definition NB_SPAWN_CHUNKS : Z := 19.

(** The loop of [Overworld::initialize], from the chunk it has come to: the chunks it
    adds jobs for, and the one it ends at. *)
Fixpoint spawn_loop (n : Z) (fuel : nat) (x z : Z) : option (list Position2D * Position2D) :=
  match fuel with
  | O => None
  | S fuel =>
      if decide (x < Z.quot n 2 ∨ z < Z.quot n 2) then
        r ← (if decide (x = Z.quot n 2) then spawn_loop n fuel (Z.quot (- n) 2) (z + 1)
             else spawn_loop n fuel (x + 1) z);
        Some (mk_Position2D x z :: r.1, r.2)
      else Some ([], mk_Position2D x z)
  end.

(** The job after the loop is for the chunk the loop ends at. *)
Definition spawn_jobs (n : Z) (fuel : nat) : option (list Position2D) :=
  r ← spawn_loop n fuel (Z.quot (- n) 2) (Z.quot (- n) 2); Some (r.1 ++ [r.2]).
Definition spawn_fuel (n : Z) : nat := Z.to_nat ((n + 1) * (n + 1)).

(** ** Threads *)

(** Dimension::_run *)
Inductive dimension_pc : Type :=
| Dim_starting
| Dim_testing
| Dim_acquiring
| Dim_ticking
| Dim_ended.

Record DimensionThread : Type := mk_DimensionThread {
  dim_isRunning : bool;
  dim_isInitialized : bool;
  dimensionLock : Z;
  processingThread : option dimension_pc;
  (** [_level.clear()] was called *)
  level_cleared : bool;
  (** what has happened *)
  dim_released : Z;
  dim_ticks : Z
}.

(** WorldGroup::_run, World::tick *)
Inductive group_pc : Type :=
| Group_testing
| Group_releasing (todo : list string)
| Group_ended.

(** [_worldGenFuture]: PriorityThreadPool::waitUntilJobsDone, which reads the semaphore
    after it has found the books at zero. *)
Inductive waiter_pc : Type :=
| Gen_waiting
| Gen_reading
| Gen_done.

(** The main thread: it initialises the dimensions and the group, serves, and stops. *)
Inductive main_pc : Type :=
| Main_initializing (todo : list string)
| Main_spawning (jobs : list Position2D) (todo : list string)
| Main_serving
| Main_joining_group
| Main_cancelling
| Main_waiting
| Main_reading
| Main_stopping (todo : list string)
| Main_releasing (dim : string) (todo : list string)
| Main_joining (dim : string) (todo : list string)
| Main_future (dim : string) (todo : list string)
| Main_stopped.

Record Worlds : Type := mk_Worlds {
  dims : gmap string DimensionThread;
  group_running : bool;
  group_thread : option group_pc;
  worldGenFuture : option waiter_pc;
  generationPool : Pool Position2D;
  main_thread : main_pc;
  overflowed : bool
}.

Definition set_dim name d s := mk_Worlds (<[name := d]> (dims s)) (group_running s) (group_thread s)
  (worldGenFuture s) (generationPool s) (main_thread s) (overflowed s).
Definition set_group_running b s := mk_Worlds (dims s) b (group_thread s)
  (worldGenFuture s) (generationPool s) (main_thread s) (overflowed s).
Definition set_group_thread t s := mk_Worlds (dims s) (group_running s) (Some t)
  (worldGenFuture s) (generationPool s) (main_thread s) (overflowed s).
Definition set_worldGenFuture t s := mk_Worlds (dims s) (group_running s) (group_thread s)
  (Some t) (generationPool s) (main_thread s) (overflowed s).
Definition set_generationPool p s := mk_Worlds (dims s) (group_running s) (group_thread s)
  (worldGenFuture s) p (main_thread s) (overflowed s).
Definition set_main_thread t s := mk_Worlds (dims s) (group_running s) (group_thread s)
  (worldGenFuture s) (generationPool s) t (overflowed s).
Definition set_overflowed b s := mk_Worlds (dims s) (group_running s) (group_thread s)
  (worldGenFuture s) (generationPool s) (main_thread s) b.

Definition set_processingThread t d := mk_DimensionThread (dim_isRunning d) (dim_isInitialized d)
  (dimensionLock d) (Some t) (level_cleared d) (dim_released d) (dim_ticks d).
Definition set_isInitialized b d := mk_DimensionThread (dim_isRunning d) b
  (dimensionLock d) (processingThread d) (level_cleared d) (dim_released d) (dim_ticks d).
Definition set_isRunning b d := mk_DimensionThread b (dim_isInitialized d)
  (dimensionLock d) (processingThread d) (level_cleared d) (dim_released d) (dim_ticks d).
Definition set_level_cleared b d := mk_DimensionThread (dim_isRunning d) (dim_isInitialized d)
  (dimensionLock d) (processingThread d) b (dim_released d) (dim_ticks d).

(** ** Operations *)

(** [std::counting_semaphore<1000>::max()] *)
Definition SEMAPHORE_MAX : Z := 1000.

(** [release(n)] *)
Definition dimension_release (n : Z) (d : DimensionThread) : DimensionThread :=
  mk_DimensionThread (dim_isRunning d) (dim_isInitialized d) (dimensionLock d + n) (processingThread d)
    (level_cleared d) (dim_released d + n) (dim_ticks d).
(** [update <= max() - counter], which the standard demands of the caller. *)
Definition may_release (n : Z) (d : DimensionThread) : bool :=
  bool_decide (n ≤ SEMAPHORE_MAX - dimensionLock d).
Definition Worlds_release (name : string) (n : Z) (d : DimensionThread) (s : Worlds) : Worlds :=
  set_overflowed (overflowed s || negb (may_release n d)) (set_dim name (dimension_release n d) s).

(** [acquire()], once the counter is not zero. *)
Definition dimension_acquire (d : DimensionThread) : DimensionThread :=
  mk_DimensionThread (dim_isRunning d) (dim_isInitialized d) (dimensionLock d - 1) (Some Dim_ticking)
    (level_cleared d) (dim_released d) (dim_ticks d).
Definition dimension_tick (d : DimensionThread) : DimensionThread :=
  mk_DimensionThread (dim_isRunning d) (dim_isInitialized d) (dimensionLock d) (Some Dim_testing)
    (level_cleared d) (dim_released d) (dim_ticks d + 1).

(** The constructor. *)
Definition Dimension_make : DimensionThread := mk_DimensionThread false false 0 None false 0 0.
(** Dimension::initialize *)
Definition Dimension_initialize (d : DimensionThread) : DimensionThread :=
  set_processingThread Dim_starting (set_isRunning true d).

Definition overworld : string := "overworld".
(** DefaultWorld::initialize *)
Definition default_dimensions : gmap string DimensionThread :=
  <["end" := Dimension_make]> (<["nether" := Dimension_make]> {[overworld := Dimension_make]}).

(** World::isInitialized, WorldGroup::isInitialized *)
Definition World_isInitialized (s : Worlds) : bool :=
  bool_decide (map_Forall (λ _ d, dim_isInitialized d = true) (dims s)).

(** The group before [initialize], with the workers of the pool. *)
Definition Worlds_make (threadCount : nat) (todo : list string) : Worlds :=
  mk_Worlds default_dimensions false None None (PriorityThreadPool_make threadCount)
    (Main_initializing todo) false.

(** ** Steps *)

Section Steps.
Variable spawn : list Position2D.

Inductive worlds_step (s : Worlds) : Worlds → Prop :=
(** The workers. *)
| pool_works p :
    pool_step (generationPool s) P_work p → worlds_step s (set_generationPool p s)
(** The players ask for chunks and cancel their jobs: they are let in when the world is
    initialised, and out before it is stopped. *)
| players_act e p :
    main_thread s = Main_serving → World_isInitialized s = true →
    pool_step (generationPool s) e p → worlds_step s (set_generationPool p s)
(** Dimension::_run *)
| dimension_starts name d :
    dims s !! name = Some d → processingThread d = Some Dim_starting →
    dim_isRunning d = false ∨ dim_isInitialized d = true →
    worlds_step s (set_dim name (set_processingThread Dim_testing d) s)
| dimension_tests name d :
    dims s !! name = Some d → processingThread d = Some Dim_testing →
    worlds_step s (set_dim name
      (set_processingThread (if dim_isRunning d then Dim_acquiring else Dim_ended) d) s)
| dimension_acquires name d :
    dims s !! name = Some d → processingThread d = Some Dim_acquiring → 1 ≤ dimensionLock d →
    worlds_step s (set_dim name (dimension_acquire d) s)
| dimension_ticks name d :
    dims s !! name = Some d → processingThread d = Some Dim_ticking →
    worlds_step s (set_dim name (dimension_tick d) s)
(** WorldGroup::_run: [World::tick] goes through the dimensions in the order of the map *)
| group_tests todo :
    group_thread s = Some Group_testing → todo ≡ₚ (map_to_list (dims s)).*1 →
    worlds_step s (set_group_thread (if group_running s then Group_releasing todo else Group_ended) s)
| group_releases name todo d :
    group_thread s = Some (Group_releasing (name :: todo)) → dims s !! name = Some d →
    worlds_step s (set_group_thread (Group_releasing todo) (Worlds_release name 1 d s))
| group_ticked :
    group_thread s = Some (Group_releasing []) → worlds_step s (set_group_thread Group_testing s)
(** [_worldGenFuture] *)
| waiter_passes :
    worldGenFuture s = Some Gen_waiting → books (generationPool s) = 0 →
    worlds_step s (set_worldGenFuture Gen_reading s)
| waiter_again :
    worldGenFuture s = Some Gen_reading → counter (generationPool s) ≠ 0 →
    worlds_step s (set_worldGenFuture Gen_waiting s)
| waiter_done d :
    worldGenFuture s = Some Gen_reading → counter (generationPool s) = 0 → dims s !! overworld = Some d →
    worlds_step s (set_worldGenFuture Gen_done (set_dim overworld (set_isInitialized true d) s))
(** DefaultWorldGroup::initialize, World::initialize: Overworld::initialize adds the jobs,
    the two others are initialised at once *)
| main_initializes name todo d :
    main_thread s = Main_initializing (name :: todo) → dims s !! name = Some d → name ≠ overworld →
    worlds_step s (set_main_thread (Main_initializing todo)
      (set_dim name (set_isInitialized true (Dimension_initialize d)) s))
| main_initializes_overworld todo d :
    main_thread s = Main_initializing (overworld :: todo) → dims s !! overworld = Some d →
    worlds_step s (set_main_thread (Main_spawning spawn todo) (set_dim overworld (Dimension_initialize d) s))
| main_adds_job pos jobs todo p :
    main_thread s = Main_spawning (pos :: jobs) todo →
    releasing (generationPool s) = [] → cancelling (generationPool s) = None →
    p = set_releasing [1] (push_job [pos] (generationPool s)).2 →
    worlds_step s (set_main_thread (Main_spawning jobs todo) (set_generationPool p s))
| main_spawned todo :
    main_thread s = Main_spawning [] todo → releasing (generationPool s) = [] →
    worlds_step s (set_main_thread (Main_initializing todo) (set_worldGenFuture Gen_waiting s))
| main_initialized :
    main_thread s = Main_initializing [] →
    worlds_step s (set_main_thread Main_serving (set_group_thread Group_testing (set_group_running true s)))
(** WorldGroup::stop, World::stop, Dimension::stop, Overworld::stop; the threads of the
    players have ended *)
| main_stops :
    main_thread s = Main_serving → releasing (generationPool s) = [] → cancelling (generationPool s) = None →
    worlds_step s (set_main_thread Main_joining_group (set_group_running false s))
| main_joins_group :
    main_thread s = Main_joining_group → group_thread s = Some Group_ended →
    worlds_step s (set_main_thread Main_cancelling s)
| main_cancels :
    main_thread s = Main_cancelling → cancelling (generationPool s) = None →
    worlds_step s (set_main_thread Main_waiting (set_generationPool (cancel_everything (generationPool s)) s))
| main_waits :
    main_thread s = Main_waiting → cancelling (generationPool s) = None → books (generationPool s) = 0 →
    worlds_step s (set_main_thread Main_reading s)
| main_waits_again :
    main_thread s = Main_reading → counter (generationPool s) ≠ 0 →
    worlds_step s (set_main_thread Main_waiting s)
| main_waited todo :
    main_thread s = Main_reading → counter (generationPool s) = 0 → todo ≡ₚ (map_to_list (dims s)).*1 →
    worlds_step s (set_main_thread (Main_stopping todo) s)
| main_stops_dimension name todo d :
    main_thread s = Main_stopping (name :: todo) → dims s !! name = Some d →
    worlds_step s (set_main_thread (Main_releasing name todo) (set_dim name (set_isRunning false d) s))
| main_releases name todo d :
    main_thread s = Main_releasing name todo → dims s !! name = Some d →
    worlds_step s (set_main_thread (Main_joining name todo) (Worlds_release name SEMAPHORE_MAX d s))
| main_joins name todo d :
    main_thread s = Main_joining name todo → dims s !! name = Some d → processingThread d = Some Dim_ended →
    worlds_step s (set_main_thread (if decide (name = overworld) then Main_future name todo
      else Main_stopping todo) (set_dim name (set_level_cleared true d) s))
| main_waits_future name todo :
    main_thread s = Main_future name todo → worldGenFuture s = Some Gen_done →
    worlds_step s (set_main_thread (Main_stopping todo) s)
| main_stopped :
    main_thread s = Main_stopping [] → worlds_step s (set_main_thread Main_stopped s).

Inductive worlds_steps : Worlds → Worlds → Prop :=
| worlds_refl s : worlds_steps s s
| worlds_cons s s' s'' : worlds_step s s' → worlds_steps s' s'' → worlds_steps s s''.

(** What a group that has just been made can come to. *)
Definition worlds_reachable (threadCount : nat) (s : Worlds) : Prop :=
  ∃ todo, todo ≡ₚ (map_to_list default_dimensions).*1 ∧ worlds_steps (Worlds_make threadCount todo) s.

(** ** The command line (CommandLine.cpp, main.cpp)

    The thread is started before the worlds and joined after they have stopped.  Of
    the commands it gives only [/dumpChunk] reads chunks: it looks for one in the overworld,
    and then reads it through a reference until it has done.  (The chunks that are there
    are those that were generated, until the level is cleared.) *)

Inductive console_pc : Type := Console_polling | Console_dumping | Console_ended.

Record Program : Type := mk_Program {
  worlds : Worlds;
  console : console_pc
}.

Inductive program_step (p : Program) : Program → Prop :=
| worlds_go_on s :
    worlds_step (worlds p) s → program_step p (mk_Program s (console p))
| console_dumps d :
    console p = Console_polling → dims (worlds p) !! overworld = Some d → level_cleared d = false →
    ran (generationPool (worlds p)) ≠ [] → program_step p (mk_Program (worlds p) Console_dumping)
| console_dumped :
    console p = Console_dumping → program_step p (mk_Program (worlds p) Console_polling)
(** the input is at its end, or [_running] is false *)
| console_ends :
    console p = Console_polling → program_step p (mk_Program (worlds p) Console_ended).

Inductive program_steps : Program → Program → Prop :=
| program_refl p : program_steps p p
| program_cons p p' p'' : program_step p p' → program_steps p' p'' → program_steps p p''.

Definition program_reachable (threadCount : nat) (p : Program) : Prop :=
  ∃ todo, todo ≡ₚ (map_to_list default_dimensions).*1 ∧
    program_steps (mk_Program (Worlds_make threadCount todo) Console_polling) p.
End Steps.
