(* ===== verification/WorldsProps.v ===== *)
(** * What the threads of the worlds come to

    The spawn chunks are a square; no tick is lost; the semaphores of the dimensions
    pass their bound during a long start; the world is said to be ready when all but a
    few spawn chunks are; and a stop always comes to its end, with nobody left who uses
    the chunks it clears but the thread of the command line. *)

From S2P Require Import Prelude State Types ThreadPool Worlds.

(** ** The spawn chunks *)

Definition chunk_row (from to z : Z) : list Position2D := (λ x, mk_Position2D x z) <$> seqZ from (to - from + 1).
Definition chunk_rows (h from : Z) : list Position2D := concat (chunk_row (- h) h <$> seqZ from (h - from + 1)).

Lemma chunk_row_cons from to z :
  from ≤ to → chunk_row from to z = mk_Position2D from z :: chunk_row (from + 1) to z.
Proof.
  intros. unfold chunk_row. rewrite seqZ_cons by lia. cbn. do 2 f_equal. f_equal; lia.
Qed.
Lemma chunk_row_nil from to z : to < from → chunk_row from to z = [].
Proof. intros. unfold chunk_row. by rewrite seqZ_nil by lia. Qed.
Lemma chunk_rows_cons h from :
  from ≤ h → chunk_rows h from = chunk_row (- h) h from ++ chunk_rows h (from + 1).
Proof.
  intros. unfold chunk_rows. rewrite seqZ_cons by lia. cbn. do 3 f_equal. f_equal; lia.
Qed.

Lemma spawn_loop_rows n fuel x z :
  0 ≤ n → - Z.quot n 2 ≤ x ≤ Z.quot n 2 → z ≤ Z.quot n 2 →
  (Z.quot n 2 - z) * (2 * Z.quot n 2 + 1) + (Z.quot n 2 - x) < Z.of_nat fuel →
  ∃ r, spawn_loop n fuel x z = Some r ∧
    r.1 ++ [r.2] = chunk_row x (Z.quot n 2) z ++ chunk_rows (Z.quot n 2) (z + 1).
Proof.
  intros Hn. assert (Hh : 0 ≤ Z.quot n 2) by (by apply Z.quot_pos).
  revert x z. induction fuel as [|fuel IH]; intros x z Hx Hz Hf; [nia|]. cbn [spawn_loop].
  rewrite (chunk_row_cons x) by lia. case_decide as Hc; [case_decide as Hl|].
  - destruct (IH (Z.quot (- n) 2) (z + 1)) as (r & -> & Hr); rewrite ?Z.quot_opp_l by done; [lia|lia|nia|].
    exists (mk_Position2D x z :: r.1, r.2). split; [done|]. cbn. f_equal.
    rewrite Hr, (chunk_row_nil (x + 1)), (chunk_rows_cons _ (z + 1)) by lia.
    by rewrite Z.quot_opp_l by done.
  - destruct (IH (x + 1) z) as (r & -> & Hr); [lia|lia|lia|].
    exists (mk_Position2D x z :: r.1, r.2). split; [done|]. cbn. by rewrite Hr.
  - eexists. split; [done|]. cbn. assert (x = Z.quot n 2) by lia. assert (z = Z.quot n 2) by lia.
    subst. rewrite chunk_row_nil by lia. unfold chunk_rows. by rewrite seqZ_nil by lia.
Qed.

Lemma elem_of_chunk_row p from to z : p ∈ chunk_row from to z ↔ from ≤ p2x p ≤ to ∧ p2z p = z.
Proof.
  unfold chunk_row. rewrite list_elem_of_fmap. split.
  - intros (x & -> & Hx%elem_of_seqZ). cbn. lia.
  - intros [Hx <-]. exists (p2x p). split; [by destruct p|]. apply elem_of_seqZ. lia.
Qed.
Lemma elem_of_chunk_rows p h from :
  p ∈ chunk_rows h from ↔ - h ≤ p2x p ≤ h ∧ from ≤ p2z p ≤ h.
Proof.
  unfold chunk_rows. rewrite list_elem_of_In, in_concat. setoid_rewrite <- list_elem_of_In.
  setoid_rewrite list_elem_of_fmap. split.
  - intros (l & (z & -> & Hz%elem_of_seqZ) & Hp). apply elem_of_chunk_row in Hp. lia.
  - intros Hp. exists (chunk_row (- h) h (p2z p)). split; [|by apply elem_of_chunk_row; lia].
    exists (p2z p). split; [done|]. apply elem_of_seqZ. lia.
Qed.
Lemma NoDup_chunk_row from to z : NoDup (chunk_row from to z).
Proof. apply NoDup_fmap_2; [by intros ?? [=]|apply NoDup_seqZ]. Qed.
Lemma NoDup_chunk_rows k h from : h - from + 1 = Z.of_nat k → NoDup (chunk_rows h from).
Proof.
  revert from. induction k as [|k IH]; intros from Hk.
  - unfold chunk_rows. rewrite seqZ_nil by lia. constructor.
  - rewrite chunk_rows_cons by lia. apply list.NoDup_app. split_and!.
    + apply NoDup_chunk_row.
    + intros p Hp%elem_of_chunk_row Hq%elem_of_chunk_rows. lia.
    + apply IH. lia.
Qed.

(** The start of the overworld asks for every chunk of a square around the origin, once
    each, and for no other: the loop ends, and for an edge of [n] the chunks are those
    with both coordinates between -n/2 and n/2, which for the 19 of the code makes 361. *)
Theorem spawn_square n :
  0 ≤ n →
  ∃ jobs, spawn_jobs n (spawn_fuel n) = Some jobs ∧ NoDup jobs ∧
    (∀ p, p ∈ jobs ↔ - (n / 2) ≤ p2x p ≤ n / 2 ∧ - (n / 2) ≤ p2z p ≤ n / 2) ∧
    (n = NB_SPAWN_CHUNKS → zlen jobs = 361).
Proof.
  intros Hn. assert (Hh : 0 ≤ Z.quot n 2) by (by apply Z.quot_pos).
  assert (Hq : Z.quot n 2 = n / 2) by (by apply Z.quot_div_nonneg).
  assert (Hb : 2 * Z.quot n 2 ≤ n) by (rewrite Hq; apply Z.mul_div_le; lia).
  destruct (spawn_loop_rows n (spawn_fuel n) (Z.quot (- n) 2) (Z.quot (- n) 2)) as (r & Er & Hr);
    rewrite ?Z.quot_opp_l by done; [done|lia|lia|unfold spawn_fuel; nia|].
  unfold spawn_jobs. rewrite Er. exists (r.1 ++ [r.2]). cbn [mbind option_bind].
  assert (Hrows : r.1 ++ [r.2] = chunk_rows (n / 2) (- (n / 2))).
  { rewrite Hr, Z.quot_opp_l, Hq, (chunk_rows_cons _ (- (n / 2))) by lia. done. }
  rewrite Hrows. split_and!; [done| | |].
  - apply (NoDup_chunk_rows (Z.to_nat (2 * (n / 2) + 1))). lia.
  - intros p. apply elem_of_chunk_rows.
  - by intros ->.
Qed.

Lemma spawn_square_witness :
  ∃ jobs, spawn_jobs 19 (spawn_fuel 19) = Some jobs ∧ NoDup jobs ∧ zlen jobs = 361.
Proof.
  destruct (spawn_square 19 ltac:(lia)) as (jobs & E & Hn & _ & Hl). exists jobs.
  split_and!; [exact E|exact Hn|exact (Hl eq_refl)].
Defined.

(** ** Runs *)

Section Runs.
Context {spawn : list Position2D}.
Local Abbreviation step := (worlds_step spawn).
Local Abbreviation steps := (worlds_steps spawn).

Lemma worlds_steps_trans s s' s'' : steps s s' → steps s' s'' → steps s s''.
Proof. induction 1 as [|s s1 s' Hs _ IH]; [done|]. intros H. eapply worlds_cons; eauto. Qed.
Lemma worlds_steps_one s s' : step s s' → steps s s'.
Proof. intros H. eapply worlds_cons; [exact H|apply worlds_refl]. Qed.

Lemma worlds_reachable_steps n s s' : worlds_reachable spawn n s → steps s s' → worlds_reachable spawn n s'.
Proof. intros (todo & Hp & Hs) H. exists todo. split; [done|]. by eapply worlds_steps_trans. Qed.

(** What every step from a reachable state keeps holds of every reachable state. *)
Lemma worlds_reachable_ind (I : Worlds → Prop) n :
  (∀ todo, todo ≡ₚ (map_to_list default_dimensions).*1 → I (Worlds_make n todo)) →
  (∀ s s', worlds_reachable spawn n s → step s s' → I s → I s') →
  ∀ s, worlds_reachable spawn n s → I s.
Proof.
  intros Hinit Hstep s (todo & Hp & Hs).
  assert (H0 : worlds_reachable spawn n (Worlds_make n todo)) by (exists todo; split; [done|apply worlds_refl]).
  apply Hinit in Hp. revert Hs Hp H0. generalize (Worlds_make n todo).
  induction 1 as [|s s1 s' Hs _ IH]; [done|]. intros HI Hr. apply IH; [by eapply Hstep|].
  by eapply worlds_reachable_steps, worlds_steps_one.
Qed.

(** ** Dimensions *)

Definition unstarted (d : DimensionThread) : Prop :=
  processingThread d = None ∨ processingThread d = Some Dim_starting.
Definition ticking (d : DimensionThread) : Z :=
  match processingThread d with Some Dim_ticking => 1 | _ => 0 end.

Record dimension_ok (d : DimensionThread) : Prop := {
  lock_nonneg : 0 ≤ dimensionLock d;
  ticks_accounted : dim_released d = dim_ticks d + ticking d + dimensionLock d;
  cleared_ended : level_cleared d = true → processingThread d = Some Dim_ended;
  unstarted_ticks : unstarted d → dim_ticks d = 0;
  uninitialized_unstarted : dim_isRunning d = true → dim_isInitialized d = false → unstarted d
}.

(** What is known of a dimension by how far the main thread has come. *)
Definition dimension_phase (m : main_pc) (name : string) (d : DimensionThread) : Prop :=
  match m with
  | Main_initializing todo | Main_spawning _ todo =>
      (name ∈ todo ↔ processingThread d = None) ∧ level_cleared d = false ∧
      (processingThread d ≠ None → dim_isRunning d = true)
  | Main_serving | Main_joining_group | Main_cancelling | Main_waiting | Main_reading =>
      processingThread d ≠ None ∧ level_cleared d = false ∧ dim_isRunning d = true
  | Main_releasing current todo =>
      processingThread d ≠ None ∧ (name ∈ current :: todo ∨ level_cleared d = true) ∧
      (name = current → dim_isRunning d = false)
  | Main_joining current todo =>
      processingThread d ≠ None ∧ (name ∈ current :: todo ∨ level_cleared d = true) ∧
      (name = current → dim_isRunning d = false ∧ (processingThread d = Some Dim_acquiring → 1 ≤ dimensionLock d))
  | Main_stopping todo | Main_future _ todo =>
      processingThread d ≠ None ∧ (name ∈ todo ∨ level_cleared d = true)
  | Main_stopped => processingThread d ≠ None ∧ level_cleared d = true
  end.

Definition todo_of (m : main_pc) : list string :=
  match m with
  | Main_initializing todo | Main_spawning _ todo | Main_stopping todo | Main_future _ todo => todo
  | Main_releasing name todo | Main_joining name todo => name :: todo
  | _ => []
  end.

Record dimensions_ok (s : Worlds) : Prop := {
  all_dimensions : map_Forall (λ name d, dimension_ok d ∧ dimension_phase (main_thread s) name d) (dims s);
  todo_dimensions : NoDup (todo_of (main_thread s)) ∧ todo_of (main_thread s) ⊆ (map_to_list (dims s)).*1;
  names_of_dimensions : dom (dims s) = dom default_dimensions;
  group_dimensions : ∀ todo, group_thread s = Some (Group_releasing todo) → todo ⊆ (map_to_list (dims s)).*1;
  within_bound : overflowed s = false → map_Forall (λ _ d, dimensionLock d ≤ SEMAPHORE_MAX) (dims s)
}.

Lemma elem_of_names (m : gmap string DimensionThread) name :
  name ∈ (map_to_list m).*1 ↔ is_Some (m !! name).
Proof.
  rewrite list_elem_of_fmap. split.
  - intros ([k d] & -> & Hd%elem_of_map_to_list). eauto.
  - intros [d Hd]. exists (name, d). split; [done|]. by apply elem_of_map_to_list.
Qed.
Lemma names_insert (m : gmap string DimensionThread) name d d' :
  m !! name = Some d → ∀ l, l ⊆ (map_to_list m).*1 → l ⊆ (map_to_list (<[name := d']> m)).*1.
Proof.
  intros Hd l Hl k Hk%Hl. rewrite elem_of_names in *. destruct (decide (name = k)) as [->|].
  - rewrite lookup_insert_eq. eauto.
  - by rewrite lookup_insert_ne.
Qed.

Lemma default_dimension_names todo :
  todo ≡ₚ (map_to_list default_dimensions).*1 → NoDup todo.
Proof. intros ->. apply NoDup_fst_map_to_list. Qed.

Lemma default_dimensions_lookup name d : default_dimensions !! name = Some d → d = Dimension_make.
Proof.
  assert (H : map_Forall (λ _ d, d = Dimension_make) default_dimensions)
    by (repeat apply map_Forall_insert_2; [done..|apply map_Forall_empty]).
  apply H.
Qed.

Lemma dimensions_ok_make n todo :
  todo ≡ₚ (map_to_list default_dimensions).*1 → dimensions_ok (Worlds_make n todo).
Proof.
  intros Hp. split; cbn; [| |done|done|].
  - intros name d Hd.
    rewrite (default_dimensions_lookup name d Hd).
    split; [by split|]. split_and!; [|done|done]. split; [done|]. intros _. rewrite Hp, elem_of_names. eauto.
  - split; [by eapply default_dimension_names|]. by rewrite Hp.
  - intros _ name d Hd. by rewrite (default_dimensions_lookup name d Hd).
Qed.
(** A step that changes one dimension [d] into [d']. *)
Lemma dimensions_ok_change s s' name d d' :
  dimensions_ok s → dims s !! name = Some d → dims s' = <[name := d']> (dims s) →
  dimension_ok d' → dimension_phase (main_thread s') name d' →
  (∀ other e, other ≠ name → dimension_phase (main_thread s) other e → dimension_phase (main_thread s') other e) →
  NoDup (todo_of (main_thread s')) → todo_of (main_thread s') ⊆ todo_of (main_thread s) →
  (∀ todo, group_thread s' = Some (Group_releasing todo) →
     ∃ todo', group_thread s = Some (Group_releasing todo') ∧ todo ⊆ todo') →
  (overflowed s' = false → overflowed s = false ∧ dimensionLock d' ≤ SEMAPHORE_MAX) →
  dimensions_ok s'.
Proof.
  intros [Hd [Hn Hsub] Hdom Hg Hb] Hl E Hok Hphase Hother Hn' Hsub' Hg' Hb'. split.
  - rewrite E. intros other e [[<- <-]|[Hne He]]%lookup_insert_Some; [done|].
    apply not_eq_sym in Hne. destruct (Hd other e He) as [? Hp]. split; [done|]. by apply Hother.
  - split; [done|]. rewrite E. eapply names_insert; [done|]. etransitivity; eauto.
  - rewrite E, dom_insert_L, <- Hdom. apply (elem_of_dom_2 (D := gset string)) in Hl. set_solver.
  - intros todo Ht. rewrite E. eapply names_insert; [done|].
    destruct (Hg' todo Ht) as (todo' & Ht' & Hs). etransitivity; [exact Hs|by apply Hg].
  - intros Ho. destruct (Hb' Ho) as [Ho1 Hl']. rewrite E. apply map_Forall_insert_2; [done|by apply Hb].
Qed.

(** A step that changes no dimension. *)
Lemma dimensions_ok_keep s s' :
  dimensions_ok s → dims s' = dims s → overflowed s' = overflowed s →
  (∀ name d, dims s !! name = Some d → dimension_phase (main_thread s) name d → dimension_phase (main_thread s') name d) →
  NoDup (todo_of (main_thread s')) → todo_of (main_thread s') ⊆ (map_to_list (dims s)).*1 →
  (∀ todo, group_thread s' = Some (Group_releasing todo) → todo ⊆ (map_to_list (dims s)).*1) →
  dimensions_ok s'.
Proof.
  intros [Hd [Hn Hsub] Hdom Hg Hb] E Eo Hp Hn' Hsub' Hg'. split; rewrite ?E, ?Eo; try done.
  intros name d Hl. destruct (Hd name d Hl). split; [done|]. by apply Hp.
Qed.
Ltac dim_simpl :=
  unfold unstarted, ticking in *;
  cbn [processingThread dim_isRunning dim_isInitialized dimensionLock level_cleared dim_released dim_ticks
    set_processingThread set_isInitialized set_isRunning set_level_cleared dimension_release dimension_acquire
    dimension_tick Dimension_initialize] in *.

(** Each operation keeps what is known of its dimension. *)
Lemma ok_dimension_initialize d :
  dimension_ok d → processingThread d = None → dimension_ok (Dimension_initialize d).
Proof.
  intros [H1 H2 H3 H4 H5] E. split; dim_simpl; rewrite E in *; try done.
  - intros Hc. by apply H3 in Hc.
  - intros _. apply H4. by left.
  - by right.
Qed.
Lemma ok_set_isInitialized d b : dimension_ok d → b = true → dimension_ok (set_isInitialized b d).
Proof. intros [H1 H2 H3 H4 H5] ->. by split; dim_simpl. Qed.
Lemma ok_set_isRunning_false d : dimension_ok d → dimension_ok (set_isRunning false d).
Proof. intros [H1 H2 H3 H4 H5]. by split; dim_simpl. Qed.
Lemma ok_starts d :
  dimension_ok d → processingThread d = Some Dim_starting → dim_isRunning d = false ∨ dim_isInitialized d = true →
  dimension_ok (set_processingThread Dim_testing d).
Proof.
  intros [H1 H2 H3 H4 H5] E Hc. split; dim_simpl; rewrite E in *; try done.
  - intros Hc'. by apply H3 in Hc'.
  - intros [?|?]; done.
  - destruct Hc; congruence.
Qed.
Lemma ok_tests d :
  dimension_ok d → processingThread d = Some Dim_testing →
  dimension_ok (set_processingThread (if dim_isRunning d then Dim_acquiring else Dim_ended) d).
Proof.
  intros [H1 H2 H3 H4 H5] E. split; dim_simpl; rewrite E in *; try done.
  - by destruct (dim_isRunning d).
  - intros Hc. by apply H3 in Hc.
  - destruct (dim_isRunning d); intros [?|?]; done.
  - intros Hr Hi. destruct (H5 Hr Hi); done.
Qed.
Lemma ok_acquires d :
  dimension_ok d → processingThread d = Some Dim_acquiring → 1 ≤ dimensionLock d → dimension_ok (dimension_acquire d).
Proof.
  intros [H1 H2 H3 H4 H5] E Hl. split; dim_simpl; rewrite E in *; try lia.
  - intros Hc. by apply H3 in Hc.
  - intros [?|?]; done.
  - intros Hr Hi. destruct (H5 Hr Hi); done.
Qed.
Lemma ok_ticks d : dimension_ok d → processingThread d = Some Dim_ticking → dimension_ok (dimension_tick d).
Proof.
  intros [H1 H2 H3 H4 H5] E. split; dim_simpl; rewrite E in *; try lia.
  - intros Hc. by apply H3 in Hc.
  - intros [?|?]; done.
  - intros Hr Hi. destruct (H5 Hr Hi); done.
Qed.
Lemma ok_release n d : dimension_ok d → 0 ≤ n → dimension_ok (dimension_release n d).
Proof. intros [H1 H2 H3 H4 H5] Hn. split; dim_simpl; try done; lia. Qed.
Lemma ok_clear d : dimension_ok d → processingThread d = Some Dim_ended → dimension_ok (set_level_cleared true d).
Proof. intros [H1 H2 H3 H4 H5] E. by split; dim_simpl. Qed.

Lemma bound_release n d s :
  (overflowed s || negb (may_release n d)) = false →
  overflowed s = false ∧ dimensionLock (dimension_release n d) ≤ SEMAPHORE_MAX.
Proof.
  intros [Ho Hm]%orb_false_iff. split; [done|]. apply negb_false_iff, bool_decide_eq_true in Hm. cbn. lia.
Qed.
#[local] Hint Resolve ok_dimension_initialize ok_set_isInitialized ok_set_isRunning_false ok_starts ok_tests
  ok_acquires ok_ticks ok_release ok_clear : core.

Lemma dimensions_at s name d :
  dimensions_ok s → dims s !! name = Some d → dimension_ok d ∧ dimension_phase (main_thread s) name d.
Proof. intros Hs Hd. by apply (all_dimensions s Hs). Qed.

(** A thread of a dimension moves; the main thread does not. *)
Lemma dimensions_ok_moves s name d d' :
  dimensions_ok s → dims s !! name = Some d → dimension_ok d' → processingThread d ≠ None →
  processingThread d' ≠ None → dim_isRunning d' = dim_isRunning d → level_cleared d' = level_cleared d →
  (dim_isRunning d = false → processingThread d' = Some Dim_acquiring →
     processingThread d = Some Dim_acquiring ∧ dimensionLock d' = dimensionLock d) →
  dimensionLock d' ≤ dimensionLock d →
  dimensions_ok (set_dim name d' s).
Proof.
  intros Hs Hd Hok Hp Hp' Hr Hc Ha Hl. pose proof (dimensions_at s name d Hs Hd) as [_ Hphase].
  eapply (dimensions_ok_change s _ name d d'); try done.
  - cbn. destruct (main_thread s); cbn in *; rewrite ?Hr, ?Hc; try (by naive_solver).
    split_and!; [done|by apply Hphase|]. intros E. destruct Hphase as (_ & _ & Hj). destruct (Hj E) as [Hf Hq]. split; [done|].
    intros Eq. destruct (Ha Hf Eq) as [Eq' ->]. by apply Hq.
  - apply (todo_dimensions s Hs).
  - cbn. eauto.
  - cbn. intros Ho. split; [done|]. pose proof (within_bound s Hs Ho name d Hd) as Hw. cbn in Hw. lia.
Qed.

(** The main thread goes on, and no dimension changes. *)
Lemma dimensions_ok_main s s' :
  dimensions_ok s → dims s' = dims s → overflowed s' = overflowed s →
  (∀ name d, dimension_ok d → dimension_phase (main_thread s) name d → dimension_phase (main_thread s') name d) →
  NoDup (todo_of (main_thread s')) → todo_of (main_thread s') ⊆ (map_to_list (dims s)).*1 →
  group_thread s' = group_thread s ∨ group_thread s' = Some Group_testing → dimensions_ok s'.
Proof.
  intros Hs E Eo Hp Hn Hsub Hg. apply (dimensions_ok_keep s); try done.
  - intros name d Hd. apply Hp. by apply (dimensions_at s name d).
  - intros todo Ht. destruct Hg as [Hg|Hg]; rewrite Hg in Ht; [|done]. by apply (group_dimensions s Hs).
Qed.

Lemma dimensions_ok_step s s' : step s s' → dimensions_ok s → dimensions_ok s'.
Proof.
  intros Hstep Hs. pose proof (todo_dimensions s Hs) as [Hnodup Hsub].
  pose proof (λ name d, dimensions_at s name d Hs) as Hat.
  destruct Hstep as [| |name d Hd Hp Hc|name d Hd Hp|name d Hd Hp Hl|name d Hd Hp|todo Hg Ht|name todo d Hg Hd|Hg
    | | |d Hw Hc Hd|name todo d Hm Hd Hne|todo d Hm Hd|pos jobs todo p Hm Hr Hk Ep|todo Hm Hr|Hm|Hm Hr Hk|Hm Hg
    |Hm Hk|Hm Hk Hb|Hm Hc|todo Hm Hc Ht|name todo d Hm Hd|name todo d Hm Hd|name todo d Hm Hd Hp|name todo Hm Hw|Hm];
    try (destruct (Hat _ d Hd) as [Hok Hphase]);
    try (apply (dimensions_ok_main s); [done|done|done|cbn; try rewrite Hm; cbn; naive_solver|cbn..|]; 
      rewrite ?Hm in *; cbn in *; try done; auto; fail).
  - apply (dimensions_ok_moves s name d); dim_simpl; rewrite ?Hp; naive_solver.
  - apply (dimensions_ok_moves s name d); dim_simpl; rewrite ?Hp; eauto; try done. by intros ->.
  - apply (dimensions_ok_moves s name d); dim_simpl; rewrite ?Hp; eauto; try done. lia.
  - apply (dimensions_ok_moves s name d); dim_simpl; rewrite ?Hp; naive_solver.
  - (* group_tests *) apply (dimensions_ok_keep s); try done.
    cbn. intros todo'. destruct (group_running s); [|done]. intros [= <-]. by rewrite Ht.
  - (* group_releases *) eapply (dimensions_ok_change s _ name d); try done.
    + apply ok_release; [done|lia].
    + cbn. destruct (main_thread s); cbn in *; naive_solver lia.
    + cbn. intros ? [= <-]. eexists. split; [done|]. set_solver.
    + cbn. apply bound_release.
  - (* waiter_done *) eapply (dimensions_ok_change s _ overworld d); try done.
    + auto.
    + cbn. eauto.
    + cbn. intros Ho. split; [done|]. by apply (within_bound s Hs Ho overworld d).
  - (* main_initializes *) rewrite Hm in *. cbn in *. apply list.NoDup_cons in Hnodup as [Hnot Hnodup].
    assert (Hnone : processingThread d = None) by (by apply Hphase; left).
    eapply (dimensions_ok_change s _ name d); try done.
    + auto.
    + cbn. split_and!; [|naive_solver|done]. by split.
    + cbn. rewrite Hm. cbn. intros other e Hother. rewrite list.elem_of_cons. naive_solver.
    + cbn. rewrite Hm. set_solver.
    + cbn. eauto.
    + cbn. intros Ho. split; [done|]. by apply (within_bound s Hs Ho name d).
  - (* main_initializes_overworld *) rewrite Hm in *. cbn in *. apply list.NoDup_cons in Hnodup as [Hnot Hnodup].
    assert (Hnone : processingThread d = None) by (by apply Hphase; left).
    eapply (dimensions_ok_change s _ overworld d); try done.
    + auto.
    + cbn. split_and!; [|naive_solver|done]. by split.
    + cbn. rewrite Hm. cbn. intros other e Hother. rewrite list.elem_of_cons. naive_solver.
    + cbn. rewrite Hm. set_solver.
    + cbn. eauto.
    + cbn. intros Ho. split; [done|]. by apply (within_bound s Hs Ho overworld d).
  - (* main_initialized *) apply (dimensions_ok_main s); cbn; try done; [|constructor|apply list_subseteq_nil|auto].
    rewrite Hm. cbn. intros name d _ (Hp & Hc & Hr). assert (processingThread d ≠ None) by (intros E; apply Hp in E; inversion E). auto.
  - (* main_waited *) apply (dimensions_ok_keep s); cbn; rewrite ?Hm; try done.
    + intros name d Hd Hp. split; [apply Hp|]. left. rewrite Ht, elem_of_names. eauto.
    + rewrite Ht. apply NoDup_fst_map_to_list.
    + by rewrite Ht.
    + apply (group_dimensions s Hs).
  - (* main_stops_dimension *) rewrite Hm in *. cbn in *.
    eapply (dimensions_ok_change s _ name d); cbn; rewrite ?Hm; try done; auto; try naive_solver.
    intros Ho. split; [done|]. by apply (within_bound s Hs Ho name d).
  - (* main_releases *) rewrite Hm in *. cbn in *.
    eapply (dimensions_ok_change s _ name d); cbn; rewrite ?Hm; try done.
    + apply ok_release; done.
    + pose proof (lock_nonneg d Hok). unfold SEMAPHORE_MAX. naive_solver lia.
    + naive_solver.
    + eauto.
    + apply bound_release.
  - (* main_joins *) rewrite Hm in *. cbn in *.
    assert (Et : todo_of (if decide (name = overworld) then Main_future name todo else Main_stopping todo) = todo)
      by (by case_decide).
    eapply (dimensions_ok_change s _ name d); cbn -[decide]; rewrite ?Hm, ?Et; try done.
    + auto.
    + case_decide; (split; [cbn; by rewrite Hp|by right]).
    + intros other e Hne (Hp1 & Hc1 & _).
      assert (Hc2 : other ∈ todo ∨ level_cleared e = true).
      { destruct Hc1 as [Hc1|Hc1]; [|by right]. apply list.elem_of_cons in Hc1 as [?|?]; [done|by left]. }
      by case_decide.
    + by apply list.NoDup_cons in Hnodup as [_ ?].
    + set_solver.
    + eauto.
    + intros Ho. split; [done|]. by apply (within_bound s Hs Ho name d).
  - (* main_stopped *) apply (dimensions_ok_main s); cbn; rewrite ?Hm; try done; [|constructor|apply list_subseteq_nil|auto].
    intros name d _ [Hp [Hc|Hc]]; [inversion Hc|done].
Qed.
Lemma reachable_dimensions n s : worlds_reachable spawn n s → dimensions_ok s.
Proof.
  apply worlds_reachable_ind; [apply dimensions_ok_make|]. intros s1 s2 _. apply dimensions_ok_step.
Qed.

(** ** The other threads *)

Record threads_ok (s : Worlds) : Prop := {
  group_phase :
    match main_thread s with
    | Main_initializing _ | Main_spawning _ _ => group_thread s = None
    | Main_serving | Main_joining_group => group_thread s ≠ None
    | _ => group_thread s = Some Group_ended
    end;
  group_stops :
    match main_thread s with Main_initializing _ | Main_spawning _ _ | Main_serving => True
    | _ => group_running s = false end;
  future_phase :
    match main_thread s with
    | Main_initializing todo => overworld ∈ todo ↔ worldGenFuture s = None
    | Main_spawning _ todo => (overworld ∉ todo) ∧ worldGenFuture s = None
    | _ => worldGenFuture s ≠ None
    end
}.

Lemma threads_ok_make n todo :
  todo ≡ₚ (map_to_list default_dimensions).*1 → threads_ok (Worlds_make n todo).
Proof.
  intros Hp. split; cbn; [done|done|]. split; [done|]. intros _. rewrite Hp, elem_of_names. by eexists.
Qed.

Ltac at_main := repeat match goal with H : main_thread _ = _ |- _ => rewrite H in * end.

Lemma threads_ok_step s s' : step s s' → dimensions_ok s → threads_ok s → threads_ok s'.
Proof.
  intros Hstep Hd [Hg Hr Hf]. pose proof (todo_dimensions s Hd) as [Hn _].
  destruct Hstep; split; cbn -[decide] in *; at_main; cbn -[decide] in *; try done; try congruence.
  all: try (destruct (main_thread s); cbn in *; congruence).
  all: try (case_decide; cbn; done).
  all: try (destruct (main_thread s); auto; done).
  all: try (destruct (main_thread s); cbn in *; destruct_and?; naive_solver).
  - rewrite <- Hf, list.elem_of_cons. naive_solver.
  - apply list.NoDup_cons in Hn as [Hn _]. split; [exact Hn|]. apply Hf. by left.
  - intros E. apply Hf in E. inversion E.
Qed.

Lemma reachable_threads n s : worlds_reachable spawn n s → threads_ok s.
Proof.
  apply worlds_reachable_ind; [apply threads_ok_make|]. intros s1 s2 Hr Hs.
  by eapply threads_ok_step, reachable_dimensions.
Qed.

(** ** Ticks *)

(** The main thread has come to the point where it stops the dimensions. *)
Definition stopping_dimensions (m : main_pc) : bool :=
  match m with
  | Main_stopping _ | Main_releasing _ _ | Main_joining _ _ | Main_future _ _ | Main_stopped => true
  | _ => false
  end.

(** The tick of the world that is under way has come to a dimension. *)
Definition was_released (g : option group_pc) (name : string) : Z :=
  match g with Some (Group_releasing todo) => if decide (name ∈ todo) then 0 else 1 | _ => 0 end.

Definition released_evenly (s : Worlds) : Prop :=
  (∀ todo, group_thread s = Some (Group_releasing todo) → NoDup todo) ∧
  (stopping_dimensions (main_thread s) = false →
   ∃ k, ∀ name d, dims s !! name = Some d → dim_released d = k + was_released (group_thread s) name).

Lemma released_evenly_change s s' name d d' :
  released_evenly s → dims s !! name = Some d → dims s' = <[name := d']> (dims s) →
  dim_released d' = dim_released d → group_thread s' = group_thread s →
  (stopping_dimensions (main_thread s') = false → stopping_dimensions (main_thread s) = false) →
  released_evenly s'.
Proof.
  intros [Hn Hk] Hd E Er Eg Hm. split; rewrite Eg; [done|]. intros Hs. destruct (Hk (Hm Hs)) as [k Hk'].
  exists k. rewrite E. intros other e [[<- <-]|[Hne He]]%lookup_insert_Some; [rewrite Er|]; by apply Hk'.
Qed.
Lemma released_evenly_keep s s' :
  released_evenly s → dims s' = dims s → group_thread s' = group_thread s →
  (stopping_dimensions (main_thread s') = false → stopping_dimensions (main_thread s) = false) →
  released_evenly s'.
Proof. intros [Hn Hk] E Eg Hm. split; rewrite Eg; [done|]. rewrite E. auto. Qed.

Lemma released_evenly_step s s' : step s s' → threads_ok s → released_evenly s → released_evenly s'.
Proof.
  intros Hstep Hok Hs. pose proof (group_phase s Hok) as Hg.
  destruct Hstep as [| | | | | |todo Hgt Ht|name todo d Hgt Hd|Hgt| | | | | | | |Hm| | | | | | | |name todo d Hm Hd| | |];
    try (eapply (released_evenly_change s); [done|eassumption|reflexivity|done|done|cbn -[decide]; at_main; done]; fail);
    try (eapply (released_evenly_keep s); [done|done|done|cbn; at_main; done]; fail).
  - (* group_tests *) destruct Hs as [_ Hk]. destruct (group_running s); (split; [|intros Hm; destruct (Hk Hm) as [k Hk']]).
    + cbn. intros ? [= <-]. rewrite Ht. apply NoDup_fst_map_to_list.
    + exists k. intros name d Hd. rewrite (Hk' name d Hd), Hgt. cbn. rewrite decide_True; [done|].
      rewrite Ht, elem_of_names. eauto.
    + done.
    + exists k. intros name d Hd. by rewrite (Hk' name d Hd), Hgt.
  - (* group_releases *) destruct Hs as [Hn Hk]. pose proof (Hn _ Hgt) as Hnot. apply list.NoDup_cons in Hnot.
    split; [cbn; intros ? [= <-]; apply Hnot|]. intros Hm. destruct (Hk Hm) as [k Hk']. exists k. cbn.
    intros other e [[<- <-]|[Hne He]]%lookup_insert_Some.
    + cbn. rewrite (Hk' name d Hd), Hgt. cbn -[decide]. rewrite decide_True by set_solver.
      rewrite decide_False by apply Hnot. lia.
    + rewrite (Hk' other e He), Hgt. cbn -[decide]. by rewrite (decide_ext _ (other ∈ todo)) by set_solver.
  - (* group_ticked *) destruct Hs as [_ Hk]. split; [done|]. intros Hm. destruct (Hk Hm) as [k Hk']. exists (k + 1).
    intros name d Hd. rewrite (Hk' name d Hd), Hgt. cbn -[decide].
    rewrite decide_False by apply list.not_elem_of_nil. lia.
  - (* main_initialized *) destruct Hs as [_ Hk]. split; [done|]. rewrite Hm in *. intros _.
    destruct (Hk eq_refl) as [k Hk']. exists k. intros name d Hd. by rewrite (Hk' name d Hd), Hg.
  - destruct Hs as [Hn _]. done.
  - destruct Hs as [Hn _]. split; [done|]. cbn -[decide]. by case_decide.
Qed.

(** C36: no tick of the world is lost or made up on its way to a dimension: however the
    threads interleave, what a dimension was released is what it ticked, the tick it is
    in, and what its semaphore still holds, so that a dimension that fell behind catches
    up; and until the world is stopped the dimensions are released evenly, each as often
    as any other up to the tick that is under way. *)
Theorem dimension_ticks_accounted n s name d :
  worlds_reachable spawn n s → dims s !! name = Some d →
  0 ≤ dimensionLock d ∧ dim_released d = dim_ticks d + ticking d + dimensionLock d ∧
  (stopping_dimensions (main_thread s) = false →
   ∀ other e, dims s !! other = Some e → Z.abs (dim_released d - dim_released e) ≤ 1).
Proof.
  intros Hr Hd. destruct (dimensions_at s name d (reachable_dimensions n s Hr) Hd) as [Hok _].
  split_and!; [apply Hok|apply Hok|]. intros Hm other e He.
  assert (Hev : released_evenly s).
  { clear Hd Hok Hm He. revert s Hr. apply worlds_reachable_ind.
    - intros todo Hp. split; [done|]. intros _. exists 0.
      intros k d' Hd'. by rewrite (default_dimensions_lookup k d' Hd').
    - intros s s' Hr Hs. by eapply released_evenly_step, reachable_threads. }
  destruct Hev as [_ Hk]. destruct (Hk Hm) as [k Hk'].
  rewrite (Hk' name d Hd), (Hk' other e He). unfold was_released.
  destruct (group_thread s) as [[]|]; repeat case_decide; lia.
Qed.
(** *** A long start *)

(** The group serves and ticks; the pool has not come to any job yet, and the threads of
    the dimensions have not come to run. *)
Definition waiting_dimension (initialized : bool) (k : Z) : DimensionThread :=
  mk_DimensionThread true initialized k (Some Dim_starting) false k 0.
Definition serving (p : Pool Position2D) (k : Z) (o : bool) : Worlds :=
  mk_Worlds (<["end" := waiting_dimension true k]> (<["nether" := waiting_dimension true k]>
      {[overworld := waiting_dimension false k]}))
    true (Some Group_testing) (Some Gen_waiting) p Main_serving o.

(** A pool whose workers have not come to anything yet, with a job for each chunk. *)
Record untouched (workers0 : gmap Z (worker_pc Position2D)) (chunks : list Position2D) (p : Pool Position2D) : Prop := {
  un_workers : workers p = workers0;
  un_quiet : releasing p = [] ∧ cancelling p = None ∧ stayAlive p = true;
  un_counter : counter p = zlen chunks;
  un_jobs : job_tasks <$> jobQueue p = (λ pos, [pos]) <$> chunks;
  un_ran : ran p = []
}.

Lemma spawning_runs m r g f todo o jobs w chunks p :
  untouched w chunks p →
  ∃ p', steps (mk_Worlds m r g f p (Main_spawning jobs todo) o) (mk_Worlds m r g f p' (Main_spawning [] todo) o) ∧
    untouched w (chunks ++ jobs) p'.
Proof.
  revert chunks p. induction jobs as [|pos jobs IH]; intros chunks p Hp.
  { exists p. rewrite app_nil_r. split; [apply worlds_refl|done]. }
  destruct Hp as [Hw (Hr & Hk & Ha) Hc Hj Hn].
  pose (p1 := set_releasing [1] (push_job [pos] p).2).
  pose (p2 := set_releasing [] (set_counter (counter p1 + 1) p1)).
  destruct (IH (chunks ++ [pos]) p2) as (p' & Hs & Hp').
  { split; cbn; try done.
    - rewrite Hc, length_app. cbn. lia.
    - by rewrite !fmap_app, Hj. }
  exists p'. rewrite <- app_assoc in Hp'. split; [|exact Hp'].
  eapply worlds_cons; [by apply (main_adds_job _ _ pos jobs todo p1)|].
  eapply worlds_cons; [by apply (pool_works _ _ p2), (pool_release p1 1 [] [])|]. exact Hs.
Qed.

Lemma serving_reached n :
  ∃ p, worlds_reachable spawn n (serving p 0 false) ∧
    untouched (workers (PriorityThreadPool_make (A := Position2D) n)) spawn p.
Proof.
  pose (m0 := <[overworld := waiting_dimension false 0]> default_dimensions).
  pose (m1 := <["nether" := waiting_dimension true 0]> (<["end" := waiting_dimension true 0]> m0)).
  destruct (spawning_runs m0 false None None ["end"; "nether"] false spawn
    (workers (PriorityThreadPool_make (A := Position2D) n)) [] (PriorityThreadPool_make n)) as (p & Hs & Hp); [done|].
  exists p. split; [|exact Hp]. destruct Hp as [_ (Hr & _ & _) _ _ _].
  exists [overworld; "end"; "nether"]. split; [done|].
  eapply worlds_cons; [by apply (main_initializes_overworld _ _ ["end"; "nether"] Dimension_make)|].
  eapply worlds_steps_trans; [exact Hs|].
  eapply worlds_cons; [by apply (main_spawned _ _ ["end"; "nether"])|].
  eapply worlds_cons; [by apply (main_initializes _ _ "end" ["nether"] Dimension_make)|].
  eapply worlds_cons; [by apply (main_initializes _ _ "nether" [] Dimension_make)|].
  eapply worlds_cons; [by apply main_initialized|]. apply worlds_refl.
Qed.

Lemma serving_ticks p k o :
  ∃ o', steps (serving p k o) (serving p (k + 1) o') ∧ (SEMAPHORE_MAX ≤ k → o' = true).
Proof.
  pose (b := negb (bool_decide (1 ≤ SEMAPHORE_MAX - k))).
  exists (((o || b) || b) || b). split.
  - eapply worlds_cons; [by apply (group_tests _ _ [overworld; "end"; "nether"])|].
    eapply worlds_cons; [by apply (group_releases _ _ overworld ["end"; "nether"] (waiting_dimension false k))|].
    eapply worlds_cons; [by apply (group_releases _ _ "end" ["nether"] (waiting_dimension true k))|].
    eapply worlds_cons; [by apply (group_releases _ _ "nether" [] (waiting_dimension true k))|].
    eapply worlds_cons; [by apply group_ticked|]. apply worlds_refl.
  - intros Hk. unfold b. rewrite bool_decide_eq_false_2 by lia. cbn. by rewrite orb_true_r.
Qed.
Lemma serving_runs p k : ∃ o, steps (serving p 0 false) (serving p (Z.of_nat k) o) ∧ (SEMAPHORE_MAX < Z.of_nat k → o = true).
Proof.
  induction k as [|k (o & Hs & Ho)]; [exists false; split; [apply worlds_refl|done]|].
  destruct (serving_ticks p (Z.of_nat k) o) as (o' & Hs' & Ho'). exists o'.
  rewrite Nat2Z.inj_succ. split; [by eapply worlds_steps_trans|]. intros Hk. apply Ho'. lia.
Qed.

(** C38: a start that lasts more than a thousand ticks, fifty seconds, leaves the bounds of
    the semaphores of the dimensions: as long as a dimension is not initialised it ticks
    nothing, so that after a thousand and one ticks of its world a release has asked for more
    than [std::counting_semaphore<1000>] may hold, which is undefined; and nothing in
    the program keeps the start from being that slow. *)
Theorem long_start_overflows n :
  (∀ s name d, worlds_reachable spawn n s → dims s !! name = Some d →
    dim_isRunning d = true → dim_isInitialized d = false → SEMAPHORE_MAX < dim_released d → overflowed s = true) ∧
  ∃ s d, worlds_reachable spawn n s ∧ main_thread s = Main_serving ∧ World_isInitialized s = false ∧
    dims s !! overworld = Some d ∧ dim_released d = 1001 ∧ overflowed s = true.
Proof.
  split.
  - intros s name d Hr Hd Hrun Hinit Hk. pose proof (reachable_dimensions n s Hr) as Hs.
    destruct (dimensions_at s name d Hs Hd) as [[_ Ha _ Ht Hu] _].
    destruct (overflowed s) eqn:Ho; [done|]. pose proof (within_bound s Hs Ho name d Hd) as Hb. cbn in Hb.
    pose proof (Hu Hrun Hinit) as Hun. specialize (Ht Hun).
    assert (ticking d = 0) by (unfold ticking; by destruct Hun as [->| ->]). lia.
  - destruct (serving_reached n) as (p & Hp & _). destruct (serving_runs p 1001) as (o & Hs & Ho).
    exists (serving p (Z.of_nat 1001) o), (waiting_dimension false 1001).
    split_and!; [by eapply worlds_reachable_steps|done| |done|done|by apply Ho].
    apply bool_decide_eq_false_2. intros Hall. by specialize (Hall overworld _ eq_refl).
Qed.
(** ** The pool *)

Definition nobody_runs (p : Pool Position2D) : Prop := ∀ w l, workers p !! w ≠ Some (Wk_running l).

Lemma books_zero p : books p = 0 ↔ nobody_runs p.
Proof.
  unfold books, nobody_runs. split.
  - intros Hb w l Hw. assert (Hin : (w, Wk_running l) ∈ map_to_list (workers p)) by (by apply elem_of_map_to_list).
    apply list_elem_of_In in Hin.
    assert (Hf : List.In (w, Wk_running l)
      (List.filter (λ e, match e.2 with Wk_running _ => true | _ => false end) (map_to_list (workers p))))
      by (by apply filter_In).
    destruct (List.filter _ _); [done|cbn in *; lia].
  - intros Hn. destruct (List.filter _ _) as [|[w pc] l] eqn:E; [done|]. exfalso.
    assert (Hin : List.In (w, pc) ((w, pc) :: l)) by (by left). rewrite <- E in Hin.
    apply filter_In in Hin as [Hin Hb]. apply list_elem_of_In, elem_of_map_to_list in Hin.
    destruct pc; try done. by eapply Hn.
Qed.

Record pool_ok (n : nat) (p : Pool Position2D) : Prop := {
  pool_alive : stayAlive p = true;
  counter_nonneg : 0 ≤ counter p;
  releases_nonneg : Forall (λ k, 0 ≤ k) (releasing p);
  pool_workers : ∀ w, is_Some (workers p !! w) ↔ 0 ≤ w < Z.of_nat n;
  nobody_ended : ∀ w, workers p !! w ≠ Some Wk_ended;
  reads_old : ∀ k seen, cancelling p = Some (K_read k seen) → seen ≤ counter p
}.

Lemma pool_ok_make n : pool_ok n (PriorityThreadPool_make n).
Proof.
  split; cbn; try done.
  - intros w. split.
    + intros [pc Hw]. apply elem_of_list_to_map_2, list_elem_of_fmap in Hw as (i & [= -> ->] & Hi%elem_of_seq). lia.
    + intros Hw. exists Wk_testing. apply elem_of_list_to_map_1.
      * rewrite <- list_fmap_compose. apply NoDup_fmap_2; [intros ??; cbn; lia|apply NoDup_seq].
      * apply list_elem_of_fmap. exists (Z.to_nat w). rewrite Z2Nat.id by lia. split; [done|]. apply elem_of_seq. lia.
  - intros w Hw. apply elem_of_list_to_map_2, list_elem_of_fmap in Hw as (i & [=] & _).
Qed.

Lemma pool_ok_worker n p p' w pc pc' :
  pool_ok n p → workers p !! w = Some pc → pc' ≠ Wk_ended → workers p' = <[w := pc']> (workers p) →
  stayAlive p' = stayAlive p → releasing p' = releasing p → cancelling p' = cancelling p →
  counter p' = counter p ∨
    ((∀ k seen, cancelling p ≠ Some (K_read k seen)) ∧ 1 ≤ counter p ∧ counter p' = counter p - 1) →
  pool_ok n p'.
Proof.
  intros Hp Hw Hne Ew Es Er Ek Hc. pose proof Hp as [Ha Hn Hr Hws He Hk]. split; rewrite ?Ew, ?Es, ?Er, ?Ek; try done.
  - lia.
  - intros v. rewrite lookup_insert_is_Some, Hws.
    split; [|intros ?; destruct (decide (w = v)); [by left|by right]].
    intros [<-|[_ ?]]; [|done]. apply Hws. eauto.
  - intros v. rewrite lookup_insert_Some. intros [[_ ?]|[_ Hv]]; [done|]. by apply He in Hv.
  - intros k seen E. destruct Hc as [->|(Hno & _)]; [by apply (Hk k)|by apply Hno in E].
Qed.

Lemma pool_ok_step n p e p' : pool_step p e p' → pool_ok n p → pool_ok n p'.
Proof.
  intros Hs Hp. pose proof Hp as [Ha Hc Hr Hw He Hk].
  destruct Hs as [tasks Hk'|k l1 l2 Hr'|id j q Hk' Hq|Hk'|k Hk'|k seen Hk'|w Hw' Hk' Hc'|w Hw' Hk' Hq|
    w priority j Hw' Hk' Ha' Hj|w task tasks Hw'|w Hw'|w Hw' Ha'|w Hw' Ha']; try congruence;
    try (eapply (pool_ok_worker n p); [done|exact Hw'| |reflexivity|done..|by auto]; done).
  - split; cbn; try done; try congruence. apply Forall_app. split; [done|]. constructor; [lia|done].
  - rewrite Hr' in Hr. apply Forall_app in Hr as [H1 H2]. apply Forall_cons_1 in H2 as [Hk0 H2].
    split; cbn; try done; [lia|by apply Forall_app|]. intros k0 seen E. specialize (Hk k0 seen E). lia.
  - split; cbn; done.
  - split; cbn; done.
  - split; cbn; try done. by intros ?? [= <- <-].
  - specialize (Hk k seen Hk'). split; cbn; try done. unfold increment_write. case_decide; lia.
Qed.

(** What is known of the pool by how far the main thread has come. *)
Definition pool_phase (m : main_pc) (p : Pool Position2D) : Prop :=
  match m with
  | Main_initializing _ | Main_spawning _ _ => cancelling p = None
  | Main_serving => True
  | Main_joining_group | Main_cancelling => releasing p = [] ∧ cancelling p = None
  | Main_waiting => releasing p = [] ∧ jobQueue p = []
  | Main_reading => releasing p = [] ∧ jobQueue p = [] ∧ cancelling p = None ∧ nobody_runs p
  | _ => releasing p = [] ∧ jobQueue p = [] ∧ cancelling p = None ∧ nobody_runs p ∧ counter p = 0
  end.

Lemma nobody_runs_insert p p' w pc :
  nobody_runs p → (∀ l, pc ≠ Wk_running l) → workers p' = <[w := pc]> (workers p) → nobody_runs p'.
Proof.
  intros Hp Hpc E v l Hv. rewrite E in Hv. apply lookup_insert_Some in Hv as [[_ Hv]|[_ Hv]]; [by eapply Hpc|by eapply Hp].
Qed.

Lemma pool_phase_works m p p' : pool_step p P_work p' → pool_phase m p → pool_phase m p'.
Proof.
  intros Hs Hp. inversion Hs; subst; destruct m; cbn in *; destruct_and?; split_and?;
    try done; try congruence;
    try (eapply nobody_runs_insert; [eassumption| |reflexivity]; done);
    try match goal with H : releasing _ = [], H' : releasing _ = ?l1 ++ _ |- _ =>
      rewrite H in H'; by destruct l1 end.
  all: try lia.
  all: try match goal with H : jobQueue ?p = [], H' : jobQueue ?p !! _ = Some _ |- _ => rewrite H in H'; discriminate end.
  all: match goal with H : nobody_runs ?p, H' : workers ?p !! _ = Some (Wk_running _) |- _ => by apply H in H' end.
Qed.

Record pool_known (n : nat) (s : Worlds) : Prop := {
  known_ok : pool_ok n (generationPool s);
  known_phase : pool_phase (main_thread s) (generationPool s)
}.

Lemma pool_known_step n s s' : step s s' → pool_known n s → pool_known n s'.
Proof.
  intros Hstep [Hok Hp].
  destruct Hstep; split; cbn -[decide] in *; at_main; cbn -[decide] in *; try done; try (by destruct_and?; split_and?).
  - by eapply pool_ok_step.
  - by eapply pool_phase_works.
  - by eapply pool_ok_step.
  - subst p. eapply pool_ok_step; [|exact Hok].
    pose proof (pool_push (generationPool s) [pos]) as Hs. rewrite H0 in Hs. by apply Hs.
  - by subst p.
  - eapply pool_ok_step; [|exact Hok]. by apply pool_cancel_all.
  - destruct_and?. split_and?; [done..|]. by apply books_zero.
  - by case_decide.
Qed.

Lemma reachable_pool n s : worlds_reachable spawn n s → pool_known n s.
Proof.
  apply worlds_reachable_ind; [|intros s1 s2 _; apply pool_known_step]. intros todo _. split; [apply pool_ok_make|done].
Qed.

Lemma late_step n s s' :
  step s s' → pool_known n s → stopping_dimensions (main_thread s) = true →
  stopping_dimensions (main_thread s') = true ∧ taken (generationPool s') = taken (generationPool s).
Proof.
  intros Hstep [_ Hp] Hm.
  assert (Hq : jobQueue (generationPool s) = []) by (destruct (main_thread s); naive_solver).
  destruct Hstep as [p Hs| | | | | | | | | | | | | | | | | | | | | | | | | | |]; cbn -[decide] in *; at_main; try done; [|by case_decide].
  split; [done|]. inversion Hs; subst; try done. by rewrite Hq in *.
Qed.
Lemma late_steps n s s' :
  steps s s' → pool_known n s → stopping_dimensions (main_thread s) = true →
  taken (generationPool s') = taken (generationPool s).
Proof.
  induction 1 as [|s s1 s' Hs _ IH]; [done|]. intros Hk Hm. destruct (late_step n s s1 Hs Hk Hm) as [Hm' <-].
  apply IH; [by eapply pool_known_step|done].
Qed.

(** *** With the command line *)

Local Abbreviation psteps := (program_steps spawn).

Lemma program_worlds p p' : psteps p p' → steps (worlds p) (worlds p').
Proof.
  induction 1 as [|p p1 p' Hs _ IH]; [apply worlds_refl|]. destruct Hs; try exact IH. by eapply worlds_cons.
Qed.
Lemma program_reachable_worlds n p : program_reachable spawn n p → worlds_reachable spawn n (worlds p).
Proof. intros (todo & Ht & Hs). exists todo. split; [done|]. by apply program_worlds in Hs. Qed.
Lemma worlds_program s s' c : steps s s' → psteps (mk_Program s c) (mk_Program s' c).
Proof.
  induction 1 as [|s s1 s' Hs _ IH]; [apply program_refl|].
  eapply program_cons; [by apply (worlds_go_on _ (mk_Program s c) s1)|exact IH].
Qed.
Lemma program_steps_trans p p' p'' : psteps p p' → psteps p' p'' → psteps p p''.
Proof. induction 1 as [|p p1 p' Hs _ IH]; [done|]. intros H. eapply program_cons; eauto. Qed.

(** A level stays cleared. *)
Definition cleared (name : string) (s : Worlds) : Prop :=
  ∀ d, dims s !! name = Some d → level_cleared d = true.
Lemma cleared_change s name other d d' :
  cleared name s → dims s !! other = Some d → (level_cleared d = true → level_cleared d' = true) →
  cleared name (set_dim other d' s).
Proof. intros Hc Hd Hl e. cbn. intros [[<- <-]|[_ He]]%lookup_insert_Some; [by apply Hl, Hc|by apply Hc]. Qed.
Lemma cleared_step name s s' : step s s' → cleared name s → cleared name s'.
Proof.
  intros Hs Hc. destruct Hs; try exact Hc; match goal with Hd : dims s !! _ = Some ?d |- _ =>
    intros e He; cbn in He; refine (cleared_change s name _ d _ Hc Hd _ e He); done end.
Qed.

(** No dump begins when the overworld is cleared. *)
Lemma no_dump_begins p p' :
  psteps p p' → cleared overworld (worlds p) → console p ≠ Console_dumping → console p' ≠ Console_dumping.
Proof.
  induction 1 as [|p p1 p' Hs _ IH]; [done|]. intros Hc Hn. apply IH.
  - destruct Hs; try done. by eapply cleared_step.
  - destruct Hs as [| d ? Hd Hl | |]; try done. by rewrite (Hc d Hd) in Hl.
Qed.

(** C35: when the chunks of a dimension are cleared, no thread of the worlds uses them any more,
    and none will: the thread of the dimension has ended and so has that of the group, the queue
    of the generation pool is empty, no worker is in a job and none will be.  The one thread
    that is left is that of the command line: it begins no dump of a chunk any more, but the
    one it is in goes on ([dump_reads_cleared_chunks]). *)
Theorem level_cleared_when_idle n p name d :
  program_reachable spawn n p → dims (worlds p) !! name = Some d → level_cleared d = true →
  processingThread d = Some Dim_ended ∧ group_thread (worlds p) = Some Group_ended ∧
  books (generationPool (worlds p)) = 0 ∧ jobQueue (generationPool (worlds p)) = [] ∧
  (∀ p', program_steps spawn p p' → taken (generationPool (worlds p')) = taken (generationPool (worlds p))) ∧
  (name = overworld → console p ≠ Console_dumping → ∀ p', program_steps spawn p p' → console p' ≠ Console_dumping).
Proof.
  intros Hpr Hd Hc. pose proof (program_reachable_worlds n p Hpr) as Hr.
  destruct (dimensions_at (worlds p) name d (reachable_dimensions n _ Hr) Hd) as [Hok Hphase].
  pose proof (reachable_pool n _ Hr) as Hk.
  assert (Hm : stopping_dimensions (main_thread (worlds p)) = true)
    by (destruct (main_thread (worlds p)); cbn in *; naive_solver congruence).
  pose proof (group_phase _ (reachable_threads n _ Hr)) as Hg. pose proof (known_phase n _ Hk) as Hp.
  split_and!; [by apply Hok| | | | |].
  - destruct (main_thread (worlds p)); try done.
  - apply books_zero. destruct (main_thread (worlds p)); naive_solver.
  - destruct (main_thread (worlds p)); naive_solver.
  - intros p' Hs. eapply late_steps; [by apply program_worlds|done..].
  - intros -> Hn p' Hs. eapply no_dump_begins; [exact Hs| |done]. intros e He. congruence.
Qed.
(** ** The stop *)

Record known (n : nat) (s : Worlds) : Prop := {
  known_dimensions : dimensions_ok s;
  known_threads : threads_ok s;
  known_pool : pool_known n s
}.
Lemma reachable_known n s : worlds_reachable spawn n s → known n s.
Proof.
  intros Hr. split; [by eapply reachable_dimensions|by eapply reachable_threads|by apply reachable_pool].
Qed.
Lemma known_steps n s s' : steps s s' → known n s → known n s'.
Proof.
  induction 1 as [|s s1 s' Hs _ IH]; [done|]. intros [H1 H2 H3]. apply IH.
  split; [by eapply dimensions_ok_step|by eapply threads_ok_step|by eapply pool_known_step].
Qed.

(** A state from which one with [P] can be reached. *)
Definition can (s : Worlds) (P : Worlds → Prop) : Prop := ∃ s', steps s s' ∧ P s'.

Lemma can_now s (P : Worlds → Prop) : P s → can s P.
Proof. intros H. exists s. split; [apply worlds_refl|done]. Qed.
Lemma can_step s s' P : step s s' → can s' P → can s P.
Proof. intros Hs (s'' & Hs' & HP). exists s''. split; [by eapply worlds_cons|done]. Qed.
Lemma can_then n s (P Q : Worlds → Prop) :
  known n s → can s P → (∀ s', known n s' → P s' → can s' Q) → can s Q.
Proof.
  intros Hk (s' & Hs & HP) HQ. destruct (HQ s') as (s'' & Hs' & ?); [by eapply known_steps|done|].
  exists s''. split; [by eapply worlds_steps_trans|done].
Qed.

(** *** The workers *)

Definition works : relation (Pool Position2D) := λ p p', pool_step p P_work p'.

Lemma can_work s p P : rtc works (generationPool s) p → can (set_generationPool p s) P → can s P.
Proof.
  intros Hr Hc. revert Hc. remember (generationPool s) as q eqn:E. revert s E.
  induction Hr as [q|q q' p Hs _ IH]; intros s -> Hc.
  - by destruct s.
  - eapply can_step; [by apply (pool_works _ _ q')|]. by apply IH.
Qed.

(** A worker with nothing in the queue comes back to wait. *)
Lemma worker_waits n p w :
  pool_ok n p → jobQueue p = [] → cancelling p = None → nobody_runs p → 0 ≤ w < Z.of_nat n →
  rtc works p (set_worker w Wk_waiting p).
Proof.
  intros Hp Hq Hk Hn Hw. apply (pool_workers n p Hp) in Hw as [pc Hw].
  assert (Ht : ∀ q, stayAlive q = true → workers q !! w = Some Wk_testing → works q (set_worker w Wk_waiting q))
    by (intros q ??; by apply worker_goes_on).
  pose proof (pool_alive n p Hp) as Ha.
  destruct pc as [| |l| |].
  - replace (set_worker w Wk_waiting p) with p; [apply rtc_refl|].
    destruct p. unfold set_worker. cbn in *. by rewrite insert_id.
  - eapply rtc_l; [by apply (worker_finds_nothing p w); auto|].
    eapply rtc_l; [apply Ht; [done|apply lookup_insert_eq]|].
    unfold set_worker. cbn. rewrite insert_insert_eq. apply rtc_refl.
  - by apply Hn in Hw.
  - by apply rtc_once, Ht.
  - by apply (nobody_ended n p Hp) in Hw.
Qed.

(** The counter goes down to zero. *)
Lemma counter_drains n p k :
  pool_ok n p → (1 ≤ n)%nat → jobQueue p = [] → cancelling p = None → nobody_runs p → counter p = Z.of_nat k →
  ∃ p', rtc works p p' ∧ counter p' = 0.
Proof.
  revert p. induction k as [|k IH]; intros p Hp Hn Hq Hk Hr Hc; [exists p; split; [apply rtc_refl|done]|].
  pose proof (worker_waits n p 0 Hp Hq Hk Hr ltac:(lia)) as Hw.
  pose (p1 := set_worker 0 Wk_waiting p).
  pose (p2 := set_worker 0 Wk_acquired (set_counter (counter p - 1) p1)).
  assert (Hs : works p1 p2).
  { apply (worker_acquires p1 0); [apply lookup_insert_eq|cbn; congruence|cbn; lia]. }
  assert (Hp1 : pool_ok n p1).
  { destruct (pool_workers n p Hp 0) as [_ Hpc]. destruct (Hpc ltac:(lia)) as [pc Hpc'].
    by eapply (pool_ok_worker n p p1 0 pc Wk_waiting); auto. }
  destruct (IH p2) as (p' & Hs' & Hc'); try done.
  - by eapply pool_ok_step.
  - eapply (nobody_runs_insert p1 p2 0 Wk_acquired); [|done|done].
    by eapply (nobody_runs_insert p p1 0 Wk_waiting).
  - cbn. lia.
  - exists p'. split; [|done]. etransitivity; [exact Hw|]. by eapply rtc_l.
Qed.

(** A worker comes to the end of its job, and nobody else moves. *)
Lemma worker_finishes p w l :
  workers p !! w = Some (Wk_running l) →
  ∃ p', rtc works p p' ∧ workers p' = <[w := Wk_testing]> (workers p) ∧ cancelling p' = cancelling p.
Proof.
  revert p. induction l as [|task l IH]; intros p Hw.
  - eexists. split; [by apply rtc_once, worker_done|done].
  - destruct (IH (mk_Pool (jobQueue p) (counter p) (stayAlive p) (totalJobsPushed p)
      (<[w := Wk_running l]> (workers p)) (releasing p) (cancelling p) (taken p) (cancelled p) (ran p ++ [task])))
      as (p' & Hs & E & Ek); [apply lookup_insert_eq|].
    exists p'. split; [|cbn in E; by rewrite insert_insert_eq in E].
    eapply rtc_l; [by apply worker_runs|exact Hs].
Qed.

Lemma workers_finish p (ws : list Z) :
  ∃ p', rtc works p p' ∧ (∀ w l, w ∈ ws → workers p' !! w ≠ Some (Wk_running l)) ∧ cancelling p' = cancelling p.
Proof.
  induction ws as [|w ws (p1 & Hs & Hd & Hk)].
  - exists p. split_and!; [apply rtc_refl| |done]. intros w l Hw. inversion Hw.
  - destruct (workers p1 !! w) as [[| |l| |]|] eqn:E;
      try (exists p1; split_and!; [done| |done]; intros v l [->|Hv]%list.elem_of_cons; [congruence|by apply Hd]).
    destruct (worker_finishes p1 w l E) as (p2 & Hs2 & E2 & Ek2). exists p2.
    split_and!; [by etransitivity| |congruence].
    + intros v l' Hv. rewrite E2, lookup_insert_Some. intros [[_ ?]|[Hne Hl]]; [done|].
      apply list.elem_of_cons in Hv as [->|Hv]; [done|]. by eapply Hd.
Qed.

(** A cancellation under way comes to its end. *)
Lemma cancellation_ends p : ∃ p', rtc works p p' ∧ cancelling p' = None.
Proof.
  assert (Hread : ∀ q k seen, cancelling q = Some (K_read k seen) → ∃ q', works q q' ∧ cancelling q' = None).
  { intros q k seen E. eexists. split; [by eapply pool_increment_write|done]. }
  destruct (cancelling p) as [[k|k seen]|] eqn:E.
  - destruct (Hread (set_cancelling (Some (K_read k (counter p))) p) k (counter p) eq_refl) as (q & Hs & Hq).
    exists q. split; [|done]. eapply rtc_l; [by apply pool_increment_read|by apply rtc_once].
  - destruct (Hread p k seen E) as (q & Hs & Hq). exists q. split; [by apply rtc_once|done].
  - exists p. split; [apply rtc_refl|done].
Qed.

Lemma works_ok n p p' : rtc works p p' → pool_ok n p → pool_ok n p'.
Proof. induction 1; eauto using pool_ok_step. Qed.
Lemma works_phase m p p' : rtc works p p' → pool_phase m p → pool_phase m p'.
Proof. induction 1; eauto using pool_phase_works. Qed.

(** *** A dimension *)

Definition has_ended (m : main_pc) (name : string) (s : Worlds) : Prop :=
  main_thread s = m ∧ ∃ d, dims s !! name = Some d ∧ processingThread d = Some Dim_ended.

Lemma testing_ends m s name d :
  main_thread s = m → dims s !! name = Some d → processingThread d = Some Dim_testing → dim_isRunning d = false →
  can s (has_ended m name).
Proof.
  intros Hm Hd Hp Hr. eapply can_step; [by eapply dimension_tests|]. apply can_now. split; [done|].
  rewrite Hr. eexists. split; [apply lookup_insert_eq|done].
Qed.
Lemma ticking_ends m s name d :
  main_thread s = m → dims s !! name = Some d → processingThread d = Some Dim_ticking → dim_isRunning d = false →
  can s (has_ended m name).
Proof.
  intros Hm Hd Hp Hr. eapply can_step; [by eapply dimension_ticks|].
  eapply testing_ends; [done|apply lookup_insert_eq|done|done].
Qed.
Lemma dimension_ends m s name d :
  main_thread s = m → dims s !! name = Some d → processingThread d ≠ None →
  dim_isRunning d = false → (processingThread d = Some Dim_acquiring → 1 ≤ dimensionLock d) →
  can s (has_ended m name).
Proof.
  intros Hm Hd Hp Hr Hl. destruct (processingThread d) as [[| | | |]|] eqn:E; try done.
  - eapply can_step; [eapply dimension_starts; [exact Hd|done|by left]|].
    eapply testing_ends; [done|apply lookup_insert_eq|done|done].
  - by eapply testing_ends.
  - eapply can_step; [eapply dimension_acquires; [exact Hd|done|by apply Hl]|].
    eapply ticking_ends; [done|apply lookup_insert_eq|done|done].
  - by eapply ticking_ends.
  - apply can_now. split; [done|]. eauto.
Qed.

(** *** The main thread *)

Definition at_main (m : main_pc) (s : Worlds) : Prop := main_thread s = m.
Definition stopped : Worlds → Prop := at_main Main_stopped.

(** [_worldGenFuture] comes to its end, once the pool has nothing to do. *)
Lemma future_ends n s name todo :
  known n s → main_thread s = Main_future name todo → can s (at_main (Main_stopping todo)).
Proof.
  intros [Hd Ht Hp] Hm. pose proof (known_phase n s Hp) as Hq. pose proof (future_phase s Ht) as Hf.
  rewrite Hm in Hq, Hf. destruct Hq as (_ & _ & _ & Hn & Hc).
  assert (Ho : is_Some (dims s !! overworld)).
  { apply (elem_of_dom (D := gset string)). rewrite (names_of_dimensions s Hd).
    apply (elem_of_dom (D := gset string)). by eexists. }
  destruct Ho as [d Ho].
  assert (Hdone : ∀ s, worldGenFuture s = Some Gen_done → main_thread s = Main_future name todo →
    can s (at_main (Main_stopping todo))).
  { clear. intros s Hw Hm. eapply can_step; [by eapply main_waits_future|by apply can_now]. }
  assert (Hreading : ∀ s, worldGenFuture s = Some Gen_reading → main_thread s = Main_future name todo →
    counter (generationPool s) = 0 → dims s !! overworld = Some d → can s (at_main (Main_stopping todo))).
  { intros s1 Hw1 Hm1 Hc1 Ho1. eapply can_step; [by eapply waiter_done|]. by apply Hdone. }
  destruct (worldGenFuture s) as [[| |]|] eqn:Ew; [|by apply Hreading|by apply Hdone|done].
  eapply can_step; [apply waiter_passes; [done|by apply books_zero]|]. by apply Hreading.
Qed.

Lemma todo_is_there n s name todo :
  known n s → todo_of (main_thread s) = name :: todo → ∃ d, dims s !! name = Some d ∧ dimension_ok d ∧
    dimension_phase (main_thread s) name d.
Proof.
  intros Hk Ht. pose proof (todo_dimensions s (known_dimensions n s Hk)) as [_ Hsub]. rewrite Ht in Hsub.
  assert (Hd : is_Some (dims s !! name)) by (apply elem_of_names, Hsub; by left). destruct Hd as [d Hd].
  exists d. split; [done|]. by apply (dimensions_at s name d (known_dimensions n s Hk)).
Qed.

Lemma joining_ends n s name todo :
  known n s → main_thread s = Main_joining name todo → can s (at_main (Main_stopping todo)).
Proof.
  intros Hk Hm. destruct (todo_is_there n s name todo Hk) as (d & Hd & Hok & Hp); [by rewrite Hm|].
  rewrite Hm in Hp. destruct Hp as (Hp & _ & Hj). destruct (Hj eq_refl) as [Hr Hl].
  eapply (can_then n s (has_ended (Main_joining name todo) name) _ Hk); [by eapply dimension_ends|].
  intros s1 Hk1 (Hm1 & d1 & Hd1 & Hp1).
  eapply (can_then n s1 (at_main (if decide (name = overworld) then Main_future name todo else Main_stopping todo)) _ Hk1).
  - eapply can_step; [by eapply main_joins|by apply can_now].
  - intros s2 Hk2. case_decide; [by apply (future_ends n)|by apply can_now].
Qed.

Lemma releasing_ends n s name todo :
  known n s → main_thread s = Main_releasing name todo → can s (at_main (Main_stopping todo)).
Proof.
  intros Hk Hm. destruct (todo_is_there n s name todo Hk) as (d & Hd & _); [by rewrite Hm|].
  eapply (can_then n s (at_main (Main_joining name todo)) _ Hk).
  - eapply can_step; [by eapply main_releases|by apply can_now].
  - intros s1 Hk1. by apply (joining_ends n).
Qed.

Lemma stopping_ends n s todo : known n s → main_thread s = Main_stopping todo → can s stopped.
Proof.
  revert s. induction todo as [|name todo IH]; intros s Hk Hm.
  - eapply can_step; [by apply main_stopped|by apply can_now].
  - destruct (todo_is_there n s name todo Hk) as (d & Hd & _); [by rewrite Hm|].
    eapply (can_then n s (at_main (Main_releasing name todo)) _ Hk).
    { eapply can_step; [by eapply main_stops_dimension|by apply can_now]. }
    intros s1 Hk1 Hm1. eapply (can_then n s1 _ _ Hk1); [by apply (releasing_ends n s1 name todo)|exact IH].
Qed.

Lemma reading_ends n s : (1 ≤ n)%nat → known n s → main_thread s = Main_reading → can s stopped.
Proof.
  intros Hn Hk Hm. pose proof (known_pool n s Hk) as [Hok Hp]. rewrite Hm in Hp. destruct Hp as (_ & Hq & Hc & Hr).
  destruct (counter_drains n (generationPool s) (Z.to_nat (counter (generationPool s)))) as (p' & Hs & Hz); try done.
  { pose proof (counter_nonneg n _ Hok). lia. }
  eapply (can_then n s (λ s', main_thread s' = Main_reading ∧ counter (generationPool s') = 0) _ Hk).
  - eapply can_work; [exact Hs|]. by apply can_now.
  - intros s1 Hk1 [Hm1 Hz1].
    eapply (can_then n s1 (at_main (Main_stopping (map_to_list (dims s1)).*1)) _ Hk1).
    + eapply can_step; [by apply main_waited|by apply can_now].
    + intros s2 Hk2 Hm2. by eapply stopping_ends.
Qed.

Lemma waiting_ends n s : (1 ≤ n)%nat → known n s → main_thread s = Main_waiting → can s stopped.
Proof.
  intros Hn Hk Hm. destruct (cancellation_ends (generationPool s)) as (p1 & Hs1 & Hc1).
  destruct (workers_finish p1 (seqZ 0 (Z.of_nat n))) as (p2 & Hs2 & Hf2 & Hc2).
  assert (Hs : rtc works (generationPool s) p2) by (by etransitivity).
  pose proof (known_pool n s Hk) as [Hok Hp]. rewrite Hm in Hp.
  assert (Hr : nobody_runs p2).
  { intros w l Hw. apply (Hf2 w l); [|done]. apply elem_of_seqZ.
    pose proof (works_ok n _ _ Hs Hok) as Hok2. rewrite Z.add_0_l. apply (pool_workers n p2 Hok2). eauto. }
  eapply (can_then n s (at_main Main_reading) _ Hk).
  - eapply can_work; [exact Hs|].
    eapply can_step; [apply main_waits; [done|cbn; congruence|by apply books_zero]|by apply can_now].
  - intros s1 Hk1 Hm1. by eapply reading_ends.
Qed.

Lemma group_ends s todo :
  group_thread s = Some (Group_releasing todo) → todo ⊆ (map_to_list (dims s)).*1 →
  main_thread s = Main_joining_group → group_running s = false →
  can s (λ s', main_thread s' = Main_joining_group ∧ group_thread s' = Some Group_ended).
Proof.
  revert s. induction todo as [|name todo IH]; intros s Hg Hsub Hm Hr.
  - eapply can_step; [by apply group_ticked|].
    eapply can_step; [by apply group_tests|]. apply can_now. cbn. by rewrite Hr.
  - assert (Hd : is_Some (dims s !! name)) by (apply elem_of_names, Hsub; by left). destruct Hd as [d Hd].
    eapply can_step; [by eapply group_releases|]. apply IH; [done| |done|done].
    cbn. eapply names_insert; [done|]. etransitivity; [|exact Hsub]. set_solver.
Qed.

(** The program is stopping its worlds. *)
Definition stopping (m : main_pc) : Prop :=
  match m with Main_initializing _ | Main_spawning _ _ | Main_serving => False | _ => True end.

Lemma can_stop n s : (1 ≤ n)%nat → known n s → stopping (main_thread s) → can s stopped.
Proof.
  intros Hn Hk Hm.
  assert (Hcancel : ∀ s, known n s → main_thread s = Main_cancelling → can s stopped).
  { clear - Hn. intros s Hk Hm. pose proof (known_phase n s (known_pool n s Hk)) as Hp. rewrite Hm in Hp.
    eapply (can_then n s (at_main Main_waiting) _ Hk).
    - eapply can_step; [apply main_cancels; [done|apply Hp]|by apply can_now].
    - intros s1 Hk1 Hm1. by eapply waiting_ends. }
  pose proof (known_threads n s Hk) as [Hg Hrun Hf].
  destruct (main_thread s) as [| | | | | | |todo|name todo|name todo|name todo|] eqn:E; try done.
  - eapply (can_then n s (λ s', main_thread s' = Main_joining_group ∧ group_thread s' = Some Group_ended) _ Hk).
    + destruct (group_thread s) as [[|todo|]|] eqn:Eg; [| | |done].
      * eapply can_step; [by apply group_tests|]. apply can_now. cbn. by rewrite Hrun.
      * eapply group_ends; [done|by apply (group_dimensions s (known_dimensions n s Hk))|done|done].
      * by apply can_now.
    + intros s1 Hk1 [Hm1 Hg1]. eapply (can_then n s1 (at_main Main_cancelling) _ Hk1); [|apply Hcancel].
      eapply can_step; [by apply main_joins_group|by apply can_now].
  - by apply Hcancel.
  - by apply (waiting_ends n).
  - by apply (reading_ends n).
  - by apply (stopping_ends n s todo).
  - eapply (can_then n s _ _ Hk); [by apply (releasing_ends n s name todo)|].
    intros s1 Hk1. by apply (stopping_ends n).
  - eapply (can_then n s _ _ Hk); [by apply (joining_ends n s name todo)|].
    intros s1 Hk1. by apply (stopping_ends n).
  - eapply (can_then n s _ _ Hk); [by apply (future_ends n s name todo)|].
    intros s1 Hk1. by apply (stopping_ends n).
  - by apply can_now.
Qed.

Lemma stopped_cleared n s : known n s → stopped s →
  map_Forall (λ _ d, processingThread d = Some Dim_ended ∧ level_cleared d = true) (dims s).
Proof.
  intros Hk Hm name d Hd. destruct (dimensions_at s name d (known_dimensions n s Hk) Hd) as [Hok Hphase].
  rewrite Hm in Hphase. destruct Hphase as [_ Hc]. split; [by apply (cleared_ended d Hok)|done].
Qed.

(** C34: with at least one worker a stop of the worlds comes to its end: whatever has
    happened and however far the stop has come, there is a way for the threads to go on in
    which the main thread joins every one of them, clears the chunks of every dimension and
    ends.  No thread waits for another
    in a circle, and no loop of a thread keeps going on its own: the ticks under way, the
    jobs of the workers, a cancellation in its middle and the thread that waits for the
    spawn chunks are all brought to their ends. *)
Theorem stop_completes n s :
  (1 ≤ n)%nat → worlds_reachable spawn n s → stopping (main_thread s) →
  ∃ s', steps s s' ∧ main_thread s' = Main_stopped ∧
    map_Forall (λ _ d, processingThread d = Some Dim_ended ∧ level_cleared d = true) (dims s').
Proof.
  intros Hn Hr Hm. pose proof (reachable_known n s Hr) as Hk. destruct (can_stop n s Hn Hk Hm) as (s' & Hs & Hm').
  exists s'. split_and!; [done|done|]. apply (stopped_cleared n s'); [by eapply known_steps|done].
Qed.
(** ** When the world says that it is ready *)

Definition is_overworld_initialized (s : Worlds) : bool :=
  match worldGenFuture s with Some Gen_done => true | _ => false end.

(** The chunks of the spawn that the main thread has not added yet. *)
Definition unadded (m : main_pc) : list Position2D :=
  match m with
  | Main_initializing todo => if decide (overworld ∈ todo) then spawn else []
  | Main_spawning jobs _ => jobs
  | _ => []
  end.

Definition few_tasks (pc : worker_pc Position2D) : Prop :=
  match pc with Wk_running l => (length l ≤ 1)%nat | _ => True end.
Definition single_task (j : Job Position2D) : Prop := length (job_tasks j) = 1%nat.

(** What holds while the spawn chunks are generated. *)
Record generating (s : Worlds) : Prop := {
  gen_quiet : cancelling (generationPool s) = None;
  gen_released : match main_thread s with Main_spawning _ _ => True | _ => releasing (generationPool s) = [] end;
  gen_awake : awake (generationPool s);
  gen_accounted : accounted (generationPool s);
  gen_single : Forall single_task (jobQueue (generationPool s));
  gen_few : map_Forall (λ _ pc, few_tasks pc) (workers (generationPool s));
  gen_chunks : spawn ≡ₚ concat (job_tasks <$> jobQueue (generationPool s)) ++
    concat (job_tasks <$> taken (generationPool s)) ++ unadded (main_thread s)
}.

Definition before_stop (m : main_pc) : bool :=
  match m with Main_initializing _ | Main_spawning _ _ | Main_serving => true | _ => false end.

Lemma generating_works s p :
  pool_step (generationPool s) P_work p → stayAlive (generationPool s) = true →
  generating s → generating (set_generationPool p s).
Proof.
  intros Hs Ha [Hk Hrel Haw Hac Hsi Hfe Hch]. set (q := generationPool s) in *.
  assert (Hcare : careful q p).
  { destruct Haw as (_ & _ & Hr & _). split; [congruence|]. inversion Hs; subst; cbn; try done.
    rewrite H in Hr. apply Forall_app in Hr as [? Hr]. apply Forall_cons_1 in Hr as [_ ?]. by apply Forall_app. }
  split; cbn.
  - inversion Hs; subst; cbn; congruence.
  - destruct (main_thread s); try done; inversion Hs; subst; cbn; try done; rewrite Hrel in H; by destruct l1.
  - by eapply awake_step.
  - by eapply accounted_step.
  - inversion Hs; subst; cbn; try done. by apply Forall_delete.
  - inversion Hs; subst; cbn; try done; apply map_Forall_insert_2; try done.
    + apply list_elem_of_lookup_2 in H2. rewrite list.Forall_forall in Hsi. specialize (Hsi j H2).
      unfold few_tasks, single_task in *. lia.
    + specialize (Hfe w _ H). cbn in *. lia.
  - inversion Hs; subst; cbn; try done; try congruence. rewrite Hch, fmap_app, concat_app. cbn.
    rewrite (delete_Permutation _ _ _ H2) at 1. cbn. rewrite app_nil_r. solve_Permutation.
Qed.

(** A job is added for the first of the chunks that are left. *)
Lemma generating_adds s pos jobs todo p :
  main_thread s = Main_spawning (pos :: jobs) todo → releasing (generationPool s) = [] →
  p = set_releasing [1] (push_job [pos] (generationPool s)).2 → stayAlive (generationPool s) = true →
  generating s → generating (set_main_thread (Main_spawning jobs todo) (set_generationPool p s)).
Proof.
  intros Hm Hr -> Ha [Hk _ Haw Hac Hsi Hfe Hch]. set (q := generationPool s) in *. rewrite Hm in Hch.
  assert (Hs : pool_step q P_push (set_releasing [1] (push_job [pos] q).2)).
  { pose proof (pool_push q [pos] Hk) as Hs. by rewrite Hr in Hs. }
  split; cbn.
  - done.
  - done.
  - eapply awake_step; [exact Hs| |done|done]. split; [congruence|]. by repeat constructor.
  - by eapply accounted_step.
  - apply Forall_app. split; [done|]. by repeat constructor.
  - done.
  - rewrite Hch, fmap_app, concat_app. cbn. solve_Permutation.
Qed.

(** The overworld says that it is initialised when its thread that waits has ended. *)
Definition initialized_by_waiter (s : Worlds) : Prop :=
  is_overworld_initialized s = false → ∀ d, dims s !! overworld = Some d → dim_isInitialized d = false.

Lemma by_waiter_change s s' name d d' :
  initialized_by_waiter s → dims s !! name = Some d → dims s' = <[name := d']> (dims s) →
  dim_isInitialized d' = dim_isInitialized d ∨ name ≠ overworld →
  (is_overworld_initialized s' = false → is_overworld_initialized s = false) →
  initialized_by_waiter s'.
Proof.
  intros Hs Hd E Hi Hw Ho e. rewrite E, lookup_insert_Some. intros [[-> <-]|[_ He]]; [|by apply Hs; auto].
  destruct Hi as [->|?]; [|done]. apply Hs; auto.
Qed.
Lemma by_waiter_keep s s' :
  initialized_by_waiter s → dims s' = dims s →
  (is_overworld_initialized s' = false → is_overworld_initialized s = false) → initialized_by_waiter s'.
Proof. intros Hs E Hw Ho d. rewrite E. apply Hs. auto. Qed.

Lemma by_waiter_step s s' : step s s' → threads_ok s → initialized_by_waiter s → initialized_by_waiter s'.
Proof.
  intros Hstep Ht Hs. pose proof (future_phase s Ht) as Hf.
  destruct Hstep; at_main;
    try (eapply (by_waiter_keep s); [done|done|]; unfold is_overworld_initialized; cbn; at_main; done);
    try (eapply (by_waiter_change s); [done|eassumption|reflexivity|by auto|]; unfold is_overworld_initialized; cbn; at_main; done).
  - apply (by_waiter_keep s); try done. intros _. unfold is_overworld_initialized. by rewrite H.
  - apply (by_waiter_keep s); try done. intros _. unfold is_overworld_initialized. by rewrite H.
  - done.
  - apply (by_waiter_keep s); try done. intros _. unfold is_overworld_initialized. destruct Hf as [_ Hf]. by rewrite Hf.
Qed.

(** Before the stop, and before the overworld is initialised. *)
Definition starting_up (s : Worlds) : Prop :=
  before_stop (main_thread s) = true → is_overworld_initialized s = false → generating s.

Lemma not_ready s : dimensions_ok s → initialized_by_waiter s → is_overworld_initialized s = false → World_isInitialized s = false.
Proof.
  intros Hd Hw Ho. apply bool_decide_eq_false_2. intros Hall.
  assert (Hex : is_Some (dims s !! overworld)).
  { apply (elem_of_dom (D := gset string)). rewrite (names_of_dimensions s Hd).
    apply (elem_of_dom (D := gset string)). by eexists. }
  destruct Hex as [d Hd']. pose proof (Hall overworld d Hd') as Hi. cbn in Hi. by rewrite (Hw Ho d Hd') in Hi.
Qed.

(** The pool is the same. *)
Lemma generating_keep s s' :
  generating s → generationPool s' = generationPool s → unadded (main_thread s') = unadded (main_thread s) →
  match main_thread s' with
  | Main_spawning _ _ => True
  | _ => match main_thread s with Main_spawning _ _ => releasing (generationPool s) = [] | _ => True end
  end → generating s'.
Proof.
  intros [H1 H2 H3 H4 H5 H6 H7] Ep Eu Hr. split; rewrite ?Ep, ?Eu; try done.
  destruct (main_thread s'), (main_thread s); done.
Qed.

Lemma starting_up_step n s s' : worlds_reachable spawn n s → step s s' → initialized_by_waiter s → starting_up s → starting_up s'.
Proof.
  intros Hr Hstep Hw Hs. pose proof (reachable_dimensions n s Hr) as Hd. pose proof (reachable_threads n s Hr) as Ht.
  pose proof (pool_alive n _ (known_ok n s (reachable_pool n s Hr))) as Ha.
  pose proof (future_phase s Ht) as Hf. pose proof (todo_dimensions s Hd) as [Hn _].
  unfold starting_up in *.
  destruct Hstep; intros Hm' Ho'; unfold is_overworld_initialized in *; cbn -[decide] in *; at_main; cbn -[decide] in *;
    try done; try (apply (generating_keep s); [by auto|done|cbn; by at_main|cbn; at_main; by try destruct (main_thread s)]).
  - apply generating_works; auto.
  - by rewrite (not_ready s Hd Hw Ho') in *.
  - apply (generating_keep s); [|done|done|cbn; by destruct (main_thread s)]. apply Hs; [done|by rewrite H].
  - apply (generating_keep s); [|done|done|cbn; by destruct (main_thread s)]. apply Hs; [done|by rewrite H].
  - apply (generating_keep s); [by auto|done| |cbn; by at_main]. at_main. cbn -[decide].
    rewrite (decide_ext _ (overworld ∈ name :: todo)); [done|]. rewrite list.elem_of_cons. naive_solver.
  - by eapply generating_adds; auto.
  - destruct Hf as [Hf Hf']. apply (generating_keep s); [apply Hs; [done|by rewrite Hf']|done| |cbn; by at_main]. at_main. cbn -[decide].
    by rewrite decide_False.
  - by case_decide.
Qed.

Lemma starting_up_make n todo : todo ≡ₚ (map_to_list default_dimensions).*1 → generating (Worlds_make n todo).
Proof.
  intros Hp. assert (Hidle : ∀ w pc, workers (PriorityThreadPool_make (A := Position2D) n) !! w = Some pc → few_tasks pc).
  { intros w pc Hw. apply elem_of_list_to_map_2, list_elem_of_fmap in Hw as (i & [= -> ->] & _). done. }
  split; cbn -[decide]; [done|done|apply make_awake|apply make_accounted|done|exact Hidle|].
  rewrite decide_True; [done|]. rewrite Hp, elem_of_names. by eexists.
Qed.

Lemma reachable_starting_up n s : worlds_reachable spawn n s → starting_up s.
Proof.
  intros Hr. assert (H : initialized_by_waiter s ∧ starting_up s); [|apply H]. revert s Hr.
  apply worlds_reachable_ind.
  - intros todo Hp. split; [|intros _ _; by apply starting_up_make].
    intros _ d Hd. by rewrite (default_dimensions_lookup _ d Hd).
  - intros s s' Hr Hs [Hw Hu]. split; [eapply by_waiter_step; [done|by eapply reachable_threads|done]|by eapply starting_up_step].
Qed.

(** A worker has a token, a task or neither. *)
Lemma tokens_and_tasks (m : gmap Z (worker_pc Position2D)) :
  map_Forall (λ _ pc, few_tasks pc) m → tokens m + zlen (remaining m) ≤ Z.of_nat (size m).
Proof.
  intros Hm. unfold tokens, remaining. rewrite <- length_map_to_list.
  assert (Hf : Forall (λ e, few_tasks e.2) (map_to_list m)).
  { apply list.Forall_forall. intros [w pc] He%elem_of_map_to_list. by apply (Hm w). }
  induction Hf as [|[w pc] l Hpc Hl IH]; [done|]. cbn -[sum] in *. rewrite sum_cons, length_app.
  destruct pc; cbn in *; lia.
Qed.
Lemma workers_number n p : pool_ok n p → size (workers p) = n.
Proof.
  intros Hp. rewrite <- (size_dom (D := gset Z)).
  assert (E : dom (workers p) = list_to_set (C := gset Z) (seqZ 0 (Z.of_nat n))).
  { apply set_eq. intros w. rewrite elem_of_dom, (pool_workers n p Hp), elem_of_list_to_set, elem_of_seqZ. lia. }
  rewrite E, size_list_to_set by apply NoDup_seqZ. rewrite length_seqZ. lia.
Qed.
Lemma single_tasks (l : list (Job Position2D)) : Forall single_task l → length (concat (job_tasks <$> l)) = length l.
Proof. induction 1 as [|j l Hj _ IH]; [done|]. cbn. rewrite length_app, IH. unfold single_task in Hj. lia. Qed.

(** C37: when the overworld says that it is initialised while the server serves, nearly all of
    the spawn chunks have been generated: those that are missing are at most as many as the
    pool has workers.  (The thread that waits looks at the jobs under way first, and then at the
    semaphore of the pool, which a worker that is about to take a job has already passed.  A
    stop during the start cancels the jobs, and the overworld says it all the same.) *)
Theorem ready_when_nearly_done n s s' :
  worlds_reachable spawn n s → main_thread s = Main_serving → step s s' →
  is_overworld_initialized s = false → is_overworld_initialized s' = true →
  ∃ missing, spawn ≡ₚ ran (generationPool s') ++ missing ∧ (length missing ≤ n)%nat.
Proof.
  intros Hr Hm Hs Hi Hi'.
  assert (Hc : counter (generationPool s) = 0 ∧ generationPool s' = generationPool s).
  { unfold is_overworld_initialized in *. destruct Hs; cbn in *; try congruence; done. }
  destruct Hc as [Hc ->]. pose proof (known_ok n s (reachable_pool n s Hr)) as Hok.
  destruct (reachable_starting_up n s Hr) as [Hk Hrel Haw [_ Hac] Hsi Hfe Hch]; [by rewrite Hm|done|].
  rewrite Hm in Hch, Hrel. set (p := generationPool s) in *.
  exists (concat (job_tasks <$> jobQueue p) ++ remaining (workers p)). split.
  - rewrite Hch, Hac. cbn. solve_Permutation.
  - destruct Haw as (Hlen & _). rewrite Hk, Hrel, Hc in Hlen. change (sum []) with 0 in Hlen.
    pose proof (tokens_and_tasks (workers p) Hfe) as Ht. rewrite (workers_number n p Hok) in Ht.
    rewrite length_app, (single_tasks _ Hsi). lia.
Qed.

(** One worker runs its jobs, up to the last one, which it is about to take. *)
Lemma worker_about_to_take p :
  workers p !! 0 = Some Wk_testing → stayAlive p = true → cancelling p = None → 1 ≤ counter p →
  rtc works p (set_worker 0 Wk_acquired (set_counter (counter p - 1) p)).
Proof.
  intros Hw Ha Hk Hc. eapply rtc_l; [by apply (worker_goes_on p 0)|].
  eapply rtc_l; [apply (worker_acquires _ 0); [apply lookup_insert_eq|cbn; congruence|done]|].
  unfold set_worker, set_counter. cbn. rewrite insert_insert_eq. apply rtc_refl.
Qed.

Lemma worker_does_one p pos chunks done_ :
  workers p !! 0 = Some Wk_testing → untouched (workers p) (pos :: chunks) (mk_Pool (jobQueue p) (counter p)
    (stayAlive p) (totalJobsPushed p) (workers p) (releasing p) (cancelling p) (taken p) (cancelled p) []) →
  ran p = done_ →
  ∃ p', rtc works p p' ∧ workers p' = workers p ∧ ran p' = done_ ++ [pos] ∧
    untouched (workers p) chunks (mk_Pool (jobQueue p') (counter p') (stayAlive p') (totalJobsPushed p')
      (workers p') (releasing p') (cancelling p') (taken p') (cancelled p') []).
Proof.
  intros Hw [_ (Hr & Hk & Ha) Hc Hj _] Hn. cbn in *.
  destruct (jobQueue p) as [|j q] eqn:Eq; [done|]. cbn in Hj. injection Hj as Hjt Hq.
  pose (p2 := set_worker 0 Wk_acquired (set_counter (counter p - 1) p)).
  assert (Hb : best_job (λ _, 0) (jobQueue p) = 0%nat).
  { destruct (best_job_least (λ _ : Job Position2D, 0) (jobQueue p)) as (k & Hk' & Hl); [by rewrite Eq|].
    assert (H0 : jobQueue p !! 0%nat = Some j) by (by rewrite Eq). destruct (Hl 0%nat j H0) as [_ Hle].
    specialize (Hle eq_refl). lia. }
  pose proof (worker_takes p2 0 (λ _, 0) j) as Htake. cbn in Htake. rewrite Hb, Eq in Htake. cbn in Htake.
  rewrite Hjt, insert_insert_eq in Htake.
  eexists. split_and!.
  - etransitivity; [apply worker_about_to_take; try done; lia|].
    eapply rtc_l; [apply Htake; [apply lookup_insert_eq|done..]|].
    eapply rtc_l; [eapply (worker_runs _ 0 pos []); apply lookup_insert_eq|].
    eapply rtc_l; [apply (worker_done _ 0); apply lookup_insert_eq|]. apply rtc_refl.
  - cbn. rewrite !insert_insert_eq. by apply insert_id.
  - cbn. by rewrite Hn.
  - split; cbn; try done; [|lia]. rewrite !insert_insert_eq. by apply insert_id.
Qed.

Lemma works_all_but_one chunks last p done_ :
  workers p !! 0 = Some Wk_testing → untouched (workers p) (chunks ++ [last]) (mk_Pool (jobQueue p) (counter p)
    (stayAlive p) (totalJobsPushed p) (workers p) (releasing p) (cancelling p) (taken p) (cancelled p) []) →
  ran p = done_ →
  ∃ p', rtc works p p' ∧ workers p' = <[0 := Wk_acquired]> (workers p) ∧ counter p' = 0 ∧ ran p' = done_ ++ chunks.
Proof.
  revert p done_. induction chunks as [|pos chunks IH]; intros p done_ Hw Hp Hn.
  - destruct Hp as [_ (Hr & Hk & Ha) Hc _ _]. cbn in *. eexists. split_and!.
    + apply worker_about_to_take; try done. lia.
    + done.
    + cbn. lia.
    + cbn. by rewrite app_nil_r.
  - destruct (worker_does_one p pos (chunks ++ [last]) done_ Hw Hp Hn) as (p1 & Hs1 & Hw1 & Hn1 & Hp1).
    destruct (IH p1 (done_ ++ [pos])) as (p2 & Hs2 & Hw2 & Hc2 & Hn2); [by rewrite Hw1|by rewrite <- Hw1 in Hp1|done|].
    exists p2. split_and!; [by etransitivity|by rewrite Hw2, Hw1|done|]. by rewrite Hn2, <- app_assoc.
Qed.

Lemma ready_before_last chunks last :
  spawn = chunks ++ [last] →
  ∃ s, worlds_reachable spawn 1 s ∧ main_thread s = Main_serving ∧ World_isInitialized s = true ∧
    ran (generationPool s) = chunks.
Proof.
  intros E. destruct (serving_reached 1) as (p & Hp & Hun).
  destruct (works_all_but_one chunks last p []) as (p' & Hs & Hw & Hc & Hn).
  { destruct Hun as [-> _ _ _ _]. done. }
  { rewrite <- E. destruct Hun as [Hw ? ? ? ?]. by split. }
  { by destruct Hun. }
  pose (s1 := set_generationPool p' (serving p 0 false)).
  exists (set_worldGenFuture Gen_done (set_dim overworld (waiting_dimension true 0) (set_worldGenFuture Gen_reading s1))).
  split_and!; [|done| |done].
  - eapply worlds_reachable_steps; [exact Hp|].
    assert (H1 : steps (serving p 0 false) s1).
    { destruct (can_work (serving p 0 false) p' (λ s, s = s1)) as (s & ? & ->); [exact Hs|by apply can_now|done]. }
    eapply worlds_steps_trans; [exact H1|].
    eapply worlds_cons; [apply (waiter_passes _ s1); [done|]|].
    { apply books_zero. intros w l. cbn. rewrite Hw. destruct Hun as [-> _ _ _ _].
      intros [[_ ?]|[_ Hl]]%lookup_insert_Some; [done|].
      apply elem_of_list_to_map_2, list_elem_of_fmap in Hl as (i & [= _ ?] & _). }
    eapply worlds_cons; [by apply (waiter_done _ _ (waiting_dimension false 0))|]. apply worlds_refl.
  - by vm_compute.
Qed.
End Runs.

(** It may say so too early: with one worker the world comes to a state in which it
    is initialised and lets players in, while the last of its spawn chunks is missing. *)
Theorem ready_before_the_last chunks last :
  ∃ s, worlds_reachable (chunks ++ [last]) 1 s ∧ main_thread s = Main_serving ∧ World_isInitialized s = true ∧
    ran (generationPool s) = chunks.
Proof. by apply (ready_before_last (spawn := chunks ++ [last]) chunks last). Qed.

(** ** Examples *)

Lemma serving_example :
  ∃ p, worlds_reachable [mk_Position2D 0 0] 1 (serving p 0 false) ∧ releasing p = [] ∧ cancelling p = None.
Proof.
  destruct (serving_reached (spawn := [mk_Position2D 0 0]) 1) as (p & Hp & [_ (? & ? & _) _ _ _]). by exists p.
Qed.

Lemma dimension_ticks_accounted_witness :
  ∃ s d, worlds_reachable [mk_Position2D 0 0] 1 s ∧ dims s !! overworld = Some d ∧
    dim_released d = dim_ticks d + ticking d + dimensionLock d.
Proof.
  destruct serving_example as (p & Hp & _). exists (serving p 0 false), (waiting_dimension false 0).
  split_and!; [exact Hp|reflexivity|].
  apply (dimension_ticks_accounted (spawn := [mk_Position2D 0 0]) 1 (serving p 0 false) overworld (waiting_dimension false 0) Hp).
  reflexivity.
Defined.

(** A run to the end of a stop. *)
Lemma stopping_example :
  ∃ s, worlds_reachable [mk_Position2D 0 0] 1 s ∧ main_thread s = Main_joining_group.
Proof.
  destruct serving_example as (p & Hp & Hr & Hk).
  exists (set_main_thread Main_joining_group (set_group_running false (serving p 0 false))).
  split; [|done]. eapply worlds_reachable_steps; [exact Hp|].
  apply worlds_steps_one, main_stops; done.
Qed.

Lemma stop_completes_witness :
  ∃ s, worlds_reachable [mk_Position2D 0 0] 1 s ∧ main_thread s = Main_joining_group ∧
    ∃ s', worlds_steps [mk_Position2D 0 0] s s' ∧ main_thread s' = Main_stopped.
Proof.
  destruct stopping_example as (s & Hs & Hm). exists s. split_and!; [exact Hs|exact Hm|].
  destruct (stop_completes (spawn := [mk_Position2D 0 0]) 1 s ltac:(lia) Hs ltac:(rewrite Hm; exact I))
    as (s' & Hs' & Hm' & _).
  exists s'. split; [exact Hs'|exact Hm'].
Defined.

Lemma stopped_example :
  ∃ s d, worlds_reachable [mk_Position2D 0 0] 1 s ∧ dims s !! overworld = Some d ∧ level_cleared d = true.
Proof.
  destruct stopping_example as (s & Hs & Hm). pose proof (reachable_known 1 s Hs) as Hk.
  destruct (can_stop (spawn := [mk_Position2D 0 0]) 1 s) as (s' & Hs' & Hm'); [lia|done|by rewrite Hm|].
  assert (Hk' : known 1 s') by (by eapply known_steps).
  assert (Hex : is_Some (dims s' !! overworld)).
  { apply (elem_of_dom (D := gset string)). rewrite (names_of_dimensions s' (known_dimensions 1 s' Hk')).
    apply (elem_of_dom (D := gset string)). by eexists. }
  destruct Hex as [d Hd]. exists s', d. split_and!; [by eapply worlds_reachable_steps|done|].
  by apply (stopped_cleared 1 s' Hk' Hm' overworld d).
Qed.

Lemma level_cleared_when_idle_witness :
  ∃ p d, program_reachable [mk_Position2D 0 0] 1 p ∧ dims (worlds p) !! overworld = Some d ∧ level_cleared d = true ∧
    group_thread (worlds p) = Some Group_ended ∧ books (generationPool (worlds p)) = 0.
Proof.
  destruct stopped_example as (s & d & (todo & Ht & Hs) & Hd & Hc). exists (mk_Program s Console_polling), d.
  assert (Hp : program_reachable [mk_Position2D 0 0] 1 (mk_Program s Console_polling)).
  { exists todo. split; [exact Ht|]. exact (worlds_program _ _ _ Hs). }
  split_and!; [exact Hp|exact Hd|exact Hc|..].
  - apply (level_cleared_when_idle (spawn := [mk_Position2D 0 0]) 1 _ overworld d Hp Hd Hc).
  - apply (level_cleared_when_idle (spawn := [mk_Position2D 0 0]) 1 _ overworld d Hp Hd Hc).
Defined.

(** The command line is stopped after the worlds: a dump that it has begun still reads the chunk
    when the level is cleared. *)
Lemma dump_reads_cleared_chunks :
  ∃ p d, program_reachable [mk_Position2D 0 0] 1 p ∧ dims (worlds p) !! overworld = Some d ∧
    level_cleared d = true ∧ console p = Console_dumping.
Proof.
  destruct (serving_reached (spawn := [mk_Position2D 0 0]) 1) as (p & (todo & Ht & Hp) & Hun).
  destruct (worker_does_one p (mk_Position2D 0 0) [] []) as (p' & Hs & Hw & Hn & [_ (Hr & Hk & _) _ _ _]).
  { destruct Hun as [-> _ _ _ _]. done. }
  { destruct Hun as [Hw ? ? ? ?]. by split. }
  { by destruct Hun. }
  cbn in Hr, Hk. pose (s1 := set_generationPool p' (serving p 0 false)).
  pose (s2 := set_main_thread Main_joining_group (set_group_running false s1)).
  assert (H1 : worlds_steps [mk_Position2D 0 0] (Worlds_make 1 todo) s1).
  { eapply worlds_steps_trans; [exact Hp|].
    by destruct (can_work (spawn := [mk_Position2D 0 0]) (serving p 0 false) p' (λ s, s = s1)) as (s & ? & ->);
      [exact Hs|apply can_now|]. }
  assert (H2 : worlds_step [mk_Position2D 0 0] s1 s2) by (by apply main_stops).
  assert (Hk2 : known 1 s2).
  { eapply reachable_known. exists todo. split; [done|]. eapply worlds_steps_trans; [exact H1|by apply worlds_steps_one]. }
  destruct (can_stop (spawn := [mk_Position2D 0 0]) 1 s2) as (s3 & H3 & Hm3); [lia|done|done|].
  pose proof (known_steps 1 s2 s3 H3 Hk2) as Hk3.
  assert (Hex : is_Some (dims s3 !! overworld)).
  { apply (elem_of_dom (D := gset string)). rewrite (names_of_dimensions s3 (known_dimensions 1 s3 Hk3)).
    apply (elem_of_dom (D := gset string)). by eexists. }
  destruct Hex as [d Hd]. exists (mk_Program s3 Console_dumping), d.
  split_and!; [|done|by apply (stopped_cleared 1 s3 Hk3 Hm3 overworld d)|done].
  exists todo. split; [done|]. eapply program_steps_trans; [apply (worlds_program _ _ _ H1)|].
  eapply program_cons; [apply (console_dumps _ (mk_Program s1 Console_polling) (waiting_dimension false 0)); try done|].
  { cbn. by rewrite Hn. }
  eapply program_cons; [by apply (worlds_go_on _ (mk_Program s1 Console_dumping) s2)|]. by apply worlds_program.
Qed.

(** The moment when the overworld is initialised: no chunk has been generated, and one is
    missing. *)
Lemma ready_example :
  ∃ s s', worlds_reachable [mk_Position2D 0 0] 1 s ∧ main_thread s = Main_serving ∧
    worlds_step [mk_Position2D 0 0] s s' ∧ is_overworld_initialized s = false ∧ is_overworld_initialized s' = true.
Proof.
  destruct (serving_reached (spawn := [mk_Position2D 0 0]) 1) as (p & Hp & Hun).
  destruct (works_all_but_one [] (mk_Position2D 0 0) p []) as (p' & Hs & Hw & Hc & Hn).
  { destruct Hun as [-> _ _ _ _]. done. }
  { destruct Hun as [Hw ? ? ? ?]. by split. }
  { by destruct Hun. }
  pose (s1 := set_worldGenFuture Gen_reading (set_generationPool p' (serving p 0 false))).
  exists s1, (set_worldGenFuture Gen_done (set_dim overworld (waiting_dimension true 0) s1)).
  split_and!; [|done| |done|done].
  - destruct (can_work (spawn := [mk_Position2D 0 0]) (serving p 0 false) p' (λ s, s = set_generationPool p' (serving p 0 false)))
      as (s & Hs' & ->); [exact Hs|by apply can_now|].
    eapply worlds_reachable_steps; [exact Hp|]. eapply worlds_steps_trans; [exact Hs'|].
    apply worlds_steps_one, waiter_passes; [done|]. apply books_zero. intros w l. cbn. rewrite Hw.
    destruct Hun as [-> _ _ _ _]. intros [[_ ?]|[_ Hl]]%lookup_insert_Some; [done|].
    apply elem_of_list_to_map_2, list_elem_of_fmap in Hl as (i & [= _ ?] & _).
  - by apply (waiter_done _ _ (waiting_dimension false 0)).
Qed.

Lemma ready_when_nearly_done_witness :
  ∃ s missing, [mk_Position2D 0 0] ≡ₚ ran (generationPool s) ++ missing ∧ (length missing ≤ 1)%nat.
Proof.
  destruct ready_example as (s & s' & Hr & Hm & Hs & Hi & Hi').
  destruct (ready_when_nearly_done (spawn := [mk_Position2D 0 0]) 1 s s' Hr Hm Hs Hi Hi') as (missing & Hp & Hl).
  exists s', missing. split; [exact Hp|exact Hl].
Defined.
