(* ===== verification/Dimension.v ===== *)
(** * Dimensions (Dimension.hpp, Dimension.cpp)

    The players and the entities of a dimension, the chunks that are being
    loaded, and the updates that go to every player. *)

From S2P Require Import Prelude State Types Floats Structures ChunkColumn Level ClientPackets CreatePackets Network Game.

Section Dimension.
Context `{Cfb8} `{JobPool}.

(** ** Entities and players *)

Definition Dimension_getEntityByID (id : Z) : M Game Z :=
  l ← in_dimension _entities;
  if decide (id ∈ l) then mret id else raise std_runtime_error.

Definition Dimension_addEntity (id : Z) : M Game unit :=
  on_dimension (modify (λ d, set_entities (_entities d ++ [id]) d)).
Definition Dimension_addPlayer (id : Z) : M Game unit :=
  on_dimension (modify (λ d, set_players (_players d ++ [id]) d)).

Definition each_player (f : Z → M Game unit) : M Game unit :=
  l ← in_dimension _players; for_each l f.

Definition Dimension_removeEntity (id : Z) : M Game unit :=
  _ ← on_dimension (modify (λ d, set_entities (filter (λ i, i ≠ id) (_entities d)) d));
  each_player (λ player, Player_sendRemoveEntities player [id]).
Definition Dimension_removePlayer (id : Z) : M Game unit :=
  _ ← on_dimension (modify (λ d, set_players (filter (λ i, i ≠ id) (_players d)) d));
  each_player (λ player, Player_sendRemoveEntities player [id]).

(** The packet that shows a player to another. *)
Definition spawn_packet (id : Z) (p : Player) : SpawnPlayer :=
  mk_SpawnPlayer id (_uuid p) (bits_of_double (v3x (_pos p))) (bits_of_double (v3y (_pos p)))
    (bits_of_double (v3z (_pos p))) (v2x (_rot p)) (v2z (_rot p)).

Definition Dimension_spawnPlayer (current : Z) : M Game unit :=
  each_player (λ player,
    _ ← (if decide (player ≠ current) then
           c ← this_player current;
           _ ← Player_sendSpawnPlayer player (spawn_packet current c);
           p ← this_player player;
           Player_sendSpawnPlayer current (spawn_packet player p)
         else mret tt);
    _ ← Player_sendSkinLayers player current;
    Player_sendSkinLayers current player).

(** An entity that is not a player: the identifier stands for its UUID too. *)
Definition Dimension_spawnEntity (id type : Z) (pos : Vector3 double) : M Game unit :=
  each_player (λ player, Player_sendSpawnEntity player
    (mk_SpawnEntity id (mk_u128 (to_u64 id) (to_u64 id)) type (bits_of_double (v3x pos))
       (bits_of_double (v3y pos)) (bits_of_double (v3z pos)) 0 0 0 0 16 0 0)).

Definition Dimension_addEntityMetadata (metadata : SetEntityMetadata) : M Game unit :=
  each_player (λ player, Player_sendSetEntityMetadata player metadata).
Definition Dimension_updateEntityAttributes (attributes : UpdateAttributes) : M Game unit :=
  each_player (λ player, Player_sendUpdateAttributes player attributes).

(** ** Blocks *)

(** The chunk of the level changes first; then every player is told. *)
Definition Dimension_updateBlock_sent (position : Position) (id : Z) : M Game unit :=
  _ ← on_dimension (member _level set_level (Dimension_updateBlock position id));
  each_player (λ player, Player_sendBlockUpdate player (mk_BlockUpdate position id)).

(** ** Chunks *)

Definition Dimension_hasChunkLoaded (x z : Z) : M Game bool :=
  in_dimension (λ d, Level_hasChunkColumn (_level d) (mk_Position2D x z)).
Definition Dimension_getChunk (x z : Z) : M Game ChunkColumn :=
  l ← in_dimension _level; lift (Level_getChunkColumn l (mk_Position2D x z)).

(** A second request for a chunk adds the player to the first one. *)
Definition Dimension_loadOrGenerateChunk (x z player : Z) : M Game unit :=
  let pos := mk_Position2D x z in
  loading ← in_dimension _loadingChunks;
  match loading !! pos with
  | Some r =>
      if decide (player ∈ request_players r) then mret tt
      else on_dimension (modify (λ d, set_loadingChunks
             (<[pos := mk_ChunkRequest (request_id r) (request_players r ++ [player])]>
                (_loadingChunks d)) d))
  | None =>
      id ← on_pool (pool_addJob pos);
      on_dimension (modify (λ d, set_loadingChunks
        (<[pos := mk_ChunkRequest id [player]]> (_loadingChunks d)) d))
  end.

(** The pointers that have expired go too; a request that nobody waits for is
    dropped if its job can still be cancelled. *)
Definition Dimension_removePlayerFromLoadingChunk (pos : Position2D) (player : Z) : M Game unit :=
  loading ← in_dimension _loadingChunks;
  match loading !! pos with
  | None => mret tt
  | Some r =>
      alive ← gets g_players;
      let players := filter (λ i, is_Some (alive !! i) ∧ i ≠ player) (request_players r) in
      _ ← on_dimension (modify (λ d, set_loadingChunks
            (<[pos := mk_ChunkRequest (request_id r) players]> (_loadingChunks d)) d));
      if decide (players = []) then
        cancelled ← on_pool (pool_cancelJob (request_id r));
        if cancelled : bool then
          on_dimension (modify (λ d, set_loadingChunks (delete pos (_loadingChunks d)) d))
        else mret tt
      else mret tt
  end.

(** [Player::sendChunkAndLightUpdate(const ChunkColumn &)] *)
Definition Player_sendChunk (this : Z) (chunk : ChunkColumn) : M Game unit :=
  p ← this_player this;
  c ← gets (λ g, _connections (g_network g) !! _cli p);
  match c with
  | None => mret tt
  | Some _ =>
      let chunkPos := _chunkPos chunk in
      _ ← send_to this (createChunkDataAndLightUpdate
            (mk_ChunkDataAndLightUpdate (p2x chunkPos) (p2z chunkPos) chunk));
      update_player this (λ p, set_chunks (<[chunkPos := ChunkState_Loaded]> (_chunks p)) p)
  end.

(** The end of the generation of a chunk; [operator[]] makes a request when there
    is none, and the request goes away. *)
Definition Dimension_sendChunkToPlayers (x z : Z) : M Game unit :=
  let pos := mk_Position2D x z in
  loading ← in_dimension _loadingChunks;
  let players := match loading !! pos with Some r => request_players r | None => [] end in
  _ ← for_each players (λ player,
        alive ← gets g_players;
        match alive !! player with
        | None => mret tt
        | Some _ => chunk ← Dimension_getChunk x z; Player_sendChunk player chunk
        end);
  on_dimension (modify (λ d, set_loadingChunks (delete pos (_loadingChunks d)) d)).

(** ** Items *)

Definition EntityType_Item : Z := 45.

Definition EntityMetadata_Type_Slot : Z := 7.

(** [makeEntity<Item>(slot)->dropItem(pos)] *)
Definition Dimension_dropItem (slot : Slot) (pos : Vector3 double) : M Game unit :=
  id ← gets g_nextId;
  _ ← modify (λ g, set_g_nextId (to_i32 (id + 1)) g);
  _ ← Dimension_addEntity id;
  _ ← modify (λ g, set_g_items (<[id := mk_ItemEntity pos slot]> (g_items g)) g);
  _ ← Dimension_spawnEntity id EntityType_Item pos;
  Dimension_addEntityMetadata (mk_SetEntityMetadata id [mk_EntityMetadata 8 EntityMetadata_Type_Slot slot]).

End Dimension.
