(* ===== verification/World.v ===== *)
(** * The world (World.hpp, World.cpp)

    The time of the world, and what every player is told about the others.  The
    world has the players of one dimension: nothing puts a player into the two
    others. *)

From S2P Require Import Prelude State Network Types Structures ClientPackets CreatePackets Json Message Game Dimension.

(** ** Time *)

Definition set_age v w := mk_World v (_time w) (_renderDistance w) (_timeUpdateClock w) (_seed w).
Definition set_time v w := mk_World (_age w) v (_renderDistance w) (_timeUpdateClock w) (_seed w).
Definition set_timeUpdateClock v w := mk_World (_age w) (_time w) (_renderDistance w) v (_seed w).

Definition DAY : Z := 24000.

(** [while (_time > 24000) _time -= 24000;] *)
Fixpoint wrap_days (fuel : nat) (time : Z) : option Z :=
  match fuel with
  | O => None
  | S fuel => if decide (DAY < time) then wrap_days fuel (time - DAY) else Some time
  end.
Definition days_fuel (time : Z) : nat := S (Z.to_nat (time / DAY)).

(** [_age] and [_time] are [long]; the answer is [_time] as an [int]. *)
Definition World_addTime (time : Z) : M World Z :=
  if decide (0 ≤ time) then
    w ← gets id;
    let t := _time w + time in
    match wrap_days (days_fuel t) t with
    | None => lift OutOfFuel
    | Some t' =>
        _ ← modify (λ w, set_age (_age w + time) (set_time t' w));
        mret (to_i32 t')
    end
  else mret (-1).

Definition World_setTime (time : Z) : M World unit :=
  if decide (0 ≤ time) then modify (set_time time) else mret tt.

Section World.
Context `{Cfb8} `{JobPool} `{!Plugins}.

Definition on_world {A} (p : M World A) : M Game A := member g_world set_g_world p.

Definition World_updateTime : M Game unit :=
  _ ← on_world (modify (λ w, set_age (_age w + 20) w));
  _ ← on_world (modify (λ w,
        let t := _time w + 20 in set_time (if decide (DAY < t) then t - DAY else t) w));
  each_player (λ player,
    w ← gets g_world;
    Player_sendUpdateTime player (mk_UpdateTime (_age w) (_time w))).

(** The dimensions tick in threads of their own, which [release] lets go on. *)
Definition World_tick : M Game unit :=
  _ ← onEvent tick;
  w ← gets g_world;
  let '(fire, clock) := TickClock_tick (_timeUpdateClock w) in
  _ ← on_world (modify (set_timeUpdateClock clock));
  if fire : bool then World_updateTime else mret tt.

(** ** Information about players *)

Definition Player_getProperties (p : Player) : M Game (list PlayerProperty) :=
  c ← gets (λ g, g_clients g !! _cli p);
  mret (match c with Some c => LoginSuccess_properties (_resPck c) | None => [] end).

(** [AddPlayer | InitializeChat | UpdateGamemode | UpdateListed | UpdateLatency |
    UpdateDisplayName] *)
Definition info_actions : Z := 0x3f.

Definition player_info (player : Z) : M Game Action :=
  p ← this_player player;
  properties ← Player_getProperties p;
  mret (mk_Action (_uuid p) (mk_Action_AddPlayer (_username p) properties)
    (mk_Action_InitializeChat false) (mk_Action_UpdateGamemode (_gamemode p))
    (mk_Action_UpdateListed true) (mk_Action_UpdateLatency 0)
    (mk_Action_UpdateDisplayName false EmptyString)).

(** The loop over the players: each is told of the new one, and its own
    information is kept. *)
Fixpoint collect_infos (current : Z) (l : list Z) : M Game (list Action) :=
  match l with
  | [] => mret []
  | player :: l =>
      _ ← (if decide (player ≠ current) then
             info ← player_info current;
             Player_sendPlayerInfoUpdate player (mk_PlayerInfoUpdate info_actions [info])
           else mret tt);
      info ← player_info player;
      infos ← collect_infos current l;
      mret (info :: infos)
  end.

Definition World_sendPlayerInfoAddPlayer (current : Z) : M Game unit :=
  l ← in_dimension _players;
  infos ← collect_infos current l;
  Player_sendPlayerInfoUpdate current (mk_PlayerInfoUpdate info_actions infos).

Definition World_sendPlayerInfoRemovePlayer (current : Z) : M Game unit :=
  p ← this_player current;
  each_player (λ player,
    if decide (player ≠ current) then
      Player_sendPlayerInfoRemove player (mk_PlayerInfoRemove [_uuid p])
    else mret tt).
End World.

(** * The chat (Chat.hpp, Chat.cpp)

    Messages of players and of the system, to one player, to a list of players, or
    to every player of the world group. *)

(** [enum Type : int32_t] of [chat::message] *)
Definition chat_Chat : Z := 0.
Definition chat_Emote : Z := 1.
Definition chat_WhisperIn : Z := 2.
Definition chat_WhisperOut : Z := 3.
Definition chat_Announce : Z := 4.
Definition chat_TeamText : Z := 5.
Definition chat_TeamSent : Z := 6.

Definition ChatVisibility_Enabled : Z := 0.
Definition ChatVisibility_CommandsOnly : Z := 1.
Definition ChatVisibility_Hidden : Z := 2.

Section Chat.
Context `{Cfb8} `{JobPool} `{JsonLib}.

(** [static buildPacket]; [std::time(nullptr)] is in seconds. *)
Definition buildPacket (from : Player) (messageLogSize : Z) (message : Message) (type time : Z) :
  result PlayerChatMessage :=
  let userName := gold_name (_username from) (Message_text (_username from)) in
  content ← serialize_message message;
  name ← serialize_message userName;
  Ok (mk_PlayerChatMessage (_uuid from) (to_i32 messageLogSize) false [] EmptyString time 0 [] true content
        0 [] type name false EmptyString).

(** The part the three overloads of [_sendMessage] share: the packet, and the
    message in the log. *)
Definition Chat_logMessage (message : Message) (from type : Z) : M Game PlayerChatMessage :=
  sender ← this_player from;
  log ← in_server _messagesLog;
  clock ← in_server system_clock;
  pck ← lift (buildPacket sender (zlen log) message type (Z.quot clock 1000000000));
  _ ← on_server (set_messagesLog (log ++ [message]));
  mret pck.

Definition send_chat_to (pck : PlayerChatMessage) (player : Z) : M Game unit :=
  p ← this_player player;
  if decide (_chatVisibility p = ChatVisibility_Enabled) then Player_sendChatMessageResponse player pck
  else mret tt.

Definition Chat_sendMessage_to (message : Message) (from to type : Z) : M Game unit :=
  p ← this_player to;
  if decide (_chatVisibility p ≠ ChatVisibility_Enabled) then mret tt
  else pck ← Chat_logMessage message from type; Player_sendChatMessageResponse to pck.

Definition Chat_sendMessage_all (message : Message) (from type : Z) : M Game unit :=
  pck ← Chat_logMessage message from type; each_player (send_chat_to pck).

Definition Chat_sendMessage_list (message : Message) (from : Z) (players : list Z) (type : Z) : M Game unit :=
  sender ← this_player from;
  if decide (_chatVisibility sender ≠ ChatVisibility_Enabled) then mret tt
  else pck ← Chat_logMessage message from type; for_each players (send_chat_to pck).

Definition Chat_sendSystem_to (message : Message) (overlay : bool) (player : Z) : M Game unit :=
  p ← this_player player;
  if decide (_chatVisibility p ≤ ChatVisibility_CommandsOnly) then
    s ← lift (serialize_message message);
    Player_sendSystemChatMessage player (mk_SystemChatMessage s overlay)
  else mret tt.

Definition Chat_sendSystem_all (message : Message) (overlay : bool) : M Game unit :=
  each_player (Chat_sendSystem_to message overlay).
Definition Chat_sendSystem_list (message : Message) (overlay : bool) (players : list Z) : M Game unit :=
  for_each players (Chat_sendSystem_to message overlay).

(** ** The public methods *)

Definition Chat_sendPlayerMessage (message : Message) (sender : Z) : M Game unit :=
  Chat_sendMessage_all message sender chat_Chat.
Definition Chat_sendSayMessage (raw : Message) (from : Z) : M Game unit :=
  p ← this_player from;
  Chat_sendMessage_all (ChatTypeAnnouncement (_username p) raw) from chat_Announce.
Definition Chat_sendWhisperMessage (message : Message) (sender to : Z) : M Game unit :=
  s ← this_player sender;
  t ← this_player to;
  _ ← Chat_sendMessage_to (CommandsMessageDisplayOutgoing (_username t) message) sender sender chat_WhisperOut;
  Chat_sendMessage_to (CommandsMessageDisplayIncoming (_username s) message) sender to chat_WhisperIn.
Definition Chat_sendTeamMessage (message : Message) (sender : Z) : M Game unit :=
  Chat_sendMessage_all message sender chat_TeamSent.
Definition Chat_sendTellrawMessage (message : Message) (from : Z) (selector : string) : M Game unit :=
  Chat_sendSystem_all message false.
End Chat.
