(* ===== verification/PlayerView.v ===== *)
(** * The chunks a player sees (Player.cpp)

    A player holds the chunks of a square around the chunk it stands in.  When it
    crosses into another chunk, [_updateRenderedChunks] unloads the chunks that
    have left the square and sends or requests those that have come into it.  The
    position comes from the client as it is, so that a chunk coordinate is any
    [int32_t]: the bounds of the loops are computed in thirty-two bits, and may overflow. *)

From S2P Require Import Prelude State Types Floats ChunkColumn Level ClientPackets CreatePackets Network Game Dimension.

Section View.
Context `{Cfb8} `{JobPool}.

Definition set_chunk_state (pos : Position2D) (s : ChunkState) (p : Player) : Player :=
  set_chunks (<[pos := s]> (_chunks p)) p.

(** [sendChunkAndLightUpdate(int32_t x, int32_t z)] *)
Definition Player_sendChunkAndLightUpdate (this x z : Z) : M Game unit :=
  loaded ← Dimension_hasChunkLoaded x z;
  if negb loaded then
    _ ← Dimension_loadOrGenerateChunk x z this;
    update_player this (set_chunk_state (mk_Position2D x z) ChunkState_Loading)
  else chunk ← Dimension_getChunk x z; Player_sendChunk this chunk.

Definition Player_unloadChunk (this x z : Z) : M Game unit :=
  let pos := mk_Position2D x z in
  p ← this_player this;
  match _chunks p !! pos with
  | None => mret tt
  | Some s =>
      _ ← (if decide (s = ChunkState_Loading) then Dimension_removePlayerFromLoadingChunk pos this
           else Player_sendUnloadChunk this x z);
      update_player this (λ p, set_chunks (delete pos (_chunks p)) p)
  end.

(** The values of [i] in [for (int32_t i = a; i < b; i++)] and in
    [for (int32_t i = a; i >= b; i--)]. *)
Definition up_to (a b : Z) : list Z := seqZ a (b - a).
Definition down_to (a b : Z) : list Z := reverse (seqZ b (a - b + 1)).

(** The loops, with what they compute: the bounds, and the step below the last value. *)
Definition for_up (a b : result Z) (f : Z → M Game unit) : M Game unit :=
  a ← lift a; b ← lift b; for_each (up_to a b) f.
Definition for_down (a b : result Z) (f : Z → M Game unit) : M Game unit :=
  a ← lift a; b ← lift b;
  _ ← for_each (down_to a b) f;
  if decide (b ≤ a) then _ ← lift (chk_i32 (b - 1)); mret tt else mret tt.

(** Arithmetic of [int], and [std::min] and [std::max]. *)
Definition int_op (f : Z → Z → Z) (a b : result Z) : result Z := x ← a; y ← b; chk_i32 (f x y).
Definition int_add : result Z → result Z → result Z := int_op Z.add.
Definition int_sub : result Z → result Z → result Z := int_op Z.sub.
Definition int_min : result Z → result Z → result Z := int_op Z.min.
Definition int_max : result Z → result Z → result Z := int_op Z.max.
Infix "+ᵢ" := int_add (at level 50, left associativity).
Infix "-ᵢ" := int_sub (at level 50, left associativity).

Definition Player_updateRenderedChunks (this : Z) (oldChunkPos newChunkPos : Position2D) : M Game unit :=
  if decide (newChunkPos = oldChunkPos) then mret tt
  else
    r ← gets (λ g, _renderDistance (g_world g));
    let '(r, one) := (Ok r, Ok 1) in
    let '(ox, oz) := (Ok (p2x oldChunkPos), Ok (p2z oldChunkPos)) in
    let '(nx, nz) := (Ok (p2x newChunkPos), Ok (p2z newChunkPos)) in
    _ ← Player_sendSetCenterChunk this newChunkPos;
    (* Old chunks, positive changes *)
    _ ← for_up (ox -ᵢ r) (int_min (nx -ᵢ r) (ox +ᵢ r +ᵢ one)) (λ x,
          for_up (oz -ᵢ r) (oz +ᵢ r +ᵢ one) (λ z, Player_unloadChunk this x z));
    _ ← for_up (oz -ᵢ r) (int_min (nz -ᵢ r) (oz +ᵢ r +ᵢ one)) (λ z,
          for_up (ox -ᵢ r +ᵢ (nx -ᵢ ox)) (ox +ᵢ r +ᵢ one) (λ x, Player_unloadChunk this x z));
    (* Negative changes *)
    _ ← for_down (ox +ᵢ r) (int_max (nx +ᵢ r +ᵢ one) (ox -ᵢ r)) (λ x,
          for_up (oz -ᵢ r) (oz +ᵢ r +ᵢ one) (λ z, Player_unloadChunk this x z));
    _ ← for_down (oz +ᵢ r) (int_max (nz +ᵢ r +ᵢ one) (oz -ᵢ r)) (λ z,
          for_up (ox -ᵢ r) (ox +ᵢ r +ᵢ one +ᵢ (nx -ᵢ ox)) (λ x, Player_unloadChunk this x z));
    (* New chunks, positive changes *)
    _ ← for_down (nx +ᵢ r) (int_max (ox +ᵢ r +ᵢ one) (nx -ᵢ r)) (λ x,
          for_up (nz -ᵢ r) (nz +ᵢ r +ᵢ one) (λ z, Player_sendChunkAndLightUpdate this x z));
    _ ← for_down (nz +ᵢ r) (int_max (oz +ᵢ r +ᵢ one) (nz -ᵢ r)) (λ z,
          for_up (nx -ᵢ r) (nx +ᵢ r +ᵢ one -ᵢ (nx -ᵢ ox)) (λ x, Player_sendChunkAndLightUpdate this x z));
    (* Negative changes *)
    _ ← for_up (nx -ᵢ r) (int_min (ox -ᵢ r) (nx +ᵢ r +ᵢ one)) (λ x,
          for_up (nz -ᵢ r) (nz +ᵢ r +ᵢ one) (λ z, Player_sendChunkAndLightUpdate this x z));
    for_up (nz -ᵢ r) (int_min (oz -ᵢ r) (nz +ᵢ r +ᵢ one)) (λ z,
      for_up (nx -ᵢ r -ᵢ (nx -ᵢ ox)) (nx +ᵢ r +ᵢ one) (λ x, Player_sendChunkAndLightUpdate this x z)).

(** The chunks sent when a player joins: the one in the middle first. *)
Definition Player_sendSpawnChunks (this : Z) : M Game unit :=
  r ← gets (λ g, _renderDistance (g_world g));
  _ ← Player_sendChunkAndLightUpdate this 0 0;
  for_each (up_to (- r) (r + 1)) (λ x,
    for_each (up_to (- r) (r + 1)) (λ z,
      if decide (x = 0 ∧ z = 0) then mret tt else Player_sendChunkAndLightUpdate this x z)).
End View.
