(* ===== verification/Player.v ===== *)
(** * Players (Player.hpp, Player.cpp, Entity.cpp, LivingEntity.cpp)

    What a player does on its own: its construction, its moves, its ticks, the
    damage it takes, the sequence that ends its login and its destruction. *)

From S2P Require Import Prelude State Types Floats Structures Section ChunkColumn Level Container Inventory ClientPackets CreatePackets BlockStates Network Json Message Game Dimension World PlayerView.

(** ** Construction *)

(** A player with 16 of food in survival mode, whose inventory holds two stacks. *)
Definition Player_make (id cli : Z) (uuid : u128) (username : string) (isOperator : bool) : Player :=
  let inventory := set_playerInventory
    (<[13%nat := mk_Slot true 1 12]> (<[12%nat := mk_Slot true 734 42]> (_playerInventory Inventory_make)))
    Inventory_make in
  let origin := Vector3_splat (double_of_Z 0) in
  mk_Player id cli username (u128_toString uuid) uuid 0 0 0 Gamemode_Survival
    (TickClock_start (mk_TickClock false 200 0)) ∅ inventory
    (MAX_FOOD_LEVEL - 4) DEFAULT_FOOD_SATURATION_LEVEL 0 (float_of_Z 0)
    ChatVisibility_Enabled true isOperator false false
    (float_of_Z 20) (float_of_Z 20) origin (mk_Vector2 0 0) origin (mk_Vector2 0 0).

Section Player.
Context `{Cfb8} `{JobPool} `{JsonLib} `{!Plugins}.

(** [std::make_shared<Player>]: the identifier is the next of the counter. *)
Definition Player_new (cli : Z) (uuid : u128) (username : string) : M Game Z :=
  id ← gets g_nextId;
  _ ← modify (λ g, set_g_nextId (to_i32 (id + 1)) g);
  ops ← in_server _operatorSet;
  let p := Player_make id cli uuid username (bool_decide (username ∈ ops)) in
  _ ← modify (λ g, set_g_players (<[id := p]> (g_players g)) g);
  mret id.

(** [~Player] *)
Definition Player_destroy (this : Z) : M Game unit :=
  p ← this_player this;
  let disconnectMsg := MultiplayerPlayerLeft (_username p) in
  _ ← World_sendPlayerInfoRemovePlayer this;
  _ ← Chat_sendSystem_all disconnectMsg false;
  _ ← onEvent (onPlayerLeave this);
  modify (λ g, set_g_players (delete this (g_players g)) g).

Definition Player_disconnect (this : Z) (reason : Message) : M Game unit :=
  p ← this_player this;
  c ← gets (λ g, _connections (g_network g) !! _cli p);
  match c with
  | None => mret tt
  | Some _ =>
      text ← lift (serialize_message reason);
      _ ← send_to this (createPlayDisconnect (mk_Disconnect text));
      _ ← on_network (Client_stop (_cli p));
      onEvent (onPlayerLeave this)
  end.

(** [for (auto i : getPlayers()) if (i->getId() != getId()) ...] *)
Definition other_players (this : Z) (f : Z → M Game unit) : M Game unit :=
  each_player (λ i, if decide (i = this) then mret tt else f i).

(** ** Position and rotation *)

Definition Entity_setPosition (this : Z) (pos : Vector3 double) : M Game unit :=
  update_player this (set_pos pos).
Definition Entity_forceSetPosition (this : Z) (pos : Vector3 double) : M Game unit :=
  _ ← update_player this (set_pos pos); update_player this (set_lastPos pos).

Definition Entity_teleport (this : Z) (pos : Vector3 double) : M Game unit :=
  _ ← Entity_forceSetPosition this pos;
  other_players this (λ i, Player_sendTeleportEntity i this pos).
Definition Player_teleport (this : Z) (pos : Vector3 double) : M Game unit :=
  _ ← Player_sendSynchronizePosition this pos; Entity_teleport this pos.

(** [while (yawTmp < 0) yawTmp += 360;] and [while (yawTmp > 360) yawTmp -= 360;];
    [yawTmp] comes from eight bits, so that neither loop has a turn. *)
Fixpoint wrap_yaw (fuel : nat) (yaw : float) : result float :=
  match fuel with
  | O => OutOfFuel
  | S fuel =>
      if SFltb yaw (float_of_Z 0) then wrap_yaw fuel (fadd yaw (float_of_Z 360))
      else if SFltb (float_of_Z 360) yaw then wrap_yaw fuel (fsub yaw (float_of_Z 360))
      else Ok yaw
  end.

Definition rotation_of (yaw pitch : Z) : result (Vector2 Z) :=
  yawTmp ← wrap_yaw 1 (float_of_Z yaw);
  x ← to_uint8 yawTmp;
  z ← to_uint8 (ddiv (double_of_Z pitch) (double_lit 3 2));
  Ok (mk_Vector2 x z).

Definition Entity_setRotation (this yaw pitch : Z) : M Game unit :=
  r ← lift (rotation_of yaw pitch); update_player this (set_rot r).

(** The argument of [transformBlockPosToChunkPos] is an [int64_t]. *)
Definition to_int64 : spec_float → result Z := to_integer (is_s 64).
Definition chunk_pos_of (pos : Vector3 double) : result Position2D :=
  x ← to_int64 (v3x pos); z ← to_int64 (v3z pos);
  Ok (mk_Position2D (transformBlockPosToChunkPos x) (transformBlockPosToChunkPos z)).

Definition set_exhaustion (f : double) (p : Player) : Player :=
  set_foodExhaustionLevel (double_to_float f) p.
Definition exhaustion (p : Player) : double := float_to_double (_foodExhaustionLevel p).

(** The flags and the exhaustion of a player that moves to [pos]. *)
Definition Player_moved (pos : Vector3 double) (onGround : bool) (p : Player) : Player :=
  let from := _pos p in
  let p := if onGround && _isFlying p then set_isFlying false p else p in
  let height y := dadd y (double_of_Z (- CHUNK_HEIGHT_MIN)) in
  let rises := SFltb (double_of_Z 0) (dsub (height (v3y pos)) (height (v3y from))) in
  let p := if negb onGround && negb (_isJumping p) && negb (_isFlying p) && rises
           then set_isFlying true (set_isJumping true p) else p in
  let p := if _isSprinting p && negb (_isFlying p) then
             set_exhaustion (dadd (exhaustion p)
               (dmul (Vector2_distance (Vector2_of_Vector3 from) (Vector2_of_Vector3 pos))
                  (float_to_double FOOD_EXHAUSTION_SPRINTING_MULTIPLIER))) p
           else p in
  if _isJumping p then
    set_isJumping false (set_foodExhaustionLevel
      (fadd (_foodExhaustionLevel p)
         (if _isSprinting p then FOOD_EXHAUSTION_SPRINTING_JUMP else FOOD_EXHAUSTION_JUMP)) p)
  else p.

Definition Player_setPosition (this : Z) (pos : Vector3 double) (onGround : bool) : M Game unit :=
  p ← this_player this;
  newChunkPos ← lift (chunk_pos_of pos);
  oldChunkPos ← lift (chunk_pos_of (_pos p));
  _ ← update_player this (Player_moved pos onGround);
  _ ← Entity_setPosition this pos;
  Player_updateRenderedChunks this oldChunkPos newChunkPos.

(** ** Ticks *)

(** [static_cast<int16_t>((now * 32.0 - before * 32.0) * 128.0)] *)
Definition position_delta (now before : double) : result Z :=
  to_int16 (dmul (dsub (dmul now (double_of_Z 32)) (dmul before (double_of_Z 32))) (double_of_Z 128)).

Definition Player_tickPosition (this : Z) : M Game unit :=
  p ← this_player this;
  let updatePos := Vector3_neq (_pos p) (_lastPos p) in
  d ← (if updatePos then
         deltaX ← lift (position_delta (v3x (_pos p)) (v3x (_lastPos p)));
         deltaY ← lift (position_delta (v3y (_pos p)) (v3y (_lastPos p)));
         deltaZ ← lift (position_delta (v3z (_pos p)) (v3z (_lastPos p)));
         _ ← update_player this (set_lastPos (_pos p));
         mret (deltaX, deltaY, deltaZ)
       else mret (0, 0, 0));
  let '(deltaX, deltaY, deltaZ) := d in
  let rot := _rot p in
  let updateRot := negb (bool_decide (v2x rot = v2x (_lastRot p) ∧ v2z rot = v2z (_lastRot p))) in
  _ ← (if updateRot then update_player this (set_lastRot rot) else mret tt);
  _ ← (if updatePos && updateRot then
         other_players this (λ i,
           _ ← Player_sendUpdateEntityPositionAndRotation i
                 (mk_UpdateEntityPositionRotation this deltaX deltaY deltaZ (v2x rot) (v2z rot) true);
           Player_sendHeadRotation i (mk_HeadRotation this (v2x rot)))
       else if updatePos && negb updateRot then
         other_players this (λ i,
           Player_sendUpdateEntityPosition i (mk_UpdateEntityPosition this deltaX deltaY deltaZ true))
       else if negb updatePos && updateRot then
         other_players this (λ i,
           _ ← Player_sendUpdateEntityRotation i (mk_UpdateEntityRotation this (v2x rot) (v2z rot) true);
           Player_sendHeadRotation i (mk_HeadRotation this (v2x rot)))
       else mret tt);
  if SFltb (v3y (_pos p)) (double_of_Z (-100)) then
    Player_teleport this (mk_Vector3 (v3x (_pos p)) (double_of_Z (-58)) (v3z (_pos p)))
  else mret tt.

(** *** Keep-alive *)

Definition Player_processKeepAlive (this : Z) : M Game unit :=
  id ← in_server system_clock;
  p ← this_player this;
  if decide (_keepAliveId p ≠ 0) then
    _ ← update_player this (set_keepAliveIgnored (to_u8 (_keepAliveIgnored p + 1)));
    p ← this_player this;
    if decide (MAX_TICK_BEFORE_TIMEOUT ≤ clock_tickRate (_keepAliveClock p) * _keepAliveIgnored p) then
      Player_disconnect this (Message_text "Skill issues detected")
    else mret tt
  else
    _ ← update_player this (set_keepAliveId id);
    Player_sendKeepAlive this id.

Definition Player_tickKeepAlive (this : Z) : M Game unit :=
  p ← this_player this;
  let '(fire, clock) := TickClock_tick (_keepAliveClock p) in
  _ ← update_player this (set_keepAliveClock clock);
  if fire : bool then Player_processKeepAlive this else mret tt.

(** *** Food *)

Definition float_zero : float := float_of_Z 0.
Definition hungry_mode (p : Player) : bool :=
  bool_decide (_gamemode p = Gamemode_Survival ∨ _gamemode p = Gamemode_Adventure).

(** [_foodLevel == MIN_FOOD_LEVEL && _health > 10] *)
Definition starving (p : Player) : bool :=
  bool_decide (_foodLevel p = MIN_FOOD_LEVEL) && SFltb (float_of_Z 10) (_health p).
(** [_foodLevel >= MIN_FOOD_LEVEL_FOR_REGENERATION && _health < _maxHealth] *)
Definition recovering (p : Player) : bool :=
  bool_decide (MIN_FOOD_LEVEL_FOR_REGENERATION ≤ _foodLevel p) && SFltb (_health p) (_maxHealth p).

(** The statements of [_foodTick], over the player and [needUpdate]. *)
Definition food_starve (s : Player * bool) : Player * bool :=
  let '(p, needUpdate) := s in
  if starving p && bool_decide (80 ≤ _foodTickTimer p) then
    (set_foodTickTimer 0 (set_health (fsub (_health p) (float_of_Z 1)) p), true)
  else (p, needUpdate).

Definition sixth_of_saturation (p : Player) : double :=
  dmul (ddiv (double_of_Z 1) (double_of_Z 6)) (float_to_double (_foodSaturationLevel p)).

Definition food_heal (amount : double) (p : Player) : Player :=
  set_foodTickTimer 0 (set_foodExhaustionLevel (fadd (_foodExhaustionLevel p) (float_of_Z 6))
    (set_health (double_to_float (dadd (float_to_double (_health p)) amount)) p)).

Definition food_regenerate (s : Player * bool) : Player * bool :=
  let '(p, needUpdate) := s in
  if recovering p then
    let '(p, needUpdate) :=
      if SFltb float_zero (_foodSaturationLevel p) && bool_decide (_foodLevel p = MAX_FOOD_LEVEL) &&
         bool_decide (10 ≤ _foodTickTimer p) then
        (food_heal (if SFleb (double_of_Z 1) (sixth_of_saturation p) then double_of_Z 1
                    else sixth_of_saturation p) p, true)
      else (p, needUpdate) in
    if bool_decide (80 ≤ _foodTickTimer p) then
      (set_foodTickTimer 0 (set_foodExhaustionLevel (fadd (_foodExhaustionLevel p) (float_of_Z 6))
         (set_health (fadd (_health p) (float_of_Z 1)) p)), true)
    else (p, needUpdate)
  else (p, needUpdate).

Definition food_exhaust (s : Player * bool) : Player * bool :=
  let '(p, needUpdate) := s in
  if SFleb (float_of_Z 4) (_foodExhaustionLevel p) && negb needUpdate then
    let p := set_foodExhaustionLevel (fsub (_foodExhaustionLevel p) (float_of_Z 4)) p in
    if SFltb float_zero (_foodSaturationLevel p) then
      (set_foodSaturationLevel (fsub (_foodSaturationLevel p) (float_of_Z 1)) p, true)
    else (set_foodLevel (_foodLevel p - (if decide (0 < _foodLevel p) then 1 else 0)) p, true)
  else (p, needUpdate).

Definition food_resetTimer (p : Player) : Player :=
  if decide (_foodLevel p < MIN_FOOD_LEVEL_FOR_REGENERATION ∧ 0 < _foodLevel p ∧ 0 < _foodTickTimer p)
  then set_foodTickTimer 0 p else p.

(** The player after the tick, and whether its health is sent before the timer
    moves on. *)
Definition food_tick (p : Player) : Player * bool :=
  let '(p, needUpdate) := food_exhaust (food_regenerate (food_starve (p, false))) in
  let p := food_resetTimer p in
  (if negb needUpdate && (recovering p || starving p)
   then set_foodTickTimer (_foodTickTimer p + 1) p else p, needUpdate).

Definition Player_foodTick (this : Z) : M Game unit :=
  p ← this_player this;
  if hungry_mode p then
    let '(p', needUpdate) := food_tick p in
    _ ← update_player this (λ _, p');
    if needUpdate : bool then Player_sendHealth this else mret tt
  else mret tt.

Definition Player_tick (this : Z) : M Game unit :=
  _ ← Player_tickKeepAlive this; _ ← Player_tickPosition this; Player_foodTick this.

(** ** Damage *)

Definition KNOCKBACK_DEFAULT_FORCE : float := float_of_Z 2500.

Definition LivingEntity_damage (this : Z) (amount : float) : M Game unit :=
  canceled ← onEventCancelable (onEntityDamage this amount);
  if canceled : bool then mret tt
  else update_player this (λ p, set_health (fsub (_health p) amount) p).

Definition LivingEntity_knockback (this : Z) (source : Vector3 double) (force : float) : M Game unit :=
  p ← this_player this;
  let direction := Vector2_normalize
    (Vector2_sub (Vector2_of_Vector3 source) (Vector2_of_Vector3 (_pos p))) in
  let kb := Vector3_mul_assign (mk_Vector3 (v2x direction) (double_of_Z 1) (v2z direction))
    (Vector3_splat (float_to_double force)) in
  each_player (λ player,
    x ← lift (to_int16 (v3x kb)); y ← lift (to_int16 (v3y kb)); z ← lift (to_int16 (v3z kb));
    _ ← Player_sendEntityVelocity player (mk_EntityVelocity this x y z);
    Player_sendEntityAnimation player EntityAnimation_TakeDamage this).

Definition LivingEntity_attack (this : Z) (source : Vector3 double) : M Game unit :=
  _ ← onEvent (onEntityDamage this (float_of_Z 1));
  _ ← LivingEntity_damage this (float_of_Z 1);
  LivingEntity_knockback this source KNOCKBACK_DEFAULT_FORCE.

(** ** The end of the login *)

(** [Invulnerable | Flying | AllowFlying | CreativeMode] *)
Definition Flags_Invulnerable : Z := 0x01.
Definition Flags_Flying : Z := 0x02.
Definition Flags_AllowFlying : Z := 0x04.
Definition Flags_CreativeMode : Z := 0x08.

Definition abilities (flags : Z) : PlayerAbilitiesClient :=
  mk_PlayerAbilitiesClient flags
    (bits_of_float32 (double_to_float (double_lit 5 100)))
    (bits_of_float32 (double_to_float (double_lit 1 10))).

Definition spawn_position : Vector3 double :=
  mk_Vector3 (double_lit 17 2) (double_of_Z 100) (double_lit 17 2).

Definition Player_continueLoginSequence (this : Z) : M Game unit :=
  let double_bits z := bits_of_double (double_of_Z z) in
  _ ← Player_sendFeatureFlags this (mk_FeatureFlags ["minecraft:vanilla"]);
  _ ← Player_sendChangeDifficulty this (mk_ChangeDifficultyClient 1 true);
  _ ← Player_sendPlayerAbilities this (abilities
        (Z.lor (Z.lor Flags_Invulnerable Flags_Flying) (Z.lor Flags_AllowFlying Flags_CreativeMode)));
  _ ← Player_sendSetHeldItem this (mk_SetHeldItemClient 4);
  _ ← Player_sendUpdateRecipes this (mk_UpdateRecipes []);
  _ ← Player_sendUpdateTags this (mk_UpdateTags []);
  _ ← Player_sendEntityEvent this (mk_EntityEvent this 24);
  _ ← Player_sendCommands this (mk_Commands [] 0);
  _ ← Player_sendUpdateRecipiesBook this
        (mk_UpdateRecipesBook 0 false false false false false false false false [] []);
  _ ← Player_teleport this spawn_position;
  _ ← Player_sendServerData this (mk_ServerData false EmptyString false EmptyString false);
  _ ← Dimension_addEntity this;
  _ ← Dimension_addPlayer this;
  _ ← World_sendPlayerInfoAddPlayer this;
  _ ← Player_sendSetCenterChunk this (mk_Position2D 0 0);
  _ ← Player_sendSpawnChunks this;
  _ ← Player_sendInitializeWorldBorder this
        (mk_InitializeWorldBorder (double_bits 0) (double_bits 0) (double_bits 0) (double_bits 10000)
           0 29999984 10 10);
  _ ← Player_sendSetDefaultSpawnPosition this
        (mk_SetDefaultSpawnPosition (mk_Position 0 100 0) (bits_of_float32 (float_of_Z 0)));
  _ ← Player_sendSetContainerContent this;
  _ ← Player_sendUpdateAttributes this (mk_UpdateAttributes this []);
  _ ← Player_sendUpdateAdvancements this (mk_UpdateAdvancements false [] [] []);
  _ ← Player_sendHealth this;
  _ ← Player_sendSetExperience this (mk_SetExperience (bits_of_float32 (float_of_Z 0)) 0 0);
  _ ← Dimension_spawnPlayer this;
  _ ← Player_teleport this spawn_position;
  p ← this_player this;
  _ ← Chat_sendSystem_all (MultiplayerPlayerJoined (_username p)) false;
  onEvent (onPlayerJoin this).
End Player.
