(* ===== verification/Sounds.v ===== *)
(** * Sounds (SoundList.hpp, SoundSystem.hpp, SoundSystem.cpp)

    The table of sounds with the numbers that are sent for them, and the system that
    rings a bell for every player from time to time; the tick of the world group, of
    which it is the last part. *)

From stdpp Require Import sorting.
From S2P Require Import Prelude State Types Floats ChunkColumn Level ClientPackets CreatePackets Network Json Game Dimension World Player.

(** ** The table *)

Inductive SoundCategory : Type :=
| Master | Music | Records | Weather | Blocks | Hostile | Neutral | Players | Ambient | Voice.

(** [(int32_t) category] *)
Definition category_number (c : SoundCategory) : Z :=
  match c with
  | Master => 0 | Music => 1 | Records => 2 | Weather => 3 | Blocks => 4 | Hostile => 5 | Neutral => 6
  | Players => 7 | Ambient => 8 | Voice => 9
  end.

(** The enumerators of [SoundsList], in the order of the file. *)
Definition SoundsList_1 : list (string * Z) :=
  [("ambient_basalt_deltas_additions", 8); ("ambient_basalt_deltas_loop", 9);
   ("ambient_basalt_deltas_mood", 10); ("ambient_cave", 7); ("ambient_crimson_forest_additions", 11);
   ("ambient_crimson_forest_loop", 12); ("ambient_crimson_forest_mood", 13);
   ("ambient_nether_wastes_additions", 14); ("ambient_nether_wastes_loop", 15);
   ("ambient_nether_wastes_mood", 16); ("ambient_soul_sand_valley_additions", 17);
   ("ambient_soul_sand_valley_loop", 18); ("ambient_soul_sand_valley_mood", 19);
   ("ambient_underwater_enter", 23); ("ambient_underwater_exit", 24); ("ambient_underwater_loop", 25);
   ("ambient_underwater_loop_additions", 26); ("ambient_underwater_loop_additions_rare", 27);
   ("ambient_underwater_loop_additions_ultra_rare", 28); ("ambient_warped_forest_additions", 20);
   ("ambient_warped_forest_loop", 21); ("ambient_warped_forest_mood", 22); ("block_amethyst_block_break", 29);
   ("block_amethyst_block_chime", 30); ("block_amethyst_block_fall", 31); ("block_amethyst_block_hit", 32);
   ("block_amethyst_block_place", 33); ("block_amethyst_block_step", 34); ("block_amethyst_cluster_break", 35);
   ("block_amethyst_cluster_fall", 36); ("block_amethyst_cluster_hit", 37);
   ("block_amethyst_cluster_place", 38); ("block_amethyst_cluster_step", 39);
   ("block_ancient_debris_break", 40); ("block_ancient_debris_fall", 44); ("block_ancient_debris_hit", 43);
   ("block_ancient_debris_place", 42); ("block_ancient_debris_step", 41); ("block_anvil_break", 45);
   ("block_anvil_destroy", 46); ("block_anvil_fall", 47); ("block_anvil_hit", 48); ("block_anvil_land", 49);
   ("block_anvil_place", 50); ("block_anvil_step", 51); ("block_anvil_use", 52); ("block_azalea_break", 79);
   ("block_azalea_fall", 80); ("block_azalea_hit", 81); ("block_azalea_place", 82); ("block_azalea_step", 83);
   ("block_azalea_leaves_break", 84); ("block_azalea_leaves_fall", 85); ("block_azalea_leaves_hit", 86);
   ("block_azalea_leaves_place", 87); ("block_azalea_leaves_step", 88); ("block_bamboo_break", 89);
   ("block_bamboo_fall", 90); ("block_bamboo_hit", 91); ("block_bamboo_place", 92); ("block_bamboo_step", 93);
   ("block_bamboo_sapling_break", 94); ("block_bamboo_sapling_hit", 95); ("block_bamboo_sapling_place", 96);
   ("block_barrel_close", 97); ("block_barrel_open", 98); ("block_basalt_break", 99);
   ("block_basalt_fall", 103); ("block_basalt_hit", 102); ("block_basalt_place", 101);
   ("block_basalt_step", 100); ("block_beacon_activate", 109); ("block_beacon_ambient", 110);
   ("block_beacon_deactivate", 111); ("block_beacon_power_select", 112); ("block_beehive_drip", 119);
   ("block_beehive_enter", 120); ("block_beehive_exit", 121); ("block_beehive_shear", 122);
   ("block_beehive_work", 123); ("block_bell_resonate", 125); ("block_bell_use", 124);
   ("block_big_dripleaf_break", 126); ("block_big_dripleaf_fall", 127); ("block_big_dripleaf_hit", 128);
   ("block_big_dripleaf_place", 129); ("block_big_dripleaf_step", 130); ("block_big_dripleaf_tilt_down", 307);
   ("block_big_dripleaf_tilt_up", 308); ("block_blastfurnace_fire_crackle", 146);
   ("block_bone_block_break", 138); ("block_bone_block_fall", 139); ("block_bone_block_hit", 140);
   ("block_bone_block_place", 141); ("block_bone_block_step", 142); ("block_brewing_stand_brew", 150);
   ("block_bubble_column_bubble_pop", 151); ("block_bubble_column_upwards_ambient", 152);
   ("block_bubble_column_upwards_inside", 153); ("block_bubble_column_whirlpool_ambient", 154);
   ("block_bubble_column_whirlpool_inside", 155); ("block_cake_add_candle", 171); ("block_calcite_break", 172);
   ("block_calcite_fall", 176); ("block_calcite_hit", 175); ("block_calcite_place", 174);
   ("block_calcite_step", 173); ("block_campfire_crackle", 177); ("block_candle_ambient", 178);
   ("block_candle_break", 179); ("block_candle_extinguish", 180); ("block_candle_fall", 181);
   ("block_candle_hit", 182); ("block_candle_place", 183); ("block_candle_step", 184);
   ("block_cave_vines_break", 194); ("block_cave_vines_fall", 195); ("block_cave_vines_hit", 196);
   ("block_cave_vines_pick_berries", 199); ("block_cave_vines_place", 197); ("block_cave_vines_step", 198);
   ("block_chain_break", 200); ("block_chain_fall", 201); ("block_chain_hit", 202); ("block_chain_place", 203);
   ("block_chain_step", 204); ("block_chest_close", 205); ("block_chest_locked", 206);
   ("block_chest_open", 207); ("block_chorus_flower_death", 213); ("block_chorus_flower_grow", 214);
   ("block_comparator_click", 220); ("block_composter_empty", 221); ("block_composter_fill", 222);
   ("block_composter_fill_success", 223); ("block_composter_ready", 224); ("block_conduit_activate", 225);
   ("block_conduit_ambient", 226); ("block_conduit_ambient_short", 227); ("block_conduit_attack_target", 228);
   ("block_conduit_deactivate", 229); ("block_copper_break", 230); ("block_copper_fall", 234);
   ("block_copper_hit", 233); ("block_copper_place", 232); ("block_copper_step", 231)].
Definition SoundsList_2 : list (string * Z) :=
  [("block_coral_block_break", 235); ("block_coral_block_fall", 236); ("block_coral_block_hit", 237);
   ("block_coral_block_place", 238); ("block_coral_block_step", 239); ("block_crop_break", 248);
   ("block_deepslate_break", 263); ("block_deepslate_fall", 264); ("block_deepslate_hit", 265);
   ("block_deepslate_place", 266); ("block_deepslate_step", 267); ("block_deepslate_bricks_break", 258);
   ("block_deepslate_bricks_fall", 259); ("block_deepslate_bricks_hit", 260);
   ("block_deepslate_bricks_place", 261); ("block_deepslate_bricks_step", 262);
   ("block_deepslate_tiles_break", 268); ("block_deepslate_tiles_fall", 269);
   ("block_deepslate_tiles_hit", 270); ("block_deepslate_tiles_place", 271);
   ("block_deepslate_tiles_step", 272); ("block_dispenser_dispense", 273); ("block_dispenser_fail", 274);
   ("block_dispenser_launch", 275); ("block_dripstone_block_break", 292); ("block_dripstone_block_fall", 296);
   ("block_dripstone_block_hit", 295); ("block_dripstone_block_place", 294);
   ("block_dripstone_block_step", 293); ("block_enchantment_table_use", 329); ("block_end_gateway_spawn", 352);
   ("block_end_portal_spawn", 354); ("block_end_portal_frame_fill", 353); ("block_ender_chest_close", 330);
   ("block_ender_chest_open", 331); ("block_fence_gate_close", 366); ("block_fence_gate_open", 367);
   ("block_fire_ambient", 377); ("block_fire_extinguish", 378); ("block_flowering_azalea_break", 384);
   ("block_flowering_azalea_fall", 385); ("block_flowering_azalea_hit", 386);
   ("block_flowering_azalea_place", 387); ("block_flowering_azalea_step", 388); ("block_froglight_break", 400);
   ("block_froglight_fall", 401); ("block_froglight_hit", 402); ("block_froglight_place", 403);
   ("block_froglight_step", 404); ("block_frogspawn_break", 406); ("block_frogspawn_fall", 407);
   ("block_frogspawn_hatch", 408); ("block_frogspawn_hit", 409); ("block_frogspawn_place", 410);
   ("block_frogspawn_step", 405); ("block_fungus_break", 736); ("block_fungus_fall", 740);
   ("block_fungus_hit", 739); ("block_fungus_place", 738); ("block_fungus_step", 737);
   ("block_furnace_fire_crackle", 424); ("block_gilded_blackstone_break", 442);
   ("block_gilded_blackstone_fall", 443); ("block_gilded_blackstone_hit", 444);
   ("block_gilded_blackstone_place", 445); ("block_gilded_blackstone_step", 446); ("block_glass_break", 447);
   ("block_glass_fall", 448); ("block_glass_hit", 449); ("block_glass_place", 450); ("block_glass_step", 451);
   ("block_grass_break", 482); ("block_grass_fall", 483); ("block_grass_hit", 484); ("block_grass_place", 485);
   ("block_grass_step", 486); ("block_gravel_break", 487); ("block_gravel_fall", 488);
   ("block_gravel_hit", 489); ("block_gravel_place", 490); ("block_gravel_step", 491);
   ("block_grindstone_use", 492); ("block_growing_plant_crop", 493); ("block_hanging_roots_break", 502);
   ("block_hanging_roots_fall", 503); ("block_hanging_roots_hit", 504); ("block_hanging_roots_place", 505);
   ("block_hanging_roots_step", 506); ("block_honey_block_break", 516); ("block_honey_block_fall", 517);
   ("block_honey_block_hit", 518); ("block_honey_block_place", 519); ("block_honey_block_slide", 520);
   ("block_honey_block_step", 521); ("block_iron_door_close", 557); ("block_iron_door_open", 558);
   ("block_iron_trapdoor_close", 565); ("block_iron_trapdoor_open", 566); ("block_ladder_break", 574);
   ("block_ladder_fall", 575); ("block_ladder_hit", 576); ("block_ladder_place", 577);
   ("block_ladder_step", 578); ("block_lantern_break", 579); ("block_lantern_fall", 580);
   ("block_lantern_hit", 581); ("block_lantern_place", 582); ("block_lantern_step", 583);
   ("block_large_amethyst_bud_break", 584); ("block_large_amethyst_bud_place", 585);
   ("block_lava_ambient", 586); ("block_lava_extinguish", 587); ("block_lava_pop", 588);
   ("block_lever_click", 591); ("block_lily_pad_place", 1203); ("block_lodestone_break", 605);
   ("block_lodestone_fall", 609); ("block_lodestone_hit", 608); ("block_lodestone_place", 607);
   ("block_lodestone_step", 606); ("block_mangrove_roots_break", 617); ("block_mangrove_roots_fall", 618);
   ("block_mangrove_roots_hit", 619); ("block_mangrove_roots_place", 620); ("block_mangrove_roots_step", 621);
   ("block_medium_amethyst_bud_break", 622); ("block_medium_amethyst_bud_place", 623);
   ("block_metal_break", 624); ("block_metal_fall", 625); ("block_metal_hit", 626); ("block_metal_place", 627);
   ("block_metal_step", 630); ("block_metal_pressure_plate_click_off", 628);
   ("block_metal_pressure_plate_click_on", 629); ("block_moss_break", 644); ("block_moss_fall", 645);
   ("block_moss_hit", 646); ("block_moss_place", 647); ("block_moss_step", 648);
   ("block_moss_carpet_break", 639); ("block_moss_carpet_fall", 640); ("block_moss_carpet_hit", 641);
   ("block_moss_carpet_place", 642); ("block_moss_carpet_step", 643); ("block_mud_break", 649);
   ("block_mud_fall", 650)].
Definition SoundsList_3 : list (string * Z) :=
  [("block_mud_hit", 651); ("block_mud_place", 652); ("block_mud_step", 653); ("block_mud_bricks_break", 654);
   ("block_mud_bricks_fall", 655); ("block_mud_bricks_hit", 656); ("block_mud_bricks_place", 657);
   ("block_mud_bricks_step", 658); ("block_muddy_mangrove_roots_break", 659);
   ("block_muddy_mangrove_roots_fall", 660); ("block_muddy_mangrove_roots_hit", 661);
   ("block_muddy_mangrove_roots_place", 662); ("block_muddy_mangrove_roots_step", 663);
   ("block_nether_bricks_break", 709); ("block_nether_bricks_fall", 713); ("block_nether_bricks_hit", 712);
   ("block_nether_bricks_place", 711); ("block_nether_bricks_step", 710); ("block_nether_gold_ore_break", 926);
   ("block_nether_gold_ore_fall", 927); ("block_nether_gold_ore_hit", 928);
   ("block_nether_gold_ore_place", 929); ("block_nether_gold_ore_step", 930); ("block_nether_ore_break", 931);
   ("block_nether_ore_fall", 932); ("block_nether_ore_hit", 933); ("block_nether_ore_place", 934);
   ("block_nether_ore_step", 935); ("block_nether_sprouts_break", 731); ("block_nether_sprouts_fall", 735);
   ("block_nether_sprouts_hit", 734); ("block_nether_sprouts_place", 733); ("block_nether_sprouts_step", 732);
   ("block_nether_wart_break", 714); ("block_netherite_block_break", 751); ("block_netherite_block_fall", 755);
   ("block_netherite_block_hit", 754); ("block_netherite_block_place", 753);
   ("block_netherite_block_step", 752); ("block_netherrack_break", 756); ("block_netherrack_fall", 760);
   ("block_netherrack_hit", 759); ("block_netherrack_place", 758); ("block_netherrack_step", 757);
   ("block_note_block_banjo", 776); ("block_note_block_basedrum", 761); ("block_note_block_bass", 762);
   ("block_note_block_bell", 763); ("block_note_block_bit", 775); ("block_note_block_chime", 764);
   ("block_note_block_cow_bell", 773); ("block_note_block_didgeridoo", 774); ("block_note_block_flute", 765);
   ("block_note_block_guitar", 766); ("block_note_block_harp", 767); ("block_note_block_hat", 768);
   ("block_note_block_iron_xylophone", 772); ("block_note_block_pling", 769); ("block_note_block_snare", 770);
   ("block_note_block_xylophone", 771); ("block_nylium_break", 726); ("block_nylium_fall", 730);
   ("block_nylium_hit", 729); ("block_nylium_place", 728); ("block_nylium_step", 727);
   ("block_packed_mud_break", 716); ("block_packed_mud_fall", 717); ("block_packed_mud_hit", 718);
   ("block_packed_mud_place", 719); ("block_packed_mud_step", 720); ("block_piston_contract", 863);
   ("block_piston_extend", 864); ("block_pointed_dripstone_break", 297);
   ("block_pointed_dripstone_drip_lava", 303); ("block_pointed_dripstone_drip_lava_into_cauldron", 305);
   ("block_pointed_dripstone_drip_water", 304); ("block_pointed_dripstone_drip_water_into_cauldron", 306);
   ("block_pointed_dripstone_fall", 301); ("block_pointed_dripstone_hit", 300);
   ("block_pointed_dripstone_land", 302); ("block_pointed_dripstone_place", 299);
   ("block_pointed_dripstone_step", 298); ("block_polished_deepslate_break", 891);
   ("block_polished_deepslate_fall", 892); ("block_polished_deepslate_hit", 893);
   ("block_polished_deepslate_place", 894); ("block_polished_deepslate_step", 895);
   ("block_portal_ambient", 896); ("block_portal_travel", 897); ("block_portal_trigger", 898);
   ("block_powder_snow_break", 899); ("block_powder_snow_fall", 900); ("block_powder_snow_hit", 901);
   ("block_powder_snow_place", 902); ("block_powder_snow_step", 903); ("block_pumpkin_carve", 911);
   ("block_redstone_torch_burnout", 936); ("block_respawn_anchor_ambient", 937);
   ("block_respawn_anchor_charge", 938); ("block_respawn_anchor_deplete", 939);
   ("block_respawn_anchor_set_spawn", 940); ("block_rooted_dirt_break", 941); ("block_rooted_dirt_fall", 942);
   ("block_rooted_dirt_hit", 943); ("block_rooted_dirt_place", 944); ("block_rooted_dirt_step", 945);
   ("block_roots_break", 419); ("block_roots_fall", 423); ("block_roots_hit", 422); ("block_roots_place", 421);
   ("block_roots_step", 420); ("block_sand_break", 950); ("block_sand_fall", 951); ("block_sand_hit", 952);
   ("block_sand_place", 953); ("block_sand_step", 954); ("block_scaffolding_break", 955);
   ("block_scaffolding_fall", 956); ("block_scaffolding_hit", 957); ("block_scaffolding_place", 958);
   ("block_scaffolding_step", 959); ("block_sculk_break", 962); ("block_sculk_charge", 961);
   ("block_sculk_fall", 963); ("block_sculk_hit", 964); ("block_sculk_place", 965);
   ("block_sculk_spread", 960); ("block_sculk_step", 966); ("block_sculk_catalyst_bloom", 967);
   ("block_sculk_catalyst_break", 968); ("block_sculk_catalyst_fall", 969); ("block_sculk_catalyst_hit", 970);
   ("block_sculk_catalyst_place", 971); ("block_sculk_catalyst_step", 972); ("block_sculk_sensor_break", 975);
   ("block_sculk_sensor_clicking", 973); ("block_sculk_sensor_clicking_stop", 974);
   ("block_sculk_sensor_fall", 976); ("block_sculk_sensor_hit", 977); ("block_sculk_sensor_place", 978);
   ("block_sculk_sensor_step", 979); ("block_sculk_shrieker_break", 980); ("block_sculk_shrieker_fall", 981);
   ("block_sculk_shrieker_hit", 982); ("block_sculk_shrieker_place", 983);
   ("block_sculk_shrieker_shriek", 984)].
Definition SoundsList_4 : list (string * Z) :=
  [("block_sculk_shrieker_step", 985); ("block_sculk_vein_break", 986); ("block_sculk_vein_fall", 987);
   ("block_sculk_vein_hit", 988); ("block_sculk_vein_place", 989); ("block_sculk_vein_step", 990);
   ("block_shroomlight_break", 998); ("block_shroomlight_fall", 1002); ("block_shroomlight_hit", 1001);
   ("block_shroomlight_place", 1000); ("block_shroomlight_step", 999); ("block_shulker_box_close", 1005);
   ("block_shulker_box_open", 1006); ("block_slime_block_break", 1039); ("block_slime_block_fall", 1040);
   ("block_slime_block_hit", 1041); ("block_slime_block_place", 1042); ("block_slime_block_step", 1043);
   ("block_small_amethyst_bud_break", 1044); ("block_small_amethyst_bud_place", 1045);
   ("block_small_dripleaf_break", 1046); ("block_small_dripleaf_fall", 1047);
   ("block_small_dripleaf_hit", 1048); ("block_small_dripleaf_place", 1049);
   ("block_small_dripleaf_step", 1050); ("block_smithing_table_use", 1080); ("block_smoker_smoke", 1081);
   ("block_snow_break", 1083); ("block_snow_fall", 1084); ("block_snow_hit", 1090); ("block_snow_place", 1091);
   ("block_snow_step", 1092); ("block_soul_sand_break", 1051); ("block_soul_sand_fall", 1055);
   ("block_soul_sand_hit", 1054); ("block_soul_sand_place", 1053); ("block_soul_sand_step", 1052);
   ("block_soul_soil_break", 1056); ("block_soul_soil_fall", 1060); ("block_soul_soil_hit", 1059);
   ("block_soul_soil_place", 1058); ("block_soul_soil_step", 1057); ("block_spore_blossom_break", 1062);
   ("block_spore_blossom_fall", 1063); ("block_spore_blossom_hit", 1064); ("block_spore_blossom_place", 1065);
   ("block_spore_blossom_step", 1066); ("block_stem_break", 721); ("block_stem_fall", 725);
   ("block_stem_hit", 724); ("block_stem_place", 723); ("block_stem_step", 722); ("block_stone_break", 1105);
   ("block_stone_fall", 1108); ("block_stone_hit", 1109); ("block_stone_place", 1110);
   ("block_stone_step", 1113); ("block_stone_button_click_off", 1106); ("block_stone_button_click_on", 1107);
   ("block_stone_pressure_plate_click_off", 1111); ("block_stone_pressure_plate_click_on", 1112);
   ("block_sweet_berry_bush_break", 1118); ("block_sweet_berry_bush_pick_berries", 1120);
   ("block_sweet_berry_bush_place", 1119); ("block_tripwire_attach", 1136); ("block_tripwire_click_off", 1137);
   ("block_tripwire_click_on", 1138); ("block_tripwire_detach", 1139); ("block_tuff_break", 1144);
   ("block_tuff_fall", 1148); ("block_tuff_hit", 1147); ("block_tuff_place", 1146); ("block_tuff_step", 1145);
   ("block_vine_break", 1198); ("block_vine_fall", 1199); ("block_vine_hit", 1200); ("block_vine_place", 1201);
   ("block_vine_step", 1202); ("block_wart_block_break", 746); ("block_wart_block_fall", 750);
   ("block_wart_block_hit", 749); ("block_wart_block_place", 748); ("block_wart_block_step", 747);
   ("block_water_ambient", 1234); ("block_weeping_vines_break", 741); ("block_weeping_vines_fall", 745);
   ("block_weeping_vines_hit", 744); ("block_weeping_vines_place", 743); ("block_weeping_vines_step", 742);
   ("block_wet_grass_break", 1237); ("block_wet_grass_fall", 1238); ("block_wet_grass_hit", 1239);
   ("block_wet_grass_place", 1240); ("block_wet_grass_step", 1241); ("block_wood_break", 1271);
   ("block_wood_fall", 1274); ("block_wood_hit", 1275); ("block_wood_place", 1276); ("block_wood_step", 1279);
   ("block_wooden_button_click_off", 1272); ("block_wooden_button_click_on", 1273);
   ("block_wooden_door_close", 1267); ("block_wooden_door_open", 1268);
   ("block_wooden_pressure_plate_click_off", 1277); ("block_wooden_pressure_plate_click_on", 1278);
   ("block_wooden_trapdoor_close", 1269); ("block_wooden_trapdoor_open", 1270); ("block_wool_break", 1280);
   ("block_wool_fall", 1281); ("block_wool_hit", 1282); ("block_wool_place", 1283); ("block_wool_step", 1284);
   ("enchant_thorns_hit", 1125); ("entity_allay_ambient_with_item", 0);
   ("entity_allay_ambient_without_item", 1); ("entity_allay_death", 2); ("entity_allay_hurt", 3);
   ("entity_allay_item_given", 4); ("entity_allay_item_taken", 5); ("entity_allay_item_thrown", 6);
   ("entity_armor_stand_break", 62); ("entity_armor_stand_fall", 63); ("entity_armor_stand_hit", 64);
   ("entity_armor_stand_place", 65); ("entity_arrow_hit", 66); ("entity_arrow_hit_player", 67);
   ("entity_arrow_shoot", 68); ("entity_axolotl_attack", 72); ("entity_axolotl_death", 73);
   ("entity_axolotl_hurt", 74); ("entity_axolotl_idle_air", 75); ("entity_axolotl_idle_water", 76);
   ("entity_axolotl_splash", 77); ("entity_axolotl_swim", 78); ("entity_bat_ambient", 104);
   ("entity_bat_death", 105); ("entity_bat_hurt", 106); ("entity_bat_loop", 107); ("entity_bat_takeoff", 108);
   ("entity_bee_death", 113); ("entity_bee_hurt", 114); ("entity_bee_loop", 116);
   ("entity_bee_loop_aggressive", 115); ("entity_bee_pollinate", 118); ("entity_bee_sting", 117);
   ("entity_blaze_ambient", 131)].
Definition SoundsList_5 : list (string * Z) :=
  [("entity_blaze_burn", 132); ("entity_blaze_death", 133); ("entity_blaze_hurt", 134);
   ("entity_blaze_shoot", 135); ("entity_boat_paddle_land", 136); ("entity_boat_paddle_water", 137);
   ("entity_cat_ambient", 185); ("entity_cat_beg_for_food", 190); ("entity_cat_death", 187);
   ("entity_cat_eat", 188); ("entity_cat_hiss", 189); ("entity_cat_hurt", 191); ("entity_cat_purr", 192);
   ("entity_cat_purreow", 193); ("entity_cat_stray_ambient", 186); ("entity_chicken_ambient", 208);
   ("entity_chicken_death", 209); ("entity_chicken_egg", 210); ("entity_chicken_hurt", 211);
   ("entity_chicken_step", 212); ("entity_cod_ambient", 216); ("entity_cod_death", 217);
   ("entity_cod_flop", 218); ("entity_cod_hurt", 219); ("entity_cow_ambient", 240); ("entity_cow_death", 241);
   ("entity_cow_hurt", 242); ("entity_cow_milk", 243); ("entity_cow_step", 244); ("entity_creeper_death", 245);
   ("entity_creeper_hurt", 246); ("entity_creeper_primed", 247); ("entity_dolphin_ambient", 276);
   ("entity_dolphin_ambient_water", 277); ("entity_dolphin_attack", 278); ("entity_dolphin_death", 279);
   ("entity_dolphin_eat", 280); ("entity_dolphin_hurt", 281); ("entity_dolphin_jump", 282);
   ("entity_dolphin_play", 283); ("entity_dolphin_splash", 284); ("entity_dolphin_swim", 285);
   ("entity_donkey_ambient", 286); ("entity_donkey_angry", 287); ("entity_donkey_chest", 288);
   ("entity_donkey_death", 289); ("entity_donkey_eat", 290); ("entity_donkey_hurt", 291);
   ("entity_dragon_fireball_explode", 334); ("entity_drowned_ambient", 309);
   ("entity_drowned_ambient_water", 310); ("entity_drowned_death", 311); ("entity_drowned_death_water", 312);
   ("entity_drowned_hurt", 313); ("entity_drowned_hurt_water", 314); ("entity_drowned_shoot", 315);
   ("entity_drowned_step", 316); ("entity_drowned_swim", 317); ("entity_egg_throw", 319);
   ("entity_elder_guardian_ambient", 320); ("entity_elder_guardian_ambient_land", 321);
   ("entity_elder_guardian_curse", 322); ("entity_elder_guardian_death", 323);
   ("entity_elder_guardian_death_land", 324); ("entity_elder_guardian_flop", 325);
   ("entity_elder_guardian_hurt", 326); ("entity_elder_guardian_hurt_land", 327);
   ("entity_ender_dragon_ambient", 332); ("entity_ender_dragon_death", 333); ("entity_ender_dragon_flap", 335);
   ("entity_ender_dragon_growl", 336); ("entity_ender_dragon_hurt", 337); ("entity_ender_dragon_shoot", 338);
   ("entity_ender_eye_death", 339); ("entity_ender_eye_launch", 340); ("entity_ender_pearl_throw", 351);
   ("entity_enderman_ambient", 341); ("entity_enderman_death", 342); ("entity_enderman_hurt", 343);
   ("entity_enderman_scream", 344); ("entity_enderman_stare", 345); ("entity_enderman_teleport", 346);
   ("entity_endermite_ambient", 347); ("entity_endermite_death", 348); ("entity_endermite_hurt", 349);
   ("entity_endermite_step", 350); ("entity_evoker_ambient", 355); ("entity_evoker_cast_spell", 356);
   ("entity_evoker_celebrate", 357); ("entity_evoker_death", 358); ("entity_evoker_hurt", 360);
   ("entity_evoker_prepare_attack", 361); ("entity_evoker_prepare_summon", 362);
   ("entity_evoker_prepare_wololo", 363); ("entity_evoker_fangs_attack", 359);
   ("entity_experience_bottle_throw", 364); ("entity_experience_orb_pickup", 365);
   ("entity_firework_rocket_blast", 369); ("entity_firework_rocket_blast_far", 370);
   ("entity_firework_rocket_large_blast", 371); ("entity_firework_rocket_large_blast_far", 372);
   ("entity_firework_rocket_launch", 373); ("entity_firework_rocket_shoot", 374);
   ("entity_firework_rocket_twinkle", 375); ("entity_firework_rocket_twinkle_far", 376);
   ("entity_fish_swim", 379); ("entity_fishing_bobber_retrieve", 380); ("entity_fishing_bobber_splash", 381);
   ("entity_fishing_bobber_throw", 382); ("entity_fox_aggro", 389); ("entity_fox_ambient", 390);
   ("entity_fox_bite", 391); ("entity_fox_death", 392); ("entity_fox_eat", 393); ("entity_fox_hurt", 394);
   ("entity_fox_screech", 395); ("entity_fox_sleep", 396); ("entity_fox_sniff", 397); ("entity_fox_spit", 398);
   ("entity_fox_teleport", 399); ("entity_frog_ambient", 411); ("entity_frog_death", 412);
   ("entity_frog_eat", 413); ("entity_frog_hurt", 414); ("entity_frog_lay_spawn", 415);
   ("entity_frog_long_jump", 416); ("entity_frog_step", 417); ("entity_frog_tongue", 418);
   ("entity_generic_big_fall", 425); ("entity_generic_burn", 426); ("entity_generic_death", 427);
   ("entity_generic_drink", 428); ("entity_generic_eat", 429); ("entity_generic_explode", 430);
   ("entity_generic_extinguish_fire", 431); ("entity_generic_hurt", 432); ("entity_generic_small_fall", 433);
   ("entity_generic_splash", 434); ("entity_generic_swim", 435); ("entity_ghast_ambient", 436);
   ("entity_ghast_death", 437); ("entity_ghast_hurt", 438); ("entity_ghast_scream", 439);
   ("entity_ghast_shoot", 440); ("entity_ghast_warn", 441); ("entity_glow_item_frame_add_item", 453)].
Definition SoundsList_6 : list (string * Z) :=
  [("entity_glow_item_frame_break", 454); ("entity_glow_item_frame_place", 455);
   ("entity_glow_item_frame_remove_item", 456); ("entity_glow_item_frame_rotate_item", 457);
   ("entity_glow_squid_ambient", 458); ("entity_glow_squid_death", 459); ("entity_glow_squid_hurt", 460);
   ("entity_glow_squid_squirt", 461); ("entity_goat_ambient", 462); ("entity_goat_death", 463);
   ("entity_goat_eat", 464); ("entity_goat_horn_break", 470); ("entity_goat_hurt", 465);
   ("entity_goat_long_jump", 466); ("entity_goat_milk", 467); ("entity_goat_prepare_ram", 468);
   ("entity_goat_ram_impact", 469); ("entity_goat_screaming_ambient", 472);
   ("entity_goat_screaming_death", 473); ("entity_goat_screaming_eat", 474);
   ("entity_goat_screaming_horn_break", 480); ("entity_goat_screaming_hurt", 475);
   ("entity_goat_screaming_long_jump", 476); ("entity_goat_screaming_milk", 477);
   ("entity_goat_screaming_prepare_ram", 478); ("entity_goat_screaming_ram_impact", 479);
   ("entity_goat_step", 481); ("entity_guardian_ambient", 494); ("entity_guardian_ambient_land", 495);
   ("entity_guardian_attack", 496); ("entity_guardian_death", 497); ("entity_guardian_death_land", 498);
   ("entity_guardian_flop", 499); ("entity_guardian_hurt", 500); ("entity_guardian_hurt_land", 501);
   ("entity_hoglin_ambient", 508); ("entity_hoglin_angry", 509); ("entity_hoglin_attack", 510);
   ("entity_hoglin_converted_to_zombified", 511); ("entity_hoglin_death", 512); ("entity_hoglin_hurt", 513);
   ("entity_hoglin_retreat", 514); ("entity_hoglin_step", 515); ("entity_horse_ambient", 525);
   ("entity_horse_angry", 526); ("entity_horse_armor", 527); ("entity_horse_breathe", 528);
   ("entity_horse_death", 529); ("entity_horse_eat", 530); ("entity_horse_gallop", 531);
   ("entity_horse_hurt", 532); ("entity_horse_jump", 533); ("entity_horse_land", 534);
   ("entity_horse_saddle", 535); ("entity_horse_step", 536); ("entity_horse_step_wood", 537);
   ("entity_hostile_big_fall", 538); ("entity_hostile_death", 539); ("entity_hostile_hurt", 540);
   ("entity_hostile_small_fall", 541); ("entity_hostile_splash", 542); ("entity_hostile_swim", 543);
   ("entity_husk_ambient", 544); ("entity_husk_converted_to_zombie", 545); ("entity_husk_death", 546);
   ("entity_husk_hurt", 547); ("entity_husk_step", 548); ("entity_illusioner_ambient", 549);
   ("entity_illusioner_cast_spell", 550); ("entity_illusioner_death", 551); ("entity_illusioner_hurt", 552);
   ("entity_illusioner_mirror_move", 553); ("entity_illusioner_prepare_blindness", 554);
   ("entity_illusioner_prepare_mirror", 555); ("entity_iron_golem_attack", 559);
   ("entity_iron_golem_damage", 560); ("entity_iron_golem_death", 561); ("entity_iron_golem_hurt", 562);
   ("entity_iron_golem_repair", 563); ("entity_iron_golem_step", 564); ("entity_item_break", 572);
   ("entity_item_pickup", 573); ("entity_item_frame_add_item", 567); ("entity_item_frame_break", 568);
   ("entity_item_frame_place", 569); ("entity_item_frame_remove_item", 570);
   ("entity_item_frame_rotate_item", 571); ("entity_leash_knot_break", 589); ("entity_leash_knot_place", 590);
   ("entity_lightning_bolt_impact", 592); ("entity_lightning_bolt_thunder", 593);
   ("entity_lingering_potion_throw", 594); ("entity_llama_ambient", 595); ("entity_llama_angry", 596);
   ("entity_llama_chest", 597); ("entity_llama_death", 598); ("entity_llama_eat", 599);
   ("entity_llama_hurt", 600); ("entity_llama_spit", 601); ("entity_llama_step", 602);
   ("entity_llama_swag", 603); ("entity_magma_cube_death", 611); ("entity_magma_cube_death_small", 604);
   ("entity_magma_cube_hurt", 612); ("entity_magma_cube_hurt_small", 613); ("entity_magma_cube_jump", 614);
   ("entity_magma_cube_squish", 615); ("entity_magma_cube_squish_small", 616); ("entity_minecart_inside", 632);
   ("entity_minecart_inside_underwater", 631); ("entity_minecart_riding", 633);
   ("entity_mooshroom_convert", 634); ("entity_mooshroom_eat", 635); ("entity_mooshroom_milk", 636);
   ("entity_mooshroom_shear", 638); ("entity_mooshroom_suspicious_milk", 637); ("entity_mule_ambient", 664);
   ("entity_mule_angry", 665); ("entity_mule_chest", 666); ("entity_mule_death", 667);
   ("entity_mule_eat", 668); ("entity_mule_hurt", 669); ("entity_ocelot_ambient", 778);
   ("entity_ocelot_death", 779); ("entity_ocelot_hurt", 777); ("entity_painting_break", 780);
   ("entity_painting_place", 781); ("entity_panda_aggressive_ambient", 789); ("entity_panda_ambient", 784);
   ("entity_panda_bite", 792); ("entity_panda_cant_breed", 788); ("entity_panda_death", 785);
   ("entity_panda_eat", 786); ("entity_panda_hurt", 791); ("entity_panda_pre_sneeze", 782);
   ("entity_panda_sneeze", 783); ("entity_panda_step", 787); ("entity_panda_worried_ambient", 790);
   ("entity_parrot_ambient", 793); ("entity_parrot_death", 794); ("entity_parrot_eat", 795);
   ("entity_parrot_fly", 796); ("entity_parrot_hurt", 797); ("entity_parrot_imitate_blaze", 798);
   ("entity_parrot_imitate_creeper", 799); ("entity_parrot_imitate_drowned", 800)].
Definition SoundsList_7 : list (string * Z) :=
  [("entity_parrot_imitate_elder_guardian", 801); ("entity_parrot_imitate_ender_dragon", 802);
   ("entity_parrot_imitate_endermite", 803); ("entity_parrot_imitate_evoker", 804);
   ("entity_parrot_imitate_ghast", 805); ("entity_parrot_imitate_guardian", 806);
   ("entity_parrot_imitate_hoglin", 807); ("entity_parrot_imitate_husk", 808);
   ("entity_parrot_imitate_illusioner", 809); ("entity_parrot_imitate_magma_cube", 810);
   ("entity_parrot_imitate_phantom", 811); ("entity_parrot_imitate_piglin", 812);
   ("entity_parrot_imitate_piglin_brute", 813); ("entity_parrot_imitate_pillager", 814);
   ("entity_parrot_imitate_ravager", 815); ("entity_parrot_imitate_shulker", 816);
   ("entity_parrot_imitate_silverfish", 817); ("entity_parrot_imitate_skeleton", 818);
   ("entity_parrot_imitate_slime", 819); ("entity_parrot_imitate_spider", 820);
   ("entity_parrot_imitate_stray", 821); ("entity_parrot_imitate_vex", 822);
   ("entity_parrot_imitate_vindicator", 823); ("entity_parrot_imitate_warden", 824);
   ("entity_parrot_imitate_witch", 825); ("entity_parrot_imitate_wither", 826);
   ("entity_parrot_imitate_wither_skeleton", 827); ("entity_parrot_imitate_zoglin", 828);
   ("entity_parrot_imitate_zombie", 829); ("entity_parrot_imitate_zombie_villager", 830);
   ("entity_parrot_step", 831); ("entity_phantom_ambient", 832); ("entity_phantom_bite", 833);
   ("entity_phantom_death", 834); ("entity_phantom_flap", 835); ("entity_phantom_hurt", 836);
   ("entity_phantom_swoop", 837); ("entity_pig_ambient", 838); ("entity_pig_death", 839);
   ("entity_pig_hurt", 840); ("entity_pig_saddle", 841); ("entity_pig_step", 842);
   ("entity_piglin_admiring_item", 843); ("entity_piglin_ambient", 844); ("entity_piglin_angry", 845);
   ("entity_piglin_celebrate", 846); ("entity_piglin_converted_to_zombified", 852);
   ("entity_piglin_death", 847); ("entity_piglin_hurt", 849); ("entity_piglin_jealous", 848);
   ("entity_piglin_retreat", 850); ("entity_piglin_step", 851); ("entity_piglin_brute_ambient", 853);
   ("entity_piglin_brute_angry", 854); ("entity_piglin_brute_converted_to_zombified", 858);
   ("entity_piglin_brute_death", 855); ("entity_piglin_brute_hurt", 856); ("entity_piglin_brute_step", 857);
   ("entity_pillager_ambient", 859); ("entity_pillager_celebrate", 860); ("entity_pillager_death", 861);
   ("entity_pillager_hurt", 862); ("entity_player_attack_crit", 865); ("entity_player_attack_knockback", 866);
   ("entity_player_attack_nodamage", 867); ("entity_player_attack_strong", 868);
   ("entity_player_attack_sweep", 869); ("entity_player_attack_weak", 870); ("entity_player_big_fall", 871);
   ("entity_player_breath", 872); ("entity_player_burp", 873); ("entity_player_death", 874);
   ("entity_player_hurt", 875); ("entity_player_hurt_drown", 876); ("entity_player_hurt_freeze", 877);
   ("entity_player_hurt_on_fire", 878); ("entity_player_hurt_sweet_berry_bush", 879);
   ("entity_player_levelup", 880); ("entity_player_small_fall", 881); ("entity_player_splash", 882);
   ("entity_player_splash_high_speed", 883); ("entity_player_swim", 884); ("entity_polar_bear_ambient", 885);
   ("entity_polar_bear_ambient_baby", 886); ("entity_polar_bear_death", 887); ("entity_polar_bear_hurt", 888);
   ("entity_polar_bear_step", 889); ("entity_polar_bear_warning", 890); ("entity_puffer_fish_ambient", 904);
   ("entity_puffer_fish_blow_out", 905); ("entity_puffer_fish_blow_up", 906);
   ("entity_puffer_fish_death", 907); ("entity_puffer_fish_flop", 908); ("entity_puffer_fish_hurt", 909);
   ("entity_puffer_fish_sting", 910); ("entity_rabbit_ambient", 912); ("entity_rabbit_attack", 913);
   ("entity_rabbit_death", 914); ("entity_rabbit_hurt", 915); ("entity_rabbit_jump", 916);
   ("entity_ravager_ambient", 918); ("entity_ravager_attack", 919); ("entity_ravager_celebrate", 920);
   ("entity_ravager_death", 921); ("entity_ravager_hurt", 922); ("entity_ravager_roar", 925);
   ("entity_ravager_step", 923); ("entity_ravager_stunned", 924); ("entity_salmon_ambient", 946);
   ("entity_salmon_death", 947); ("entity_salmon_flop", 948); ("entity_salmon_hurt", 949);
   ("entity_sheep_ambient", 991); ("entity_sheep_death", 992); ("entity_sheep_hurt", 993);
   ("entity_sheep_shear", 994); ("entity_sheep_step", 995); ("entity_shulker_ambient", 1004);
   ("entity_shulker_close", 1009); ("entity_shulker_death", 1010); ("entity_shulker_hurt", 1011);
   ("entity_shulker_hurt_closed", 1012); ("entity_shulker_open", 1013); ("entity_shulker_shoot", 1014);
   ("entity_shulker_teleport", 1015); ("entity_shulker_bullet_hit", 1007);
   ("entity_shulker_bullet_hurt", 1008); ("entity_silverfish_ambient", 1016);
   ("entity_silverfish_death", 1017); ("entity_silverfish_hurt", 1018); ("entity_silverfish_step", 1019);
   ("entity_skeleton_ambient", 1020); ("entity_skeleton_converted_to_stray", 1021);
   ("entity_skeleton_death", 1022); ("entity_skeleton_hurt", 1031); ("entity_skeleton_shoot", 1032);
   ("entity_skeleton_step", 1033); ("entity_skeleton_horse_ambient", 1023);
   ("entity_skeleton_horse_ambient_water", 1027); ("entity_skeleton_horse_death", 1024);
   ("entity_skeleton_horse_gallop_water", 1028); ("entity_skeleton_horse_hurt", 1025);
   ("entity_skeleton_horse_jump_water", 1029); ("entity_skeleton_horse_step_water", 1030);
   ("entity_skeleton_horse_swim", 1026); ("entity_slime_attack", 1034)].
Definition SoundsList_8 : list (string * Z) :=
  [("entity_slime_death", 1035); ("entity_slime_death_small", 1076); ("entity_slime_hurt", 1036);
   ("entity_slime_hurt_small", 1077); ("entity_slime_jump", 1037); ("entity_slime_jump_small", 1078);
   ("entity_slime_squish", 1038); ("entity_slime_squish_small", 1079); ("entity_snow_golem_ambient", 1085);
   ("entity_snow_golem_death", 1086); ("entity_snow_golem_hurt", 1087); ("entity_snow_golem_shear", 1089);
   ("entity_snow_golem_shoot", 1088); ("entity_snowball_throw", 1082); ("entity_spider_ambient", 1093);
   ("entity_spider_death", 1094); ("entity_spider_hurt", 1095); ("entity_spider_step", 1096);
   ("entity_splash_potion_break", 1097); ("entity_splash_potion_throw", 1098); ("entity_squid_ambient", 1101);
   ("entity_squid_death", 1102); ("entity_squid_hurt", 1103); ("entity_squid_squirt", 1104);
   ("entity_stray_ambient", 1114); ("entity_stray_death", 1115); ("entity_stray_hurt", 1116);
   ("entity_stray_step", 1117); ("entity_strider_ambient", 1067); ("entity_strider_death", 1070);
   ("entity_strider_eat", 1074); ("entity_strider_happy", 1068); ("entity_strider_hurt", 1071);
   ("entity_strider_retreat", 1069); ("entity_strider_saddle", 1075); ("entity_strider_step", 1072);
   ("entity_strider_step_lava", 1073); ("entity_tadpole_death", 1121); ("entity_tadpole_flop", 1122);
   ("entity_tadpole_grow_up", 1123); ("entity_tadpole_hurt", 1124); ("entity_tnt_primed", 1126);
   ("entity_tropical_fish_ambient", 1140); ("entity_tropical_fish_death", 1141);
   ("entity_tropical_fish_flop", 1142); ("entity_tropical_fish_hurt", 1143);
   ("entity_turtle_ambient_land", 1149); ("entity_turtle_death", 1150); ("entity_turtle_death_baby", 1151);
   ("entity_turtle_egg_break", 1152); ("entity_turtle_egg_crack", 1153); ("entity_turtle_egg_hatch", 1154);
   ("entity_turtle_hurt", 1155); ("entity_turtle_hurt_baby", 1156); ("entity_turtle_lay_egg", 1157);
   ("entity_turtle_shamble", 1158); ("entity_turtle_shamble_baby", 1159); ("entity_turtle_swim", 1160);
   ("entity_vex_ambient", 1170); ("entity_vex_charge", 1171); ("entity_vex_death", 1172);
   ("entity_vex_hurt", 1173); ("entity_villager_ambient", 1174); ("entity_villager_celebrate", 1175);
   ("entity_villager_death", 1176); ("entity_villager_hurt", 1177); ("entity_villager_no", 1178);
   ("entity_villager_trade", 1179); ("entity_villager_work_armorer", 1181);
   ("entity_villager_work_butcher", 1182); ("entity_villager_work_cartographer", 1183);
   ("entity_villager_work_cleric", 1184); ("entity_villager_work_farmer", 1185);
   ("entity_villager_work_fisherman", 1186); ("entity_villager_work_fletcher", 1187);
   ("entity_villager_work_leatherworker", 1188); ("entity_villager_work_librarian", 1189);
   ("entity_villager_work_mason", 1190); ("entity_villager_work_shepherd", 1191);
   ("entity_villager_work_toolsmith", 1192); ("entity_villager_work_weaponsmith", 1193);
   ("entity_villager_yes", 1180); ("entity_vindicator_ambient", 1194); ("entity_vindicator_celebrate", 1195);
   ("entity_vindicator_death", 1196); ("entity_vindicator_hurt", 1197);
   ("entity_wandering_trader_ambient", 1204); ("entity_wandering_trader_death", 1205);
   ("entity_wandering_trader_disappeared", 1206); ("entity_wandering_trader_drink_milk", 1207);
   ("entity_wandering_trader_drink_potion", 1208); ("entity_wandering_trader_hurt", 1209);
   ("entity_wandering_trader_no", 1210); ("entity_wandering_trader_reappeared", 1211);
   ("entity_wandering_trader_trade", 1212); ("entity_wandering_trader_yes", 1213);
   ("entity_warden_agitated", 1214); ("entity_warden_ambient", 1215); ("entity_warden_angry", 1216);
   ("entity_warden_attack_impact", 1217); ("entity_warden_death", 1218); ("entity_warden_dig", 1219);
   ("entity_warden_emerge", 1220); ("entity_warden_heartbeat", 1221); ("entity_warden_hurt", 1222);
   ("entity_warden_listening", 1223); ("entity_warden_listening_angry", 1224);
   ("entity_warden_nearby_close", 1225); ("entity_warden_nearby_closer", 1226);
   ("entity_warden_nearby_closest", 1227); ("entity_warden_roar", 1228); ("entity_warden_sniff", 1229);
   ("entity_warden_sonic_boom", 1230); ("entity_warden_sonic_charge", 1231); ("entity_warden_step", 1232);
   ("entity_warden_tendril_clicks", 1233); ("entity_witch_ambient", 1242); ("entity_witch_celebrate", 1243);
   ("entity_witch_death", 1244); ("entity_witch_drink", 1245); ("entity_witch_hurt", 1246);
   ("entity_witch_throw", 1247); ("entity_wither_ambient", 1248); ("entity_wither_break_block", 1249);
   ("entity_wither_death", 1250); ("entity_wither_hurt", 1251); ("entity_wither_shoot", 1252);
   ("entity_wither_spawn", 1257); ("entity_wither_skeleton_ambient", 1253);
   ("entity_wither_skeleton_death", 1254); ("entity_wither_skeleton_hurt", 1255);
   ("entity_wither_skeleton_step", 1256); ("entity_wolf_ambient", 1258); ("entity_wolf_death", 1259);
   ("entity_wolf_growl", 1260); ("entity_wolf_howl", 1261); ("entity_wolf_hurt", 1262);
   ("entity_wolf_pant", 1263); ("entity_wolf_shake", 1264); ("entity_wolf_step", 1265);
   ("entity_wolf_whine", 1266); ("entity_zoglin_ambient", 1285); ("entity_zoglin_angry", 1286);
   ("entity_zoglin_attack", 1287); ("entity_zoglin_death", 1288); ("entity_zoglin_hurt", 1289)].
Definition SoundsList_9 : list (string * Z) :=
  [("entity_zoglin_step", 1290); ("entity_zombie_ambient", 1291); ("entity_zombie_attack_iron_door", 1293);
   ("entity_zombie_attack_wooden_door", 1292); ("entity_zombie_break_wooden_door", 1294);
   ("entity_zombie_converted_to_drowned", 1295); ("entity_zombie_death", 1296);
   ("entity_zombie_destroy_egg", 1297); ("entity_zombie_hurt", 1301); ("entity_zombie_infect", 1302);
   ("entity_zombie_step", 1307); ("entity_zombie_horse_ambient", 1298); ("entity_zombie_horse_death", 1299);
   ("entity_zombie_horse_hurt", 1300); ("entity_zombie_villager_ambient", 1308);
   ("entity_zombie_villager_converted", 1309); ("entity_zombie_villager_cure", 1310);
   ("entity_zombie_villager_death", 1311); ("entity_zombie_villager_hurt", 1312);
   ("entity_zombie_villager_step", 1313); ("entity_zombified_piglin_ambient", 1303);
   ("entity_zombified_piglin_angry", 1304); ("entity_zombified_piglin_death", 1305);
   ("entity_zombified_piglin_hurt", 1306); ("event_raid_horn", 917); ("item_armor_equip_chain", 53);
   ("item_armor_equip_diamond", 54); ("item_armor_equip_elytra", 55); ("item_armor_equip_generic", 56);
   ("item_armor_equip_gold", 57); ("item_armor_equip_iron", 58); ("item_armor_equip_leather", 59);
   ("item_armor_equip_netherite", 60); ("item_armor_equip_turtle", 61); ("item_axe_scrape", 70);
   ("item_axe_strip", 69); ("item_axe_wax_off", 71); ("item_bone_meal_use", 143); ("item_book_page_turn", 144);
   ("item_book_put", 145); ("item_bottle_empty", 147); ("item_bottle_fill", 148);
   ("item_bottle_fill_dragonbreath", 149); ("item_bucket_empty", 156); ("item_bucket_empty_axolotl", 157);
   ("item_bucket_empty_fish", 158); ("item_bucket_empty_lava", 159); ("item_bucket_empty_powder_snow", 160);
   ("item_bucket_empty_tadpole", 161); ("item_bucket_fill", 162); ("item_bucket_fill_axolotl", 163);
   ("item_bucket_fill_fish", 164); ("item_bucket_fill_lava", 165); ("item_bucket_fill_powder_snow", 166);
   ("item_bucket_fill_tadpole", 167); ("item_bundle_drop_contents", 168); ("item_bundle_insert", 169);
   ("item_bundle_remove_one", 170); ("item_chorus_fruit_teleport", 215); ("item_crop_plant", 249);
   ("item_crossbow_hit", 250); ("item_crossbow_loading_end", 251); ("item_crossbow_loading_middle", 252);
   ("item_crossbow_loading_start", 253); ("item_crossbow_quick_charge_1", 254);
   ("item_crossbow_quick_charge_2", 255); ("item_crossbow_quick_charge_3", 256); ("item_crossbow_shoot", 257);
   ("item_dye_use", 318); ("item_elytra_flying", 328); ("item_firecharge_use", 368);
   ("item_flintandsteel_use", 383); ("item_glow_ink_sac_use", 452); ("item_goat_horn_play", 471);
   ("item_hoe_till", 507); ("item_honey_bottle_drink", 524); ("item_honeycomb_wax_on", 522);
   ("item_ink_sac_use", 556); ("item_lodestone_compass_lock", 610); ("item_nether_wart_plant", 715);
   ("item_shield_block", 996); ("item_shield_break", 997); ("item_shovel_flatten", 1003);
   ("item_spyglass_stop_using", 1100); ("item_spyglass_use", 1099); ("item_totem_use", 1127);
   ("item_trident_hit", 1128); ("item_trident_hit_ground", 1129); ("item_trident_return", 1130);
   ("item_trident_riptide_1", 1131); ("item_trident_riptide_2", 1132); ("item_trident_riptide_3", 1133);
   ("item_trident_throw", 1134); ("item_trident_thunder", 1135); ("music_creative", 670);
   ("music_credits", 671); ("music_dragon", 687); ("music_end", 688); ("music_game", 689); ("music_menu", 690);
   ("music_nether_basalt_deltas", 691); ("music_nether_crimson_forest", 692);
   ("music_nether_nether_wastes", 702); ("music_nether_soul_sand_valley", 705);
   ("music_nether_warped_forest", 707); ("music_overworld_deep_dark", 693);
   ("music_overworld_dripstone_caves", 694); ("music_overworld_frozen_peaks", 703);
   ("music_overworld_grove", 695); ("music_overworld_jagged_peaks", 696);
   ("music_overworld_jungle_and_forest", 699); ("music_overworld_lush_caves", 697);
   ("music_overworld_meadow", 701); ("music_overworld_old_growth_taiga", 700);
   ("music_overworld_snowy_slopes", 704); ("music_overworld_stony_peaks", 706); ("music_overworld_swamp", 698);
   ("music_under_water", 708); ("music_disc_11", 673); ("music_disc_13", 674); ("music_disc_5", 672);
   ("music_disc_blocks", 675); ("music_disc_cat", 676); ("music_disc_chirp", 677); ("music_disc_far", 678);
   ("music_disc_mall", 679); ("music_disc_mellohi", 680); ("music_disc_otherside", 686);
   ("music_disc_pigstep", 681); ("music_disc_stal", 682); ("music_disc_strad", 683); ("music_disc_wait", 684);
   ("music_disc_ward", 685); ("particle_soul_escape", 1061); ("ui_button_click", 1161);
   ("ui_cartography_table_take_result", 1164); ("ui_loom_select_pattern", 1162); ("ui_loom_take_result", 1163);
   ("ui_stonecutter_select_recipe", 1166); ("ui_stonecutter_take_result", 1165);
   ("ui_toast_challenge_complete", 1167); ("ui_toast_in", 1168); ("ui_toast_out", 1169);
   ("weather_rain", 1235); ("weather_rain_above", 1236)].

Definition SoundsList : list (string * Z) :=
  SoundsList_1 ++ SoundsList_2 ++ SoundsList_3 ++ SoundsList_4 ++ SoundsList_5 ++ SoundsList_6 ++ SoundsList_7 ++ SoundsList_8 ++ SoundsList_9.

(** The number of an enumerator. *)
Definition sound_number (name : string) : option Z :=
  snd <$> List.find (λ e, bool_decide (e.1 = name)) SoundsList.

(** ** Ticks *)

Section Sounds.
Context `{Cfb8} `{JobPool} `{JsonLib} `{!Plugins}.

(** Player::tick; Item::tick does nothing. *)
Definition Entity_tick (id : Z) : M Game unit :=
  p ← gets (λ g, g_players g !! id); match p with Some _ => Player_tick id | None => mret tt end.

(** Dimension::tick, in the thread of the dimension. *)
Definition Dimension_tick : M Game unit := l ← in_dimension _entities; for_each l Entity_tick.

(** [_sinceLastSE], next to the rest of the game. *)
Definition on_game {A} (p : M Game A) : M (Z * Game) A := member snd (λ g s, (s.1, g)) p.

(** The inner loops of [SoundSystem::tick]; the other dimensions have no players. *)
Definition ring : M Game unit :=
  match sound_number "block_bell_use" with
  | Some sound => each_player (λ player, Player_playSoundEffect_on player sound player (category_number Ambient))
  | None => mret tt
  end.

Definition SoundSystem_tick : M (Z * Game) unit :=
  _ ← modify (λ s, (to_u32 (s.1 + 1), s.2));
  sinceLastSE ← gets fst;
  if decide (sinceLastSE ≤ 20 * 20) then mret tt
  else _ ← modify (λ s, (0, s.2)); on_game ring.

(** One turn of [WorldGroup::_run]. *)
Definition WorldGroup_tick : M (Z * Game) unit := _ ← on_game World_tick; SoundSystem_tick.

(** ** The system rings every 401 ticks *)

(** [n] times the same. *)
Fixpoint times {S} (n : nat) (p : M S unit) : M S unit :=
  match n with O => mret tt | S n => _ ← times n p; p end.

Lemma times_add {S} n m (p : M S unit) s s' :
  times n p s = (Ok tt, s') → times (m + n) p s = times m p s'.
Proof.
  intros Hn. induction m as [|m IH]; [done|]. cbn [Nat.add times].
  unfold mbind, M_bind. by rewrite IH.
Qed.

Lemma SoundSystem_tick_quiet c g : 0 ≤ c < 400 → SoundSystem_tick (c, g) = (Ok tt, (c + 1, g)).
Proof.
  intros Hc. unfold SoundSystem_tick, mbind, M_bind, modify, gets. cbn -[decide to_u32].
  unfold to_u32. rewrite wrap_u_id by (unfold is_u; lia). by rewrite decide_True by lia.
Qed.
Lemma SoundSystem_tick_ring g g' : ring g = (Ok tt, g') → SoundSystem_tick (400, g) = (Ok tt, (0, g')).
Proof.
  intros Hr. unfold SoundSystem_tick, mbind, M_bind, modify, gets. cbn -[on_game ring].
  unfold on_game, member. cbn -[ring]. change (to_u32 (400 + 1)) with 401. rewrite decide_False by lia. cbn -[ring]. by rewrite Hr.
Qed.

Lemma quiet_ticks r g : (r ≤ 400)%nat → times r SoundSystem_tick (0, g) = (Ok tt, (Z.of_nat r, g)).
Proof.
  induction r as [|r IH]; [done|]. intros Hr.
  change (Datatypes.S r) with (1 + r)%nat. rewrite (times_add r 1 SoundSystem_tick (0, g) _ (IH ltac:(lia))). cbn [times].
  unfold mbind, M_bind, mret, M_ret. rewrite SoundSystem_tick_quiet by lia. do 3 f_equal. lia.
Qed.

(** The system rings every 401 ticks: as long as ringing does not fail, after [401 * k + r] ticks it
    has rung exactly [k] times, whatever else the game is, and [_sinceLastSE] is [r]. *)
Theorem bell_every_401_ticks k r g g' :
  (r ≤ 400)%nat → times k ring g = (Ok tt, g') →
  times (r + 401 * k) SoundSystem_tick (0, g) = (Ok tt, (Z.of_nat r, g')).
Proof.
  intros Hr Hk. assert (H401 : times (401 * k) SoundSystem_tick (0, g) = (Ok tt, (0, g'))).
  { clear r Hr. revert g' Hk. induction k as [|k IH]; intros g' Hk.
    - rewrite Nat.mul_0_r. cbn in Hk. by injection Hk as ->.
    - cbn [times] in Hk. unfold mbind, M_bind in Hk.
      destruct (times k ring g) as [[[]|e|u|] g1] eqn:E; try done. specialize (IH g1 eq_refl).
      replace (401 * Datatypes.S k)%nat with (1 + (400 + 401 * k))%nat by lia.
      pose proof (times_add (401 * k) 400 _ _ _ IH) as H400. rewrite (quiet_ticks 400) in H400 by lia.
      rewrite (times_add _ 1 _ _ _ H400). cbn [times]. unfold mbind, M_bind, mret, M_ret.
      by apply SoundSystem_tick_ring. }
  rewrite (times_add _ r _ _ _ H401). by apply quiet_ticks.
Qed.
End Sounds.

(** ** The table is a bijection *)

Fixpoint increasing (from : Z) (l : list Z) : bool :=
  match l with [] => true | x :: l => (from <? x) && increasing x l end.

Lemma increasing_NoDup from l : increasing from l = true → NoDup l ∧ Forall (λ x, from < x) l.
Proof.
  revert from. induction l as [|x l IH]; intros from Hl; cbn in Hl; [by repeat constructor|].
  apply andb_true_iff in Hl as [Hx%Z.ltb_lt Hl]. apply IH in Hl as [Hn Hl].
  assert (Hall : ∀ y, y ∈ l → x < y) by (by apply list.Forall_forall).
  split; constructor; [|done|done|].
  - intros Hin. specialize (Hall x Hin). lia.
  - apply list.Forall_forall. intros y Hy. specialize (Hall y Hy). lia.
Qed.

Lemma numbers_distinct : NoDup SoundsList.*2.
Proof.
  assert (Hi : increasing (-1) (merge_sort Z.le SoundsList.*2) = true) by (vm_compute; reflexivity).
  apply increasing_NoDup in Hi as [Hn _]. by rewrite (merge_sort_Permutation Z.le) in Hn.
Qed.

Lemma find_In {A} (p : A → bool) l x : List.find p l = Some x → x ∈ l ∧ p x = true.
Proof. intros [H1 H2]%find_some. by rewrite list_elem_of_In. Qed.

(** Every sound has a number of its own, between 0 and 1313, and only 523 is left out; a
    number tells the sound. *)
Theorem sound_numbers name number :
  sound_number name = Some number →
  0 ≤ number ≤ 1313 ∧ number ≠ 523 ∧ ∀ other, sound_number other = Some number → other = name.
Proof.
  assert (Hin : ∀ s k, sound_number s = Some k → (s, k) ∈ SoundsList).
  { intros s k. unfold sound_number. destruct (List.find _ _) as [[s' k']|] eqn:E; [|done].
    intros [= <-]. apply find_In in E as [Hin E]. apply bool_decide_eq_true in E. cbn in E. by subst. }
  intros Hn%Hin. split; [|split].
  - assert (Hb : Forall (λ e : string * Z, 0 ≤ e.2 ≤ 1313) SoundsList)
      by (apply (bool_decide_unpack _); vm_compute; exact I).
    rewrite list.Forall_forall in Hb. by apply (Hb (name, number)).
  - assert (Hb : Forall (λ e : string * Z, e.2 ≠ 523) SoundsList)
      by (apply (bool_decide_unpack _); vm_compute; exact I).
    rewrite list.Forall_forall in Hb. by apply (Hb (name, number)).
  - intros other Ho%Hin. apply list_elem_of_lookup in Hn as [i Hi], Ho as [j Hj].
    assert (i = j) as ->; [|congruence].
    eapply (NoDup_lookup SoundsList.*2 i j number numbers_distinct); rewrite list_lookup_fmap; [by rewrite Hi|by rewrite Hj].
Qed.

Lemma sound_numbers_witness : ∀ other, sound_number other = Some 124 → other = "block_bell_use".
Proof. apply (sound_numbers "block_bell_use" 124). vm_compute. reflexivity. Defined.
