(* ===== verification/Commands.v ===== *)
(** * Operators, the reload and the commands (Permissions.cpp, Server.cpp,
      command_parser/)

    A command line is split at the spaces and given to the first command of the
    server that has its name.  [invoker] is the player, or [None] for the console.
    The lines of the log are left out. *)

From stdpp Require Import pretty.
From S2P Require Import Prelude State LootTables Logging Types Floats Structures Level Container Inventory DumpChunk ClientPackets CreatePackets Network Configuration Json Message Whitelist BlockStates Game Dimension World PlayerView Player.

Section Commands.
Context `{Cfb8} `{JobPool} `{JsonLib} `{!Plugins}.

(** ** Operators *)

Definition Permissions_isOperator (name : string) : M Game bool :=
  in_server (λ s, bool_decide (name ∈ _operatorSet s)).

(** The player of that name: the last of the list. *)
Definition player_named (name : string) : M Game (option Z) :=
  l ← in_dimension _players;
  players ← gets g_players;
  mret (List.last (Some <$> filter (λ i, _username <$> players !! i = Some name) l) None).

Definition set_named_operator (name : string) (isOp : bool) : M Game unit :=
  selectedPlayer ← player_named name;
  _ ← on_server (λ s, set_operatorSet
        (if isOp then {[name]} ∪ _operatorSet s else _operatorSet s ∖ {[name]}) s);
  match selectedPlayer with
  | Some player => update_player player (set_isOperator isOp)
  | None => mret tt
  end.

Definition Permissions_addOperator (name : string) : M Game unit :=
  known ← Permissions_isOperator name;
  if known : bool then mret tt else set_named_operator name true.

Definition Permissions_removeOperator (name : string) : M Game bool :=
  known ← Permissions_isOperator name;
  if negb known then mret false else _ ← set_named_operator name false; mret true.

(** The file of operators: the set, a name to a line.  [while (!eof) getline]
    reads what follows the last end of line too. *)
Definition newline : Z := 10.
Fixpoint split_lines (line : list Z) (file : list Z) : list (list Z) :=
  match file with
  | [] => [line]
  | c :: file => if decide (c = newline) then line :: split_lines [] file
                 else split_lines (line ++ [c]) file
  end.
Definition Permissions_read (file : list Z) : gset string :=
  list_to_set (string_of_bytes <$> split_lines [] file).
(** The order of an unordered set is the library's: it is an argument. *)
Definition Permissions_write (names : list string) : list Z :=
  concat ((λ op, string_bytes op ++ [newline]) <$> names).

(** ** Stop and reload *)

(** What the two files hold; [None] is a list that cannot be read or parsed. *)
Class Disk := {
  read_config : config_file;
  read_whitelist : option json
}.
Context `{Disk}.

Definition Server_stop : M Game unit := on_server (set_running false).

(** The tree of the file is replaced, and nothing reads it again: the values of the
    configuration are those of the start.  A file that is not there is only logged. *)
Definition Server_reloadConfig : M Game unit :=
  match Node_load read_config with
  | Throw BadFile | Throw ConfigurationError => mret tt
  | r => _ ← lift r; mret tt
  end.
Definition Server_reloadWhitelist : M Game unit :=
  c ← in_server _config;
  if config_whitelist_enabled c then
    match read_whitelist with Some w => on_server (set_whitelistData w) | None => mret tt end
  else mret tt.
Definition Server_enforceWhitelistOnReload : M Game unit :=
  c ← in_server _config;
  if negb (config_whitelist_enabled c) || negb (config_enforce_whitelist c) then mret tt
  else each_player (λ player,
    p ← this_player player;
    w ← in_server _whitelistData;
    r ← lift (isPlayerWhitelisted w (_uuid p) (_username p));
    if r.1 : bool then mret tt
    else Player_disconnect player (Message_text "You are not whitelisted on this server.")).
Definition Server_reload : M Game unit :=
  _ ← Server_reloadConfig; _ ← Server_reloadWhitelist; Server_enforceWhitelistOnReload.

(** ** Commands *)

Record CommandBase : Type := mk_CommandBase {
  command_name : string;
  command_help : string;
  command_execute : list string → option Z → M Game unit;
  command_help_method : list string → option Z → M Game unit
}.

(** [sendSystemMessage(text, *invoker)] *)
Definition tell (player : Z) (text : string) : M Game unit :=
  Chat_sendSystem_to (Message_text text) false player.
Definition tell_invoker (invoker : option Z) (text : string) : M Game unit :=
  match invoker with Some player => tell player text | None => mret tt end.

(** [if (invoker) { if (invoker->isOperator()) p(); } else q();] *)
Definition if_operator (invoker : option Z) (p : Z → M Game unit) (q : M Game unit) : M Game unit :=
  match invoker with
  | Some player => v ← this_player player; if _isOperator v then p player else mret tt
  | None => q
  end.
(** [if (invoker && !invoker->isOperator()) return;] *)
Definition unless_not_operator (invoker : option Z) (p : M Game unit) : M Game unit :=
  match invoker with
  | Some player => v ← this_player player; if _isOperator v then p else mret tt
  | None => p
  end.

Definition Op_execute (args : list string) (invoker : option Z) : M Game unit :=
  unless_not_operator invoker
    match args with
    | [name] =>
        known ← Permissions_isOperator name;
        if known : bool then tell_invoker invoker (String.append name " is already opped.")
        else _ ← Permissions_addOperator name; tell_invoker invoker (String.append "opped " name)
    | _ => mret tt
    end.
Definition Op_help (args : list string) (invoker : option Z) : M Game unit :=
  tell_invoker invoker "/op [<player>]".

Definition Deop_execute (args : list string) (invoker : option Z) : M Game unit :=
  unless_not_operator invoker
    match args with
    | [name] =>
        known ← Permissions_isOperator name;
        if negb known then tell_invoker invoker (String.append name " is not an operator.")
        else
          _ ← tell_invoker invoker (String.append name " deopped.");
          _ ← Permissions_removeOperator name; mret tt
    | _ => mret tt
    end.
Definition Deop_help (args : list string) (invoker : option Z) : M Game unit :=
  tell_invoker invoker "Usage: /deop <player>".

Definition Stop_execute (args : list string) (invoker : option Z) : M Game unit :=
  if_operator invoker (λ player, _ ← tell player "Stopping server..."; Server_stop) Server_stop.
Definition Stop_help (args : list string) (invoker : option Z) : M Game unit :=
  if_operator invoker (λ player, tell player "/stop") (mret tt).

Definition Reload_execute (args : list string) (invoker : option Z) : M Game unit :=
  if_operator invoker
    (λ player, _ ← Server_reload;
       tell player "Successfully reloaded loot tables, advancements and functions")
    Server_reload.
Definition Reload_help (args : list string) (invoker : option Z) : M Game unit :=
  if_operator invoker (λ player, tell player "/reload") (mret tt).

Definition seed_message (seed : string) : Message :=
  let seedMsg := with_hoverEvent (TextHover [Message_text "Click to copy seed to clipboard"])
    (with_clickEvent (CopyToClipboardClick seed) (with_color "green" (Message_text seed))) in
  let endMsg := with_color "white" (Message_text "]") in
  mk_Message "Seed: [" Style_default None None [] [seedMsg; endMsg] None None.
Definition Seed_execute (args : list string) (invoker : option Z) : M Game unit :=
  w ← gets g_world;
  if_operator invoker (Chat_sendSystem_to (seed_message (pretty (_seed w))) false) (mret tt).
Definition Seed_help (args : list string) (invoker : option Z) : M Game unit :=
  if_operator invoker (λ player, tell player "/seed") (mret tt).

(** *** [/gamemode] *)

Definition GameEvent_ChangeGamemode : Z := 3.
Definition Actions_UpdateGamemode : Z := 0x04.

Definition gamemode_info (p : Player) : PlayerInfoUpdate :=
  mk_PlayerInfoUpdate Actions_UpdateGamemode
    [mk_Action (_uuid p) (mk_Action_AddPlayer EmptyString []) (mk_Action_InitializeChat false)
       (mk_Action_UpdateGamemode (_gamemode p)) (mk_Action_UpdateListed false)
       (mk_Action_UpdateLatency 0) (mk_Action_UpdateDisplayName false EmptyString)].

(** The four branches, which differ in the mode, the abilities and the text. *)
Definition change_gamemode (player gamemode flags : Z) (flyingSpeed : float) (text : string) : M Game unit :=
  let packet := mk_PlayerAbilitiesClient flags (bits_of_float32 flyingSpeed)
    (bits_of_float32 (double_to_float (double_lit 1 10))) in
  _ ← update_player player (set_gamemode gamemode);
  _ ← Player_sendPlayerAbilities player packet;
  p ← this_player player;
  _ ← each_player (λ i, Player_sendPlayerInfoUpdate i (gamemode_info p));
  _ ← Player_sendGameEvent player (mk_GameEvent GameEvent_ChangeGamemode (bits_of_float32 (float_of_Z gamemode)));
  _ ← Player_sendPlayerAbilities player packet;
  tell player text.

Definition walking_speed : float := double_to_float (double_lit 5 100).

(** A command without arguments reads an argument that is not there. *)
Definition Gamemode_execute (args : list string) (invoker : option Z) : M Game unit :=
  if decide (2 ≤ length args)%nat then mret tt
  else
    match invoker with
    | None => mret tt
    | Some player =>
        v ← this_player player;
        if negb (_isOperator v) then mret tt
        else
          match args with
          | [] => undefined_ OutOfBoundsRead
          | mode :: _ =>
              if decide (mode = "adventure") then
                change_gamemode player Gamemode_Adventure 0 walking_speed
                  "Set own game mode to Adventure Mode"
              else if decide (mode = "creative") then
                change_gamemode player Gamemode_Creative
                  (Z.lor (Z.lor Flags_Invulnerable Flags_AllowFlying) Flags_CreativeMode) walking_speed
                  "Set own game mode to Creative Mode"
              else if decide (mode = "spectator") then
                change_gamemode player Gamemode_Spectator
                  (Z.lor (Z.lor Flags_Invulnerable Flags_Flying) Flags_AllowFlying) (float_of_Z 1)
                  "Set own game mode to Spectator Mode"
              else if decide (mode = "survival") then
                change_gamemode player Gamemode_Survival 0 walking_speed
                  "Set own game mode to Survival Mode"
              else mret tt
          end
    end.

(** *** [/time] *)

(** [std::stod]; [None] is the exception of a text that is not a number, or of one
    that does not fit. *)
Class Stod := stod : string → option double.
Context `{Stod} `{Spdlog}.

(** [invoker->...], also for the console. *)
Definition tell_pointer (invoker : option Z) (text : string) : M Game unit :=
  match invoker with Some player => tell player text | None => undefined_ NullDereference end.

Definition last_char (s : string) : result Z :=
  match List.last (Some <$> string_bytes s) None with Some c => Ok c | None => UB OutOfBoundsRead end.
Definition first_char (s : string) : Z := default 0 (head (string_bytes s)).
Definition drop_last (s : string) : string := string_of_bytes (removelast (string_bytes s)).
Definition is_unit (c : Z) : Prop := c = 100 ∨ c = 115 ∨ c = 116.   (* d, s, t *)
#[export] Instance is_unit_dec c : Decision (is_unit c).
Proof. unfold is_unit. apply _. Defined.

Definition setTimeFromArg (value : string) (multiplier : Z) (invoker : option Z) : M Game Z :=
  c ← lift (last_char value);
  let value := if decide (is_unit c) then drop_last value else value in
  match stod value with
  | Some v => lift (to_int32 (dmul v (double_of_Z multiplier)))
  | None => _ ← tell_pointer invoker "Expected float"; mret (-1)
  end.

Definition setMultiplier (arg : Z) : Z :=
  if decide (arg = 100) then 24000 else if decide (arg = 115) then 20
  else if decide (arg = 116) then 1 else -1.

Definition all_digits (s : string) : bool :=
  forallb (λ c, bool_decide (48 ≤ c ≤ 57)) (string_bytes s).

(** The ends of [setTimeToAdd] and [setTimeToSet]. *)
Definition refuse_time (text : string) (invoker : option Z) : M Game Z :=
  _ ← (if decide (first_char text = 45) then tell_pointer invoker "Tick count must be non-negative"
       else tell_pointer invoker "Expected float");
  mret (-1).

Definition setTimeToAdd (timeToAdd : string) (invoker : option Z) : M Game Z :=
  if all_digits timeToAdd then setTimeFromArg timeToAdd 1 invoker
  else
    c ← lift (last_char timeToAdd);
    if decide (is_unit c ∧ first_char timeToAdd ≠ 45) then
      setTimeFromArg timeToAdd (setMultiplier c) invoker
    else refuse_time timeToAdd invoker.

(** Only the [t] of the units excludes a minus. *)
Definition setTimeToSet (timeToSet : string) (invoker : option Z) : M Game Z :=
  if all_digits timeToSet then setTimeFromArg timeToSet 1 invoker
  else if decide (timeToSet = "day") then mret 1000
  else if decide (timeToSet = "night") then mret 13000
  else if decide (timeToSet = "noon") then mret 6000
  else if decide (timeToSet = "midnight") then mret 18000
  else
    c ← lift (last_char timeToSet);
    if decide (c = 100 ∨ c = 115 ∨ (c = 116 ∧ first_char timeToSet ≠ 45)) then
      setTimeFromArg timeToSet (setMultiplier c) invoker
    else refuse_time timeToSet invoker.

Definition INT_MAX : Z := 2147483647.

Definition checkArgsTime (verb arg : string) (invoker : option Z) : M Game unit :=
  if decide (verb = "add") then
    time ← setTimeToAdd arg invoker;
    if decide (time ≠ -1) then
      added ← on_world (World_addTime time);
      tell_pointer invoker (String.append "Set the time to " (pretty added))
    else mret tt
  else if decide (verb = "set") then
    time ← setTimeToSet arg invoker;
    if decide (time ≠ -1) then
      _ ← on_world (World_setTime time);
      tell_pointer invoker (String.append "Set the time to " (pretty time))
    else mret tt
  else if decide (verb = "query") then
    w ← gets g_world;
    let answer time := tell_pointer invoker (String.append "The time is " (pretty (to_i32 time))) in
    if decide (arg = "daytime") then answer (Z.rem (_time w) 24000)
    else if decide (arg = "gametime") then answer (Z.rem (_age w) INT_MAX)
    else if decide (arg = "day") then answer (Z.rem (Z.quot (_time w) 24000) INT_MAX)
    else tell_pointer invoker "Incorrect argument for command"
  else mret tt.

Definition Time_execute (args : list string) (invoker : option Z) : M Game unit :=
  match args with
  | [verb; arg] => if_operator invoker (λ _, checkArgsTime verb arg invoker) (checkArgsTime verb arg invoker)
  | _ => mret tt
  end.

(** *** [/help] and [/?], over the commands of the server *)

Definition Help_execute (commands : list CommandBase) (args : list string) (invoker : option Z) : M Game unit :=
  match args with
  | [] =>
      match invoker with
      | Some player => for_each commands (λ c,
          v ← this_player player;
          if _isOperator v then tell player (command_help c) else mret tt)
      | None => mret tt
      end
  | name :: _ =>
      match find_by command_name name commands with
      | Some c => command_help_method c args invoker
      | None => tell_invoker invoker "Unknown command or insufficient permissions"
      end
  end.
Definition Help_help (args : list string) (invoker : option Z) : M Game unit :=
  if_operator invoker (λ player, tell player "/help [<command>]") (mret tt).
Definition QuestionMark_help (args : list string) (invoker : option Z) : M Game unit :=
  if_operator invoker (λ player, tell player "/? [<command>]") (mret tt).
(** Nothing is written to a player. *)
Definition silent_help (args : list string) (invoker : option Z) : M Game unit := mret tt.

(** *** [/dumpChunk], [/log], [/loot], [/inventorydump] *)

(** The arguments a player gives, or the chunk it is in. *)
Definition dump_arguments (args : list string) (invoker : option Z) : M Game (list string) :=
  match invoker with
  | Some player =>
      if decide (args = []) then
        v ← this_player player;
        pos ← lift (chunk_pos_of (_pos v));
        mret [pretty (p2x pos); pretty (p2z pos)]
      else mret args
  | None => mret args
  end.

Definition DumpChunk_execute (args : list string) (invoker : option Z) : M Game unit :=
  if decide (length args ≠ 2%nat ∧ invoker = None) then mret tt
  else
    args ← dump_arguments args invoker;
    match args with
    | first :: second :: _ =>
        x ← lift (stoi first);
        z ← lift (stoi second);
        loaded ← Dimension_hasChunkLoaded x z;
        if loaded : bool then
          chunk ← Dimension_getChunk x z;
          palette ← in_server _globalPalette;
          _ ← lift (dump_chunk palette chunk);
          mret tt
        else mret tt
    | _ => undefined_ OutOfBoundsRead
    end.

Definition Log_execute (args : list string) (invoker : option Z) : M Game unit :=
  member (λ g, _registry (g_server g)) (λ v g, set_g_server (set_registry v (g_server g)) g) (Log_levels args).

(** A chain of references that is longer than there are tables goes in a circle. *)
Definition loot_fuel (tables : gmap string (gmap string LootTable)) : nat := S (map_fold (λ _ l n, (size l + n)%nat) 0%nat tables).

Definition Loot_execute (args : list string) (invoker : option Z) : M Game unit :=
  match args with
  | [_namespace; name] =>
      tables ← in_server _lootTableSystem;
      random ← in_server _random;
      match tables !! _namespace ≫= lookup name with
      | None => mret tt
      | Some table =>
          let '(r, poll) := LootTable_poll_fuel random (loot_fuel tables) tables table (mk_Poll ∅ 0) in
          _ ← on_server (set_random (λ n, random (poll_drawn poll + n)%nat));
          lift r
      end
  | _ => mret tt
  end.

(** [inventory->at(i)], for all of its slots. *)
Definition InventoryDump_execute (args : list string) (invoker : option Z) : M Game unit :=
  match invoker with
  | None => mret tt
  | Some player =>
      _ ← this_player player;
      for_each (seqZ 0 Inventory_size) (λ i, _ ← lift (Inventory_at i); mret tt)
  end.

Definition builtin_commands (commands : list CommandBase) : list CommandBase := [
  mk_CommandBase "help" "/help [<command>] (help)" (Help_execute commands) Help_help;
  mk_CommandBase "?" "/? [<command>] (question mark)" (Help_execute commands) QuestionMark_help;
  mk_CommandBase "stop" "/stop" Stop_execute Stop_help;
  mk_CommandBase "seed" "/seed" Seed_execute Seed_help;
  mk_CommandBase "dumpChunk" "/dumpChunk <x> <z> (dumpChunk)" DumpChunk_execute silent_help;
  mk_CommandBase "log" "/log [logger_name] type" Log_execute silent_help;
  mk_CommandBase "op" "/op [<player>]" Op_execute Op_help;
  mk_CommandBase "deop" "/deop [<player>]" Deop_execute Deop_help;
  mk_CommandBase "reload" "/reload" Reload_execute Reload_help;
  mk_CommandBase "time" "/time" Time_execute silent_help;
  mk_CommandBase "loot" "/loot namespace path" Loot_execute silent_help;
  mk_CommandBase "gamemode" "/gamemode <adventure|creative|spectator|survival> (entity)"
    Gamemode_execute silent_help;
  mk_CommandBase "inventorydump" "/inventorydump (entity)" InventoryDump_execute silent_help
].

(** ** The parser *)

Fixpoint split_spaces (word s : list Z) : list (list Z) :=
  match s with
  | [] => [word]
  | c :: s => if decide (c = 32) then word :: split_spaces [] s else split_spaces (word ++ [c]) s
  end.
Definition split_args (command : string) : list string :=
  string_of_bytes <$> split_spaces [] (string_bytes command).

(** [if (args[0][0] == '/') commandName.erase(0, 1);] *)
Definition without_slash (name : string) : string :=
  match string_bytes name with 47 :: rest => string_of_bytes rest | _ => name end.

Definition parseCommand (commands : list CommandBase) (command : string) (invoker : option Z) : M Game unit :=
  match split_args command with
  | [] => mret tt
  | name :: args =>
      let commandName := without_slash name in
      match find_by command_name commandName commands with
      | Some c => command_execute c args invoker
      | None =>
          match invoker with
          | Some player =>
              _ ← tell player "Unknown or incomplete command, see below for error";
              tell player (String.append commandName "<--[HERE]")
          | None => mret tt
          end
      end
  end.
End Commands.
