(* ===== verification/PlayerHandlers.v ===== *)
(** * What a player does with the packets of its client (Player.cpp)

    One definition per handler that does something; the handlers whose body only
    writes to the log are listed in [Client].  The list of open containers of a
    player, to which nothing is ever added, is empty here. *)

From S2P Require Import Prelude State Types Floats Structures ServerPackets ChunkColumn Level Container Inventory ClientPackets CreatePackets BlockStates Network Json Message Game Dimension World PlayerView Player Commands.

(** ** Food (items/foodItems.hpp) *)

Record FoodItem : Type := mk_FoodItem {
  food_name : string;
  food_id : Z;
  food_value : Z;
  food_saturation : float
}.

Definition foodItems : list FoodItem := [
  mk_FoodItem "Apple" 734 4 (float_lit 24 10);
  mk_FoodItem "Baked Potato" 1025 5 (float_lit 60 10);
  mk_FoodItem "Beetroot" 1078 1 (float_lit 12 10);
  mk_FoodItem "Beetroot Soup" 1080 6 (float_lit 72 10);
  mk_FoodItem "Bread" 790 5 (float_lit 60 10);
  mk_FoodItem "Cake slice" (-1) 2 (float_lit 4 10);
  mk_FoodItem "Carrot" 1023 3 (float_lit 36 10);
  mk_FoodItem "Chorus Fruit" 1076 4 (float_lit 24 10);
  mk_FoodItem "Cooked Chicken" 923 6 (float_lit 72 10);
  mk_FoodItem "Cooked Cod" 872 5 (float_lit 60 10);
  mk_FoodItem "Cooked Mutton" 1058 6 (float_lit 96 10);
  mk_FoodItem "Cooked Porkchop" 817 8 (float_lit 128 10);
  mk_FoodItem "Cooked Rabbit" 1045 5 (float_lit 60 10);
  mk_FoodItem "Cooked Salmon" 873 6 (float_lit 96 10);
  mk_FoodItem "Cookie" 913 2 (float_lit 4 10);
  mk_FoodItem "Dried Kelp" 917 1 (float_lit 6 10);
  mk_FoodItem "Enchanted Golden Apple" 820 4 (float_lit 96 10);
  mk_FoodItem "Golden Apple" 819 4 (float_lit 96 10);
  mk_FoodItem "Glow Berries" 1135 2 (float_lit 4 10);
  mk_FoodItem "Golden Carrot" 1028 6 (float_lit 144 10);
  mk_FoodItem "Honey Bottle" 1142 6 (float_lit 12 10);
  mk_FoodItem "Melon Slice" 916 2 (float_lit 12 10);
  mk_FoodItem "Mushroom Stew" 784 6 (float_lit 72 10);
  mk_FoodItem "Poisonous Potato" 1026 2 (float_lit 12 10);
  mk_FoodItem "Potato" 1024 1 (float_lit 6 10);
  mk_FoodItem "Pufferfish" 871 1 (float_lit 2 10);
  mk_FoodItem "Pumpkin Pie" 1037 8 (float_lit 48 10);
  mk_FoodItem "Rabbit Stew" 1046 10 (float_lit 120 10);
  mk_FoodItem "Raw Beef" 920 3 (float_lit 18 10);
  mk_FoodItem "Raw Chicken" 922 2 (float_lit 12 10);
  mk_FoodItem "Raw Cod" 868 2 (float_lit 4 10);
  mk_FoodItem "Raw Mutton" 1057 2 (float_lit 12 10);
  mk_FoodItem "Raw Porkchop" 816 3 (float_lit 18 10);
  mk_FoodItem "Raw Rabbit" 1044 3 (float_lit 18 10);
  mk_FoodItem "Raw Salmon" 869 2 (float_lit 4 10);
  mk_FoodItem "Rotten Flesh" 924 4 (float_lit 8 10);
  mk_FoodItem "Spider Eye" 932 2 (float_lit 32 10);
  mk_FoodItem "Steak" 921 8 (float_lit 128 10);
  mk_FoodItem "Suspicious Stew" 1113 6 (float_lit 72 10);
  mk_FoodItem "Sweet Berries" 1134 2 (float_lit 4 10);
  mk_FoodItem "Tropical Fish" 870 1 (float_lit 2 10)
].

Section Handlers.
Context `{Cfb8} `{JobPool} `{JsonLib} `{!Plugins} `{Disk} `{Stod} `{Spdlog}.

(** ** Chat *)

Definition Player_onChatMessage (this : Z) (pck : ChatMessage) : M Game unit :=
  Chat_sendPlayerMessage (Message_text (ChatMessage_message pck)) this.

Definition Player_onChatCommand (commands : list CommandBase) (this : Z) (pck : ChatCommand) : M Game unit :=
  parseCommand commands (ChatCommand_command pck) (Some this).

Definition Player_onClientInformation (this : Z) (pck : ClientInformation) : M Game unit :=
  update_player this (set_chatVisibility (ClientInformation_chatMode pck)).

Definition Player_onPluginMessage (this : Z) (pck : PluginMessage) : M Game unit :=
  if decide (PluginMessage_channel pck = "minecraft:brand") then
    send_to this (createPluginMessageResponse
      (mk_PluginMessageResponse "minecraft:brand" [0x05; 0x43; 0x75; 0x62; 0x69; 0x63]))
  else mret tt.

(** ** Containers *)

(** Clicks of the player's inventory; what they throw away is dropped where the
    player stands. *)
Definition on_clicks (this : Z) (p : M (Clicks Inventory) unit) : M Game unit :=
  player ← this_player this;
  let '(r, (inventory, drops)) := p (_inventory player, []) in
  _ ← update_player this (set_inventory inventory);
  _ ← for_each drops (λ slot, Dimension_dropItem slot (_pos player));
  lift r.

Definition is_creative (p : Player) : bool := bool_decide (_gamemode p = Gamemode_Creative).

(** The iterator of a container that is not there is dereferenced. *)
Definition Player_onClickContainerButton (this : Z) (pck : ClickContainerButton) : M Game unit :=
  if decide (ClickContainerButton_windowId pck = 0) then mret tt else undefined_ OutOfBoundsRead.

Definition Player_onClickContainer (this : Z) (pck : ClickContainer) : M Game unit :=
  if decide (ClickContainer_windowId pck = 0) then
    p ← this_player this;
    on_clicks this (Inventory_onClick (is_creative p) (ClickContainer_slot pck) (ClickContainer_button pck)
      (ClickContainer_mode pck) (ClickContainer_arrayOfSlots pck))
  else undefined_ OutOfBoundsRead.

Definition Player_closeContainer (this id : Z) : M Game unit :=
  if decide (id = 0) then on_clicks this close else mret tt.
Definition Player_onCloseContainerRequest (this : Z) (pck : CloseContainerRequest) : M Game unit :=
  Player_closeContainer this (CloseContainerRequest_windowId pck).

Definition Player_onSetCreativeModeSlot (this : Z) (pck : SetCreativeModeSlot) : M Game unit :=
  r ← lift (Inventory_at (SetCreativeModeSlot_slot pck));
  update_player this (λ p, set_inventory (Inventory_put r (SetCreativeModeSlot_clickedItem pck) (_inventory p)) p).

Definition Player_onSetHeldItem (this : Z) (pck : SetHeldItem) : M Game unit :=
  update_player this (set_heldItem (to_i16 (SetHeldItem_slot pck))).

(** ** Entities *)

(** An entity of the dimension is a player, or an item, which is no living one. *)
Definition Player_onInteract (this : Z) (pck : Interact) : M Game unit :=
  target ← Dimension_getEntityByID (Interact_entityId pck);
  player ← gets (λ g, g_players g !! target);
  if decide (Interact_type pck = Interact_Type_Attack) then
    _ ← onEvent (onEntityInteractEntity this target);
    p ← this_player this;
    _ ← match player with
        | None => mret tt
        | Some v =>
            if decide (_gamemode v ≠ Gamemode_Creative) then
              _ ← LivingEntity_attack target (_pos p); Player_sendHealth target
            else LivingEntity_attack target (_pos p)
        end;
    update_player this (λ p, set_foodExhaustionLevel
      (fadd (_foodExhaustionLevel p) FOOD_EXHAUSTION_ATTACK) p)
  else mret tt.

Definition SwingArm_Hand_MainHand : Z := 0.
Definition Player_onSwingArm (this : Z) (pck : SwingArm) : M Game unit :=
  other_players this (λ i,
    Player_sendSwingArm i (bool_decide (SwingArm_hand pck = SwingArm_Hand_MainHand)) this).

(** ** Keep-alive *)

Definition Player_onKeepAliveResponse (this : Z) (pck : KeepAliveResponse) : M Game unit :=
  p ← this_player this;
  if decide (KeepAliveResponse_keepAliveId pck ≠ _keepAliveId p) then
    Player_disconnect this (Message_text "Wrong Keep Alive ID")
  else update_player this (set_keepAliveId 0).

(** ** Moves *)

Definition packet_position (x y z : Z) : Vector3 double :=
  mk_Vector3 (double_of_bits x) (double_of_bits y) (double_of_bits z).

Definition Player_onSetPlayerPosition (this : Z) (pck : SetPlayerPosition) : M Game unit :=
  let to := packet_position (SetPlayerPosition_x pck) (SetPlayerPosition_feetY pck) (SetPlayerPosition_z pck) in
  p ← this_player this;
  _ ← onEvent (onEntityMove this (_pos p) to);
  Player_setPosition this to (SetPlayerPosition_onGround pck).

(** [(uint8_t)pck.yaw]; the arguments of [setRotation] are converted in the same
    way. *)
Definition angle (bits : Z) : result Z := to_uint8 (float32_of_bits bits).

Definition rotate_event (this yaw pitch : Z) : M Game unit :=
  p ← this_player this;
  y ← lift (angle yaw); x ← lift (angle pitch);
  onEvent (onEntityRotate this (mk_Vector3 (v2x (_rot p)) (v2z (_rot p)) 0) (mk_Vector3 y x 0)).
Definition rotate (this yaw pitch : Z) : M Game unit :=
  y ← lift (angle yaw); x ← lift (angle pitch); Entity_setRotation this y x.

Definition Player_onSetPlayerPositionAndRotation (this : Z) (pck : SetPlayerPositionAndRotation) : M Game unit :=
  let to := packet_position (SetPlayerPositionAndRotation_x pck) (SetPlayerPositionAndRotation_feetY pck)
    (SetPlayerPositionAndRotation_z pck) in
  let yaw := SetPlayerPositionAndRotation_yaw pck in
  let pitch := SetPlayerPositionAndRotation_pitch pck in
  p ← this_player this;
  _ ← onEvent (onEntityMove this (_pos p) to);
  _ ← rotate_event this yaw pitch;
  _ ← Player_setPosition this to (SetPlayerPositionAndRotation_onGround pck);
  rotate this yaw pitch.

Definition Player_onSetPlayerRotation (this : Z) (pck : SetPlayerRotation) : M Game unit :=
  _ ← rotate this (SetPlayerRotation_yaw pck) (SetPlayerRotation_pitch pck);
  rotate_event this (SetPlayerRotation_yaw pck) (SetPlayerRotation_pitch pck).

Definition PlayerCommand_ActionId_StartSprinting : Z := 3.
Definition PlayerCommand_ActionId_StopSprinting : Z := 4.
Definition Player_onPlayerCommand (this : Z) (pck : PlayerCommand) : M Game unit :=
  _ ← (if decide (PlayerCommand_actionId pck = PlayerCommand_ActionId_StartSprinting)
       then update_player this (set_isSprinting true) else mret tt);
  if decide (PlayerCommand_actionId pck = PlayerCommand_ActionId_StopSprinting)
  then update_player this (set_isSprinting false) else mret tt.

Definition Player_onPlayerAbilities (this : Z) (pck : PlayerAbilities) : M Game unit :=
  let flying := negb (bool_decide (Z.land (PlayerAbilities_flags pck) Flags_Flying = 0)) in
  _ ← update_player this (set_isFlying flying);
  Player_sendPlayerAbilities this
    (mk_PlayerAbilitiesClient
       (Z.lor (if flying then Flags_Flying else 0)
          (Z.lor (Z.lor Flags_Invulnerable Flags_AllowFlying) Flags_CreativeMode))
       (bits_of_float32 (float_lit 5 100)) (bits_of_float32 (float_lit 1 10))).

(** ** Blocks and items *)

(** [_inventory->hotbar().at(this->_heldItem)] *)
Definition held_ref (p : Player) : result slot_ref := array_at ref_hotbar HOTBAR_SIZE (_heldItem p).
Definition held (this : Z) : M Game (slot_ref * Slot) :=
  p ← this_player this; r ← lift (held_ref p); mret (r, Inventory_get r (_inventory p)).
Definition put_held (this : Z) (r : slot_ref) (s : Slot) : M Game unit :=
  update_player this (λ p, set_inventory (Inventory_put r s (_inventory p)) p).

(** [hotbar().at(_heldItem).itemCount--], and the reset of a stack that is empty. *)
Definition take_one (this : Z) : M Game unit :=
  h ← held this; put_held this h.1 (with_count h.2 (itemCount h.2 - 1)).
Definition reset_if_empty (this : Z) : M Game unit :=
  h ← held this;
  if decide (itemCount h.2 = 0) then put_held this h.1 (Slot_reset h.2) else mret tt.

Definition block_vector (l : Position) : Vector3 Z := mk_Vector3 (to_i32 (px l)) (to_i32 (py l)) (to_i32 (pz l)).

Definition Player_eat (this : Z) : M Game unit :=
  p ← this_player this;
  if negb (hungry_mode p) then mret tt
  else
    h ← held this;
    if negb (present h.2) then mret tt
    else
      match List.find (λ f, bool_decide (food_id f = itemID h.2)) foodItems with
      | None => mret tt
      | Some food =>
          if decide (MAX_FOOD_LEVEL ≤ _foodLevel p) then mret tt
          else
            let level := _foodLevel p + food_value food in
            let saturation := fadd (_foodSaturationLevel p) (food_saturation food) in
            let level := if decide (MAX_FOOD_LEVEL < level) then MAX_FOOD_LEVEL else level in
            let saturation := if SFltb (float_of_Z level) saturation then float_of_Z level else saturation in
            _ ← update_player this (λ p, set_foodSaturationLevel saturation (set_foodLevel level p));
            _ ← Player_sendHealth this;
            _ ← take_one this;
            Player_sendSetContainerSlot this (to_i16 (_heldItem p + HOTBAR_OFFSET))
      end.

Definition PlayerAction_Status_StartedDigging : Z := 0.
Definition PlayerAction_Status_CancelledDigging : Z := 1.
Definition PlayerAction_Status_FinishedDigging : Z := 2.
Definition PlayerAction_Status_DropItemStack : Z := 3.
Definition PlayerAction_Status_DropItem : Z := 4.
Definition PlayerAction_Status_ShootArrowOrFinishEating : Z := 5.
Definition PlayerAction_Status_SwapItemInHand : Z := 6.

(** The loop over the plugins is all that the condition governs: the block is
    removed in every mode, canceled or not. *)
Definition start_digging (this : Z) (location : Position) : M Game unit :=
  p ← this_player this;
  _ ← (if decide (_gamemode p = Gamemode_Creative) then
         _ ← onEventCancelable (onBlockDestroy 0 (block_vector location)); mret tt
       else mret tt);
  Dimension_updateBlock_sent location 0.

Definition finish_digging (this : Z) (location : Position) : M Game unit :=
  canceled ← onEventCancelable (onBlockDestroy 0 (block_vector location));
  if canceled : bool then
    l ← in_dimension _level;
    c ← lift (Level_getChunkColumnFromBlockPos l (to_i32 (px location)) (to_i32 (pz location)));
    _ ← lift (ChunkColumn_getBlock c location);
    Player_sendBlockUpdate this (mk_BlockUpdate location 2)
  else
    _ ← Dimension_updateBlock_sent location 0;
    _ ← update_player this (λ p, set_exhaustion (dadd (exhaustion p) (double_lit 5 1000)) p);
    let half := double_lit 1 2 in
    Dimension_dropItem (mk_Slot true 721 1)
      (mk_Vector3 (dadd (double_of_Z (px location)) half) (double_of_Z (py location))
         (dadd (double_of_Z (pz location)) half)).

Definition drop_held_stack (this : Z) : M Game unit :=
  h ← held this;
  p ← this_player this;
  _ ← Dimension_dropItem h.2 (_pos p);
  put_held this h.1 (Slot_reset h.2).

Definition drop_held_item (this : Z) : M Game unit :=
  h ← held this;
  if negb (present h.2) then mret tt
  else
    p ← this_player this;
    _ ← Dimension_dropItem (mk_Slot true (itemID h.2) 1) (_pos p);
    _ ← take_one this;
    reset_if_empty this.

Definition swap_hands (this : Z) : M Game unit :=
  h ← held this;
  update_player this (λ p, set_inventory (Slot_swap ref_offhand h.1 (_inventory p)) p).

Definition Player_onPlayerAction (this : Z) (pck : PlayerAction) : M Game unit :=
  let status := PlayerAction_status pck in
  if decide (status = PlayerAction_Status_StartedDigging) then start_digging this (PlayerAction_location pck)
  else if decide (status = PlayerAction_Status_CancelledDigging) then mret tt
  else if decide (status = PlayerAction_Status_FinishedDigging) then finish_digging this (PlayerAction_location pck)
  else if decide (status = PlayerAction_Status_DropItemStack) then drop_held_stack this
  else if decide (status = PlayerAction_Status_DropItem) then drop_held_item this
  else if decide (status = PlayerAction_Status_ShootArrowOrFinishEating) then Player_eat this
  else if decide (status = PlayerAction_Status_SwapItemInHand) then swap_hands this
  else mret tt.

(** The block next to a face; the coordinates come from 26 and 12 bits. *)
Definition facing (face : Z) (l : Position) : Position :=
  if decide (face = 0) then mk_Position (px l) (py l - 1) (pz l)
  else if decide (face = 1) then mk_Position (px l) (py l + 1) (pz l)
  else if decide (face = 2) then mk_Position (px l) (py l) (pz l - 1)
  else if decide (face = 3) then mk_Position (px l) (py l) (pz l + 1)
  else if decide (face = 4) then mk_Position (px l - 1) (py l) (pz l)
  else if decide (face = 5) then mk_Position (px l + 1) (py l) (pz l)
  else l.

Definition Player_onUseItemOn (this : Z) (pck : UseItemOn) : M Game unit :=
  let location := facing (UseItemOn_face pck) (UseItemOn_location pck) in
  h ← held this;
  _ ← (if present h.2 then
         blocks ← in_server _globalPalette;
         items ← in_server _itemConverter;
         Dimension_updateBlock_sent location
           (fromBlockNameToProtocolId blocks (fromProtocolIdToItem items (itemID h.2)))
       else mret tt);
  p ← this_player this;
  if decide (_gamemode p = Gamemode_Creative) then mret tt
  else _ ← take_one this; reset_if_empty this.
End Handlers.
