(* ===== verification/Client.v ===== *)
(** * Clients (Client.hpp, Client.cpp)

    The bytes that come from a socket, cut into packets; the states a connection
    goes through, from the handshake to the status or to the login; and what the
    server answers.  A client is known by the identifier of its connection in the
    network.  The RSA key, SHA-1, the hash of strings and Mojang's session server
    are outside of the program: [Identity] is what the code asks of them. *)

From S2P Require Import Prelude State Types Floats Codec Pop Add Structures Nbt ServerPackets ClientPackets CreatePackets Network Json Message Whitelist Checksum Game Dimension World Player Commands PlayerHandlers.

Class Identity := {
  std_hash : string → Z;                    (* [std::hash<std::string>] *)
  rsa_get_len : nat;                        (* the length of the key, in bytes *)
  rsa_pkcs1_decrypt : list Z → option (list Z);
  rsa_public_key : list Z;
  sha1 : list Z → list Z;
  has_joined : Z → string → list Z → option string;   (* at a time, for a name and a server *)
  client_address : Z → Z                    (* [this], as an integer *)
}.

(** ** Cutting the stream into packets *)

Inductive frame : Type :=
| Frame_incomplete                               (* [break]: more bytes are needed *)
| Frame_empty (rest : list Z)                    (* a length of zero, dropped *)
| Framed (packetId : Z) (toParse rest : list Z).

(** [data.erase(data.begin(), data.begin() + n)] *)
Definition erase_front (n : Z) (data : list Z) : result (list Z) :=
  if decide (n < 0) then UB InvalidRange
  else if decide (zlen data < n) then UB OutOfBoundsErase
  else Ok (drop (Z.to_nat n) data).

(** Here [eof] is one past the last byte.  The parser is given all that follows
    the identifier, not only the bytes of the packet. *)
Definition next_frame (data : list Z) : result frame :=
  if decide (data = []) then Ok Frame_incomplete
  else
    let eof := zlen data in
    match popVarInt data eof 0 with
    | Throw PacketEOF => Ok Frame_incomplete
    | Ok (length, at_) =>
        if decide (eof - at_ + 1 < length) then Ok Frame_incomplete
        else if decide (length = 0) then Ok (Frame_empty (drop 1 data))
        else
          r ← popVarInt data eof at_;
          rest ← erase_front (at_ + length) data;
          Ok (Framed r.1 (drop (Z.to_nat r.2) data) rest)
    | Throw e => Throw e
    | UB k => UB k
    | OutOfFuel => OutOfFuel
    end.

Definition parsers (s : ClientStatus) : gmap Z packet_parser :=
  match s with
  | ClientStatus_Initial => packetIDToParseInitial
  | ClientStatus_Login => packetIDToParseLogin
  | ClientStatus_Status => packetIDToParseStatus
  | ClientStatus_Play => packetIDToParsePlay
  end.

(** ** Constants *)

Definition MC_VERSION : string := "1.19.3".
Definition MC_PROTOCOL : Z := 761.
Definition encryptionMaximumLength : nat := 512.

Definition DEFAULT_FAVICON : string :=
  foldr String.append EmptyString [
    "data:image/png;base64,iVBORw0KGgoAAAANSUhEUgAAAEAAAABABAMAAABYR2ztAAAAGFBMVEUStBFePiFHcEyPYTlEaCGolm4XIwsoemIehfltAAAABnRSTlP9/QD7c/";
    "h561WQAAACPUlEQVRIx32VTXPbIBCGtx0XX02pdU5T/QG6Vs4J8aTXto4mVzTKoKsPjf33u4s+EEiY0chj3od3dwEB3Mft17ekA+K/ZeHMLYD0S2fyAOnUGpMDyhfWhXs3GeCJdde5y/";
    "s6MOrCun+rwMuFZQoRWcwB17fOugwgBsLZ2w5CZENMFlkHGmxtNofSTc2sT9SRCqRHuGNuLYY0N9m1AJqEwlnIrEUJFrqPtx0ArOZQAgjxpa5/Q0QEgGQQWw98go1ZAI88EOzHm/+FTQo8WlKtFVuAmIBx/";
    "M7uIGqbOXBHw9mBn6l9DkDpw/fd10CYCbjrE7S0VldqZ6BntJiALVy77hraErhG7RwB32n+Y4J04b7OACaS8S4GYsLrzc8A8DcJgfD6AggEcAIR8MMDbkj03Out+psCPTHoDeIS4GJH/";
    "YRqEcITvU4GOslBToTXpUyrkHIohd9S6bhM6sNCsonlAEoznYRQsuBeBlrt4yUhtNKKPBhQulgBpEKpsWgY6ItKclCKDFBzInooOl5NSRqiVjocAsk8SA4iR4DCtPFUo3eQsgfaunDNEtCo8Y8H9qeHxTxon6QHGqz0csMo7+";
    "FDVPWpWAK0AVSfJCJyhwxllk+eYA/Ubl97XR3Cp3df4uhB61RXD/ynMvPPv/TVSQpC/trDJj5ASr8duNJYD0fQsfdQiT47xJ79JlDo369r5+Qzj235tT+sn7Ts0RAgD7mjmAgC1CF/";
    "sdLO1W1lblzNWmFlbl7uiDcvd1r516TjPwaZkJJGXel5AAAAAElFTkSuQmCC"].

(** The registries a player is sent when it joins. *)
Definition registryCodec : nbt_Base :=
  let float_bits n d := bits_of_float32 (double_to_float (double_lit n d)) in
  nbt_Compound EmptyString [
    nbt_Compound "minecraft:dimension_type" [
      nbt_String "type" "minecraft:dimension_type";
      nbt_List "value" [
        nbt_Compound EmptyString [
          nbt_String "name" "minecraft:overworld";
          nbt_Int "id" 0;
          nbt_Compound "element" [
            nbt_Byte "ultrawarm" 0;
            nbt_Int "logical_height" 256;
            nbt_String "infiniburn" "#minecraft:infiniburn_overworld";
            nbt_Byte "piglin_safe" 0;
            nbt_Float "ambient_light" (float_bits 0 10);
            nbt_Byte "has_skylight" 1;
            nbt_String "effects" "minecraft:overworld";
            nbt_Byte "has_raids" 1;
            nbt_Int "monster_spawn_block_light_limit" 0;
            nbt_Byte "respawn_anchor_works" 0;
            nbt_Int "height" 384;
            nbt_Byte "has_ceiling" 0;
            nbt_Compound "monster_spawn_light_level" [
              nbt_String "type" "minecraft:uniform";
              nbt_Compound "value" [
                nbt_Int "max_inclusive" 7;
                nbt_Int "min_inclusive" 0]];
            nbt_Byte "natural" 1;
            nbt_Int "min_y" (-64);
            nbt_Float "coordinate_scale" (float_bits 10 10);
            nbt_Byte "bed_works" 1]]]];
    nbt_Compound "minecraft:worldgen/biome" [
      nbt_String "type" "minecraft:worldgen/biome";
      nbt_List "value" [
        nbt_Compound EmptyString [
          nbt_String "name" "minecraft:plains";
          nbt_Int "id" 0;
          nbt_Compound "element" [
            nbt_String "precipitation" "none";
            nbt_Float "temperature" (float_bits 8 10);
            nbt_Float "downfall" (float_bits 4 10);
            nbt_Compound "effects" [
              nbt_Int "sky_color" 7907327;
              nbt_Int "water_fog_color" 329011;
              nbt_Int "fog_color" 12638463;
              nbt_Int "water_color" 4159204]]];
        nbt_Compound EmptyString [
          nbt_String "name" "minecraft:my_super_cool_biome_lol_haha";
          nbt_Int "id" 1;
          nbt_Compound "element" [
            nbt_String "precipitation" "none";
            nbt_Float "temperature" (float_bits 8 10);
            nbt_Float "downfall" (float_bits 4 10);
            nbt_Compound "effects" [
              nbt_Int "sky_color" 7907327;
              nbt_Int "water_fog_color" 329011;
              nbt_Int "fog_color" 12638463;
              nbt_Int "water_color" 4159204]]]]];
    nbt_Compound "minecraft:chat_type" [
      nbt_String "type" "minecraft:chat_type";
      nbt_List "value" [
        nbt_Compound EmptyString [
          nbt_String "name" "minecraft:chat";
          nbt_Int "id" 0;
          nbt_Compound "element" [
            nbt_Compound "chat" [
              nbt_List "parameters" [
                nbt_String EmptyString "sender";
                nbt_String EmptyString "content"];
              nbt_String "translation_key" "chat.type.text"];
            nbt_Compound "narration" [
              nbt_List "parameters" [
                nbt_String EmptyString "sender";
                nbt_String EmptyString "content"];
              nbt_String "translation_key" "chat.type.text.narrate"]]]]]].

(** ** JSON of the session server *)

(** [j[key]] of a [j] that may change: a key that is not there is added, null. *)
Definition json_member (key : string) (j : json) : result json :=
  match j with
  | json_object l => Ok (default json_null (members_find key l))
  | json_null => Ok json_null
  | _ => Throw nlohmann_exception
  end.

Definition session_property (i : json) : result PlayerProperty :=
  name ← json_member "name" i ≫= json_get_string;
  value ← json_member "value" i ≫= json_get_string;
  if json_contains "signature" i then
    signature ← json_member "signature" i ≫= json_get_string;
    Ok (mk_PlayerProperty name value true signature)
  else Ok (mk_PlayerProperty name value false EmptyString).

Section Client.
Context `{Cfb8} `{JobPool} `{JsonLib} `{!Plugins} `{Disk} `{Stod} `{Spdlog} `{Identity}.

(** ** Answers *)

(** [auto pck = create...; doWrite(std::move(pck));] *)
Definition client_send (this : Z) (pck : result (list Z)) : M Game unit :=
  data ← lift pck; on_network (Client_doWrite this data).

Definition Client_sendStatusResponse (this : Z) (text : string) : M Game unit :=
  client_send this (createStatusResponse (mk_StatusResponse text)).
Definition Client_sendPingResponse (this payload : Z) : M Game unit :=
  client_send this (createPingResponse (mk_PingResponse payload)).
Definition Client_sendLoginSuccess (this : Z) (packet : LoginSuccess) : M Game unit :=
  client_send this (createLoginSuccess packet).

(** The low half of the address, in the order of a little-endian host. *)
Definition client_token (this : Z) : Z := to_u32 (client_address this).
Definition verify_token (this : Z) : list Z := reverse (be_bytes 4 (client_token this)).

Definition Client_sendEncryptionRequest (this : Z) : M Game unit :=
  client_send this (createEncryptionRequest
    (mk_EncryptionRequest EmptyString rsa_public_key (verify_token this))).

Definition Client_player (this : Z) : M Game Z :=
  c ← this_client this;
  match _player c with Some p => mret p | None => undefined_ NullDereference end.

Definition Client_disconnect (this : Z) (reason : Message) : M Game unit :=
  c ← this_client this;
  if decide (_status c = ClientStatus_Play) then
    player ← Client_player this; Player_disconnect player reason
  else
    text ← lift (serialize_message reason);
    _ ← client_send this (createLoginDisconnect (mk_Disconnect text));
    on_network (Client_stop this).

Definition Client_sendLoginPlay (this : Z) : M Game unit :=
  player ← Client_player this;
  p ← this_player player;
  w ← gets g_world;
  Player_sendLoginPlay player
    (mk_LoginPlay player false (_gamemode p) Gamemode_Survival ["minecraft:overworld"] registryCodec
       "minecraft:overworld" "overworld" 0 20 (_renderDistance w) 16 false true false false false
       EmptyString (mk_Position 0 0 0)).

(** ** The login *)

Definition Client_switchToPlayState (this : Z) (playerUuid : u128) (username : string) : M Game unit :=
  _ ← update_client this (setStatus ClientStatus_Play);
  player ← Player_new this playerUuid username;
  update_client this (set_player (Some player)).

Definition Client_loginSequence (this : Z) (pck : LoginSuccess) : M Game unit :=
  _ ← Client_sendLoginSuccess this pck;
  _ ← Client_switchToPlayState this (LoginSuccess_uuid pck) (LoginSuccess_username pck);
  _ ← Client_sendLoginPlay this;
  player ← Client_player this;
  Player_continueLoginSequence player.

(** The identity that a [LoginStart] claims. *)
Definition claimed_identity (pck : LoginStart) : LoginSuccess :=
  mk_LoginSuccess
    (if LoginStart_hasPlayerUuid pck then LoginStart_playerUuid pck
     else mk_u128 (std_hash "OfflinePlayer:") (std_hash (LoginStart_name pck)))
    (LoginStart_name pck) [].

Definition Client_onLoginStart (this : Z) (pck : LoginStart) : M Game unit :=
  let resPck := claimed_identity pck in
  initialized ← in_server _worldsInitialized;
  config ← in_server _config;
  if negb initialized then Client_disconnect this (Message_text "Server is not initialized yet.")
  else
    refused ← (if config_whitelist_enabled config then
                 w ← in_server _whitelistData;
                 r ← lift (isPlayerWhitelisted w (LoginSuccess_uuid resPck) (LoginSuccess_username resPck));
                 mret (negb r.1)
               else mret false);
    if refused : bool then Client_disconnect this (Message_text "You are not whitelisted on this server.")
    else if config_online_mode config then
      _ ← update_client this (set_resPck resPck); Client_sendEncryptionRequest this
    else Client_loginSequence this resPck.

(** [RSAEncryptionHandler::decrypt]; [None] is -1. *)
Definition RSA_decrypt (encryptedData : list Z) (decryptedMaxSize : nat) : option (list Z) :=
  if decide (length encryptedData < rsa_get_len)%nat then None
  else if decide (decryptedMaxSize < rsa_get_len)%nat then None
  else rsa_pkcs1_decrypt (take rsa_get_len encryptedData).

(** The 16 bytes of the key, when the answer of the client is a good one. *)
Definition shared_key (this : Z) (pck : EncryptionResponse) : option (list Z) :=
  if decide (encryptionMaximumLength < length (EncryptionResponse_sharedSecret pck))%nat then None
  else if decide (encryptionMaximumLength < length (EncryptionResponse_verifyToken pck))%nat then None
  else
    token ← RSA_decrypt (EncryptionResponse_verifyToken pck) encryptionMaximumLength;
    if decide (length token ≠ 4%nat) then None
    else if decide (le_value token ≠ client_token this) then None
    else
      key ← RSA_decrypt (EncryptionResponse_sharedSecret pck) encryptionMaximumLength;
      if decide (length key = 16%nat) then Some key else None.

Definition server_id (key : list Z) : list Z := digestToProtocol (sha1 (key ++ rsa_public_key)).

(** The loop over the properties: those before one that throws are kept. *)
Fixpoint collect_properties (this : Z) (l : list json) : M Game unit :=
  match l with
  | [] => mret tt
  | i :: l =>
      p ← lift (session_property i);
      _ ← update_client this (λ c, set_resPck
            (mk_LoginSuccess (LoginSuccess_uuid (_resPck c)) (LoginSuccess_username (_resPck c))
               (LoginSuccess_properties (_resPck c) ++ [p])) c);
      collect_properties this l
  end.

(** [None] is also the empty answer. *)
Definition Client_handleOnline (this : Z) (key : list Z) : M Game bool :=
  c ← this_client this;
  clock ← in_server system_clock;
  match has_joined clock (LoginSuccess_username (_resPck c)) (server_id key) with
  | None => _ ← Client_disconnect this (Message_text "Disconnected"); mret false
  | Some readBuffer =>
      result ← lift (match json_parse readBuffer with Some j => Ok j | None => Throw nlohmann_exception end);
      id ← lift (json_member "id" result ≫= json_get_string);
      uuid ← lift (u128_fromShortString (string_bytes id));
      _ ← update_client this (λ c, set_resPck
            (mk_LoginSuccess uuid (LoginSuccess_username (_resPck c)) (LoginSuccess_properties (_resPck c))) c);
      properties ← lift (json_member "properties" result);
      _ ← collect_properties this (json_elements properties);
      mret true
  end.

Definition start_encryption (this : Z) (key : list Z) : M Network unit :=
  c ← gets (λ n, _connections n !! this);
  match c with
  | None => undefined_ NullDereference
  | Some c =>
      h ← lift (EAS_initialize key key (_encryption c));
      modify (set_connection this (mk_Connection (_isRunning c) true h))
  end.

Definition Client_onEncryptionResponse (this : Z) (pck : EncryptionResponse) : M Game unit :=
  match shared_key this pck with
  | None => Client_disconnect this (Message_text "Disconnected")
  | Some key =>
      _ ← on_network (start_encryption this key);
      online ← Client_handleOnline this key;
      if online : bool then c ← this_client this; Client_loginSequence this (_resPck c) else mret tt
  end.

(** ** Handshake and status *)

Definition Handshake_State_Status : Z := 1.
Definition Handshake_State_Login : Z := 2.

Definition Client_onHandshake (this : Z) (pck : Handshake) : M Game unit :=
  if decide (Handshake_nextState pck = Handshake_State_Status) then
    update_client this (setStatus ClientStatus_Status)
  else if decide (Handshake_nextState pck = Handshake_State_Login) then
    update_client this (setStatus ClientStatus_Login)
  else mret tt.

Definition dump (j : json) : result string :=
  match json_dump j with Some s => Ok s | None => Throw nlohmann_exception end.

Definition players_online (clients : gmap Z Client) : Z :=
  Z.of_nat (size (filter (λ e, _status e.2 = ClientStatus_Play) clients)).

Definition Client_onStatusRequest (this : Z) : M Game unit :=
  conf ← in_server _config;
  initialized ← in_server _worldsInitialized;
  cli ← gets g_clients;
  let description := json_set "text" (json_string (config_motd conf)) json_null in
  let j := json_set "enforcesSecureChat" (json_bool false)
    (json_set "description" description
      (json_set "favicon" (json_string DEFAULT_FAVICON)
        (json_set "previewsChat" (json_bool false) json_null))) in
  if negb initialized then text ← lift (dump j); Client_sendStatusResponse this text
  else
    let version := json_set "protocol" (json_number MC_PROTOCOL)
      (json_set "name" (json_string MC_VERSION) json_null) in
    let players := json_set "online" (json_number (players_online cli))
      (json_set "max" (json_number (config_max_players conf)) json_null) in
    text ← lift (dump (json_set "players" players (json_set "version" version j)));
    Client_sendStatusResponse this text.

Definition Client_onPingRequest (this : Z) (pck : PingRequest) : M Game unit :=
  Client_sendPingResponse this (PingRequest_payload pck).

(** ** Packets *)

(** What the player does with a packet of the [Play] state.  The handlers that
    only write to the log have no definition. *)
Definition handle_play (commands : list CommandBase) (player : Z) (packet : BaseServerPacket) : M Game unit :=
  match packet with
  | ChatMessage_packet p => Player_onChatMessage player p
  | ChatCommand_packet p => Player_onChatCommand commands player p
  | ClientInformation_packet p => Player_onClientInformation player p
  | ClickContainerButton_packet p => Player_onClickContainerButton player p
  | ClickContainer_packet p => Player_onClickContainer player p
  | CloseContainerRequest_packet p => Player_onCloseContainerRequest player p
  | PluginMessage_packet p => Player_onPluginMessage player p
  | Interact_packet p => Player_onInteract player p
  | KeepAliveResponse_packet p => Player_onKeepAliveResponse player p
  | SetPlayerPosition_packet p => Player_onSetPlayerPosition player p
  | SetPlayerPositionAndRotation_packet p => Player_onSetPlayerPositionAndRotation player p
  | SetPlayerRotation_packet p => Player_onSetPlayerRotation player p
  | PlayerAbilities_packet p => Player_onPlayerAbilities player p
  | PlayerAction_packet p => Player_onPlayerAction player p
  | PlayerCommand_packet p => Player_onPlayerCommand player p
  | SetHeldItem_packet p => Player_onSetHeldItem player p
  | SetCreativeModeSlot_packet p => Player_onSetCreativeModeSlot player p
  | SwingArm_packet p => Player_onSwingArm player p
  | UseItemOn_packet p => Player_onUseItemOn player p
  | _ => mret tt
  end.

(** The identifier selects the type the packet is cast to: that is the constructor
    ([table_packet] of [ClientLaws]).  A null pointer is that of [StatusRequest],
    whose handler does not read it. *)
Definition handleParsedClientPacket (commands : list CommandBase) (this : Z)
    (packet : option BaseServerPacket) : M Game unit :=
  c ← this_client this;
  match _status c, packet with
  | ClientStatus_Initial, Some (Handshake_packet p) => Client_onHandshake this p
  | ClientStatus_Status, None => Client_onStatusRequest this
  | ClientStatus_Status, Some (PingRequest_packet p) => Client_onPingRequest this p
  | ClientStatus_Login, Some (LoginStart_packet p) => Client_onLoginStart this p
  | ClientStatus_Login, Some (EncryptionResponse_packet p) => Client_onEncryptionResponse this p
  | ClientStatus_Play, Some p => player ← Client_player this; handle_play commands player p
  | _, _ => mret tt
  end.

(** One turn of the loop of [_handlePacket]: whether it goes on.  A
    [std::runtime_error] of the parser ends it; every other exception leaves the
    thread, and ends the program. *)
Definition handle_turn (commands : list CommandBase) (this : Z) : M Game bool :=
  c ← this_client this;
  f ← lift (next_frame (_recvBuffer c));
  match f with
  | Frame_incomplete => mret false
  | Frame_empty rest => _ ← update_client this (set_recvBuffer rest); mret true
  | Framed packetId toParse rest =>
      _ ← update_client this (set_recvBuffer rest);
      match parsers (_status c) !! packetId with
      | None => mret false
      | Some parser =>
          match parser toParse with
          | Ok packet => _ ← handleParsedClientPacket commands this packet; mret true
          | Throw e => if is_runtime_error e then mret false else raise e
          | UB k => undefined_ k
          | OutOfFuel => lift OutOfFuel
          end
      end
  end.

Fixpoint handle_loop (commands : list CommandBase) (fuel : nat) (this : Z) : M Game unit :=
  match fuel with
  | O => lift OutOfFuel
  | S fuel =>
      more ← handle_turn commands this;
      if more : bool then handle_loop commands fuel this else mret tt
  end.

(** Each turn but the last takes bytes away ([frame_shrinks] of [ClientLaws]),
    unless a packet has a negative length. *)
Definition Client_handlePacket (commands : list CommandBase) (this : Z) : M Game unit :=
  c ← this_client this; handle_loop commands (S (length (_recvBuffer c))) this.

(** What [doRead] does with the bytes of one [read_some]. *)
Definition decrypt_input (this : Z) (data : list Z) : M Network (list Z) :=
  c ← gets (λ n, _connections n !! this);
  match c with
  | None => undefined_ NullDereference
  | Some c =>
      if _isEncrypted c then
        r ← lift (EAS_decrypt data (_encryption c));
        _ ← modify (set_connection this (mk_Connection (_isRunning c) (_isEncrypted c) r.2));
        mret r.1
      else mret data
  end.

Definition Client_receive (commands : list CommandBase) (this : Z) (data : list Z) : M Game unit :=
  data ← on_network (decrypt_input this data);
  _ ← update_client this (λ c, set_recvBuffer (_recvBuffer c ++ data) c);
  Client_handlePacket commands this.

(** ** The end of a client *)

(** [~Client]: nobody else holds the client by then.  The map of chunks has no
    order of its own. *)
Definition Client_destroy (this : Z) : M Game unit :=
  c ← this_client this;
  _ ← modify (λ g, set_g_clients (delete this (g_clients g)) g);
  _ ← on_network (modify (λ n, mk_Network (delete this (_connections n)) (_toSend n)));
  match _player c with
  | None => mret tt
  | Some player =>
      _ ← Dimension_removeEntity player;
      _ ← Dimension_removePlayer player;
      p ← this_player player;
      _ ← for_each (map_to_list (_chunks p)) (λ chunkReq,
            if decide (chunkReq.2 = ChunkState_Loading)
            then Dimension_removePlayerFromLoadingChunk chunkReq.1 player else mret tt);
      Player_destroy player
  end.
End Client.
