(* ===== verification/Server.v ===== *)
(** * The threads of the server (Server.hpp, Server.cpp, Client::run, Client::doRead)

    The thread that accepts connections and stops the server, the thread that
    writes, and a thread for each client, as one step relation.  A step is what a
    thread does between two points where it can wait: for bytes, for another thread
    to end, or for [clientsMutex], which is held by the writing thread from its
    cleanup to its write and by the main thread while it stops the clients.  (One
    packet handler takes that mutex too, to count players; it is let through.)

    An exception or undefined behaviour in a thread ends the program: such a step is
    not taken.  The other threads, that tick the world and load chunks, are the
    [activity]s.  A counter of 64 bits is taken not to wrap around. *)

From S2P Require Import Prelude State Types ServerPackets ClientPackets CreatePackets Network Json Message Game Dimension World Player Commands Client.

(** ** State *)

Inductive client_pc : Type :=
| C_test       (* [while (_isRunning)] *)
| C_reading.   (* [_socket.read_some] *)

(** [data] is the buffer that was taken from the queue. *)
Inductive writer_pc : Type :=
| W_waiting
| W_popped (data : Z * list Z)
| W_cleaning (data : Z * list Z) (todo : list Z)
| W_cleaned (data : Z * list Z)
| W_done.

Inductive main_pc : Type :=
| M_accepting
| M_disconnecting (todo : list Z)
| M_joining (todo : list Z)
| M_flushing (polls : nat)
| M_terminated
| M_stopped.

Section Server.
Context `{Cfb8} `{JobPool} `{JsonLib} `{!Plugins} `{Disk} `{Stod} `{Spdlog} `{Identity}.
Variable commands : list CommandBase.

(** [wire] is what the sockets have been given.  [pushed] and [failed] are there for
    the theorems alone: everything that was ever queued, and the clients for which
    a write has failed. *)
Record Process : Type := mk_Process {
  game : Game;
  threads : gmap Z client_pc;
  writer : writer_pc;
  main : main_pc;
  currentClientID : Z;
  hasTerminated : bool;
  wire : gmap Z (list Z);
  pushed : list (Z * list Z);
  failed : gset Z
}.

(** The queue and the connections. *)
Definition queue (p : Process) : list (Z * list Z) := _toSend (g_network (game p)).
Definition connection (p : Process) (id : Z) : option Connection := _connections (g_network (game p)) !! id.
Definition isDisconnected (p : Process) (id : Z) : bool :=
  match connection p id with Some c => negb (_isRunning c) | None => false end.
(** The keys of [_clients]: a client is an entry of the connections, and one of the
    clients of the game. *)
Definition clients (p : Process) : list Z := (map_to_list (_connections (g_network (game p)))).*1.

Definition mutex_free (p : Process) : bool :=
  match writer p, main p with
  | W_cleaning _ _, _ | W_cleaned _, _ => false
  | _, M_disconnecting _ | _, M_joining _ => false
  | _, _ => true
  end.

(** What was queued by a step that leaves the game [g]. *)
Definition set_game (g : Game) (p : Process) : Process :=
  mk_Process g (threads p) (writer p) (main p) (currentClientID p) (hasTerminated p) (wire p)
    (pushed p ++ drop (length (queue p)) (_toSend (g_network g))) (failed p).
Definition set_thread (id : Z) (pc : option client_pc) (p : Process) : Process :=
  mk_Process (game p) (partial_alter (λ _, pc) id (threads p)) (writer p) (main p) (currentClientID p)
    (hasTerminated p) (wire p) (pushed p) (failed p).
Definition set_writer (w : writer_pc) (p : Process) : Process :=
  mk_Process (game p) (threads p) w (main p) (currentClientID p) (hasTerminated p) (wire p) (pushed p) (failed p).
Definition set_main (m : main_pc) (p : Process) : Process :=
  mk_Process (game p) (threads p) (writer p) m (currentClientID p) (hasTerminated p) (wire p) (pushed p) (failed p).
(** The buffer at the head of the queue leaves it. *)
Definition set_queue (q : list (Z * list Z)) (p : Process) : Process :=
  mk_Process (set_g_network (mk_Network (_connections (g_network (game p))) q) (game p))
    (threads p) (writer p) (main p) (currentClientID p) (hasTerminated p) (wire p) (pushed p) (failed p).

(** ** Clients *)

(** [new Client], with its socket and [currentClientID]: the identifier of [_resPck]
    is not initialised. *)
Definition Client_new (uninitialised : u128) : Client :=
  mk_Client ClientStatus_Initial [] None (mk_LoginSuccess uninitialised EmptyString []).

Definition readBufferSize : nat := 2048.

(** What the handler of [async_accept] does with a connection; the thread of the
    client starts. *)
Definition Server_accept (uninitialised : u128) (p : Process) : Process :=
  let id := currentClientID p in
  let g := game p in
  let n := mk_Network (<[id := mk_Connection true false None]> (_connections (g_network g))) (queue p) in
  mk_Process (set_g_clients (<[id := Client_new uninitialised]> (g_clients g)) (set_g_network n g))
    (<[id := C_test]> (threads p)) (writer p) (main p) (id + 1) (hasTerminated p) (wire p) (pushed p)
    (failed p).

(** [boost::asio::write] *)
Definition write_socket (id : Z) (data : list Z) (p : Process) : Process :=
  mk_Process (game p) (threads p) W_waiting (main p) (currentClientID p) (hasTerminated p)
    (<[id := default [] (wire p !! id) ++ data]> (wire p)) (pushed p) (failed p).
Definition write_fails (id : Z) (p : Process) : Process :=
  mk_Process (game p) (threads p) W_waiting (main p) (currentClientID p) (hasTerminated p)
    (wire p) (pushed p) ({[id]} ∪ failed p).

(** What the threads of the world group, of the dimensions and of the command line
    do. *)
Inductive activity : M Game unit → Prop :=
| activity_world : activity World_tick
| activity_player id : activity (Player_tick id)
| activity_chunk x z : activity (Dimension_sendChunkToPlayers x z)
| activity_console line : activity (parseCommand commands line None).

(** ** Steps *)

(** The bytes that arrive from a client, and the end of its connection, are the
    only steps that a peer decides. *)
Inductive event : Type :=
| E_input (id : Z)
| E_internal.

Inductive step (p : Process) : event → Process → Prop :=
(** Client::doRead *)
| client_goes_on id :
    threads p !! id = Some C_test → isDisconnected p id = false →
    step p E_internal (set_thread id (Some C_reading) p)
| client_ends id :
    threads p !! id = Some C_test → isDisconnected p id = true →
    step p E_internal (set_thread id None p)
| client_reads id data g :
    threads p !! id = Some C_reading → (0 < length data ≤ readBufferSize)%nat →
    Client_receive commands id data (game p) = (Ok tt, g) →
    step p (E_input id) (set_thread id (Some C_test) (set_game g p))
| client_read_error id n :
    threads p !! id = Some C_reading → Client_stop id (g_network (game p)) = (Ok tt, n) →
    step p (E_input id) (set_thread id None (set_game (set_g_network n (game p)) p))
(** Server::_writeLoop *)
| writer_pops data q :
    writer p = W_waiting → queue p = data :: q →
    step p E_internal (set_writer (W_popped data) (set_queue q p))
| writer_terminates :
    writer p = W_waiting → queue p = [] → hasTerminated p = true →
    step p E_internal (set_writer W_done p)
| writer_locks data todo :
    writer p = W_popped data → mutex_free p = true → Permutation todo (clients p) →
    step p E_internal (set_writer (W_cleaning data todo) p)
| writer_skips data id todo :
    writer p = W_cleaning data (id :: todo) → isDisconnected p id = false →
    step p E_internal (set_writer (W_cleaning data todo) p)
| writer_erases data id todo g :
    writer p = W_cleaning data (id :: todo) → isDisconnected p id = true → threads p !! id = None →
    Client_destroy id (game p) = (Ok tt, g) →
    step p E_internal (set_writer (W_cleaning data todo) (set_game g p))
| writer_cleaned data :
    writer p = W_cleaning data [] → step p E_internal (set_writer (W_cleaned data) p)
| writer_drops data :
    writer p = W_cleaned data → connection p data.1 = None →
    step p E_internal (set_writer W_waiting p)
| writer_drops_disconnected data g :
    writer p = W_cleaned data → isDisconnected p data.1 = true → threads p !! data.1 = None →
    Client_destroy data.1 (game p) = (Ok tt, g) →
    step p E_internal (set_writer W_waiting (set_game g p))
| writer_writes data c :
    writer p = W_cleaned data → connection p data.1 = Some c → _isRunning c = true →
    step p E_internal (write_socket data.1 data.2 p)
| writer_fails data c :
    writer p = W_cleaned data → connection p data.1 = Some c → _isRunning c = true →
    step p E_internal (write_fails data.1 p)
(** Server::_doAccept, Server::_stop *)
| main_accepts uninitialised :
    main p = M_accepting → step p E_internal (Server_accept uninitialised p)
| main_locks todo :
    main p = M_accepting → _running (g_server (game p)) = false → mutex_free p = true →
    Permutation todo (clients p) →
    step p E_internal (set_main (M_disconnecting todo) p)
| main_disconnects id todo g :
    main p = M_disconnecting (id :: todo) →
    Client_disconnect id (Message_text "Server Closed") (game p) = (Ok tt, g) →
    step p E_internal (set_main (M_disconnecting todo) (set_game g p))
| main_disconnected todo :
    main p = M_disconnecting [] → Permutation todo (clients p) →
    step p E_internal (set_main (M_joining todo) p)
| main_joins id todo :
    main p = M_joining (id :: todo) → threads p !! id = None →
    step p E_internal (set_main (M_joining todo) p)
| main_joined :
    main p = M_joining [] → step p E_internal (set_main (M_flushing 500) p)
| main_polls polls :
    main p = M_flushing (S polls) → queue p ≠ [] →
    step p E_internal (set_main (M_flushing polls) p)
| main_terminates polls :
    main p = M_flushing polls → polls = 0%nat ∨ queue p = [] →
    step p E_internal (mk_Process (game p) (threads p) (writer p) M_terminated (currentClientID p) true
      (wire p) (pushed p) (failed p))
| main_stops :
    main p = M_terminated → writer p = W_done →
    step p E_internal (set_main M_stopped (set_queue [] p))
(** The other threads *)
| others_act q g :
    activity q → q (game p) = (Ok tt, g) → step p E_internal (set_game g p).

(** Some steps, none of which is the input of a client in [silent]. *)
Inductive steps (silent : Z → Prop) : Process → Process → Prop :=
| steps_refl p : steps silent p p
| steps_cons p e p' p'' :
    (∀ id, e = E_input id → ¬ silent id) → step p e p' → steps silent p' p'' → steps silent p p''.

Lemma steps_trans silent p p' p'' : steps silent p p' → steps silent p' p'' → steps silent p p''.
Proof. induction 1 as [|p e p' q He Hs _ IH]; [done|]. intros Hq. eapply steps_cons; eauto. Qed.

(** The server before its first connection: the writing thread has started. *)
Definition started (g : Game) : Process :=
  mk_Process g ∅ W_waiting M_accepting 0 false ∅ [] ∅.
End Server.
