(* ===== verification/Example.v ===== *)
(** * A server for the examples

    Concrete functions in the place of the libraries, and a world with one player,
    on which the theorems about the game are applied. *)

From S2P Require Import Prelude State Logging Configuration Types Floats Structures ChunkColumn Level ClientPackets Network Json Message Game Dimension Player Commands Client.

(** The bytes as they are; jobs that are numbered and can always be cancelled. *)
#[export] Instance plain_cfb8 : Cfb8 :=
  {| aes_key := list Z; aes_setkey_enc := id; cfb8_encrypt := λ _ iv a, (a, iv);
     cfb8_decrypt := λ _ iv a, (a, iv) |}.
#[export] Instance counting_pool : JobPool :=
  {| pool_state := Z; pool_addJob := λ _ n, (n, n + 1); pool_cancelJob := λ _ n, (true, n) |}.

(** Every value is written as one text; a text is read as the answer of a session
    server. *)
#[export] Instance one_json : JsonLib :=
  {| json_dump := λ _, Some "json";
     json_parse := λ _, Some (json_object
       [("id", json_string "aaaaaaaaaaaaaaaabbbbbbbbbbbbbbbb"); ("properties", json_array [])]) |}.
#[export] Instance no_plugins : Plugins := λ _, [].
#[export] Instance no_disk : Disk := {| read_config := File_missing; read_whitelist := None |}.
#[export] Instance no_stod : Stod := λ _, None.
#[export] Instance three_levels : Spdlog :=
  {| LEVEL_NAMES := ["debug"; "info"; "warning"]; level_from_str := λ s, if decide (s = "debug") then 0 else 1 |}.

(** A cipher text of 17 bytes: the length of the clear text, which follows it. *)
#[export] Instance example_identity : Identity :=
  {| std_hash := λ _, 7; rsa_get_len := 17;
     rsa_pkcs1_decrypt := λ l, match l with n :: l => Some (take (Z.to_nat n) l) | [] => None end;
     rsa_public_key := [1; 2; 3]; sha1 := λ _, [1]; has_joined := λ _ _ _, Some "answer";
     client_address := λ id, 4096 + 16 * id |}.

(** ** The state *)

Definition nobody : LoginSuccess := mk_LoginSuccess (mk_u128 0 0) EmptyString [].
Definition example_player : Player := Player_make 0 0 (mk_u128 5 6) "player" false.
Definition example_world : World := mk_World 0 0 2 (mk_TickClock false 20 0) 7.
Definition example_config (online whitelisted : bool) : Config :=
  mk_Config online whitelisted false "motd" 20.
Definition example_server (config : Config) (whitelist : json) : Server :=
  mk_Server config ∅ whitelist [] [] true [] 1000 true ∅ (Registry_make 0) (λ _, 7).

(** One connection, 0, whose client is [c]; the player 0 exists, as a player of
    the dimension when [joined]. *)
Definition example_game (config : Config) (whitelist : json) (c : Client) (joined : bool) : Game :=
  mk_Game (mk_Network {[0 := mk_Connection true false None]} [])
    (if joined then {[0 := example_player]} else ∅) ∅
    (mk_Dimension ∅ (if joined then [0] else []) (if joined then [0] else []) ∅)
    example_world 0 1 (example_server config whitelist) {[0 := c]}.

Definition joined_game : Game :=
  example_game (example_config false false) json_null
    (mk_Client ClientStatus_Play [] (Some 0) nobody) true.
