(* ===== verification/PermissionProps.v ===== *)
(** * What the game leaves alone

    [Framed I]: [I] survives every elementary change that a packet of the [Play]
    state may make: writes to clients and stops of clients, changes of players that
    keep their rights, changes of items, of the dimension and its chunk requests, of
    the log of the chat.  The handlers are composed of these, so that they keep [I]
    as well ([handle_play_framed]); what a command does is a hypothesis, and so is
    what a plugin does.  [NetworkFramed] is about the network alone, which the ticks,
    the login and the end of a client keep too. *)

From S2P Require Import Prelude State Logging Floats BlockStates BlockStatesProps Network Types Codec Structures ServerPackets ChunkColumn Level Container Inventory ClientPackets CreatePackets Json Message Game Dimension World PlayerView Player Commands PlayerHandlers Client Example.

(** ** Elementary changes *)

Section Steps.
Context `{Cfb8}.

(** A buffer is queued; the cipher of a connection moves on; a client stops. *)
Inductive network_step (n : Network) : Network → Prop :=
| step_push id data :
    is_Some (_connections n !! id) → network_step n (mk_Network (_connections n) (_toSend n ++ [(id, data)]))
| step_connection id c c' :
    _connections n !! id = Some c → (_isRunning c' = true → _isRunning c = true) →
    network_step n (set_connection id c' n).

Lemma doWrite_steps (J : Network → Prop) :
  (∀ n n', J n → network_step n n' → J n') →
  ∀ id data, keeps J (Client_doWrite id data).
Proof.
  intros HJ id data n Hn. unfold Client_doWrite, gets, lift, modify, Server_sendData, mbind, M_bind.
  destruct (_connections n !! id) as [c|] eqn:Hc; [|done].
  destruct (_isEncrypted c); [|apply (HJ n); [done|by apply step_push]].
  destruct (EAS_encrypt data (_encryption c)) as [[out h]| | |]; try done. cbn.
  apply (HJ (set_connection id (mk_Connection (_isRunning c) true h) n));
    [|apply (step_push (set_connection id _ n)); cbn; by rewrite lookup_insert_eq].
  eapply HJ; [done|by eapply step_connection].
Qed.

Lemma stop_steps (J : Network → Prop) :
  (∀ n n', J n → network_step n n' → J n') → ∀ id, keeps J (Client_stop id).
Proof.
  intros HJ id. apply keeps_modify. intros n Hn.
  destruct (_connections n !! id) as [c|] eqn:Hc; [|done].
  eapply HJ; [done|by eapply step_connection].
Qed.

Lemma send_steps (J : Network → Prop) :
  (∀ n n', J n → network_step n n' → J n') → ∀ id pck, keeps J (send id pck).
Proof.
  intros HJ id pck. unfold send. apply keeps_bind; [apply keeps_gets|].
  intros [c|]; [|apply keeps_ret]. apply keeps_bind; [apply keeps_lift|].
  intros data. by apply doWrite_steps.
Qed.

Lemma decrypt_input_steps (J : Network → Prop) :
  (∀ n n', J n → network_step n n' → J n') → ∀ id data, keeps J (decrypt_input id data).
Proof.
  intros HJ id data n Hn. unfold decrypt_input, gets, lift, modify, mbind, M_bind.
  destruct (_connections n !! id) as [c|] eqn:Hc; [|done].
  destruct (_isEncrypted c); [|done].
  destruct (EAS_decrypt data (_encryption c)) as [[out h]| | |]; try done. cbn.
  eapply HJ; [done|by eapply step_connection].
Qed.

Lemma start_encryption_steps (J : Network → Prop) :
  (∀ n n', J n → network_step n n' → J n') → ∀ id key, keeps J (start_encryption id key).
Proof.
  intros HJ id key n Hn. unfold start_encryption, gets, lift, modify, mbind, M_bind.
  destruct (_connections n !! id) as [c|] eqn:Hc; [|done].
  destruct (EAS_initialize key key (_encryption c)) as [h| | |]; try done. cbn.
  eapply HJ; [done|by eapply step_connection].
Qed.
End Steps.

Lemma this_player_run `{Cfb8} `{JobPool} this p g :
  g_players g !! this = Some p → this_player this g = (Ok p, g).
Proof. intros E. unfold this_player, gets, mbind, M_bind. by rewrite E. Qed.

(** What the server holds about a player that no packet of it may change. *)
Definition rights (p : Player) : Z * bool * string * u128 * Z :=
  (_gamemode p, _isOperator p, _username p, _uuid p, _cli p).

Class Framed `{Cfb8} `{JobPool} (I : Game → Prop) : Prop := {
  framed_network g n : I g → network_step (g_network g) n → I (set_g_network n g);
  framed_player g id f : I g → (∀ p, rights (f p) = rights p) →
    I (set_g_players (alter f id (g_players g)) g);
  framed_items g m : I g → I (set_g_items m g);
  framed_dimension g d : I g → I (set_g_dimension d g);
  framed_pool g p : I g → I (set_g_pool p g);
  framed_nextId g n : I g → I (set_g_nextId n g);
  framed_log g l : I g → I (set_g_server (set_messagesLog l (g_server g)) g);
  framed_registry g r : I g → I (set_g_server (set_registry r (g_server g)) g);
  framed_random g r : I g → I (set_g_server (set_random r (g_server g)) g)
}.

(** ** The proofs

    One rule per construct of the monad; a definition that has no lemma of its own
    is unfolded. *)

Create HintDb framed.

Ltac term_head t := match t with ?f _ => term_head f | _ => t end.

Ltac frame_step :=
  lazymatch goal with
  | |- ∀ _, _ => intros ?
  | |- keeps _ (mret _) => apply keeps_ret
  | |- keeps _ (lift _) => apply keeps_lift
  | |- keeps _ (gets _) => apply keeps_gets
  | |- keeps _ (undefined_ _) => apply keeps_undefined
  | |- keeps _ (raise _) => apply keeps_raise
  | |- keeps _ (mbind _ _) => apply keeps_bind
  | |- keeps _ (for_each _ _) => apply keeps_for_each
  | |- keeps _ (let _ := _ in _) => cbv zeta
  | |- keeps _ (match ?x with _ => _ end) => destruct x
  | |- keeps _ _ =>
      first [ solve [auto with framed nocore]
            | match goal with |- keeps _ ?p => let h := term_head p in progress unfold h end ]
  end.
Ltac frame := repeat frame_step.

Section Framed.
Context `{Cfb8} `{JobPool} `{JsonLib} `{!Plugins} (I : Game → Prop) `{!Framed I}.

Abbreviation framed := (keeps I).

Lemma framed_on_network {A} (p : M Network A) :
  (∀ J : Network → Prop, (∀ n n', J n → network_step n n' → J n') → keeps J p) → framed (on_network p).
Proof.
  intros Hp g Hg. unfold on_network, member.
  assert (Hk : keeps (λ n, I (set_g_network n g)) p).
  { apply Hp. intros n n' Hn Hs. exact (framed_network (set_g_network n g) n' Hn Hs). }
  specialize (Hk (g_network g)). destruct (p (g_network g)) as [r n]. apply Hk. by destruct g.
Qed.

Lemma framed_send id pck : framed (on_network (send id pck)).
Proof. apply framed_on_network. intros J HJ. by apply send_steps. Qed.
Lemma framed_doWrite id data : framed (on_network (Client_doWrite id data)).
Proof. apply framed_on_network. intros J HJ. by apply doWrite_steps. Qed.
Lemma framed_stop id : framed (on_network (Client_stop id)).
Proof. apply framed_on_network. intros J HJ. by apply stop_steps. Qed.

Lemma framed_update_player this f :
  (∀ p, rights (f p) = rights p) → framed (update_player this f).
Proof. intros Hf. apply keeps_modify. intros g Hg. by apply framed_player. Qed.
Lemma framed_on_dimension {A} (p : M Dimension A) : framed (on_dimension p).
Proof. apply keeps_member. intros g d. apply framed_dimension. Qed.
Lemma framed_on_pool {A} (f : pool_state → A * pool_state) : framed (on_pool f).
Proof. apply keeps_member. intros g p. apply framed_pool. Qed.
Lemma framed_set_items f : framed (modify (λ g, set_g_items (f g) g)).
Proof. apply keeps_modify. intros g. apply framed_items. Qed.
Lemma framed_set_nextId f : framed (modify (λ g, set_g_nextId (f g) g)).
Proof. apply keeps_modify. intros g. apply framed_nextId. Qed.
Lemma framed_on_log f : framed (on_server (λ s, set_messagesLog (f s) s)).
Proof. apply keeps_modify. intros g. apply framed_log. Qed.

#[local] Hint Resolve framed_send framed_doWrite framed_stop framed_on_dimension framed_on_pool
  framed_set_items framed_set_nextId framed_on_log : framed.
#[local] Hint Extern 4 (keeps I (update_player _ _)) =>
  (apply framed_update_player; by intros []) : framed.

Lemma framed_send_to this pck : framed (send_to this pck).
Proof. frame. Qed.
#[local] Hint Resolve framed_send_to : framed.

(** ** Dimensions, chat and the list of players *)

Lemma framed_each_player f : (∀ i, framed (f i)) → framed (each_player f).
Proof. intros Hf. frame. Qed.

Lemma framed_updateBlock position id : framed (Dimension_updateBlock_sent position id).
Proof. frame. Qed.
Lemma framed_removePlayerFromLoadingChunk pos player :
  framed (Dimension_removePlayerFromLoadingChunk pos player).
Proof. frame. Qed.
Lemma framed_dropItem slot pos : framed (Dimension_dropItem slot pos).
Proof. frame. Qed.
Lemma framed_sendSystem_to message overlay player : framed (Chat_sendSystem_to message overlay player).
Proof. frame. Qed.
Lemma framed_sendMessage_all message from type : framed (Chat_sendMessage_all message from type).
Proof. frame. Qed.

(** ** Plugins

    From here on the plugins keep [I] as well. *)

Hypothesis plugins_framed : ∀ e f, f ∈ plugin_events e → framed f.

Lemma framed_onEvent e : framed (onEvent e).
Proof.
  unfold onEvent. apply keeps_for_each. intros f Hf.
  apply keeps_bind; [by eapply plugins_framed|frame].
Qed.
Lemma framed_onEventCancelable e : framed (onEventCancelable e).
Proof.
  unfold onEventCancelable. generalize false. specialize (plugins_framed e).
  induction (plugin_events e) as [|f l IH]; intros b; cbn; [frame|].
  destruct b; [|apply keeps_bind; [apply plugins_framed; set_solver|intros b]];
    apply IH; intros; apply plugins_framed; set_solver.
Qed.
#[local] Hint Resolve framed_updateBlock framed_removePlayerFromLoadingChunk framed_dropItem
  framed_sendSystem_to framed_sendMessage_all framed_onEvent framed_onEventCancelable : framed.

(** ** Players *)

Lemma framed_Player_disconnect this reason : framed (Player_disconnect this reason).
Proof. frame. Qed.
Lemma framed_sendChunkAndLightUpdate this x z : framed (Player_sendChunkAndLightUpdate this x z).
Proof. frame. Qed.
Lemma framed_unloadChunk this x z : framed (Player_unloadChunk this x z).
Proof. frame. Qed.
#[local] Hint Resolve framed_Player_disconnect framed_sendChunkAndLightUpdate framed_unloadChunk : framed.

Lemma framed_updateRenderedChunks this old new : framed (Player_updateRenderedChunks this old new).
Proof. frame. Qed.
#[local] Hint Resolve framed_updateRenderedChunks : framed.

Lemma rights_moved pos onGround p : rights (Player_moved pos onGround p) = rights p.
Proof. destruct p. unfold Player_moved. repeat case_match; reflexivity. Qed.
#[local] Hint Extern 1 (keeps I (update_player _ (Player_moved _ _))) =>
  (apply framed_update_player, rights_moved) : framed.

Lemma framed_setPosition this pos onGround : framed (Player_setPosition this pos onGround).
Proof. frame. Qed.
Lemma framed_attack this source : framed (LivingEntity_attack this source).
Proof. frame. Qed.
Lemma framed_on_clicks this p : framed (on_clicks this p).
Proof. frame. Qed.
Lemma framed_take_one this : framed (take_one this).
Proof. frame. Qed.
Lemma framed_reset_if_empty this : framed (reset_if_empty this).
Proof. frame. Qed.
#[local] Hint Resolve framed_setPosition framed_attack framed_on_clicks framed_take_one
  framed_reset_if_empty : framed.

(** ** The packets of the [Play] state *)

Context `{Disk} `{Stod} `{Spdlog} `{Identity}.

(** The commands that anybody may give: they read, and write to the log. *)
Lemma framed_DumpChunk args invoker : framed (DumpChunk_execute args invoker).
Proof. frame. Qed.
Lemma framed_Log args invoker : framed (Log_execute args invoker).
Proof. unfold Log_execute. apply keeps_member. intros g r. apply framed_registry. Qed.
Lemma framed_Loot args invoker : framed (Loot_execute args invoker).
Proof.
  assert (Hr : ∀ f, framed (on_server (λ s, set_random (f s) s))).
  { intros f. apply keeps_modify. intros g. apply framed_random. }
  unfold Loot_execute. frame.
Qed.
Lemma framed_InventoryDump args invoker : framed (InventoryDump_execute args invoker).
Proof. frame. Qed.

(** A player whose commands keep [I]. *)
Definition commands_framed (commands : list CommandBase) (player : Z) : Prop :=
  ∀ command, framed (parseCommand commands command (Some player)).

Lemma handle_play_framed commands player packet :
  commands_framed commands player → framed (handle_play commands player packet).
Proof.
  intros Hc. unfold handle_play. destruct packet; try apply keeps_ret; [..|frame].
  all: try (unfold Player_onChatCommand; apply Hc).
  all: frame.
Qed.

End Framed.

(** ** The network alone

    An invariant of the network that its steps preserve is kept by everything: the
    packets of every state, the ticks and the commands. *)

Section Network.
Context `{Cfb8} `{JobPool} `{JsonLib} `{!Plugins} `{Disk} `{Stod} `{Spdlog} `{Identity}.
Context (J : Network → Prop) (J_step : ∀ n n', J n → network_step n n' → J n').

Definition of_network (g : Game) : Prop := J (g_network g).
Abbreviation kept := (keeps of_network).

#[export] Instance of_network_framed : Framed of_network.
Proof. split; try done. intros g n. apply J_step. Qed.

Hypothesis plugins_kept : ∀ e f, f ∈ plugin_events e → kept f.

Lemma kept_modify f : (∀ g, g_network (f g) = g_network g) → kept (modify f).
Proof. intros Hf. apply keeps_modify. intros g Hg. unfold of_network. by rewrite Hf. Qed.
Lemma kept_on_network {A} (p : M Network A) :
  (∀ J : Network → Prop, (∀ n n', J n → network_step n n' → J n') → keeps J p) → kept (on_network p).
Proof. apply framed_on_network, of_network_framed. Qed.
Lemma kept_start_encryption id key : kept (on_network (start_encryption id key)).
Proof. apply kept_on_network. intros J' HJ. by apply start_encryption_steps. Qed.
Lemma kept_decrypt_input id data : kept (on_network (decrypt_input id data)).
Proof. apply kept_on_network. intros J' HJ. by apply decrypt_input_steps. Qed.
Lemma kept_send id pck : kept (on_network (send id pck)).
Proof. apply framed_send, of_network_framed. Qed.
Lemma kept_doWrite id data : kept (on_network (Client_doWrite id data)).
Proof. apply framed_doWrite, of_network_framed. Qed.
Lemma kept_stop id : kept (on_network (Client_stop id)).
Proof. apply framed_stop, of_network_framed. Qed.
Lemma kept_onEvent e : kept (onEvent e).
Proof. apply framed_onEvent, plugins_kept. Qed.
Lemma kept_onEventCancelable e : kept (onEventCancelable e).
Proof. apply framed_onEventCancelable; [apply of_network_framed|apply plugins_kept]. Qed.
#[local] Hint Resolve kept_start_encryption kept_decrypt_input kept_send kept_doWrite kept_stop
  kept_onEvent kept_onEventCancelable : framed.
#[local] Hint Extern 5 (keeps _ (modify _)) => (apply kept_modify; reflexivity) : framed.

Lemma kept_member {A T} (get : Game → T) (set : T → Game → Game) (p : M T A) :
  (∀ g t, g_network (set t g) = g_network g) → kept (member get set p).
Proof. intros Hs. apply keeps_member. intros g t Hg. unfold of_network. by rewrite Hs. Qed.
#[local] Hint Extern 5 (keeps _ (member g_dimension _ _)) => (apply kept_member; reflexivity) : framed.
#[local] Hint Extern 5 (keeps _ (member g_world _ _)) => (apply kept_member; reflexivity) : framed.
#[local] Hint Extern 5 (keeps _ (on_pool _)) => (apply framed_on_pool, of_network_framed) : framed.

(** *** Chunks *)

Lemma kept_sendChunkAndLightUpdate this x z : kept (Player_sendChunkAndLightUpdate this x z).
Proof. apply framed_sendChunkAndLightUpdate, of_network_framed. Qed.
Lemma kept_removePlayerFromLoadingChunk pos player :
  kept (Dimension_removePlayerFromLoadingChunk pos player).
Proof. apply framed_removePlayerFromLoadingChunk, of_network_framed. Qed.
Lemma kept_sendSystem_to message overlay player : kept (Chat_sendSystem_to message overlay player).
Proof. apply framed_sendSystem_to, of_network_framed. Qed.
Lemma kept_Player_disconnect this reason : kept (Player_disconnect this reason).
Proof. apply framed_Player_disconnect; [apply of_network_framed|apply plugins_kept]. Qed.
#[local] Hint Resolve kept_sendChunkAndLightUpdate kept_removePlayerFromLoadingChunk
  kept_sendSystem_to kept_Player_disconnect : framed.

(** *** Ticks, login and end *)

Lemma kept_player_info player : kept (player_info player).
Proof. frame. Qed.
#[local] Hint Resolve kept_player_info : framed.
Lemma kept_collect_infos current l : kept (collect_infos current l).
Proof. induction l as [|i l IH]; [apply keeps_ret|]. cbn [collect_infos]. frame. Qed.
#[local] Hint Resolve kept_collect_infos : framed.

Lemma kept_Player_tick this : kept (Player_tick this).
Proof. frame. Qed.
Lemma kept_World_tick : kept World_tick.
Proof. frame. Qed.
Lemma kept_sendChunkToPlayers x z : kept (Dimension_sendChunkToPlayers x z).
Proof. frame. Qed.
Lemma kept_Player_destroy this : kept (Player_destroy this).
Proof. frame. Qed.
Lemma kept_continueLoginSequence this : kept (Player_continueLoginSequence this).
Proof. frame. Qed.
#[local] Hint Resolve kept_Player_destroy kept_continueLoginSequence : framed.

Lemma kept_loginSequence this pck : kept (Client_loginSequence this pck).
Proof. frame. Qed.
Lemma kept_disconnect this reason : kept (Client_disconnect this reason).
Proof. frame. Qed.
#[local] Hint Resolve kept_loginSequence kept_disconnect : framed.

Lemma kept_collect_properties this l : kept (collect_properties this l).
Proof. induction l as [|i l IH]; [apply keeps_ret|]. cbn [collect_properties]. frame. Qed.
#[local] Hint Resolve kept_collect_properties : framed.
Lemma kept_handleOnline this key : kept (Client_handleOnline this key).
Proof. frame. Qed.
#[local] Hint Resolve kept_handleOnline : framed.

(** *** The commands of the server *)

Lemma kept_server f : kept (on_server f).
Proof. by apply kept_modify. Qed.
Lemma kept_update_player this f : kept (update_player this f).
Proof. by apply kept_modify. Qed.
#[local] Hint Resolve kept_server kept_update_player : framed.

Lemma kept_reload : kept Server_reload.
Proof. frame. Qed.
Lemma kept_change_gamemode player gamemode flags speed text :
  kept (change_gamemode player gamemode flags speed text).
Proof. frame. Qed.
Lemma kept_time verb arg invoker : kept (checkArgsTime verb arg invoker).
Proof. frame. Qed.
Lemma kept_log_command args invoker :
  kept (DumpChunk_execute args invoker) ∧ kept (Log_execute args invoker) ∧
  kept (Loot_execute args invoker) ∧ kept (InventoryDump_execute args invoker).
Proof.
  split_and!; [apply framed_DumpChunk|apply framed_Log|apply framed_Loot|apply framed_InventoryDump];
    apply of_network_framed.
Qed.
#[local] Hint Resolve kept_reload kept_change_gamemode kept_time : framed.

Lemma kept_help_method l c args invoker :
  c ∈ builtin_commands l → kept (command_help_method c args invoker).
Proof.
  intros Hc. repeat (apply list.elem_of_cons in Hc as [->|Hc]); [..|by apply list.not_elem_of_nil in Hc].
  all: cbn [command_help_method]; frame.
Qed.
Lemma kept_Help l args invoker : kept (Help_execute (builtin_commands l) args invoker).
Proof.
  destruct args as [|name args]; unfold Help_execute; [frame|].
  destruct (find_by command_name name (builtin_commands l)) as [c|] eqn:Hc; [|frame].
  apply find_by_some in Hc as [Hc _]. by eapply kept_help_method.
Qed.
#[local] Hint Resolve kept_Help : framed.
Lemma kept_execute l c args invoker :
  c ∈ builtin_commands (builtin_commands l) → kept (command_execute c args invoker).
Proof.
  intros Hc. repeat (apply list.elem_of_cons in Hc as [->|Hc]); [..|by apply list.not_elem_of_nil in Hc].
  all: cbn [command_execute]; first [apply kept_log_command | frame].
Qed.
Lemma kept_parseCommand l command invoker :
  kept (parseCommand (builtin_commands (builtin_commands l)) command invoker).
Proof.
  unfold parseCommand. destruct (split_args command) as [|name args]; [apply keeps_ret|].
  cbv zeta. destruct (find_by _ _ _) as [c|] eqn:Hc; [|frame].
  apply find_by_some in Hc as [Hc _]. by eapply kept_execute.
Qed.

(** *** Clients *)

Variable commands : list CommandBase.
Hypothesis commands_kept : ∀ command invoker, kept (parseCommand commands command invoker).

Lemma kept_handle_play player packet : kept (handle_play commands player packet).
Proof.
  apply handle_play_framed; [apply of_network_framed|apply plugins_kept|].
  intros command. apply commands_kept.
Qed.
#[local] Hint Resolve kept_handle_play : framed.
Lemma kept_handle_turn this : kept (handle_turn commands this).
Proof. frame. Qed.
#[local] Hint Resolve kept_handle_turn : framed.
Lemma kept_handle_loop fuel this : kept (handle_loop commands fuel this).
Proof. induction fuel as [|fuel IH]; cbn [handle_loop]; frame. Qed.
#[local] Hint Resolve kept_handle_loop : framed.

(** Whatever bytes a client sends. *)
Lemma kept_receive this data : kept (Client_receive commands this data).
Proof. frame. Qed.

Lemma kept_destroy this :
  (∀ n, J n → J (mk_Network (delete this (_connections n)) (_toSend n))) → kept (Client_destroy this).
Proof.
  intros Hd. assert (Hn : kept (on_network
    (modify (λ n, mk_Network (delete this (_connections n)) (_toSend n)))))
    by (intros g Hg; by apply Hd).
  revert Hn. unfold Client_destroy. frame.
Qed.
End Network.

(** * What it takes to be an operator

    The packets of a player that is no operator leave the privileges of everybody
    and the state of the world and of the server as they are; and what becomes of
    the operators in their file. *)

Section Permissions.
Context `{Cfb8} `{JobPool} `{JsonLib} `{!Plugins} `{Disk} `{Stod} `{Spdlog} `{Identity}.

(** The server but for the log of the chat, the levels of the loggers and the random
    numbers that are left. *)
Definition lasting (s : Server) : Server :=
  set_random (λ _, 0) (set_registry (Registry_make 0) (set_messagesLog [] s)).
(** The world, what lasts of the server, and what it holds about every player. *)
Definition privileges (g : Game) :=
  (g_world g, lasting (g_server g), rights <$> g_players g).

(** The privileges are those of [g0]; in them [player] is no operator. *)
Definition unprivileged (g0 : Game) (player : Z) (g : Game) : Prop :=
  privileges g = privileges g0 ∧
  ∀ p, g_players g !! player = Some p → _isOperator p = false.

#[export] Instance unprivileged_framed g0 player : Framed (unprivileged g0 player).
Proof.
  split; [intros g n [E F] _|intros g id f [E F] Hf|intros g m [E F]..];
    try (split; [rewrite <- E; reflexivity|exact F]).
  assert (R : rights <$> alter f id (g_players g) = rights <$> g_players g).
  { rewrite (fmap_alter rights f (λ r, r)); [apply alter_id; done|done]. }
  split; [rewrite <- E; unfold privileges; cbn; by rewrite R|].
  intros p Hp. cbn in Hp. apply (f_equal (fmap rights)) in Hp.
  rewrite <- lookup_fmap, R, lookup_fmap in Hp.
  destruct (g_players g !! player) as [q|]; [|done]. specialize (F q eq_refl).
  unfold rights in Hp. cbn in Hp. congruence.
Qed.

(** ** The commands of a player that is no operator *)

Section Commands.
Variables (g0 : Game) (player : Z).
Let I := unprivileged g0 player.

(** What follows when the flag of the player is read. *)
Lemma refused {A} (k : Player → M Game A) :
  (∀ v, _isOperator v = false → keeps I (k v)) → keeps I (v ← this_player player; k v).
Proof.
  intros Hk g Hg. destruct (g_players g !! player) as [v|] eqn:Hv.
  - rewrite (bind_run_ok _ _ _ _ _ (this_player_run _ _ _ Hv)). apply Hk; [|done]. by apply (proj2 Hg).
  - unfold this_player, gets, undefined_, mbind, M_bind. by rewrite Hv.
Qed.
Lemma if_operator_refused (p : Z → M Game unit) q : keeps I (if_operator (Some player) p q).
Proof. apply refused. intros v ->. apply keeps_ret. Qed.
Lemma unless_operator_refused (p : M Game unit) : keeps I (unless_not_operator (Some player) p).
Proof. apply refused. intros v ->. apply keeps_ret. Qed.

Lemma tell_framed text : keeps I (tell player text).
Proof. apply framed_sendSystem_to. apply unprivileged_framed. Qed.

Lemma help_method_framed l c args :
  c ∈ builtin_commands l → keeps I (command_help_method c args (Some player)).
Proof.
  intros Hc. repeat (apply list.elem_of_cons in Hc as [->|Hc]); [..|by apply list.not_elem_of_nil in Hc].
  all: first [apply if_operator_refused | apply tell_framed | apply keeps_ret].
Qed.

Lemma Help_execute_framed l args : keeps I (Help_execute (builtin_commands l) args (Some player)).
Proof.
  destruct args as [|name args]; unfold Help_execute.
  - apply keeps_for_each. intros c _. apply refused. intros v ->. apply keeps_ret.
  - destruct (find_by command_name name (builtin_commands l)) as [c|] eqn:Hc; [|apply tell_framed].
    apply find_by_some in Hc as [Hc _]. by eapply help_method_framed.
Qed.

Lemma Gamemode_execute_framed args : keeps I (Gamemode_execute args (Some player)).
Proof.
  unfold Gamemode_execute. case_decide; [apply keeps_ret|]. apply refused. intros v ->. apply keeps_ret.
Qed.

Lemma Time_execute_framed args : keeps I (Time_execute args (Some player)).
Proof.
  destruct args as [|? [|? []]]; try apply keeps_ret. apply if_operator_refused.
Qed.

Lemma Seed_execute_framed args : keeps I (Seed_execute args (Some player)).
Proof. apply keeps_bind; [apply keeps_gets|]. intros w. apply if_operator_refused. Qed.

Lemma execute_framed l c args :
  c ∈ builtin_commands (builtin_commands l) → keeps I (command_execute c args (Some player)).
Proof.
  intros Hc. repeat (apply list.elem_of_cons in Hc as [->|Hc]); [..|by apply list.not_elem_of_nil in Hc].
  all: cbn [command_execute]; lazymatch goal with
    | |- keeps _ (DumpChunk_execute _ _) => apply framed_DumpChunk; apply unprivileged_framed
    | |- keeps _ (Log_execute _ _) => apply framed_Log; apply unprivileged_framed
    | |- keeps _ (Loot_execute _ _) => apply framed_Loot; apply unprivileged_framed
    | |- keeps _ (InventoryDump_execute _ _) => apply framed_InventoryDump; apply unprivileged_framed
    | _ => first [apply Help_execute_framed | apply if_operator_refused | apply unless_operator_refused
        | apply Seed_execute_framed | apply Time_execute_framed | apply Gamemode_execute_framed]
    end.
Qed.

Lemma builtin_commands_framed l : commands_framed I (builtin_commands (builtin_commands l)) player.
Proof.
  intros command. unfold parseCommand. destruct (split_args command) as [|name args]; [apply keeps_ret|].
  cbv zeta. destruct (find_by _ _ _) as [c|] eqn:Hc.
  - apply find_by_some in Hc as [Hc _]. by eapply execute_framed.
  - apply keeps_bind; [apply tell_framed|]. intros _. apply tell_framed.
Qed.
End Commands.

(** C23: a player that is no operator has no power: whatever packet of the [Play] state
    it sends, commands included, the operators, the whitelist, the configuration and
    the rest of the server, the time of the world, and the game mode, the rank and
    the identity of every player are what they were, also when the handler throws.
    The plugins are supposed to leave them alone too.  The log of the chat grows, random numbers
    are drawn by [/loot], and [/log] changes the levels of the loggers for anybody. *)
Theorem non_operator_keeps_privileges l player packet g :
  (∀ p, g_players g !! player = Some p → _isOperator p = false) →
  (∀ e f, f ∈ plugin_events e → keeps (unprivileged g player) f) →
  privileges (handle_play (builtin_commands (builtin_commands l)) player packet g).2 = privileges g.
Proof.
  intros Hp Hplugins.
  apply (handle_play_framed (unprivileged g player) Hplugins _ _ _ (builtin_commands_framed g player l)).
  by split.
Qed.
End Permissions.

(** The player of the example asks to become an operator. *)
Lemma non_operator_keeps_privileges_witness :
  let packet := ChatCommand_packet (mk_ChatCommand "op player" 0 0 [] 0 []) in
  privileges (handle_play (builtin_commands (builtin_commands [])) 0 packet joined_game).2 =
    privileges joined_game.
Proof.
  apply non_operator_keeps_privileges.
  - intros p Hp. cbn in Hp. injection Hp as <-. reflexivity.
  - intros e f Hf. by apply list.not_elem_of_nil in Hf.
Defined.

(** ** The commands that anybody may give *)

(** With one word [/dumpChunk] reads past its arguments, whoever gives it. *)
Lemma dumpChunk_one_argument `{Cfb8} `{JobPool} `{JsonLib} `{!Plugins} `{Disk} `{Stod} `{Spdlog} l player g :
  parseCommand (builtin_commands l) "/dumpChunk 5" (Some player) g = (UB OutOfBoundsRead, g).
Proof. reflexivity. Qed.
(** So does [/log] with the name of a logger alone. *)
Lemma log_one_argument `{Cfb8} `{JobPool} `{JsonLib} `{!Plugins} `{Disk} `{Stod} `{Spdlog} l player g :
  "main" ∉ LEVEL_NAMES → is_Some (_loggers (_registry (g_server g)) !! "main") →
  (parseCommand (builtin_commands l) "/log main" (Some player) g).1 = UB OutOfBoundsRead.
Proof.
  intros Hm Hg. change (parseCommand (builtin_commands l) "/log main" (Some player) g) with
    (Log_execute ["main"] (Some player) g).
  unfold Log_execute, member, Log_levels. rewrite bool_decide_eq_false_2 by done.
  unfold Registry_get, gets, mbind, M_bind. by rewrite bool_decide_eq_true_2.
Qed.
(** A chunk that is no number ends in an exception that nothing catches. *)
Lemma dumpChunk_not_a_number `{Cfb8} `{JobPool} `{JsonLib} `{!Plugins} `{Disk} `{Stod} `{Spdlog} l player g :
  parseCommand (builtin_commands l) "/dumpChunk a b" (Some player) g = (Throw std_logic_error, g).
Proof. reflexivity. Qed.
