(* ===== verification/ServerProps.v ===== *)
(** * Encrypted streams *)

From S2P Require Import Prelude State Network Types ServerPackets ClientPackets CreatePackets Json Message Game Dimension World Player Commands Client Server Example PermissionProps.

Section Stream.
Context `{Cfb8Laws}.

(** The connection that an encrypted client has after [data] was written to it. *)
Definition advanced (data : list Z) (h : EAS) : EAS :=
  mk_EAS (eas_context h) (cfb8_encrypt (eas_context h) (eas_initialVectorEncrypt h) data).2
    (eas_initialVectorDecrypt h).
Definition ciphertext (h : EAS) (data : list Z) : list Z :=
  (cfb8_encrypt (eas_context h) (eas_initialVectorEncrypt h) data).1.

Lemma advanced_app a b h : advanced (a ++ b) h = advanced b (advanced a h).
Proof.
  unfold advanced. cbn. rewrite cfb8_encrypt_app.
  destruct (cfb8_encrypt _ (eas_initialVectorEncrypt h) a) as [a' iv]. cbn.
  by destruct (cfb8_encrypt _ iv b).
Qed.
Lemma ciphertext_app a b h : ciphertext h (a ++ b) = ciphertext h a ++ ciphertext (advanced a h) b.
Proof.
  unfold ciphertext, advanced. cbn. rewrite cfb8_encrypt_app.
  destruct (cfb8_encrypt _ (eas_initialVectorEncrypt h) a) as [a' iv]. cbn.
  by destruct (cfb8_encrypt _ iv b).
Qed.

Lemma doWrite_step (e : Z * list Z) n id c h :
  _connections n !! id = Some c → _isEncrypted c = true → _encryption c = Some h →
  writable e.1 n →
  let mine := if decide (e.1 = id) then e.2 else [] in
  ∃ out n', Client_doWrite e.1 e.2 n = (Ok tt, n') ∧
    _toSend n' = _toSend n ++ [(e.1, out)] ∧ (e.1 = id → out = ciphertext h e.2) ∧
    _connections n' !! id = Some (mk_Connection (_isRunning c) true (Some (advanced mine h))) ∧
    no_less_writable n n'.
Proof.
  intros Hc He Hh Hw mine. subst mine.
  destruct (doWrite_ok e.1 e.2 n Hw) as (n' & E & Hno & _). destruct Hw as (c' & Hc' & Hw').
  assert (Hmk : c = mk_Connection (_isRunning c) true (Some h)) by (destruct c; cbn in *; congruence).
  destruct (_isEncrypted c') eqn:Ec.
  - destruct (Hw' eq_refl) as [h' Hh'].
    pose proof (doWrite_encrypted e.1 e.2 n c' h' Hc' Ec Hh') as Hd.
    destruct (cfb8_encrypt (eas_context h') _ e.2) as [out iv] eqn:Eo. rewrite E in Hd. injection Hd as ->.
    exists out. eexists. split_and!; [exact E|done| | |done].
    + intros <-. assert (h' = h) as -> by congruence. unfold ciphertext. by rewrite Eo.
    + cbn. case_decide as Eid.
      * subst id. rewrite lookup_insert_eq. assert (c' = c) as -> by congruence.
        assert (h' = h) as -> by congruence. unfold advanced. by rewrite Eo.
      * rewrite lookup_insert_ne by done. unfold advanced. rewrite cfb8_encrypt_nil. cbn.
        rewrite Hc, Hmk. by destruct h.
  - pose proof (doWrite_plain e.1 e.2 n c' Hc' Ec) as Hd. rewrite E in Hd. injection Hd as ->.
    assert (e.1 ≠ id) by congruence.
    exists e.2. eexists. split_and!; [exact E|done|done| |done].
    rewrite decide_False by done. cbn. unfold advanced. rewrite cfb8_encrypt_nil. cbn.
    rewrite Hc, Hmk. by destruct h.
Qed.

Lemma writes_run l n id c h :
  _connections n !! id = Some c → _isEncrypted c = true → _encryption c = Some h →
  (∀ e, e ∈ l → writable e.1 n) →
  ∃ n' q, for_each l (λ e, Client_doWrite e.1 e.2) n = (Ok tt, n') ∧ _toSend n' = _toSend n ++ q ∧
    bytes id q = ciphertext h (bytes id l) ∧
    _connections n' !! id =
      Some (mk_Connection (_isRunning c) true (Some (advanced (bytes id l) h))).
Proof.
  revert n c h. induction l as [|e l IH]; intros n c h Hc He Hh Hw.
  - exists n, []. split_and!; [done|by rewrite app_nil_r|by unfold ciphertext; cbn; rewrite cfb8_encrypt_nil|].
    unfold advanced. cbn. rewrite cfb8_encrypt_nil. rewrite Hc. destruct c, h; cbn in *; congruence.
  - destruct (doWrite_step e n id c h Hc He Hh) as (out & n1 & E & Hq & Ho & Hc1 & Hno); [apply Hw; set_solver|].
    destruct (IH n1 _ _ Hc1 eq_refl eq_refl) as (n' & q & E' & Hq' & Hb & Hc');
      [intros e' He'; apply Hno, Hw; set_solver|].
    pose proof (bytes_app id [e] l : bytes id (e :: l) = _) as Hel. rewrite Hel.
    exists n', ([(e.1, out)] ++ q). cbn [for_each]. rewrite (bind_run_ok _ _ _ _ _ E).
    split_and!; [done|by rewrite Hq', Hq, <- app_assoc| |].
    + rewrite bytes_app, Hb, ciphertext_app, !bytes_single. cbn [fst snd].
      case_decide as Eid; [by rewrite Ho|]. unfold ciphertext at 2. by rewrite cfb8_encrypt_nil.
    + rewrite Hc'. cbn [_isRunning]. by rewrite advanced_app, bytes_single.
Qed.

(** C25: an encrypted client can read its stream: whatever packets are written to it and to
    others, in whatever order, the bytes that are queued for it decrypt, with its key
    and from the vector its stream had, to those packets, one after another; and its
    cipher is then where the one of the client is. *)
Theorem encrypted_stream_decrypts l n id c h :
  _connections n !! id = Some c → _isEncrypted c = true → _encryption c = Some h →
  (∀ e, e ∈ l → writable e.1 n) →
  ∃ n' q h', for_each l (λ e, Client_doWrite e.1 e.2) n = (Ok tt, n') ∧ _toSend n' = _toSend n ++ q ∧
    cfb8_decrypt (eas_context h) (eas_initialVectorEncrypt h) (bytes id q) =
      (bytes id l, eas_initialVectorEncrypt h') ∧
    _encryption <$> _connections n' !! id = Some (Some h') ∧ eas_context h' = eas_context h.
Proof.
  intros Hc He Hh Hw. destruct (writes_run l n id c h Hc He Hh Hw) as (n' & q & E & Hq & Hb & Hc').
  exists n', q, (advanced (bytes id l) h). split_and!; [done|done| |by rewrite Hc'|done].
  rewrite Hb. apply cfb8_decrypt_encrypt.
Qed.
End Stream.

(** A cipher with a memory: to every number the key and the one before it are added. *)
Fixpoint chain_encrypt (k : Z) (v a : list Z) : list Z * list Z :=
  match a with
  | [] => ([], v)
  | x :: a => let c := x + k + hd 0 v in let '(out, w) := chain_encrypt k [c] a in (c :: out, w)
  end.
Fixpoint chain_decrypt (k : Z) (v a : list Z) : list Z * list Z :=
  match a with
  | [] => ([], v)
  | c :: a => let '(out, w) := chain_decrypt k [c] a in (c - k - hd 0 v :: out, w)
  end.
Definition chained : Cfb8 :=
  {| aes_key := Z; aes_setkey_enc := hd 0; cfb8_encrypt := chain_encrypt; cfb8_decrypt := chain_decrypt |}.

Lemma chained_laws : @Cfb8Laws chained.
Proof.
  split; cbn.
  - intros k v a b. revert v. induction a as [|x a IH]; intros v; cbn.
    + by destruct (chain_encrypt k v b).
    + rewrite IH. destruct (chain_encrypt k [_] a) as [a' w]. by destruct (chain_encrypt k w b).
  - done.
  - intros k v a. revert v. induction a as [|x a IH]; intros v; cbn; [done|].
    specialize (IH [x + k + hd 0 v]). destruct (chain_encrypt k [_] a) as [a' w]. cbn in *.
    rewrite IH. do 2 f_equal. lia.
Qed.

(** Two clients, of which the first has this cipher. *)
Definition two_clients : @Network chained :=
  @mk_Network chained
    {[0 := @mk_Connection chained true true (Some (@mk_EAS chained 3 [5] [5]));
      1 := @mk_Connection chained true false None]} [].

Lemma encrypted_stream_decrypts_witness :
  ∃ n' q h', for_each [(0, [1; 2]); (1, [9]); (0, [4])] (λ e, @Client_doWrite chained e.1 e.2) two_clients =
      (Ok tt, n') ∧ _toSend n' = [] ++ q ∧
    chain_decrypt 3 [5] (bytes 0 q) = ([1; 2; 4], eas_initialVectorEncrypt h') ∧
    _encryption <$> _connections n' !! 0 = Some (Some h') ∧ eas_context h' = 3.
Proof.
  refine (@encrypted_stream_decrypts chained chained_laws [(0, [1; 2]); (1, [9]); (0, [4])] two_clients 0
    (@mk_Connection chained true true (Some (@mk_EAS chained 3 [5] [5]))) (@mk_EAS chained 3 [5] [5])
    _ _ _ _); try reflexivity.
  intros e He. repeat (apply list.elem_of_cons in He as [->|He]); [..|by apply list.not_elem_of_nil in He].
  all: eexists; split; [reflexivity|]; try (intros _; by eexists); done.
Defined.

(** * What reaches the clients

    The queue and the writing thread are a channel to every client: its socket is
    given what was queued for it, in order.  A client that has been stopped is given
    nothing more; while its thread waits for a silent peer, neither is anybody. *)

Section Growth.
Context `{Cfb8}.

Definition is_running (n : Network) (id : Z) : Prop :=
  ∃ c, _connections n !! id = Some c ∧ _isRunning c = true.

(** What a thread can do to the network: queue buffers for clients that are there,
    stop clients, remove them. *)
Definition grows (n n' : Network) : Prop :=
  (∃ l, _toSend n' = _toSend n ++ l ∧ ∀ e, e ∈ l → is_Some (_connections n !! e.1)) ∧
  (∀ id, is_Some (_connections n' !! id) → is_Some (_connections n !! id)) ∧
  (∀ id, is_running n' id → is_running n id).

Lemma grows_refl n : grows n n.
Proof. split_and!; [exists []; split; [by rewrite app_nil_r|set_solver]|done|done]. Qed.

Lemma grows_step n0 n n' : grows n0 n → network_step n n' → grows n0 n'.
Proof.
  intros ((l & Hl & Hi) & Hd & Hr) [id data Hid|id c c' Hc Hrun].
  - split_and!; [|done|done]. exists (l ++ [(id, data)]). cbn. rewrite Hl, <- app_assoc.
    split; [done|]. intros e [He|He]%list.elem_of_app; [by apply Hi|].
    apply list.list_elem_of_singleton in He as ->. by apply Hd.
  - split_and!; [by exists l| |].
    + intros i. cbn. intros Hi'. apply Hd. destruct (decide (i = id)) as [->|]; [by rewrite Hc|].
      by rewrite lookup_insert_ne in Hi' by done.
    + intros i (d & Hi' & Hd'). cbn in Hi'. apply Hr. destruct (decide (i = id)) as [->|].
      * rewrite lookup_insert_eq in Hi'. injection Hi' as <-. exists c. auto.
      * rewrite lookup_insert_ne in Hi' by done. by exists d.
Qed.

Lemma grows_delete n0 n id :
  grows n0 n → grows n0 (mk_Network (delete id (_connections n)) (_toSend n)).
Proof.
  intros (Hl & Hd & Hr). split_and!; [done| |].
  - intros i [c Hc]. cbn in Hc. apply lookup_delete_Some in Hc as [_ Hc]. apply Hd. by eexists.
  - intros i (c & Hc & Hi). cbn in Hc. apply lookup_delete_Some in Hc as [_ Hc]. apply Hr. by exists c.
Qed.
End Growth.

Section Threads.
Context `{Cfb8} `{JobPool} `{JsonLib} `{!Plugins} `{Disk} `{Stod} `{Spdlog} `{Identity}.
Variable other_commands : list CommandBase.
Let commands := builtin_commands (builtin_commands other_commands).

(** A plugin reaches the network through the server only. *)
Hypothesis plugins_kept : ∀ J : Network → Prop,
  (∀ n n', J n → network_step n n' → J n') → ∀ e f, f ∈ plugin_events e → keeps (of_network J) f.

Abbreviation state := Process.
Definition net (p : state) : Network := g_network (game p).

(** *** What the threads do to the network *)

Lemma kept_grows (q : M Game unit) g :
  (∀ J : Network → Prop, (∀ n n', J n → network_step n n' → J n') →
     (∀ n id, J n → J (mk_Network (delete id (_connections n)) (_toSend n))) → keeps (of_network J) q) →
  grows (g_network g) (g_network (q g).2).
Proof.
  intros Hq. apply (Hq (grows (g_network g))).
  - apply grows_step.
  - intros n id. apply grows_delete.
  - apply grows_refl.
Qed.

Lemma activity_grows q g : activity commands q → grows (g_network g) (g_network (q g).2).
Proof.
  intros Hq. apply kept_grows. intros J HJ _. specialize (plugins_kept J HJ). destruct Hq.
  - by apply kept_World_tick.
  - by apply kept_Player_tick.
  - by apply kept_sendChunkToPlayers.
  - by apply kept_parseCommand.
Qed.
Lemma receive_grows id data g : grows (g_network g) (g_network (Client_receive commands id data g).2).
Proof.
  apply kept_grows. intros J HJ _. specialize (plugins_kept J HJ).
  apply kept_receive; [done..|]. intros command invoker. by apply kept_parseCommand.
Qed.
Lemma destroy_grows id g : grows (g_network g) (g_network (Client_destroy id g).2).
Proof. apply kept_grows. intros J HJ Hd. apply kept_destroy; [done|by apply plugins_kept|auto]. Qed.
Lemma disconnect_grows id reason g : grows (g_network g) (g_network (Client_disconnect id reason g).2).
Proof. apply kept_grows. intros J HJ Hd. apply kept_disconnect; [done|by apply plugins_kept]. Qed.
Lemma stop_grows id n : grows n (Client_stop id n).2.
Proof. apply (stop_steps (grows n) (grows_step n)). apply grows_refl. Qed.

(** *** The channel to a client *)

Definition in_hand (w : writer_pc) : list (Z * list Z) :=
  match w with W_popped d | W_cleaning d _ | W_cleaned d => [d] | _ => [] end.
Definition wire_of (p : state) (id : Z) : list Z := default [] (wire p !! id).

(** What was queued is what was taken from the queue, what the writing thread has in
    its hand, what the end of the server has thrown away, and what is in the queue.
    A socket was given a prefix of what was taken for it: all of it while the client
    runs. *)
Definition channel_ok (p : state) : Prop := ∃ popped thrown,
  pushed p = popped ++ in_hand (writer p) ++ thrown ++ queue p ∧
  (thrown = [] ∨ main p = M_stopped) ∧
  ∀ id, id ∉ failed p →
    wire_of p id `prefix_of` bytes id popped ∧ (is_running (net p) id → wire_of p id = bytes id popped).

(** The next identifier is a new one. *)
Definition ids_ok (p : state) : Prop :=
  (∀ id, is_Some (connection p id) → id < currentClientID p) ∧
  (∀ e, e ∈ pushed p → e.1 < currentClientID p) ∧
  (∀ id, currentClientID p ≤ id → wire p !! id = None).

Definition process_ok (p : state) : Prop :=
  channel_ok p ∧ ids_ok p ∧ (main p = M_stopped → writer p = W_done).

Lemma queue_set_game g p : grows (net p) (g_network g) →
  _toSend (g_network g) = queue p ++ drop (length (queue p)) (_toSend (g_network g)).
Proof. intros ((l & Hl & _) & _). unfold queue, net in *. by rewrite Hl, drop_app_length. Qed.

Lemma process_ok_set_game g p : grows (net p) (g_network g) → process_ok p → process_ok (set_game g p).
Proof.
  intros Hg ((popped & thrown & Hp & Ht & Hw) & (Hc & Hq & Hi) & Hm).
  pose proof (queue_set_game g p Hg) as Hqueue. destruct Hg as ((l & Hl & Hin) & Hd & Hr).
  split_and!; [exists popped, thrown; split_and!|split_and!|]; try done.
  - cbn [pushed set_game writer]. unfold queue at 2. cbn [game set_game].
    rewrite Hqueue at 2. rewrite Hp, <- !app_assoc. done.
  - intros id Hid. destruct (Hw id Hid) as [Hpre Heq]. split; [done|]. intros Hrun. by apply Heq, Hr.
  - intros id Hid. by apply Hc, Hd.
  - intros e. cbn. intros [He|He]%list.elem_of_app; [by apply Hq|].
    unfold queue, net in *. rewrite Hl, drop_app_length in He. by apply Hc, Hin.
Qed.

(** The writing thread moves on with the same buffer in its hand. *)
Lemma process_ok_set_writer w p :
  in_hand w = in_hand (writer p) → (main p = M_stopped → w = W_done) →
  process_ok p → process_ok (set_writer w p).
Proof.
  intros Hw Hd ((popped & thrown & Hp & Ht & Hwire) & Hids & Hm). split_and!; [|exact Hids|exact Hd].
  exists popped, thrown. cbn [writer set_writer]. rewrite Hw. done.
Qed.

(** It is done with the buffer in its hand: the sockets have been given [m], and the
    writes to the clients [s] have failed. *)
Definition set_wire (m : gmap Z (list Z)) (s : gset Z) (p : state) : state :=
  mk_Process (game p) (threads p) W_waiting (main p) (currentClientID p) (hasTerminated p) m (pushed p) s.

Lemma process_ok_done d m s p :
  in_hand (writer p) = [d] → failed p ⊆ s →
  (∀ id, id ≠ d.1 → m !! id = wire p !! id) →
  (d.1 ∉ s → default [] (m !! d.1) = wire_of p d.1 ++ d.2 ∧ is_running (net p) d.1 ∨
             default [] (m !! d.1) = wire_of p d.1 ∧ ¬ is_running (net p) d.1) →
  process_ok p → process_ok (set_wire m s p).
Proof.
  intros Hd Hs Hm Hw ((popped & thrown & Hp & Ht & Hwire) & (Hc & Hq & Hi) & Hstop).
  split_and!; [exists (popped ++ [d]), thrown; split_and!|split_and!|]; try done.
  - cbn [pushed set_wire writer in_hand]. rewrite Hp, Hd, <- app_assoc. done.
  - intros id Hid. rewrite bytes_app, bytes_single. unfold wire_of. cbn [wire set_wire].
    assert (Hf : id ∉ failed p) by set_solver. destruct (Hwire id Hf) as [Hpre Heq].
    case_decide as E.
    + subst id. destruct (Hw Hid) as [[-> Hrun]|[-> Hrun]].
      * rewrite (Heq Hrun). done.
      * split; [by apply prefix_app_r|done].
    + rewrite app_nil_r. rewrite Hm by done. done.
  - intros id Hid. cbn. rewrite Hm; [by apply Hi|]. intros ->. 
    assert (d.1 < currentClientID p); [|cbn in Hid; lia]. apply Hq. rewrite Hp, Hd. set_solver.
  - intros E. apply Hstop in E. by rewrite E in Hd.
Qed.

Lemma process_ok_accept u p : process_ok p → process_ok (Server_accept u p).
Proof.
  intros ((popped & thrown & Hp & Ht & Hwire) & (Hc & Hq & Hi) & Hstop).
  split_and!; [exists popped, thrown; split_and!|split_and!|]; try done.
  - intros id Hid. destruct (Hwire id Hid) as [Hpre Heq]. split; [done|].
    intros (c & Hconn & Hrun). cbn in Hconn. destruct (decide (id = currentClientID p)) as [->|].
    + unfold wire_of. cbn [wire Server_accept]. rewrite Hi by done. symmetry. apply bytes_other.
      intros e He E. assert (e.1 < currentClientID p); [apply Hq; rewrite Hp; set_solver|lia].
    + rewrite lookup_insert_ne in Hconn by done. apply Heq. by exists c.
  - intros id. unfold connection. cbn. intros Hid. destruct (decide (id = currentClientID p)); [lia|].
    rewrite lookup_insert_ne in Hid by done. specialize (Hc id Hid). lia.
  - intros e He. specialize (Hq e He). cbn. lia.
  - intros id. cbn. intros Hid. apply Hi. lia.
Qed.

Lemma is_running_disconnected p id : isDisconnected p id = true → ¬ is_running (net p) id.
Proof.
  unfold isDisconnected, connection. intros Hd (c & Hc & Hr). unfold net in Hc. rewrite Hc, Hr in Hd. done.
Qed.

Lemma process_ok_pop data q p :
  writer p = W_waiting → queue p = data :: q → process_ok p →
  process_ok (set_writer (W_popped data) (set_queue q p)).
Proof.
  intros Hw Hqueue ((popped & thrown & Hp & Ht & Hwire) & Hids & Hstop).
  assert (Hm : main p ≠ M_stopped) by (intros E; apply Hstop in E; congruence).
  destruct Ht as [->|]; [|done]. rewrite Hw, Hqueue in Hp.
  split_and!; [exists popped, []; split_and!|exact Hids|]; try done. by left.
Qed.

Lemma process_ok_set_main m p :
  main p ≠ M_stopped → m ≠ M_stopped → process_ok p → process_ok (set_main m p).
Proof.
  intros Hm Hm' ((popped & thrown & Hp & Ht & Hwire) & Hids & Hstop).
  split_and!; [exists popped, thrown; split_and!|exact Hids|]; try done.
  left. by destruct Ht.
Qed.

Lemma process_ok_stop p :
  main p = M_terminated → writer p = W_done → process_ok p →
  process_ok (set_main M_stopped (set_queue [] p)).
Proof.
  intros Hm Hw ((popped & thrown & Hp & Ht & Hwire) & Hids & Hstop).
  destruct Ht as [->|]; [|congruence]. rewrite Hw in Hp.
  split_and!; [exists popped, (queue p); split_and!|exact Hids|]; try done; [|by right].
  cbn [pushed set_main set_queue]. rewrite Hp. cbn [writer set_main set_queue]. rewrite Hw.
  cbn. by rewrite app_nil_r.
Qed.

(** The network of the game after a step that succeeds. *)
Lemma grows_run (q : M Game unit) g g' :
  q g = (Ok tt, g') → grows (g_network g) (g_network (q g).2) → grows (g_network g) (g_network g').
Proof. by intros ->. Qed.

Lemma step_ok p e p' : step commands p e p' → process_ok p → process_ok p'.
Proof.
  intros Hs Hok.
  assert (Hwriting : writer p ≠ W_done → main p ≠ M_stopped) by (intros Hw E; by apply Hw, Hok).
  destruct Hs as [id Ht Hd|id Ht Hd|id data g Ht Hlen Hr|id n Ht Hr|data q Hw Hq|Hw Hq Ht|
    data todo Hw Hf Hp|data id todo Hw Hd|data id todo g Hw Hd Ht Hr|data Hw|data Hw Hc|
    data g Hw Hd Ht Hr|data c Hw Hc Hr|data c Hw Hc Hr|u Hm|todo Hm Hrun Hf Hp|id todo g Hm Hr|
    todo Hm Hp|id todo Hm Ht|Hm|polls Hm Hq|polls Hm Hq|Hm Hw|q g Hq Hr].
  - exact Hok.
  - exact Hok.
  - apply (process_ok_set_game g p); [|done]. eapply grows_run; [exact Hr|apply receive_grows].
  - apply (process_ok_set_game (set_g_network n (game p)) p); [|done].
    pose proof (stop_grows id (g_network (game p))) as Hg. by rewrite Hr in Hg.
  - by apply process_ok_pop.
  - apply process_ok_set_writer; [by rewrite Hw|done|done].
  - apply process_ok_set_writer; [by rewrite Hw|intros E; destruct Hwriting; [by rewrite Hw|done]|done].
  - apply process_ok_set_writer; [by rewrite Hw|intros E; destruct Hwriting; [by rewrite Hw|done]|done].
  - apply process_ok_set_writer; [by cbn; rewrite Hw|intros E; destruct Hwriting; [by rewrite Hw|done]|].
    apply process_ok_set_game; [|done]. eapply grows_run; [exact Hr|apply destroy_grows].
  - apply process_ok_set_writer; [by rewrite Hw|intros E; destruct Hwriting; [by rewrite Hw|done]|done].
  - apply (process_ok_done data (wire p) (failed p) p); [by rewrite Hw|done..| |done].
    intros _. right. split; [done|]. intros (c & Hc' & _). unfold connection, net in *. congruence.
  - apply (process_ok_set_game g (set_writer W_waiting p));
      [eapply grows_run; [exact Hr|apply destroy_grows]|].
    apply (process_ok_done data (wire p) (failed p) p); [by rewrite Hw|done..| |done].
    intros _. right. split; [done|]. by apply is_running_disconnected.
  - apply (process_ok_done data _ (failed p) p); [by rewrite Hw|done|..|done].
    + intros id Hid. by rewrite lookup_insert_ne.
    + intros _. left. rewrite lookup_insert_eq. split; [done|]. by exists c.
  - apply (process_ok_done data (wire p) _ p); [by rewrite Hw|set_solver|done| |done]. set_solver.
  - by apply process_ok_accept.
  - apply process_ok_set_main; [congruence|done|done].
  - apply (process_ok_set_main (M_disconnecting todo) (set_game g p)); [cbn; congruence|done|].
    apply process_ok_set_game; [|done]. eapply grows_run; [exact Hr|apply disconnect_grows].
  - apply process_ok_set_main; [congruence|done|done].
  - apply process_ok_set_main; [congruence|done|done].
  - apply process_ok_set_main; [congruence|done|done].
  - apply process_ok_set_main; [congruence|done|done].
  - apply (process_ok_set_main M_terminated p); [congruence|done|done].
  - by apply process_ok_stop.
  - apply process_ok_set_game; [|done]. eapply grows_run; [exact Hr|by apply activity_grows].
Qed.

Lemma steps_ok silent p p' : steps commands silent p p' → process_ok p → process_ok p'.
Proof. induction 1 as [|p e p' p'' _ Hs _ IH]; [done|]. intros Hok. apply IH. by eapply step_ok. Qed.

Lemma started_ok g : g_network g = mk_Network ∅ [] → process_ok (started g).
Proof.
  intros Hg. unfold process_ok, channel_ok, ids_ok, connection, queue, net, is_running.
  cbn. rewrite Hg. cbn. split_and!; [|intros id [c Hc]; by rewrite lookup_empty in Hc|set_solver|
    intros; by rewrite lookup_empty|done].
  exists [], []. split_and!; [done|by left|]. intros id _. unfold wire_of. cbn. by rewrite lookup_empty.
Qed.

(** *** Stopped clients *)

Lemma running_shrinks p e p' id :
  step commands p e p' → id < currentClientID p →
  id < currentClientID p' ∧ (is_running (net p') id → is_running (net p) id).
Proof.
  intros Hs Hid.
  assert (Hg : ∀ g, grows (net p) (g_network g) → is_running (g_network g) id → is_running (net p) id)
    by (intros g (_ & _ & Hr); apply Hr).
  destruct Hs as [| |id' data g Ht Hlen Hr|id' n Ht Hr| | | | |data id' todo g Hw Hd Ht Hr| | |
    data g Hw Hd Ht Hr| | |u Hm| |id' todo g Hm Hr| | | | | | |q g Hq Hr];
    try (split; [done|exact (λ H, H)]).
  - split; [done|]. apply Hg. eapply grows_run; [exact Hr|apply receive_grows].
  - split; [done|]. apply (Hg (set_g_network n (game p))).
    pose proof (stop_grows id' (g_network (game p))) as Hn. by rewrite Hr in Hn.
  - split; [done|]. apply Hg. eapply grows_run; [exact Hr|apply destroy_grows].
  - split; [done|]. apply Hg. eapply grows_run; [exact Hr|apply destroy_grows].
  - split; [cbn; lia|]. intros (c & Hc & Hrun). cbn in Hc.
    rewrite lookup_insert_ne in Hc by lia. by exists c.
  - split; [done|]. apply Hg. eapply grows_run; [exact Hr|apply disconnect_grows].
  - split; [done|]. apply Hg. eapply grows_run; [exact Hr|by apply activity_grows].
Qed.

Lemma stopped_wire_step p e p' id :
  step commands p e p' → ¬ is_running (net p) id → wire_of p' id = wire_of p id.
Proof.
  intros Hs Hstop. destruct Hs as [| | | | | | | | | | | |data c Hw Hc Hr| | | | | | | | | | |];
    try reflexivity.
  unfold wire_of. cbn. rewrite lookup_insert_ne; [done|]. intros <-. destruct Hstop. by exists c.
Qed.

(** *** Silent clients *)

(** The client has been stopped, and its thread waits for its peer. *)
Definition waits_for (p : state) (id : Z) : Prop :=
  threads p !! id = Some C_reading ∧ isDisconnected p id = true ∧ id < currentClientID p.

Definition stays_stopped (id : Z) (n : Network) : Prop :=
  ∃ c, _connections n !! id = Some c ∧ _isRunning c = false.

Lemma stays_stopped_step id n n' : stays_stopped id n → network_step n n' → stays_stopped id n'.
Proof.
  intros (c & Hc & Hr) [i data Hi|i d d' Hd Hrun]; [by exists c|].
  destruct (decide (i = id)) as [->|Hne]; unfold stays_stopped; cbn.
  - exists d'. rewrite lookup_insert_eq. split; [done|]. destruct (_isRunning d'); [|done].
    rewrite Hc in Hd. injection Hd as <-. rewrite Hrun in Hr; done.
  - exists c. by rewrite lookup_insert_ne.
Qed.

Lemma stays_stopped_delete id i n :
  i ≠ id → stays_stopped id n → stays_stopped id (mk_Network (delete i (_connections n)) (_toSend n)).
Proof. intros Hne (c & Hc & Hr). exists c. cbn. by rewrite lookup_delete_ne. Qed.

Lemma disconnected_stopped p id : isDisconnected p id = true ↔ stays_stopped id (net p).
Proof.
  unfold isDisconnected, connection, stays_stopped, net. split.
  - destruct (_connections _ !! id) as [c|]; [|done]. intros Hc. exists c.
    split; [done|]. by destruct (_isRunning c).
  - intros (c & -> & ->). done.
Qed.

(** Nothing but its peer makes the thread of the client go on. *)
Lemma waits_for_set_game p id g :
  stays_stopped id (g_network g) → waits_for p id → waits_for (set_game g p) id.
Proof. intros Hs (Ht & Hd & Hid). split_and!; [done|by apply disconnected_stopped|done]. Qed.

Lemma waits_for_set_thread p id i pc :
  i ≠ id → waits_for p id → waits_for (set_thread i pc p) id.
Proof. intros Hne (Ht & Hd & Hid). split_and!; [by cbn; rewrite lookup_partial_alter_ne|done..]. Qed.

Lemma stays_stopped_run (q : M Game unit) g g' id :
  q g = (Ok tt, g') → keeps (of_network (stays_stopped id)) q →
  stays_stopped id (g_network g) → stays_stopped id (g_network g').
Proof. intros Hr Hq Hs. specialize (Hq g Hs). by rewrite Hr in Hq. Qed.

Lemma waits_for_step p e p' id :
  step commands p e p' → e ≠ E_input id → waits_for p id → waits_for p' id.
Proof.
  intros Hs He Hwait. pose proof (stays_stopped_step id) as HJ.
  pose proof (plugins_kept (stays_stopped id) HJ) as Hplugins.
  assert (Hnet : stays_stopped id (net p)) by (apply disconnected_stopped, Hwait).
  destruct Hs as [i Ht Hd|i Ht Hd|i data g Ht Hlen Hr|i n Ht Hr| | | | |data i todo g Hw Hd Ht Hr| | |
    data g Hw Hd Ht Hr| | |u Hm| |i todo g Hm Hr| | | | | | |q g Hq Hr]; try exact Hwait.
  - apply waits_for_set_thread; [|done]. intros ->. destruct Hwait as (E & _). congruence.
  - apply waits_for_set_thread; [|done]. intros ->. destruct Hwait as (E & _). congruence.
  - apply waits_for_set_thread; [congruence|]. apply waits_for_set_game; [|done].
    eapply stays_stopped_run; [exact Hr| |done].
    apply kept_receive; [done..|]. intros command invoker. by apply kept_parseCommand.
  - apply waits_for_set_thread; [congruence|]. apply waits_for_set_game; [|done]. cbn.
    pose proof (stop_steps _ HJ i (net p) Hnet) as Hn. unfold net in Hn. by rewrite Hr in Hn.
  - apply (waits_for_set_game p); [|done]. eapply stays_stopped_run; [exact Hr| |done].
    apply kept_destroy; [done..|]. intros n. apply stays_stopped_delete.
    intros ->. destruct Hwait as (E & _). congruence.
  - apply (waits_for_set_game p); [|done]. eapply stays_stopped_run; [exact Hr| |done].
    apply kept_destroy; [done..|]. intros n. apply stays_stopped_delete.
    intros E. destruct Hwait as (E' & _). congruence.
  - destruct Hwait as (Ht & Hd & Hid). assert (id ≠ currentClientID p) by lia.
    split_and!; [by cbn; rewrite lookup_insert_ne| |cbn; lia].
    unfold isDisconnected, connection in *. cbn. by rewrite lookup_insert_ne.
  - apply (waits_for_set_game p); [|done]. eapply stays_stopped_run; [exact Hr| |done].
    by apply kept_disconnect.
  - apply waits_for_set_game; [|done]. eapply stays_stopped_run; [exact Hr| |done]. destruct Hq.
    + by apply kept_World_tick.
    + by apply kept_Player_tick.
    + by apply kept_sendChunkToPlayers.
    + by apply kept_parseCommand.
Qed.

(** The writing thread has to join the thread of the client. *)
Definition joins_first (p : state) (id : Z) : Prop := ∃ data todo, writer p = W_cleaning data todo ∧ id ∈ todo.

Lemma joins_first_step p e p' id :
  step commands p e p' → waits_for p id → joins_first p id → joins_first p' id ∧ wire p' = wire p.
Proof.
  intros Hs (Ht & Hd & _) (data & todo & Hw & Hin).
  assert (Hkeep : writer p' = writer p → joins_first p' id) by (intros E; exists data, todo; by rewrite E).
  destruct Hs as [| | | |data' q Hw'|Hw'|data' todo' Hw'|data' i todo' Hw' Hd'|data' i todo' g Hw' Hd' Ht'|
    data' Hw'|data' Hw'|data' g Hw'|data' c Hw'|data' c Hw'| | | | | | | | | |]; try (by split; [by apply Hkeep|]);
    try congruence.
  - rewrite Hw in Hw'. injection Hw' as <- ->. split; [|done]. exists data, todo'. split; [done|].
    apply list.elem_of_cons in Hin as [->|]; [congruence|done].
  - rewrite Hw in Hw'. injection Hw' as <- ->. split; [|done]. exists data, todo'. split; [done|].
    apply list.elem_of_cons in Hin as [->|]; [congruence|done].
  - rewrite Hw in Hw'. injection Hw' as _ ->. by apply list.not_elem_of_nil in Hin.
Qed.

Lemma steps_keep (P : state → Prop) silent p p' :
  (∀ p e p', step commands p e p' → (∀ id, e = E_input id → ¬ silent id) → P p → P p') →
  steps commands silent p p' → P p → P p'.
Proof. intros HP. induction 1 as [|p e p' p'' He Hs _ IH]; [done|]. intros Hp. by eapply IH, HP. Qed.

(** C22: every client has a channel of its own: from the start of the server, however its
    threads interleave, the bytes that the socket of a client was given are a prefix of
    what was queued for it since it was accepted, in the order in which it was queued,
    whatever was queued for others in between; and for a client that still runs, while
    the server does, what is missing is in the hand of the writing thread and in the
    queue.  Only a write that failed can leave a hole. *)
Theorem channel_delivers silent g p id :
  g_network g = mk_Network ∅ [] → steps commands silent (started g) p → id ∉ failed p →
  wire_of p id `prefix_of` bytes id (pushed p) ∧
  (is_running (net p) id → main p ≠ M_stopped →
     bytes id (pushed p) = wire_of p id ++ bytes id (in_hand (writer p) ++ queue p)).
Proof.
  intros Hg Hs Hid. destruct (steps_ok _ _ _ Hs (started_ok g Hg)) as ((popped & thrown & Hp & Ht & Hw) & _).
  destruct (Hw id Hid) as [Hpre Heq]. rewrite Hp. split.
  - rewrite bytes_app. by apply prefix_app_r.
  - intros Hrun Hm. destruct Ht as [->|]; [|done]. by rewrite (Heq Hrun), <- bytes_app.
Qed.

(** A client that has been stopped is given nothing more: not the packets that were
    queued before, and not the one that tells it why.  [Client::disconnect] queues the
    reason and stops the client; the writing thread throws it away. *)
Theorem stopped_client_gets_nothing silent p p' id :
  ¬ is_running (net p) id → id < currentClientID p → steps commands silent p p' →
  wire_of p' id = wire_of p id.
Proof.
  intros Hr Hid Hs.
  apply (steps_keep (λ q, wire_of q id = wire_of p id ∧ ¬ is_running (net q) id ∧ id < currentClientID q)
    silent p p'); [|done|done].
  clear Hs p'. intros q e q' Hs _ (Hw & Hr' & Hid').
  destruct (running_shrinks q e q' id Hs Hid') as [Hc Hsh]. split_and!; [|tauto|done].
  by rewrite (stopped_wire_step q e q' id Hs Hr').
Qed.

(** C24: one silent client stops the whole server from writing: once the writing thread has
    to join the thread of a stopped client that waits for its peer, no socket is given
    another byte for as long as the peer says nothing and keeps its connection, whatever
    the other clients and the other threads do. *)
Theorem silent_client_stops_all_writes p p' id :
  waits_for p id → joins_first p id → steps commands (λ i, i = id) p p' →
  wire p' = wire p ∧ joins_first p' id.
Proof.
  intros Hwait Hj Hs.
  apply (steps_keep (λ q, waits_for q id ∧ joins_first q id ∧ wire q = wire p) (λ i, i = id) p p') in Hs
    as (_ & Hj' & Hw); [done| |done].
  clear Hs p'. intros q e q' Hs He (Hwait' & Hj' & Hw).
  destruct (joins_first_step q e q' id Hs Hwait' Hj') as [Hj'' Hw'].
  split_and!; [|done|congruence]. apply (waits_for_step q e q' id Hs); [|done].
  intros E. by apply (He id).
Qed.
End Threads.

(** ** Examples *)

Lemma no_plugins_kept (J : Network → Prop) :
  (∀ n n', J n → network_step n n' → J n') → ∀ e f, f ∈ plugin_events e → keeps (of_network J) f.
Proof. intros _ e f Hf. by apply list.not_elem_of_nil in Hf. Qed.

(** The game of the examples with the network [n]. *)
Definition game_with (n : Network) (clients : gmap Z Client) : Game :=
  set_g_clients clients (set_g_network n joined_game).

(** A handshake and a ping. *)
Definition ping : list Z := [1; 0; 0; 0; 0; 0; 0; 0; 42].
Definition handshake_and_ping : list Z := [7; 0; 249; 5; 0; 99; 221; 1; 9] ++ ping.

(** The commands of a server without plugins. *)
Definition server_commands : list CommandBase := builtin_commands (builtin_commands []).
Definition empty_game : Game := game_with (mk_Network ∅ []) ∅.

(** A client connects and pings: the answer is on its socket. *)
Definition after_read : Game := (Client_receive server_commands 0 handshake_and_ping
  (game (Server_accept (mk_u128 0 0) (started empty_game)))).2.
Definition reading : Process := set_thread 0 (Some C_reading) (Server_accept (mk_u128 0 0) (started empty_game)).
Definition answered : Process := set_thread 0 (Some C_test) (set_game after_read reading).

Lemma answered_reached : steps server_commands (λ _, False) (started empty_game) answered.
Proof.
  eapply steps_cons; [tauto|apply (main_accepts _ _ (mk_u128 0 0)); reflexivity|].
  eapply steps_cons; [tauto|apply (client_goes_on _ _ 0); reflexivity|].
  eapply steps_cons; [tauto|apply (client_reads _ _ 0 handshake_and_ping after_read)|apply steps_refl].
  - reflexivity.
  - unfold readBufferSize. cbn. lia.
  - vm_compute. reflexivity.
Qed.


Definition answer : Z * list Z := (0, 9 :: ping).
Definition popped_answer : Process := set_writer (W_popped answer) (set_queue [] answered).
Definition written : Process := write_socket 0 (9 :: ping) (set_writer (W_cleaned answer) popped_answer).

Lemma written_reached : steps server_commands (λ _, False) answered written.
Proof.
  eapply steps_cons; [tauto|apply (writer_pops _ _ answer []); vm_compute; reflexivity|].
  eapply steps_cons; [tauto|apply (writer_locks _ _ answer [0]); vm_compute; done|].
  eapply steps_cons; [tauto|apply (writer_skips _ _ answer 0 []); vm_compute; reflexivity|].
  eapply steps_cons; [tauto|apply (writer_cleaned _ _ answer); reflexivity|].
  eapply steps_cons; [tauto|apply (writer_writes _ _ answer (mk_Connection true false None));
    vm_compute; reflexivity|apply steps_refl].
Qed.

Lemma channel_delivers_witness :
  wire_of written 0 = 9 :: ping ∧ wire_of written 0 `prefix_of` bytes 0 (pushed written).
Proof.
  split; [vm_compute; reflexivity|].
  refine (proj1 (channel_delivers [] no_plugins_kept (λ _, False) empty_game written 0 _ _ _)).
  - reflexivity.
  - eapply steps_trans; [exact answered_reached|exact written_reached].
  - set_solver.
Defined.

(** The client 0 is stopped by the server that stops: the reason is queued, and is not
    written. *)
Definition closing : Game := (Client_disconnect 0 (Message_text "Server Closed") (game answered)).2.
Definition closed : Process := set_game closing (set_main (M_disconnecting []) answered).

Lemma stopped_client_gets_nothing_witness :
  length (queue closed) = 2%nat ∧
  wire_of (set_writer (W_popped answer) (set_queue (tail (queue closed)) closed)) 0 = wire_of closed 0.
Proof.
  split; [vm_compute; reflexivity|].
  apply (stopped_client_gets_nothing [] no_plugins_kept (λ _, False)).
  - apply is_running_disconnected. vm_compute. reflexivity.
  - reflexivity.
  - eapply steps_cons; [tauto|eapply writer_pops|apply steps_refl]; vm_compute; reflexivity.
Defined.

(** The client 0 was kicked and says nothing; the client 1 goes on. *)
Definition kicked : Process :=
  mk_Process
    (game_with (mk_Network {[0 := mk_Connection false false None; 1 := mk_Connection true false None]} [])
       {[0 := Client_new (mk_u128 0 0); 1 := Client_new (mk_u128 0 0)]})
    {[0 := C_reading; 1 := C_test]} (W_cleaning (1, [1; 2]) [0; 1]) M_accepting 2 false ∅ [(1, [1; 2])] ∅.

Lemma silent_client_stops_all_writes_witness :
  wire (set_thread 1 (Some C_reading) kicked) = wire kicked ∧
  joins_first (set_thread 1 (Some C_reading) kicked) 0.
Proof.
  apply (silent_client_stops_all_writes [] no_plugins_kept kicked _ 0).
  - split_and!; reflexivity.
  - exists (1, [1; 2]), [0; 1]. split; [reflexivity|]. by apply list.elem_of_cons; left.
  - eapply steps_cons; [|apply (client_goes_on _ _ 1); reflexivity|apply steps_refl]. done.
Defined.
