(* ===== verification/PlayerViewProps.v ===== *)
(** * Laws of the chunks a player sees

    Every primitive of the view adds one chunk to the chunks of the player, or
    takes one away; the loops are then folds over lists of positions. *)

From S2P Require Import Prelude State Floats Network Types Codec Structures Add Pop PrimaryLaws CompositeLaws ChunkColumn Level ClientPackets CreatePackets Json Game Dimension PlayerView Player Client Example.

(** A packet whose writer cannot fail. *)
Lemma packet_ok id (w : writer) bs : Emits w bs → ∃ frame, packet id w = Ok frame.
Proof.
  intros Hw. unfold packet, finalize. rewrite (emits_nil _ _ Hw). cbn [mbind result_bind].
  rewrite (emits_nil _ _ (emits_addVarInt id)). cbn [mbind result_bind].
  rewrite (emits_nil _ _ (emits_addVarInt _)). cbn [mbind result_bind]. by eexists.
Qed.

Lemma createUnloadChunk_ok p : ∃ frame, createUnloadChunk p = Ok frame.
Proof. eapply packet_ok. apply _. Qed.
Lemma createCenterChunk_ok p : ∃ frame, createCenterChunk p = Ok frame.
Proof. eapply packet_ok. apply _. Qed.

Section Laws.
Context `{Cfb8} `{JobPool}.

(** ** The state of a view *)

(** The columns of the level lie where they say, and the ready ones can be sent. *)
Definition level_sendable (l : Level) : Prop :=
  ∀ pos c, l !! pos = Some c → ChunkColumn_isReady c = true →
    _chunkPos c = pos ∧
    ∃ frame, createChunkDataAndLightUpdate (mk_ChunkDataAndLightUpdate (p2x pos) (p2z pos) c) = Ok frame.

Definition known (this : Z) (g : Game) : gset Position2D :=
  match g_players g !! this with Some p => dom (_chunks p) | None => ∅ end.

(** A chunk that is loading is one that the player is waiting for. *)
Definition waits (this : Z) (p : Player) (loading : gmap Position2D ChunkRequest) : Prop :=
  ∀ pos, _chunks p !! pos = Some ChunkState_Loading →
    ∃ r, loading !! pos = Some r ∧ this ∈ request_players r.

Definition view_ok (this : Z) (g : Game) : Prop :=
  ∃ p, g_players g !! this = Some p ∧ writable (_cli p) (g_network g) ∧
    level_sendable (_level (g_dimension g)) ∧ waits this p (_loadingChunks (g_dimension g)).

(** A state with a view and the chunks [K], in a world. *)
Context (w : World).
Definition view (this : Z) (K : gset Position2D) (g : Game) : Prop :=
  view_ok this g ∧ known this g = K ∧ g_world g = w.

Lemma send_to_ok this pck frame g p :
  pck = Ok frame → g_players g !! this = Some p → writable (_cli p) (g_network g) →
  ∃ n', send_to this pck g = (Ok tt, set_g_network n' g) ∧ no_less_writable (g_network g) n'.
Proof.
  intros -> Hp Hw. destruct (send_ok (_cli p) frame _ Hw) as (n' & E & Hn & _).
  exists n'. split; [|done]. unfold send_to, this_player, gets, mbind, M_bind. rewrite Hp.
  unfold mret, M_ret. unfold on_network, member. by rewrite E.
Qed.

Lemma view_send this K pck frame : pck = Ok frame → triple (view this K) (send_to this pck) (λ _, view this K).
Proof.
  intros Hpck g [(p & Hp & Hw & Hl & Hr) [Hk Hg]].
  destruct (send_to_ok this pck frame g p Hpck Hp Hw) as (n' & E & Hn).
  exists tt, (set_g_network n' g). split; [done|]. split; [|by split].
  exists p. split_and!; [done|by apply Hn|done|done].
Qed.

(** ** A chunk more *)

Lemma known_set_state this g p pos s :
  g_players g !! this = Some p →
  known this (set_g_players (alter (set_chunk_state pos s) this (g_players g)) g) = {[pos]} ∪ known this g.
Proof.
  intros Hp. unfold known. cbn [g_players set_g_players]. rewrite lookup_alter_eq, Hp. cbn.
  by rewrite dom_insert_L.
Qed.

Lemma view_sendChunk this K c frame :
  createChunkDataAndLightUpdate (mk_ChunkDataAndLightUpdate (p2x (_chunkPos c)) (p2z (_chunkPos c)) c) = Ok frame →
  triple (view this K) (Player_sendChunk this c) (λ _, view this ({[_chunkPos c]} ∪ K)).
Proof.
  intros Hf g [(p & Hp & Hw & Hl & Hr) [Hk Hg]].
  destruct (send_to_ok this _ frame g p Hf Hp Hw) as (n' & E & Hn).
  exists tt, (set_g_players (alter (set_chunk_state (_chunkPos c) ChunkState_Loaded) this (g_players g))
                (set_g_network n' g)).
  split.
  - unfold Player_sendChunk, this_player, gets, mbind, M_bind. rewrite Hp. unfold mret, M_ret.
    destruct Hw as (cn & Hcn & _). rewrite Hcn. rewrite E. done.
  - split; [|split; [rewrite <- Hk; apply (known_set_state this (set_g_network n' g) p); done|done]].
    exists (set_chunk_state (_chunkPos c) ChunkState_Loaded p). cbn [g_players set_g_players].
    rewrite lookup_alter_eq. cbn [set_g_network g_players]. rewrite Hp.
    split_and!; [done|by apply Hn|done|].
    intros pos. cbn. destruct (decide (pos = _chunkPos c)) as [->|];
      [by rewrite lookup_insert_eq|rewrite lookup_insert_ne by done; apply Hr].
Qed.

Lemma loadOrGenerate_ok this x z g p :
  g_players g !! this = Some p → waits this p (_loadingChunks (g_dimension g)) →
  ∃ g' r, Dimension_loadOrGenerateChunk x z this g = (Ok tt, g') ∧
    g_players g' = g_players g ∧ g_network g' = g_network g ∧
    _level (g_dimension g') = _level (g_dimension g) ∧ g_world g' = g_world g ∧
    waits this p (_loadingChunks (g_dimension g')) ∧
    _loadingChunks (g_dimension g') !! mk_Position2D x z = Some r ∧ this ∈ request_players r.
Proof.
  intros Hp Hr. unfold Dimension_loadOrGenerateChunk, in_dimension, gets, mbind, M_bind.
  destruct (_loadingChunks (g_dimension g) !! mk_Position2D x z) as [r|] eqn:Er.
  - case_decide as Hin; [by exists g, r|].
    eexists _, _. split; [done|]. do 4 (split; [done|]). cbn. rewrite lookup_insert_eq.
    split; [|split; [done|]].
    + intros pos Hpos. destruct (Hr pos Hpos) as (r' & Hr' & Hin').
      destruct (decide (pos = mk_Position2D x z)) as [->|].
      * rewrite lookup_insert_eq. eexists. split; [done|]. cbn. set_solver.
      * rewrite lookup_insert_ne by done. eauto.
    + cbn. set_solver.
  - unfold on_pool, member. destruct (pool_addJob _ _) as [id s] eqn:Ej. cbn.
    unfold on_dimension, member, modify. cbn.
    eexists _, _. split; [done|]. do 4 (split; [done|]). cbn. rewrite lookup_insert_eq.
    split; [|split; [done|set_solver]].
    intros pos Hpos. destruct (Hr pos Hpos) as (r' & Hr' & Hin').
    rewrite lookup_insert_ne by congruence. eauto.
Qed.

Lemma view_show this K x z :
  triple (view this K) (Player_sendChunkAndLightUpdate this x z) (λ _, view this ({[mk_Position2D x z]} ∪ K)).
Proof.
  intros g [(p & Hp & Hw & Hl & Hr) [Hk Hg]]. unfold Player_sendChunkAndLightUpdate.
  unfold Dimension_hasChunkLoaded, in_dimension, gets, mbind at 1, M_bind.
  destruct (Level_hasChunkColumn _ _) eqn:Eh; cbn [negb].
  - unfold Level_hasChunkColumn in Eh.
    destruct (_level (g_dimension g) !! mk_Position2D x z) as [c|] eqn:Ec; [|done].
    destruct (Hl _ c Ec Eh) as [Epos [frame Hf]]. cbn [p2x p2z] in Hf. rewrite <- Epos in *.
    destruct (view_sendChunk this K c frame) with (s := g) as ([] & g' & E & Hv).
    { rewrite Epos. exact Hf. }
    { split; [by exists p|by split]. }
    exists tt, g'. split; [|done].
    unfold Dimension_getChunk, in_dimension, gets, lift, mbind, M_bind, Level_getChunkColumn.
    by rewrite <- Epos, Ec.
  - destruct (loadOrGenerate_ok this x z g p Hp Hr) as (g1 & r & E & Ep & En & El & Eg & Hr1 & Hreq & Hin).
    exists tt, (set_g_players (alter (set_chunk_state (mk_Position2D x z) ChunkState_Loading) this (g_players g1)) g1).
    split.
    { unfold mbind, M_bind. rewrite E. done. }
    split.
    + exists (set_chunk_state (mk_Position2D x z) ChunkState_Loading p). cbn [g_players set_g_players].
      rewrite lookup_alter_eq, Ep, Hp. cbn [g_network set_g_players g_dimension]. rewrite En, El.
      split_and!; [done..|]. intros pos. cbn. destruct (decide (pos = mk_Position2D x z)) as [->|].
      * intros _. by exists r.
      * rewrite lookup_insert_ne by done. apply Hr1.
    + split; [|cbn; by rewrite Eg]. rewrite <- Hk. rewrite (known_set_state this g1 p) by congruence.
      unfold known. by rewrite Ep.
Qed.
(** ** A chunk less *)

Lemma removeFromLoading_ok this x z g p :
  waits this p (_loadingChunks (g_dimension g)) →
  ∃ g', Dimension_removePlayerFromLoadingChunk (mk_Position2D x z) this g = (Ok tt, g') ∧
    g_players g' = g_players g ∧ g_network g' = g_network g ∧
    _level (g_dimension g') = _level (g_dimension g) ∧ g_world g' = g_world g ∧
    ∀ pos, pos ≠ mk_Position2D x z →
      _loadingChunks (g_dimension g') !! pos = _loadingChunks (g_dimension g) !! pos.
Proof.
  intros Hr. unfold Dimension_removePlayerFromLoadingChunk, in_dimension, gets, mbind, M_bind.
  destruct (_loadingChunks (g_dimension g) !! mk_Position2D x z) as [r|]; [|by exists g].
  unfold on_dimension, member, modify. cbn. case_decide as Hp.
  - unfold on_pool, member. cbn. destruct (pool_cancelJob _ _) as [[] s]; cbn.
    + eexists. split; [done|]. cbn. do 4 (split; [done|]). intros pos Hpos.
      by rewrite lookup_delete_ne, lookup_insert_ne by done.
    + eexists. split; [done|]. cbn. do 4 (split; [done|]). intros pos Hpos.
      by rewrite lookup_insert_ne by done.
  - eexists. split; [done|]. cbn. do 4 (split; [done|]). intros pos Hpos.
    by rewrite lookup_insert_ne by done.
Qed.

Lemma known_delete this g p pos :
  g_players g !! this = Some p →
  known this (set_g_players (alter (λ p, set_chunks (delete pos (_chunks p)) p) this (g_players g)) g) =
    known this g ∖ {[pos]}.
Proof.
  intros Hp. unfold known. cbn [g_players set_g_players]. rewrite lookup_alter_eq, Hp. cbn.
  by rewrite dom_delete_L.
Qed.

(** Forgetting a chunk, from a state that is a view but for the requests of that
    chunk. *)
Lemma view_forget this K g g1 p pos :
  g_players g !! this = Some p → known this g = K → waits this p (_loadingChunks (g_dimension g)) →
  g_players g1 = g_players g → g_world g1 = w → no_less_writable (g_network g) (g_network g1) →
  writable (_cli p) (g_network g) → level_sendable (_level (g_dimension g1)) →
  (∀ pos', pos' ≠ pos → _loadingChunks (g_dimension g1) !! pos' = _loadingChunks (g_dimension g) !! pos') →
  view this (K ∖ {[pos]})
    (set_g_players (alter (λ p, set_chunks (delete pos (_chunks p)) p) this (g_players g1)) g1).
Proof.
  intros Hp Hk Hr Ep Eg Hn Hw Hl Hpos. split; [|split; [|done]].
  - exists (set_chunks (delete pos (_chunks p)) p). cbn [g_players set_g_players].
    rewrite lookup_alter_eq, Ep, Hp. split_and!; [done|by apply Hn|done|].
    intros pos'. cbn. destruct (decide (pos' = pos)) as [->|];
      [by rewrite lookup_delete_eq|rewrite lookup_delete_ne by done].
    intros Hs. rewrite Hpos by done. by apply Hr.
  - rewrite (known_delete this g1 p) by congruence. rewrite <- Hk. unfold known. by rewrite Ep.
Qed.

Lemma view_unload this K x z :
  triple (view this K) (Player_unloadChunk this x z) (λ _, view this (K ∖ {[mk_Position2D x z]})).
Proof.
  intros g [(p & Hp & Hw & Hl & Hr) [Hk Hg]].
  unfold Player_unloadChunk, this_player, gets, mbind, M_bind. rewrite Hp. unfold mret, M_ret.
  destruct (_chunks p !! mk_Position2D x z) as [s|] eqn:Es.
  - case_decide as Hs.
    + destruct (removeFromLoading_ok this x z g p Hr) as (g1 & E & Ep & En & El & Eg & Hr1). rewrite E.
      eexists tt, _. split; [done|].
      assert (no_less_writable (g_network g) (g_network g1)) by (rewrite En; by intros id).
      rewrite <- El in Hl. rewrite <- Eg in Hg. by eapply (view_forget this K g g1).
    + destruct (createUnloadChunk_ok (mk_Position2D x z)) as [frame Hf].
      destruct (send_to_ok this _ frame g p Hf Hp Hw) as (n' & E & Hn).
      unfold Player_sendUnloadChunk. rewrite E. eexists tt, _. split; [done|].
      by eapply (view_forget this K g (set_g_network n' g)).
  - exists tt, g. split; [done|]. split; [by exists p|]. split; [|done].
    rewrite <- Hk. unfold known. rewrite Hp.
    apply not_elem_of_dom in Es. set_solver.
Qed.

(** ** Loops *)

Definition adds (this : Z) (S : gset Position2D) (p : M Game unit) : Prop :=
  ∀ K, triple (view this K) p (λ _, view this (S ∪ K)).
Definition drops (this : Z) (S : gset Position2D) (p : M Game unit) : Prop :=
  ∀ K, triple (view this K) p (λ _, view this (K ∖ S)).

(** The positions with coordinates in two lists. *)
Definition square (xs zs : list Z) : gset Position2D :=
  list_to_set (x ← xs; mk_Position2D x <$> zs).

Lemma elem_of_square xs zs pos : pos ∈ square xs zs ↔ p2x pos ∈ xs ∧ p2z pos ∈ zs.
Proof.
  unfold square. rewrite elem_of_list_to_set, list_elem_of_bind. split.
  - intros (x & Hx & Hin). apply list_elem_of_fmap in Hx as (z & -> & Hz). done.
  - intros [Hx Hz]. exists (p2x pos). split; [|done]. apply list_elem_of_fmap. exists (p2z pos).
    split; [by destruct pos|done].
Qed.

Section Loops.
Context (this : Z) (step : gset Position2D → gset Position2D → gset Position2D).
Hypothesis step_empty : ∀ K, step ∅ K = K.
Hypothesis step_union : ∀ S T K, step T (step S K) = step (S ∪ T) K.

Lemma loop_for_each {X} (l : list X) (S : X → gset Position2D) (f : X → M Game unit) :
  (∀ x K, triple (view this K) (f x) (λ _, view this (step (S x) K))) →
  ∀ K, triple (view this K) (for_each l f) (λ _, view this (step (⋃ (S <$> l)) K)).
Proof.
  intros Hf. induction l as [|x l IH]; intros K.
  - apply triple_ret. intros g. cbn. by rewrite step_empty.
  - cbn [for_each fmap list_fmap union_list foldr]. eapply triple_seq; [apply Hf|].
    eapply triple_conseq; [apply IH|done|]. intros [] g. cbv beta. by rewrite step_union.
Qed.

Lemma loop_square xs zs (f : Z → Z → M Game unit) :
  (∀ x z K, triple (view this K) (f x z) (λ _, view this (step {[mk_Position2D x z]} K))) →
  ∀ K, triple (view this K) (for_each xs (λ x, for_each zs (f x))) (λ _, view this (step (square xs zs) K)).
Proof.
  intros Hf K. eapply triple_conseq; [|done|].
  - apply (loop_for_each xs (λ x, ⋃ ((λ z, {[mk_Position2D x z]}) <$> zs))). intros x K'.
    by apply loop_for_each.
  - intros [] g. cbv beta. match goal with |- view _ (step ?S _) _ → _ => replace S with (square xs zs); [done|] end.
    apply set_eq. intros pos. rewrite elem_of_square, elem_of_union_list. setoid_rewrite list_elem_of_fmap.
    split.
    + intros [Hx Hz]. eexists. split; [by exists (p2x pos)|]. rewrite elem_of_union_list.
      setoid_rewrite list_elem_of_fmap. eexists. split; [by exists (p2z pos)|]. apply elem_of_singleton. by destruct pos.
    + intros (S & (x & -> & Hx) & Hin). apply elem_of_union_list in Hin as (T & HT & Hin).
      apply list_elem_of_fmap in HT as (z & -> & Hz). apply elem_of_singleton in Hin as ->. done.
Qed.

(** The same with the loops the other way round. *)
Lemma loop_square_flip xs zs (f : Z → Z → M Game unit) :
  (∀ x z K, triple (view this K) (f x z) (λ _, view this (step {[mk_Position2D x z]} K))) →
  ∀ K, triple (view this K) (for_each zs (λ z, for_each xs (λ x, f x z))) (λ _, view this (step (square xs zs) K)).
Proof.
  intros Hf K. eapply triple_conseq; [|done|].
  - apply (loop_for_each zs (λ z, ⋃ ((λ x, {[mk_Position2D x z]}) <$> xs))). intros z K'.
    apply (loop_for_each xs (λ x, {[mk_Position2D x z]})). intros x K''. apply Hf.
  - intros [] g. cbv beta. match goal with |- view _ (step ?S _) _ → _ => replace S with (square xs zs); [done|] end.
    apply set_eq. intros pos. rewrite elem_of_square, elem_of_union_list. setoid_rewrite list_elem_of_fmap.
    split.
    + intros [Hx Hz]. eexists. split; [by exists (p2z pos)|]. rewrite elem_of_union_list.
      setoid_rewrite list_elem_of_fmap. eexists. split; [by exists (p2x pos)|]. apply elem_of_singleton. by destruct pos.
    + intros (S & (z & -> & Hz) & Hin). apply elem_of_union_list in Hin as (T & HT & Hin).
      apply list_elem_of_fmap in HT as (x & -> & Hx). apply elem_of_singleton in Hin as ->. done.
Qed.
End Loops.
End Laws.

(** * What a player sees (theorems)

    The chunks of a player after it joined, after it crossed into another chunk,
    and after a walk. *)

Lemma elem_of_up_to x a b : x ∈ up_to a b ↔ a ≤ x < b.
Proof. unfold up_to. rewrite elem_of_seqZ. lia. Qed.
Lemma elem_of_down_to x a b : x ∈ down_to a b ↔ b ≤ x ≤ a.
Proof. unfold down_to. rewrite elem_of_reverse, elem_of_seqZ. lia. Qed.

(** ** Squares of chunks *)

(** The chunks at most [r] away from one. *)
Definition window (center : Position2D) (r : Z) : gset Position2D :=
  square (up_to (p2x center - r) (p2x center + r + 1)) (up_to (p2z center - r) (p2z center + r + 1)).

(** The chunks sent outside the window: the two loops that complete the rows of
    the new window run over the columns of the old one. *)
Definition leak (old new : Position2D) (r : Z) : gset Position2D :=
  let '(ox, oz, nx, nz) := (p2x old, p2z old, p2x new, p2z new) in
  square (up_to (nx + r + 1) (ox + r + 1)) (down_to (nz + r) (Z.max (oz + r + 1) (nz - r))) ∪
  square (up_to (ox - r) (nx - r)) (up_to (nz - r) (Z.min (oz - r) (nz + r + 1))).

Lemma elem_of_window pos c r :
  pos ∈ window c r ↔ p2x c - r ≤ p2x pos ≤ p2x c + r ∧ p2z c - r ≤ p2z pos ≤ p2z c + r.
Proof. unfold window. rewrite elem_of_square, !elem_of_up_to. lia. Qed.

Lemma elem_of_leak pos old new r :
  pos ∈ leak old new r ↔
    (p2x new + r < p2x pos ≤ p2x old + r ∧ Z.max (p2z old + r + 1) (p2z new - r) ≤ p2z pos ≤ p2z new + r) ∨
    (p2x old - r ≤ p2x pos < p2x new - r ∧ p2z new - r ≤ p2z pos < Z.min (p2z old - r) (p2z new + r + 1)).
Proof. unfold leak. rewrite elem_of_union, !elem_of_square, !elem_of_up_to, elem_of_down_to. lia. Qed.

Lemma size_square xs zs : NoDup xs → NoDup zs → size (square xs zs) = (length xs * length zs)%nat.
Proof.
  intros Hx Hz. unfold square. rewrite size_list_to_set.
  - clear Hx. induction xs as [|x xs IH]; [done|]. cbn. by rewrite length_app, length_fmap, IH.
  - apply NoDup_bind; [|intros x _; apply NoDup_fmap_2; [|done]; by intros ?? [= ->]|done].
    intros x1 x2 y _ _ Hy1 Hy2. apply list_elem_of_fmap in Hy1 as (? & -> & _).
    apply list_elem_of_fmap in Hy2 as (? & [= ->] & _). done.
Qed.

Lemma NoDup_up_to a b : NoDup (up_to a b).
Proof. apply NoDup_seqZ. Qed.
Lemma NoDup_down_to a b : NoDup (down_to a b).
Proof. unfold down_to. rewrite reverse_Permutation. apply NoDup_seqZ. Qed.
Lemma length_up_to a b : length (up_to a b) = Z.to_nat (b - a).
Proof. apply length_seqZ. Qed.
Lemma length_down_to a b : length (down_to a b) = Z.to_nat (a - b + 1).
Proof. unfold down_to. rewrite length_reverse. apply length_seqZ. Qed.

Lemma square_size xs zs n m :
  NoDup xs → NoDup zs → length xs = Z.to_nat n → length zs = Z.to_nat m →
  Z.of_nat (size (square xs zs)) = Z.max 0 n * Z.max 0 m.
Proof. intros. rewrite size_square by done. nia. Qed.

Lemma leak_disjoint old new r : 
  square (up_to (p2x new + r + 1) (p2x old + r + 1)) (down_to (p2z new + r) (Z.max (p2z old + r + 1) (p2z new - r))) ##
  square (up_to (p2x old - r) (p2x new - r)) (up_to (p2z new - r) (Z.min (p2z old - r) (p2z new + r + 1))).
Proof. intros pos. rewrite !elem_of_square, !elem_of_up_to, elem_of_down_to. lia. Qed.

Lemma leak_size old new r :
  0 ≤ r →
  Z.of_nat (size (leak old new r)) =
    let '(dx, dz) := (p2x new - p2x old, p2z new - p2z old) in
    if decide (dx * dz < 0) then Z.abs dx * Z.min (Z.abs dz) (2 * r + 1) else 0.
Proof.
  intros Hr. unfold leak. rewrite size_union by apply leak_disjoint. rewrite Nat2Z.inj_add.
  erewrite !square_size by
    first [apply NoDup_up_to | apply NoDup_down_to | apply length_up_to | apply length_down_to].
  destruct old as [ox oz], new as [nx nz]. cbn [p2x p2z]. clear -Hr.
  destruct (Z.lt_trichotomy nx ox) as [|[|]], (Z.lt_trichotomy nz oz) as [|[|]];
    case_decide; try nia;
    rewrite ?(Z.max_l 0), ?(Z.max_r 0) by lia; nia.
Qed.

(** Sets of chunks are compared by their coordinates. *)
Ltac coordinates :=
  repeat first [rewrite elem_of_union | rewrite elem_of_difference | rewrite elem_of_window
    | rewrite elem_of_leak | rewrite elem_of_square | rewrite elem_of_up_to | rewrite elem_of_down_to].

(** What the loops that unload, and those that send, make of a set of chunks. *)
Definition moved (old new : Position2D) (r : Z) (K : gset Position2D) : gset Position2D :=
  let '(ox, oz, nx, nz) := (p2x old, p2z old, p2x new, p2z new) in
  square (up_to (nx - r - (nx - ox)) (nx + r + 1)) (up_to (nz - r) (Z.min (oz - r) (nz + r + 1))) ∪
  (square (up_to (nx - r) (Z.min (ox - r) (nx + r + 1))) (up_to (nz - r) (nz + r + 1)) ∪
  (square (up_to (nx - r) (nx + r + 1 - (nx - ox))) (down_to (nz + r) (Z.max (oz + r + 1) (nz - r))) ∪
  (square (down_to (nx + r) (Z.max (ox + r + 1) (nx - r))) (up_to (nz - r) (nz + r + 1)) ∪
  (K ∖ square (up_to (ox - r) (Z.min (nx - r) (ox + r + 1))) (up_to (oz - r) (oz + r + 1))
     ∖ square (up_to (ox - r + (nx - ox)) (ox + r + 1)) (up_to (oz - r) (Z.min (nz - r) (oz + r + 1)))
     ∖ square (down_to (ox + r) (Z.max (nx + r + 1) (ox - r))) (up_to (oz - r) (oz + r + 1))
     ∖ square (up_to (ox - r) (ox + r + 1 + (nx - ox))) (down_to (oz + r) (Z.max (nz + r + 1) (oz - r))))))).

(** What stays is what the two windows share, and what comes completes it. *)
Lemma elem_of_moved pos old new r K :
  0 ≤ r → pos ∈ moved old new r K → pos ∈ K ∨ pos ∈ window new r ∨ pos ∈ leak old new r.
Proof.
  intros Hr. unfold moved. rewrite !elem_of_union, !elem_of_difference. intros Hin.
  destruct (decide (pos ∈ K)) as [|HK]; [by left|right].
  destruct Hin as [Hin|[Hin|[Hin|[Hin|Hin]]]]; [..|tauto]; clear HK; revert Hin; coordinates;
    destruct pos as [x z], old as [ox oz], new as [nx nz]; cbn [p2x p2z]; clear -Hr; lia.
Qed.

Lemma moved_outside pos old new r K :
  0 ≤ r → pos ∈ moved old new r K → pos ∈ window old r → pos ∈ window new r.
Proof.
  intros Hr. unfold moved. coordinates.
  destruct pos as [x z], old as [ox oz], new as [nx nz]. cbn [p2x p2z]. clear -Hr.
  generalize (mk_Position2D x z ∈ K). intros P. lia.
Qed.

Lemma moved_leak pos old new r K : 0 ≤ r → pos ∈ leak old new r → pos ∈ moved old new r K.
Proof.
  intros Hr. unfold moved. coordinates.
  destruct pos as [x z], old as [ox oz], new as [nx nz]. cbn [p2x p2z]. clear -Hr. lia.
Qed.

Lemma moved_cover old new r K : 0 ≤ r → window old r ⊆ K → window new r ⊆ moved old new r K.
Proof.
  intros Hr HK pos Hpos. specialize (HK pos).
  destruct (decide (pos ∈ window old r)) as [Hold|Hold]; [specialize (HK Hold)|clear HK];
    revert Hold Hpos; unfold moved; coordinates;
    destruct pos as [x z], old as [ox oz], new as [nx nz]; cbn [p2x p2z].
  - intros. do 4 right. split_and!; try (exact HK); lia.
  - clear -Hr. lia.
Qed.

Lemma moved_window old new r :
  0 ≤ r → moved old new r (window old r) = window new r ∪ leak old new r.
Proof.
  intros Hr. apply set_eq. intros pos. rewrite elem_of_union. split.
  - intros Hin. destruct (elem_of_moved pos old new r _ Hr Hin) as [Hold|]; [|done].
    left. by eapply moved_outside.
  - intros [Hin|Hin]; [|by apply moved_leak].
    exact (moved_cover old new r _ Hr (reflexivity _) pos Hin).
Qed.

Lemma leak_still pos r : leak pos pos r = ∅.
Proof. apply set_eq. intros p. rewrite elem_of_leak, elem_of_empty. lia. Qed.

Lemma window_leak old new r : window new r ## leak old new r.
Proof. intros pos. coordinates. lia. Qed.

(** ** The bounds of the loops

    Far from the ends of [int32_t] they are what they would be on integers. *)

Definition chunk_in_range (p : Position2D) : Prop := - 2 ^ 29 ≤ p2x p ≤ 2 ^ 29 ∧ - 2 ^ 29 ≤ p2z p ≤ 2 ^ 29.

Lemma int_op_ok f x y : is_s 32 (f x y) → int_op f (Ok x) (Ok y) = Ok (f x y).
Proof. intros. unfold int_op. cbn. by apply chk_i32_ok. Qed.

Section Ranges.
Context `{Cfb8} `{JobPool}.

Lemma for_up_run a b f f' g :
  (∀ x g, f x g = f' x g) → for_up (Ok a) (Ok b) f g = for_each (up_to a b) f' g.
Proof. intros Hf. exact (for_each_ext _ _ _ g Hf). Qed.
Lemma for_down_run a b f f' g :
  is_s 32 (b - 1) → (∀ x g, f x g = f' x g) → for_down (Ok a) (Ok b) f g = for_each (down_to a b) f' g.
Proof.
  intros Hb Hf. unfold for_down. rewrite (bind_run_ok (lift (Ok a)) _ g a g eq_refl).
  rewrite (bind_run_ok (lift (Ok b)) _ g b g eq_refl). unfold mbind at 1, M_bind at 1.
  rewrite (for_each_ext _ f f' g Hf). destruct (for_each _ f' g) as [[[]| | |] g']; [|done..].
  case_decide; [|done]. by rewrite chk_i32_ok.
Qed.

(** The same loops over the integers. *)
Definition rendered_loops (this : Z) (old new : Position2D) (r : Z) : M Game unit :=
  let '(ox, oz, nx, nz) := (p2x old, p2z old, p2x new, p2z new) in
  _ ← for_each (up_to (ox - r) (Z.min (nx - r) (ox + r + 1))) (λ x,
        for_each (up_to (oz - r) (oz + r + 1)) (λ z, Player_unloadChunk this x z));
  _ ← for_each (up_to (oz - r) (Z.min (nz - r) (oz + r + 1))) (λ z,
        for_each (up_to (ox - r + (nx - ox)) (ox + r + 1)) (λ x, Player_unloadChunk this x z));
  _ ← for_each (down_to (ox + r) (Z.max (nx + r + 1) (ox - r))) (λ x,
        for_each (up_to (oz - r) (oz + r + 1)) (λ z, Player_unloadChunk this x z));
  _ ← for_each (down_to (oz + r) (Z.max (nz + r + 1) (oz - r))) (λ z,
        for_each (up_to (ox - r) (ox + r + 1 + (nx - ox))) (λ x, Player_unloadChunk this x z));
  _ ← for_each (down_to (nx + r) (Z.max (ox + r + 1) (nx - r))) (λ x,
        for_each (up_to (nz - r) (nz + r + 1)) (λ z, Player_sendChunkAndLightUpdate this x z));
  _ ← for_each (down_to (nz + r) (Z.max (oz + r + 1) (nz - r))) (λ z,
        for_each (up_to (nx - r) (nx + r + 1 - (nx - ox))) (λ x, Player_sendChunkAndLightUpdate this x z));
  _ ← for_each (up_to (nx - r) (Z.min (ox - r) (nx + r + 1))) (λ x,
        for_each (up_to (nz - r) (nz + r + 1)) (λ z, Player_sendChunkAndLightUpdate this x z));
  for_each (up_to (nz - r) (Z.min (oz - r) (nz + r + 1))) (λ z,
    for_each (up_to (nx - r - (nx - ox)) (nx + r + 1)) (λ x, Player_sendChunkAndLightUpdate this x z)).

Lemma bind_ext {S A B} (p p' : M S A) (f f' : A → M S B) s :
  p s = p' s → (∀ a s, f a s = f' a s) → (p ≫= f) s = (p' ≫= f') s.
Proof. intros Hp Hf. unfold mbind, M_bind. rewrite Hp. destruct (p' s) as [[]]; [apply Hf|done..]. Qed.

Lemma updateRenderedChunks_loops this old new g :
  old ≠ new → is_u 8 (_renderDistance (g_world g)) → chunk_in_range old → chunk_in_range new →
  Player_updateRenderedChunks this old new g =
    (_ ← Player_sendSetCenterChunk this new; rendered_loops this old new (_renderDistance (g_world g))) g.
Proof.
  intros Hne Hr [Hox Hoz] [Hnx Hnz]. unfold Player_updateRenderedChunks. rewrite decide_False by done.
  rewrite (bind_run_ok (gets _) _ g _ g eq_refl). revert Hr. generalize (_renderDistance (g_world g)). intros r Hr.
  destruct old as [ox oz], new as [nx nz]. unfold rendered_loops. cbn [p2x p2z] in *. unfold is_u in Hr.
  unfold int_add, int_sub, int_min, int_max.
  rewrite !int_op_ok by (unfold is_s; lia).
  apply bind_ext; [done|]. intros _ g1.
  repeat first [ apply bind_ext; [|intros _ ?]
               | apply for_up_run; intros ? ?
               | apply for_down_run; [unfold is_s; lia|intros ? ?]
               | reflexivity ].
Qed.
End Ranges.

Section PropsLoops.
Context `{Cfb8} `{JobPool} (w : World) (this : Z).
Let view := view w this.

Lemma show_columns xs zs K :
  triple (view K) (for_each xs (λ x, for_each zs (λ z, Player_sendChunkAndLightUpdate this x z)))
    (λ _, view (square xs zs ∪ K)).
Proof.
  apply (loop_square w this (∪)); [set_solver|set_solver|]. intros. apply view_show.
Qed.

Lemma show_rows xs zs K :
  triple (view K) (for_each zs (λ z, for_each xs (λ x, Player_sendChunkAndLightUpdate this x z)))
    (λ _, view (square xs zs ∪ K)).
Proof.
  apply (loop_square_flip w this (∪)); [set_solver|set_solver|]. intros. apply view_show.
Qed.

Lemma unload_columns xs zs K :
  triple (view K) (for_each xs (λ x, for_each zs (λ z, Player_unloadChunk this x z)))
    (λ _, view (K ∖ square xs zs)).
Proof.
  apply (loop_square w this (λ S K, K ∖ S)); [set_solver|set_solver|]. intros. apply view_unload.
Qed.

Lemma unload_rows xs zs K :
  triple (view K) (for_each zs (λ z, for_each xs (λ x, Player_unloadChunk this x z)))
    (λ _, view (K ∖ square xs zs)).
Proof.
  apply (loop_square_flip w this (λ S K, K ∖ S)); [set_solver|set_solver|]. intros. apply view_unload.
Qed.

Lemma view_updateRenderedChunks old new K :
  old ≠ new → is_u 8 (_renderDistance w) → chunk_in_range old → chunk_in_range new →
  triple (view K) (Player_updateRenderedChunks this old new) (λ _, view (moved old new (_renderDistance w) K)).
Proof.
  intros Hne Hr Ho Hn. destruct (createCenterChunk_ok new) as [frame Hf].
  assert (Ht : triple (view K) (_ ← Player_sendSetCenterChunk this new; rendered_loops this old new (_renderDistance w))
    (λ _, view (moved old new (_renderDistance w) K))).
  { eapply triple_seq; [exact (view_send w this K _ frame Hf)|]. unfold rendered_loops.
    do 4 (eapply triple_seq; [first [apply unload_columns | apply unload_rows]|]).
    do 3 (eapply triple_seq; [first [apply show_columns | apply show_rows]|]).
    apply show_rows. }
  intros g Hv. assert (g_world g = w) as Hg by apply Hv.
  rewrite updateRenderedChunks_loops by (done || by rewrite Hg). rewrite Hg. by apply Ht.
Qed.
End PropsLoops.

Section Props.
Context `{Cfb8} `{JobPool}.

(** C18: [Player::_updateRenderedChunks] on a move in any direction across any distance
    between chunks at most 2^29 away from the origin, where the thirty-two bits of its
    computations are enough: with the chunks of the old window known, it returns, the player
    can still be written to, every chunk that is loading still has a request the
    player waits on, and the chunks known are those of the new window and the leak:
    [|dx| * min(|dz|, 2r+1)] chunks beside the window when the move is diagonal
    with the coordinates going opposite ways, none in every other case.  (Positions are
    not checked, and a client can go to where the computations overflow:
    [far_move_overflows].) *)
Theorem updateRenderedChunks_window (this : Z) (old new : Position2D) (g : Game) :
  let r := _renderDistance (g_world g) in
  let '(dx, dz) := (p2x new - p2x old, p2z new - p2z old) in
  is_u 8 r → chunk_in_range old → chunk_in_range new → view_ok this g → known this g = window old r →
  ∃ g', Player_updateRenderedChunks this old new g = (Ok tt, g') ∧
    view_ok this g' ∧ g_world g' = g_world g ∧
    known this g' = window new r ∪ leak old new r ∧ window new r ## leak old new r ∧
    Z.of_nat (size (leak old new r)) =
      if decide (dx * dz < 0) then Z.abs dx * Z.min (Z.abs dz) (2 * r + 1) else 0.
Proof.
  cbv beta zeta. intros Hr8 Ho Hn Hv Hk. pose proof (proj1 Hr8) as Hr.
  pose proof (window_leak old new (_renderDistance (g_world g))) as Hdis.
  pose proof (leak_size old new _ Hr) as Hsize.
  destruct (decide (old = new)) as [->|Hne].
  - exists g. unfold Player_updateRenderedChunks. rewrite decide_True by done.
    split; [reflexivity|split; [exact Hv|split; [reflexivity|split; [|exact (conj Hdis Hsize)]]]].
    by rewrite Hk, leak_still, (right_id_L ∅ (∪)).
  - destruct (view_updateRenderedChunks (g_world g) this old new (known this g) Hne Hr8 Ho Hn g)
      as ([] & g' & E & Hok & Hk' & Hg'); [split; [exact Hv|split; reflexivity]|].
    exists g'. split; [exact E|split; [exact Hok|split; [exact Hg'|split; [|exact (conj Hdis Hsize)]]]].
    by rewrite Hk', Hk, moved_window.
Qed.

(** The positions of a walk, one after the other. *)
Fixpoint walk (this : Z) (old : Position2D) (path : list Position2D) : M Game unit :=
  match path with
  | [] => mret tt
  | new :: path => _ ← Player_updateRenderedChunks this old new; walk this new path
  end.

Lemma last_after {A} (x d : A) l : List.last (x :: l) d = List.last l x.
Proof.
  revert x d. induction l as [|y l IH]; intros x d; [done|].
  transitivity (List.last l y); [exact (IH y d)|symmetry; exact (IH y x)].
Qed.

Lemma view_walk (w : World) this path : ∀ old K,
  is_u 8 (_renderDistance w) → chunk_in_range old → Forall chunk_in_range path → window old (_renderDistance w) ⊆ K →
  triple (view w this K) (walk this old path)
    (λ _ g, ∃ K', view w this K' g ∧ window (List.last path old) (_renderDistance w) ⊆ K').
Proof.
  induction path as [|new path IH]; intros old K Hr Ho Hp HK.
  - apply triple_ret. intros g Hg. by exists K.
  - cbn [walk]. rewrite last_after. apply Forall_cons_1 in Hp as [Hn Hp].
    destruct (decide (old = new)) as [<-|Hne].
    + unfold Player_updateRenderedChunks. rewrite decide_True by done.
      eapply triple_seq; [|by apply (IH old K)]. by apply triple_ret.
    + eapply triple_seq; [by apply view_updateRenderedChunks|].
      apply IH; [done..|apply moved_cover; [apply Hr|done]].
Qed.

Lemma without_middle x z :
  ¬ (x = 0 ∧ z = 0) →
  ({[mk_Position2D x z]} ∖ {[mk_Position2D 0 0]} : gset Position2D) = {[mk_Position2D x z]}.
Proof. intros Hxz. apply set_eq. intros pos. set_unfold. split; [tauto|]. intros ->. naive_solver. Qed.

Lemma view_sendSpawnChunks (w : World) this K :
  0 ≤ _renderDistance w →
  triple (view w this K) (Player_sendSpawnChunks this)
    (λ _, view w this (window (mk_Position2D 0 0) (_renderDistance w) ∪ K)).
Proof.
  intros Hr. unfold Player_sendSpawnChunks. eapply triple_bind; [apply triple_gets|]. intros r'.
  intros g [Hv ->]. assert (_renderDistance (g_world g) = _renderDistance w) as -> by (by destruct Hv as (_ & _ & <-)).
  revert g Hv. eapply triple_seq; [apply view_show|].
  eapply triple_conseq; [|by intros ?|].
  - apply (loop_square w this (λ S K, (S ∖ {[mk_Position2D 0 0]}) ∪ K)); [set_solver|set_solver|].
    intros x z K'. case_decide as Hxz.
    + destruct Hxz as [-> ->]. apply triple_ret. intros g. by replace (_ ∪ K') with K' by set_solver.
    + eapply triple_conseq; [apply view_show|by intros ?|]. intros [] g. cbv beta.
      by rewrite without_middle.
  - intros [] g. cbv beta. match goal with |- view _ _ ?S _ → view _ _ ?T _ => replace T with S; [done|] end.
    apply set_eq. intros pos. rewrite !elem_of_union, elem_of_difference, !elem_of_singleton.
    change (square _ _) with (window (mk_Position2D 0 0) (_renderDistance w)).
    assert (pos = mk_Position2D 0 0 → pos ∈ window (mk_Position2D 0 0) (_renderDistance w))
      by (intros ->; coordinates; cbn; lia).
    destruct (decide (pos = mk_Position2D 0 0)); tauto.
Qed.

(** C19: A player that joins, is sent the chunks around the spawn and then walks
    any path, chunk by chunk or teleported, among the chunks at most 2^29 away from the
    origin, always holds every chunk of the window around the last position: no move leaves a hole, whatever leaked before. *)
Theorem spawn_and_walk_cover (this : Z) (path : list Position2D) (g : Game) :
  let r := _renderDistance (g_world g) in
  is_u 8 r → Forall chunk_in_range path → view_ok this g →
  ∃ g', (_ ← Player_sendSpawnChunks this; walk this (mk_Position2D 0 0) path) g = (Ok tt, g') ∧
    view_ok this g' ∧ window (List.last path (mk_Position2D 0 0)) r ⊆ known this g'.
Proof.
  intros r Hr Hp Hv.
  assert (triple (view (g_world g) this (known this g))
    (_ ← Player_sendSpawnChunks this; walk this (mk_Position2D 0 0) path)
    (λ _ g', ∃ K', view (g_world g) this K' g' ∧ window (List.last path (mk_Position2D 0 0)) r ⊆ K')) as Ht.
  { eapply triple_seq; [apply view_sendSpawnChunks, Hr|]. apply view_walk; [done|by split|done|]. set_solver. }
  destruct (Ht g) as ([] & g' & E & K' & (Hok & <- & _) & Hsub); [split; [exact Hv|split; reflexivity]|].
  exists g'. split; [exact E|split; [exact Hok|exact Hsub]].
Qed.
End Props.

(** ** Examples *)

Lemma joined_view_ok : view_ok 0 joined_game.
Proof.
  exists example_player. split; [reflexivity|]. split.
  - exists (mk_Connection true false None). split; [reflexivity|]. by intros [=].
  - split; intros pos; unfold joined_game, example_game, set_level; cbn [g_dimension _level _loadingChunks];
      intros ?; by rewrite lookup_empty.
Qed.

Lemma spawn_and_walk_cover_witness :
  let path := [mk_Position2D 1 0; mk_Position2D 2 1; mk_Position2D (-40) 7] in
  ∃ g', (_ ← Player_sendSpawnChunks 0; walk 0 (mk_Position2D 0 0) path) joined_game = (Ok tt, g') ∧
    view_ok 0 g' ∧ window (mk_Position2D (-40) 7) 2 ⊆ known 0 g'.
Proof.
  exact (spawn_and_walk_cover 0 [mk_Position2D 1 0; mk_Position2D 2 1; mk_Position2D (-40) 7]
           joined_game ltac:(done) ltac:(repeat constructor; done) joined_view_ok).
Defined.

(** The player, once it holds the chunks around the spawn. *)
Definition settled_game : Game :=
  set_g_players {[0 := set_chunks (gset_to_gmap ChunkState_Loaded (window (mk_Position2D 0 0) 2)) example_player]}
    joined_game.

Lemma settled_view_ok : view_ok 0 settled_game.
Proof.
  eexists. split; [unfold settled_game; cbn [g_players set_g_players]; by apply lookup_singleton_eq|].
  split; [|split].
  - exists (mk_Connection true false None). split; [reflexivity|]. by intros [=].
  - intros pos c. unfold settled_game, joined_game, example_game. cbn [g_dimension _level set_g_players].
    by rewrite lookup_empty.
  - intros pos. cbn [_chunks set_chunks]. rewrite lookup_gset_to_gmap_Some. by intros [_ [=]].
Qed.

Lemma settled_known : known 0 settled_game = window (mk_Position2D 0 0) 2.
Proof.
  unfold known, settled_game. cbn [g_players set_g_players]. rewrite lookup_singleton_eq.
  cbn [_chunks set_chunks]. apply dom_gset_to_gmap.
Qed.

Lemma updateRenderedChunks_window_witness :
  ∃ g', Player_updateRenderedChunks 0 (mk_Position2D 0 0) (mk_Position2D 3 (-2)) settled_game = (Ok tt, g') ∧
    Z.of_nat (size (leak (mk_Position2D 0 0) (mk_Position2D 3 (-2)) 2)) = 6.
Proof.
  destruct (updateRenderedChunks_window 0 (mk_Position2D 0 0) (mk_Position2D 3 (-2)) settled_game
              ltac:(done) ltac:(by repeat split) ltac:(by repeat split) settled_view_ok settled_known) as (g' & E & _ & _ & _ & _ & Hs).
  exists g'. split; [exact E|exact Hs].
Defined.

(** A chunk at the lower end of [int32_t] has no neighbours. *)
Lemma far_move_overflows :
  (Player_updateRenderedChunks 0 (mk_Position2D 0 0) (mk_Position2D (- 2 ^ 31) 0) settled_game).1 = UB SignedOverflow.
Proof. vm_compute. reflexivity. Qed.
