(* ===== verification/ClientLaws.v ===== *)
(** * Laws of the packet loop of a client

    What [next_frame] does with a buffer that holds a packet and what follows it,
    and with a buffer that holds a part of a packet. *)

From S2P Require Import Prelude State Types Codec Structures Add Pop PrimaryLaws CompositeLaws PrimarySafety ServerPackets ServerWire PacketLaws ClientPackets CreatePackets Network Json Message Game Player Commands PlayerHandlers Client.

(** ** Reading at the end of the buffer *)

Lemma peek_end buf : peek buf (zlen buf) = UB OutOfBoundsRead.
Proof.
  unfold peek. rewrite decide_True by lia. rewrite Nat2Z.id.
  by rewrite (lookup_ge_None_2 buf) by lia.
Qed.

(** With [eof] one past the last byte, the guards let one byte too many through. *)
Lemma popVar_loop_end fuel w wrap value position buf :
  fuel ≠ O → popVar_loop fuel w wrap value position buf (zlen buf) (zlen buf) = UB OutOfBoundsRead.
Proof.
  destruct fuel; [done|]. intros _. cbn [popVar_loop].
  unfold mbind, reader_bind, distance_to_eof, next. cbn [fst snd mret result_ret].
  cbn [mbind result_bind fst snd]. rewrite decide_False by lia. by rewrite peek_end.
Qed.

Lemma popVar_loop_cut w fuel value u position pre bs rest :
  0 < w → fuel ≠ O → 0 ≤ position < w → 0 ≤ u < 2 ^ (w - position) → u < 128 ^ Z.of_nat fuel →
  rest ≠ [] → var_bytes fuel u = bs ++ rest →
  popVar_loop fuel w (wrap_s w) value position (pre ++ bs) (zlen (pre ++ bs)) (zlen pre) =
    UB OutOfBoundsRead.
Proof.
  intros Hw. revert value u position pre bs.
  induction fuel as [|fuel IH]; intros value u position pre bs Hn Hp Hu Hf Hr E; [done|]. clear Hn.
  destruct bs as [|b bs]; [rewrite app_nil_r; by apply popVar_loop_end|].
  cbn [var_bytes] in E. pose proof (Z.mod_pos_bound u 128 ltac:(lia)).
  case_decide as Hs.
  { exfalso. injection E as _ E. symmetry in E. apply app_eq_nil in E as [_ ->]. done. }
  injection E as <- E. cbn [popVar_loop].
  unfold mbind, reader_bind, distance_to_eof, next. cbn [mbind result_bind fst snd].
  rewrite decide_False by zlia. rewrite peek_app. cbn [mbind result_bind fst snd].
  rewrite decide_False by (rewrite land_continue by (unfold is_u; cbn; lia); lia).
  assert (7 < w - position).
  { apply (Z.pow_lt_mono_r_iff 2); [lia..|]. change (2 ^ 7) with 128. lia. }
  rewrite decide_False by lia.
  specialize (IH (Z.lor value (wrap_s w (Z.shiftl (Z.land (128 + u `mod` 128) SEGMENT_BITS) position)))
                (u / 128) (position + 7) (pre ++ [128 + u `mod` 128]) bs).
  rewrite <- !app_assoc in IH. cbn [app] in IH.
  replace (zlen pre + 1) with (zlen (pre ++ [128 + u `mod` 128])) by zlia.
  apply IH; [|lia| | |done|done].
  - intros ->. change (128 ^ Z.of_nat 1) with 128 in Hf. lia.
  - split; [apply Z.div_pos; lia|]. apply Z.div_lt_upper_bound; [lia|].
    change 128 with (2 ^ 7). rewrite <- Z.pow_add_r by lia.
    replace (7 + (w - (position + 7))) with (w - position) by lia. lia.
  - rewrite Nat2Z.inj_succ, Z.pow_succ_r in Hf by lia. apply Z.div_lt_upper_bound; lia.
Qed.

Lemma popVarInt_cut v pre bs rest :
  rest ≠ [] → varint_bytes v = bs ++ rest →
  popVarInt (pre ++ bs) (zlen (pre ++ bs)) (zlen pre) = UB OutOfBoundsRead.
Proof.
  intros Hr E. pose proof (wrap_u_range 32 v ltac:(lia)) as H. unfold is_u in H.
  eapply (popVar_loop_cut 32 5 0 (to_u32 v) 0); [lia|done|lia|exact H| |exact Hr|exact E].
  apply (Z.lt_le_trans _ (2 ^ 32)); [apply H|done].
Qed.

Lemma popVarInt_whole v pre post :
  popVarInt (pre ++ varint_bytes v ++ post) (zlen (pre ++ varint_bytes v ++ post)) (zlen pre) =
    Ok (to_i32 v, zlen (pre ++ varint_bytes v)).
Proof. apply reads_popVarInt. zlia. Qed.

(** ** Packets in the buffer *)

(** The bytes after the length of a packet, and the whole packet. *)
Definition frame_body (id : Z) (payload : list Z) : list Z := varint_bytes id ++ payload.
Definition frame_of (id : Z) (payload : list Z) : list Z :=
  varint_bytes (zlen (frame_body id payload)) ++ frame_body id payload.

Lemma frame_of_finalize id payload :
  is_s 32 (zlen (frame_body id payload)) → finalize [] payload id = Ok (frame_of id payload).
Proof.
  intros H. unfold finalize. rewrite (emits_nil _ _ (emits_addVarInt id)).
  cbn [mbind result_bind]. rewrite (emits_nil _ _ (emits_addVarInt _)). cbn [mbind result_bind]. unfold frame_of.
  replace (zlen payload + zlen (varint_bytes id)) with (zlen (frame_body id payload))
    by (unfold frame_body; zlia).
  unfold to_u64. rewrite wrap_u_id; [done|]. unfold is_s in H. unfold is_u.
  change (2 ^ (32 - 1)) with 2147483648 in H. change (2 ^ 64) with 18446744073709551616. lia.
Qed.

Lemma frame_body_pos id payload : 0 < zlen (frame_body id payload).
Proof.
  unfold frame_body. pose proof (varint_bytes_nonempty id).
  destruct (varint_bytes id); [done|]. rewrite <- app_comm_cons. zlia.
Qed.

Lemma to_i32_zlen {A} (l : list A) : is_s 32 (zlen l) → to_i32 (zlen l) = zlen l.
Proof. apply wrap_s_id. lia. Qed.

Lemma next_frame_nonempty data :
  data ≠ [] → next_frame data =
    match popVarInt data (zlen data) 0 with
    | Throw PacketEOF => Ok Frame_incomplete
    | Ok (length, at_) =>
        if decide (zlen data - at_ + 1 < length) then Ok Frame_incomplete
        else if decide (length = 0) then Ok (Frame_empty (drop 1 data))
        else
          r ← popVarInt data (zlen data) at_;
          rest ← erase_front (at_ + length) data;
          Ok (Framed r.1 (drop (Z.to_nat r.2) data) rest)
    | Throw e => Throw e
    | UB k => UB k
    | OutOfFuel => OutOfFuel
    end.
Proof. intros H. unfold next_frame. by rewrite decide_False. Qed.

Lemma drop_zlen {A} (l k : list A) : drop (Z.to_nat (zlen l)) (l ++ k) = k.
Proof. rewrite Nat2Z.id. apply drop_app_length. Qed.

Lemma next_frame_packet id payload rest :
  is_s 32 (zlen (frame_body id payload)) →
  next_frame (frame_of id payload ++ rest) = Ok (Framed (to_i32 id) (payload ++ rest) rest).
Proof.
  intros Hs. pose proof (frame_body_pos id payload) as Hpos.
  set (n := zlen (frame_body id payload)) in *.
  assert (E : frame_of id payload ++ rest = varint_bytes n ++ varint_bytes id ++ payload ++ rest).
  { unfold frame_of, frame_body. by rewrite <- !app_assoc. }
  assert (Hn : n = zlen (varint_bytes id) + zlen payload) by (subst n; unfold frame_body; zlia).
  rewrite next_frame_nonempty.
  2:{ rewrite E. pose proof (varint_bytes_nonempty n). by destruct (varint_bytes n). }
  rewrite E. pose proof (popVarInt_whole n [] (varint_bytes id ++ payload ++ rest)) as E1.
  cbn [app] in E1. change (zlen []) with 0 in E1. rewrite E1. clear E1.
  unfold to_i32. rewrite (wrap_s_id 32 n) by (done || lia).
  rewrite decide_False by zlia. rewrite decide_False by lia.
  pose proof (popVarInt_whole id (varint_bytes n) (payload ++ rest)) as E2. rewrite E2. clear E2.
  cbn [mbind result_bind fst snd]. unfold erase_front.
  rewrite decide_False by lia. rewrite decide_False by zlia. cbn [mbind result_bind].
  rewrite app_assoc at 1. rewrite drop_zlen.
  replace (zlen (varint_bytes n) + n) with (zlen (varint_bytes n ++ varint_bytes id ++ payload)) by zlia.
  replace (varint_bytes n ++ varint_bytes id ++ payload ++ rest)
    with ((varint_bytes n ++ varint_bytes id ++ payload) ++ rest) by (by rewrite <- !app_assoc).
  by rewrite drop_zlen.
Qed.

(** ** Packets cut short *)

Lemma next_frame_length_cut id payload bs rest :
  bs ≠ [] → rest ≠ [] → varint_bytes (zlen (frame_body id payload)) = bs ++ rest →
  next_frame bs = UB OutOfBoundsRead.
Proof.
  intros Hb Hr E. rewrite next_frame_nonempty by done.
  pose proof (popVarInt_cut _ [] bs rest Hr E) as H. cbn [app] in H.
  change (zlen []) with 0 in H. by rewrite H.
Qed.

(** The length is there; of the body, [part] is. *)
Lemma next_frame_body_cut id payload part more :
  is_s 32 (zlen (frame_body id payload)) → frame_body id payload = part ++ more → more ≠ [] →
  let bs := varint_bytes (zlen (frame_body id payload)) ++ part in
  if decide (1 < zlen more) then next_frame bs = Ok Frame_incomplete else ∃ k, next_frame bs = UB k.
Proof.
  intros Hs E Hm. pose proof (frame_body_pos id payload) as Hpos.
  set (n := zlen (frame_body id payload)) in *. cbn zeta.
  assert (Hn : n = zlen part + zlen more) by (subst n; rewrite E; zlia).
  assert (0 < zlen more) by (destruct more; [done|zlia]).
  rewrite next_frame_nonempty.
  2:{ pose proof (varint_bytes_nonempty n). by destruct (varint_bytes n). }
  pose proof (popVarInt_whole n [] part) as E1.
  cbn [app] in E1. change (zlen []) with 0 in E1. rewrite E1. clear E1.
  unfold to_i32. rewrite (wrap_s_id 32 n) by (done || lia).
  case_decide as H1; [by rewrite decide_True by zlia|].
  rewrite decide_False by zlia. rewrite decide_False by lia.
  (* one byte is missing: the identifier is read, or the byte past the end *)
  unfold frame_body in E. apply app_eq_app in E as (mid & [[E1 E2]|[E1 E2]]).
  - destruct (decide (mid = [])) as [->|Hmid].
    + rewrite app_nil_r in E1. subst part.
      pose proof (popVarInt_whole id (varint_bytes n) []) as E3. rewrite app_nil_r in E3.
      rewrite E3. cbn [mbind result_bind fst snd]. unfold erase_front.
      rewrite decide_False by lia. rewrite decide_True by zlia. by eexists.
    + rewrite (popVarInt_cut id (varint_bytes n) part mid Hmid E1). by eexists.
  - subst part.
    pose proof (popVarInt_whole id (varint_bytes n) mid) as E3.
    rewrite E3. cbn [mbind result_bind fst snd]. unfold erase_front.
    rewrite decide_False by lia. rewrite decide_True by zlia. by eexists.
Qed.

(** ** Progress *)

Lemma popVarInt_advances buf eof at_ v at' :
  popVarInt buf eof at_ = Ok (v, at') → at_ < at'.
Proof.
  unfold popVarInt.
  assert (G : ∀ fuel value position at_, popVar_loop fuel 32 to_i32 value position buf eof at_ = Ok (v, at') →
    at_ < at').
  { intros fuel. induction fuel as [|fuel IH]; intros value position a; [done|].
    cbn [popVar_loop]. unfold mbind, reader_bind, distance_to_eof, next. cbn [fst snd mret result_ret].
    cbn. case_decide; [done|]. destruct (peek buf a) as [b| | |]; [|done..]. cbn.
    case_decide; [intros [=]; lia|]. case_decide; [done|]. intros H'. apply IH in H'. lia. }
  apply G.
Qed.

(** A turn takes bytes away, unless the packet has a negative length. *)
Lemma frame_shrinks data id toParse rest :
  next_frame data = Ok (Framed id toParse rest) → (length rest ≤ length data)%nat.
Proof.
  unfold next_frame. case_decide; [done|].
  destruct (popVarInt data (zlen data) 0) as [[len a]|[]| |]; try done.
  case_decide; [done|]. case_decide; [done|].
  destruct (popVarInt data (zlen data) a) as [[i a']| | |]; [|done..]. cbn.
  unfold erase_front. case_decide; [done|]. case_decide; [done|]. cbn. intros [= _ _ <-].
  rewrite length_drop. lia.
Qed.

Lemma empty_frame_shrinks data rest :
  next_frame data = Ok (Frame_empty rest) → (length rest < length data)%nat.
Proof.
  unfold next_frame. case_decide as Hd; [done|].
  destruct (popVarInt data (zlen data) 0) as [[len a]|[]| |]; try done.
  case_decide; [done|]. case_decide.
  - intros [= <-]. destruct data; [done|]. rewrite length_drop. cbn. lia.
  - destruct (popVarInt data (zlen data) a) as [[i a']| | |]; [|done..]. cbn.
    unfold erase_front. case_decide; [done|]. by case_decide.
Qed.

(** ** The tables *)

(** What a table gives under an identifier is a packet of that identifier. *)
Lemma table_packet s id parser buffer p :
  parsers s !! id = Some parser → parser buffer = Ok (Some p) → packet_id p = id ∧ table_of p = parsers s.
Proof.
  intros Hp Hb.
  assert (G : ∀ l, Forall (λ kv : Z * packet_parser, ∀ buffer p, kv.2 buffer = Ok (Some p) →
    packet_id p = kv.1 ∧ table_of p = parsers s) l →
    (list_to_map l : gmap Z packet_parser) !! id = Some parser → packet_id p = id ∧ table_of p = parsers s).
  { intros l H Hk. apply elem_of_list_to_map_2, list_elem_of_lookup in Hk as [i Hi].
    exact (Forall_lookup_1 _ _ _ _ H Hi _ _ Hb). }
  destruct s; (eapply G; [|exact Hp]);
    repeat (apply Forall_cons_2; [cbn [fst snd]; unfold parser_of, nullable_parser_of; intros b q Hq|]);
    try apply Forall_nil_2; try discriminate Hq;
    match type of Hq with (_ <$> ?r) = _ => destruct r; cbn in Hq; [|done..] end;
    by injection Hq as <-.
Qed.
