(* ===== verification/ConnectionProps.v ===== *)
(** * Properties of clients and of their login

    What the packet loop hands to the handlers, what it does with bytes that stop
    in the middle of a packet or announce a negative length, and what it takes to
    get into the [Play] state. *)

From S2P Require Import Prelude State Types Floats Codec Structures Add Pop PrimaryLaws CompositeLaws ServerPackets ServerWire PacketLaws ClientPackets CreatePackets ClientWire BlockStates Network Json Message Whitelist Game Dimension World Player Commands PlayerHandlers Client Example ClientLaws.

Section Connections.
Context `{Cfb8} `{JobPool} `{JsonLib} `{!Plugins} `{Disk} `{Stod} `{Spdlog} `{Identity}.

Lemma this_client_run this c g :
  g_clients g !! this = Some c → this_client this g = (Ok c, g).
Proof. intros E. unfold this_client, gets, mbind, M_bind. by rewrite E. Qed.

Lemma handle_turn_framed commands this c g id toParse rest :
  g_clients g !! this = Some c → next_frame (_recvBuffer c) = Ok (Framed id toParse rest) →
  handle_turn commands this g =
    (_ ← update_client this (set_recvBuffer rest);
     match parsers (_status c) !! id with
     | None => mret false
     | Some parser =>
         match parser toParse with
         | Ok packet => _ ← handleParsedClientPacket commands this packet; mret true
         | Throw e => if is_runtime_error e then mret false else raise e
         | UB k => undefined_ k
         | OutOfFuel => lift OutOfFuel
         end
     end) g.
Proof.
  intros Hc Hf. unfold handle_turn. rewrite (bind_run_ok _ _ _ _ _ (this_client_run _ _ _ Hc)).
  rewrite (bind_run_ok (lift _) _ g (Framed id toParse rest) g) by (unfold lift; by rewrite Hf).
  done.
Qed.

(** ** Whole packets *)


(** ** Packets that arrive in parts *)

(** When only a part of a packet has arrived, and the part stops inside of the
    length or one byte before the end, the loop reads past the bytes it holds or
    erases past them, which is undefined; between the two it waits for more, as it
    should.  (The end of the buffer is taken for the address of its last byte.) *)
Theorem next_frame_cut (id : Z) (payload part more : list Z) :
  is_s 32 (zlen (frame_body id payload)) →
  frame_of id payload = part ++ more → part ≠ [] → more ≠ [] →
  let header := zlen (varint_bytes (zlen (frame_body id payload))) in
  if decide (header ≤ zlen part ∧ 1 < zlen more) then next_frame part = Ok Frame_incomplete
  else ∃ k, next_frame part = UB k.
Proof.
  intros Hs E Hp Hm. cbn zeta. unfold frame_of in E.
  set (v := varint_bytes (zlen (frame_body id payload))) in *.
  destruct (decide (zlen part < zlen v)) as [Hlt|Hge].
  - rewrite decide_False by lia. exists OutOfBoundsRead.
    apply app_eq_app in E as (mid & [[E1 E2]|[E1 E2]]).
    + apply (next_frame_length_cut id payload part mid); [done| |exact E1].
      intros ->. rewrite app_nil_r in E1. rewrite E1 in Hlt. lia.
    + rewrite E1 in Hlt. zlia.
  - assert (∃ mid, part = v ++ mid ∧ frame_body id payload = mid ++ more) as (mid & -> & Eb).
    { apply app_eq_app in E as (mid & [[E1 E2]|[E1 E2]]); [|by exists mid].
      assert (mid = []) as ->.
      { destruct mid; [done|]. rewrite E1 in Hge. exfalso. zlia. }
      exists []. rewrite app_nil_r in E1. by rewrite app_nil_r, E1, E2. }
    pose proof (next_frame_body_cut id payload mid more Hs Eb Hm) as G. cbn zeta in G.
    fold v in G. destruct (decide (1 < zlen more)).
    + rewrite decide_True by zlia. done.
    + rewrite decide_False by zlia. done.
Qed.

Lemma next_frame_cut_witness :
  let part := [3; 0] in
  frame_of 0 [7; 8] = part ++ [7; 8] ∧ next_frame part = Ok Frame_incomplete ∧
  ∃ k, next_frame (part ++ [7]) = UB k.
Proof.
  split; [reflexivity|]. split.
  - apply (next_frame_cut 0 [7; 8] [3; 0] [7; 8]); [by vm_compute|reflexivity|done|done].
  - apply (next_frame_cut 0 [7; 8] [3; 0; 7] [8]); [by vm_compute|reflexivity|done|done].
Defined.

(** ** Lengths that are no length *)

Lemma popVar_loop_255 fuel width wrap value position buf eof at_ :
  peek buf at_ = Ok 255 → at_ ≤ eof →
  ∃ value', popVar_loop (S fuel) width wrap value position buf eof at_ =
    (if decide (width ≤ position + 7) then Throw VarIntOverflow
     else popVar_loop fuel width wrap value' (position + 7) buf eof (at_ + 1)).
Proof.
  intros Hp Ha. eexists. cbn [popVar_loop]. unfold mbind, reader_bind, distance_to_eof, next.
  cbn [mbind result_bind fst snd]. rewrite decide_False by lia. rewrite Hp.
  cbn [mbind result_bind fst snd]. rewrite decide_False by done. by case_decide.
Qed.

Lemma popVarInt_overlong rest buf :
  buf = [255; 255; 255; 255; 255] ++ rest → popVarInt buf (zlen buf) 0 = Throw VarIntOverflow.
Proof.
  intros Hbuf. assert (Hl : 5 ≤ zlen buf) by (subst buf; zlia).
  assert (Hk : ∀ k, 0 ≤ k < 5 → peek buf k = Ok 255).
  { intros k Hk. assert (k = 0 ∨ k = 1 ∨ k = 2 ∨ k = 3 ∨ k = 4) as Hc by lia.
    subst buf. by destruct Hc as [->|[->|[->|[->| ->]]]]. }
  unfold popVarInt. clear Hbuf. generalize dependent (zlen buf). intros n Hl.
  do 5 (match goal with |- popVar_loop (S ?f) ?w ?wr ?v ?p _ _ ?a = _ =>
    destruct (popVar_loop_255 f w wr v p buf n a) as [? ->]; [apply Hk; lia|lia|] end;
    first [rewrite decide_False by lia|by rewrite decide_True by lia]).
Qed.

(** Five bytes with the continuation bit: only [PacketEOF] is caught, and the
    exception leaves the thread. *)
Lemma overlong_length_uncaught commands this c g rest :
  g_clients g !! this = Some c → _recvBuffer c = [255; 255; 255; 255; 255] ++ rest →
  (handle_turn commands this g).1 = Throw VarIntOverflow.
Proof.
  intros Hc Hb. unfold handle_turn. rewrite (bind_run_ok _ _ _ _ _ (this_client_run _ _ _ Hc)).
  rewrite (bind_run_throw (lift _) _ g VarIntOverflow g); [done|].
  unfold lift. rewrite Hb. rewrite next_frame_nonempty by done.
  by rewrite (popVarInt_overlong rest) by done.
Qed.

(** A ping whose length is -5: the erase takes away the five bytes of the length,
    less five. *)
Definition ping_minus_five : list Z := [0xfb; 0xff; 0xff; 0xff; 0x0f; 1; 0; 0; 0; 0; 0; 0; 0; 42].
Definition pong : list Z := [9; 1; 0; 0; 0; 0; 0; 0; 0; 42].

Lemma ping_minus_five_frame :
  next_frame ping_minus_five = Ok (Framed 1 [0; 0; 0; 0; 0; 0; 0; 42] ping_minus_five).
Proof. vm_compute. reflexivity. Qed.

Lemma update_client_same this f c g :
  g_clients g !! this = Some c → f c = c → update_client this f g = (Ok tt, g).
Proof.
  intros Hc Hf. unfold update_client, modify. f_equal.
  replace (alter f this (g_clients g)) with (g_clients g); [by destruct g|].
  apply map_eq. intros i. destruct (decide (i = this)) as [->|].
  - rewrite lookup_alter_eq, Hc. cbn. by rewrite Hf.
  - by rewrite lookup_alter_ne.
Qed.

Lemma client_send_plain this bs g c :
  _connections (g_network g) !! this = Some c → _isEncrypted c = false →
  client_send this (Ok bs) g =
    (Ok tt, set_g_network (mk_Network (_connections (g_network g)) (_toSend (g_network g) ++ [(this, bs)])) g).
Proof.
  intros Hc He. unfold client_send, lift, on_network, member, mbind, M_bind.
  by rewrite (doWrite_plain _ _ _ c).
Qed.

(** C15: a client in the [Status] state that sends fourteen bytes, a ping whose
    length is -5, keeps its thread in the loop for ever: however many turns it is
    given, [_handlePacket] has not returned, the bytes are still in the buffer, and
    every turn has queued one more answer for the write thread. *)
Theorem negative_length_never_ends commands this c k g (turns : nat) :
  g_clients g !! this = Some c → _status c = ClientStatus_Status → _recvBuffer c = ping_minus_five →
  _connections (g_network g) !! this = Some k → _isEncrypted k = false →
  handle_loop commands turns this g =
    (OutOfFuel, set_g_network (mk_Network (_connections (g_network g))
                  (_toSend (g_network g) ++ repeat (this, pong) turns)) g).
Proof.
  intros Hc Hst Hb Hk He. revert g Hc Hk.
  induction turns as [|turns IH]; intros g Hc Hk; cbn [handle_loop repeat].
  { unfold lift. rewrite app_nil_r. by destruct g as [[]]. }
  assert (handle_turn commands this g = (Ok true, set_g_network (mk_Network (_connections (g_network g))
            (_toSend (g_network g) ++ [(this, pong)])) g)) as E.
  { rewrite (handle_turn_framed _ _ _ _ 1 [0; 0; 0; 0; 0; 0; 0; 42] ping_minus_five Hc)
      by (rewrite Hb; apply ping_minus_five_frame).
    rewrite (bind_run_ok _ _ _ tt g) by (apply (update_client_same _ _ c); [done|by destruct c; cbn in *; subst]).
    rewrite Hst. change (parsers ClientStatus_Status !! 1) with (Some (parser_of parsePingRequest PingRequest_packet)).
    cbv iota. change (parser_of parsePingRequest PingRequest_packet [0; 0; 0; 0; 0; 0; 0; 42])
      with (Ok (Some (PingRequest_packet (mk_PingRequest 42)))).
    cbv iota. rewrite (bind_run_ok _ _ g tt (set_g_network (mk_Network (_connections (g_network g))
            (_toSend (g_network g) ++ [(this, pong)])) g)); [done|].
    unfold handleParsedClientPacket. rewrite (bind_run_ok _ _ _ _ _ (this_client_run _ _ _ Hc)), Hst.
    unfold Client_onPingRequest, Client_sendPingResponse. cbn [PingRequest_payload].
    change (createPingResponse _) with (Ok pong). by apply (client_send_plain _ _ _ k). }
  rewrite (bind_run_ok _ _ _ _ _ E). rewrite IH by done.
  cbn [set_g_network g_network _connections _toSend]. by rewrite <- app_assoc.
Qed.
End Connections.

Lemma negative_length_never_ends_witness :
  ∃ g', handle_loop [] 1000 0 (example_game (example_config true false) json_null
          (mk_Client ClientStatus_Status ping_minus_five None nobody) false) = (OutOfFuel, g') ∧
    _toSend (g_network g') = repeat (0, pong) 1000.
Proof.
  eexists. split; [by apply (negative_length_never_ends [] 0 (mk_Client ClientStatus_Status ping_minus_five None nobody)
    (mk_Connection true false None))|reflexivity].
Defined.

