(* ===== verification/LoginProps.v ===== *)
(** * Properties of the login

    What it takes to get into the [Play] state when the server is in online mode,
    and what the whitelist is asked. *)

From S2P Require Import Prelude State Types Codec Pop ServerPackets ServerWire ClientPackets CreatePackets Network Json Message Whitelist Game Dimension World Player Commands PlayerHandlers Client Example ClientLaws ConnectionProps.

Section Login.
Context `{Cfb8} `{JobPool} `{JsonLib} `{!Plugins} `{Disk} `{Stod} `{Spdlog} `{Identity}.

(** ** Code that leaves the clients alone *)

Class SameClients {A} (p : M Game A) : Prop := same_clients : ∀ g, g_clients (p g).2 = g_clients g.

#[local] Instance same_ret {A} (a : A) : SameClients (mret a : M Game A).
Proof. done. Qed.
#[local] Instance same_lift {A} (r : result A) : SameClients (lift r : M Game A).
Proof. done. Qed.
#[local] Instance same_gets {A} (f : Game → A) : SameClients (gets f).
Proof. done. Qed.
#[local] Instance same_undefined {A} k : SameClients (undefined_ k : M Game A).
Proof. done. Qed.
#[local] Instance same_network {A} (p : M Network A) : SameClients (on_network p).
Proof. intros g. unfold on_network, member. by destruct (p (g_network g)). Qed.
#[local] Instance same_bind {A B} (p : M Game A) (f : A → M Game B) :
  SameClients p → (∀ a, SameClients (f a)) → SameClients (p ≫= f).
Proof.
  intros Hp Hf g. unfold mbind, M_bind. specialize (Hp g).
  destruct (p g) as [[a|e|k|] g']; cbn in *; [|done..]. by rewrite (Hf a g').
Qed.
#[local] Instance same_client_send this pck : SameClients (client_send this pck).
Proof. unfold client_send. apply _. Qed.

(** ** Code that does not enter the [Play] state *)

Definition not_play (this : Z) (g : Game) : Prop :=
  ∀ c, g_clients g !! this = Some c → _status c ≠ ClientStatus_Play.
Abbreviation stays_out this := (keeps (not_play this)).

Lemma out_same {A} this (p : M Game A) : SameClients p → stays_out this p.
Proof. intros Hp g Hg c. rewrite (Hp g). apply Hg. Qed.

Lemma out_this_client {B} this (f : Client → M Game B) :
  (∀ c, _status c ≠ ClientStatus_Play → stays_out this (f c)) → stays_out this (this_client this ≫= f).
Proof.
  intros Hf g Hg. unfold this_client, gets, mbind, M_bind.
  destruct (g_clients g !! this) as [c|] eqn:E; [|done]. apply Hf; [|done]. by apply Hg.
Qed.

Lemma out_update this f :
  (∀ c, _status c ≠ ClientStatus_Play → _status (f c) ≠ ClientStatus_Play) →
  stays_out this (update_client this f).
Proof.
  intros Hf g Hg c. unfold update_client, modify. cbn [snd set_g_clients g_clients].
  rewrite lookup_alter_eq, fmap_Some. intros (c' & Hc' & ->). apply Hf. by apply Hg.
Qed.

Lemma out_disconnect this m : stays_out this (Client_disconnect this m).
Proof.
  unfold Client_disconnect. apply out_this_client. intros c Hc.
  rewrite decide_False by done. apply out_same. apply _.
Qed.

Lemma out_onHandshake this pck : stays_out this (Client_onHandshake this pck).
Proof.
  unfold Client_onHandshake. repeat case_decide; [by apply out_update..|]. by apply out_same, _.
Qed.
Lemma out_onStatusRequest this : stays_out this (Client_onStatusRequest this).
Proof.
  unfold Client_onStatusRequest, Client_sendStatusResponse, in_server. apply out_same.
  repeat (apply same_bind; [apply _|intros ?]). case_match; apply _.
Qed.
Lemma out_onPingRequest this pck : stays_out this (Client_onPingRequest this pck).
Proof. apply out_same. unfold Client_onPingRequest, Client_sendPingResponse. apply _. Qed.

Lemma out_onLoginStart this pck g :
  config_online_mode (_config (g_server g)) = true → not_play this g →
  not_play this (Client_onLoginStart this pck g).2.
Proof.
  intros Hon Hg. unfold Client_onLoginStart, in_server.
  rewrite (bind_run_ok (gets _) _ g _ g eq_refl), (bind_run_ok (gets _) _ g _ g eq_refl). rewrite Hon.
  destruct (_worldsInitialized (g_server g)); cbn [negb]; [|by apply out_disconnect].
  revert Hg. apply keeps_bind.
  - apply out_same. case_match; [|apply _]. repeat (apply same_bind; [apply _|intros ?]). apply _.
  - intros []; [apply out_disconnect|]. apply keeps_bind; [by apply out_update|]. intros [].
    apply out_same. unfold Client_sendEncryptionRequest. apply _.
Qed.

(** The answer of the session server decides. *)
Lemma out_handleOnline {B} this key c g (f : bool → M Game B) :
  g_clients g !! this = Some c → not_play this g → stays_out this (f false) →
  has_joined (system_clock (g_server g)) (LoginSuccess_username (_resPck c)) (server_id key) = None →
  not_play this ((Client_handleOnline this key ≫= f) g).2.
Proof.
  intros Hc Hg Hf Hj.
  assert (E : Client_handleOnline this key g =
    (_ ← Client_disconnect this (Message_text "Disconnected"); mret false) g).
  { unfold Client_handleOnline, in_server. rewrite (bind_run_ok _ _ _ _ _ (this_client_run _ _ _ Hc)).
    rewrite (bind_run_ok (gets _) _ g _ g eq_refl). by rewrite Hj. }
  unfold mbind at 1, M_bind at 1. rewrite E. unfold mbind, M_bind.
  pose proof (out_disconnect this (Message_text "Disconnected") g Hg) as Hd.
  destruct (Client_disconnect _ _ g) as [[[]| | |] g']; cbn in *; [|done..]. by apply Hf.
Qed.

(** ** The answer of the client *)

Lemma shared_key_inv this pck key :
  shared_key this pck = Some key →
  ∃ token, RSA_decrypt (EncryptionResponse_verifyToken pck) encryptionMaximumLength = Some token ∧
    le_value token = client_token this ∧
    RSA_decrypt (EncryptionResponse_sharedSecret pck) encryptionMaximumLength = Some key ∧
    length key = 16%nat.
Proof.
  unfold shared_key. case_decide; [done|]. case_decide; [done|].
  destruct (RSA_decrypt (EncryptionResponse_verifyToken pck) _) as [token|]; [|done].
  cbn [mbind option_bind]. repeat (case_decide; [done|]).
  destruct (RSA_decrypt (EncryptionResponse_sharedSecret pck) _) as [k|]; [|done].
  cbn [mbind option_bind]. case_decide; [|done]. intros [= ->]. exists token.
  done.
Qed.

(** What the states before [Play] do with a packet. *)
Lemma out_initial this packet :
  stays_out this match packet with
    | Some (Handshake_packet p) => Client_onHandshake this p
    | _ => mret tt
    end.
Proof.
  destruct packet as [[]|]; try exact (out_same this _ (same_ret tt)). apply out_onHandshake.
Qed.
Lemma out_status this packet :
  stays_out this match packet with
    | None => Client_onStatusRequest this
    | Some (PingRequest_packet p) => Client_onPingRequest this p
    | _ => mret tt
    end.
Proof.
  destruct packet as [[]|]; try exact (out_same this _ (same_ret tt)).
  - apply out_onPingRequest.
  - apply out_onStatusRequest.
Qed.

(** The properties do not touch the identity. *)
Definition same_login (c c' : Client) : Prop :=
  _status c' = _status c ∧ LoginSuccess_uuid (_resPck c') = LoginSuccess_uuid (_resPck c) ∧
  LoginSuccess_username (_resPck c') = LoginSuccess_username (_resPck c).

Lemma collect_same_login this l g c :
  g_clients g !! this = Some c →
  ∃ c', g_clients (collect_properties this l g).2 !! this = Some c' ∧ same_login c c'.
Proof.
  revert g c. induction l as [|i l IH]; intros g c Hc; cbn [collect_properties]; [by exists c|].
  unfold lift at 1, mbind at 1, M_bind at 1. destruct (session_property i); try by exists c.
  unfold update_client, modify, mbind, M_bind.
  match goal with |- context [collect_properties this l ?g'] =>
    destruct (IH g' (set_resPck (mk_LoginSuccess (LoginSuccess_uuid (_resPck c)) (LoginSuccess_username (_resPck c))
      (LoginSuccess_properties (_resPck c) ++ [a])) c)) as (c' & Hc' & Hs & Hu & Hn)
  end.
  { cbn. by rewrite lookup_alter_eq, Hc. }
  exists c'. split; [done|]. by destruct c.
Qed.

(** What the answer of the session server says of a name. *)
Definition answered_identity (answer : string) (uuid : u128) : Prop :=
  ∃ j id, json_parse answer = Some j ∧ json_member "id" j ≫= json_get_string = Ok id ∧
    u128_fromShortString (string_bytes id) = Ok uuid.

(** The login goes on with the identity of the answer, or not at all. *)
Lemma handleOnline_identity {B} this key c g (f : bool → M Game B) answer :
  g_clients g !! this = Some c → not_play this g →
  has_joined (system_clock (g_server g)) (LoginSuccess_username (_resPck c)) (server_id key) = Some answer →
  not_play this ((Client_handleOnline this key ≫= f) g).2 ∨
  ∃ uuid c' g', answered_identity answer uuid ∧ g_clients g' !! this = Some c' ∧
    LoginSuccess_uuid (_resPck c') = uuid ∧
    LoginSuccess_username (_resPck c') = LoginSuccess_username (_resPck c) ∧
    (Client_handleOnline this key ≫= f) g = f true g'.
Proof.
  intros Hc Hg Hj.
  assert (E : Client_handleOnline this key g =
    (result ← lift (match json_parse answer with Some j => Ok j | None => Throw nlohmann_exception end);
     id ← lift (json_member "id" result ≫= json_get_string);
     uuid ← lift (u128_fromShortString (string_bytes id));
     _ ← update_client this (λ c, set_resPck
           (mk_LoginSuccess uuid (LoginSuccess_username (_resPck c)) (LoginSuccess_properties (_resPck c))) c);
     properties ← lift (json_member "properties" result);
     _ ← collect_properties this (json_elements properties);
     mret true) g).
  { unfold Client_handleOnline, in_server. rewrite (bind_run_ok _ _ _ _ _ (this_client_run _ _ _ Hc)).
    rewrite (bind_run_ok (gets _) _ g _ g eq_refl). by rewrite Hj. }
  enough (Hr : ∀ r, (Client_handleOnline this key ≫= f) g = r → not_play this r.2 ∨
    ∃ uuid c' g', answered_identity answer uuid ∧ g_clients g' !! this = Some c' ∧
      LoginSuccess_uuid (_resPck c') = uuid ∧
      LoginSuccess_username (_resPck c') = LoginSuccess_username (_resPck c) ∧ r = f true g') by (by apply Hr).
  intros r. unfold mbind at 1, M_bind at 1. rewrite E. clear E. unfold answered_identity.
  destruct (json_parse answer) as [j|]; [|by intros <-; left].
  rewrite (bind_run_ok (lift (Ok j)) _ g j g eq_refl).
  destruct (json_member "id" j ≫= json_get_string) as [id| | |] eqn:Eid; [|by intros <-; left..].
  rewrite (bind_run_ok (lift (Ok id)) _ g id g eq_refl).
  destruct (u128_fromShortString (string_bytes id)) as [uuid| | |] eqn:Eu; [|by intros <-; left..].
  rewrite (bind_run_ok (lift (Ok uuid)) _ g uuid g eq_refl).
  set (named := λ c, set_resPck
    (mk_LoginSuccess uuid (LoginSuccess_username (_resPck c)) (LoginSuccess_properties (_resPck c))) c).
  set (g1 := set_g_clients (alter named this (g_clients g)) g).
  assert (Hc1 : g_clients g1 !! this = Some (named c)) by (cbn; by rewrite lookup_alter_eq, Hc).
  assert (Hg1 : not_play this g1).
  { intros c' Hc'. rewrite Hc1 in Hc'. injection Hc' as <-. pose proof (Hg c Hc). by destruct c. }
  rewrite (bind_run_ok (update_client this named) _ g tt g1 eq_refl).
  destruct (json_member "properties" j) as [properties| | |]; [|by intros <-; left..].
  rewrite (bind_run_ok (lift (Ok properties)) _ g1 properties g1 eq_refl).
  destruct (collect_same_login this (json_elements properties) g1 (named c) Hc1) as (c' & Hc' & Hs & Hu & Hn).
  assert (Hg' : not_play this (collect_properties this (json_elements properties) g1).2).
  { intros c'' Hc''. rewrite Hc' in Hc''. injection Hc'' as <-. rewrite Hs. by apply Hg1. }
  unfold mbind at 1, M_bind at 1.
  destruct (collect_properties this (json_elements properties) g1) as [[[]| | |] g']; cbn in Hc', Hg'; [|by intros <-; left..].
  intros <-. right. exists uuid, c', g'. split; [by exists j, id|]. split; [exact Hc'|].
  destruct c; cbn in *. done.
Qed.

(** A packet of the login is a good encryption response, after which the login goes on, or
    changes nothing. *)
Lemma out_login this packet g c :
  config_online_mode (_config (g_server g)) = true → not_play this g → g_clients g !! this = Some c →
  (∃ pck key answer uuid c' g', packet = Some (EncryptionResponse_packet pck) ∧ shared_key this pck = Some key ∧
     has_joined (system_clock (g_server g)) (LoginSuccess_username (_resPck c)) (server_id key) = Some answer ∧
     answered_identity answer uuid ∧ g_clients g' !! this = Some c' ∧ LoginSuccess_uuid (_resPck c') = uuid ∧
     LoginSuccess_username (_resPck c') = LoginSuccess_username (_resPck c) ∧
     Client_onEncryptionResponse this pck g = Client_loginSequence this (_resPck c') g') ∨
  not_play this (match packet with
    | Some (LoginStart_packet p) => Client_onLoginStart this p
    | Some (EncryptionResponse_packet p) => Client_onEncryptionResponse this p
    | _ => mret tt
    end g).2.
Proof.
  intros Hon Hg Hc. destruct packet as [p|]; [|by right].
  destruct p; try (right; exact Hg); [right; by apply out_onLoginStart|].
  unfold Client_onEncryptionResponse.
  destruct (shared_key this packet) as [key|] eqn:Hk; [|right; by apply out_disconnect].
  destruct (on_network (start_encryption this key) g) as [[[]| | |] g0] eqn:Hn.
  2-4: right; unfold mbind at 1, M_bind at 1; rewrite Hn; pose proof (same_network (start_encryption this key) g) as Hs;
    rewrite Hn in Hs; cbn in Hs; intros c'; cbn; rewrite Hs; apply Hg.
  rewrite (bind_run_ok _ _ _ _ _ Hn).
  assert (g_clients g0 = g_clients g ∧ g_server g0 = g_server g) as [Hs Hv].
  { revert Hn. unfold on_network, member. destruct (start_encryption this key (g_network g)) as [r n].
    by intros [= _ <-]. }
  assert (Hc0 : g_clients g0 !! this = Some c) by (by rewrite Hs).
  assert (Hg0 : not_play this g0) by (intros c'; rewrite Hs; apply Hg).
  destruct (has_joined (system_clock (g_server g)) (LoginSuccess_username (_resPck c)) (server_id key))
    as [answer|] eqn:Hj; rewrite <- Hv in Hj.
  - destruct (handleOnline_identity this key c g0
      (λ online : bool, if online then c ← this_client this; Client_loginSequence this (_resPck c) else mret tt)
      answer Hc0 Hg0 Hj) as [Ho|(uuid & c' & g' & Ha & Hc' & Hu & Hname & E)]; [by right|].
    left. exists packet, key, answer, uuid, c', g'. rewrite Hk, <- Hv. split_and!; try done.
    cbn beta iota.
    rewrite (bind_run_ok _ _ _ _ _ Hn), E. by rewrite (bind_run_ok _ _ _ _ _ (this_client_run _ _ _ Hc')).
  - right. by eapply out_handleOnline; [exact Hc0|exact Hg0|apply out_same, _|].
Qed.

(** C14: in online mode nobody enters the [Play] state unverified: the one packet
    after which a client that was not in it is in it is an encryption response, in
    the [Login] state, whose token decrypts to the token of this very client, whose
    secret decrypts to sixteen bytes, and for whose server identifier, made of that
    secret and of the key of the server, the session server knows the name that
    the client gave; and what is done then is the login sequence for that name and
    for the identifier in the answer of the session server, whatever the client claimed. *)
Theorem online_login_verified commands this packet g c' :
  config_online_mode (_config (g_server g)) = true → not_play this g →
  g_clients (handleParsedClientPacket commands this packet g).2 !! this = Some c' →
  _status c' = ClientStatus_Play →
  ∃ c pck token key answer uuid resPck g',
    packet = Some (EncryptionResponse_packet pck) ∧
    g_clients g !! this = Some c ∧ _status c = ClientStatus_Login ∧
    RSA_decrypt (EncryptionResponse_verifyToken pck) encryptionMaximumLength = Some token ∧
    le_value token = client_token this ∧
    RSA_decrypt (EncryptionResponse_sharedSecret pck) encryptionMaximumLength = Some key ∧
    length key = 16%nat ∧
    has_joined (system_clock (g_server g)) (LoginSuccess_username (_resPck c)) (server_id key) = Some answer ∧
    answered_identity answer uuid ∧
    LoginSuccess_uuid resPck = uuid ∧ LoginSuccess_username resPck = LoginSuccess_username (_resPck c) ∧
    handleParsedClientPacket commands this packet g = Client_loginSequence this resPck g'.
Proof.
  intros Hon Hg Hc' Hplay.
  destruct (g_clients g !! this) as [c|] eqn:Hc.
  2:{ exfalso. apply (out_this_client this (λ _, mret tt) ltac:(intros; by apply out_same, _) g Hg c'); [|done].
      revert Hc'. unfold handleParsedClientPacket, this_client, gets, mbind, M_bind. by rewrite Hc. }
  pose proof (Hg c Hc) as Hst. revert Hc'. unfold handleParsedClientPacket.
  rewrite (bind_run_ok _ _ _ _ _ (this_client_run _ _ _ Hc)). cbv beta.
  destruct (_status c) eqn:Es; intros Hc'; [..|done].
  - by destruct (out_initial this packet g Hg c').
  - by destruct (out_status this packet g Hg c').
  - destruct (out_login this packet g c Hon Hg Hc)
      as [(pck & key & answer & uuid & c0 & g' & -> & Hk & Hj & Ha & _ & Hu & Hn & E)|Hout]; [|by destruct (Hout c')].
    destruct (shared_key_inv _ _ _ Hk) as (token & ? & ? & ? & ?).
    by exists c, pck, token, key, answer, uuid, (_resPck c0), g'.
Qed.

(** A second good response, after the session server refused the first one: the
    assertion that the cipher is not initialised twice stops the program. *)
Lemma second_response_stops this pck key g k h :
  shared_key this pck = Some key →
  _connections (g_network g) !! this = Some k → _encryption k = Some h →
  (Client_onEncryptionResponse this pck g).1 = UB FailedAssertion.
Proof.
  intros Hk Hc Hh. unfold Client_onEncryptionResponse. rewrite Hk. unfold mbind at 1, M_bind at 1.
  unfold on_network, member, start_encryption, gets, lift, mbind, M_bind. by rewrite Hc, Hh.
Qed.
End Login.

(** ** Examples *)

(** The clear text of the cipher of the examples. *)
Definition sealed (clear : list Z) : list Z :=
  Z.of_nat (length clear) :: clear ++ repeat 0 (16 - length clear).

Definition session_uuid : u128 := mk_u128 0xaaaaaaaaaaaaaaaa 0xbbbbbbbbbbbbbbbb.

Definition example_response : EncryptionResponse :=
  mk_EncryptionResponse (sealed (repeat 9 16)) (sealed [0; 16; 0; 0]).
Definition awaiting_game : Game :=
  example_game (example_config true false) json_null
    (mk_Client ClientStatus_Login [] None (mk_LoginSuccess (mk_u128 1 2) "alice" [])) false.

Lemma online_login_verified_witness :
  ∃ c pck token key answer uuid resPck g',
    Some (EncryptionResponse_packet example_response) = Some (EncryptionResponse_packet pck) ∧
    g_clients awaiting_game !! 0 = Some c ∧ _status c = ClientStatus_Login ∧
    RSA_decrypt (EncryptionResponse_verifyToken pck) encryptionMaximumLength = Some token ∧
    le_value token = client_token 0 ∧
    RSA_decrypt (EncryptionResponse_sharedSecret pck) encryptionMaximumLength = Some key ∧
    length key = 16%nat ∧
    has_joined 1000 (LoginSuccess_username (_resPck c)) (server_id key) = Some answer ∧
    answered_identity answer uuid ∧
    LoginSuccess_uuid resPck = uuid ∧ LoginSuccess_username resPck = LoginSuccess_username (_resPck c) ∧
    handleParsedClientPacket [] 0 (Some (EncryptionResponse_packet example_response)) awaiting_game =
      Client_loginSequence 0 resPck g'.
Proof.
  apply (online_login_verified [] 0 (Some (EncryptionResponse_packet example_response)) awaiting_game
           (mk_Client ClientStatus_Play [] (Some 1) (mk_LoginSuccess session_uuid "alice" []))).
  - reflexivity.
  - intros c. vm_compute. by intros [= <-].
  - vm_compute. reflexivity.
  - reflexivity.
Defined.

(** The whitelist is asked about the identifier that the client claims, before the
    session server gives the real one: whoever knows the identifier of a player
    of the list gets in under a name that is not in it. *)
Definition alice_only : json :=
  json_array [json_object [("name", json_string "alice"); ("uuid", json_string "11111111-111-111-112-222222222222222")]].

Definition as_alice : LoginStart :=
  mk_LoginStart "mallory" true (mk_u128 0x1111111111111111 0x2222222222222222).

Lemma whitelist_trusts_the_claim :
  let g := example_game (example_config true true) alice_only
    (mk_Client ClientStatus_Login [] None nobody) false in
  let '(r, g') := (_ ← handleParsedClientPacket [] 0 (Some (LoginStart_packet as_alice));
                   handleParsedClientPacket [] 0 (Some (EncryptionResponse_packet example_response))) g in
  r = Ok tt ∧
  (λ c, (_status c, LoginSuccess_uuid (_resPck c), LoginSuccess_username (_resPck c))) <$> g_clients g' !! 0 =
    Some (ClientStatus_Play, session_uuid, "mallory") ∧
  isPlayerWhitelisted alice_only session_uuid "mallory" = Ok (false, 0).
Proof. vm_compute. done. Qed.
