(* ===== verification/PlayerProps.v ===== *)
(** * Properties of players

    The keep-alive that disconnects a silent client, and hunger. *)

From S2P Require Import Prelude State Types Floats Structures Add PrimaryLaws CompositeLaws ChunkColumn Level Container Inventory ClientPackets CreatePackets Network Json Message Game Dimension World PlayerView Player Commands PlayerHandlers Client Example PermissionProps.

(** ** Running on a player *)

Section Running.
Context `{Cfb8} `{JobPool}.

Definition with_player (this : Z) (f : Player → Player) (g : Game) : Game :=
  set_g_players (alter f this (g_players g)) g.

Lemma update_player_run this f g : update_player this f g = (Ok tt, with_player this f g).
Proof. done. Qed.


Lemma with_player_lookup this f g p :
  g_players g !! this = Some p → g_players (with_player this f g) !! this = Some (f p).
Proof. intros E. unfold with_player. cbn [g_players set_g_players]. by rewrite lookup_alter_eq, E. Qed.

Lemma with_player_with_player this f h g :
  with_player this f (with_player this h g) = with_player this (λ p, f (h p)) g.
Proof.
  unfold with_player. cbn [g_players set_g_players]. unfold set_g_players. cbn. f_equal.
  apply map_eq. intros i. destruct (decide (i = this)) as [->|]; [|by rewrite !lookup_alter_ne].
  rewrite !lookup_alter_eq. by destruct (g_players g !! this).
Qed.

Lemma with_player_ext this f h g p :
  g_players g !! this = Some p → f p = h p → with_player this f g = with_player this h g.
Proof.
  intros Hp E. unfold with_player. f_equal. apply map_eq. intros i.
  destruct (decide (i = this)) as [->|]; [|by rewrite !lookup_alter_ne].
  rewrite !lookup_alter_eq, Hp. cbn. by rewrite E.
Qed.

Lemma with_player_id this g : with_player this (λ p, p) g = g.
Proof.
  unfold with_player. rewrite (alter_id (λ p, p)); [by destruct g|done].
Qed.
End Running.

(** ** Keep-alive *)

Section KeepAlive.
Context `{Cfb8} `{JobPool} `{JsonLib} `{!Plugins}.

(** [n] ticks of the clock of a player. *)
Fixpoint keep_alive_ticks (n : nat) (this : Z) : M Game unit :=
  match n with
  | O => mret tt
  | S n => _ ← keep_alive_ticks n this; Player_tickKeepAlive this
  end.

(** The player [n] ticks after the clock was at 0, when nothing is answered. *)
Definition kept (ignored n : Z) (p : Player) : Player :=
  set_keepAliveIgnored (ignored + n / 200)
    (set_keepAliveClock (mk_TickClock true 200 (n `mod` 200)) p).

Definition waiting (ignored : Z) (p : Player) : Prop :=
  _keepAliveId p ≠ 0 ∧ _keepAliveIgnored p = ignored ∧ _keepAliveClock p = mk_TickClock true 200 0.

Lemma tick_quiet this p g t :
  g_players g !! this = Some p → _keepAliveClock p = mk_TickClock true 200 t → 0 ≤ t < 199 →
  Player_tickKeepAlive this g =
    (Ok tt, with_player this (set_keepAliveClock (mk_TickClock true 200 (t + 1))) g).
Proof.
  intros Hp Hc Ht. unfold Player_tickKeepAlive. rewrite (bind_run_ok _ _ _ _ _ (this_player_run _ _ _ Hp)).
  assert (TickClock_tick (mk_TickClock true 200 t) = (false, mk_TickClock true 200 (t + 1))) as E.
  { unfold TickClock_tick. cbn [clock_started clock_tickRate clock_tick negb].
    assert (to_u16 (t + 1) = t + 1) as -> by (apply wrap_u_id; unfold is_u; change (2 ^ 16) with 65536; lia).
    by rewrite decide_True by lia. }
  rewrite Hc, E. cbv iota beta. by rewrite (bind_run_ok _ _ _ _ _ (update_player_run _ _ _)).
Qed.

Lemma tick_fire this p g :
  g_players g !! this = Some p → _keepAliveClock p = mk_TickClock true 200 199 →
  Player_tickKeepAlive this g =
    Player_processKeepAlive this (with_player this (set_keepAliveClock (mk_TickClock true 200 0)) g).
Proof.
  intros Hp Hc. unfold Player_tickKeepAlive. rewrite (bind_run_ok _ _ _ _ _ (this_player_run _ _ _ Hp)).
  rewrite Hc. change (TickClock_tick (mk_TickClock true 200 199)) with (true, mk_TickClock true 200 0).
  cbv iota beta. by rewrite (bind_run_ok _ _ _ _ _ (update_player_run _ _ _)).
Qed.

Lemma process_ignored this p g :
  g_players g !! this = Some p → _keepAliveId p ≠ 0 → 0 ≤ _keepAliveIgnored p < 255 →
  clock_tickRate (_keepAliveClock p) = 200 →
  Player_processKeepAlive this g =
    (if decide (30 ≤ _keepAliveIgnored p + 1) then
       Player_disconnect this (Message_text "Skill issues detected")
         (with_player this (set_keepAliveIgnored (_keepAliveIgnored p + 1)) g)
     else (Ok tt, with_player this (set_keepAliveIgnored (_keepAliveIgnored p + 1)) g)).
Proof.
  intros Hp Hid Hi Hr. unfold Player_processKeepAlive.
  rewrite (bind_run_ok (in_server _) _ g _ g eq_refl).
  rewrite (bind_run_ok _ _ _ _ _ (this_player_run _ _ _ Hp)). rewrite decide_True by done.
  rewrite (bind_run_ok _ _ _ _ _ (update_player_run _ _ _)).
  assert (to_u8 (_keepAliveIgnored p + 1) = _keepAliveIgnored p + 1) as ->.
  { apply wrap_u_id. unfold is_u. change (2 ^ 8) with 256. lia. }
  rewrite (bind_run_ok _ _ _ _ _ (this_player_run _ _ _ (with_player_lookup _ _ _ _ Hp))).
  change (_keepAliveClock (set_keepAliveIgnored _ p)) with (_keepAliveClock p).
  change (_keepAliveIgnored (set_keepAliveIgnored ?v p)) with v. rewrite Hr. unfold MAX_TICK_BEFORE_TIMEOUT.
  destruct (decide (30 ≤ _keepAliveIgnored p + 1)); [rewrite decide_True by lia; done|].
  by rewrite decide_False by lia.
Qed.

Lemma kept_clock ignored n p : _keepAliveClock (kept ignored n p) = mk_TickClock true 200 (n `mod` 200).
Proof. done. Qed.

(** Before the last tick nothing happens but to the clock and to the count. *)
Lemma keep_alive_waits this p g ignored (n : nat) :
  g_players g !! this = Some p → waiting ignored p → 0 ≤ ignored →
  Z.of_nat n < 200 * (30 - ignored) →
  keep_alive_ticks n this g = (Ok tt, with_player this (kept ignored (Z.of_nat n)) g).
Proof.
  intros Hp (Hid & Hi & Hc) Hpos. induction n as [|n IH]; intros Hn.
  - cbn [keep_alive_ticks]. unfold mret, M_ret. f_equal.
    rewrite <- (with_player_id this g) at 1. eapply with_player_ext; [done|].
    destruct p; cbn in *. subst. unfold kept, set_keepAliveIgnored, set_keepAliveClock. cbn. f_equal. div_lia.
  - cbn [keep_alive_ticks]. rewrite (bind_run_ok _ _ _ _ _ (IH ltac:(lia))). clear IH.
    pose proof (with_player_lookup this (kept ignored (Z.of_nat n)) g p Hp) as Hp1.
    pose proof (Z.mod_pos_bound (Z.of_nat n) 200 ltac:(lia)).
    destruct (decide (Z.of_nat n `mod` 200 = 199)) as [E|E].
    + rewrite (tick_fire _ _ _ Hp1) by (rewrite kept_clock, E; done). rewrite with_player_with_player.
      rewrite (process_ignored _ _ _ (with_player_lookup _ _ _ _ Hp)).
      2:{ exact Hid. }
      2:{ cbn. div_lia. }
      2:{ done. }
      cbn [kept set_keepAliveIgnored set_keepAliveClock _keepAliveIgnored].
      rewrite decide_False by div_lia. rewrite with_player_with_player. f_equal.
      eapply with_player_ext; [done|]. unfold kept, set_keepAliveIgnored, set_keepAliveClock. cbn.
      f_equal; [div_lia|]. f_equal. div_lia.
    + rewrite (tick_quiet _ _ _ (Z.of_nat n `mod` 200) Hp1) by (done || lia).
      rewrite with_player_with_player. f_equal. eapply with_player_ext; [done|].
      unfold kept, set_keepAliveIgnored, set_keepAliveClock. cbn. f_equal; [div_lia|]. f_equal. div_lia.
Qed.

Lemma disconnect_run this p g k text bs n' :
  g_players g !! this = Some p → _connections (g_network g) !! _cli p = Some k →
  serialize_message (Message_text text) = Ok bs.1 → createPlayDisconnect (mk_Disconnect bs.1) = Ok bs.2 →
  send (_cli p) (Ok bs.2) (g_network g) = (Ok tt, n') →
  plugin_events (onPlayerLeave this) = [] →
  Player_disconnect this (Message_text text) g =
    (Ok tt, set_g_network (Client_stop (_cli p) n').2 g).
Proof.
  intros Hp Hk Hs Hd Hn Hl. unfold Player_disconnect.
  rewrite (bind_run_ok _ _ _ _ _ (this_player_run _ _ _ Hp)).
  rewrite (bind_run_ok (gets _) _ g _ g eq_refl). rewrite Hk.
  rewrite (bind_run_ok (lift _) _ g bs.1 g) by (unfold lift; by rewrite Hs).
  assert (send_to this (createPlayDisconnect (mk_Disconnect bs.1)) g = (Ok tt, set_g_network n' g)) as E.
  { unfold send_to. rewrite (bind_run_ok _ _ _ _ _ (this_player_run _ _ _ Hp)). rewrite Hd.
    unfold on_network, member. by rewrite Hn. }
  rewrite (bind_run_ok _ _ _ _ _ E). unfold onEvent. rewrite Hl. done.
Qed.

Lemma Client_stop_running id n :
  writable id n → _isRunning <$> _connections (Client_stop id n).2 !! id = Some false.
Proof.
  intros (c & Hc & _). unfold Client_stop, modify. cbn [snd]. rewrite Hc.
  unfold set_connection. cbn [_connections]. by rewrite lookup_insert_eq.
Qed.

(** C16: a client that does not answer is disconnected: 200 * (30 - i) ticks after
    the keep-alive was sent to a player that had already ignored i of them (6000
    ticks when it had ignored none), the connection is stopped and the reason
    queued; and not before: at every earlier tick the game has not changed but for
    the clock and the count of the player. *)
Theorem silent_client_disconnected this p g ignored text frame :
  g_players g !! this = Some p → waiting ignored p → 0 ≤ ignored < 30 →
  writable (_cli p) (g_network g) → plugin_events (onPlayerLeave this) = [] →
  serialize_message (Message_text "Skill issues detected") = Ok text →
  createPlayDisconnect (mk_Disconnect text) = Ok frame →
  let limit := 200 * (30 - ignored) in
  (∀ n : nat, Z.of_nat n < limit →
     keep_alive_ticks n this g = (Ok tt, with_player this (kept ignored (Z.of_nat n)) g)) ∧
  ∃ g' sent, keep_alive_ticks (Z.to_nat limit) this g = (Ok tt, g') ∧
    send (_cli p) (Ok frame) (g_network g) = (Ok tt, sent) ∧
    _toSend (g_network g') = _toSend sent ∧
    _isRunning <$> _connections (g_network g') !! _cli p = Some false.
Proof.
  intros Hp Hw Hi Hwr Hev Htext Hframe limit. split; [intros n Hn; apply (keep_alive_waits _ p); try done; lia|].
  destruct (send_ok (_cli p) frame (g_network g) Hwr) as (sent & Hsent & Hless & _).
  assert (Z.to_nat limit = S (Z.to_nat (limit - 1))) as -> by lia. cbn [keep_alive_ticks].
  rewrite (bind_run_ok _ _ _ _ _ (keep_alive_waits this p g ignored (Z.to_nat (limit - 1)) Hp Hw ltac:(lia) ltac:(lia))).
  assert (Z.of_nat (Z.to_nat (limit - 1)) = 200 * (29 - ignored) + 199) as -> by lia.
  pose proof (with_player_lookup this (kept ignored (200 * (29 - ignored) + 199)) g p Hp) as Hp1.
  destruct Hw as (Hid & Hig & Hc).
  rewrite (tick_fire _ _ _ Hp1) by (rewrite kept_clock; f_equal; div_lia).
  rewrite with_player_with_player.
  rewrite (process_ignored _ _ _ (with_player_lookup _ _ _ _ Hp)); [|exact Hid|cbn; div_lia|done].
  cbn [kept set_keepAliveIgnored set_keepAliveClock _keepAliveIgnored].
  rewrite decide_True by div_lia. rewrite with_player_with_player.
  destruct (Hwr) as (k & Hk & _).
  eexists _, sent. split.
  - eapply (disconnect_run _ _ _ k _ (text, frame) sent); [by apply with_player_lookup|exact Hk|done|done|exact Hsent|done].
  - cbn [g_network set_g_network]. split; [done|]. split; [|apply Client_stop_running, Hless, Hwr].
    unfold Client_stop, modify. cbn [snd _cli]. by destruct (_connections sent !! _).
Qed.
End KeepAlive.

Lemma silent_client_disconnected_witness :
  let g := with_player 0 (set_keepAliveId 77) joined_game in
  (∀ n : nat, Z.of_nat n < 6000 →
     keep_alive_ticks n 0 g = (Ok tt, with_player 0 (kept 0 (Z.of_nat n)) g)) ∧
  ∃ g' sent, keep_alive_ticks 6000 0 g = (Ok tt, g') ∧
    send 0 (Ok [6; 23; 4; 106; 115; 111; 110]) (g_network g) = (Ok tt, sent) ∧
    _toSend (g_network g') = _toSend sent ∧
    _isRunning <$> _connections (g_network g') !! 0 = Some false.
Proof.
  exact (silent_client_disconnected 0 (set_keepAliveId 77 example_player)
    (with_player 0 (set_keepAliveId 77) joined_game) 0 "json" [6; 23; 4; 106; 115; 111; 110]
    eq_refl ltac:(by split_and!) ltac:(lia)
    ltac:(exists (mk_Connection true false None); split; [reflexivity|by intros [=]])
    eq_refl eq_refl eq_refl).
Defined.

(** ** Hunger *)

Definition food_ok (p : Player) : Prop :=
  MIN_FOOD_LEVEL ≤ _foodLevel p ≤ MAX_FOOD_LEVEL ∧ 0 ≤ _foodTickTimer p ≤ 80.

(** What a tick leaves alone, for the two conditions that are read again after it. *)
Definition same_condition (p p' : Player) : Prop :=
  recovering p' = recovering p ∧ starving p' = starving p.

Lemma food_starve_ok p :
  food_ok p → let '(p', b) := food_starve (p, false) in
  food_ok p' ∧ (b = false → p' = p ∧ (starving p = true → _foodTickTimer p < 80)).
Proof.
  intros Hp. unfold food_starve. destruct (starving p); cbn [andb].
  - case_bool_decide; (split; [|]); try done.
    + destruct Hp. split; cbn; lia.
    + intros _. split; [done|lia].
  - by split.
Qed.

Lemma food_regenerate_ok p b :
  food_ok p → let '(p', b') := food_regenerate (p, b) in
  food_ok p' ∧ (b' = false → b = false ∧ p' = p ∧ (recovering p = true → _foodTickTimer p < 80)).
Proof.
  intros Hp. unfold food_regenerate. destruct (recovering p); [|by split].
  assert (Hreset : ∀ q q', food_ok q → _foodLevel q' = _foodLevel q → _foodTickTimer q' = 0 → food_ok q').
  { intros q q' [] E1 E2. unfold food_ok. rewrite E1, E2. lia. }
  destruct (SFltb _ _ && _ && _).
  - cbn [_foodTickTimer food_heal set_foodTickTimer]. rewrite bool_decide_false by lia. split; [|done].
    by eapply (Hreset p).
  - case_bool_decide as Ht; (split; [|]); try done; [by eapply (Hreset p)|]. intros ->. split_and!; try done. lia.
Qed.

Lemma food_exhaust_ok p b :
  food_ok p → let '(p', b') := food_exhaust (p, b) in
  food_ok p' ∧ (b' = false → b = false ∧ p' = p).
Proof.
  intros Hp. unfold food_exhaust. destruct (SFleb _ _ && negb b); [|by split].
  destruct Hp as [H1 H2]. destruct (SFltb _ _); (split; [|done]).
  - split; cbn; lia.
  - unfold food_ok, MIN_FOOD_LEVEL, MAX_FOOD_LEVEL in *. cbn. case_decide; lia.
Qed.

Lemma food_resetTimer_ok p :
  food_ok p → food_ok (food_resetTimer p) ∧ same_condition p (food_resetTimer p) ∧
  _foodTickTimer (food_resetTimer p) ≤ _foodTickTimer p.
Proof. intros [H1 H2]. unfold food_resetTimer. case_decide; (split; [|split; [done|cbn; lia]]); done. Qed.

Lemma food_tick_ok p : food_ok p → food_ok (food_tick p).1.
Proof.
  intros Hp. unfold food_tick. pose proof (food_starve_ok p Hp) as H1.
  destruct (food_starve (p, false)) as [p1 b1]. destruct H1 as [Hp1 E1].
  pose proof (food_regenerate_ok p1 b1 Hp1) as H2.
  destruct (food_regenerate (p1, b1)) as [p2 b2]. destruct H2 as [Hp2 E2].
  pose proof (food_exhaust_ok p2 b2 Hp2) as H3.
  destruct (food_exhaust (p2, b2)) as [p3 b3]. destruct H3 as [Hp3 E3].
  destruct (food_resetTimer_ok p3 Hp3) as (Hp4 & [Hr Hs] & Ht). cbn [fst].
  destruct b3; [done|]. destruct (E3 eq_refl) as [-> ->]. destruct (E2 eq_refl) as (-> & -> & Hrec).
  destruct (E1 eq_refl) as (-> & Hst). cbn [negb andb]. rewrite Hr, Hs.
  destruct (recovering p || starving p) eqn:E; [|done]. apply orb_true_iff in E.
  destruct Hp4 as [Hf Htim]. split; cbn; [done|]. destruct E as [E|E]; [apply Hrec in E|apply Hst in E]; lia.
Qed.

Section Hunger.
Context `{Cfb8} `{JobPool} `{!Plugins}.

Definition players_food_ok (g : Game) : Prop := ∀ i p, g_players g !! i = Some p → food_ok p.

Lemma food_keeps_update this f :
  (∀ p, food_ok p → food_ok (f p)) → keeps players_food_ok (update_player this f).
Proof.
  intros Hf g Hg i p. cbn [snd update_player modify set_g_players g_players].
  destruct (decide (i = this)) as [->|].
  - rewrite lookup_alter_eq, fmap_Some. intros (q & Hq & ->). by eapply Hf, Hg.
  - rewrite lookup_alter_ne by done. apply Hg.
Qed.

Lemma food_keeps_network {A} (p : M Network A) : keeps players_food_ok (on_network p).
Proof. apply keeps_member. done. Qed.

Lemma keeps_this_player (I : Game → Prop) this : keeps I (this_player this).
Proof.
  unfold this_player. apply keeps_bind; [apply keeps_gets|]. intros [p|]; [apply keeps_ret|apply keeps_undefined].
Qed.

Lemma food_keeps_send this pck : keeps players_food_ok (send_to this pck).
Proof. apply keeps_bind; [apply keeps_this_player|]. intros p. apply food_keeps_network. Qed.

Lemma food_keeps_held this : keeps players_food_ok (held this).
Proof.
  apply keeps_bind; [apply keeps_this_player|]. intros p. apply keeps_bind; [apply keeps_lift|].
  intros r. apply keeps_ret.
Qed.

Lemma food_keeps_tick this : keeps players_food_ok (Player_foodTick this).
Proof.
  intros g Hg. unfold Player_foodTick. destruct (g_players g !! this) as [p|] eqn:Hp.
  2:{ unfold this_player, gets, mbind, M_bind. by rewrite Hp. }
  rewrite (bind_run_ok _ _ _ _ _ (this_player_run _ _ _ Hp)). destruct (hungry_mode p); [|done].
  pose proof (food_tick_ok p (Hg _ _ Hp)) as Hok. destruct (food_tick p) as [p' b]. cbn [fst] in Hok.
  revert g Hg Hp. intros g Hg _. revert g Hg. apply keeps_bind; [by apply food_keeps_update|].
  intros []. destruct b; [|apply keeps_ret]. apply keeps_bind; [apply keeps_this_player|].
  intros q. apply food_keeps_send.
Qed.

(** What a player has eaten: every food of the table has a positive value. *)
Lemma foodItems_positive f : f ∈ foodItems → 0 < food_value f.
Proof.
  revert f. apply list.Forall_forall. unfold foodItems.
  repeat (apply Forall_cons_2; [done|]). apply Forall_nil_2.
Qed.

Lemma food_keeps_take_one this : keeps players_food_ok (take_one this).
Proof.
  apply keeps_bind; [apply food_keeps_held|]. intros h. by apply food_keeps_update.
Qed.

Lemma food_keeps_eat this : keeps players_food_ok (Player_eat this).
Proof.
  intros g Hg. unfold Player_eat. destruct (g_players g !! this) as [p|] eqn:Hp.
  2:{ unfold this_player, gets, mbind, M_bind. by rewrite Hp. }
  rewrite (bind_run_ok _ _ _ _ _ (this_player_run _ _ _ Hp)). pose proof (Hg _ _ Hp) as Hok. revert Hg. clear Hp.
  destruct (negb (hungry_mode p)); [done|]. apply keeps_bind; [apply food_keeps_held|]. intros h.
  case_match; [apply keeps_ret|]. destruct (List.find _ foodItems) as [f|] eqn:Hf; [|apply keeps_ret].
  apply List.find_some in Hf as [Hf _]. pose proof (foodItems_positive f ltac:(by apply list_elem_of_In)).
  case_decide; [apply keeps_ret|]. cbn zeta. apply keeps_bind.
  - apply food_keeps_update. intros q [_ Hq]. destruct Hok as [Hok _]. split; [|done].
    cbn. unfold MIN_FOOD_LEVEL, MAX_FOOD_LEVEL in *. case_decide; lia.
  - intros []. apply keeps_bind; [unfold Player_sendHealth; apply keeps_bind; [apply keeps_this_player|intros q; apply food_keeps_send]|].
    intros []. apply keeps_bind; [apply food_keeps_take_one|]. intros [].
    unfold Player_sendSetContainerSlot. apply keeps_bind; [apply keeps_this_player|]. intros q. apply food_keeps_send.
Qed.

(** The ticks and the meals of the players, in any order. *)
Inductive hunger_step : Type := tick_of (player : Z) | meal_of (player : Z).
Definition hunger_run (s : hunger_step) : M Game unit :=
  match s with tick_of player => Player_foodTick player | meal_of player => Player_eat player end.

(** C17: hunger stays in its bounds: from a game in which every player has between
    0 and 20 of food and a timer of at most 80, whatever ticks and meals follow, by
    whichever players and in whichever order, and whatever becomes of the packets
    they send, every player has between 0 and 20 of food and a timer of at most
    80. *)
Theorem hunger_bounds (steps : list hunger_step) (g : Game) :
  players_food_ok g → players_food_ok (for_each steps hunger_run g).2.
Proof.
  apply keeps_for_each. intros [player|player] _; [apply food_keeps_tick|apply food_keeps_eat].
Qed.
End Hunger.

Lemma hunger_bounds_witness :
  players_food_ok (for_each [tick_of 0; meal_of 0; tick_of 0] hunger_run joined_game).2.
Proof.
  apply (hunger_bounds [tick_of 0; meal_of 0; tick_of 0] joined_game). intros i p. unfold joined_game, example_game.
  cbn [g_players]. rewrite lookup_singleton_Some. intros [_ <-]. by vm_compute.
Defined.
